(* ===== verification/_CoqProject ===== *)
-Q . S2P
Prelude.v
CText.v
BStack.v
Chain.v
BStackList.v
BStackArray.v
BStackProg.v
BItem.v
BQueue.v
BList.v
RBTree.v
Acct.v
Pfexecvar.v
PfexecEnv.v
Pfexecd.v
PfexecConf.v
PfexecdMain.v
KernPfexec.v
KernPfexecTask.v
PfexecCmd.v
RHdr.v
RProcess.v
RClient.v
RHandleServ.v
RIPop.v
RMap.v
RStr.v
RSrv.v
RSrvT.v
Metrics.v
MetricsProofs.v
MetricsMods.v
HttpSrv.v
HttpMain.v
RecDescent.v
Sudoku.v
GThing.v
GList.v
GGrid.v
GGame.v
GHub.v
GAgent.v
GPlayers.v
GMatch.v
GSetup.v
Naval.v
RpsText.v
RpsClient.v
RpsServer.v
AcctCtl.v
