(* ===== verification/Prelude.v ===== *)
(** * Verification of the Cprogramming collection

    The repository is a collection of C programs.  This library models those with
    the most logic of their own and proves what makes them correct.  Every
    definition is a translation of C code: a structure is a [Record], a function a
    [Definition] or a [Fixpoint] with the name of the function, a shared state is
    passed from call to call, an integer is a [Z] with the conversion to its type
    written out ([u8], [u16], [u32], [s32], ... below), and a use of NULL or a write
    outside of an array is a value of the type [ub].

    ** Parts

    - pfexec ([src/0.syscall-pfexec-obsd]), a system call that runs a program as
      another user.  The command ([pfexec/pfexec.c], file [PfexecCmd]) finds the
      program and makes the call.  The kernel side ([kern/kern_pfexec.c], file
      [KernPfexec]; with its task, its memory and signals, file [KernPfexecTask])
      sends the daemon a request; the daemon ([pfexecd/pfexecd.c], file
      [Pfexecd]) looks for the last rule that matches it and answers with
      credentials and an environment, which [pfexecd/env.c] (file [PfexecEnv])
      builds; the kernel then takes the credentials over and executes the program,
      which changes them again when it is set-user-id or set-group-id ([kern_exec.c]).
      The rules are read from a text by the scanner and the grammar of
      [pfexecd/parse.y] (file [PfexecConf]) when the daemon starts (file
      [PfexecdMain]).  The structures that both sides share ([kern/pfexecvar.h],
      [kern/pfexec.h], [pfexecd.h]) and the areas of strings in them are in
      [Pfexecvar].
    - acct ([src/1.acct-driver-obsd/src/acct.c], [acct.h], file [Acct]), a device
      that records what processes do to tracked files, and its control program
      ([testing/acctctl.c], file [AcctCtl]), which works on the modelled device.
    - ReliableUDP ([src/2.0.ReliableUDP]), a file server over UDP: the packets
      ([RHdr.h], [RKey.h], file [RHdr]), the server's side of a connection
      ([RQueue.h], [RState.h], [RProcess.h], file [RProcess]), the client
      ([RClient.c], file [RClient]) and the server with its tree of clients and its
      threads ([RHandleServ.h], [RUSHBSvr.c], file [RHandleServ]).
    - LinkLayerSim ([src/2.1.LinkLayerSim]), a simulation of switches: their
      addresses ([RIPop.h], file [RIPop]), the routes ([RMap.h], file [RMap]), the
      packets and their fragments ([RSPkt.h], [RStr.h], [RTabel.h], file [RStr]), a
      switch with its adaptors over UDP and its choice of a route ([RSrvUdp.h],
      [RSrvUHandle.h], [RSrvTHandle.h], file [RSrv]) and the connections between
      switches with the poll loop ([RDstPkt.h], [RSrvTcp.h], [RSrvTHandle.h],
      [RTUp.h], file [RSrvT]).
    - The statistics server ([src/2.libevent-server/src]): the registry of metrics
      ([metrics.c], files [Metrics] and [MetricsProofs]), the modules that collect
      them from the kernel ([collect_*.c], file [MetricsMods]), the server of HTTP
      that answers with them ([main.c], file [HttpSrv]), and its start and its log
      ([main.c], [log.c], file [HttpMain]).
    - The game protocol ([src/4.Game-Protocol]): a server that brings players
      together, with a thread for each (file [RpsServer]), its client (file
      [RpsClient]) and the messages between them (file [RpsText]).
    - Game management ([src/5.Game-Management]), a game of ships between two
      programs that a hub starts: strings ([thing.h], file [GThing]), lists, queues
      and stacks ([node.c], [list.c], [queue.c], [stack.c], file [GList]), the grid
      ([grid.c], file [GGrid]), the moves and the game ([move.c], [game.c], file
      [GGame]), the hub ([2310hub.c], file [GHub]), the two players ([agent.c], files
      [GAgent] and [GPlayers]), all three together (file [GMatch]) and the start from
      the files ([read.c] and the functions [main], file [GSetup]).  The version for
      one terminal ([src/6.BattleShip], file [Naval]) shares most of these files.
    - The sudoku checker ([src/9.sudoku], file [Sudoku]), with a thread for each row
      and column, and the recursive-descent parser
      ([src/B.lex_yacc/src/recursive-descent], file [RecDescent]).
    - The basic containers ([src/A.basic]): stacks ([1.Stack], files [BStack],
      [BStackList], [BStackArray]) with the programs that use them (file
      [BStackProg]), the strings and the queue of [2.Queue] (files [BItem] and
      [BQueue]) and the lists of [3.Graph/1.Func] (file [BList]); [Chain] has the
      chains of nodes that the linked ones are made of.

    This file has the integers, the strings, the monad [ub] and the tactics that all
    share; [CText] has the functions of [<ctype.h>], [<string.h>] and [<stdlib.h>]
    that several programs use.

    ** Interfaces

    - The trees of the BSD header [sys/tree.h], which four of the programs use: the
      class [RBTree] of the operations and [RBTreeLaws] of what their manual page
      documents, and [RBCmp] with [RBCmpLaws] for keys that are ordered by a
      comparison with variants (file [RBTree], with instances that the witnesses
      compute with).  [KeyOrder] is what a comparison function has to be for the laws to
      mean anything, and [RBTreeFor] a tree that keeps them for it; for the tree of
      [Acct] the comparison, which cuts a difference of pointers to an int, is proved to
      be one for fewer than 2^31 vnodes ([trkvnode_order]), and shown not to be one in
      general ([compare_truncates]).
    - [QueueI] and [QueueLaws] (file [GGame]): what the game asks of a queue of
      strings.  The queue of linked nodes of [GList] and plain lists are instances;
      the game, the players and the set-up are proved against the class.
    - [StackI] and [StackLaws] (file [BStack]): what [stack.h] promises.  The linked
      stack and the array are instances, and [brackets.c] and [derpcalc.c] are proved
      against the class.
    - [Stats] (file [HttpSrv]): what the HTTP server asks of the registry, which
      the registry of [Metrics] implements.
    - [Conversion] (file [RClient]): what the C library makes of a conversion such as
      [%d] in the messages that the client uses as formats.
    - [Yacc] (file [PfexecConf]): what yacc promises of the parser that it writes from
      the grammar; a parser that keeps the promise is an instance.
    - [Plain] (file [GMatch]): agents that guess row by row, of which [agent1] and
      [agent2] are instances.

    ** Correspondence of state

    - [Acct.driver] has the static variables of acct.c: [driver_ctl], the sequence
      number, the queue ([acct_list], newest first), the tree [f_tracker] and the
      depth of the lock of the queue; [acct_op] lists the calls and [run_ops]
      runs a sequence of them.
    - [Pfexecd.daemon] has the list of clients, the descriptors whose event is
      pending and whether the listening event is; [event_dispatch] runs a sequence
      of events and collects the effects.  [PfexecConf.lexer] has the rest of the
      text, the line and the messages; [PfexecdMain.proc] what the start changes of
      the process: its ids, groups, directory and promises.
    - [KernPfexec.process] has the fields of the process that the call changes.
      [KernPfexecTask.call] adds the fields of [sock_data], where the call and its task
      are, and the set of the objects that are allocated; [run] takes their steps, and
      signals, in any order.
    - [RProcess.RState] has the fields of [RState_t]; the queues MYS and HIS are
      lists, and the pointers [curr] and [request] indices into them.
    - [RHandleServ.server] is the tree of addresses, each with its tree of ports,
      and the threads that were created and have not run yet; [sevent] lists what
      can happen and [srun] runs a sequence, in any interleaving.
    - [RMap.RMap] is the list of switches with their lists of distances.
    - [RSrv.RTUp] has the UDP side of a switch (its addresses and adaptors, each with
      a mailbox), the TCP side (the lists of other switches, the routes, the table)
      and the sockets; [udp_run] handles a sequence of datagrams and collects what is
      sent.  In [RSrvT] the buffers of the connections, which switches share, are a
      store that is passed along.
    - [Metrics.registry] has the metrics, each with its tree of values and the nodes,
      which carry the links of the list [old_values]; [HttpSrv.server] the
      connections with their buffers and the flags of their events, over an allocator
      that says how many bytes of a block may be written.
    - [RpsServer] keeps the tables of players and matches, which the threads share,
      and for each thread where it is; a step is what a thread does without another
      one being able to, so that each statement outside of the mutex is a step.
    - The lists of [GList], [BStackList], [BQueue] and [BList] are pointers into a heap
      of nodes; a node that was freed is no longer in the heap, and its use is an
      error.  [GGame.game] has the fields of the structure, with the grids as lists of
      rows; [GAgent.agent] is what a player keeps; the hub and the agents are joined by
      the streams that they write.
    - [Sudoku] has a step relation for [main] and its threads.

    ** Theorems

    - Privileges: [command_granted], [sys_pfexecve_by_rule],
      [process_request_grants], [grants_are_configured], [served_rules_and_ids],
      [event_dispatch_root], [prepenv_fixed_vars] (from the command line, and from the
      text of the configuration, to who may become whom and with which environment);
      [long_user_is_root], [unknown_user_is_root], [sys_pfexecve_exec_fails],
      [sys_pfexecve_timeout], [get_groups_slots], [prepenv_no_path],
      [test_mode_uses_lsock] (where the code does otherwise than it means to).
    - The task of the call: [call_refines] (every interleaving does what the sequential
      call does), [call_ends], [call_leaves] (what is not freed), [signal_waits].
    - The configuration: [parseconfig_accepts] (exactly the texts of the grammar),
      [written_rules_served] (rules that are written are the rules that are served).
    - Bounds and references into areas: [request_ok_refs], [envarea_roundtrip],
      [fill_mbuf_args], [prepenv_fits], [match_args_prefix].
    - The accounting device: [acct_queue_ordered], [acctread_takes_oldest],
      [acct_fcount_counts], [acct_open_records], [acct_track_then_status],
      [acct_unlink_untracks], [acct_lock_balance], [copy_loop_one_piece],
      [acct_disable_drops_all]; with its control program, [watch_reports],
      [track_untrack], [untrack_forgets_all] (where the driver deviates from its
      documentation) and [disable_forgets].
    - File transfer: [transfer_complete] (the client gets the whole file, when it has no
      % and no NUL, with the number of turns that this takes), [receives_conn_ok] (a connection under any
      packets), [srun_safe] (the server under any events), [short_datagram_blocks];
      [decrypt_encrypt], [rhdr_computer_chksum_spec], [powr_spec] (packets).
    - Switches: [assign_ip_unique], [justify_max], [ip_text_roundtrip],
      [validate_text] (addresses), [announced_shortest], [append_wf] (routes),
      [fragment_roundtrip], [udp_run_fifo] (the data of the adaptors),
      [local_switch_runs], [accept_twice_crashes]; [greeting] and
      [tcp_handle_runs] (switches with each other).
    - Statistics: [metric_refines] (a metric is a finite map), [metric_well_typed],
      [scrapes_hold_readings] (every page is what the kernel answered),
      [requests_consistent] and [metrics_answered] (the server, with the allocators for
      which it works), [main_loops] and
      [port_arg_pretty] (its start), [vtslog_line] (its log).
    - Games: [list_refines] (the lists in the heap), [moves_finish] (a side under any
      moves), [hub_ends], [match_plays_out], [files_play_out] (the whole match, from
      the files on, with the agents that the configuration names), [naval_plays] (the
      version for a terminal, with the lines that it cannot look at), [players_stay_apart],
      [handler_sorted], [match_agreed] (the game protocol).
    - Others: [main_any_schedule] (sudoku, in every order of the threads),
      [parser_accepts] (recursive descent: what part of its grammar it accepts), [brackets_checked],
      [derpcalc_evaluates], [queue_refines], [insert_node_position] (containers).

    Each theorem with a hypothesis is followed by a lemma [_witness] that applies
    it to a concrete case.

    ** Fuel and bounds

    Functions are structural where the code allows it; the event loops are on the
    list of the events, and a loop that reads is on the list of what there is to read.
    The others count their turns, and in each of these places a lemma that the
    theorems use shows that the turns given are enough:
    - [Acct.copy_loop] gets [copy_fuel] = 3 ([copy_loop_one_piece]); [RHdr.powr_loop] its
      exponent; [RStr.frag_loop] a turn for each byte of the buffer;
    - loops over a string ([BItem], [GThing], [AcctCtl.wrap_loop], [GSetup.simple_read_loop],
      [GPlayers.stream_lines], the scanner of [PfexecConf], [PfexecCmd.getopt] over the
      arguments) one or two more than its length, and [RecDescent.E] two for each byte
      and two more; [HttpMain.vtslog_loop] one for each doubling of a [size_t];
    - loops over linked nodes ([BStackList], [BList], [GList.list_destroy],
      [Metrics.clear_old_loop]) one more than there are nodes in the heap, since such a
      loop frees or passes a different one in each turn;
    - the loops of the games ([GHub.hub_loop], [Naval.game_loop], [Naval.player_turn],
      [Naval.cpu_turn]) one more than there are lines or moves left, since each turn
      takes one.
    The queue of [BQueue] can be linked to itself, and then its loops end for no fuel
    ([queue_refines] says when).

    ** Not modelled

    - Printing and tracing for the programmer, and the tests at the end of headers.
    - What are only calls of the system: sockets, mbufs, files, processes; what they
      answer is an input of the models.  Allocations that fail are an input where the
      code handles them (acct), and left out where it ends the program.
    - The files of OpenBSD that are in the repository with a few hooks added
      ([src/1.acct-driver-obsd/src/kern_mod], [src/0.syscall-pfexec-obsd/src/kern]
      except [kern_pfexec.c] and what [sys_execve] of [kern_exec.c] does to the
      credentials); the vendored HTTP parser; the scanners that lex
      generated.
    - Exercises of one system call or one instruction ([src/A.basic/0.Pre],
      [src/A.basic/os-practice], [src/7.mmap], [src/8.server],
      [src/C.linux-hello-kern-mod], [src/D.asm]), test programs, the commands that a
      switch of LinkLayerSim reads from its terminal, and files that no Makefile builds ([naval.c] and [handle.c]
      of the game management, the drafts of [src/A.basic/3.Graph]). *)

From Stdlib Require Export Ascii.
From stdpp Require Export base numbers option list strings gmap fin_maps fin_map_dom.
From Stdlib Require Export Lia Sorted.

#[global] Open Scope Z_scope.

(** ** C integers at their width

    An unsigned C integer of [n] bits is the [Z] in [0 .. 2^n - 1]; every
    operation of the source is followed by the conversion to the type that the
    source gives its result.  [uN n] and [sN n] are the conversions to the
    unsigned and to the two's complement signed type of [n] bits. *)

Definition uN (n z : Z) : Z := z mod 2 ^ n.
Definition sN (n z : Z) : Z := (z + 2 ^ (n - 1)) mod 2 ^ n - 2 ^ (n - 1).

Abbreviation u8 := (uN 8).
Abbreviation u16 := (uN 16).
Abbreviation u32 := (uN 32).
Abbreviation u64 := (uN 64).
Abbreviation s8 := (sN 8).
Abbreviation s32 := (sN 32).
Abbreviation s64 := (sN 64).

(** The truth value of a C scalar, and the C value of a comparison. *)
Definition nz (z : Z) : bool := negb (z =? 0).
Definition b2z (b : bool) : Z := if b then 1 else 0.

(** The logical negation [!x] and the bitwise complement [~x] at 32 bits. *)
Definition lnot_c (z : Z) : Z := b2z (z =? 0).
Definition not32 (z : Z) : Z := u32 (Z.lnot z).

Create Rewrite HintDb cint.

Section Width.
Context (n : Z) (Hn : 0 < n).

Lemma uN_bounds z : 0 <= uN n z < 2 ^ n.
Proof. unfold uN. apply Z.mod_pos_bound. lia. Qed.

Lemma uN_small z : 0 <= z < 2 ^ n -> uN n z = z.
Proof. intros. unfold uN. by apply Z.mod_small. Qed.

Lemma uN_idemp z : uN n (uN n z) = uN n z.
Proof. apply uN_small, uN_bounds. Qed.

Lemma uN_add_l a b : uN n (uN n a + b) = uN n (a + b).
Proof. unfold uN. apply Zplus_mod_idemp_l. Qed.

Lemma uN_add_r a b : uN n (a + uN n b) = uN n (a + b).
Proof. unfold uN. apply Zplus_mod_idemp_r. Qed.

Lemma uN_sub_l a b : uN n (uN n a - b) = uN n (a - b).
Proof. unfold uN. apply Zminus_mod_idemp_l. Qed.

Lemma uN_land a : uN n a = Z.land a (Z.ones n).
Proof. unfold uN. symmetry. apply Z.land_ones. lia. Qed.

Lemma pow_split : 2 ^ n = 2 * 2 ^ (n - 1).
Proof.
  replace n with (Z.succ (n - 1)) at 1 by lia.
  by rewrite Z.pow_succ_r by lia.
Qed.

Lemma sN_bounds z : - 2 ^ (n - 1) <= sN n z < 2 ^ (n - 1).
Proof.
  unfold sN. pose proof (Z.mod_pos_bound (z + 2 ^ (n - 1)) (2 ^ n)).
  pose proof pow_split. assert (0 < 2 ^ (n - 1)) by (apply Z.pow_pos_nonneg; lia).
  lia.
Qed.

Lemma sN_small z : - 2 ^ (n - 1) <= z < 2 ^ (n - 1) -> sN n z = z.
Proof.
  intros Hz. unfold sN. pose proof pow_split.
  rewrite Z.mod_small by lia. lia.
Qed.
End Width.

Lemma nz_true z : nz z = true <-> z <> 0.
Proof. unfold nz. rewrite negb_true_iff, Z.eqb_neq. done. Qed.

Lemma nz_false z : nz z = false <-> z = 0.
Proof. unfold nz. rewrite negb_false_iff, Z.eqb_eq. done. Qed.

#[export] Hint Rewrite nz_true nz_false andb_true_iff andb_false_iff
  orb_true_iff orb_false_iff negb_true_iff negb_false_iff
  Z.eqb_eq Z.eqb_neq Z.ltb_lt Z.ltb_ge Z.leb_le Z.leb_gt
  bool_decide_eq_true bool_decide_eq_false : cint.

(** ** Tactics *)

(** [cbool] turns the boolean tests in the hypotheses and the goal into
    propositions. *)
Ltac cbool := autorewrite with cint in *.

(** [case_if] splits on the condition of a conditional of the goal, keeping the
    equation, and [case_if in H] on one of a hypothesis. *)
Ltac case_if_goal :=
  match goal with
  | |- context [if ?b then _ else _] => let E := fresh "E" in destruct b eqn:E
  end.
Ltac case_if_hyp H :=
  match type of H with
  | context [if ?b then _ else _] => let E := fresh "E" in destruct b eqn:E
  end.
Tactic Notation "case_if" := case_if_goal.
Tactic Notation "case_if" "in" hyp(H) := case_if_hyp H.

(** [case_match_all] splits every [match] and [if] of the goal. *)
Ltac case_match_all :=
  repeat match goal with
  | |- context [match ?x with _ => _ end] => let E := fresh "E" in destruct x eqn:E; try done
  end.

(** ** C strings

    A NUL-terminated string is the Rocq string of the bytes before the NUL. *)

Definition strlen (s : string) : Z := Z.of_nat (String.length s).

(** [strlcpy(dst, src, n)] for [n > 0]: at most [n - 1] bytes of [src]. *)
Definition strlcpy (n : Z) (src : string) : string :=
  String.substring 0 (Z.to_nat (n - 1)) src.

Lemma length_substring_le (n : nat) (s : string) :
  (String.length (String.substring 0 n s) <= n)%nat.
Proof. revert n; induction s; intros [|n]; simpl; auto with lia. specialize (IHs n). lia. Qed.

Lemma substring_all (n : nat) (s : string) :
  (String.length s <= n)%nat -> String.substring 0 n s = s.
Proof.
  revert n; induction s as [|a s IH]; intros [|n]; simpl; intros; try lia; auto.
  f_equal. apply IH. lia.
Qed.

Lemma string_length_app (a b : string) : String.length (a ++ b) = (String.length a + String.length b)%nat.
Proof. induction a; simpl; [done|]. by rewrite IHa. Qed.

Lemma string_app_assoc (a b c : string) : ((a ++ b) ++ c)%string = (a ++ (b ++ c))%string.
Proof.
  induction a as [|x a IH]; [done|].
  change (String x ((a ++ b) ++ c)%string = String x (a ++ (b ++ c))%string). by rewrite IH.
Qed.

Lemma string_app_nil_r (a : string) : (a ++ "")%string = a.
Proof.
  induction a as [|c a IH]; [done|]. change (String c (a ++ "")%string = String c a). by rewrite IH.
Qed.

Lemma string_substring_app (a b : string) : String.substring 0 (String.length a) (a ++ b) = a.
Proof.
  induction a as [|c a IH]; [by destruct b|].
  change (String c (String.substring 0 (String.length a) (a ++ b)) = String c a). by rewrite IH.
Qed.

(** [strcmp], up to the size of its result: the order of the unsigned bytes. *)
Definition strcmp (a b : string) : Z :=
  match String.compare a b with Lt => -1 | Eq => 0 | Gt => 1 end.

Lemma strcmp_sym a b : strcmp b a = - strcmp a b.
Proof. unfold strcmp. rewrite String.compare_antisym. by destruct (String.compare a b). Qed.
Lemma strcmp_zero a b : strcmp a b = 0 <-> a = b.
Proof.
  unfold strcmp. split.
  - destruct (String.compare a b) eqn:E; try lia. intros _. by apply String.compare_eq_iff.
  - intros ->. pose proof (String.compare_antisym b b) as Ha. by destruct (String.compare b b).
Qed.

Lemma string_lt_trans a b c :
  String.compare a b = Lt -> String.compare b c = Lt -> String.compare a c = Lt.
Proof.
  revert b c; induction a as [|x a IH]; intros [|y b] [|z c]; simpl; try done.
  assert (forall u v, Ascii.compare u v = N.compare (Ascii.N_of_ascii u) (Ascii.N_of_ascii v)) as Hc
    by done.
  destruct (Ascii.compare x y) eqn:E1, (Ascii.compare y z) eqn:E2; try done; rewrite !Hc in *.
  - apply N.compare_eq in E1. rewrite E1, E2. apply IH.
  - apply N.compare_eq in E1. rewrite E1, E2. done.
  - apply N.compare_eq in E2. rewrite <- E2, E1. done.
  - rewrite N.compare_lt_iff in E1, E2.
    rewrite (proj2 (N.compare_lt_iff (Ascii.N_of_ascii x) (Ascii.N_of_ascii z))) by lia. done.
Qed.

Lemma strcmp_trans a b c : strcmp a b < 0 -> strcmp b c < 0 -> strcmp a c < 0.
Proof.
  unfold strcmp. destruct (String.compare a b) eqn:E1, (String.compare b c) eqn:E2; try lia.
  by rewrite (string_lt_trans a b c).
Qed.

Lemma strlcpy_length n s : 0 < n -> strlen (strlcpy n s) < n.
Proof. intros. unfold strlen, strlcpy. pose proof (length_substring_le (Z.to_nat (n - 1)) s). lia. Qed.

Lemma strlcpy_fits n s : strlen s < n -> strlcpy n s = s.
Proof. unfold strlen, strlcpy. intros. apply substring_all. lia. Qed.

(** ** Undefined behaviour as a result

    The result of code that may use a pointer that is NULL or write outside of an
    array: [Ok] of a value, or the fault that comes first. *)

Inductive fault := null_deref | out_of_bounds | use_after_free | no_fuel
  | signed_overflow    (* a signed addition leaves its type *)
  | wrong_type         (* an argument or union member is read at another type *)
  | overlap            (* a string is copied onto a part of itself *)
  | uninitialized      (* a value that was not written is used *)
  | exits.             (* the process ends here, by [errx] or [exit] *)
Inductive ub (A : Type) := Ok (a : A) | UB (f : fault).
Arguments Ok {A} _.
Arguments UB {A} _.

#[export] Instance ub_ret : MRet ub := fun _ => Ok.
#[export] Instance ub_bind : MBind ub := fun _ _ k m =>
  match m with Ok a => k a | UB f => UB f end.

Lemma ub_bind_ok {A B} (k : A -> ub B) (m : ub A) b :
  m ≫= k = Ok b <-> exists a, m = Ok a /\ k a = Ok b.
Proof. destruct m; simpl; naive_solver. Qed.

(** The object that a pointer leads to. *)
Definition deref {A} (p : option A) : ub A :=
  match p with Some a => Ok a | None => UB null_deref end.

(** [s[i]] of a NUL-terminated string: the terminator can be read, what is behind it
    cannot. *)
Definition NUL : ascii := Ascii.zero.

Definition char_at (s : string) (i : nat) : ub ascii :=
  match String.get i s with
  | Some c => Ok c
  | None => if Nat.eqb i (String.length s) then Ok NUL else UB out_of_bounds
  end.

Fixpoint no_nul (s : string) : bool :=
  match s with EmptyString => true | String c s' => negb (Ascii.eqb c NUL) && no_nul s' end.

Lemma no_nul_app p r : no_nul (p ++ r) = no_nul p && no_nul r.
Proof. induction p as [|c p IH]; [done|]. simpl. by rewrite <- andb_assoc, <- IH. Qed.

Lemma string_get_app p r i : String.get (String.length p + i) (p ++ r) = String.get i r.
Proof. by induction p. Qed.

(** The byte after the prefix [p]. *)
Lemma char_at_app p r :
  char_at (p ++ r) (String.length p) = Ok (match r with EmptyString => NUL | String c _ => c end).
Proof.
  unfold char_at. pose proof (string_get_app p r 0) as H. rewrite Nat.add_0_r in H. rewrite H.
  rewrite string_length_app. destruct r; simpl; [|done]. by rewrite Nat.add_0_r, Nat.eqb_refl.
Qed.

(** ** Lists *)

(** Writing element [i] of an array of fixed length. *)
Definition array_set {A} (i : Z) (x : A) (l : list A) : ub (list A) :=
  if (0 <=? i) && (i <? Z.of_nat (length l)) then Ok (<[Z.to_nat i := x]> l) else UB out_of_bounds.

Lemma array_set_Ok {A} i (x : A) l l' :
  array_set i x l = Ok l' ->
  0 <= i < Z.of_nat (length l) /\ l' = <[Z.to_nat i := x]> l.
Proof. unfold array_set. case_if; [|done]. intros [= <-]. cbool. split; [lia|done]. Qed.

Lemma array_set_in {A} i (x : A) l :
  0 <= i < Z.of_nat (length l) -> array_set i x l = Ok (<[Z.to_nat i := x]> l).
Proof. intros. unfold array_set. case_if; [done|]. cbool. lia. Qed.

(** A property kept by every step of a loop over a list holds at its end. *)
Lemma foldl_inv {A B} (P : B -> Prop) (f : B -> A -> B) l b :
  P b -> (forall b a, a ∈ l -> P b -> P (f b a)) -> P (foldl f b l).
Proof.
  revert b; induction l as [|a l IH]; intros b Hb Hf; simpl; [done|].
  apply IH; [apply Hf; [left|done]|]. intros b' a' Ha. apply Hf. by right.
Qed.

(** A measure that every step raises by at most one. *)
Lemma foldl_measure {A B} (f : B -> A -> B) (m : B -> nat) l b :
  (forall b a, (m (f b a) <= S (m b))%nat) -> (m (foldl f b l) <= m b + length l)%nat.
Proof.
  intros Hf. revert b; induction l as [|a l IH]; intros b; simpl; [lia|].
  specialize (IH (f b a)). specialize (Hf b a). lia.
Qed.
