(* ===== verification/CText.v ===== *)
(** * Characters, numbers and strings of the C library

    [<ctype.h>], the conversion [%d] of [sscanf], and strings in arrays of bytes, which
    several of the programs use. *)

From stdpp Require Import pretty.
From S2P Require Import Prelude.

(** ** Characters *)

Definition code (c : ascii) : Z := Z.of_N (Ascii.N_of_ascii c).
(** A [char] is signed. *)
Definition char_of (c : ascii) : Z := s8 (code c).
Definition isdigit (c : ascii) : bool := (48 <=? code c) && (code c <=? 57).
Definition isalpha (c : ascii) : bool :=
  ((65 <=? code c) && (code c <=? 90)) || ((97 <=? code c) && (code c <=? 122)).
Definition is_white (c : ascii) : bool := (code c =? 32) || ((9 <=? code c) && (code c <=? 13)).

Fixpoint skip_white (s : string) : string :=
  match s with
  | EmptyString => ""
  | String c s' => if is_white c then skip_white s' else s
  end.

Fixpoint scan_digits (s : string) (acc : Z) : Z * string :=
  match s with
  | EmptyString => (acc, "")
  | String c s' => if isdigit c then scan_digits s' (acc * 10 + (code c - 48)) else (acc, s)
  end.

(** The sign of a number, and what is behind it. *)
Definition scan_sign (s : string) : Z * string :=
  match s with
  | String c s' => if code c =? 45 then (-1, s') else if code c =? 43 then (1, s') else (1, s)
  | EmptyString => (1, "")
  end.

(** ** [sscanf] *)

(** [%d]: [None] when there is no number; one that does not fit an [int] is undefined. *)
Definition scan_d (s : string) : ub (option (Z * string)) :=
  let '(sign, s1) := scan_sign (skip_white s) in
  match s1 with
  | String c _ =>
      if isdigit c then
        let '(n, s2) := scan_digits s1 0 in
        let v := sign * n in
        if (-2 ^ 31 <=? v) && (v <? 2 ^ 31) then Ok (Some (v, s2)) else UB signed_overflow
      else Ok None
  | EmptyString => Ok None
  end.

(** [sscanf(s, "%d", &v)]: the count, -1 at the end of the input. *)
Definition sscanf_d (s : string) : ub (Z * Z) :=
  if String.eqb (skip_white s) "" then Ok (-1, 0) else
  r ← scan_d s; Ok (match r with Some (v, _) => (1, v) | None => (0, 0) end).

(** The character with a code. *)
Definition chr (z : Z) : string := String (Ascii.ascii_of_N (Z.to_N (z mod 256))) "".

(** The signed addition of two [int]s. *)
Definition add_int (a b : Z) : ub Z :=
  if (-2 ^ 31 <=? a + b) && (a + b <? 2 ^ 31) then Ok (a + b) else UB signed_overflow.

(** ** Strings in arrays *)

Definition bytes (s : string) : list ascii := String.list_ascii_of_string s.

Definition mem_get (b : list ascii) (i : Z) : ub ascii :=
  if i <? 0 then UB out_of_bounds else match b !! Z.to_nat i with Some c => Ok c | None => UB out_of_bounds end.

(** The string that starts at an index: up to the first NUL. *)
Fixpoint mem_string (b : list ascii) : ub string :=
  match b with
  | [] => UB out_of_bounds
  | c :: b' => if Ascii.eqb c NUL then Ok "" else s ← mem_string b'; Ok (String c s)
  end.

(** The array with a string written to its start. *)
Definition read_into (l : string) (b : list ascii) : list ascii :=
  bytes l ++ NUL :: drop (String.length l + 1) b.

Lemma bytes_app a b : bytes (a ++ b) = bytes a ++ bytes b.
Proof. unfold bytes. induction a as [|c a IH]; simpl; [done|]. by rewrite <- IH. Qed.

Lemma bytes_length s : length (bytes s) = String.length s.
Proof. unfold bytes. induction s; simpl; auto. Qed.

Lemma mem_string_bytes f b : no_nul f = true -> mem_string (bytes f ++ NUL :: b) = Ok f.
Proof.
  induction f as [|c f IH]; intros Hn; [done|]. simpl in Hn. apply andb_true_iff in Hn as [Hc Hn].
  apply negb_true_iff in Hc. change (bytes (String c f)) with (c :: bytes f).
  cbn [app mem_string]. by rewrite Hc, (IH Hn).
Qed.

Lemma mem_get_app (a b : list ascii) c : mem_get (a ++ c :: b) (Z.of_nat (length a)) = Ok c.
Proof.
  unfold mem_get. rewrite (proj2 (Z.ltb_ge _ _)) by lia. rewrite Nat2Z.id, lookup_app_r, Nat.sub_diag by done. done.
Qed.

Lemma array_set_app (a b : list ascii) c d :
  array_set (Z.of_nat (length a)) d (a ++ c :: b) = Ok (a ++ d :: b).
Proof.
  rewrite array_set_in by (rewrite length_app; simpl; lia).
  by rewrite Nat2Z.id, insert_app_r_alt, Nat.sub_diag by done.
Qed.

(** ** [strsep] *)

Fixpoint has_char (c : ascii) (s : string) : bool :=
  match s with EmptyString => false | String d s => Ascii.eqb d c || has_char c s end.

(** [strsep(&s, d)], called until it gives NULL. *)
Fixpoint strsep (d : ascii) (s : string) : list string :=
  match s with
  | EmptyString => [""]
  | String c s =>
      if Ascii.eqb c d then "" :: strsep d s
      else match strsep d s with w :: ws => String c w :: ws | [] => [String c ""] end
  end.

Fixpoint join_with (d : ascii) (l : list string) : string :=
  match l with [] => "" | [w] => w | w :: l => (w ++ String d (join_with d l))%string end.

Lemma has_char_app c a b : has_char c (a ++ b) = has_char c a || has_char c b.
Proof.
  induction a as [|d a IH]; [done|]. change (String d a ++ b)%string with (String d (a ++ b)).
  cbn [has_char]. by rewrite IH, orb_assoc.
Qed.

Lemma strsep_cons d s : exists w ws, strsep d s = w :: ws.
Proof.
  induction s as [|c s (w & ws & IH)]; [by exists "", []|]. cbn [strsep]. case_if; [by do 2 eexists|].
  rewrite IH. by do 2 eexists.
Qed.

(** The pieces do not have the delimiter, and joined they are the text. *)
Lemma strsep_spec d s : join_with d (strsep d s) = s /\ Forall (fun w => has_char d w = false) (strsep d s).
Proof.
  induction s as [|c s [IH1 IH2]]; [by repeat constructor|]. cbn [strsep].
  destruct (strsep_cons d s) as (w & ws & Hs). rewrite Hs in *. case_if.
  - apply Ascii.eqb_eq in E as ->. split; [|by constructor]. cbn [join_with] in *. by rewrite IH1.
  - apply Forall_cons in IH2 as [Hw Hws]. split.
    + rewrite <- IH1. by destruct ws.
    + constructor; [|done]. cbn [has_char]. by rewrite E.
Qed.

(** Pieces without the delimiter are what [strsep] finds in the text that joins them. *)
Lemma strsep_join d ws : ws <> [] -> Forall (fun w => has_char d w = false) ws -> strsep d (join_with d ws) = ws.
Proof.
  assert (H1 : forall w, has_char d w = false -> strsep d w = [w]).
  { induction w as [|c w IH]; [done|]. cbn [has_char strsep]. rewrite orb_false_iff. intros [-> Hw]. by rewrite (IH Hw). }
  assert (H2 : forall w s, has_char d w = false -> strsep d (w ++ String d s) = w :: strsep d s).
  { induction w as [|c w IH]; intros s; [intros _; change ("" ++ String d s)%string with (String d s); cbn; by rewrite Ascii.eqb_refl|].
    cbn [has_char]. rewrite orb_false_iff. intros [Hc Hw]. change (String c w ++ String d s)%string with (String c (w ++ String d s)).
    cbn [strsep]. by rewrite Hc, (IH s Hw). }
  induction ws as [|w ws IH]; [done|]. intros _ [Hw Hws]%Forall_cons. destruct ws as [|w2 ws]; [by apply H1|].
  change (join_with d (w :: w2 :: ws)) with (w ++ String d (join_with d (w2 :: ws)))%string.
  by rewrite H2, IH.
Qed.

(** ** [strtol] *)

(** [strtol(s, NULL, 10)]: the longest number at the start, 0 when there is none, as near
    to it as a [long] is. *)
Definition strtol (s : string) : Z :=
  let '(sign, s1) := scan_sign (skip_white s) in
  Z.max (- 2 ^ 63) (Z.min (2 ^ 63 - 1) (sign * (scan_digits s1 0).1)).

Lemma pretty_N_char_digit d : (d < 10)%N ->
  isdigit (pretty_N_char d) = true /\ code (pretty_N_char d) - 48 = Z.of_N d.
Proof. intros Hd. destruct d as [|p]; [by split|]. do 4 (try destruct p as [p|p|]); try lia; split; reflexivity. Qed.

(** A number that was printed is read back. *)
Lemma scan_digits_pretty x s : scan_digits (pretty_N_go x s) 0 = scan_digits s (Z.of_N x).
Proof.
  revert s. induction (N.lt_wf_0 x) as [x _ IH]. intros s. destruct (decide (x = 0)%N) as [->|Hx]; [by rewrite pretty_N_go_0|].
  rewrite pretty_N_go_step by lia. rewrite IH by (apply N.div_lt; lia). cbn [scan_digits].
  assert (Hd : (x mod 10 < 10)%N) by (by apply N.mod_lt). pose proof (N.div_mod x 10 ltac:(done)) as Hm.
  destruct (pretty_N_char_digit _ Hd) as [-> ->].
  f_equal. lia.
Qed.

(** A number is printed without a zero in front. *)
Lemma pretty_N_go_first x s : (0 < x)%N -> exists c t, pretty_N_go x s = String c t /\ isdigit c = true /\ code c <> 48.
Proof.
  revert s. induction (N.lt_wf_0 x) as [x _ IH]. intros s Hx. rewrite pretty_N_go_step by lia.
  destruct (decide (x / 10 = 0)%N) as [Hz|Hz].
  - rewrite Hz, pretty_N_go_0. eexists _, _. split; [done|].
    assert (Hd : (x mod 10 < 10)%N) by (by apply N.mod_lt). pose proof (N.div_mod x 10 ltac:(done)).
    destruct (pretty_N_char_digit _ Hd) as [H1 H2]. split; [done|lia].
  - apply IH; [apply N.div_lt; lia|by apply N.neq_0_lt_0].
Qed.

Lemma pretty_N_go_head x s : (0 < x)%N -> exists c t, pretty_N_go x s = String c t /\ isdigit c = true.
Proof. intros Hx. destruct (pretty_N_go_first x s Hx) as (c & t & ? & ? & _). eauto. Qed.

Lemma digit_plain c : isdigit c = true -> is_white c = false /\ (code c =? 45) = false /\ (code c =? 43) = false.
Proof. destruct c as [[] [] [] [] [] [] [] []]; intros Hc; vm_compute in Hc; try discriminate Hc; by split_and!. Qed.

Lemma strtol_pretty z : -2 ^ 63 <= z < 2 ^ 63 -> strtol (pretty z) = z.
Proof.
  intros Hz. unfold strtol.
  assert (Hp : forall p, exists c t, pretty (Npos p) = String c t /\ isdigit c = true /\ scan_digits (String c t) 0 = (Z.pos p, "")).
  { intros p. destruct (pretty_N_go_head (Npos p) "") as (c & t & He & Hc); [lia|].
    exists c, t. unfold pretty, pretty_N. rewrite decide_False by done. rewrite He. split; [done|]. split; [done|].
    rewrite <- He. apply (scan_digits_pretty (Npos p) ""). }
  destruct z as [|p|p].
  - done.
  - change (pretty (Z.pos p)) with (pretty (Npos p)). destruct (Hp p) as (c & t & -> & Hc & Hs).
    destruct (digit_plain c Hc) as (Hw & H45 & H43). cbn [skip_white]. rewrite Hw. cbn [scan_sign]. rewrite H45, H43, Hs.
    cbn [fst]. lia.
  - change (pretty (Z.neg p)) with (String "-" (pretty (Npos p))). destruct (Hp p) as (c & t & -> & Hc & Hs).
    cbn [skip_white]. change (is_white "-") with false. cbn [scan_sign]. change (code "-" =? 45) with true. cbv iota.
    rewrite Hs. cbn [fst]. lia.
Qed.

(** A number starts with a digit or a minus sign and a digit. *)
Lemma pretty_head (z : Z) : exists c t, pretty z = String c t /\ (isdigit c = true \/ (c = "-"%char /\ t <> "")).
Proof.
  destruct z as [|p|p]; [by exists "0"%char, ""; auto|..].
  - change (pretty (Z.pos p)) with (pretty (Npos p)). unfold pretty, pretty_N. rewrite decide_False by done.
    destruct (pretty_N_go_head (Npos p) "") as (c & t & -> & Hc); [lia|]. by exists c, t; auto.
  - change (pretty (Z.neg p)) with (String "-" (pretty (Npos p))). unfold pretty, pretty_N. rewrite decide_False by done.
    destruct (pretty_N_go_head (Npos p) "") as (c & t & -> & Hc); [lia|]. eexists _, _. split; [done|]. by right.
Qed.
