(* ===== verification/BStack.v ===== *)
(** * The interface of the stacks ([src/A.basic/1.Stack], [stack.h]) and the programs that use it

    [stack.h] has two implementations, with linked nodes ([BStackList]) and with an array
    ([BStackArray]).  The programs [brackets.c] and [derpcalc.c] are modelled over the
    interface, and their theorems hold for both. *)

From stdpp Require Import pretty.
From S2P Require Import Prelude CText.

(** ** [stack.h] *)

(** The functions; [W] is the memory, [T] the stack behind the pointer.  A failing [assert]
    is the fault [exits]. *)
Class StackI (W T : Type) := {
  stack_new : W -> W * T;
  stack_drop : W -> T -> ub W;
  stack_pop : W -> T -> ub (Z * W * T);
  stack_push : W -> T -> Z -> ub (W * T);
  stack_size : W -> T -> ub Z
}.

(** What they promise: [holds w0 w s xs] says that in the memory [w], which is [w0] apart from
    the stack, [s] has the items [xs], the top one last.  There is room for [cap] items. *)
Class StackLaws (W T : Type) `{StackI W T} (cap : Z) := {
  memory_ok : W -> Prop;
  same_memory : W -> W -> Prop;
  holds : W -> W -> T -> list Z -> Prop;
  new_holds w : memory_ok w -> let '(w', s) := stack_new w in holds w w' s [];
  push_holds w0 w s xs x : holds w0 w s xs -> Z.of_nat (length xs) < cap ->
    exists w' s', stack_push w s x = Ok (w', s') /\ holds w0 w' s' (xs ++ [x]);
  pop_holds w0 w s xs x : holds w0 w s (xs ++ [x]) ->
    exists w' s', stack_pop w s = Ok (x, w', s') /\ holds w0 w' s' xs;
  pop_empty w0 w s : holds w0 w s [] -> stack_pop w s = UB exits;
  size_holds w0 w s xs : holds w0 w s xs -> Z.of_nat (length xs) <= cap -> stack_size w s = Ok (Z.of_nat (length xs));
  drop_holds w0 w s xs : holds w0 w s xs -> exists w', stack_drop w s = Ok w' /\ same_memory w0 w'
}.

(** ** [brackets.c] *)

Section Brackets.
Context {W T : Type} `{StackI W T}.

(** How the program ends: as it should, or with a message about a character. *)
Inductive verdict := matched | unmatched (c : Z).

Definition is_open (c : ascii) : bool := Ascii.eqb c "(" || Ascii.eqb c "[" || Ascii.eqb c "{".
(** The bracket that [c] closes. *)
Definition closes (c : ascii) : option ascii :=
  if Ascii.eqb c ")" then Some "("%char else if Ascii.eqb c "]" then Some "["%char
  else if Ascii.eqb c "}" then Some "{"%char else None.

(** The loop of [main]: what was put out, and the stack at the end of the input or the
    character of [unmatched]. *)
Fixpoint brackets_loop (w : W) (s : T) (input : string) : ub (string * (Z + W * T)) :=
  match input with
  | EmptyString => Ok ("", inr (w, s))
  | String ch input =>
      let go w s := '(out, r) ← brackets_loop w s input; Ok (String ch out, r) in
      if is_open ch then '(w, s) ← stack_push w s (code ch); go w s
      else match closes ch with
           | Some o =>
               '(c, w, s) ← stack_pop w s;
               if nz (c - code o) then Ok ("", inl (code ch)) else go w s
           | None => go w s
           end
  end.

Definition unmatched_text (c : Z) : string := ("unmatched '" ++ chr c ++ "'" ++ chr 10)%string.

(** [main]: the output and the verdict. *)
Definition brackets_main (w : W) (input : string) : ub (string * verdict) :=
  let '(w, s) := stack_new w in
  '(out, r) ← brackets_loop w s input;
  match r with
  | inl c => Ok ((out ++ unmatched_text c)%string, unmatched c)
  | inr (w, s) =>
      n ← stack_size w s;
      if nz n then '(c, w, s) ← stack_pop w s; Ok ((out ++ unmatched_text c)%string, unmatched c)
      else _ ← stack_drop w s; Ok (out, matched)
  end.
End Brackets.

(** ** [derpcalc.c] *)

Section Derpcalc.
Context {W T : Type} `{StackI W T}.

Definition int_ok (z : Z) : ub Z := if (-2 ^ 31 <=? z) && (z <? 2 ^ 31) then Ok z else UB signed_overflow.

(** The arithmetic of [int]; a division by 0 is as undefined as a result that does not fit. *)
Definition arith (token : string) (a b : Z) : ub Z :=
  if String.eqb token "+" then int_ok (a + b) else
  if String.eqb token "-" then int_ok (a - b) else
  if String.eqb token "*" then int_ok (a * b) else
  if b =? 0 then UB signed_overflow else int_ok (Z.quot a b).

Definition is_op (token : string) : bool :=
  String.eqb token "+" || String.eqb token "-" || String.eqb token "*" || String.eqb token "/".

(** The loop over the tokens; [None] is the exit of [underflow]. *)
Fixpoint derpcalc_loop (w : W) (s : T) (tokens : list string) : ub (option (W * T)) :=
  match tokens with
  | [] => Ok (Some (w, s))
  | token :: tokens =>
      if is_op token then
        n ← stack_size w s;
        if n <? 2 then Ok None else
        '(b, w, s) ← stack_pop w s;
        '(a, w, s) ← stack_pop w s;
        r ← arith token a b;
        '(w, s) ← stack_push w s r;
        derpcalc_loop w s tokens
      else
        '(w, s) ← stack_push w s (s32 (strtol token));
        derpcalc_loop w s tokens
  end.

(** What the program prints itself; the stack may have a message of its own when it is dropped. *)
Inductive calc_end := calc_usage | calc_underflow | calc_printed (text : string).

(** [main]; [args] are the arguments behind the name. *)
Definition derpcalc_main (w : W) (args : list string) : ub calc_end :=
  match args with
  | [expr] =>
      let '(w, s) := stack_new w in
      r ← derpcalc_loop w s (strsep " " expr);
      match r with
      | None => Ok calc_underflow
      | Some (w, s) =>
          n ← stack_size w s;
          if n =? 1 then
            '(x, w, s) ← stack_pop w s; _ ← stack_drop w s; Ok (calc_printed (pretty x ++ chr 10)%string)
          else _ ← stack_drop w s; Ok (calc_printed ("[non-empty stack]" ++ chr 10)%string)
      end
  | _ => Ok calc_usage
  end.
End Derpcalc.
