(* ===== verification/Chain.v ===== *)
(** * Chains of nodes

    What the linked stacks and queues of [src/A.basic] share: the nodes of a list in a heap.
    [mk x n] is the node with the content [x] that leads to [n]. *)

From S2P Require Import Prelude.

Abbreviation loc := positive.

(** The first of the addresses, or what is behind them. *)
Definition lhead (ls : list loc) (e : option loc) : option loc := match ls with [] => e | l :: _ => Some l end.

Section Chain.
Context {X V : Type} (mk : X -> option loc -> V).
Implicit Types (m : gmap loc V) (ls : list loc) (xs : list X).

(** The nodes [ls] hold [xs] in this order, and the last one leads to [e]. *)
Fixpoint seg m ls xs (e : option loc) : Prop :=
  match ls, xs with
  | [], [] => True
  | l :: ls, x :: xs => m !! l = Some (mk x (lhead ls e)) /\ seg m ls xs e
  | _, _ => False
  end.

Lemma seg_length m ls xs e : seg m ls xs e -> length ls = length xs.
Proof. revert xs; induction ls as [|l ls IH]; intros [|x xs]; simpl; try done. intros [_ Hs]. by rewrite (IH xs). Qed.

Lemma seg_ext m m' ls xs e : (forall k, k ∈ ls -> m' !! k = m !! k) -> seg m ls xs e -> seg m' ls xs e.
Proof.
  revert xs; induction ls as [|l ls IH]; intros [|x xs] Hm; simpl; try done. intros [Hl Hs]. split.
  - rewrite Hm by left. done.
  - apply IH; [|done]. intros k Hk. apply Hm. by right.
Qed.

Lemma seg_snoc m ls l xs x e :
  seg m (ls ++ [l]) (xs ++ [x]) e <-> seg m ls xs (Some l) /\ m !! l = Some (mk x e).
Proof.
  revert xs; induction ls as [|k ls IH]; intros [|y xs]; cbn [app seg lhead]; [tauto| | |].
  - split; [|tauto]. destruct xs; cbn; tauto.
  - split; [|tauto]. destruct ls; cbn; tauto.
  - rewrite IH. assert (lhead (ls ++ [l]) e = lhead ls (Some l)) as -> by (by destruct ls). tauto.
Qed.

Lemma seg_elem m ls xs e l : seg m ls xs e -> l ∈ ls -> is_Some (m !! l).
Proof.
  revert xs; induction ls as [|k ls IH]; intros [|x xs]; simpl; try done; [by intros _ ?%not_elem_of_nil|].
  intros [Hk Hs] [->|Hl]%elem_of_cons; [by rewrite Hk|by eapply IH].
Qed.

Lemma seg_size m ls xs e : seg m ls xs e -> NoDup ls -> (length ls <= size m)%nat.
Proof.
  intros Hs Hn. rewrite <- size_dom, <- (size_list_to_set (C := gset loc)) by done.
  apply subseteq_size. intros l Hl%elem_of_list_to_set. apply elem_of_dom. by eapply seg_elem.
Qed.
End Chain.

Lemma snoc_cases {A} (l : list A) : l = [] \/ exists l0 x, l = l0 ++ [x].
Proof. destruct l as [|x l _] using rev_ind; [by left|right; by eexists _, _]. Qed.

Lemma lookup_insert_Some_or {A} (m : gmap loc A) k v l : is_Some (<[k := v]> m !! l) -> is_Some (m !! l) \/ l = k.
Proof. intros Hl. destruct (decide (l = k)) as [->|Hk]; [by right|]. left. by rewrite lookup_insert_ne in Hl by done. Qed.
