(* ===== verification/BStackList.v ===== *)
(** * Stacks of linked nodes ([src/A.basic/1.Stack], [linked_list.c] and [stack_linked_list.c])

    The nodes are in a heap that all stacks share; the structure of a stack is the pointer in
    it.  The first node is the bottom of the stack. *)

From S2P Require Import Prelude Chain BStack.

(** ** [linked_list.c] *)

Record node := Node { data : Z; next : option loc }.
Record heap := Heap { h_nodes : gmap loc node; h_brk : loc }.

(** The node behind a pointer, after [assert(n!=NULL)] or without. *)
Definition live (h : heap) (l : loc) : ub (loc * node) :=
  match h_nodes h !! l with Some v => Ok (l, v) | None => UB use_after_free end.
Definition asserted (h : heap) (n : option loc) : ub (loc * node) :=
  match n with Some l => live h l | None => UB exits end.
Definition node_at (h : heap) (n : option loc) : ub (loc * node) := l ← deref n; live h l.

Definition put (h : heap) (l : loc) (v : node) : heap := Heap (<[l := v]> (h_nodes h)) (h_brk h).

Definition set_data (h : heap) (n : option loc) (d : Z) : ub heap :=
  '(l, v) ← asserted h n; Ok (put h l (Node d (next v))).
Definition set_next (h : heap) (n m : option loc) : ub heap :=
  '(l, v) ← asserted h n; Ok (put h l (Node (data v) m)).
Definition get_next (h : heap) (n : option loc) : ub (option loc) := '(_, v) ← asserted h n; Ok (next v).
Definition get_data (h : heap) (n : option loc) : ub Z := '(_, v) ← asserted h n; Ok (data v).
Definition is_next_null (h : heap) (n : option loc) : ub bool :=
  match n with
  | None => Ok false
  | Some l => '(_, v) ← live h l; Ok (match next v with None => true | Some _ => false end)
  end.

(** [malloc] of a node; its bytes are given before they are read. *)
Definition malloc (h : heap) (v : node) : option loc * heap :=
  (Some (h_brk h), Heap (<[h_brk h := v]> (h_nodes h)) (Pos.succ (h_brk h))).
Definition free (h : heap) (n : option loc) : ub heap :=
  match n with
  | None => Ok h
  | Some l => '(l, _) ← live h l; Ok (Heap (delete l (h_nodes h)) (h_brk h))
  end.

Definition makeNode (h : heap) : option loc * heap := malloc h (Node 0 None).
Definition setNodeItem (h : heap) (n : option loc) (d : Z) : ub heap :=
  '(l, v) ← node_at h n; Ok (put h l (Node d (next v))).
Definition setNodeNext (h : heap) (n m : option loc) : ub heap :=
  '(l, v) ← node_at h n; Ok (put h l (Node (data v) m)).

Definition makeSetDataNextNode (h : heap) (d : Z) (m : option loc) : ub (option loc * heap) :=
  let '(n, h) := malloc h (Node 0 None) in
  h ← setNodeItem h n d; h ← setNodeNext h n m; Ok (n, h).
Definition makeNode_1 (h : heap) : ub (option loc * heap) := makeSetDataNextNode h 0 None.
Definition makeSetDataNode (h : heap) (d : Z) : ub (option loc * heap) := makeSetDataNextNode h d None.
Definition makeSetNextNode (h : heap) (m : option loc) : ub (option loc * heap) := makeSetDataNextNode h 0 m.

Fixpoint list_free_recursive (fuel : nat) (h : heap) (n : option loc) : ub heap :=
  match fuel with
  | O => UB no_fuel
  | S fuel =>
      '(_, v) ← node_at h n;
      match next v with
      | None => free h n
      | Some _ => h ← list_free_recursive fuel h (next v); free h n
      end
  end.

(** There are no more steps than nodes. *)
Definition steps (h : heap) : nat := S (size (h_nodes h)).
Definition linkedListDestroy (h : heap) (n : option loc) : ub heap := list_free_recursive (steps h) h n.

(** ** [stack_linked_list.c] *)

Definition stack := option loc.

Fixpoint size_loop (fuel : nat) (h : heap) (c : option loc) (count : Z) : ub Z :=
  match c with
  | None => Ok count
  | Some _ =>
      match fuel with
      | O => UB no_fuel
      | S fuel => c' ← get_next h c; size_loop fuel h c' (u64 (count + 1))
      end
  end.
Definition stack_size (h : heap) (s : stack) : ub Z := size_loop (steps h) h s 0.

Definition stack_new (h : heap) : heap * stack := (h, None).

Definition stack_drop (h : heap) (s : stack) : ub heap :=
  match s with Some _ => linkedListDestroy h s | None => Ok h end.

(** The loops that look for the last node, with the node before it. *)
Fixpoint last_loop (fuel : nat) (h : heap) (prev curr : option loc) : ub (option loc * option loc) :=
  match fuel with
  | O => UB no_fuel
  | S fuel =>
      n ← get_next h curr;
      match n with None => Ok (prev, curr) | Some _ => last_loop fuel h curr n end
  end.

Definition stack_pop (h : heap) (s : stack) : ub (Z * heap * stack) :=
  match s with
  | None => UB exits
  | Some _ =>
      b ← is_next_null h s;
      if b : bool then rtn ← get_data h s; h ← free h s; Ok (rtn, h, None)
      else
        '(prev, curr) ← last_loop (steps h) h s s;
        rtn ← get_data h curr; h ← free h curr; h ← set_next h prev None; Ok (rtn, h, s)
  end.

Definition stack_push (h : heap) (s : stack) (d : Z) : ub (heap * stack) :=
  let '(a, h) := makeNode h in
  h ← set_data h a d;
  match s with
  | None => Ok (h, a)
  | Some _ => '(_, curr) ← last_loop (steps h) h s s; h ← set_next h curr a; Ok (h, s)
  end.

#[export] Instance list_stack : StackI heap stack := {|
  BStack.stack_new := stack_new; BStack.stack_drop := stack_drop; BStack.stack_pop := stack_pop;
  BStack.stack_push := stack_push; BStack.stack_size := stack_size |}.

(** The loop of [stack_stacks] that moves the items of one stack to another. *)
Fixpoint move_loop (fuel : nat) (h : heap) (s1 s3 : stack) : ub (heap * stack * stack) :=
  match fuel with
  | O => UB no_fuel
  | S fuel =>
      n ← stack_size h s1;
      if nz n then
        '(t, h, s1) ← stack_pop h s1; '(h, s3) ← stack_push h s3 t; move_loop fuel h s1 s3
      else Ok (h, s1, s3)
  end.

(** [stack_stacks] of two different stacks: the memory, [s1], [s2] and the temporary stack,
    which is not given back. *)
Definition stack_stacks (h : heap) (s1 s2 : stack) : ub (heap * stack * stack * stack) :=
  let '(h, s3) := stack_new h in
  '(h, s1, s3) ← move_loop (steps h) h s1 s3;
  '(h, s3, s2) ← move_loop (steps h) h s3 s2;
  Ok (h, s1, s2, s3).

(** ** Chains of nodes *)

Abbreviation seg := (Chain.seg Node).

Definition heap_ok (h : heap) : Prop := forall l, is_Some (h_nodes h !! l) -> (l < h_brk h)%positive.

(** In the heap [h], which is [h0] apart from the stack [s], [s] has the items [xs]. *)
Definition own (h0 h : heap) (s : stack) (xs : list Z) : Prop :=
  exists ls, s = lhead ls None /\ NoDup ls /\ seg (h_nodes h) ls xs None /\
    (forall l, l ∈ ls -> h_nodes h0 !! l = None) /\
    (forall l, l ∉ ls -> h_nodes h !! l = h_nodes h0 !! l) /\ heap_ok h.

Lemma get_next_at h l v : h_nodes h !! l = Some v -> get_next h (Some l) = Ok (next v).
Proof. intros Hl. unfold get_next, asserted, live. by rewrite Hl. Qed.

Lemma live_at h l v : h_nodes h !! l = Some v -> live h l = Ok (l, v).
Proof. intros Hl. unfold live. by rewrite Hl. Qed.

(** The loop ends at the last node, with the one before it. *)
Lemma last_loop_ok fuel h prev ls l xs x : seg (h_nodes h) (ls ++ [l]) (xs ++ [x]) None ->
  (length ls < fuel)%nat -> last_loop fuel h prev (lhead (ls ++ [l]) None) =
    Ok (match last ls with Some p => Some p | None => prev end, Some l).
Proof.
  revert prev xs fuel. induction ls as [|k ls IH]; intros prev xs [|fuel] Hs Hf; try (simpl in Hf; lia).
  - apply seg_snoc in Hs as [_ Hl]. cbn [app lhead last_loop last]. by rewrite (get_next_at _ _ _ Hl).
  - destruct xs as [|y xs]; [cbn in Hs; by destruct ls, Hs|]. destruct Hs as [Hk Hs].
    cbn [app lhead last_loop]. rewrite (get_next_at _ _ _ Hk). cbn [mbind ub_bind next].
    assert (exists n, lhead (ls ++ [l]) None = Some n) as [n Hn] by (destruct ls; by eexists).
    specialize (IH (Some k) xs fuel Hs ltac:(simpl in Hf; lia)).
    rewrite Hn in IH |- *. rewrite IH, last_cons. by destruct (last ls).
Qed.

Lemma size_loop_ok fuel h ls xs c : seg (h_nodes h) ls xs None -> (length ls <= fuel)%nat -> 0 <= c ->
  c + Z.of_nat (length ls) < 2 ^ 64 -> size_loop fuel h (lhead ls None) c = Ok (c + Z.of_nat (length xs)).
Proof.
  revert xs fuel c. induction ls as [|k ls IH]; intros [|x xs] fuel c Hs Hf Hc Hb; try done.
  - destruct fuel; cbn; f_equal; lia.
  - destruct fuel as [|fuel]; [simpl in Hf; lia|]. destruct Hs as [Hk Hs]. cbn [lhead size_loop].
    rewrite (get_next_at _ _ _ Hk). cbn [mbind ub_bind next]. simpl in Hf, Hb. rewrite uN_small by lia.
    rewrite (IH xs) by (done || lia). f_equal. cbn [length]. lia.
Qed.

Lemma free_loop_ok fuel h ls xs : seg (h_nodes h) ls xs None -> NoDup ls -> ls <> [] -> (length ls <= fuel)%nat ->
  exists h', list_free_recursive fuel h (lhead ls None) = Ok h' /\ h_brk h' = h_brk h /\
    forall l, h_nodes h' !! l = if decide (l ∈ ls) then None else h_nodes h !! l.
Proof.
  revert xs fuel. induction ls as [|k ls IH]; intros xs fuel Hs Hn Hne Hf; [done|].
  destruct fuel as [|fuel]; [simpl in Hf; lia|]. destruct xs as [|x xs]; [done|]. destruct Hs as [Hk Hs].
  apply NoDup_cons in Hn as [Hnk Hn]. cbn [lhead list_free_recursive]. unfold node_at, deref.
  cbn [mbind ub_bind]. rewrite (live_at _ _ _ Hk). cbn [mbind ub_bind next].
  assert (Hfree : forall h1, h_nodes h1 !! k = Some (Node x (lhead ls None)) ->
    free h1 (Some k) = Ok (Heap (delete k (h_nodes h1)) (h_brk h1))).
  { intros h1 H1. unfold free. by rewrite (live_at _ _ _ H1). }
  destruct ls as [|k2 ls]; cbn [lhead] in *.
  - rewrite Hfree by done. eexists. do 2 (split; [done|]). intros l. cbn [h_nodes].
    case_decide as Hl; [apply list_elem_of_singleton in Hl as ->; apply lookup_delete_eq|].
    apply lookup_delete_ne. intros ->. apply Hl. left.
  - destruct (IH xs fuel Hs Hn ltac:(done) ltac:(simpl in Hf |- *; lia)) as (h1 & H1 & Hb & Hl1). cbn [lhead] in H1.
    rewrite H1. cbn [mbind ub_bind]. rewrite Hfree by (rewrite Hl1, decide_False by done; exact Hk).
    eexists. split; [done|]. split; [done|]. intros l. cbn [h_nodes]. destruct (decide (l = k)) as [->|Hlk].
    + rewrite lookup_delete_eq, decide_True by left. done.
    + rewrite lookup_delete_ne, Hl1 by done. repeat case_decide; try done; set_solver.
Qed.

(** ** The laws *)

Lemma own_new h : heap_ok h -> own h h None [].
Proof. intros Hh. exists []. split_and!; try done; [constructor|by intros ? ?%not_elem_of_nil]. Qed.

Lemma own_steps h xs ls : seg (h_nodes h) ls xs None -> NoDup ls -> (length ls < steps h)%nat.
Proof. intros Hs Hn. pose proof (seg_size Node _ _ _ _ Hs Hn). unfold steps. lia. Qed.

Lemma own_size h0 h s xs : own h0 h s xs -> Z.of_nat (length xs) < 2 ^ 64 -> stack_size h s = Ok (Z.of_nat (length xs)).
Proof.
  intros (ls & -> & Hn & Hs & _) Hl. pose proof (seg_length Node _ _ _ _ Hs) as Hlen. pose proof (own_steps h xs ls Hs Hn).
  unfold stack_size. rewrite (size_loop_ok _ _ _ _ _ Hs) by lia. done.
Qed.

Lemma fresh_out h ls xs e : heap_ok h -> seg (h_nodes h) ls xs e -> h_brk h ∉ ls.
Proof. intros Hh Hs Hl. specialize (Hh _ (seg_elem Node _ _ _ _ _ Hs Hl)). lia. Qed.

Lemma fresh_none h : heap_ok h -> h_nodes h !! h_brk h = None.
Proof. intros Hh. apply eq_None_not_Some. intros Hl. specialize (Hh _ Hl). lia. Qed.

Lemma heap_ok_grow h m : heap_ok h -> (forall l, is_Some (m !! l) -> is_Some (h_nodes h !! l) \/ l = h_brk h) ->
  heap_ok (Heap m (Pos.succ (h_brk h))).
Proof. intros Hh Hm l Hl. cbn [h_nodes h_brk] in *. destruct (Hm l Hl) as [Ho| ->]; [specialize (Hh l Ho)|]; lia. Qed.

(** What [stack_push] has done before it looks for the last node. *)
Lemma push_node h x : set_data (makeNode h).2 (makeNode h).1 x =
  Ok (Heap (<[h_brk h := Node x None]> (h_nodes h)) (Pos.succ (h_brk h))).
Proof.
  unfold makeNode, malloc, set_data, asserted. cbn [fst snd].
  rewrite (live_at _ _ (Node 0 None)) by (cbn [h_nodes]; apply lookup_insert_eq).
  cbn [mbind ub_bind]. unfold put. cbn [h_nodes h_brk next]. by rewrite insert_insert_eq.
Qed.

Lemma own_push h0 h s xs x : own h0 h s xs -> exists h' s', stack_push h s x = Ok (h', s') /\ own h0 h' s' (xs ++ [x]).
Proof.
  intros (ls & -> & Hn & Hs & H0 & Hr & Hh). pose proof (fresh_out _ _ _ _ Hh Hs) as Hfr. pose proof (fresh_none h Hh) as Hno.
  unfold stack_push. pose proof (push_node h x) as Hp. destruct (makeNode h) as [a h1] eqn:Ha. cbn [fst snd] in Hp.
  assert (a = Some (h_brk h)) as -> by (injection Ha; done). rewrite Hp. clear Hp. cbn [mbind ub_bind].
  set (m1 := <[h_brk h := Node x None]> (h_nodes h)).
  assert (Hm1 : forall k, k ∈ ls -> m1 !! k = h_nodes h !! k) by (intros k Hk; apply lookup_insert_ne; intros <-; done).
  destruct (snoc_cases ls) as [->|(ls' & l & ->)].
  - destruct xs; [|done]. cbn [lhead]. do 2 eexists. split; [done|]. exists [h_brk h]. split_and!; try done.
    + apply NoDup_singleton.
    + cbn. split; [apply lookup_insert_eq|done].
    + intros l ->%list_elem_of_singleton. rewrite <- Hr; [done|]. apply not_elem_of_nil.
    + intros l Hl. cbn. unfold m1. rewrite lookup_insert_ne; [apply Hr, not_elem_of_nil|]. intros <-. apply Hl. left.
    + apply heap_ok_grow; [done|]. intros l. apply lookup_insert_Some_or.
  - destruct (snoc_cases xs) as [->|(xs' & y & ->)]; [by destruct ls'|].
    assert (Hs1 : seg m1 (ls' ++ [l]) (xs' ++ [y]) None) by (by eapply seg_ext).
    assert (exists k, lhead (ls' ++ [l]) None = Some k) as [k Hk] by (destruct ls'; by eexists).
    rewrite Hk. cbv iota. rewrite <- Hk.
    rewrite (last_loop_ok _ (Heap m1 (Pos.succ (h_brk h))) _ ls' l xs' y) by
      (exact Hs1 || (pose proof (own_steps (Heap m1 (Pos.succ (h_brk h))) _ _ Hs1 Hn) as Hst; rewrite length_app in Hst; simpl in Hst; lia)).
    cbn [mbind ub_bind]. apply seg_snoc in Hs1 as [Hs1 Hl]. apply NoDup_app in Hn as (Hn1 & Hn2 & _).
    unfold set_next, asserted. rewrite (live_at _ _ (Node y None)) by exact Hl. cbn [mbind ub_bind data].
    do 2 eexists. split; [done|]. exists ((ls' ++ [l]) ++ [h_brk h]).
    assert (Hlb : h_brk h <> l) by (intros He; apply Hfr; rewrite He; apply elem_of_app; right; left).
    assert (Hl' : l ∉ ls') by (intros Hi; apply (Hn2 l Hi); left).
    unfold put. cbn [h_nodes h_brk].
    split_and!.
    + by destruct ls'.
    + apply NoDup_app. split; [apply NoDup_app; split_and!; [done|done|apply NoDup_singleton]|]. split; [|apply NoDup_singleton].
      by intros k' Hk' ->%list_elem_of_singleton.
    + apply seg_snoc. split; [apply seg_snoc; split|].
      * eapply seg_ext, Hs1. intros k' Hk'. rewrite lookup_insert_ne; [done|]. by intros <-.
      * apply lookup_insert_eq.
      * rewrite lookup_insert_ne by done. apply lookup_insert_eq.
    + intros k' [Hk'| ->%list_elem_of_singleton]%elem_of_app; [by apply H0|]. by rewrite <- Hr.
    + intros k' Hk'. unfold m1. rewrite !lookup_insert_ne; [apply Hr|..]; set_solver.
    + apply heap_ok_grow; [done|]. intros k' Hk'. apply lookup_insert_Some_or in Hk' as [Hk'| ->];
        [by eapply lookup_insert_Some_or|]. left. apply (seg_elem Node _ _ _ _ _ Hs). apply elem_of_app. right. left.
Qed.

Lemma heap_ok_shrink h m : heap_ok h -> (forall l, is_Some (m !! l) -> is_Some (h_nodes h !! l)) -> heap_ok (Heap m (h_brk h)).
Proof. intros Hh Hm l Hl. by apply Hh, Hm. Qed.

Lemma free_at h l v : h_nodes h !! l = Some v -> free h (Some l) = Ok (Heap (delete l (h_nodes h)) (h_brk h)).
Proof. intros Hl. unfold free. by rewrite (live_at _ _ _ Hl). Qed.

Lemma get_data_at h l v : h_nodes h !! l = Some v -> get_data h (Some l) = Ok (data v).
Proof. intros Hl. unfold get_data, asserted. by rewrite (live_at _ _ _ Hl). Qed.

Lemma own_pop h0 h s xs x : own h0 h s (xs ++ [x]) -> exists h' s', stack_pop h s = Ok (x, h', s') /\ own h0 h' s' xs.
Proof.
  intros (ls & -> & Hn & Hs & H0 & Hr & Hh). pose proof (own_steps h _ _ Hs Hn) as Hst.
  destruct (snoc_cases ls) as [->|(ls' & l & ->)]; [by destruct xs|]. pose proof Hs as [Hs1 Hl]%seg_snoc.
  apply NoDup_app in Hn as (Hn1 & Hn2 & _). assert (Hl' : l ∉ ls') by (intros Hi; apply (Hn2 l Hi); left).
  destruct (snoc_cases ls') as [->|(ls0 & p & ->)].
  - destruct xs; [|done]. cbn [app lhead]. unfold stack_pop, is_next_null.
    rewrite (live_at _ _ _ Hl). cbn [mbind ub_bind next]. rewrite (get_data_at _ _ _ Hl), (free_at _ _ _ Hl).
    cbn [mbind ub_bind data]. do 2 eexists. split; [done|]. exists []. split_and!; try done.
    + by intros ? ?%not_elem_of_nil.
    + intros k _. cbn [h_nodes]. destruct (decide (k = l)) as [->|Hk].
      * rewrite lookup_delete_eq, H0; [done|left].
      * rewrite lookup_delete_ne by done. apply Hr. by intros ->%list_elem_of_singleton.
    + apply heap_ok_shrink; [done|]. intros k. by intros [Hk ?]%lookup_delete_is_Some.
  - destruct (snoc_cases xs) as [->|(xs0 & y & ->)]; [by destruct ls0|]. apply seg_snoc in Hs1 as [Hs0 Hp].
    assert (Hpl : p <> l) by (intros ->; apply Hl', elem_of_app; right; left).
    assert (exists k v, lhead ((ls0 ++ [p]) ++ [l]) None = Some k /\ h_nodes h !! k = Some v /\ next v <> None) as (k & v & Hk & Hkv & Hnv).
    { destruct ls0 as [|k0 ls0]; [exists p; by eexists|]. exists k0. destruct xs0 as [|x0 xs0]; [done|]. destruct Hs0 as [Hk0 _].
      eexists. split; [done|]. split; [exact Hk0|]. by destruct ls0. }
    rewrite Hk. unfold stack_pop, is_next_null. rewrite (live_at _ _ _ Hkv). cbn [mbind ub_bind].
    destruct (next v) as [nv|]; [|done]. cbn [mbind ub_bind]. rewrite <- Hk.
    rewrite (last_loop_ok _ h _ _ _ _ _ Hs) by (rewrite length_app in Hst; simpl in Hst; lia). rewrite last_snoc. cbn [mbind ub_bind].
    rewrite (get_data_at _ _ _ Hl), (free_at _ _ _ Hl). cbn [mbind ub_bind data]. unfold set_next, asserted.
    rewrite (live_at _ _ (Node y (Some l))) by (cbn [h_nodes]; by rewrite lookup_delete_ne). cbn [mbind ub_bind data].
    do 2 eexists. split; [done|]. exists (ls0 ++ [p]). unfold put. cbn [h_nodes h_brk].
    assert (Hp0 : p ∉ ls0) by (apply NoDup_app in Hn1 as (_ & Hd & _); intros Hi; apply (Hd p Hi); left). split_and!.
    + by destruct ls0.
    + done.
    + apply seg_snoc. split; [|apply lookup_insert_eq]. eapply seg_ext, Hs0. intros k' Hk'.
      rewrite lookup_insert_ne, lookup_delete_ne; [done|..]; set_solver.
    + intros k' Hk'. apply H0, elem_of_app. by left.
    + intros k' Hk'. destruct (decide (k' = l)) as [->|Hkl].
      * rewrite lookup_insert_ne, lookup_delete_eq, H0; set_solver.
      * rewrite lookup_insert_ne, lookup_delete_ne; [apply Hr|..]; set_solver.
    + apply heap_ok_shrink; [done|]. intros k' Hk'. apply lookup_insert_Some_or in Hk' as [Hk'| ->]; [|by rewrite Hp].
      by apply lookup_delete_is_Some in Hk' as [_ ?].
Qed.

Lemma own_drop h0 h s xs : own h0 h s xs -> exists h', stack_drop h s = Ok h' /\ h_nodes h' = h_nodes h0.
Proof.
  intros (ls & -> & Hn & Hs & H0 & Hr & Hh). destruct ls as [|l ls].
  - eexists. split; [done|]. apply map_eq. intros l. apply Hr, not_elem_of_nil.
  - pose proof (own_steps h _ _ Hs Hn) as Hst.
    destruct (free_loop_ok (steps h) h (l :: ls) xs Hs Hn ltac:(done) ltac:(lia)) as (h' & Hf & _ & Hm).
    exists h'. split; [exact Hf|]. apply map_eq. intros k. rewrite Hm. case_decide as Hk; [by rewrite H0|by apply Hr].
Qed.

#[export, refine] Instance list_laws : StackLaws heap stack (2 ^ 64 - 1) := {|
  memory_ok := heap_ok;
  same_memory h0 h := h_nodes h = h_nodes h0;
  holds := own
|}.
Proof.
  - apply own_new.
  - intros h0 h s xs x Ho _. by apply own_push.
  - apply own_pop.
  - by intros h0 h s (ls & -> & _ & Hs & _); destruct ls.
  - intros h0 h s xs Ho Hl. apply (own_size _ _ _ _ Ho). lia.
  - apply own_drop.
Defined.

(** ** Two stacks *)

(** Two stacks of one heap that have no node in common. *)
Definition own2 (h0 h : heap) (s1 : stack) (xs1 : list Z) (s2 : stack) (xs2 : list Z) : Prop :=
  exists h1, own h0 h1 s1 xs1 /\ own h1 h s2 xs2.

Lemma own2_swap h0 h s1 xs1 s2 xs2 : own2 h0 h s1 xs1 s2 xs2 -> own2 h0 h s2 xs2 s1 xs1.
Proof.
  intros (h1 & (ls1 & -> & Hn1 & Hs1 & H01 & Hr1 & Hh1) & (ls2 & -> & Hn2 & Hs2 & H02 & Hr2 & Hh2)).
  assert (Hd : forall k, k ∈ ls1 -> k ∉ ls2).
  { intros k Hk Hk2. destruct (seg_elem Node _ _ _ _ _ Hs1 Hk) as [v Hv]. by rewrite H02 in Hv. }
  set (m := filter (fun p => p.1 ∉ ls1) (h_nodes h)).
  assert (Hm : forall k, m !! k = if decide (k ∈ ls1) then None else h_nodes h !! k).
  { intros k. unfold m. rewrite map_lookup_filter. case_decide as Hk; destruct (h_nodes h !! k); cbn; [|done| |done].
    - by rewrite option_guard_False by (cbn; tauto).
    - by rewrite option_guard_True. }
  exists (Heap m (h_brk h)). split.
  - exists ls2. cbn [h_nodes]. split_and!; try done.
    + eapply seg_ext, Hs2. intros k Hk. rewrite Hm, decide_False; [done|]. intros Hk1. by apply (Hd k).
    + intros k Hk. rewrite <- Hr1; [by apply H02|]. intros Hk1. by apply (Hd k).
    + intros k Hk. rewrite Hm. case_decide as Hk1; [by rewrite H01|]. by rewrite Hr2, Hr1.
    + apply heap_ok_shrink; [done|]. intros k. rewrite Hm. case_decide; [by intros [? ?]|done].
  - exists ls1. cbn [h_nodes]. split_and!; try done.
    + eapply seg_ext, Hs1. intros k Hk. by apply Hr2, Hd.
    + intros k Hk. by rewrite Hm, decide_True.
    + intros k Hk. by rewrite Hm, decide_False.
Qed.

Lemma own2_length h0 h s1 xs1 s2 xs2 : own2 h0 h s1 xs1 s2 xs2 -> (length xs1 < steps h)%nat.
Proof.
  intros (h1 & _ & (ls & -> & Hn & Hs & _))%own2_swap. pose proof (own_steps h _ _ Hs Hn).
  by rewrite <- (seg_length Node _ _ _ _ Hs).
Qed.

Lemma move_loop_ok fuel h0 h s1 xs1 s3 xs3 : own2 h0 h s1 xs1 s3 xs3 ->
  Z.of_nat (length xs1) < 2 ^ 64 -> (length xs1 < fuel)%nat ->
  exists h' s1' s3', move_loop fuel h s1 s3 = Ok (h', s1', s3') /\ own2 h0 h' s1' [] s3' (xs3 ++ rev xs1).
Proof.
  revert fuel h s1 s3 xs3. induction xs1 as [|x xs1 IH] using rev_ind; intros fuel h s1 s3 xs3 Ho Hl Hf;
    (destruct fuel as [|fuel]; [simpl in Hf; lia|]); pose proof Ho as (h1 & H3 & H1)%own2_swap; cbn [move_loop];
    rewrite (own_size _ _ _ _ H1 Hl); cbn [mbind ub_bind].
  - do 3 eexists. split; [done|]. by rewrite app_nil_r.
  - rewrite length_app in *. simpl in Hl, Hf. rewrite (proj2 (nz_true _)) by (simpl; lia).
    destruct (own_pop _ _ _ _ _ H1) as (h2 & s1' & -> & H2). cbn [mbind ub_bind].
    destruct (own2_swap h0 h2 s3 xs3 s1' xs1) as (h3 & Ha & Hb); [by exists h1|].
    destruct (own_push _ _ _ _ x Hb) as (h4 & s3' & -> & H4). cbn [mbind ub_bind].
    destruct (IH fuel h4 s1' s3' (xs3 ++ [x])) as (h' & s1'' & s3'' & -> & Hr); [by exists h3|lia|lia|].
    do 3 eexists. split; [done|]. by rewrite rev_app_distr, <- app_assoc in *.
Qed.

(** [stack_stacks] puts the items of the first stack on the second, in their order; the first and the temporary
    one are empty, and no node is lost. *)
Theorem stack_stacks_joins h0 h s1 xs1 s2 xs2 : own2 h0 h s1 xs1 s2 xs2 -> Z.of_nat (length xs1) < 2 ^ 64 ->
  exists h' s1' s2', stack_stacks h s1 s2 = Ok (h', s1', s2', None) /\ own2 h0 h' s1' [] s2' (xs2 ++ xs1).
Proof.
  intros Ho Hl. unfold stack_stacks, stack_new. pose proof (own2_length _ _ _ _ _ _ Ho) as Hf.
  destruct (own2_swap _ _ _ _ _ _ Ho) as (h1 & H2 & H1).
  assert (Hh : heap_ok h) by (by destruct H1 as (? & _ & _ & _ & _ & _ & ?)).
  destruct (move_loop_ok (steps h) h1 h s1 xs1 None []) as (h' & s1' & s3 & -> & Ha & Hb1 & Hb2);
    [by exists h; split; [|apply own_new]|done|done|]. cbn [mbind ub_bind app] in *.
  destruct (own2_swap h0 Ha s2 xs2 s1' []) as (h2 & H3 & H4); [by exists h1|].
  assert (Ho3 : own2 h2 h' s3 (rev xs1) s2 xs2) by (apply own2_swap; by exists Ha).
  destruct (move_loop_ok (steps h') h2 h' s3 (rev xs1) s2 xs2) as (h'' & s3' & s2' & -> & Hc1 & Hc2 & Hc3);
    [done|by rewrite length_rev|by eapply own2_length|]. cbn [mbind ub_bind].
  rewrite rev_involutive in Hc3. pose proof Hc2 as (ls & Hs3 & _ & Hseg & _). destruct ls; [|done]. subst s3'.
  exists h'', s1', s2'. split; [done|]. exists h2. split; [done|].
  destruct Hc3 as (ls & -> & Hn & Hs & Hz & Hr & Hk). destruct Hc2 as (ls0 & _ & _ & Hs0 & _ & Hr0 & _).
  destruct ls0; [|done]. exists ls. split_and!; try done.
  - intros l Hi. rewrite <- Hr0; [by apply Hz|apply not_elem_of_nil].
  - intros l Hi. rewrite Hr by done. apply Hr0, not_elem_of_nil.
Qed.
