(* ===== verification/BStackArray.v ===== *)
(** * Stacks in an array ([src/A.basic/1.Stack/stack_array.c]) *)

From S2P Require Import Prelude BStack.

Definition MAX_SIZE := 10.

Record stack := Stack { items : list Z; n_items : Z }.

Definition new_stack : stack := Stack (replicate (Z.to_nat MAX_SIZE) 0) 0.

(** The pointers are not NULL: [stack_new] exits when there is no memory. *)
Definition stack_pop (s : stack) : ub (Z * stack) :=
  if n_items s <=? 0 then UB exits else
  match items s !! Z.to_nat (n_items s - 1) with
  | Some it => Ok (it, Stack (items s) (n_items s - 1))
  | None => UB out_of_bounds
  end.

Definition stack_push (s : stack) (it : Z) : ub stack :=
  if MAX_SIZE - 1 <=? n_items s then UB exits else
  l ← array_set (n_items s) it (items s); Ok (Stack l (u64 (n_items s + 1))).

Definition stack_size (s : stack) : Z := n_items s.

(** Nothing but the stack itself is in memory. *)
#[export] Instance array_stack : StackI unit stack := {|
  BStack.stack_new w := (w, new_stack);
  BStack.stack_drop w s := Ok w;
  BStack.stack_pop w s := '(it, s) ← stack_pop s; Ok (it, w, s);
  BStack.stack_push w s it := s ← stack_push s it; Ok (w, s);
  BStack.stack_size w s := Ok (stack_size s)
|}.

(** The first [n_items] items are those of the stack. *)
Record items_are (s : stack) (xs : list Z) : Prop := ItemsAre {
  ia_length : length (items s) = Z.to_nat MAX_SIZE;
  ia_n : n_items s = Z.of_nat (length xs);
  ia_cap : Z.of_nat (length xs) <= MAX_SIZE - 1;
  ia_take : take (length xs) (items s) = xs
}.

Lemma push_items s xs x : items_are s xs -> Z.of_nat (length xs) < MAX_SIZE - 1 ->
  exists s', stack_push s x = Ok s' /\ items_are s' (xs ++ [x]).
Proof.
  intros [Hl Hn _ Ht] Hc. unfold stack_push. rewrite Hn, (proj2 (Z.leb_gt _ _)) by done.
  rewrite array_set_in by (rewrite Hl; unfold MAX_SIZE in *; lia). cbn [mbind ub_bind]. rewrite Nat2Z.id.
  eexists. split; [done|]. constructor; cbn [items n_items].
  - by rewrite length_insert.
  - rewrite length_app, uN_small by (unfold MAX_SIZE in Hc; lia). simpl. lia.
  - rewrite length_app. simpl. lia.
  - rewrite length_app. simpl. rewrite Nat.add_1_r.
    rewrite (take_S_r _ _ x) by (apply list_lookup_insert_eq; rewrite Hl; unfold MAX_SIZE in *; lia).
    by rewrite take_insert_ge, Ht by lia.
Qed.

Lemma pop_items s xs x : items_are s (xs ++ [x]) -> exists s', stack_pop s = Ok (x, s') /\ items_are s' xs.
Proof.
  intros [Hl Hn Hc Ht]. rewrite length_app in *. simpl in Hn, Hc, Ht. rewrite Nat.add_1_r in Ht. unfold stack_pop.
  rewrite Hn, (proj2 (Z.leb_gt _ _)) by lia. replace (Z.to_nat _) with (length xs) by lia.
  destruct (lookup_lt_is_Some_2 (items s) (length xs)) as [y Hy]; [rewrite Hl; unfold MAX_SIZE in *; lia|].
  rewrite (take_S_r _ _ y Hy) in Ht. apply app_inj_tail in Ht as [Ht ->]. rewrite Hy. eexists. split; [done|].
  constructor; cbn [items n_items]; [done|lia|lia|done].
Qed.

(** The array has ten places and takes nine items. *)
Theorem array_full s xs x : items_are s xs -> Z.of_nat (length xs) = MAX_SIZE - 1 -> stack_push s x = UB exits.
Proof. intros [_ Hn _ _] Hx. unfold stack_push. by rewrite Hn, Hx, Z.leb_refl. Qed.

#[export, refine] Instance array_laws : StackLaws unit stack (MAX_SIZE - 1) := {|
  memory_ok _ := True;
  same_memory _ _ := True;
  holds _ _ := items_are
|}.
Proof.
  - intros w _. by constructor.
  - intros w0 w s xs x Hi Hc. destruct (push_items s xs x Hi Hc) as (s' & Hs & Hi'). exists w, s'. cbn. by rewrite Hs.
  - intros w0 w s xs x Hi. destruct (pop_items s xs x Hi) as (s' & Hs & Hi'). exists w, s'. cbn. by rewrite Hs.
  - intros w0 w s [_ Hn _ _]. cbn. unfold stack_pop. by rewrite Hn.
  - intros w0 w s xs [_ Hn _ _] _. cbn. by rewrite <- Hn.
  - intros w0 w s xs _. by exists w.
Defined.
