(* ===== verification/BStackProg.v ===== *)
(** * The bracket checker and the calculator ([src/A.basic/1.Stack], [brackets.c] and [derpcalc.c])

    The theorems are about the interface of the stacks; the witnesses run the programs on
    linked nodes, as the Makefile links them. *)

From stdpp Require Import pretty.
From S2P Require Import Prelude CText BStackArray BStackList BStack.

(** ** Balanced text *)

Inductive balanced : string -> Prop :=
| balanced_nil : balanced ""
| balanced_other c s : is_open c = false -> closes c = None -> balanced s -> balanced (String c s)
| balanced_pair o a c b : closes c = Some o -> balanced a -> balanced b -> balanced (String o (a ++ String c b)).

(** The text that closes the open brackets [st], the last one first. *)
Inductive shut : list ascii -> string -> Prop :=
| shut_nil s : balanced s -> shut [] s
| shut_cons o st a c s : balanced a -> closes c = Some o -> shut st s -> shut (o :: st) (a ++ String c s).

(** The loop of [brackets.c] on a list, the top first: what is put out and how it ends. *)
Inductive nested := at_end (st : list ascii) | wrong (c : ascii) | underflow.

Fixpoint nest (st : list ascii) (s : string) : string * nested :=
  match s with
  | EmptyString => ("", at_end st)
  | String ch s =>
      let go st := let '(out, r) := nest st s in (String ch out, r) in
      if is_open ch then go (ch :: st)
      else match closes ch with
           | Some o =>
               match st with
               | [] => ("", underflow)
               | c :: st => if Ascii.eqb c o then go st else ("", wrong ch)
               end
           | None => go st
           end
  end.

Lemma string_app_cons c a b : (String c a ++ b)%string = String c (a ++ b).
Proof. done. Qed.

Lemma closes_open c o : closes c = Some o -> is_open o = true /\ is_open c = false.
Proof. unfold closes. repeat case_if; intros [= <-]; cbool; apply Ascii.eqb_eq in E || apply Ascii.eqb_eq in E0 || apply Ascii.eqb_eq in E1; by subst. Qed.

Lemma open_closes o : is_open o = true -> closes o = None.
Proof. unfold is_open. rewrite !orb_true_iff, !Ascii.eqb_eq. by intros [[->| ->]| ->]. Qed.

Lemma balanced_app a b : balanced a -> balanced b -> balanced (a ++ b).
Proof.
  intros Ha Hb. induction Ha as [|c s Ho Hc Hs IH|o a c s Hc Ha IHa Hs IHs]; [done|..]; rewrite string_app_cons.
  - by constructor.
  - rewrite string_app_assoc, string_app_cons. by constructor.
Qed.

Lemma shut_app b st s : balanced b -> shut st s -> shut st (b ++ s).
Proof.
  intros Hb [s' Hs|o st' a c s' Ha Hc Hs]; [by apply shut_nil, balanced_app|].
  rewrite <- string_app_assoc. constructor; [by apply balanced_app|done|done].
Qed.

Lemma shut_open o st s : shut (o :: st) s -> shut st (String o s).
Proof.
  intros Hs. inversion Hs as [|? ? a c s' Ha Hc Hs']; subst.
  replace (String o (a ++ String c s')) with (String o (a ++ String c "") ++ s')%string
    by (by rewrite string_app_cons, string_app_assoc).
  apply shut_app; [|done]. by constructor; [| |constructor].
Qed.

(** A balanced text leaves the stack as it is. *)
Lemma nest_balanced b st s : balanced b -> nest st (b ++ s) = let '(out, r) := nest st s in ((b ++ out)%string, r).
Proof.
  intros Hb. revert st s. induction Hb as [|c b Ho Hc Hb IH|o a c b Hc Ha IHa Hb IHb]; intros st s.
  - change ("" ++ s)%string with s. by destruct (nest st s).
  - rewrite string_app_cons. cbn [nest]. rewrite Ho, Hc, IH. by destruct (nest st s).
  - destruct (closes_open c o Hc) as [Ho Hco]. rewrite string_app_cons. cbn [nest]. rewrite Ho, string_app_assoc, IHa, string_app_cons.
    cbn [nest]. rewrite Hco, Hc, Ascii.eqb_refl, IHb. destruct (nest st s) as [out r].
    by rewrite string_app_cons, string_app_assoc, string_app_cons.
Qed.

Lemma nest_shut st s t : shut st s -> nest st (s ++ t) = let '(out, r) := nest [] t in ((s ++ out)%string, r).
Proof.
  induction 1 as [s Hs|o st a c s Ha Hc Hs IH]; [by apply nest_balanced|].
  destruct (closes_open c o Hc) as [_ Hco]. rewrite string_app_assoc, nest_balanced by done. rewrite string_app_cons.
  cbn [nest]. rewrite Hco, Hc, Ascii.eqb_refl, IH. destruct (nest [] t) as [out r]. by rewrite string_app_assoc, string_app_cons.
Qed.

(** How the loop ends says how the text is nested. *)
Lemma nest_ends s st : match nest st s with
  | (out, at_end []) => out = s /\ shut st s
  | (out, at_end (_ :: _)) => out = s
  | (_, underflow) => exists a c b o, s = (a ++ String c b)%string /\ shut st a /\ closes c = Some o
  | (out, wrong c) => exists b, s = (out ++ String c b)%string /\ closes c <> None
  end.
Proof.
  revert st. induction s as [|ch s IH]; intros st.
  - destruct st; cbn; [split; [done|by repeat constructor]|done].
  - cbn [nest]. destruct (is_open ch) eqn:Ho; [|destruct (closes ch) as [o|] eqn:Hc; [destruct st as [|c0 st]; [|destruct (Ascii.eqb_spec c0 o) as [->|Hne]]|]].
    + specialize (IH (ch :: st)). destruct (nest (ch :: st) s) as [out [[|c1 st1]|c|]].
      * destruct IH as [-> IH]. split; [done|by apply shut_open].
      * by subst.
      * destruct IH as (b & -> & ?). by exists b.
      * destruct IH as (a & c & b & o & -> & Hs & Hc). exists (String ch a), c, b, o. split; [done|]. split; [by apply shut_open|done].
    + exists "", ch, s, o. split; [done|]. split; [by repeat constructor|done].
    + specialize (IH st). destruct (nest st s) as [out [[|c1 st1]|c|]].
      * destruct IH as [-> IH]. split; [done|]. by apply (shut_cons o st "" ch s); [constructor|..].
      * by subst.
      * destruct IH as (b & -> & ?). by exists b.
      * destruct IH as (a & c & b & o' & -> & Hs & Hc'). exists (String ch a), c, b, o'. split; [done|]. split; [|done].
        by apply (shut_cons o st "" ch a); [constructor|..].
    + exists s. split; [done|]. by rewrite Hc.
    + specialize (IH st). assert (Hb : balanced (String ch "")) by (by repeat constructor).
      destruct (nest st s) as [out [[|c1 st1]|c|]].
      * destruct IH as [-> IH]. split; [done|]. by apply (shut_app (String ch "")).
      * by subst.
      * destruct IH as (b & -> & ?). by exists b.
      * destruct IH as (a & c & b & o' & -> & Hs & Hc'). exists (String ch a), c, b, o'. split; [done|]. split; [|done].
        by apply (shut_app (String ch "")).
Qed.

(** What is on the stack was opened. *)
Lemma nest_open s st out st' : Forall (fun c => is_open c = true) st -> nest st s = (out, at_end st') ->
  Forall (fun c => is_open c = true) st'.
Proof.
  revert st out st'. induction s as [|ch s IH]; intros st out st' Hst; cbn [nest]; [by intros [= _ <-]|].
  destruct (is_open ch) eqn:Ho; [|destruct (closes ch); [destruct st as [|c0 st]; [done|]; case_if; [|done]|]].
  - destruct (nest (ch :: st) s) as [o r] eqn:Hn. intros [= _ ->]. eapply (IH (ch :: st)); [by constructor|done].
  - destruct (nest st s) as [o r] eqn:Hn. intros [= _ ->]. apply Forall_cons in Hst as [_ Hst]. by eapply IH.
  - destruct (nest st s) as [o r] eqn:Hn. intros [= _ ->]. by eapply IH.
Qed.

(** ** The program does what the list says *)

Definition codes (st : list ascii) : list Z := rev (code <$> st).

Lemma code_inj a b : code a = code b -> a = b.
Proof. unfold code. intros He%N2Z.inj. by rewrite <- (Ascii.ascii_N_embedding a), <- (Ascii.ascii_N_embedding b), He. Qed.

Section Program.
Context {W T : Type} `{SL : StackLaws W T cap}.

Lemma brackets_loop_nest w0 s w t st : holds w0 w t (codes st) -> Z.of_nat (length st + String.length s) <= cap ->
  match nest st s with
  | (out, at_end st') => exists w' t', brackets_loop w t s = Ok (out, inr (w', t')) /\ holds w0 w' t' (codes st') /\
      (length st' <= length st + String.length s)%nat
  | (out, wrong c) => brackets_loop w t s = Ok (out, inl (code c))
  | (_, underflow) => brackets_loop w t s = UB exits
  end.
Proof.
  revert w t st. induction s as [|ch s IH]; intros w t st Ht Hc; cbn [nest brackets_loop].
  - exists w, t. split; [done|]. split; [done|lia].
  - cbn [String.length] in Hc. destruct (is_open ch).
    + destruct (push_holds w0 w t (codes st) (code ch) Ht) as (w1 & t1 & -> & H1);
        [unfold codes; rewrite length_rev, length_fmap; lia|]. cbn [mbind ub_bind].
      specialize (IH w1 t1 (ch :: st) H1 ltac:(cbn [length]; lia)). destruct (nest (ch :: st) s) as [out [st'|c|]].
      * destruct IH as (w' & t' & -> & Hh & Hl). exists w', t'. split; [done|]. split; [done|cbn [length String.length] in *; lia].
      * by rewrite IH.
      * by rewrite IH.
    + destruct (closes ch) as [o|]; [destruct st as [|c0 st]|].
      * by rewrite (pop_empty w0).
      * destruct (pop_holds w0 w t (codes st) (code c0) Ht) as (w1 & t1 & -> & H1). cbn [mbind ub_bind].
        destruct (Ascii.eqb_spec c0 o) as [->|Hne].
        -- rewrite Z.sub_diag. specialize (IH w1 t1 st H1 ltac:(cbn [length] in Hc; lia)). destruct (nest st s) as [out [st'|c|]].
           ++ destruct IH as (w' & t' & -> & Hh & Hl). exists w', t'. split; [done|]. split; [done|cbn [length String.length] in *; lia].
           ++ by rewrite IH.
           ++ by rewrite IH.
        -- rewrite (proj2 (nz_true _)); [done|]. intros Hz. apply Hne, code_inj. lia.
      * specialize (IH w t st Ht ltac:(lia)). destruct (nest st s) as [out [st'|c|]].
        -- destruct IH as (w' & t' & -> & Hh & Hl). exists w', t'. split; [done|]. split; [done|cbn [length String.length] in *; lia].
        -- by rewrite IH.
        -- by rewrite IH.
Qed.

(** [brackets.c] with the end that the list says. *)
Lemma brackets_main_nest w s : memory_ok w -> Z.of_nat (String.length s) <= cap ->
  brackets_main w s = match nest [] s with
  | (out, at_end []) => Ok (out, matched)
  | (out, at_end (c :: _)) | (out, wrong c) => Ok ((out ++ unmatched_text (code c))%string, unmatched (code c))
  | (_, underflow) => UB exits
  end.
Proof.
  intros Hw Hc. unfold brackets_main. pose proof (new_holds w Hw) as Hn. destruct (stack_new w) as [w1 t].
  pose proof (brackets_loop_nest w s w1 t [] Hn Hc) as Hl. destruct (nest [] s) as [out [st|c|]]; [|by rewrite Hl..].
  destruct Hl as (w' & t' & -> & Hh & Hlen). cbn [mbind ub_bind]. rewrite (size_holds _ _ _ _ Hh) by
    (unfold codes; rewrite length_rev, length_fmap; simpl in Hlen; lia). cbn [mbind ub_bind].
  destruct st as [|c st].
  - destruct (drop_holds _ _ _ _ Hh) as (w2 & Hd & _). cbn. by rewrite Hd.
  - unfold codes. rewrite length_rev, length_fmap. cbn [length]. rewrite (proj2 (nz_true _)) by lia.
    destruct (pop_holds w w' t' (codes st) (code c) Hh) as (w2 & t2 & -> & _). done.
Qed.

(** C15: [brackets.c] copies a text and ends well exactly if the brackets of the text are balanced; a closing
    bracket behind a balanced text is no message but a failed assertion of the stack; for
    every other text there is a message about a bracket of the text. *)
Theorem brackets_checked w s : memory_ok w -> Z.of_nat (String.length s) <= cap ->
  (brackets_main w s = Ok (s, matched) <-> balanced s) /\
  (brackets_main w s = UB exits <-> exists a c b, s = (a ++ String c b)%string /\ balanced a /\ closes c <> None) /\
  (brackets_main w s = Ok (s, matched) \/ brackets_main w s = UB exits \/
   exists out c, brackets_main w s = Ok ((out ++ unmatched_text (code c))%string, unmatched (code c)) /\
     (is_open c = true \/ closes c <> None)).
Proof.
  intros Hw Hc. rewrite (brackets_main_nest w s Hw Hc). pose proof (nest_ends s []) as He. split_and!.
  - split.
    + destruct (nest [] s) as [out [[|c st]|c|]]; intros [= ]. destruct He as [_ He]. by inversion He.
    + intros Hb. pose proof (nest_balanced s [] "" Hb) as Hn. cbn in Hn. rewrite !string_app_nil_r in Hn. by rewrite Hn.
  - split.
    + destruct (nest [] s) as [out [[|c st]|c|]]; try done. intros _. destruct He as (a & c & b & o & -> & Hs & Ho).
      exists a, c, b. inversion Hs; subst. split_and!; [done|done|by rewrite Ho].
    + intros (a & c & b & -> & Ha & Ho). rewrite nest_balanced by done. cbn [nest].
      destruct (closes c) as [o|] eqn:Hcl; [|done]. destruct (closes_open c o Hcl) as [_ ->]. done.
  - destruct (nest [] s) as [out [[|c st]|c|]] eqn:Hn.
    + left. by destruct He as [-> _].
    + right. right. exists out, c. split; [done|]. left.
      pose proof (nest_open s [] out (c :: st) ltac:(constructor) Hn) as Hf. by apply Forall_cons in Hf as [? _].
    + right. right. exists out, c. split; [done|]. right. by destruct He as (b & _ & ?).
    + right. by left.
Qed.
End Program.

Lemma brackets_checked_witness :
  brackets_main (Heap ∅ 1) "f(x[0]) { }" = Ok ("f(x[0]) { }"%string, matched) /\ ~ balanced "(]" /\
  brackets_main (Heap ∅ 1) "a)b" = UB exits /\ brackets_main (Heap ∅ 1) "(]" = Ok ("(unmatched ']'" ++ chr 10, unmatched 93)%string.
Proof.
  assert (Hok : memory_ok (Heap ∅ 1)) by (intros l [v Hv]; exact (False_rect _ (lookup_empty_Some l v Hv))).
  split; [|split; [|split]].
  - destruct (brackets_checked (Heap ∅ 1) "f(x[0]) { }" Hok ltac:(vm_compute; discriminate)) as [_ _]. vm_compute. reflexivity.
  - destruct (brackets_checked (Heap ∅ 1) "(]" Hok ltac:(vm_compute; discriminate)) as [[_ Hb] _].
    intros Hbal. specialize (Hb Hbal). vm_compute in Hb. discriminate Hb.
  - destruct (brackets_checked (Heap ∅ 1) "a)b" Hok ltac:(vm_compute; discriminate)) as [_ [[_ Hb] _]].
    apply Hb. exists "a", ")"%char, "b". split; [reflexivity|]. split; [repeat constructor|discriminate].
  - vm_compute. reflexivity.
Defined.

(** ** Expressions *)

Inductive expr := Num (z : Z) | Bin (op : string) (l r : expr).

Fixpoint postfix (e : expr) : list string :=
  match e with Num z => [pretty z] | Bin op l r => postfix l ++ postfix r ++ [op] end.

(** The value in [int]: the faults are those of the arithmetic, the left side first. *)
Fixpoint eval (e : expr) : ub Z :=
  match e with
  | Num z => int_ok z
  | Bin op l r => a ← eval l; b ← eval r; arith op a b
  end.

Fixpoint ops_known (e : expr) : bool :=
  match e with Num _ => true | Bin op l r => is_op op && ops_known l && ops_known r end.

(** The items that the stack has at most. *)
Fixpoint height (e : expr) : Z :=
  match e with Num _ => 1 | Bin _ l r => Z.max (height l) (1 + height r) end.

Lemma height_pos e : 1 <= height e.
Proof. induction e; simpl; lia. Qed.

Lemma int_ok_Ok z v : int_ok z = Ok v -> v = z /\ -2 ^ 31 <= z < 2 ^ 31.
Proof. unfold int_ok. case_if; [|done]. cbool. intros [= <-]. lia. Qed.

(** A number is no operator. *)
Lemma pretty_no_op (z : Z) : is_op (pretty z) = false.
Proof.
  assert (Hf : forall s, strtol s = 0 -> s <> "0" -> -2 ^ 63 <= z < 2 ^ 63 -> String.eqb (pretty z) s = false).
  { intros s H0 Hs Hz. apply String.eqb_neq. intros He. rewrite <- He in H0. rewrite strtol_pretty in H0 by done.
    subst z. by rewrite <- He in Hs. }
  unfold is_op. destruct (decide (-2 ^ 63 <= z < 2 ^ 63)) as [Hz|Hz].
  - by rewrite !Hf.
  - destruct (pretty_head z) as (c & t & -> & [Hc|(-> & Ht)]).
    + unfold isdigit in Hc. by destruct c as [[] [] [] [] [] [] [] []].
    + by destruct t.
Qed.

Lemma postfix_tokens e : postfix e <> [].
Proof. induction e as [z|op l IHl r IHr]; [done|]. cbn. by destruct (postfix l). Qed.

Lemma pretty_no_blank (z : Z) : has_char " " (pretty z) = false.
Proof.
  assert (Hg : forall x s, has_char " " (pretty_N_go x s) = has_char " " s).
  { intros x. induction (N.lt_wf_0 x) as [x _ IH]. intros s. destruct (decide (x = 0)%N) as [->|Hx]; [by rewrite pretty_N_go_0|].
    rewrite pretty_N_go_step by lia. rewrite IH by (apply N.div_lt; lia). cbn [has_char].
    destruct (pretty_N_char_digit (x mod 10)) as [Hd _]; [by apply N.mod_lt|].
    destruct (Ascii.eqb_spec (pretty_N_char (x mod 10)) " ") as [He|]; [by rewrite He in Hd|done]. }
  destruct z as [|p|p]; [done|..].
  - change (pretty (Z.pos p)) with (pretty (Npos p)). unfold pretty, pretty_N. rewrite decide_False by done. apply Hg.
  - change (pretty (Z.neg p)) with (String "-" (pretty (Npos p))). cbn [has_char]. unfold pretty, pretty_N.
    rewrite decide_False by done. apply Hg.
Qed.

Lemma postfix_blanks e : ops_known e = true -> Forall (fun w => has_char " " w = false) (postfix e).
Proof.
  induction e as [z|op l IHl r IHr]; cbn.
  - intros _. repeat constructor. apply pretty_no_blank.
  - intros [[Ho Hl]%andb_true_iff Hr]%andb_true_iff. apply Forall_app. split; [by apply IHl|]. apply Forall_app. split; [by apply IHr|].
    repeat constructor. unfold is_op in Ho. rewrite !orb_true_iff, !String.eqb_eq in Ho. by destruct Ho as [[[->| ->]| ->]| ->].
Qed.

Section Calculator.
Context {W T : Type} `{SL : StackLaws W T cap}.

Lemma derpcalc_expr e v w0 w t st rest : eval e = Ok v -> ops_known e = true -> holds w0 w t st ->
  Z.of_nat (length st) + height e <= cap ->
  exists w' t', derpcalc_loop w t (postfix e ++ rest) = derpcalc_loop w' t' rest /\ holds w0 w' t' (st ++ [v]).
Proof.
  revert v w t st rest. induction e as [z|op l IHl r IHr]; intros v w t st rest He Hk Ht Hc.
  - apply int_ok_Ok in He as [-> Hz]. cbn [postfix app derpcalc_loop]. rewrite pretty_no_op, strtol_pretty by lia.
    rewrite sN_small by lia. cbn [height] in Hc.
    destruct (push_holds w0 w t st z Ht) as (w1 & t1 & -> & H1); [lia|]. by exists w1, t1.
  - cbn in He. apply ub_bind_ok in He as (a & Ha & He). apply ub_bind_ok in He as (b & Hb & He).
    cbn [ops_known] in Hk. apply andb_true_iff in Hk as [[Hop Hkl]%andb_true_iff Hkr]. cbn [height] in Hc.
    cbn [postfix]. rewrite <- !app_assoc. pose proof (height_pos r).
    destruct (IHl a w t st (postfix r ++ [op] ++ rest) Ha Hkl Ht ltac:(lia)) as (w1 & t1 & -> & H1).
    destruct (IHr b w1 t1 (st ++ [a]) ([op] ++ rest) Hb Hkr H1) as (w2 & t2 & -> & H2); [rewrite length_app; simpl; lia|].
    cbn [app derpcalc_loop]. rewrite Hop, (size_holds _ _ _ _ H2) by (rewrite !length_app; simpl; lia).
    cbn [mbind ub_bind]. rewrite (proj2 (Z.ltb_ge _ _)) by (rewrite !length_app; simpl; lia).
    destruct (pop_holds _ _ _ _ _ H2) as (w3 & t3 & -> & H3). cbn [mbind ub_bind].
    destruct (pop_holds _ _ _ _ _ H3) as (w4 & t4 & -> & H4). cbn [mbind ub_bind]. rewrite He. cbn [mbind ub_bind].
    destruct (push_holds _ _ _ _ v H4) as (w5 & t5 & -> & H5); [lia|]. by exists w5, t5.
Qed.

(** [derpcalc.c] given an expression in postfix form, with the numbers as they are printed and one blank
    between the tokens, prints the value of the expression, if no result leaves the
    type [int] and the stack has room. *)
Theorem derpcalc_evaluates w e v : memory_ok w -> eval e = Ok v -> ops_known e = true -> height e <= cap ->
  derpcalc_main w [join_with " " (postfix e)] = Ok (calc_printed (pretty v ++ chr 10)%string).
Proof.
  intros Hw He Hk Hc. unfold derpcalc_main. pose proof (new_holds w Hw) as Hn. destruct (stack_new w) as [w1 t].
  rewrite strsep_join by (apply postfix_tokens || by apply postfix_blanks).
  destruct (derpcalc_expr e v w w1 t [] [] He Hk Hn ltac:(simpl; lia)) as (w2 & t2 & Hl & H2).
  rewrite app_nil_r in Hl. rewrite Hl. cbn [derpcalc_loop mbind ub_bind app].
  pose proof (height_pos e). rewrite (size_holds _ _ _ _ H2) by (simpl; lia). cbn [mbind ub_bind length].
  destruct (pop_holds _ _ _ [] v H2) as (w3 & t3 & -> & H3). cbn [mbind ub_bind].
  destruct (drop_holds _ _ _ _ H3) as (w4 & -> & _). done.
Qed.
End Calculator.

Lemma derpcalc_evaluates_witness :
  derpcalc_main (Heap ∅ 1) ["7 -2 3 * -"] = Ok (calc_printed ("13" ++ chr 10)%string).
Proof.
  apply (derpcalc_evaluates (Heap ∅ 1) (Bin "-" (Num 7) (Bin "*" (Num (-2)) (Num 3))) 13).
  - intros l [v Hv]. exact (False_rect _ (lookup_empty_Some l v Hv)).
  - reflexivity.
  - reflexivity.
  - vm_compute. discriminate.
Defined.
