(* ===== verification/BItem.v ===== *)
(** * Items ([src/A.basic/2.Queue/item.c], [src/A.basic/3.Graph/1.Func/item.c])

    The strings that the queue and the list of [src/A.basic] hold, in memory of their own. *)

From S2P Require Import Prelude CText Chain.

(** ** [item.c] *)

(** The nodes of a program, its items, strings in memory of their own, and the next address. *)
Record heap (V : Type) := Heap { h_nodes : gmap loc V; h_items : gmap loc string; h_brk : loc }.
Arguments Heap {V} _ _ _.
Arguments h_nodes {V} _.
Arguments h_items {V} _.
Arguments h_brk {V} _.

Section Items.
Context {V : Type}.
Implicit Type h : heap V.

(** The string behind an item, after [assert(it != NULL)]. *)
Definition item_at (h : heap V) (it : option loc) : ub string :=
  match it with
  | None => UB exits
  | Some l => match h_items h !! l with Some s => Ok s | None => UB use_after_free end
  end.

Definition item_size : Z := 1.

Fixpoint len_loop (fuel : nat) (s : string) (it_len : nat) : ub nat :=
  match fuel with
  | O => UB no_fuel
  | S fuel => c ← char_at s it_len; if Ascii.eqb c NUL then Ok it_len else len_loop fuel s (S it_len)
  end.
Definition item_len (h : heap V) (it : option loc) : ub nat :=
  s ← item_at h it; n ← len_loop (S (String.length s)) s 0; Ok (S n).

Fixpoint eq_loop (fuel : nat) (s1 s2 : string) (i : nat) : ub bool :=
  match fuel with
  | O => UB no_fuel
  | S fuel =>
      c1 ← char_at s1 i; c2 ← char_at s2 i;
      if (negb (Ascii.eqb c1 NUL) || negb (Ascii.eqb c2 NUL)) && Ascii.eqb c1 c2 then eq_loop fuel s1 s2 (S i)
      else Ok (Ascii.eqb c1 NUL && Ascii.eqb c2 NUL)
  end.
Definition item_eq (h : heap V) (i1 i2 : option loc) : ub bool :=
  s1 ← item_at h i1; s2 ← item_at h i2; eq_loop (S (String.length s1)) s1 s2 0.

Definition item_show (h : heap V) (it : option loc) : ub string := s ← item_at h it; Ok (s ++ chr 10)%string.

(** The loop that copies the bytes, into the array of [calloc]. *)
Fixpoint clone_loop (fuel : nat) (s : string) (b : list ascii) (i : nat) : ub (list ascii) :=
  match fuel with
  | O => UB no_fuel
  | S fuel =>
      c ← char_at s i;
      if Ascii.eqb c NUL then Ok b else b ← array_set (Z.of_nat i) c b; clone_loop fuel s b (S i)
  end.

(** [calloc] is given the number of bytes times [sizeof(size_t)], which is 8, and has memory. *)
Definition item_clone (h : heap V) (it : option loc) : ub (option loc * heap V) :=
  s ← item_at h it;
  it_len ← item_len h it;
  b ← clone_loop (S (String.length s)) s (replicate (it_len * 8) NUL) 0;
  b ← array_set (Z.of_nat it_len - 1) NUL b;
  c ← mem_string b;
  Ok (Some (h_brk h), Heap (h_nodes h) (<[h_brk h := c]> (h_items h)) (Pos.succ (h_brk h))).

Definition item_drop (h : heap V) (it : option loc) : ub (heap V) :=
  _ ← item_at h it;
  match it with Some l => Ok (Heap (h_nodes h) (delete l (h_items h)) (h_brk h)) | None => UB exits end.

(** ** What they do *)

Lemma app_shift p c r : (p ++ String c r)%string = ((p ++ String c "") ++ r)%string.
Proof. by rewrite string_app_assoc. Qed.

Lemma length_shift p c : S (String.length p) = String.length (p ++ String c "").
Proof. rewrite string_length_app. simpl. lia. Qed.

Lemma len_loop_ok fuel p r : no_nul r = true -> (String.length r < fuel)%nat ->
  len_loop fuel (p ++ r) (String.length p) = Ok (String.length p + String.length r)%nat.
Proof.
  revert fuel p. induction r as [|c r IH]; intros [|fuel] p Hn Hf; try (simpl in Hf; lia); cbn [len_loop]; rewrite char_at_app;
    cbn [mbind ub_bind].
  - cbn. f_equal. lia.
  - cbn in Hn. apply andb_true_iff in Hn as [Hc Hn]. apply negb_true_iff in Hc. rewrite Hc, app_shift, (length_shift p c).
    rewrite IH by (done || simpl in Hf; lia). rewrite <- length_shift. simpl. f_equal. lia.
Qed.

Lemma item_len_ok h l s : h_items h !! l = Some s -> no_nul s = true -> item_len h (Some l) = Ok (S (String.length s)).
Proof.
  intros Hl Hn. unfold item_len, item_at. rewrite Hl. cbn [mbind ub_bind].
  pose proof (len_loop_ok (S (String.length s)) "" s Hn ltac:(lia)) as He.
  change ("" ++ s)%string with s in He. change (String.length "") with 0%nat in He. by rewrite He.
Qed.

Lemma eq_loop_ok fuel p r1 r2 : no_nul r1 = true -> no_nul r2 = true -> (String.length r1 < fuel)%nat ->
  eq_loop fuel (p ++ r1) (p ++ r2) (String.length p) = Ok (String.eqb r1 r2).
Proof.
  revert fuel p r2. induction r1 as [|c1 r1 IH]; intros [|fuel] p r2 H1 H2 Hf; try (simpl in Hf; lia);
    cbn [eq_loop]; rewrite !char_at_app; cbn [mbind ub_bind].
  - destruct r2 as [|c2 r2]; [done|]. cbn in H2. apply andb_true_iff in H2 as [Hc _]. apply negb_true_iff in Hc. rewrite Hc.
    destruct (Ascii.eqb_spec NUL c2) as [<-|]; done.
  - cbn in H1. apply andb_true_iff in H1 as [Hc1 H1]. rewrite Hc1. destruct r2 as [|c2 r2].
    + apply negb_true_iff in Hc1. change (negb (Ascii.eqb NUL NUL)) with false. by rewrite Hc1.
    + cbn in H2. apply andb_true_iff in H2 as [Hc2 H2]. rewrite Hc2. cbn [orb andb String.eqb].
      destruct (Ascii.eqb_spec c1 c2) as [<-|]; [|apply negb_true_iff in Hc1; by rewrite Hc1].
      rewrite (app_shift p c1 r1), (app_shift p c1 r2), (length_shift p c1). apply IH; [done|done|simpl in Hf; lia].
Qed.

(** [item_eq] compares the strings. *)
Lemma item_eq_ok h l1 l2 s1 s2 : h_items h !! l1 = Some s1 -> h_items h !! l2 = Some s2 ->
  no_nul s1 = true -> no_nul s2 = true -> item_eq h (Some l1) (Some l2) = Ok (String.eqb s1 s2).
Proof.
  intros H1 H2 N1 N2. unfold item_eq, item_at. rewrite H1, H2. cbn [mbind ub_bind].
  apply (eq_loop_ok (S (String.length s1)) "" s1 s2 N1 N2). lia.
Qed.

Lemma clone_loop_ok fuel p r k : no_nul r = true -> (String.length r < fuel)%nat ->
  clone_loop fuel (p ++ r) (bytes p ++ replicate (String.length r + k) NUL) (String.length p) =
    Ok (bytes (p ++ r) ++ replicate k NUL).
Proof.
  revert fuel p. induction r as [|c r IH]; intros [|fuel] p Hn Hf; try (simpl in Hf; lia); cbn [clone_loop]; rewrite char_at_app;
    cbn [mbind ub_bind].
  - cbn. by rewrite string_app_nil_r.
  - cbn in Hn. apply andb_true_iff in Hn as [Hc Hn]. apply negb_true_iff in Hc. rewrite Hc.
    cbn [String.length Nat.add replicate]. rewrite <- bytes_length at 1. rewrite array_set_app. cbn [mbind ub_bind].
    rewrite app_shift, (length_shift p c). specialize (IH fuel (p ++ String c "")%string Hn ltac:(simpl in Hf; lia)).
    rewrite bytes_app, <- app_assoc in IH. exact IH.
Qed.

(** [item_clone] makes a new item of the same bytes. *)
Lemma item_clone_ok h l s : h_items h !! l = Some s -> no_nul s = true ->
  item_clone h (Some l) = Ok (Some (h_brk h), Heap (h_nodes h) (<[h_brk h := s]> (h_items h)) (Pos.succ (h_brk h))).
Proof.
  intros Hl Hn. unfold item_clone. rewrite (item_len_ok _ _ _ Hl Hn). unfold item_at. rewrite Hl. cbn [mbind ub_bind].
  replace (S (String.length s) * 8)%nat with (String.length s + S (7 + String.length s * 7))%nat by lia.
  pose proof (clone_loop_ok (S (String.length s)) "" s (S (7 + String.length s * 7)) Hn ltac:(lia)) as Hc.
  change ("" ++ s)%string with s in Hc. cbn [bytes String.list_ascii_of_string app String.length] in Hc. rewrite Hc. cbn [mbind ub_bind replicate].
  replace (Z.of_nat (S (String.length s)) - 1) with (Z.of_nat (length (bytes s))) by (rewrite bytes_length; lia).
  rewrite array_set_app. cbn [mbind ub_bind]. by rewrite mem_string_bytes.
Qed.

(** ** Addresses *)

(** Everything is below the next address. *)
Definition heap_ok (h : heap V) : Prop :=
  (forall l, is_Some (h_nodes h !! l) -> (l < h_brk h)%positive) /\ (forall l, is_Some (h_items h !! l) -> (l < h_brk h)%positive).

Lemma heap_ok_item h l s : heap_ok h -> (l <= h_brk h)%positive ->
  heap_ok (Heap (h_nodes h) (<[l := s]> (h_items h)) (Pos.succ (h_brk h))).
Proof.
  intros [H1 H2] Hl. split; cbn [h_nodes h_items h_brk]; intros k Hk.
  - specialize (H1 k Hk). lia.
  - apply lookup_insert_Some_or in Hk as [Hk| ->]; [specialize (H2 k Hk)|]; lia.
Qed.

Lemma fresh_node_none h : heap_ok h -> h_nodes h !! h_brk h = None.
Proof. intros [H1 _]. apply eq_None_not_Some. intros Hl. specialize (H1 _ Hl). lia. Qed.

Lemma heap_ok_sub h m its : heap_ok h -> (forall k, is_Some (m !! k) -> is_Some (h_nodes h !! k)) ->
  (forall k, is_Some (its !! k) -> is_Some (h_items h !! k)) -> heap_ok (Heap m its (h_brk h)).
Proof. intros [H1 H2] Hm Hi. split; intros k Hk; [by apply H1, Hm|by apply H2, Hi]. Qed.
End Items.

Lemma delete_is_Some_sub {A} (m : gmap loc A) l k : is_Some (delete l m !! k) -> is_Some (m !! k).
Proof. by intros [_ ?]%lookup_delete_is_Some. Qed.
