(* ===== verification/BQueue.v ===== *)
(** * The queue of strings ([src/A.basic/2.Queue])

    [doubly_linkedlist.c] has the nodes and [queue_linkedlist.c] the queue.  The first item that is pushed to an empty queue gets a node
    that leads to itself; the second one puts this right. *)

From S2P Require Import Prelude CText Chain BItem.

(** A node holds the address of an item. *)
Record node := Node { data : option loc; next : option loc; prev : option loc }.
Abbreviation heap := (BItem.heap node).

(** ** [doubly_linkedlist.c] *)

Definition live (h : heap) (l : loc) : ub node :=
  match h_nodes h !! l with Some v => Ok v | None => UB use_after_free end.
(** After [assert(n != NULL)]. *)
Definition asserted {A} (p : option A) : ub A := match p with Some a => Ok a | None => UB exits end.
Definition put (h : heap) (l : loc) (v : node) : heap := Heap (<[l := v]> (h_nodes h)) (h_items h) (h_brk h).

Definition new_node (h : heap) : option loc * heap :=
  (Some (h_brk h), Heap (<[h_brk h := Node None None None]> (h_nodes h)) (h_items h) (Pos.succ (h_brk h))).

Definition set_data (h : heap) (n d : option loc) : ub heap :=
  l ← asserted n; _ ← asserted d; '(c, h) ← item_clone h d;
  v ← live h l; Ok (put h l (Node c (next v) (prev v))).
Definition get_data (h : heap) (n : option loc) : ub (option loc) := l ← asserted n; v ← live h l; Ok (data v).
Definition set_next (h : heap) (src dest : option loc) : ub heap :=
  l ← asserted src; _ ← asserted dest; v ← live h l; Ok (put h l (Node (data v) dest (prev v))).
Definition get_next (h : heap) (n : option loc) : ub (option loc) := l ← asserted n; v ← live h l; Ok (next v).
Definition set_prev (h : heap) (src dest : option loc) : ub heap :=
  l ← asserted src; _ ← asserted dest; v ← live h l; Ok (put h l (Node (data v) (next v) dest)).
Definition get_prev (h : heap) (n : option loc) : ub (option loc) := l ← asserted n; v ← live h l; Ok (prev v).

Definition free_node (h : heap) (n : option loc) : ub heap :=
  match n with
  | None => Ok h
  | Some l => _ ← live h l; Ok (Heap (delete l (h_nodes h)) (h_items h) (h_brk h))
  end.

Fixpoint list_free_recursive (fuel : nat) (h : heap) (n : option loc) : ub heap :=
  match fuel with
  | O => UB no_fuel
  | S fuel =>
      l ← deref n; v ← live h l;
      match next v with
      | None => free_node h n
      | Some _ => h ← list_free_recursive fuel h (next v); free_node h n
      end
  end.
Definition linkedListDestroy := list_free_recursive.

(** ** [queue_linkedlist.c] *)

Record queue := Queue { q_h : option loc; q_t : option loc }.

Definition queue_new : queue := Queue None None.

Definition queue_destroy (fuel : nat) (h : heap) (q : queue) : ub heap :=
  match q_h q with Some _ => linkedListDestroy fuel h (q_h q) | None => Ok h end.

Definition queue_pop (h : heap) (q : queue) : ub (option loc * heap * queue) :=
  d ← get_data h (q_h q);
  n ← get_next h (q_h q);
  h ← free_node h (q_h q);
  Ok (d, h, Queue n (match n with None => None | Some _ => q_t q end)).

Definition queue_push (h : heap) (q : queue) (d : option loc) : ub (heap * queue) :=
  _ ← asserted d;
  let '(n, h) := new_node h in
  '(c, h) ← item_clone h d;
  h ← set_data h n c;
  let q := match q_h q with None => Queue n n | Some _ => q end in
  h ← set_next h (q_t q) n;
  h ← set_prev h n (q_t q);
  Ok (h, Queue (q_h q) n).

Fixpoint size_loop (fuel : nat) (h : heap) (c : option loc) (count : Z) : ub Z :=
  match c with
  | None => Ok count
  | Some _ =>
      match fuel with
      | O => UB no_fuel
      | S fuel => c' ← get_next h c; size_loop fuel h c' (u64 (count + 1))
      end
  end.
Definition queue_size (fuel : nat) (h : heap) (q : queue) : ub Z := size_loop fuel h (q_h q) 0.

(** ** What the queue does *)

(** The queue as its user sees it: [Looped] is a queue with one item that was pushed
    when it was empty, [Dangling] leads to a node that was freed. *)
Inductive qstate := Items (xs : list string) | Looped (x : string) | Dangling.

Definition spec_push (s : string) (st : qstate) : ub qstate :=
  match st with
  | Items [] => Ok (Looped s)
  | Items xs => Ok (Items (xs ++ [s]))
  | Looped x => Ok (Items [x; s])
  | Dangling => UB use_after_free
  end.

Definition spec_pop (st : qstate) : ub (string * qstate) :=
  match st with
  | Items [] => UB exits
  | Items (x :: xs) => Ok (x, Items xs)
  | Looped x => Ok (x, Dangling)
  | Dangling => UB use_after_free
  end.

(** A walk over a looped queue does not end. *)
Definition spec_size (st : qstate) : ub Z :=
  match st with Items xs => Ok (Z.of_nat (length xs)) | Looped _ => UB no_fuel | Dangling => UB use_after_free end.

(** The calls of a program: it pushes literals, and shows and drops what it pops. *)
Inductive qop := Push (s : string) | Pop | Size.

Definition literal (h : heap) (s : string) : option loc * heap :=
  (Some (h_brk h), Heap (h_nodes h) (<[h_brk h := s]> (h_items h)) (Pos.succ (h_brk h))).

Definition run_op (fuel : nat) (op : qop) (h : heap) (q : queue) : ub (option (string + Z) * heap * queue) :=
  match op with
  | Push s => let '(d, h) := literal h s in '(h, q) ← queue_push h q d; Ok (None, h, q)
  | Pop => '(d, h, q) ← queue_pop h q; s ← item_at h d; h ← item_drop h d; Ok (Some (inl s), h, q)
  | Size => n ← queue_size fuel h q; Ok (Some (inr n), h, q)
  end.

Fixpoint run_ops (fuel : nat) (ops : list qop) (h : heap) (q : queue) : ub (list (option (string + Z)) * heap * queue) :=
  match ops with
  | [] => Ok ([], h, q)
  | op :: ops =>
      '(o, h, q) ← run_op fuel op h q; '(os, h, q) ← run_ops fuel ops h q; Ok (o :: os, h, q)
  end.

Definition spec_op (op : qop) (st : qstate) : ub (option (string + Z) * qstate) :=
  match op with
  | Push s => st ← spec_push s st; Ok (None, st)
  | Pop => '(s, st) ← spec_pop st; Ok (Some (inl s), st)
  | Size => n ← spec_size st; Ok (Some (inr n), st)
  end.

Fixpoint spec_ops (ops : list qop) (st : qstate) : ub (list (option (string + Z)) * qstate) :=
  match ops with
  | [] => Ok ([], st)
  | op :: ops => '(o, st) ← spec_op op st; '(os, st) ← spec_ops ops st; Ok (o :: os, st)
  end.

Definition op_ok (op : qop) : bool := match op with Push s => no_nul s | _ => true end.

(** ** The invariant *)

(** A node with an item; the content of a cell is the pointer back and the item. *)
Definition cell (c : option loc * loc) (n : option loc) : node := Node (Some c.2) n c.1.

Definition item_is (h : heap) (c : option loc * loc) (x : string) : Prop := h_items h !! c.2 = Some x /\ no_nul x = true.

(** The queue, the only owner of nodes, is in the state [st]. *)
Definition shows (h : heap) (q : queue) (st : qstate) : Prop :=
  match st with
  | Items xs => exists ls cs, q = Queue (lhead ls None) (last ls) /\ NoDup ls /\ seg cell (h_nodes h) ls cs None /\
      NoDup cs.*2 /\ Forall2 (item_is h) cs xs /\ (forall l, l ∉ ls -> h_nodes h !! l = None)
  | Looped x => exists l c, q = Queue (Some l) (Some l) /\ h_nodes h !! l = Some (cell c (Some l)) /\ item_is h c x /\
      (forall k, k <> l -> h_nodes h !! k = None)
  | Dangling => exists l, q = Queue (Some l) (Some l) /\ h_nodes h !! l = None /\ (l < h_brk h)%positive
  end /\ heap_ok h.

Lemma heap_ok_put h l v : heap_ok h -> is_Some (h_nodes h !! l) -> heap_ok (put h l v).
Proof.
  intros [H1 H2] Hl. split; [|done]. intros k Hk. cbn in *. apply lookup_insert_Some_or in Hk as [Hk| ->]; by apply H1.
Qed.

Lemma live_ok h l v : h_nodes h !! l = Some v -> live h l = Ok v.
Proof. intros Hl. unfold live. by rewrite Hl. Qed.

(** The heap of [queue_push] when the node has its item: two copies were made. *)
Definition pushed_heap (h : heap) (s : string) : heap :=
  let b := h_brk h in
  Heap (<[b := Node (Some (b + 2)%positive) None None]> (h_nodes h)) (<[(b + 2)%positive := s]> (<[(b + 1)%positive := s]> (h_items h)))
    (b + 3)%positive.

Lemma queue_push_eq h q d s : heap_ok h -> h_items h !! d = Some s -> no_nul s = true ->
  queue_push h q (Some d) =
    (h1 ← set_next (pushed_heap h s) (match q_h q with None => Some (h_brk h) | Some _ => q_t q end) (Some (h_brk h));
     h2 ← set_prev h1 (Some (h_brk h)) (match q_h q with None => Some (h_brk h) | Some _ => q_t q end);
     Ok (h2, Queue (match q_h q with None => Some (h_brk h) | Some _ => q_h q end) (Some (h_brk h)))).
Proof.
  intros Hh Hd Hn. unfold queue_push, new_node. cbn [asserted mbind ub_bind].
  rewrite (item_clone_ok _ d s) by done. cbn [mbind ub_bind h_nodes h_items h_brk]. unfold set_data. cbn [asserted mbind ub_bind].
  rewrite (item_clone_ok _ (Pos.succ (h_brk h)) s) by (done || apply lookup_insert_eq). cbn [mbind ub_bind h_nodes h_items h_brk].
  rewrite (live_ok _ _ (Node None None None)) by apply lookup_insert_eq. cbn [mbind ub_bind next prev]. unfold put.
  cbn [h_nodes h_items h_brk]. rewrite insert_insert_eq.
  assert (Heap (<[h_brk h:=Node (Some (Pos.succ (Pos.succ (h_brk h)))) None None]> (h_nodes h))
    (<[Pos.succ (Pos.succ (h_brk h)):=s]> (<[Pos.succ (h_brk h):=s]> (h_items h))) (Pos.succ (Pos.succ (Pos.succ (h_brk h)))) = pushed_heap h s) as ->.
  { unfold pushed_heap. replace (Pos.succ (h_brk h)) with (h_brk h + 1)%positive by lia.
    replace (Pos.succ (h_brk h + 1)) with (h_brk h + 2)%positive by lia. by replace (Pos.succ (h_brk h + 2)) with (h_brk h + 3)%positive by lia. }
  by destruct q as [[]].
Qed.

Lemma pushed_heap_ok h s : heap_ok h -> heap_ok (pushed_heap h s).
Proof.
  intros [H1 H2]. split; cbn [pushed_heap h_nodes h_items h_brk]; intros k Hk.
  - apply lookup_insert_Some_or in Hk as [Hk| ->]; [specialize (H1 k Hk)|]; lia.
  - apply lookup_insert_Some_or in Hk as [[Hk| ->]%lookup_insert_Some_or| ->]; [specialize (H2 k Hk)|..]; lia.
Qed.

(** The items that are in the heap stay, and the new one is there. *)
Lemma pushed_item h s c x : heap_ok h -> item_is h c x -> item_is (pushed_heap h s) c x /\ (c.2 < h_brk h)%positive.
Proof.
  intros [_ H2] [Hc Hx]. assert (c.2 < h_brk h)%positive as Hl by (apply H2; by rewrite Hc). split; [|done]. split; [|done].
  cbn. by rewrite !lookup_insert_ne by lia.
Qed.

(** ** The operations keep it *)

Lemma set_next_ok h l v m : h_nodes h !! l = Some v -> set_next h (Some l) (Some m) = Ok (put h l (Node (data v) (Some m) (prev v))).
Proof. intros Hl. unfold set_next. cbn [asserted mbind ub_bind]. by rewrite (live_ok _ _ _ Hl). Qed.

Lemma set_prev_ok h l v m : h_nodes h !! l = Some v -> set_prev h (Some l) (Some m) = Ok (put h l (Node (data v) (next v) (Some m))).
Proof. intros Hl. unfold set_prev. cbn [asserted mbind ub_bind]. by rewrite (live_ok _ _ _ Hl). Qed.

(** A push to a queue with a last node [l]: whatever it leads to, then it leads to the new node. *)
Lemma push_behind h q s d l c n : heap_ok h -> h_items h !! d = Some s -> no_nul s = true -> q_t q = Some l -> q_h q <> None ->
  h_nodes h !! l = Some (cell c n) ->
  exists h', queue_push h q (Some d) = Ok (h', Queue (q_h q) (Some (h_brk h))) /\ h_items h' = h_items (pushed_heap h s) /\
    h_nodes h' = <[h_brk h := cell (Some l, (h_brk h + 2)%positive) None]> (<[l := cell c (Some (h_brk h))]> (h_nodes h)) /\ heap_ok h'.
Proof.
  intros Hh Hd Hn Ht Hq Hl. rewrite (queue_push_eq h q d s Hh Hd Hn), Ht. destruct (q_h q) as [f|]; [|done].
  assert (Hlb : l <> h_brk h) by (intros ->; by rewrite (fresh_node_none h Hh) in Hl).
  assert (H1 : h_nodes (pushed_heap h s) !! l = Some (cell c n)) by (cbn; by rewrite lookup_insert_ne).
  rewrite (set_next_ok _ _ _ _ H1). cbn [mbind ub_bind]. set (h1 := put _ _ _).
  assert (H2 : h_nodes h1 !! h_brk h = Some (Node (Some (h_brk h + 2)%positive) None None)).
  { cbn. rewrite lookup_insert_ne by done. apply lookup_insert_eq. }
  rewrite (set_prev_ok _ _ _ _ H2). cbn [mbind ub_bind]. eexists. split; [done|]. split; [done|]. split.
  - cbn. rewrite (insert_insert_ne _ l) by done. by rewrite insert_insert_eq.
  - apply heap_ok_put; [|by rewrite H2]. apply heap_ok_put; [by apply pushed_heap_ok|by rewrite H1].
Qed.

Lemma items_below h cs xs : heap_ok h -> Forall2 (item_is h) cs xs -> Forall (fun c => (c.2 < h_brk h)%positive) cs.
Proof. intros [_ H2]. induction 1 as [|c x cs xs [Hc _] _ IH]; [done|]. constructor; [|done]. apply H2. by rewrite Hc. Qed.

Lemma items_pushed h s cs xs : heap_ok h -> Forall2 (item_is h) cs xs -> Forall2 (item_is (pushed_heap h s)) cs xs.
Proof. intros Hh Hf. eapply Forall2_impl; [exact Hf|]. intros c x Hc. by apply pushed_item. Qed.

(** The new item is none of those in the queue. *)
Lemma items_fresh h cs xs k : heap_ok h -> Forall2 (item_is h) cs xs -> (h_brk h <= k)%positive -> NoDup cs.*2 ->
  forall p : option loc, NoDup (cs ++ [(p, k)]).*2.
Proof.
  intros Hh Hf Hk Hn p. rewrite fmap_app. apply NoDup_app. split; [done|]. split; [|apply NoDup_singleton].
  intros l Hl ->%list_elem_of_singleton. apply list_elem_of_fmap in Hl as (c & Hc & Hl).
  pose proof (proj1 (Forall_forall _ _) (items_below h cs xs Hh Hf) c Hl) as Hb. cbn in Hb, Hc. lia.
Qed.

Lemma item_is_items h h' c x : h_items h' = h_items h -> item_is h c x -> item_is h' c x.
Proof. unfold item_is. by intros ->. Qed.

(** Behind the last node of a list. *)
Lemma push_list h ls l cs c xs x s d p :
  let q := Queue (lhead (ls ++ [l]) None) (Some l) in
  heap_ok h -> NoDup (ls ++ [l]) -> seg cell (h_nodes h) ls cs (Some l) -> h_nodes h !! l = Some (cell c p) ->
  NoDup (cs ++ [c]).*2 -> Forall2 (item_is h) (cs ++ [c]) (xs ++ [x]) -> (forall k, k ∉ ls ++ [l] -> h_nodes h !! k = None) ->
  h_items h !! d = Some s -> no_nul s = true ->
  exists h' q', queue_push h q (Some d) = Ok (h', q') /\ shows h' q' (Items ((xs ++ [x]) ++ [s])).
Proof.
  intros q Hh Hnd Hs Hl Hnc Hf Hout Hd Hn. pose proof (fresh_node_none h Hh) as Hno.
  destruct (push_behind h q s d l c p Hh Hd Hn) as (h' & -> & Hi & Hm & Hh'); [done|by destruct ls|done|].
  do 2 eexists. split; [done|]. split; [|done].
  apply NoDup_app in Hnd as (Hn1 & Hn2 & _). assert (Hl' : l ∉ ls) by (intros Hc; apply (Hn2 l Hc); left).
  assert (Hb : forall k, k ∈ ls ++ [l] -> k <> h_brk h).
  { intros k Hk ->. apply elem_of_app in Hk as [Hk|Hk%list_elem_of_singleton]; [|subst l; by rewrite Hno in Hl].
    destruct (seg_elem cell _ _ _ _ _ Hs Hk) as [v Hv]. by rewrite Hno in Hv. }
  assert (Hlb : l <> h_brk h) by (apply Hb, elem_of_app; right; left).
  exists ((ls ++ [l]) ++ [h_brk h]), ((cs ++ [c]) ++ [(Some l, (h_brk h + 2)%positive)]). split_and!.
  - unfold q. cbn [q_h]. rewrite (last_snoc (h_brk h)). by destruct ls.
  - apply NoDup_app. split; [apply NoDup_app; split_and!; [done|done|apply NoDup_singleton]|]. split; [|apply NoDup_singleton].
    intros k Hk ->%list_elem_of_singleton. by apply (Hb _ Hk).
  - rewrite Hm. apply seg_snoc. split; [apply seg_snoc; split|].
    + eapply seg_ext, Hs. intros k Hk. rewrite !lookup_insert_ne; [done|by intros <-|].
      intros He. apply (Hb k); [apply elem_of_app; by left|done].
    + rewrite lookup_insert_ne by done. apply lookup_insert_eq.
    + apply lookup_insert_eq.
  - eapply items_fresh; [exact Hh|exact Hf|lia|done].
  - apply Forall2_app.
    + eapply Forall2_impl; [by apply (items_pushed h s)|]. intros c0 x0. by apply item_is_items.
    + repeat constructor; [|done]. cbn. rewrite Hi. apply lookup_insert_eq.
  - intros k Hk. rewrite Hm, !lookup_insert_ne; [apply Hout|..]; set_solver.
Qed.

(** To an empty queue. *)
Lemma push_empty h s d : heap_ok h -> (forall k, h_nodes h !! k = None) -> h_items h !! d = Some s -> no_nul s = true ->
  exists h' q', queue_push h queue_new (Some d) = Ok (h', q') /\ shows h' q' (Looped s).
Proof.
  intros Hh Hout Hd Hn. rewrite (queue_push_eq h _ d s Hh Hd Hn). cbn [queue_new q_h q_t].
  assert (H1 : h_nodes (pushed_heap h s) !! h_brk h = Some (Node (Some (h_brk h + 2)%positive) None None)) by apply lookup_insert_eq.
  rewrite (set_next_ok _ _ _ _ H1). cbn [mbind ub_bind]. set (h1 := put _ _ _).
  assert (H2 : h_nodes h1 !! h_brk h = Some (Node (Some (h_brk h + 2)%positive) (Some (h_brk h)) None)) by apply lookup_insert_eq.
  rewrite (set_prev_ok _ _ _ _ H2). cbn [mbind ub_bind]. do 2 eexists. split; [done|]. split.
  - exists (h_brk h), (Some (h_brk h), (h_brk h + 2)%positive). split_and!; [done|apply lookup_insert_eq| |].
    + split; [apply lookup_insert_eq|done].
    + intros k Hk. cbn. by rewrite !lookup_insert_ne by done.
  - apply heap_ok_put; [|by rewrite H2]. apply heap_ok_put; [by apply pushed_heap_ok|by rewrite H1].
Qed.

Lemma push_shows h q st d s : shows h q st -> h_items h !! d = Some s -> no_nul s = true ->
  match spec_push s st with
  | Ok st' => exists h' q', queue_push h q (Some d) = Ok (h', q') /\ shows h' q' st'
  | UB f => queue_push h q (Some d) = UB f
  end.
Proof.
  intros [Hst Hh] Hd Hn. destruct st as [xs|x|].
  - destruct Hst as (ls & cs & -> & Hnd & Hs & Hnc & Hf & Hout). destruct (snoc_cases ls) as [->|(ls' & l & ->)].
    + destruct cs; [|done]. apply Forall2_nil_inv_l in Hf as ->. apply push_empty; try done. intros k. apply Hout, not_elem_of_nil.
    + destruct (snoc_cases cs) as [->|(cs' & c & ->)]; [by destruct ls'|]. apply seg_snoc in Hs as [Hs Hl].
      pose proof Hf as (xs1 & xs2 & _ & (x & xs3 & _ & ->%Forall2_nil_inv_l & ->)%Forall2_cons_inv_l & ->)%Forall2_app_inv_l.
      rewrite last_snoc. replace (spec_push s (Items (xs1 ++ [x]))) with (Ok (Items ((xs1 ++ [x]) ++ [s]))) by (by destruct xs1).
      by eapply push_list.
  - destruct Hst as (l & c & -> & Hl & Hx & Hout).
    apply (push_list h [] l [] c [] x s d (Some l));
      [done|apply NoDup_singleton|done|done|apply NoDup_singleton|by constructor| |done|done].
    intros k Hk. apply Hout. intros ->. apply Hk. left.
  - destruct Hst as (l & -> & Hl & Hlt). cbn [spec_push]. rewrite (queue_push_eq h _ d s Hh Hd Hn). cbn [q_h q_t].
    unfold set_next. cbn [asserted mbind ub_bind]. unfold live. cbn [pushed_heap h_nodes]. by rewrite lookup_insert_ne, Hl by lia.
Qed.

Lemma get_data_ok h l v : h_nodes h !! l = Some v -> get_data h (Some l) = Ok (data v).
Proof. intros Hl. unfold get_data. cbn [asserted mbind ub_bind]. by rewrite (live_ok _ _ _ Hl). Qed.

Lemma get_next_ok h l v : h_nodes h !! l = Some v -> get_next h (Some l) = Ok (next v).
Proof. intros Hl. unfold get_next. cbn [asserted mbind ub_bind]. by rewrite (live_ok _ _ _ Hl). Qed.

Lemma free_node_ok h l v : h_nodes h !! l = Some v -> free_node h (Some l) = Ok (Heap (delete l (h_nodes h)) (h_items h) (h_brk h)).
Proof. intros Hl. unfold free_node. by rewrite (live_ok _ _ _ Hl). Qed.

(** What is popped, and the queue when its user has dropped it. *)
Lemma pop_shows h q st : shows h q st ->
  match spec_pop st with
  | Ok (x, st') => exists d h1 q', queue_pop h q = Ok (Some d, h1, q') /\ h_items h1 !! d = Some x /\
      shows (Heap (h_nodes h1) (delete d (h_items h1)) (h_brk h1)) q' st'
  | UB f => queue_pop h q = UB f
  end.
Proof.
  intros [Hst Hh]. destruct st as [[|x xs]|x|].
  - destruct Hst as (ls & cs & -> & _ & Hs & _ & Hf & _). apply Forall2_nil_inv_r in Hf as ->. by destruct ls.
  - destruct Hst as (ls & cs & -> & Hnd & Hs & Hnc & Hf & Hout). apply Forall2_cons_inv_r in Hf as (c & cs' & [Hc Hx] & Hf & ->).
    destruct ls as [|l ls]; [done|]. destruct Hs as [Hl Hs]. apply NoDup_cons in Hnd as [Hnl Hnd]. cbn in Hnc. apply NoDup_cons in Hnc as [Hnc0 Hnc].
    cbn [spec_pop lhead]. unfold queue_pop. cbn [q_h q_t]. rewrite (get_data_ok _ _ _ Hl), (get_next_ok _ _ _ Hl), (free_node_ok _ _ _ Hl).
    cbn [mbind ub_bind cell data next]. do 3 eexists. split; [done|]. split; [exact Hc|]. cbn [h_nodes h_items h_brk]. split.
    + exists ls, cs'. split_and!; [by destruct ls|done| |done| |].
      * eapply seg_ext, Hs. intros k Hk. apply lookup_delete_ne. by intros <-.
      * apply Forall2_same_length_lookup_2; [by eapply Forall2_length|]. intros i c' x' Hc' Hx'.
        destruct (Forall2_lookup_lr _ _ _ _ _ _ Hf Hc' Hx') as [H1 H2]. split; [|done]. cbn [h_items].
        rewrite lookup_delete_ne; [done|]. intros He. apply Hnc0. rewrite He. apply list_elem_of_fmap. exists c'.
        split; [done|]. by eapply list_elem_of_lookup_2.
      * intros k Hk. cbn [h_nodes]. destruct (decide (k = l)) as [->|Hkl]; [apply lookup_delete_eq|].
        rewrite lookup_delete_ne by done. apply Hout. by intros [|]%elem_of_cons.
    + apply heap_ok_sub; [done|..]; intros k; apply delete_is_Some_sub.
  - destruct Hst as (l & c & -> & Hl & [Hc Hx] & Hout). cbn [spec_pop]. unfold queue_pop. cbn [q_h q_t].
    rewrite (get_data_ok _ _ _ Hl), (get_next_ok _ _ _ Hl), (free_node_ok _ _ _ Hl). cbn [mbind ub_bind cell data next].
    do 3 eexists. split; [done|]. split; [exact Hc|]. cbn [h_nodes h_items h_brk]. split.
    + exists l. split; [done|]. split; [apply lookup_delete_eq|]. cbn [h_brk]. apply (proj1 Hh). by rewrite Hl.
    + apply heap_ok_sub; [done|..]; intros k; apply delete_is_Some_sub.
  - destruct Hst as (l & -> & Hl & _). cbn [spec_pop]. unfold queue_pop, get_data, live. cbn [q_h asserted mbind ub_bind]. by rewrite Hl.
Qed.

Lemma size_list fuel h ls cs c : seg cell (h_nodes h) ls cs None -> (length ls <= fuel)%nat -> 0 <= c ->
  c + Z.of_nat (length ls) < 2 ^ 64 -> size_loop fuel h (lhead ls None) c = Ok (c + Z.of_nat (length cs)).
Proof.
  revert cs fuel c. induction ls as [|k ls IH]; intros [|x cs] fuel c Hs Hf Hc Hb; try done.
  - destruct fuel; cbn; f_equal; lia.
  - destruct fuel as [|fuel]; [simpl in Hf; lia|]. destruct Hs as [Hk Hs]. cbn [lhead size_loop].
    rewrite (get_next_ok _ _ _ Hk). cbn [mbind ub_bind next cell]. simpl in Hf, Hb. rewrite uN_small by lia.
    rewrite (IH cs) by (done || lia). f_equal. cbn [length]. lia.
Qed.

Lemma size_circle fuel h l c n : h_nodes h !! l = Some (cell c (Some l)) -> size_loop fuel h (Some l) n = UB no_fuel.
Proof.
  intros Hl. revert n. induction fuel as [|fuel IH]; intros n; [done|]. cbn [size_loop].
  rewrite (get_next_ok _ _ _ Hl). cbn [mbind ub_bind next cell]. apply IH.
Qed.

Definition count (st : qstate) : nat := match st with Items xs => length xs | _ => 1 end.

Lemma size_shows fuel h q st : shows h q st -> (0 < fuel)%nat -> (count st <= fuel)%nat -> Z.of_nat (count st) < 2 ^ 64 ->
  queue_size fuel h q = spec_size st.
Proof.
  intros [Hst Hh] H0 Hf Hb. unfold queue_size. destruct st as [xs|x|].
  - destruct Hst as (ls & cs & -> & _ & Hs & _ & Hi & _). pose proof (Forall2_length _ _ _ Hi) as Hl.
    pose proof (seg_length cell _ _ _ _ Hs) as Hl2. cbn [q_h count] in *. rewrite (size_list _ _ _ _ _ Hs) by lia. cbn. do 2 f_equal. lia.
  - destruct Hst as (l & c & -> & Hl & _). cbn [q_h spec_size]. by apply (size_circle _ _ _ c).
  - destruct Hst as (l & -> & Hl & _). destruct fuel as [|fuel]; [lia|]. cbn [q_h spec_size size_loop].
    unfold get_next, live. cbn [asserted mbind ub_bind]. by rewrite Hl.
Qed.

(** ** The end of a queue *)

Lemma free_list fuel h ls cs : seg cell (h_nodes h) ls cs None -> NoDup ls -> ls <> [] -> (length ls <= fuel)%nat ->
  exists h', list_free_recursive fuel h (lhead ls None) = Ok h' /\ h_items h' = h_items h /\
    forall k, h_nodes h' !! k = if decide (k ∈ ls) then None else h_nodes h !! k.
Proof.
  revert cs fuel. induction ls as [|l ls IH]; intros cs fuel Hs Hn Hne Hf; [done|].
  destruct fuel as [|fuel]; [simpl in Hf; lia|]. destruct cs as [|c cs]; [done|]. destruct Hs as [Hl Hs].
  apply NoDup_cons in Hn as [Hnl Hn]. cbn [lhead list_free_recursive deref mbind ub_bind]. rewrite (live_ok _ _ _ Hl).
  cbn [mbind ub_bind cell next]. destruct ls as [|l2 ls]; cbn [lhead] in *.
  - rewrite (free_node_ok _ _ _ Hl). eexists. do 2 (split; [done|]). intros k. cbn [h_nodes].
    case_decide as Hk; [apply list_elem_of_singleton in Hk as ->; apply lookup_delete_eq|].
    apply lookup_delete_ne. intros ->. apply Hk. left.
  - destruct (IH cs fuel Hs Hn ltac:(done) ltac:(simpl in Hf |- *; lia)) as (h1 & H1 & Hi & Hm). cbn [lhead] in H1.
    rewrite H1. cbn [mbind ub_bind]. rewrite (free_node_ok _ _ (cell c (Some l2))) by (rewrite Hm, decide_False by done; exact Hl).
    eexists. split; [done|]. split; [done|]. intros k. cbn [h_nodes]. destruct (decide (k = l)) as [->|Hkl].
    + rewrite lookup_delete_eq, decide_True by left. done.
    + rewrite lookup_delete_ne, Hm by done. repeat case_decide; try done; set_solver.
Qed.

Lemma free_circle fuel h l c : h_nodes h !! l = Some (cell c (Some l)) -> list_free_recursive fuel h (Some l) = UB no_fuel.
Proof.
  intros Hl. induction fuel as [|fuel IH]; [done|]. cbn [list_free_recursive deref mbind ub_bind].
  rewrite (live_ok _ _ _ Hl). cbn [mbind ub_bind cell next]. by rewrite IH.
Qed.

(** All nodes are given back, and no item is; a looped queue is never done. *)
Definition destroyed (fuel : nat) (h : heap) (q : queue) (st : qstate) : Prop :=
  match st with
  | Items _ => exists h', queue_destroy fuel h q = Ok h' /\ h_items h' = h_items h /\ forall k, h_nodes h' !! k = None
  | Looped _ => queue_destroy fuel h q = UB no_fuel
  | Dangling => queue_destroy fuel h q = UB use_after_free
  end.

Lemma destroy_shows fuel h q st : shows h q st -> (0 < fuel)%nat -> (count st <= fuel)%nat -> destroyed fuel h q st.
Proof.
  intros [Hst Hh] H0 Hf. unfold destroyed, queue_destroy, linkedListDestroy. destruct st as [xs|x|].
  - destruct Hst as (ls & cs & -> & Hn & Hs & _ & Hi & Hout). pose proof (Forall2_length _ _ _ Hi) as Hl.
    pose proof (seg_length cell _ _ _ _ Hs) as Hl2. cbn [q_h count] in *. destruct ls as [|l ls].
    + exists h. do 2 (split; [done|]). intros k. apply Hout, not_elem_of_nil.
    + destruct (free_list fuel h (l :: ls) cs Hs Hn ltac:(done) ltac:(lia)) as (h' & H1 & Hit & Hm). cbn [lhead] in *.
      exists h'. do 2 (split; [done|]). intros k. rewrite Hm. case_decide; [done|by apply Hout].
  - destruct Hst as (l & c & -> & Hl & _). by apply (free_circle _ _ _ c).
  - destruct Hst as (l & -> & Hl & _). destruct fuel as [|fuel]; [lia|]. cbn [q_h list_free_recursive deref mbind ub_bind].
    unfold live. by rewrite Hl.
Qed.

(** ** Programs *)

Lemma literal_shows h q st s : shows h q st -> shows (literal h s).2 q st /\ h_items (literal h s).2 !! h_brk h = Some s.
Proof.
  intros [Hst Hh]. split; [|apply lookup_insert_eq]. split; [|by apply heap_ok_item].
  assert (Hi : forall c x, item_is h c x -> item_is (literal h s).2 c x).
  { intros c x [Hc Hx]. split; [|done]. cbn. rewrite lookup_insert_ne; [done|]. destruct Hh as [_ H2].
    intros He. specialize (H2 c.2 ltac:(by rewrite Hc)). lia. }
  destruct st as [xs|x|]; cbn [literal snd] in *.
  - destruct Hst as (ls & cs & -> & H1 & H2 & H3 & H4 & H5). exists ls, cs. split_and!; try done.
    eapply Forall2_impl; [exact H4|]. exact Hi.
  - destruct Hst as (l & c & -> & H1 & H2 & H3). exists l, c. split_and!; try done; by apply Hi.
  - destruct Hst as (l & -> & H1 & H2). exists l. split_and!; try done. cbn. lia.
Qed.

Lemma op_shows fuel op h q st : shows h q st -> op_ok op = true -> (0 < fuel)%nat -> (count st <= fuel)%nat -> Z.of_nat (count st) < 2 ^ 64 ->
  match spec_op op st with
  | Ok (o, st') => exists h' q', run_op fuel op h q = Ok (o, h', q') /\ shows h' q' st' /\ (count st' <= S (count st))%nat
  | UB f => run_op fuel op h q = UB f
  end.
Proof.
  intros Hs Hok H0 Hf Hb. destruct op as [s| |]; cbn [spec_op run_op].
  - destruct (literal_shows h q st s Hs) as [Hs1 Hi]. pose proof (push_shows _ _ _ _ s Hs1 Hi Hok) as Hp.
    destruct (literal h s) as [d h1] eqn:Hd. assert (d = Some (h_brk h)) as -> by (injection Hd; done). cbn [snd] in *.
    destruct (spec_push s st) as [st'|f] eqn:Hsp; cbn [mbind ub_bind]; [|by rewrite Hp].
    destruct Hp as (h' & q' & -> & Hs'). cbn [mbind ub_bind]. exists h', q'. split; [done|]. split; [done|].
    destruct st as [[|y ys]|y|]; [injection Hsp as <-..|done]; cbn [count length]; try rewrite length_app; cbn [length]; lia.
  - pose proof (pop_shows h q st Hs) as Hp. destruct (spec_pop st) as [[x st']|f] eqn:Hsp; cbn [mbind ub_bind]; [|by rewrite Hp].
    destruct Hp as (d & h1 & q' & -> & Hd & Hs'). cbn [mbind ub_bind]. unfold item_drop, item_at. rewrite Hd. cbn [mbind ub_bind].
    do 2 eexists. split; [done|]. split; [exact Hs'|]. destruct st as [[|y ys]|y|]; [done|injection Hsp as <- <-..|done]; cbn [count length]; lia.
  - rewrite (size_shows _ _ _ _ Hs H0 Hf Hb). destruct (spec_size st) as [n|f]; [|done]. cbn [mbind ub_bind].
    exists h, q. split; [done|]. split; [done|lia].
Qed.

Lemma ops_show fuel ops h q st : shows h q st -> forallb op_ok ops = true -> (0 < fuel)%nat ->
  (count st + length ops <= fuel)%nat -> Z.of_nat (count st + length ops) < 2 ^ 64 ->
  match spec_ops ops st with
  | Ok (os, st') => exists h' q', run_ops fuel ops h q = Ok (os, h', q') /\ shows h' q' st' /\ (count st' <= count st + length ops)%nat
  | UB f => run_ops fuel ops h q = UB f
  end.
Proof.
  revert h q st. induction ops as [|op ops IH]; intros h q st Hs Hok H0 Hf Hb; cbn [spec_ops run_ops].
  - exists h, q. split; [done|]. split; [done|lia].
  - cbn [forallb length] in *. apply andb_true_iff in Hok as [Ho Hok].
    pose proof (op_shows fuel op h q st Hs Ho H0 ltac:(lia) ltac:(lia)) as H1.
    destruct (spec_op op st) as [[o st1]|f]; cbn [mbind ub_bind]; [|by rewrite H1].
    destruct H1 as (h1 & q1 & -> & Hs1 & Hc). cbn [mbind ub_bind]. specialize (IH h1 q1 st1 Hs1 Hok H0 ltac:(lia) ltac:(lia)).
    destruct (spec_ops ops st1) as [[os st2]|f]; cbn [mbind ub_bind]; [|by rewrite IH].
    destruct IH as (h' & q' & -> & Hs' & Hc'). cbn [mbind ub_bind]. exists h', q'. split; [done|]. split; [done|lia].
Qed.

(** C14: For every sequence of pushes, pops and sizes, the queue of linked nodes does what the abstract queue does:
    first in, first out, with the strings as they were pushed, but for an item that is
    pushed to an empty queue, whose node leads to itself: until a second one is pushed, to ask
    for the size or to destroy the queue never ends, whatever the number of steps, and to pop the item
    leaves a pointer to a freed node, which every later call uses.  In the other states to
    destroy the queue frees every node and no item. *)
Theorem queue_refines fuel ops : forallb op_ok ops = true -> (0 < fuel)%nat -> (length ops <= fuel)%nat -> Z.of_nat (length ops) < 2 ^ 64 ->
  match spec_ops ops (Items []) with
  | Ok (os, st) => exists h q, run_ops fuel ops (Heap ∅ ∅ 1) queue_new = Ok (os, h, q) /\ destroyed fuel h q st
  | UB f => run_ops fuel ops (Heap ∅ ∅ 1) queue_new = UB f
  end.
Proof.
  intros Hok H0 Hf Hb. assert (Hs : shows (Heap ∅ ∅ 1) queue_new (Items [])).
  { split; [|by split; intros k [v Hv]]. exists [], []. by split_and!; try constructor. }
  pose proof (ops_show fuel ops _ _ _ Hs Hok H0 Hf Hb) as Hr. destruct (spec_ops ops (Items [])) as [[os st]|f]; [|done].
  destruct Hr as (h & q & Hr & Hs' & Hc). exists h, q. split; [done|]. apply destroy_shows; [done|done|]. cbn [count length] in Hc. lia.
Qed.

(** The calls of [queue_test.c], and a queue with one item. *)
Definition test_ops : list qop := [Push "AHSAN"; Push "<3"; Push "CHONGI"; Size; Pop; Pop; Pop].

Lemma queue_refines_witness :
  (exists h q, run_ops 7 test_ops (Heap ∅ ∅ 1) queue_new =
     Ok ([None; None; None; Some (inr 3); Some (inl "AHSAN"); Some (inl "<3"); Some (inl "CHONGI")]%string, h, q) /\ destroyed 7 h q (Items [])) /\
  (forall fuel, (2 <= fuel)%nat -> run_ops fuel [Push "AHSAN"; Size] (Heap ∅ ∅ 1) queue_new = UB no_fuel).
Proof.
  split.
  - exact (queue_refines 7 test_ops eq_refl ltac:(repeat constructor) ltac:(repeat constructor) eq_refl).
  - intros fuel Hf. exact (queue_refines fuel [Push "AHSAN"; Size] eq_refl ltac:(lia) Hf eq_refl).
Defined.
