(* ===== verification/BList.v ===== *)
(** * Lists of named nodes ([src/A.basic/3.Graph/1.Func], [node.c] and [list.c])

    A doubly linked list with its size, into which nodes are inserted by position; the items
    are those of [BItem].  The data of a node is memory that is given back with it. *)

From S2P Require Import Prelude CText Chain BItem.

(** ** [node.c] *)

Record node := Node { name : option loc; data : option loc; next : option loc; prev : option loc }.
Abbreviation heap := (BItem.heap node).

Definition live (h : heap) (l : loc) : ub node :=
  match h_nodes h !! l with Some v => Ok v | None => UB use_after_free end.
(** After [assert(n != NULL)]. *)
Definition asserted {A} (p : option A) : ub A := match p with Some a => Ok a | None => UB exits end.
Definition put (h : heap) (l : loc) (v : node) : heap := Heap (<[l := v]> (h_nodes h)) (h_items h) (h_brk h).

Definition create_node (h : heap) : option loc * heap :=
  (Some (h_brk h), Heap (<[h_brk h := Node None None None None]> (h_nodes h)) (h_items h) (Pos.succ (h_brk h))).

Definition get_name (h : heap) (n : option loc) : ub (option loc) := l ← asserted n; v ← live h l; Ok (name v).
Definition set_name (h : heap) (n it : option loc) : ub heap :=
  l ← asserted n; '(c, h) ← item_clone h it; v ← live h l; Ok (put h l (Node c (data v) (next v) (prev v))).
Definition destroy_name (h : heap) (n : option loc) : ub heap := it ← get_name h n; item_drop h it.

Definition set_data (h : heap) (n d : option loc) : ub heap :=
  l ← asserted n; v ← live h l; Ok (put h l (Node (name v) d (next v) (prev v))).
Definition get_data (h : heap) (n : option loc) : ub (option loc) := l ← asserted n; v ← live h l; Ok (data v).
(** [free] of data that is memory. *)
Definition destroy_data (h : heap) (n : option loc) : ub heap :=
  d ← get_data h n; match d with None => Ok h | Some _ => item_drop h d end.

Definition free_node (h : heap) (n : option loc) : ub heap :=
  match n with
  | None => Ok h
  | Some l => _ ← live h l; Ok (Heap (delete l (h_nodes h)) (h_items h) (h_brk h))
  end.

Definition destroy_node (h : heap) (n : option loc) : ub heap :=
  it ← get_name h n;
  h ← match it with Some _ => destroy_name h n | None => Ok h end;
  d ← get_data h n;
  h ← match d with Some _ => destroy_data h n | None => Ok h end;
  free_node h n.

Definition set_prev (h : heap) (n p : option loc) : ub heap :=
  l ← asserted n; v ← live h l; Ok (put h l (Node (name v) (data v) (next v) p)).
Definition get_prev (h : heap) (n : option loc) : ub (option loc) := l ← asserted n; v ← live h l; Ok (prev v).
Definition set_next (h : heap) (n m : option loc) : ub heap :=
  l ← asserted n; v ← live h l;
  let h := put h l (Node (name v) (data v) m (prev v)) in
  match m with Some _ => set_prev h m n | None => Ok h end.
Definition get_next (h : heap) (n : option loc) : ub (option loc) := l ← asserted n; v ← live h l; Ok (next v).

Definition insert_after (h : heap) (n m : option loc) : ub heap :=
  _ ← asserted n; _ ← asserted m;
  x ← get_next h n;
  match x with
  | None => set_next h n m
  | Some _ => h ← set_next h m x; set_next h n m
  end.

Definition insert_before (h : heap) (n m : option loc) : ub heap :=
  _ ← asserted n; _ ← asserted m;
  p ← get_prev h n;
  match p with
  | None => set_next h m n
  | Some _ => h ← set_next h p m; set_next h m n
  end.

(** ** [list.c] *)

Record list_ := List_ { size : Z; head : option loc; tail : option loc }.

Definition create_list : list_ := List_ 0 None None.

Fixpoint _destroy_nodes (fuel : nat) (h : heap) (n : option loc) : ub heap :=
  match n with
  | None => Ok h
  | Some _ =>
      match fuel with
      | O => UB no_fuel
      | S fuel => x ← get_next h n; h ← _destroy_nodes fuel h x; destroy_node h n
      end
  end.

(** There are no more steps than nodes. *)
Definition destroy_list (h : heap) (l : list_) : ub heap :=
  if 0 <? size l then _destroy_nodes (stdpp.base.size (h_nodes h)) h (head l) else Ok h.

Definition set_head (l : list_) (n : option loc) : list_ :=
  List_ (size l) n (match head l with None => n | Some _ => tail l end).
Definition get_head (l : list_) : option loc := head l.
Definition set_tail (l : list_) (n : option loc) : list_ :=
  List_ (size l) (match head l with None => n | Some _ => head l end) n.
Definition get_tail (l : list_) : option loc := head l.
Definition get_size (l : list_) : Z := size l.

Definition make_node (h : heap) (it d : option loc) : ub (option loc * heap) :=
  let '(n, h) := create_node h in h ← set_name h n it; h ← set_data h n d; Ok (n, h).

Definition add_node (h : heap) (l : list_) (n : option loc) : ub (heap * list_) :=
  _ ← asserted n;
  match tail l with
  | None => Ok (h, List_ (u64 (size l + 1)) n n)
  | Some _ => h ← set_next h (tail l) n; Ok (h, List_ (u64 (size l + 1)) (head l) n)
  end.

(** The loops that count with an [int]. *)
Fixpoint walk_next (k : nat) (h : heap) (curr : option loc) : ub (option loc) :=
  match k with O => Ok curr | S k => c ← get_next h curr; walk_next k h c end.
Fixpoint walk_prev (k : nat) (h : heap) (curr : option loc) : ub (option loc) :=
  match k with O => Ok curr | S k => c ← get_prev h curr; walk_prev k h c end.

(** The test of [((double)pos/(double)l->size)*100.0 <= 50.0] is exact for a size below 2^31. *)
Definition in_first_half (pos size : Z) : bool := 2 * pos <=? size.

Definition insert_node (h : heap) (l : list_) (pos : Z) (n : option loc) : ub (heap * list_) :=
  _ ← asserted n;
  '(h, l) ←
    (if size l =? 0 then Ok (h, set_head l n)
     else if pos =? 1 then
       h ← insert_after h n (head l); Ok (h, List_ (size l) n (tail l))
     else if u64 (size l + 1) =? pos then
       '(h, l) ← add_node h l n; Ok (h, List_ (u64 (size l - 1)) (head l) (tail l))
     else if in_first_half pos (size l) then
       curr ← walk_next (Z.to_nat (pos - 1)) h (head l); h ← insert_before h curr n; Ok (h, l)
     else
       curr ← walk_prev (Z.to_nat (size l - pos)) h (tail l); h ← insert_before h curr n; Ok (h, l));
  Ok (h, List_ (u64 (size l + 1)) (head l) (tail l)).

(** ** Doubly linked nodes *)

(** What a node holds: its name and its data. *)
Abbreviation content := (option loc * option loc)%type.
Definition cell (x : content) (p n : option loc) : node := Node x.1 x.2 n p.

Definition llast (p : option loc) (ls : list loc) : option loc := match last ls with Some l => Some l | None => p end.

(** The nodes [ls] hold [xs]; [p] is before the first and [e] behind the last. *)
Fixpoint dseg (m : gmap loc node) (p : option loc) (ls : list loc) (xs : list content) (e : option loc) : Prop :=
  match ls, xs with
  | [], [] => True
  | l :: ls, x :: xs => m !! l = Some (cell x p (lhead ls e)) /\ dseg m (Some l) ls xs e
  | _, _ => False
  end.

Lemma dseg_len m p ls xs e : dseg m p ls xs e -> length ls = length xs.
Proof. revert p xs; induction ls as [|l ls IH]; intros p [|x xs]; simpl; try done. intros [_ Hs]. by rewrite (IH _ _ Hs). Qed.

Lemma dseg_same m m' p ls xs e : (forall k, k ∈ ls -> m' !! k = m !! k) -> dseg m p ls xs e -> dseg m' p ls xs e.
Proof.
  revert p xs; induction ls as [|l ls IH]; intros p [|x xs] Hm; simpl; try done. intros [Hl Hs]. split.
  - rewrite Hm by left. done.
  - apply IH; [|done]. intros k Hk. apply Hm. by right.
Qed.

Lemma llast_cons p l ls : llast p (l :: ls) = llast (Some l) ls.
Proof. unfold llast. rewrite last_cons. by destruct (last ls). Qed.

(** A node in the middle. *)
Lemma dseg_split m p ls1 a ls2 xs1 x xs2 e : length ls1 = length xs1 ->
  dseg m p (ls1 ++ a :: ls2) (xs1 ++ x :: xs2) e <->
  dseg m p ls1 xs1 (Some a) /\ m !! a = Some (cell x (llast p ls1) (lhead ls2 e)) /\ dseg m (Some a) ls2 xs2 e.
Proof.
  revert p xs1; induction ls1 as [|l ls1 IH]; intros p [|y xs1] Hl; try done; cbn [app dseg].
  - cbn. tauto.
  - rewrite (IH (Some l) xs1), llast_cons by (cbn in Hl; lia).
    assert (lhead (ls1 ++ a :: ls2) e = lhead ls1 (Some a)) as -> by (by destruct ls1). tauto.
Qed.

Lemma dseg_at m p ls1 a ls2 xs e : dseg m p (ls1 ++ a :: ls2) xs e ->
  exists xs1 x xs2, xs = xs1 ++ x :: xs2 /\ length ls1 = length xs1 /\ dseg m p ls1 xs1 (Some a) /\
    m !! a = Some (cell x (llast p ls1) (lhead ls2 e)) /\ dseg m (Some a) ls2 xs2 e.
Proof.
  intros Hs. pose proof (dseg_len _ _ _ _ _ Hs) as Hl. rewrite length_app in Hl. cbn [length] in Hl.
  destruct (nth_error xs (length ls1)) as [x|] eqn:Hx; [|apply nth_error_None in Hx; lia].
  apply nth_error_split in Hx as (xs1 & xs2 & -> & Hlx). exists xs1, x, xs2. split; [done|]. split; [done|].
  by apply dseg_split.
Qed.

Lemma live_node h l v : h_nodes h !! l = Some v -> live h l = Ok v.
Proof. intros Hl. unfold live. by rewrite Hl. Qed.

Lemma get_next_node h l v : h_nodes h !! l = Some v -> get_next h (Some l) = Ok (next v).
Proof. intros Hl. unfold get_next. cbn [asserted mbind ub_bind]. by rewrite (live_node _ _ _ Hl). Qed.

Lemma get_prev_node h l v : h_nodes h !! l = Some v -> get_prev h (Some l) = Ok (prev v).
Proof. intros Hl. unfold get_prev. cbn [asserted mbind ub_bind]. by rewrite (live_node _ _ _ Hl). Qed.

(** Linking two different nodes. *)
Lemma link h a b x y p n p' n' : h_nodes h !! a = Some (cell x p n) -> h_nodes h !! b = Some (cell y p' n') -> a <> b ->
  set_next h (Some a) (Some b) =
    Ok (Heap (<[b := cell y (Some a) n']> (<[a := cell x p (Some b)]> (h_nodes h))) (h_items h) (h_brk h)).
Proof.
  intros Ha Hb Hab. unfold set_next. cbn [asserted mbind ub_bind]. rewrite (live_node _ _ _ Ha). cbn [mbind ub_bind].
  unfold set_prev. cbn [asserted mbind ub_bind]. rewrite (live_node _ _ (cell y p' n')) by (cbn; by rewrite lookup_insert_ne).
  done.
Qed.

(** Walks from both ends. *)
Lemma walk_next_to h p ls1 c ls2 xs e : dseg (h_nodes h) p (ls1 ++ c :: ls2) xs e ->
  walk_next (length ls1) h (lhead (ls1 ++ c :: ls2) e) = Ok (Some c).
Proof.
  revert p xs; induction ls1 as [|l ls1 IH]; intros p [|x xs] Hs; try done. destruct Hs as [Hl Hs].
  cbn [length app lhead walk_next]. rewrite (get_next_node _ _ _ Hl). cbn [mbind ub_bind cell next]. by eapply IH.
Qed.

Lemma walk_prev_to h p ls1 c ls2 xs e : dseg (h_nodes h) p (ls1 ++ c :: ls2) xs e ->
  walk_prev (length ls2) h (last (ls1 ++ c :: ls2)) = Ok (Some c).
Proof.
  revert xs e; induction ls2 as [|d ls2 IH] using rev_ind; intros xs e Hs; [by rewrite last_snoc|].
  rewrite app_comm_cons, app_assoc in Hs |- *. rewrite last_snoc, length_app, Nat.add_1_r. cbn [walk_prev].
  destruct (dseg_at _ _ _ _ _ _ _ Hs) as (xs1 & x & xs2 & -> & Hl & Hs1 & Hd & _).
  rewrite (get_prev_node _ _ _ Hd). cbn [mbind ub_bind cell prev]. rewrite <- (IH _ _ Hs1). f_equal.
  unfold llast. destruct (snoc_cases (ls1 ++ c :: ls2)) as [He|(l0 & z & ->)]; [by destruct ls1|]. by rewrite last_snoc.
Qed.

(** ** Inserting *)

Definition rep (h : heap) (l : list_) (ls : list loc) (xs : list content) : Prop :=
  l = List_ (Z.of_nat (length ls)) (lhead ls None) (last ls) /\ NoDup ls /\ dseg (h_nodes h) None ls xs None.

Definition insert_at {A} (k : nat) (x : A) (l : list A) : list A := take k l ++ x :: drop k l.

(** Nothing but the nodes of the list and the new one has changed. *)
Definition untouched (ls : list loc) (n : loc) (h h' : heap) : Prop :=
  h_items h' = h_items h /\ h_brk h' = h_brk h /\ forall k, k ∉ ls -> k <> n -> h_nodes h' !! k = h_nodes h !! k.

(** Before a node that has a node before it. *)
Lemma insert_before_mid h ls1 a c ls2 xs n x p : dseg (h_nodes h) None (ls1 ++ a :: c :: ls2) xs None -> NoDup (ls1 ++ a :: c :: ls2) ->
  n ∉ ls1 ++ a :: c :: ls2 -> h_nodes h !! n = Some (cell x p None) ->
  exists h', insert_before h (Some c) (Some n) = Ok h' /\ untouched (ls1 ++ a :: c :: ls2) n h h' /\
    dseg (h_nodes h') None (ls1 ++ a :: n :: c :: ls2) (insert_at (S (length ls1)) x xs) None.
Proof.
  intros Hs Hnd Hn Hx. destruct (dseg_at _ _ _ _ _ _ _ Hs) as (xs1 & xa & xs2 & -> & Hl & Hs1 & Ha & Hs2).
  destruct xs2 as [|xc xs2]; [done|]. destruct Hs2 as [Hc Hs2]. cbn [lhead] in Ha.
  apply NoDup_app in Hnd as (Hn1 & Hn12 & [Hna [Hnc Hn2]%NoDup_cons]%NoDup_cons).
  assert (Hac : a <> c) by (intros ->; apply Hna; left). assert (Han : a <> n) by (intros ->; apply Hn, elem_of_app; right; left).
  assert (Hcn : c <> n) by (intros ->; apply Hn, elem_of_app; right; right; left).
  unfold insert_before. cbn [asserted mbind ub_bind]. rewrite (get_prev_node _ _ _ Hc). cbn [mbind ub_bind cell prev].
  rewrite (link h a n _ _ _ _ _ _ Ha Hx Han). cbn [mbind ub_bind]. set (h1 := Heap _ _ _).
  rewrite (link h1 n c x xc (Some a) None (Some a) (lhead ls2 None)); [|apply lookup_insert_eq| |done].
  2: { cbn. by rewrite !lookup_insert_ne by done. }
  eexists. split; [done|]. split.
  - split; [done|]. split; [done|]. intros k Hk Hkn. cbn. rewrite !lookup_insert_ne; set_solver.
  - cbn [h_nodes h1]. assert (insert_at (S (length ls1)) x (xs1 ++ xa :: xc :: xs2) = xs1 ++ xa :: x :: xc :: xs2) as ->.
    { unfold insert_at. rewrite Hl, take_app_ge, drop_app_ge by lia. replace (S (length xs1) - length xs1)%nat with 1%nat by lia.
      cbn [take drop]. by rewrite <- app_assoc. }
    apply dseg_split; [done|]. split_and!.
    + eapply dseg_same, Hs1. intros k Hk. pose proof (Hn12 k Hk) as Hk'. rewrite !lookup_insert_ne; set_solver.
    + rewrite !lookup_insert_ne by done. apply lookup_insert_eq.
    + cbn [dseg lhead]. split_and!.
      * rewrite lookup_insert_ne by done. apply lookup_insert_eq.
      * apply lookup_insert_eq.
      * eapply dseg_same, Hs2. intros k Hk. rewrite !lookup_insert_ne; set_solver.
Qed.

(** At the two ends. *)
Lemma link_head h ls xs n x : dseg (h_nodes h) None ls xs None -> NoDup ls -> ls <> [] -> n ∉ ls ->
  h_nodes h !! n = Some (cell x None None) ->
  exists h', set_next h (Some n) (lhead ls None) = Ok h' /\ untouched ls n h h' /\ dseg (h_nodes h') None (n :: ls) (x :: xs) None.
Proof.
  intros Hs Hnd Hne Hn Hx. destruct ls as [|c ls]; [done|]. destruct xs as [|xc xs]; [done|]. destruct Hs as [Hc Hs].
  apply NoDup_cons in Hnd as [Hnc Hnd]. assert (Hcn : n <> c) by (intros ->; apply Hn; left).
  cbn [lhead]. rewrite (link h n c _ _ _ _ _ _ Hx Hc Hcn). eexists. split; [done|]. split.
  - split; [done|]. split; [done|]. intros k Hk Hkn. cbn. rewrite !lookup_insert_ne; set_solver.
  - cbn [dseg lhead h_nodes]. split_and!.
    + rewrite lookup_insert_ne by done. apply lookup_insert_eq.
    + apply lookup_insert_eq.
    + eapply dseg_same, Hs. intros k Hk. rewrite !lookup_insert_ne; set_solver.
Qed.

Lemma link_last h ls l xs n x : dseg (h_nodes h) None (ls ++ [l]) xs None -> NoDup (ls ++ [l]) -> n ∉ ls ++ [l] ->
  h_nodes h !! n = Some (cell x None None) ->
  exists h', set_next h (Some l) (Some n) = Ok h' /\ untouched (ls ++ [l]) n h h' /\
    dseg (h_nodes h') None ((ls ++ [l]) ++ [n]) (xs ++ [x]) None.
Proof.
  intros Hs Hnd Hn Hx. destruct (dseg_at _ _ _ _ _ _ _ Hs) as (xs1 & xl & xs2 & -> & Hl & Hs1 & Ha & Hs2).
  destruct xs2; [|done]. apply NoDup_app in Hnd as (_ & Hn12 & _). cbn [lhead] in Ha.
  assert (Hln : l <> n) by (intros ->; apply Hn, elem_of_app; right; left).
  rewrite (link h l n _ _ _ _ _ _ Ha Hx Hln). eexists. split; [done|]. split.
  - split; [done|]. split; [done|]. intros k Hk Hkn. cbn. rewrite !lookup_insert_ne; set_solver.
  - rewrite <- !app_assoc. cbn [app]. apply dseg_split; [done|]. cbn [h_nodes dseg lhead]. split_and!; [|..|done].
    + eapply dseg_same, Hs1. intros k Hk. pose proof (Hn12 k Hk). rewrite !lookup_insert_ne; set_solver.
    + rewrite lookup_insert_ne by done. apply lookup_insert_eq.
    + apply lookup_insert_eq.
Qed.

Lemma insert_at_length {A} k (x : A) l : length (insert_at k x l) = S (length l).
Proof. unfold insert_at. rewrite length_app. cbn [length]. rewrite length_take, length_drop. lia. Qed.

Lemma insert_at_split {A} k (x : A) l1 l2 : k = length l1 -> insert_at k x (l1 ++ l2) = l1 ++ x :: l2.
Proof. intros ->. unfold insert_at. by rewrite take_app_length, drop_app_length. Qed.

Lemma insert_at_nodup {A} k (x : A) l : NoDup l -> x ∉ l -> NoDup (insert_at k x l).
Proof.
  intros Hn Hx. rewrite <- (take_drop k l) in Hn, Hx. unfold insert_at. apply NoDup_app in Hn as (H1 & H2 & H3).
  apply NoDup_app. split; [done|]. split; [|apply NoDup_cons; set_solver]. set_solver.
Qed.

Lemma last_app_cons {A} (l1 : list A) x l2 : last (l1 ++ x :: l2) = last (x :: l2).
Proof. destruct (snoc_cases l2) as [->|(l3 & z & ->)]; [by rewrite last_snoc|]. by rewrite !app_comm_cons, app_assoc, !last_snoc. Qed.

(** The node in front of which [insert_node] puts the new one. *)
Lemma insert_node_walk h ls xs k : dseg (h_nodes h) None ls xs None -> (1 <= k < length ls)%nat ->
  exists ls1 a c ls2, ls = ls1 ++ a :: c :: ls2 /\ length ls1 = (k - 1)%nat /\
    walk_next k h (lhead ls None) = Ok (Some c) /\ walk_prev (length ls - S k) h (last ls) = Ok (Some c).
Proof.
  intros Hs Hk. assert (Hsp : exists l1 c l2, ls = l1 ++ c :: l2 /\ length l1 = k).
  { destruct (nth_error ls k) as [c|] eqn:Hc; [|apply nth_error_None in Hc; lia].
    apply nth_error_split in Hc as (l1 & l2 & -> & Hl). by exists l1, c, l2. }
  destruct Hsp as (l1 & c & l2 & -> & Hl). destruct (snoc_cases l1) as [->|(ls1 & a & ->)]; [simpl in Hl; lia|].
  exists ls1, a, c, l2. split; [by rewrite <- app_assoc|]. rewrite length_app in Hl. simpl in Hl. split; [lia|]. split.
  - rewrite <- (walk_next_to _ _ _ _ _ _ _ Hs). f_equal. rewrite length_app. simpl. lia.
  - rewrite <- (walk_prev_to _ _ _ _ _ _ _ Hs). f_equal. rewrite !length_app. simpl. lia.
Qed.

Lemma rep_made ls xs n x k h f t : NoDup ls -> n ∉ ls -> Z.of_nat (length ls) < 2 ^ 31 - 1 ->
  dseg (h_nodes h) None (insert_at k n ls) (insert_at k x xs) None ->
  f = lhead (insert_at k n ls) None -> t = last (insert_at k n ls) ->
  rep h (List_ (u64 (Z.of_nat (length ls) + 1)) f t) (insert_at k n ls) (insert_at k x xs).
Proof.
  intros Hnd Hn Hb Hs -> ->. split; [|split; [by apply insert_at_nodup|done]]. rewrite insert_at_length, uN_small by lia. f_equal. lia.
Qed.

(** [insert_node] puts a new node at the position that it is given, counted from 1 up to one more
    than the size, whichever end it walks from: the list is then the old one with the node
    there, linked both ways, and no other node has changed.  Into an empty list the node goes
    whatever the position is. *)
Theorem insert_node_position h l ls xs n x pos : rep h l ls xs -> n ∉ ls -> h_nodes h !! n = Some (cell x None None) ->
  Z.of_nat (length ls) < 2 ^ 31 - 1 -> ls = [] \/ 1 <= pos <= Z.of_nat (length ls) + 1 ->
  let k := Z.to_nat (pos - 1) in
  exists h' l', insert_node h l pos (Some n) = Ok (h', l') /\ untouched ls n h h' /\ rep h' l' (insert_at k n ls) (insert_at k x xs).
Proof.
  intros (-> & Hnd & Hs) Hn Hx Hb Hpos k. unfold insert_node. cbn [asserted mbind ub_bind size head tail].
  pose proof (dseg_len _ _ _ _ _ Hs) as Hlen.
  destruct (decide (ls = [])) as [->|Hne]; [|destruct Hpos as [|Hpos]; [done|]].
  - destruct xs; [|done]. cbn [length Z.of_nat Z.eqb set_head head tail size lhead last mbind ub_bind]. do 2 eexists. split; [done|].
    split; [by split_and!|]. unfold insert_at. rewrite !take_nil, !drop_nil. cbn [app]. split; [done|]. split; [apply NoDup_singleton|].
    by split.
  - assert (H0 : (Z.of_nat (length ls) =? 0) = false) by (apply Z.eqb_neq; destruct ls; [done|simpl; lia]). rewrite H0. clear H0.
    pose proof (fun h' f t => rep_made ls xs n x k h' f t Hnd Hn ltac:(lia)) as Hfin.
    destruct (Z.eqb_spec pos 1) as [->|H1]; [|rewrite uN_small by lia; destruct (Z.eqb_spec (Z.of_nat (length ls) + 1) pos) as [He|He]].
    + unfold insert_after. assert (exists f, lhead ls None = Some f) as [f Hf] by (destruct ls; [done|by eexists]). rewrite Hf.
      cbn [asserted mbind ub_bind]. rewrite (get_next_node _ _ _ Hx). cbn [mbind ub_bind cell next]. rewrite <- Hf.
      destruct (link_head h ls xs n x Hs Hnd Hne Hn Hx) as (h' & -> & Hu & Hs'). cbn [mbind ub_bind size head tail].
      do 2 eexists. split; [done|]. split; [done|]. apply Hfin; [exact Hs'|done|]. cbn. by destruct ls.
    + destruct (snoc_cases ls) as [->|(ls' & t & ->)]; [done|]. unfold add_node. cbn [asserted mbind ub_bind tail size head].
      rewrite last_snoc. destruct (link_last h ls' t xs n x Hs Hnd Hn Hx) as (h' & -> & Hu & Hs'). cbn [mbind ub_bind size head tail].
      assert (Hk : k = length (ls' ++ [t])) by lia. assert (Hk2 : k = length xs) by lia.
      pose proof (insert_at_split k n (ls' ++ [t]) [] Hk) as Hi. pose proof (insert_at_split k x xs [] Hk2) as Hi2. rewrite app_nil_r in Hi, Hi2.
      do 2 eexists. split; [done|]. split; [done|].
      replace (u64 (u64 (u64 (Z.of_nat (length (ls' ++ [t])) + 1) - 1) + 1)) with (u64 (Z.of_nat (length (ls' ++ [t])) + 1))
        by (rewrite !uN_small by (rewrite ?uN_small by lia; lia); lia).
      apply Hfin; rewrite ?Hi, ?Hi2; [exact Hs'|by destruct ls'|by rewrite last_snoc].
    + destruct (insert_node_walk h ls xs k Hs ltac:(lia)) as (ls1 & a & c & ls2 & Heq & Hl1 & Hw1 & Hw2).
      fold k. rewrite Hw1. replace (Z.to_nat (Z.of_nat (length ls) - pos)) with (length ls - S k)%nat by lia. rewrite Hw2.
      cbn [mbind ub_bind]. subst ls. destruct (insert_before_mid h ls1 a c ls2 xs n x None Hs Hnd Hn Hx) as (h' & -> & Hu & Hs').
      cbn [mbind ub_bind]. replace (S (length ls1)) with k in Hs' by lia.
      assert (Hi : insert_at k n (ls1 ++ a :: c :: ls2) = ls1 ++ a :: n :: c :: ls2).
      { pose proof (insert_at_split k n (ls1 ++ [a]) (c :: ls2)) as Hi. rewrite <- !app_assoc in Hi. apply Hi. rewrite length_app. simpl. lia. }
      exists h', (List_ (u64 (Z.of_nat (length (ls1 ++ a :: c :: ls2)) + 1)) (lhead (ls1 ++ a :: c :: ls2) None) (last (ls1 ++ a :: c :: ls2))).
      split; [by case_if|]. split; [done|]. apply Hfin; rewrite ?Hi; [exact Hs'|by destruct ls1|].
      rewrite !last_app_cons. by rewrite !last_cons_cons.
Qed.

(** In front of the first node of a list by any other way than position 1 the new node is lost: the list is the old
    one from its head, but counts one more. *)
Theorem insert_node_lost h l ls xs n x pos : rep h l ls xs -> n ∉ ls -> h_nodes h !! n = Some (cell x None None) ->
  0 < Z.of_nat (length ls) < 2 ^ 31 - 1 -> pos = 0 \/ (length ls = 1%nat /\ 2 < pos < 2 ^ 64) ->
  exists h' l', insert_node h l pos (Some n) = Ok (h', l') /\ head l' = head l /\ tail l' = tail l /\ size l' = size l + 1 /\
    dseg (h_nodes h') (Some n) ls xs None.
Proof.
  intros (-> & Hnd & Hs) Hn Hx Hb Hpos. unfold insert_node. cbn [asserted mbind ub_bind size head tail].
  rewrite (proj2 (Z.eqb_neq _ _)) by lia. rewrite (proj2 (Z.eqb_neq pos 1)) by lia. rewrite uN_small by lia.
  assert (Hw : (if in_first_half pos (Z.of_nat (length ls)) then walk_next (Z.to_nat (pos - 1)) h (lhead ls None)
    else walk_prev (Z.to_nat (Z.of_nat (length ls) - pos)) h (last ls)) = Ok (lhead ls None)).
  { unfold in_first_half. destruct Hpos as [->|[Hl Hp]].
    - rewrite (proj2 (Z.leb_le _ _)) by lia. done.
    - rewrite (proj2 (Z.leb_gt _ _)) by lia. replace (Z.to_nat _) with 0%nat by lia. destruct ls as [|c [|]]; done. }
  rewrite (proj2 (Z.eqb_neq _ _)) by lia. destruct (link_head h ls xs n x Hs Hnd) as (h' & Hl & _ & Hs'); [intros ->; simpl in Hb; lia|done|done|].
  assert (Hi : insert_before h (lhead ls None) (Some n) = Ok h').
  { destruct ls as [|c ls]; [simpl in Hb; lia|]. destruct xs as [|xc xs]; [done|]. destruct Hs as [Hc _]. unfold insert_before.
    cbn [lhead asserted mbind ub_bind]. rewrite (get_prev_node _ _ _ Hc). exact Hl. }
  destruct Hs' as [_ Hs']. exists h', (List_ (Z.of_nat (length ls) + 1) (lhead ls None) (last ls)).
  split; [|done]. case_if; rewrite Hw; cbn [mbind ub_bind]; rewrite Hi; cbn [mbind ub_bind size head tail]; by rewrite uN_small by lia.
Qed.

(** ** Destroying *)

(** The memory that the nodes own. *)
Definition owned (x : content) : list loc := option_list x.1 ++ option_list x.2.

Definition del {A} (o : option loc) (m : gmap loc A) : gmap loc A := match o with Some i => delete i m | None => m end.

Lemma del_lookup {A} o (m : gmap loc A) i : del o m !! i = if decide (o = Some i) then None else m !! i.
Proof.
  destruct o as [j|]; [|done]. cbn. case_decide as Hd; [injection Hd as ->; apply lookup_delete_eq|].
  apply lookup_delete_ne. congruence.
Qed.

(** A pointer that may be NULL is given back. *)
Lemma drop_opt (m : gmap loc node) its b o : (forall i, o = Some i -> is_Some (its !! i)) ->
  match o with Some _ => item_drop (Heap m its b) o | None => Ok (Heap m its b) end = Ok (Heap m (del o its) b).
Proof.
  destruct o as [i|]; [|done]. intros Hi. destruct (Hi i eq_refl) as [s Hs]. unfold item_drop, item_at. cbn [h_items]. by rewrite Hs.
Qed.

(** [destroy_node] gives the node, its name and its data back. *)
Lemma destroy_node_ok m its b n x p e : m !! n = Some (cell x p e) -> NoDup (owned x) -> (forall i, i ∈ owned x -> is_Some (its !! i)) ->
  destroy_node (Heap m its b) (Some n) = Ok (Heap (delete n m) (del x.2 (del x.1 its)) b).
Proof.
  intros Hn Hnd Hi. destruct x as [nm d]. cbn [fst snd] in *.
  assert (Hg : forall its, get_name (Heap m its b) (Some n) = Ok nm /\ get_data (Heap m its b) (Some n) = Ok d /\
    free_node (Heap m its b) (Some n) = Ok (Heap (delete n m) its b)).
  { intros its'. unfold get_name, get_data, free_node. cbn [asserted mbind ub_bind].
    by rewrite (live_node (Heap m its' b) n _ Hn). }
  unfold destroy_node, destroy_name, destroy_data. destruct (Hg its) as (-> & _ & _). cbn [mbind ub_bind].
  rewrite (drop_opt m its b nm) by (intros i ->; apply Hi, elem_of_app; left; left). cbn [mbind ub_bind].
  destruct (Hg (del nm its)) as (_ & -> & _). cbn [mbind ub_bind]. destruct (Hg (del d (del nm its))) as (_ & _ & Hf).
  assert (Hd : forall i, d = Some i -> is_Some (del nm its !! i)).
  { intros i ->. rewrite del_lookup. case_decide as Hd.
    - subst nm. unfold owned in Hnd. cbn in Hnd. apply NoDup_cons in Hnd as [Hnd _]. exfalso. apply Hnd. left.
    - apply Hi, elem_of_app. right. left. }
  pose proof (drop_opt m (del nm its) b d Hd) as Ho. destruct d as [d|]; cbn [mbind ub_bind].
  - rewrite Ho. cbn [mbind ub_bind]. exact Hf.
  - exact Hf.
Qed.

Lemma destroy_nodes_ok fuel m its b p ls xs : dseg m p ls xs None -> NoDup ls -> NoDup (xs ≫= owned) ->
  (forall i, i ∈ xs ≫= owned -> is_Some (its !! i)) -> (length ls <= fuel)%nat ->
  exists m' its', _destroy_nodes fuel (Heap m its b) (lhead ls None) = Ok (Heap m' its' b) /\
    (forall k, m' !! k = if decide (k ∈ ls) then None else m !! k) /\
    (forall i, its' !! i = if decide (i ∈ xs ≫= owned) then None else its !! i).
Proof.
  revert p xs fuel. induction ls as [|l ls IH]; intros p [|x xs] fuel Hs Hn Ho Hi Hf; try done.
  - exists m, its. split; [by destruct fuel|done].
  - destruct fuel as [|fuel]; [simpl in Hf; lia|]. destruct Hs as [Hl Hs]. apply NoDup_cons in Hn as [Hnl Hn].
    cbn [mbind list_bind] in Ho, Hi. apply NoDup_app in Ho as (Ho1 & Ho2 & Ho3).
    destruct (IH (Some l) xs fuel Hs Hn Ho3) as (m1 & its1 & H1 & Hm & Hits);
      [intros i Hx; apply Hi, elem_of_app; by right|simpl in Hf; lia|].
    cbn [lhead _destroy_nodes]. rewrite (get_next_node (Heap m its b) l _ Hl). cbn [mbind ub_bind cell next]. rewrite H1. cbn [mbind ub_bind].
    rewrite (destroy_node_ok m1 its1 b l x p (lhead ls None)); [|by rewrite Hm, decide_False|done|].
    2: { intros i Hx. rewrite Hits, decide_False by (by apply Ho2). apply Hi, elem_of_app. by left. }
    do 2 eexists. split; [done|]. split.
    + intros k. destruct (decide (k = l)) as [->|Hk]; [rewrite lookup_delete_eq, decide_True; [done|left]|].
      rewrite lookup_delete_ne, Hm by done. repeat case_decide; try done; set_solver.
    + intros i. rewrite !del_lookup, Hits. cbn [mbind list_bind]. unfold owned at 3.
      repeat case_decide; try done; exfalso; rewrite !elem_of_app in *; destruct x as [[nm|] [d|]]; cbn in *; set_solver.
Qed.

(** [destroy_list] gives back all that the list owns, and nothing else. *)
Theorem destroy_list_frees h l ls xs : rep h l ls xs -> NoDup (xs ≫= owned) -> (forall i, i ∈ xs ≫= owned -> is_Some (h_items h !! i)) ->
  exists h', destroy_list h l = Ok h' /\ (forall k, h_nodes h' !! k = if decide (k ∈ ls) then None else h_nodes h !! k) /\
    (forall i, h_items h' !! i = if decide (i ∈ xs ≫= owned) then None else h_items h !! i).
Proof.
  intros (-> & Hn & Hs) Ho Hi. unfold destroy_list. cbn [size head]. pose proof (dseg_len _ _ _ _ _ Hs) as Hlen. case_if.
  - destruct h as [m its b]. destruct (destroy_nodes_ok (stdpp.base.size m) m its b None ls xs Hs Hn Ho Hi) as (m' & its' & Hd & Hm & Hits).
    + rewrite <- size_dom, <- (size_list_to_set (C := gset loc)) by done. apply subseteq_size. intros k Hk%elem_of_list_to_set.
      apply elem_of_dom. apply list_elem_of_split in Hk as (l1 & l2 & ->).
      destruct (dseg_at _ _ _ _ _ _ _ Hs) as (? & ? & ? & _ & _ & _ & Hk & _). cbn [h_nodes] in Hk. by rewrite Hk.
    + exists (Heap m' its' b). done.
  - destruct ls as [|c ls]; [|cbool; simpl in E; lia]. destruct xs; [|done]. exists h. split; [done|].
    split; intros k; rewrite decide_False; try done; apply not_elem_of_nil.
Qed.

(** *** Witness *)

(** Two linked nodes without names, and a third one. *)
Definition two_nodes : heap :=
  Heap (<[1%positive := Node None None (Some 2%positive) None]> (<[2%positive := Node None None None (Some 1%positive)]>
    (<[3%positive := Node None None None None]> ∅))) ∅ 4.

Lemma insert_node_position_witness : exists h' l', insert_node two_nodes (List_ 2 (Some 1%positive) (Some 2%positive)) 2 (Some 3%positive) = Ok (h', l') /\
  rep h' l' [1; 3; 2]%positive [(None, None); (None, None); (None, None)].
Proof.
  destruct (insert_node_position two_nodes (List_ 2 (Some 1%positive) (Some 2%positive)) [1; 2]%positive [(None, None); (None, None)] 3%positive (None, None) 2)
    as (h' & l' & H1 & _ & H2).
  - split; [reflexivity|]. split; [apply (bool_decide_unpack _); vm_compute; exact I|]. repeat split.
  - apply (bool_decide_unpack _). vm_compute. exact I.
  - reflexivity.
  - reflexivity.
  - right. split; discriminate.
  - exists h', l'. split; [exact H1|exact H2].
Defined.
