(* ===== verification/RBTree.v ===== *)
(** * Ordered trees of the BSD [sys/tree.h] header

    The accounting driver, the environment builder of pfexecd and the
    reliable-UDP server keep their nodes in the red-black trees that the macros
    of [sys/tree.h] generate.  The header is not part of the repository, so the
    trees are an interface: a class of operations, and a class of the laws that
    the manual page tree(3) documents.  A tree is seen through [rb_map], the
    finite map from the keys to the nodes.  The clients are proved against the
    laws; [gmap_tree] is an instance of them. *)

From S2P Require Import Prelude.

(** The operations on trees [T] of nodes [E] with keys [K]. *)
Class RBTree (K E T : Type) := {
  rb_empty : T;                               (* RB_INIT *)
  rb_insert : K -> E -> T -> option E * T;    (* RB_INSERT: the colliding node *)
  rb_find : K -> T -> option E;               (* RB_FIND *)
  rb_remove : K -> T -> option E * T;         (* RB_REMOVE of the node found *)
  rb_modify : K -> (E -> E) -> T -> T;        (* writes through a node pointer *)
  rb_elems : T -> list (K * E);               (* RB_FOREACH *)
}.

(** The laws: insertion never replaces a node, find and remove are by key, a
    write through a node pointer changes that node, and a traversal visits every
    node once. *)
Class RBTreeLaws (K E T : Type) `{Countable K} `{RBTree K E T} (rb_map : T -> gmap K E) : Prop := {
  rb_map_empty : rb_map rb_empty = ∅;
  rb_find_map k t : rb_find k t = rb_map t !! k;
  rb_insert_old k e t : (rb_insert k e t).1 = rb_map t !! k;
  rb_insert_map k e t : rb_map (rb_insert k e t).2 =
    match rb_map t !! k with Some _ => rb_map t | None => <[k := e]> (rb_map t) end;
  rb_remove_old k t : (rb_remove k t).1 = rb_map t !! k;
  rb_remove_map k t : rb_map (rb_remove k t).2 = delete k (rb_map t);
  rb_modify_map k f t : rb_map (rb_modify k f t) = alter f k (rb_map t);
  rb_elems_map t : rb_elems t ≡ₚ map_to_list (rb_map t);
}.

Section Consequences.
Context {K E T : Type} `{Countable K} `{RBTree K E T} (rb_map : T -> gmap K E)
  `{!RBTreeLaws K E T rb_map}.

Lemma rb_elems_length t : length (rb_elems t) = size (rb_map t).
Proof. by rewrite rb_elems_map, length_map_to_list. Qed.

(** Removing every node that a traversal visits empties the tree
    ([RB_FOREACH_SAFE] with [RB_REMOVE] in its body). *)
Lemma rb_remove_all l t :
  (forall k, is_Some (rb_map t !! k) -> k ∈ l) ->
  rb_map (foldl (fun t k => (rb_remove k t).2) t l) = ∅.
Proof.
  revert t; induction l as [|k l IH]; intros t Hin; simpl.
  - apply map_empty. intros i. destruct (rb_map t !! i) eqn:E1; [|done].
    exfalso. eapply not_elem_of_nil. apply Hin. eauto.
  - apply IH. intros i. rewrite rb_remove_map. intros [x Hx].
    apply lookup_delete_Some in Hx as [Hne Hx].
    assert (i ∈ k :: l) as Hi by (apply Hin; eauto). set_solver.
Qed.

Lemma rb_drain t :
  rb_map (foldl (fun t k => (rb_remove k t).2) t (rb_elems t).*1) = ∅.
Proof.
  apply rb_remove_all. intros k [e He]. rewrite rb_elems_map.
  apply list_elem_of_fmap. exists (k, e). split; [done|]. by apply elem_of_map_to_list.
Qed.
(** A write through every node pointer of a traversal. *)
Lemma rb_modify_all f t :
  rb_map (foldl (fun t k => rb_modify k f t) t (rb_elems t).*1) = f <$> rb_map t.
Proof.
  assert (NoDup (rb_elems t).*1) as Hnd by (rewrite rb_elems_map; apply NoDup_fst_map_to_list).
  assert (forall k, is_Some (rb_map t !! k) -> k ∈ (rb_elems t).*1) as Hin.
  { intros k [e He]. rewrite rb_elems_map. apply list_elem_of_fmap. exists (k, e).
    split; [done|]. by apply elem_of_map_to_list. }
  apply map_eq. intros i. rewrite lookup_fmap.
  assert (forall l t', NoDup l ->
    rb_map (foldl (fun t k => rb_modify k f t) t' l) !! i =
    if bool_decide (i ∈ l) then f <$> rb_map t' !! i else rb_map t' !! i) as Hl.
  { induction l as [|k l IH]; intros t' Hl; simpl; [done|].
    apply NoDup_cons in Hl as [Hk Hl]. rewrite IH, rb_modify_map by done.
    destruct (decide (i = k)) as [->|Hne].
    - rewrite bool_decide_false, bool_decide_true, lookup_alter_eq by (done || by left). done.
    - rewrite lookup_alter_ne by done.
      by rewrite (bool_decide_ext (i ∈ k :: l) (i ∈ l)) by set_solver. }
  rewrite Hl by done. case_bool_decide as Hi; [done|].
  destruct (rb_map t !! i) eqn:Ei; [|done]. exfalso. eauto.
Qed.

Lemma elem_of_rb_elems t k e : (k, e) ∈ rb_elems t <-> rb_map t !! k = Some e.
Proof. rewrite rb_elems_map. apply elem_of_map_to_list. Qed.
End Consequences.

(** ** Laws that depend on the comparison

    The laws above hold for a tree whose comparison function orders the keys: 0 for nodes of the same
    key only, antisymmetric, and transitive.  The macros promise nothing else; so a client states the laws
    for its comparison function, and gets them by proving that it is an order. *)
Class KeyOrder {K E : Type} (key : E -> K) (cmp : E -> E -> Z) : Prop := {
  ko_eq a b : cmp a b = 0 <-> key a = key b;
  ko_anti a b : cmp a b < 0 <-> 0 < cmp b a;
  ko_trans a b c : cmp a b < 0 -> cmp b c < 0 -> cmp a c < 0;
}.

Class RBTreeFor (K E T : Type) `{Countable K} `{RBTree K E T} (key : E -> K) (cmp : E -> E -> Z)
    (rb_map : T -> gmap K E) : Prop :=
  rb_laws_for : KeyOrder key cmp -> RBTreeLaws K E T rb_map.

(** ** The instance used to run the models *)

#[export] Instance gmap_tree {K E} `{Countable K} : RBTree K E (gmap K E) := {
  rb_empty := ∅;
  rb_insert k e t := (t !! k, match t !! k with Some _ => t | None => <[k := e]> t end);
  rb_find k t := t !! k;
  rb_remove k t := (t !! k, delete k t);
  rb_modify k f t := alter f k t;
  rb_elems t := map_to_list t;
}.

#[export] Instance gmap_tree_laws {K E} `{Countable K} :
  RBTreeLaws K E (gmap K E) (fun t => t).
Proof. by constructor. Qed.

(** ** Trees ordered by a comparison function

    Where the order of the traversal matters, or where the comparison function is
    not one of keys, the tree is seen through [rc_elems], the nodes in the order
    of [RB_MIN] and [RB_NEXT].  [RB_FIND] is called with a node that need not be
    in the tree: [rc_find] takes the comparison with this node. *)

Class RBCmp (E T : Type) := {
  rc_empty : T;                                       (* RB_INIT *)
  rc_insert : (E -> E -> Z) -> E -> T -> option E * T; (* RB_INSERT: the colliding node *)
  rc_find : (E -> Z) -> T -> option E;                (* RB_FIND *)
  rc_remove : E -> T -> T;                            (* RB_REMOVE *)
  rc_elems : T -> list E;                             (* RB_MIN, RB_NEXT, ... *)
}.

(** The place of a node in an ordered list. *)
Fixpoint cmp_insert {E} (c : E -> Z) (e : E) (l : list E) : list E :=
  match l with
  | [] => [e]
  | x :: l' => if c x <? 0 then e :: l else x :: cmp_insert c e l'
  end.

Abbreviation cmp_sorted cmp := (StronglySorted (fun x y => cmp x y < 0)).

(** What the comparison with a node must satisfy on the nodes of the tree: a node
    before the order of the tree's nodes is before all that follow. *)
Definition probe_ok {E} (cmp : E -> E -> Z) (c : E -> Z) (l : list E) : Prop :=
  forall x y, x ∈ l -> y ∈ l -> cmp x y < 0 -> c x <= 0 -> c y < 0.

(** The laws, for a tree that is ordered by the comparison function. *)
Class RBCmpLaws (E T : Type) `{EqDecision E} `{RBCmp E T} : Prop := {
  rc_elems_empty : rc_elems rc_empty = [];
  rc_find_elems cmp c t : cmp_sorted cmp (rc_elems t) -> probe_ok cmp c (rc_elems t) ->
    rc_find c t = find (fun x => c x =? 0) (rc_elems t);
  rc_insert_old cmp e t : cmp_sorted cmp (rc_elems t) -> probe_ok cmp (cmp e) (rc_elems t) ->
    (rc_insert cmp e t).1 = find (fun x => cmp e x =? 0) (rc_elems t);
  rc_insert_elems cmp e t : cmp_sorted cmp (rc_elems t) -> probe_ok cmp (cmp e) (rc_elems t) ->
    rc_elems (rc_insert cmp e t).2 =
    match find (fun x => cmp e x =? 0) (rc_elems t) with
    | Some _ => rc_elems t
    | None => cmp_insert (cmp e) e (rc_elems t)
    end;
  rc_remove_elems e t : NoDup (rc_elems t) -> e ∈ rc_elems t ->
    rc_elems (rc_remove e t) = filter (.≠ e) (rc_elems t);
}.

Lemma cmp_insert_perm {E} c (e : E) l : cmp_insert c e l ≡ₚ e :: l.
Proof.
  induction l as [|x l IH]; simpl; [done|]. case_if; [done|]. rewrite IH. constructor.
Qed.

(** Inserting a node keeps the order. *)
Lemma cmp_insert_sorted {E} (cmp : E -> E -> Z) e l :
  cmp_sorted cmp l -> probe_ok cmp (cmp e) l ->
  (forall x, x ∈ l -> 0 < cmp e x -> cmp x e < 0) ->
  (forall x, x ∈ l -> cmp e x <> 0) ->
  cmp_sorted cmp (cmp_insert (cmp e) e l).
Proof.
  induction 1 as [|x l Hl IH Hx]; intros Hp Ha Hne; simpl; [by repeat constructor|].
  rewrite Forall_forall in Hx. case_if; cbool.
  - constructor; [by constructor; [|apply Forall_forall]|].
    apply Forall_forall. intros y [->|Hy]%elem_of_cons; [done|].
    apply (Hp x y); [by left|by right|by apply Hx|lia].
  - constructor.
    + apply IH.
      * intros y z Hy Hz. apply Hp; by right.
      * intros y Hy. apply Ha. by right.
      * intros y Hy. apply Hne. by right.
    + apply Forall_forall. intros y Hy. rewrite cmp_insert_perm in Hy.
      apply elem_of_cons in Hy as [->|Hy]; [|by apply Hx].
      apply Ha; [by left|]. specialize (Hne x ltac:(by left)). lia.
Qed.

Lemma find_zero_Some {E} (c : E -> Z) l x :
  find (fun x => c x =? 0) l = Some x -> x ∈ l /\ c x = 0.
Proof.
  intros Hf. apply find_some in Hf as [Hx Hc]. cbool. by rewrite list_elem_of_In.
Qed.

Lemma find_zero_None {E} (c : E -> Z) l :
  find (fun x => c x =? 0) l = None -> forall x, x ∈ l -> c x <> 0.
Proof.
  intros Hf x Hx Hc. apply list_elem_of_In in Hx.
  apply (find_none _ _ Hf) in Hx. cbool. done.
Qed.

(** The instance used to run the models: the ordered list itself. *)
#[export] Instance list_cmp {E} `{EqDecision E} : RBCmp E (list E) := {
  rc_empty := [];
  rc_insert cmp e t :=
    match find (fun x => cmp e x =? 0) t with
    | Some x => (Some x, t)
    | None => (None, cmp_insert (cmp e) e t)
    end;
  rc_find c t := find (fun x => c x =? 0) t;
  rc_remove e t := filter (.≠ e) t;
  rc_elems t := t;
}.

#[export] Instance list_cmp_laws {E} `{EqDecision E} : RBCmpLaws E (list E).
Proof. constructor; intros; simpl; try done; by destruct (find _ _). Qed.
