(* ===== verification/Acct.v ===== *)
(** * The accounting driver ([1.acct-driver-obsd/src/acct.c], [acct.h])

    The driver keeps a queue of audit records, a tree of the tracked files and
    the control word of the enabled events.  The process and file hooks of the
    kernel ([acct_fork], ..., [acct_close]) queue records, the device entry
    points ([acctopen], [acctread], [acctioctl], [acctclose]) serve a reader.

    Not modelled: the [printf] traces, the vnode reference counts ([vput]) and
    the [ac_seqlock] and [ac_trklock] locks, which every path releases.  The
    lock of the queue is modelled, because one path does not release it. *)

From S2P Require Import Prelude RBTree.

(** ** Constants of [acct.h] and of the kernel headers *)

Definition ACCT_MSG_FORK := 0.
Definition ACCT_MSG_EXEC := 1.
Definition ACCT_MSG_EXIT := 2.
Definition ACCT_MSG_OPEN := 3.
Definition ACCT_MSG_RENAME := 4.
Definition ACCT_MSG_UNLINK := 5.
Definition ACCT_MSG_CLOSE := 6.

Definition ACCT_ENA_FORK := Z.shiftl 1 0.
Definition ACCT_ENA_EXEC := Z.shiftl 1 1.
Definition ACCT_ENA_EXIT := Z.shiftl 1 2.
Definition ACCT_ENA_OPEN := Z.shiftl 1 3.
Definition ACCT_ENA_CLOSE := Z.shiftl 1 4.
Definition ACCT_ENA_RENAME := Z.shiftl 1 5.
Definition ACCT_ENA_UNLINK := Z.shiftl 1 6.

(** [ctl->acct_ena & ACCT_ENA_ALL]: the macro has no parentheses, so that [&]
    binds its first operand only. *)
Definition and_ACCT_ENA_ALL (x : Z) : Z :=
  Z.lor (Z.lor (Z.lor (Z.lor (Z.lor (Z.lor (Z.land x ACCT_ENA_FORK)
    ACCT_ENA_EXEC) ACCT_ENA_EXIT) ACCT_ENA_OPEN) ACCT_ENA_CLOSE)
    ACCT_ENA_RENAME) ACCT_ENA_UNLINK.

(** [static uint32_t F_ENA]. *)
Definition F_ENA : Z :=
  Z.lor (Z.lor (Z.lor ACCT_ENA_OPEN ACCT_ENA_CLOSE) ACCT_ENA_RENAME) ACCT_ENA_UNLINK.

Definition ENOENT := 2.
Definition ENXIO := 6.
Definition EINVAL := 22.
Definition EWOULDBLOCK := 35.
Definition EOPNOTSUPP := 45.
Definition POLLERR := 8.
Definition PATH_MAX := 1024.
Definition NODEV := -1.

(** ** Data *)

Record timespec := Timespec { tv_sec : Z; tv_nsec : Z }.

(** [timespecadd] and [timespecsub] of [sys/time.h]. *)
Definition timespecadd (a b : timespec) : timespec :=
  let s := tv_sec a + tv_sec b in
  let n := tv_nsec a + tv_nsec b in
  if 1000000000 <=? n then Timespec (s + 1) (n - 1000000000) else Timespec s n.
Definition timespecsub (a b : timespec) : timespec :=
  let s := tv_sec a - tv_sec b in
  let n := tv_nsec a - tv_nsec b in
  if n <? 0 then Timespec (s - 1) (n + 1000000000) else Timespec s n.

Record rusage := Rusage {
  ru_ixrss : Z; ru_idrss : Z; ru_isrss : Z; ru_inblock : Z; ru_oublock : Z }.

(** The part of [struct process] that the hooks read; [ps_ttyp] is the terminal
    of the session, and [ps_ut], [ps_st] are what [calctsru] computes from
    [ps_tu]. *)
Record process := Process {
  ps_comm : string; ps_start : timespec; ps_pid : Z; cr_ruid : Z; cr_rgid : Z;
  ps_controlt : bool; ps_ttyp : option Z; ps_acflag : Z;
  ps_ut : timespec; ps_st : timespec; p_ru : rusage }.

(** [struct acct_common]. *)
Record acct_common := AcctCommon {
  ac_type : Z; ac_len : Z; ac_seq : Z;
  ac_comm : string; ac_etime : timespec; ac_btime : timespec;
  ac_pid : Z; ac_uid : Z; ac_gid : Z; ac_tty : Z; ac_flag : Z }.

(** What [struct acct_fork], ..., [struct acct_close] add to it. *)
Inductive acct_body :=
  | acct_fork_b (ac_cpid : Z)
  | acct_exec_b
  | acct_exit_b (ac_utime ac_stime : timespec) (ac_mem ac_io : Z)
  | acct_open_b (ac_path : string) (ac_mode ac_errno : Z)
  | acct_rename_b (ac_path ac_new : string) (ac_errno : Z)
  | acct_unlink_b (ac_path : string) (ac_errno : Z)
  | acct_close_b (ac_path : string).

(** [struct acct_node] with the record it points to. *)
Record acct_node := AcctNode { acc : acct_common; acc_body : acct_body }.

(** The sizes of the records on a 64-bit OpenBSD. *)
Definition sizeof_acct_common := 80.
Definition sizeof_body (b : acct_body) : Z :=
  match b with
  | acct_fork_b _ => 88
  | acct_exec_b => 80
  | acct_exit_b _ _ _ _ => 128
  | acct_open_b _ _ _ => 1112
  | acct_rename_b _ _ _ => 2136
  | acct_unlink_b _ _ => 1112
  | acct_close_b _ => 1104
  end.

(** [struct acct_ctl]. *)
Record acct_ctl := AcctCtl {
  acct_ena : Z; acct_cond : Z; acct_fcount : Z; acct_path : string }.

(** A pointer to a [struct vnode], as its position among the vnodes of the kernel: these are taken to lie in
    one array of fewer than 2^31. *)
Record vnodep := Vnode { vnode_pos : Z; vnode_bound : (0 <=? vnode_pos) && (2 ^ 31 >? vnode_pos) = true }.

Lemma vnode_range v : 0 <= vnode_pos v < 2 ^ 31.
Proof. destruct v as [z Hz]. cbn. lia. Qed.

Lemma vnode_eq v w : vnode_pos v = vnode_pos w -> v = w.
Proof.
  destruct v as [z Hz], w as [z' Hz']. cbn. intros <-. f_equal. apply (Eqdep_dec.UIP_dec bool_dec).
Qed.

#[export] Instance vnodep_eq_dec : EqDecision vnodep.
Proof.
  intros v w. destruct (decide (vnode_pos v = vnode_pos w)) as [He|Hn]; [left; by apply vnode_eq|right; by intros ->].
Defined.

Definition vnode_at (z : Z) : option vnodep :=
  match (0 <=? z) && (2 ^ 31 >? z) as b return (0 <=? z) && (2 ^ 31 >? z) = b -> option vnodep with
  | true => fun H => Some (Vnode z H)
  | false => fun _ => None
  end eq_refl.

Lemma vnode_at_pos v : vnode_at (vnode_pos v) = Some v.
Proof.
  destruct v as [z Hz]. unfold vnode_at. cbn [vnode_pos].
  generalize (@eq_refl bool ((0 <=? z) && (2 ^ 31 >? z))).
  generalize ((0 <=? z) && (2 ^ 31 >? z)) at 2 3. intros b Hb. destruct b; [|congruence].
  f_equal. by apply vnode_eq.
Qed.

#[export] Instance vnodep_countable : Countable vnodep := inj_countable vnode_pos vnode_at vnode_at_pos.

(** [struct trkvnode]; the tree is keyed by the vnode pointer. *)
Record trkvnode := Trkvnode {
  trk_name : string; trk_ena : Z; trk_flags : Z; trk_vnode : vnodep }.

(** The part of [struct uio] that [acctread] uses; [uio_data] logs the pieces
    copied out: byte offset in the record, and length. *)
Record uio := Uio { uio_offset : Z; uio_resid : Z; uio_data : list (Z * Z) }.

(** The file-scope variables of the driver.  [taillock] counts the read holds of
    [ac_taillock] and [wakeups] the calls of [wakeup(&identifier_sleep)]. *)
Record driver (T : Type) := Driver {
  driver_ctl : acct_ctl; ac_seqno : Z; acct_list : list acct_node;
  f_tracker : T; taillock : Z; wakeups : Z }.
Arguments Driver {T}.
Arguments driver_ctl {T}.
Arguments ac_seqno {T}.
Arguments acct_list {T}.
Arguments f_tracker {T}.
Arguments taillock {T}.
Arguments wakeups {T}.

(** Field updates. *)
Definition set_ena (v : Z) (c : acct_ctl) := AcctCtl v (acct_cond c) (acct_fcount c) (acct_path c).
Definition set_cond (v : Z) (c : acct_ctl) := AcctCtl (acct_ena c) v (acct_fcount c) (acct_path c).
Definition set_fcount (v : Z) (c : acct_ctl) := AcctCtl (acct_ena c) (acct_cond c) v (acct_path c).
Definition with_ctl {T} (f : acct_ctl -> acct_ctl) (d : driver T) :=
  Driver (f (driver_ctl d)) (ac_seqno d) (acct_list d) (f_tracker d) (taillock d) (wakeups d).
Definition with_seq {T} (v : Z) (d : driver T) :=
  Driver (driver_ctl d) v (acct_list d) (f_tracker d) (taillock d) (wakeups d).
Definition with_list {T} (v : list acct_node) (d : driver T) :=
  Driver (driver_ctl d) (ac_seqno d) v (f_tracker d) (taillock d) (wakeups d).
Definition with_tracker {T} (v : T) (d : driver T) :=
  Driver (driver_ctl d) (ac_seqno d) (acct_list d) v (taillock d) (wakeups d).
Definition with_taillock {T} (v : Z) (d : driver T) :=
  Driver (driver_ctl d) (ac_seqno d) (acct_list d) (f_tracker d) v (wakeups d).
Definition with_wakeups {T} (v : Z) (d : driver T) :=
  Driver (driver_ctl d) (ac_seqno d) (acct_list d) (f_tracker d) (taillock d) v.
Definition node_set_seq (v : Z) (n : acct_node) :=
  let c := acc n in
  AcctNode (AcctCommon (ac_type c) (ac_len c) v (ac_comm c) (ac_etime c) (ac_btime c)
    (ac_pid c) (ac_uid c) (ac_gid c) (ac_tty c) (ac_flag c)) (acc_body n).

(** ** The queue of records *)

Section Queue.
Context {T : Type}.
Implicit Types d : driver T.

(** [ac_seq_reset]. *)
Definition ac_seq_reset d : driver T := with_seq 0 d.

(** [update_seq]: the number to use, and the state with the next one. *)
Definition update_seq d : Z * driver T := (ac_seqno d, with_seq (s32 (ac_seqno d + 1)) d).

(** [make_node]. *)
Definition make_node (c : acct_common) (b : acct_body) : acct_node := AcctNode c b.

(** [add_node]: insertion at the head, and a wakeup when the queue was empty. *)
Definition add_node (node : acct_node) d : driver T :=
  let wake_him := match acct_list d with [] => true | _ => false end in
  let d := with_taillock (taillock d + 1) d in
  let '(seq, d) := update_seq d in
  let d := with_list (node_set_seq (u32 seq) node :: acct_list d) d in
  let d := with_taillock (taillock d - 1) d in
  if wake_him then with_wakeups (wakeups d + 1) d else d.

(** [acctclose]: frees the whole queue and restarts the numbering. *)
Fixpoint drain_list (l : list acct_node) : list acct_node :=
  match l with
  | [] => []
  | np :: l' => drain_list l'
  end.

Definition acctclose d : Z * driver T :=
  let d := with_taillock (taillock d + 1) d in
  let d := with_list (drain_list (acct_list d)) d in
  let d := with_taillock (taillock d - 1) d in
  (0, ac_seq_reset d).
End Queue.

(** ** Device read *)

Inductive read_outcome (T : Type) :=
  | ReadRet (ret : Z) (d : driver T) (u : uio)   (* the call returns *)
  | ReadSleep (d : driver T).                    (* tsleep_nsec on the queue *)
Arguments ReadRet {T}.
Arguments ReadSleep {T}.

Section Read.
Context {T : Type}.
Implicit Types d : driver T.

(** The result of [uiomove(v, len, uio)], 0 on success. *)
Variable uiomove_err : Z -> uio -> Z.

(** [uiomove] on success: [len] bytes from byte [off] of the record. *)
Definition uiomove (off len : Z) (u : uio) : uio :=
  Uio (uio_offset u + len) (uio_resid u - len) (uio_data u ++ [(off, len)]).

(** The copy loop of [acctread].  [v = tail->acc + sent] is arithmetic on a
    pointer to [struct acct_common].  The result is the [error] of the return
    in the loop, [None] inside when the loop ends, and no result at all when
    the fuel does not suffice. *)
Fixpoint copy_loop (fuel : nat) (len_rec sent : Z) (u : uio) : option (option Z * uio) :=
  match fuel with
  | O => None
  | S fuel =>
    if negb (0 <? uio_resid u) then Some (None, u)
    else if len_rec <=? sent then Some (None, u)
    else
      let v := sent * sizeof_acct_common in
      let len := len_rec - sent in
      let len := if uio_resid u <? len then uio_resid u else len in
      let error := uiomove_err len u in
      if nz error then Some (Some error, u)
      else copy_loop fuel len_rec (sent + len) (uiomove v len u)
  end.

(** Two turns always end the loop, see [copy_loop_one_piece]. *)
Definition copy_fuel : nat := 3.

(** From the test of the queue on: [tail] is the last element of the queue. *)
Definition acctread_tail d (u : uio) : option (read_outcome T) :=
  match last (acct_list d) with
  | None => Some (ReadSleep (with_taillock (taillock d - 1) d))
  | Some tail =>
    r ← copy_loop copy_fuel (ac_len (acc tail)) 0 u;
    match r with
    | (Some error, u') => Some (ReadRet error d u')
    | (None, u') =>
      let d := with_list (removelast (acct_list d)) d in
      Some (ReadRet 0 (with_taillock (taillock d - 1) d) u')
    end
  end.

Definition acctread d (u : uio) : option (read_outcome T) :=
  if (acct_ena (driver_ctl d) =? 0) && (acct_fcount (driver_ctl d) =? 0)
  then Some (ReadRet EINVAL d u)
  else if uio_offset u <? 0 then Some (ReadRet EINVAL d u)
  else acctread_tail (with_taillock (taillock d + 1) d) u.

(** The rest of [acctread] after [tsleep_nsec] returned [error]. *)
Definition acctread_wakeup d (error : Z) (u : uio) : option (read_outcome T) :=
  if negb (error =? EWOULDBLOCK) && negb (error =? 0) then Some (ReadRet error d u)
  else acctread_tail (with_taillock (taillock d + 1) d) u.
End Read.

(** [acctopen]: only minor device 0 exists. *)
Definition minor (dev : Z) : Z :=
  Z.lor (Z.land dev 255) (Z.shiftr (Z.land dev 4294901760) 8).
Definition acctopen (dev : Z) : Z := if nz (minor dev) then ENXIO else 0.

(** The entry points that are not supported. *)
Definition acctkqfilter : Z := EOPNOTSUPP.
Definition acctpoll : Z := POLLERR.
Definition acctwrite : Z := EOPNOTSUPP.

(** ** The tree of the tracked files *)

(** [trkvnode_compare]: a pointer difference returned as an [int]. *)
Definition trkvnode_compare (n1 n2 : trkvnode) : Z :=
  s32 (vnode_pos (trk_vnode n1) - vnode_pos (trk_vnode n2)).

(** Fewer than 2^31 vnodes are ordered by it. *)
Lemma trkvnode_compare_sub n1 n2 :
  trkvnode_compare n1 n2 = vnode_pos (trk_vnode n1) - vnode_pos (trk_vnode n2).
Proof.
  unfold trkvnode_compare. pose proof (vnode_range (trk_vnode n1)). pose proof (vnode_range (trk_vnode n2)).
  apply sN_small; lia.
Qed.

#[export] Instance trkvnode_order : KeyOrder trk_vnode trkvnode_compare.
Proof.
  split; intros *; rewrite ?trkvnode_compare_sub; [|lia|lia].
  split; [intros H; apply vnode_eq; lia|intros ->; lia].
Qed.

(** Without the bound it would take two files for one. *)
Example compare_truncates : s32 (2 ^ 32 + 7 - 7) = 0.
Proof. reflexivity. Qed.

(** The tree of the tracked files obeys the laws of tree(3) because [trkvnode_compare] orders its keys. *)
Class TrkTree {T} `{RBTree vnodep trkvnode T} (rb_map : T -> gmap vnodep trkvnode) : Prop :=
  trk_tree :: RBTreeFor vnodep trkvnode T trk_vnode trkvnode_compare rb_map.

#[export] Instance trk_laws {T} `{RBTree vnodep trkvnode T} (rb_map : T -> gmap vnodep trkvnode) `{!TrkTree rb_map} :
  RBTreeLaws vnodep trkvnode T rb_map.
Proof. apply trk_tree. apply _. Qed.

#[export] Instance gmap_trk_tree : TrkTree (fun t : gmap vnodep trkvnode => t).
Proof. intros _. apply _. Qed.

(** [trk_path_copy]: a buffer of [PATH_MAX], of which 49 bytes are used. *)
Definition trk_path_copy (path : string) : string := strlcpy 49 path.

(** [trkvnode_new]: NULL for a NULL vnode; the memory is zeroed. *)
Definition trkvnode_new (vnode : option vnodep) (path : string) : option trkvnode :=
  v ← vnode; Some (Trkvnode (trk_path_copy path) 0 0 v).

Definition trk_or_ena (v : Z) (n : trkvnode) : trkvnode :=
  Trkvnode (trk_name n) (u8 (Z.lor (trk_ena n) v)) (trk_flags n) (trk_vnode n).
Definition trk_or_flags (v : Z) (n : trkvnode) : trkvnode :=
  Trkvnode (trk_name n) (trk_ena n) (u8 (Z.lor (trk_flags n) v)) (trk_vnode n).

Section Tracker.
Context {T : Type} `{RBTree vnodep trkvnode T}.
Implicit Types d : driver T.

(** The result of [NDINIT] and [namei] for a process and a path: the error and
    the vnode found. *)
Variable namei : Z -> string -> Z * option vnodep.

(** [trktree_delete_vnodes]: the number of nodes removed. *)
Definition trktree_delete_vnodes d : Z * driver T :=
  let l := rb_elems (f_tracker d) in
  (Z.of_nat (length l),
   with_tracker (foldl (fun t k => (rb_remove k t).2) (f_tracker d) l.*1) d).

(** [trktree_destroy]. *)
Definition trktree_destroy d : driver T := (trktree_delete_vnodes d).2.

(** [trktree_add_vnode_unlocked], for a vnode that is not NULL: the node of the
    tree for this vnode. *)
Definition trktree_add_vnode_unlocked d (vnode : vnodep) (path : string) : trkvnode * driver T :=
  let trkv := Trkvnode (trk_path_copy path) 0 0 vnode in
  match rb_insert vnode trkv (f_tracker d) with
  | (Some old, t) => (old, with_tracker t d)
  | (None, t) =>
    (trkv, with_ctl (fun c => set_fcount (u64 (acct_fcount c + 1)) c) (with_tracker t d))
  end.

(** [trktree_add_vnode]. *)
Definition trktree_add_vnode d (vnode : option vnodep) (path : string) : option trkvnode * driver T :=
  match vnode with
  | None => (None, d)
  | Some v => let '(n, d) := trktree_add_vnode_unlocked d v path in (Some n, d)
  end.

(** [trktree_vnoderemove]. *)
Definition trktree_vnoderemove d (vnode : vnodep) : option trkvnode * driver T :=
  match rb_find vnode (f_tracker d) with
  | Some _ =>
    let '(ret, t) := rb_remove vnode (f_tracker d) in
    (ret, with_ctl (fun c => set_fcount (u64 (acct_fcount c - 1)) c) (with_tracker t d))
  | None => (None, d)
  end.

(** [trktree_vnodelookup]. *)
Definition trktree_vnodelookup d (vnode : vnodep) : option trkvnode := rb_find vnode (f_tracker d).

(** [path_to_vnode]: the path is looked up after [trk_path_copy]. *)
Definition path_to_vnode (p : Z) (path : string) : option vnodep :=
  let '(error, ni_vp) := namei p (trk_path_copy path) in
  if error =? 0 then ni_vp else None.

(** [trktree_pathremove]. *)
Definition trktree_pathremove (p : Z) d (path : string) : option trkvnode * driver T :=
  match path_to_vnode p path with
  | None => (None, d)
  | Some v => trktree_vnoderemove d v
  end.

(** [trktree_pathlookup]. *)
Definition trktree_pathlookup (p : Z) d (path : string) : option trkvnode :=
  v ← path_to_vnode p path; trktree_vnodelookup d v.

(** [trktree_add_path]. *)
Definition trktree_add_path (p : Z) d (path : string) : option trkvnode * driver T :=
  trktree_add_vnode d (path_to_vnode p path) path.

(** [trktree_parsepermissions]: 0 when the event is to be recorded. *)
Definition trktree_parsepermissions d (n : option trkvnode) (ena flags : Z) : Z :=
  match n with
  | None => 1
  | Some n =>
    let flags := if flags =? 0 then trk_flags n else flags in
    if nz (Z.land (acct_ena (driver_ctl d)) ena) && nz (Z.land (trk_ena n) ena)
       && ((flags =? 0) || nz (Z.land (trk_flags n) flags))
    then 0 else 2
  end.
End Tracker.

(** ** The hooks *)

(** The clocks that [acct_void] reads. *)
Record clock := Clock { nanouptime : timespec; nanoboottime : timespec }.

(** [acct_void]: the common part of a record; [ac_seq] stays 0. *)
Definition acct_void (clk : clock) (type len : Z) (pr : process) : acct_common :=
  let realstart := timespecadd (nanoboottime clk) (ps_start pr) in
  let elapsed := timespecsub (nanouptime clk) (ps_start pr) in
  {| ac_type := u16 type; ac_len := u16 len; ac_seq := 0;
     ac_comm := String.substring 0 16 (ps_comm pr);
     ac_etime := elapsed; ac_btime := realstart;
     ac_pid := ps_pid pr; ac_uid := cr_ruid pr; ac_gid := cr_rgid pr;
     ac_tty := if ps_controlt pr then match ps_ttyp pr with Some dev => dev | None => NODEV end
               else NODEV;
     ac_flag := ps_acflag pr |}.

Section Hooks.
Context {T : Type} `{RBTree vnodep trkvnode T}.
Implicit Types d : driver T.
(** The kernel's clock frequency and tick, [extern int hz, tick]. *)
Variables hz tick : Z.

(** The body of every hook once the event is to be recorded: [m] tells whether
    [malloc] returned memory. *)
Definition record_event (m : bool) (clk : clock) (type : Z) (pr : process)
    (b : acct_body) d : driver T :=
  if negb m then (update_seq d).2
  else add_node (make_node (acct_void clk type (sizeof_body b) pr) b) d.

(** [acct_fork]: the record is about the parent [pptr] of the new process. *)
Definition acct_fork (m : bool) (clk : clock) (pptr pr : process) d : driver T :=
  if negb (nz (Z.land (acct_ena (driver_ctl d)) ACCT_ENA_FORK)) then d
  else record_event m clk ACCT_MSG_FORK pptr (acct_fork_b (ps_pid pr)) d.

Definition acct_exec (m : bool) (clk : clock) (pr : process) d : driver T :=
  if negb (nz (Z.land (acct_ena (driver_ctl d)) ACCT_ENA_EXEC)) then d
  else record_event m clk ACCT_MSG_EXEC pr acct_exec_b d.

(** The average memory use that [acct_exit] reports. *)
Definition exit_mem (pr : process) : Z :=
  let r := p_ru pr in
  let tmp := timespecadd (ps_ut pr) (ps_st pr) in
  let t := s32 (tv_sec tmp * hz + Z.quot (tv_nsec tmp) (1000 * tick)) in
  if nz t then u64 (Z.quot (ru_ixrss r + ru_idrss r + ru_isrss r) t) else 0.

Definition acct_exit (m : bool) (clk : clock) (pr : process) d : driver T :=
  if negb (nz (Z.land (acct_ena (driver_ctl d)) ACCT_ENA_EXIT)) then d
  else record_event m clk ACCT_MSG_EXIT pr
    (acct_exit_b (ps_ut pr) (ps_st pr) (exit_mem pr)
      (u64 (ru_inblock (p_ru pr) + ru_oublock (p_ru pr)))) d.

Definition acct_open (m : bool) (clk : clock) (pr : process) (vn : vnodep) (i0 i1 : Z) d : driver T :=
  let n := trktree_vnodelookup d vn in
  if nz (trktree_parsepermissions d n ACCT_ENA_OPEN (u8 i0)) then d
  else match n with
  | None => d
  | Some n => record_event m clk ACCT_MSG_OPEN pr
      (acct_open_b (strlcpy PATH_MAX (trk_name n)) i0 i1) d
  end.

(** [acct_rename]: the file is untracked on every path but the failed
    allocation. *)
Definition acct_rename (m : bool) (clk : clock) (pr : process) (vn : vnodep) (name : string)
    (e0 : Z) d : driver T :=
  let n := trktree_vnodelookup d vn in
  if nz (trktree_parsepermissions d n ACCT_ENA_RENAME 0) then
    match n with
    | Some n => (trktree_vnoderemove d (trk_vnode n)).2
    | None => d
    end
  else match n with
  | None => d
  | Some n =>
    if negb m then (update_seq d).2
    else
      let d := record_event m clk ACCT_MSG_RENAME pr
        (acct_rename_b (strlcpy PATH_MAX (trk_name n))
          (String.substring 0 (Z.to_nat PATH_MAX) name) e0) d in
      (trktree_vnoderemove d (trk_vnode n)).2
  end.

Definition acct_unlink (m : bool) (clk : clock) (pr : process) (vn : vnodep) (e0 : Z) d : driver T :=
  let n := trktree_vnodelookup d vn in
  if nz (trktree_parsepermissions d n ACCT_ENA_UNLINK 0) then
    match n with
    | Some n => (trktree_vnoderemove d (trk_vnode n)).2
    | None => d
    end
  else match n with
  | None => d
  | Some n =>
    if negb m then (update_seq d).2
    else
      let d := record_event m clk ACCT_MSG_UNLINK pr
        (acct_unlink_b (strlcpy PATH_MAX (trk_name n)) e0) d in
      (trktree_vnoderemove d (trk_vnode n)).2
  end.

Definition acct_close (m : bool) (clk : clock) (pr : process) (vn : vnodep) d : driver T :=
  let n := trktree_vnodelookup d vn in
  if nz (trktree_parsepermissions d n ACCT_ENA_CLOSE 0) then d
  else match n with
  | None => d
  | Some n => record_event m clk ACCT_MSG_CLOSE pr
      (acct_close_b (strlcpy PATH_MAX (trk_name n))) d
  end.
End Hooks.

(** ** Device control *)

Inductive ioctl_cmd :=
  | FIONREAD | FIONBIO
  | ACCT_IOC_STATUS | ACCT_IOC_FSTATUS | ACCT_IOC_ENABLE | ACCT_IOC_DISABLE
  | ACCT_IOC_TRACK_FILE | ACCT_IOC_UNTRACK_FILE
  | IOC_OTHER.

Section Ioctl.
Context {T : Type} `{RBTree vnodep trkvnode T}.
Implicit Types d : driver T.
Variable namei : Z -> string -> Z * option vnodep.

(** [acctioctl]: the result, the [struct acct_ctl] handed back, the state. *)
Definition acctioctl (cmd : ioctl_cmd) (ctl : acct_ctl) (proc : Z) d : Z * acct_ctl * driver T :=
  match cmd with
  | FIONREAD | FIONBIO | IOC_OTHER => (0, ctl, d)
  | ACCT_IOC_STATUS =>
    let ctl := set_ena (acct_ena (driver_ctl d)) ctl in
    (0, set_fcount (acct_fcount (driver_ctl d)) ctl, d)
  | ACCT_IOC_FSTATUS =>
    let node := trktree_pathlookup namei proc d (acct_path ctl) in
    let ctl := match node with
      | Some node => set_cond (trk_flags node) (set_ena (trk_ena node) ctl)
      | None => ctl
      end in
    (0, set_fcount (acct_fcount (driver_ctl d)) ctl, d)
  | ACCT_IOC_ENABLE =>
    let d := with_ctl (fun c => set_ena (Z.lor (acct_ena c) (acct_ena ctl)) c) d in
    (0, set_ena (acct_ena (driver_ctl d)) ctl, d)
  | ACCT_IOC_DISABLE =>
    let d := if nz (and_ACCT_ENA_ALL (acct_ena ctl)) then (trktree_delete_vnodes d).2 else d in
    let d := with_ctl (fun c => set_ena (Z.land (acct_ena c) (lnot_c (acct_ena ctl))) c) d in
    let ctl := set_ena (acct_ena (driver_ctl d)) ctl in
    (0, set_fcount (acct_fcount (driver_ctl d)) ctl, d)
  | ACCT_IOC_TRACK_FILE =>
    let '(node, d) := trktree_add_path namei proc d (acct_path ctl) in
    match node with
    | Some node =>
      let mark n := trk_or_flags (acct_cond ctl) (trk_or_ena (Z.land (acct_ena ctl) F_ENA) n) in
      let d := with_tracker (rb_modify (trk_vnode node) mark (f_tracker d)) d in
      let node := mark node in
      let ctl := set_cond (trk_flags node) (set_ena (trk_ena node) ctl) in
      (0, set_fcount (acct_fcount (driver_ctl d)) ctl, d)
    | None =>
      let ctl := set_cond 0 (set_ena 0 ctl) in
      (ENOENT, set_fcount (acct_fcount (driver_ctl d)) ctl, d)
    end
  | ACCT_IOC_UNTRACK_FILE =>
    let ctl := set_ena (acct_ena (driver_ctl d)) ctl in
    let '(_, d) := trktree_pathremove namei proc d (acct_path ctl) in
    let ctl := set_fcount (acct_fcount (driver_ctl d)) ctl in
    (0, set_cond 0 ctl, d)
  end.
End Ioctl.

(** [acctattach]: an empty queue and an empty tree; the other variables are
    zero-initialised. *)
Definition acctattach {T} `{RBTree vnodep trkvnode T} : driver T :=
  Driver (AcctCtl 0 0 0 EmptyString) 0 [] rb_empty 0 0.

(** ** Sequences of operations *)

(** One call into the driver; a reader that sleeps comes back as
    [OpReadWakeup] with the result of [tsleep_nsec]. *)
Inductive acct_op :=
  | OpFork (m : bool) (clk : clock) (pptr pr : process)
  | OpExec (m : bool) (clk : clock) (pr : process)
  | OpExit (m : bool) (clk : clock) (pr : process)
  | OpOpen (m : bool) (clk : clock) (pr : process) (vn : vnodep) (i0 i1 : Z)
  | OpRename (m : bool) (clk : clock) (pr : process) (vn : vnodep) (name : string) (e0 : Z)
  | OpUnlink (m : bool) (clk : clock) (pr : process) (vn : vnodep) (e0 : Z)
  | OpClose (m : bool) (clk : clock) (pr : process) (vn : vnodep)
  | OpRead (u : uio)
  | OpReadWakeup (error : Z) (u : uio)
  | OpIoctl (cmd : ioctl_cmd) (ctl : acct_ctl) (p : Z)
  | OpAcctclose.

Definition read_state {T} (r : option (read_outcome T)) (d : driver T) : driver T :=
  match r with
  | Some (ReadRet _ d' _) => d'
  | Some (ReadSleep d') => d'
  | None => d
  end.

Section Run.
Context {T : Type} `{RBTree vnodep trkvnode T}.
Variables (namei : Z -> string -> Z * option vnodep) (uiomove_err : Z -> uio -> Z) (hz tick : Z).

Definition run_op (op : acct_op) (d : driver T) : driver T :=
  match op with
  | OpFork m clk pptr pr => acct_fork m clk pptr pr d
  | OpExec m clk pr => acct_exec m clk pr d
  | OpExit m clk pr => acct_exit hz tick m clk pr d
  | OpOpen m clk pr vn i0 i1 => acct_open m clk pr vn i0 i1 d
  | OpRename m clk pr vn name e0 => acct_rename m clk pr vn name e0 d
  | OpUnlink m clk pr vn e0 => acct_unlink m clk pr vn e0 d
  | OpClose m clk pr vn => acct_close m clk pr vn d
  | OpRead u => read_state (acctread uiomove_err d u) d
  | OpReadWakeup e u => read_state (acctread_wakeup uiomove_err d e u) d
  | OpIoctl cmd ctl p => (acctioctl namei cmd ctl p d).2
  | OpAcctclose => (acctclose d).2
  end.

(** The driver after a sequence of calls, from [acctattach]. *)
Definition run_ops (ops : list acct_op) : driver T :=
  foldl (fun d op => run_op op d) acctattach ops.
End Run.

(** ** Properties: the queue *)

Definition node_seq (n : acct_node) : Z := ac_seq (acc n).

(** The queue holds the newest record first: its numbers decrease strictly, and
    stay below the next number. *)
Definition queue_ordered {T} (d : driver T) : Prop :=
  0 <= ac_seqno d /\
  Forall (fun n => 0 <= node_seq n < ac_seqno d) (acct_list d) /\
  StronglySorted (fun a b => node_seq b < node_seq a) (acct_list d).

Section QueueLemmas.
Context {T : Type}.
Implicit Types d : driver T.

Lemma drain_list_nil l : drain_list l = [].
Proof. by induction l. Qed.

(** What a call may do to the queue and its number: nothing, take the next
    number, push a record with it, drop the oldest, or start again. *)
Inductive queue_step : Z -> list acct_node -> Z -> list acct_node -> Prop :=
  | qs_same s l : queue_step s l s l
  | qs_skip s l : queue_step s l (s32 (s + 1)) l
  | qs_push s l c b : queue_step s l (s32 (s + 1)) (node_set_seq (u32 s) (AcctNode c b) :: l)
  | qs_pop s l : queue_step s l s (removelast l)
  | qs_clear s l : queue_step s l 0 [].

Definition queue_rel d d' : Prop :=
  queue_step (ac_seqno d) (acct_list d) (ac_seqno d') (acct_list d').

Lemma queue_rel_add_node c b d : queue_rel d (add_node (make_node c b) d).
Proof. unfold queue_rel, add_node. destruct (acct_list d) eqn:E; simpl; rewrite ?E; constructor. Qed.

Lemma queue_rel_acctclose d : queue_rel d (acctclose d).2.
Proof. unfold queue_rel; simpl. rewrite drain_list_nil. constructor. Qed.

Lemma removelast_StronglySorted {A} (R : A -> A -> Prop) l :
  StronglySorted R l -> StronglySorted R (removelast l).
Proof.
  induction 1 as [|a l Hs IH Hf]; [constructor|]. destruct l as [|b l]; [constructor|].
  change (removelast (a :: b :: l)) with (a :: removelast (b :: l)).
  constructor; [done|]. rewrite Forall_forall in Hf |- *. intros x Hx. apply Hf.
  apply list_elem_of_In in Hx. apply list_elem_of_In.
  rewrite (app_removelast_last a (l:=b :: l)) by done. apply in_app_iff. by left.
Qed.

Lemma removelast_Forall {A} (P : A -> Prop) l : Forall P l -> Forall P (removelast l).
Proof.
  induction 1 as [|a l Ha Hl IH]; [constructor|]. destruct l as [|b l]; [constructor|].
  change (removelast (a :: b :: l)) with (a :: removelast (b :: l)). by constructor.
Qed.

(** One step keeps the order as long as the [int] counter does not wrap. *)
Lemma queue_step_ordered s l s' l' :
  queue_step s l s' l' -> s < 2 ^ 31 - 1 ->
  0 <= s -> Forall (fun n => 0 <= node_seq n < s) l ->
  StronglySorted (fun a b => node_seq b < node_seq a) l ->
  0 <= s' <= s + 1 /\ Forall (fun n => 0 <= node_seq n < s') l' /\
  StronglySorted (fun a b => node_seq b < node_seq a) l'.
Proof.
  intros Hq Hw H0 Hf Hs.
  assert (s32 (s + 1) = s + 1) as Hs32 by (apply sN_small; lia).
  assert (u32 s = s) as Hu32 by (apply uN_small; lia).
  destruct Hq; rewrite ?Hs32, ?Hu32 in *; (split; [lia|]).
  - done.
  - split; [|done]. eapply Forall_impl; [done|]. simpl; intros; lia.
  - split; constructor; simpl; unfold node_seq in *; simpl; try lia; auto.
    + eapply Forall_impl; [done|]. simpl; intros; lia.
    + eapply Forall_impl; [done|]. simpl; intros; lia.
  - split; [by apply removelast_Forall|by apply removelast_StronglySorted].
  - split; constructor.
Qed.
End QueueLemmas.

Create HintDb acct.
#[export] Hint Constructors queue_step : acct.
#[export] Hint Resolve queue_rel_add_node queue_rel_acctclose : acct.

Section QueueSteps.
Context {T : Type} `{RBTree vnodep trkvnode T}.
Variables (namei : Z -> string -> Z * option vnodep) (uiomove_err : Z -> uio -> Z) (hz tick : Z).
Implicit Types d : driver T.

(** The tracker operations leave the queue alone. *)
Definition same_queue d d' : Prop :=
  ac_seqno d' = ac_seqno d /\ acct_list d' = acct_list d /\
  taillock d' = taillock d /\ wakeups d' = wakeups d.

Lemma same_queue_rel d d1 d2 : queue_rel d d1 -> same_queue d1 d2 -> queue_rel d d2.
Proof. unfold queue_rel. intros ? (-> & -> & _). done. Qed.

Lemma same_queue_vnoderemove d v : same_queue d (trktree_vnoderemove d v).2.
Proof.
  unfold trktree_vnoderemove. destruct (rb_find _ _); [|done].
  destruct (rb_remove _ _). done.
Qed.

Lemma same_queue_ioctl cmd ctl p d : same_queue d (acctioctl namei cmd ctl p d).2.
Proof.
  destruct cmd; simpl; try done.
  - by destruct (nz _).
  - unfold trktree_add_path, trktree_add_vnode. destruct (path_to_vnode _ _ _); [|done].
    unfold trktree_add_vnode_unlocked. destruct (rb_insert _ _ _) as [[old|] t]; done.
  - unfold trktree_pathremove. destruct (path_to_vnode _ _ _) as [v|]; [|done].
    pose proof (same_queue_vnoderemove d v) as Hs.
    by destruct (trktree_vnoderemove d v).
Qed.

Lemma queue_rel_record m clk type pr b d : queue_rel d (record_event m clk type pr b d).
Proof. unfold record_event. destruct m; simpl; [auto with acct|]. constructor. Qed.

Lemma queue_rel_refl d : queue_rel d d.
Proof. constructor. Qed.

Hint Resolve queue_rel_record queue_rel_refl same_queue_vnoderemove : acct.

Lemma queue_rel_read_tail d u :
  queue_rel d (read_state (acctread_tail uiomove_err d u) d).
Proof.
  unfold acctread_tail. destruct (last _) as [tl|]; [|constructor].
  destruct (copy_loop _ _ _ _ _) as [[[e|] u']|]; constructor.
Qed.

Lemma queue_rel_taillock d v d' : queue_rel (with_taillock v d) d' -> queue_rel d d'.
Proof. done. Qed.

Lemma read_state_default (r : option (read_outcome T)) d d0 :
  queue_rel d (read_state r d) -> queue_rel d (read_state r d0) \/ r = None.
Proof. destruct r as [[]|]; auto. Qed.

Lemma queue_rel_read_body d u d0 :
  ac_seqno d0 = ac_seqno d -> acct_list d0 = acct_list d ->
  queue_rel d (read_state (acctread_tail uiomove_err d0 u) d).
Proof.
  intros Hs Hl. pose proof (queue_rel_read_tail d0 u) as Hq.
  unfold queue_rel in *. rewrite Hs, Hl in Hq.
  destruct (acctread_tail _ _ _) as [[]|]; auto. simpl. constructor.
Qed.

(** Every call moves the queue by one [queue_step]. *)
Lemma queue_rel_run_op op d : queue_rel d (run_op namei uiomove_err hz tick op d).
Proof.
  destruct op; simpl.
  - unfold acct_fork. case_if; auto with acct.
  - unfold acct_exec. case_if; auto with acct.
  - unfold acct_exit. case_if; auto with acct.
  - unfold acct_open. case_if; [auto with acct|]. destruct (trktree_vnodelookup _ _); auto with acct.
  - unfold acct_rename. case_if; destruct (trktree_vnodelookup _ _); auto with acct.
    + eapply same_queue_rel; [|apply same_queue_vnoderemove]; auto with acct.
    + destruct m; simpl; [|constructor]. eapply same_queue_rel; [|apply same_queue_vnoderemove]; auto with acct.
  - unfold acct_unlink. case_if; destruct (trktree_vnodelookup _ _); auto with acct.
    + eapply same_queue_rel; [|apply same_queue_vnoderemove]; auto with acct.
    + destruct m; simpl; [|constructor]. eapply same_queue_rel; [|apply same_queue_vnoderemove]; auto with acct.
  - unfold acct_close. case_if; [auto with acct|]. destruct (trktree_vnodelookup _ _); auto with acct.
  - unfold acctread. case_if; [constructor|]. case_if; [constructor|].
    by apply queue_rel_read_body.
  - unfold acctread_wakeup. case_if; [constructor|]. by apply queue_rel_read_body.
  - eapply same_queue_rel; [apply queue_rel_refl|apply same_queue_ioctl].
  - auto with acct.
Qed.

Lemma run_ops_ordered ops :
  Z.of_nat (length ops) < 2 ^ 31 ->
  queue_ordered (run_ops namei uiomove_err hz tick ops) /\
  ac_seqno (run_ops namei uiomove_err hz tick ops) <= Z.of_nat (length ops).
Proof.
  unfold run_ops. induction ops as [|op ops IH] using rev_ind; intros Hlen.
  - repeat split; simpl; try lia; constructor.
  - rewrite length_app in *. simpl in *. rewrite foldl_app. simpl.
    destruct IH as [(H0 & Hf & Hs) Hle]; [lia|].
    pose proof (queue_rel_run_op op (foldl (fun d op => run_op namei uiomove_err hz tick op d)
      acctattach ops)) as Hq.
    eapply queue_step_ordered in Hq as (? & ? & ?); eauto; [|lia].
    repeat split; try done; lia.
Qed.
End QueueSteps.

(** C27: After any sequence of fewer than 2^31 calls since the attachment of the
    driver, with any result of the path lookups and of the copies to the reader,
    the sequence numbers of the queued records decrease strictly from the newest
    to the oldest record and are below the number of the next record: a record
    is never queued twice and never out of order. *)
Theorem acct_queue_ordered {T} `{RBTree vnodep trkvnode T} namei uiomove_err hz tick
    (ops : list acct_op) :
  Z.of_nat (length ops) < 2 ^ 31 ->
  queue_ordered (run_ops (T := T) namei uiomove_err hz tick ops).
Proof. intros. by apply run_ops_ordered. Qed.

(** *** Sample values for the witnesses *)
Definition ts0 := Timespec 0 0.
Definition clock0 := Clock (Timespec 100 0) (Timespec 1000 0).
Definition process0 : process :=
  Process "sh" (Timespec 40 5) 17 1000 1000 false None 0 ts0 ts0 (Rusage 0 0 0 1 2).
Definition etc_passwd : vnodep := Vnode 4096 eq_refl.
Definition bin_sh : vnodep := Vnode 8192 eq_refl.
Definition namei0 (p : Z) (path : string) : Z * option vnodep :=
  if String.eqb path "/etc/passwd" then (0, Some etc_passwd)
  else if String.eqb path "/bin/sh" then (0, Some bin_sh) else (ENOENT, None).
Definition ctl0 (ena cond : Z) (path : string) := AcctCtl ena cond 0 path.
Definition no_fault : Z -> uio -> Z := fun _ _ => 0.

Lemma acct_queue_ordered_witness :
  queue_ordered (run_ops (T := gmap vnodep trkvnode) namei0 no_fault 100 10000
    [OpIoctl ACCT_IOC_ENABLE (ctl0 3 0 "") 1; OpExec true clock0 process0;
     OpFork true clock0 process0 process0; OpRead (Uio 0 512 [])]).
Proof. apply acct_queue_ordered. vm_compute. reflexivity. Defined.

(** ** Properties: reading *)

Section ReadLemmas.
Context {T : Type}.
Variable uiomove_err : Z -> uio -> Z.
Implicit Types d : driver T.

Lemma copy_loop_S fuel len_rec u :
  0 < uio_resid u -> 0 < len_rec ->
  copy_loop uiomove_err (S fuel) len_rec 0 u =
  let n := Z.min len_rec (uio_resid u) in
  if nz (uiomove_err n u) then Some (Some (uiomove_err n u), u)
  else copy_loop uiomove_err fuel len_rec n (uiomove 0 n u).
Proof.
  intros Hr Hl. cbn [copy_loop].
  replace (0 <? uio_resid u) with true by (symmetry; by apply Z.ltb_lt).
  replace (len_rec <=? 0) with false by (symmetry; by apply Z.leb_gt).
  cbn [negb]. rewrite Z.sub_0_r.
  replace (if uio_resid u <? len_rec then uio_resid u else len_rec)
    with (Z.min len_rec (uio_resid u)) by (case_if; cbool; lia).
  done.
Qed.

Lemma copy_loop_done fuel len_rec sent u :
  uio_resid u <= 0 \/ len_rec <= sent ->
  copy_loop uiomove_err (S fuel) len_rec sent u = Some (None, u).
Proof.
  intros Hd. cbn [copy_loop]. case_if; [done|]. case_if; [done|]. cbool. lia.
Qed.
End ReadLemmas.

#[global] Arguments copy_loop : simpl never.

(** The copy loop of [acctread] ends within [copy_fuel] turns whatever
    [uiomove] returns, and for a record of positive length it copies at most one
    piece, which starts at byte 0 of the record and is as long as the record or
    as the room that the reader gave, whichever is less: the scaled pointer
    arithmetic [tail->acc + sent] is never reached with [sent] positive. *)
Theorem copy_loop_one_piece uiomove_err (len_rec : Z) (u : uio) :
  0 < len_rec -> 0 <= uio_resid u ->
  exists r u', copy_loop uiomove_err copy_fuel len_rec 0 u = Some (r, u') /\
    (r = None -> uio_data u' = uio_data u ++
       (if uio_resid u =? 0 then [] else [(0, Z.min len_rec (uio_resid u))])) /\
    (forall e, r = Some e -> e <> 0 /\ u' = u).
Proof.
  intros Hl Hr. unfold copy_fuel.
  destruct (uio_resid u =? 0) eqn:E0; cbool.
  - exists None, u. rewrite copy_loop_done by lia. rewrite app_nil_r. naive_solver.
  - rewrite copy_loop_S by lia. cbv zeta. case_if; cbool.
    + eexists _, _. split; [done|]. split; [done|naive_solver].
    + eexists _, _. rewrite copy_loop_done by (simpl; lia). naive_solver.
Qed.

Lemma copy_loop_one_piece_witness :
  exists r u', copy_loop no_fault copy_fuel 88 0 (Uio 0 50 []) = Some (r, u') /\
    (r = None -> uio_data u' = [] ++ [(0, 50)]) /\ (forall e, r = Some e -> e <> 0 /\ u' = Uio 0 50 []).
Proof. apply (copy_loop_one_piece no_fault 88 (Uio 0 50 [])); simpl; lia. Defined.

(** A read takes the oldest record.  With an event or a tracked file enabled
    and records in the queue, [acctread] returns 0, removes exactly the record
    that was queued first, gives the reader its leading bytes and leaves the lock
    as it was; the bytes of the record beyond the reader's room are lost. *)
Theorem acctread_takes_oldest {T} uiomove_err (d : driver T) (u : uio) l oldest :
  (acct_ena (driver_ctl d) <> 0 \/ acct_fcount (driver_ctl d) <> 0) ->
  0 <= uio_offset u -> 0 < uio_resid u ->
  acct_list d = l ++ [oldest] -> 0 < ac_len (acc oldest) ->
  (forall n, uiomove_err n u = 0) ->
  acctread uiomove_err d u = Some (ReadRet 0 (with_list l d)
    (uiomove 0 (Z.min (ac_len (acc oldest)) (uio_resid u)) u)).
Proof.
  intros Hena Ho Hr Hl Hlen He. unfold acctread.
  replace ((acct_ena (driver_ctl d) =? 0) && (acct_fcount (driver_ctl d) =? 0)) with false
    by (symmetry; cbool; lia).
  replace (uio_offset u <? 0) with false by (symmetry; by apply Z.ltb_ge).
  unfold acctread_tail; simpl. rewrite Hl, last_snoc.
  unfold copy_fuel. rewrite copy_loop_S by lia. cbv zeta. rewrite He. cbn [nz negb Z.eqb].
  rewrite copy_loop_done by (simpl; lia). simpl.
  rewrite removelast_last. unfold with_list, with_taillock; simpl.
  do 3 f_equal. lia.
Qed.

Definition sample_queue : driver (gmap vnodep trkvnode) :=
  run_ops namei0 no_fault 100 10000
    [OpIoctl ACCT_IOC_ENABLE (ctl0 3 0 "") 1; OpExec true clock0 process0;
     OpFork true clock0 process0 process0].

Lemma acctread_takes_oldest_witness :
  exists a b, acct_list sample_queue = [b] ++ [a] /\ node_seq a = 0 /\ node_seq b = 1 /\
  acctread no_fault sample_queue (Uio 0 512 []) =
    Some (ReadRet 0 (with_list [b] sample_queue) (uiomove 0 (Z.min (ac_len (acc a)) 512) (Uio 0 512 []))).
Proof.
  eexists _, _. split; [reflexivity|]. split; [reflexivity|]. split; [reflexivity|].
  apply (acctread_takes_oldest no_fault sample_queue (Uio 0 512 []) [_] _).
  - left. vm_compute. discriminate.
  - simpl; lia.
  - simpl; lia.
  - reflexivity.
  - vm_compute. reflexivity.
  - reflexivity.
Defined.

(** ** Properties: locking *)

(** The calls in which [uiomove] fails. *)
Definition read_faults {T} uiomove_err (op : acct_op) (d : driver T) : bool :=
  let faults u := match last (acct_list d) with
    | None => false
    | Some tail => match copy_loop uiomove_err copy_fuel (ac_len (acc tail)) 0 u with
      | Some (Some _, _) => true
      | _ => false
      end
    end in
  match op with
  | OpRead u =>
    negb ((acct_ena (driver_ctl d) =? 0) && (acct_fcount (driver_ctl d) =? 0)) &&
    negb (uio_offset u <? 0) && faults u
  | OpReadWakeup e u => ((e =? EWOULDBLOCK) || (e =? 0)) && faults u
  | _ => false
  end.

Section Locking.
Context {T : Type} `{RBTree vnodep trkvnode T}.
Variables (namei : Z -> string -> Z * option vnodep) (uiomove_err : Z -> uio -> Z) (hz tick : Z).
Implicit Types d : driver T.

Lemma taillock_record m clk type pr b d : taillock (record_event m clk type pr b d) = taillock d.
Proof.
  unfold record_event, add_node. destruct m; simpl; [|done].
  destruct (acct_list d); simpl; lia.
Qed.

Lemma taillock_vnoderemove d v : taillock (trktree_vnoderemove d v).2 = taillock d.
Proof. apply same_queue_vnoderemove. Qed.

Lemma taillock_read_tail d d0 u :
  taillock d0 = taillock d + 1 -> acct_list d0 = acct_list d ->
  taillock (read_state (acctread_tail uiomove_err d0 u) d) =
  taillock d + b2z (match last (acct_list d) with
    | None => false
    | Some tail => match copy_loop uiomove_err copy_fuel (ac_len (acc tail)) 0 u with
      | Some (Some _, _) => true
      | _ => false
      end
    end).
Proof.
  intros Ht Hl. unfold acctread_tail. rewrite Hl. destruct (last _) as [tl|]; simpl; [|lia].
  destruct (copy_loop _ _ _ _ _) as [[[e|] u']|]; simpl; lia.
Qed.
End Locking.

Create Rewrite HintDb acct.
#[export] Hint Rewrite @taillock_record @taillock_vnoderemove : acct.

(** Every call gives back the lock of the queue, except a read in which
    [uiomove] fails: that one returns with the lock held, once for each such
    call. *)
Theorem acct_lock_balance {T} `{RBTree vnodep trkvnode T} namei uiomove_err hz tick
    (op : acct_op) (d : driver T) :
  taillock (run_op namei uiomove_err hz tick op d) =
  taillock d + b2z (read_faults uiomove_err op d).
Proof.
  destruct op; simpl; rewrite ?Z.add_0_r.
  - unfold acct_fork. case_if; autorewrite with acct; done.
  - unfold acct_exec. case_if; autorewrite with acct; done.
  - unfold acct_exit. case_if; autorewrite with acct; done.
  - unfold acct_open. case_if; [done|]. destruct (trktree_vnodelookup _ _); autorewrite with acct; done.
  - unfold acct_rename. case_if; destruct (trktree_vnodelookup _ _); try done;
      [|destruct m; [cbn [negb]|done]]; autorewrite with acct; done.
  - unfold acct_unlink. case_if; destruct (trktree_vnodelookup _ _); try done;
      [|destruct m; [cbn [negb]|done]]; autorewrite with acct; done.
  - unfold acct_close. case_if; [done|]. destruct (trktree_vnodelookup _ _); autorewrite with acct; done.
  - unfold acctread. case_if; [simpl; lia|]. case_if; [simpl; lia|].
    rewrite taillock_read_tail with (d := d) by done. done.
  - unfold acctread_wakeup. case_if.
    + cbool. replace ((error =? EWOULDBLOCK) || (error =? 0)) with false
        by (symmetry; cbool; done). simpl. lia.
    + rewrite taillock_read_tail with (d := d) by done.
      replace ((error =? EWOULDBLOCK) || (error =? 0)) with true
        by (symmetry; destruct (error =? EWOULDBLOCK), (error =? 0); done). done.
  - apply same_queue_ioctl.
  - lia.
Qed.

(** ** Properties: the tracked files *)

(** Every node of the tree is stored under its own vnode. *)
Definition well_keyed (m : gmap vnodep trkvnode) : Prop := map_Forall (fun k n => trk_vnode n = k) m.

(** The calls that the file counter survives. *)
Definition not_disable (op : acct_op) : Prop :=
  match op with OpIoctl ACCT_IOC_DISABLE _ _ => False | _ => True end.

Section TrackerLemmas.
Context {T : Type} `{RBTree vnodep trkvnode T} (rb_map : T -> gmap vnodep trkvnode)
  `{!TrkTree rb_map}.
Variables (namei : Z -> string -> Z * option vnodep) (uiomove_err : Z -> uio -> Z) (hz tick : Z).
Implicit Types d : driver T.

(** The tracked files of a state. *)
Definition tracked d : gmap vnodep trkvnode := rb_map (f_tracker d).

(** The counter and the tree agree, modulo the width of the counter. *)
Definition counted d : Prop :=
  well_keyed (tracked d) /\ acct_fcount (driver_ctl d) = u64 (Z.of_nat (size (tracked d))).

Definition same_tracker d d' : Prop :=
  f_tracker d' = f_tracker d /\ driver_ctl d' = driver_ctl d.

Lemma same_tracker_counted d d' : same_tracker d d' -> counted d -> counted d'.
Proof. unfold counted, tracked. by intros (-> & ->). Qed.

Lemma lookup_tracked d v : trktree_vnodelookup d v = tracked d !! v.
Proof. apply (rb_find_map (rb_map := rb_map)). Qed.

Lemma vnoderemove_tracked d v : tracked (trktree_vnoderemove d v).2 = delete v (tracked d).
Proof.
  unfold trktree_vnoderemove, tracked. rewrite (rb_find_map (rb_map := rb_map)).
  pose proof (rb_remove_map (rb_map := rb_map) v (f_tracker d)) as Hm.
  destruct (rb_map (f_tracker d) !! v) eqn:E.
  - by destruct (rb_remove v (f_tracker d)).
  - simpl. symmetry. by apply delete_id.
Qed.

Lemma u64_pred (n : nat) : (0 < n)%nat ->
  u64 (u64 (Z.of_nat n) - 1) = u64 (Z.of_nat (pred n)).
Proof. intros. rewrite uN_sub_l. f_equal. lia. Qed.

Lemma vnoderemove_counted d v : counted d -> counted (trktree_vnoderemove d v).2.
Proof.
  intros [Hw Hc]. split.
  { rewrite vnoderemove_tracked. by apply map_Forall_delete. }
  rewrite vnoderemove_tracked. unfold trktree_vnoderemove.
  rewrite (rb_find_map (rb_map := rb_map)). fold (tracked d).
  destruct (tracked d !! v) eqn:E.
  - destruct (rb_remove v (f_tracker d)). simpl. rewrite Hc.
    rewrite (map_size_delete_Some v (tracked d)) by eauto. apply u64_pred.
    assert (size (tracked d) ≠ 0%nat) by (eapply map_size_ne_0_lookup_2; eauto). lia.
  - simpl. by rewrite delete_id.
Qed.

Lemma add_vnode_tracked d v path :
  let '(n, d') := trktree_add_vnode_unlocked d v path in
  let fresh := Trkvnode (trk_path_copy path) 0 0 v in
  n = default fresh (tracked d !! v) /\
  tracked d' = (if tracked d !! v is Some _ then tracked d else <[v := fresh]> (tracked d)).
Proof.
  unfold trktree_add_vnode_unlocked, tracked.
  set (fresh := Trkvnode _ _ _ _).
  pose proof (rb_insert_old (rb_map := rb_map) v fresh (f_tracker d)) as Ho.
  pose proof (rb_insert_map (rb_map := rb_map) v fresh (f_tracker d)) as Hm.
  destruct (rb_insert v fresh (f_tracker d)) as [o t]; simpl in *. subst o.
  destruct (rb_map (f_tracker d) !! v) eqn:E; simpl; split; try done; by rewrite ?E.
Qed.

Lemma add_vnode_counted d v path :
  counted d -> counted (trktree_add_vnode_unlocked d v path).2.
Proof.
  intros [Hw Hc]. pose proof (add_vnode_tracked d v path) as Ht.
  unfold trktree_add_vnode_unlocked in *.
  pose proof (rb_insert_old (rb_map := rb_map) v (Trkvnode (trk_path_copy path) 0 0 v) (f_tracker d)) as Ho.
  destruct (rb_insert _ _ _) as [o t]; simpl in Ho; subst o. fold (tracked d) in *.
  destruct (tracked d !! v) eqn:E; simpl in *; destruct Ht as [_ Ht]; split; simpl; rewrite Ht; try done.
  - apply map_Forall_insert_2; done.
  - rewrite Hc, uN_add_l, map_size_insert_None by done. f_equal. lia.
Qed.

Lemma modify_counted d k (f : trkvnode -> trkvnode) :
  (forall n, trk_vnode (f n) = trk_vnode n) ->
  counted d -> counted (with_tracker (rb_modify k f (f_tracker d)) d).
Proof.
  intros Hf [Hw Hc]. unfold counted, tracked in *; simpl.
  rewrite (rb_modify_map (rb_map := rb_map)). split.
  - intros i n. rewrite lookup_alter_Some. intros [(<- & n0 & Hn & ->)|[_ Hn]].
    + rewrite Hf. by apply Hw.
    + by apply Hw.
  - rewrite Hc. do 2 f_equal. symmetry. rewrite <- !size_dom.
    by rewrite dom_alter_L.
Qed.

Lemma record_same m clk type pr b d : same_tracker d (record_event m clk type pr b d).
Proof.
  unfold record_event, add_node. destruct m; simpl; [|done]. by destruct (acct_list d).
Qed.

Lemma read_tail_same d d0 u :
  same_tracker d d0 -> same_tracker d (read_state (acctread_tail uiomove_err d0 u) d).
Proof.
  intros [Ht Hc]. unfold acctread_tail. destruct (last _); [|by split].
  destruct (copy_loop _ _ _ _ _) as [[[] ?]|]; by split.
Qed.
End TrackerLemmas.

Section TrackerSteps.
Context {T : Type} `{RBTree vnodep trkvnode T} (rb_map : T -> gmap vnodep trkvnode)
  `{!TrkTree rb_map}.
Variables (namei : Z -> string -> Z * option vnodep) (uiomove_err : Z -> uio -> Z) (hz tick : Z).
Implicit Types d : driver T.
Local Abbreviation counted := (counted rb_map).
Local Abbreviation tracked := (tracked rb_map).

Lemma record_counted m clk type pr b d : counted d -> counted (record_event m clk type pr b d).
Proof. apply same_tracker_counted, record_same. Qed.

Hint Resolve record_counted vnoderemove_counted : acct.

Lemma ioctl_counted cmd ctl p d :
  cmd <> ACCT_IOC_DISABLE -> counted d -> counted (acctioctl namei cmd ctl p d).2.
Proof.
  intros Hcmd Hc. destruct cmd; simpl; try done.
  - unfold trktree_add_path, trktree_add_vnode.
    destruct (path_to_vnode _ _ _) as [v|]; [|done].
    pose proof (add_vnode_counted rb_map d v (acct_path ctl) Hc) as Ha.
    destruct (trktree_add_vnode_unlocked d v _) as [n d1]; simpl in *.
    by apply modify_counted.
  - unfold trktree_pathremove. destruct (path_to_vnode _ _ _) as [v|]; [|done].
    pose proof (vnoderemove_counted rb_map d v Hc).
    by destruct (trktree_vnoderemove d v).
Qed.

Lemma run_op_counted op d :
  not_disable op -> counted d -> counted (run_op namei uiomove_err hz tick op d).
Proof.
  intros Hn Hc. destruct op; simpl.
  - unfold acct_fork. case_if; auto with acct.
  - unfold acct_exec. case_if; auto with acct.
  - unfold acct_exit. case_if; auto with acct.
  - unfold acct_open. case_if; [auto|]. destruct (trktree_vnodelookup _ _); auto with acct.
  - unfold acct_rename. case_if; destruct (trktree_vnodelookup _ _); auto with acct.
    destruct m; [cbn [negb]; auto with acct|done].
  - unfold acct_unlink. case_if; destruct (trktree_vnodelookup _ _); auto with acct.
    destruct m; [cbn [negb]; auto with acct|done].
  - unfold acct_close. case_if; [auto|]. destruct (trktree_vnodelookup _ _); auto with acct.
  - unfold acctread. case_if; [done|]. case_if; [done|].
    eapply same_tracker_counted; [by apply read_tail_same|done].
  - unfold acctread_wakeup. case_if; [done|].
    eapply same_tracker_counted; [by apply read_tail_same|done].
  - apply ioctl_counted; [|done]. by destruct cmd.
  - eapply same_tracker_counted; [|done]. done.
Qed.

Lemma acctattach_counted : counted acctattach.
Proof.
  split; unfold Acct.tracked; simpl; rewrite (rb_map_empty (rb_map := rb_map)).
  - apply map_Forall_empty.
  - done.
Qed.

Lemma run_ops_counted ops :
  Forall not_disable ops -> counted (run_ops namei uiomove_err hz tick ops).
Proof.
  unfold run_ops. induction ops as [|op ops IH] using rev_ind; intros Hf.
  - apply acctattach_counted.
  - apply Forall_app in Hf as [Hf Hop]. rewrite foldl_app. simpl.
    apply run_op_counted; [by inversion Hop|auto].
Qed.
End TrackerSteps.

(** As long as no [ACCT_IOC_DISABLE] is issued, the counter [acct_fcount]
    that the control calls report is the number of tracked files, modulo the 64
    bits of the counter, after any sequence of hooks, reads and control calls. *)
Theorem acct_fcount_counts {T} `{RBTree vnodep trkvnode T} rb_map
    `{!TrkTree rb_map} namei uiomove_err hz tick (ops : list acct_op) :
  Forall not_disable ops ->
  let d := run_ops namei uiomove_err hz tick ops in
  acct_fcount (driver_ctl d) = u64 (Z.of_nat (size (tracked rb_map d))).
Proof. intros Hf. apply (run_ops_counted rb_map); done. Qed.

Lemma acct_fcount_counts_witness :
  let d := run_ops (T := gmap vnodep trkvnode) namei0 no_fault 100 10000
    [OpIoctl ACCT_IOC_TRACK_FILE (ctl0 8 0 "/bin/sh") 1;
     OpIoctl ACCT_IOC_TRACK_FILE (ctl0 8 0 "/etc/passwd") 1;
     OpIoctl ACCT_IOC_TRACK_FILE (ctl0 16 0 "/bin/sh") 1;
     OpUnlink true clock0 process0 etc_passwd 0] in
  acct_fcount (driver_ctl d) = u64 (Z.of_nat (size (tracked (fun t => t) d))).
Proof. apply (acct_fcount_counts (fun t => t)). repeat constructor. Defined.

(** [ACCT_IOC_DISABLE] with any non-zero set of events switches off every
    event and forgets every tracked file, not only what the request names, and
    leaves the counter of tracked files as it was. *)
Theorem acct_disable_drops_all {T} `{RBTree vnodep trkvnode T} rb_map
    `{!TrkTree rb_map} namei (ctl : acct_ctl) p (d : driver T) :
  acct_ena ctl <> 0 ->
  let '(error, ctl', d') := acctioctl namei ACCT_IOC_DISABLE ctl p d in
  error = 0 /\ acct_ena (driver_ctl d') = 0 /\ acct_ena ctl' = 0 /\
  tracked rb_map d' = ∅ /\ acct_fcount (driver_ctl d') = acct_fcount (driver_ctl d).
Proof.
  intros Hne. simpl.
  assert (lnot_c (acct_ena ctl) = 0) as ->.
  { unfold lnot_c. apply Z.eqb_neq in Hne. by rewrite Hne. }
  assert (nz (and_ACCT_ENA_ALL (acct_ena ctl)) = true) as ->.
  { apply nz_true. unfold and_ACCT_ENA_ALL. intros Hz.
    repeat (apply Z.lor_eq_0_iff in Hz as [Hz ?]). done. }
  simpl. rewrite Z.land_0_r. repeat split.
  apply (rb_drain rb_map).
Qed.

Lemma acct_disable_drops_all_witness :
  let d := run_ops (T := gmap vnodep trkvnode) namei0 no_fault 100 10000
    [OpIoctl ACCT_IOC_ENABLE (ctl0 127 0 "") 1;
     OpIoctl ACCT_IOC_TRACK_FILE (ctl0 8 0 "/bin/sh") 1] in
  acct_ena (driver_ctl d) = 127 /\
  let '(error, ctl', d') := acctioctl namei0 ACCT_IOC_DISABLE (ctl0 ACCT_ENA_FORK 0 "") 1 d in
  error = 0 /\ acct_ena (driver_ctl d') = 0 /\ acct_ena ctl' = 0 /\
  tracked (fun t => t) d' = ∅ /\ acct_fcount (driver_ctl d') = acct_fcount (driver_ctl d).
Proof. split; [reflexivity|]. apply (acct_disable_drops_all (fun t => t)). discriminate. Defined.

(** *** Which file events are recorded *)

(** The event [ena] on the file [n] with the conditions [flags] is audited: the
    event is on for the driver and for the file, and, when the event has
    conditions, the file asks for one of them. *)
Definition audited {T} (d : driver T) (n : trkvnode) (ena flags : Z) : Prop :=
  Z.land (acct_ena (driver_ctl d)) ena <> 0 /\ Z.land (trk_ena n) ena <> 0 /\
  (flags = 0 \/ Z.land (trk_flags n) flags <> 0).

Lemma parsepermissions_audited {T} (d : driver T) n ena flags :
  nz (trktree_parsepermissions d (Some n) ena flags) = false <-> audited d n ena flags.
Proof.
  unfold audited, trktree_parsepermissions. cbv zeta.
  set (fl := if flags =? 0 then trk_flags n else flags).
  assert ((fl = 0 \/ Z.land (trk_flags n) fl <> 0) <->
          (flags = 0 \/ Z.land (trk_flags n) flags <> 0)) as <-.
  { unfold fl. destruct (flags =? 0) eqn:E; cbool; [|tauto].
    rewrite Z.land_diag. tauto || (split; [auto|intros _; destruct (Z.eq_dec (trk_flags n) 0); auto]). }
  case_if; cbool; [split; [intros _; intuition|done]|].
  split; [intros He; discriminate He|]. intuition.
Qed.

(** [acct_open] on a file queues exactly one record when the file is tracked
    and the event is audited, and nothing otherwise.  The record carries the next
    sequence number, the kind and size of an open record, the process, the name
    under which the file was tracked, the mode and the error of the call; a
    reader that waits for an empty queue is woken up.  When no memory is
    available no record is queued but a sequence number is used up. *)
Theorem acct_open_records {T} `{RBTree vnodep trkvnode T} rb_map
    `{!TrkTree rb_map} m clk pr vn i0 i1 (d : driver T) :
  let d' := acct_open m clk pr vn i0 i1 d in
  match tracked rb_map d !! vn with
  | None => d' = d
  | Some n =>
    (~ audited d n ACCT_ENA_OPEN (u8 i0) -> d' = d) /\
    (audited d n ACCT_ENA_OPEN (u8 i0) ->
      ac_seqno d' = s32 (ac_seqno d + 1) /\
      if m then exists r, acct_list d' = r :: acct_list d /\
        node_seq r = u32 (ac_seqno d) /\ ac_type (acc r) = ACCT_MSG_OPEN /\
        ac_len (acc r) = 1112 /\ ac_pid (acc r) = ps_pid pr /\
        acc_body r = acct_open_b (strlcpy PATH_MAX (trk_name n)) i0 i1 /\
        (acct_list d = [] -> wakeups d' = wakeups d + 1)
      else acct_list d' = acct_list d)
  end.
Proof.
  intros d'. unfold d', acct_open. rewrite (lookup_tracked rb_map).
  destruct (tracked rb_map d !! vn) as [n|]; [|done].
  pose proof (parsepermissions_audited d n ACCT_ENA_OPEN (u8 i0)) as Hp.
  case_if.
  - split; [done|]. intros Ha. apply Hp in Ha. congruence.
  - split; [tauto|]. intros _. unfold record_event. destruct m; simpl; [|done].
    unfold add_node. destruct (acct_list d) eqn:El; simpl; rewrite ?El; (split; [done|]);
      eexists; repeat split; try done; rewrite ?El; done.
Qed.

Definition sample_tracked : driver (gmap vnodep trkvnode) :=
  run_ops namei0 no_fault 100 10000
    [OpIoctl ACCT_IOC_ENABLE (ctl0 8 0 "") 1; OpIoctl ACCT_IOC_TRACK_FILE (ctl0 8 1 "/bin/sh") 1].

Lemma acct_open_records_witness :
  let d' := acct_open true clock0 process0 bin_sh 1 0 sample_tracked in
  match tracked (fun t => t) sample_tracked !! bin_sh with
  | None => d' = sample_tracked
  | Some n =>
    (~ audited sample_tracked n ACCT_ENA_OPEN (u8 1) -> d' = sample_tracked) /\
    (audited sample_tracked n ACCT_ENA_OPEN (u8 1) ->
      ac_seqno d' = s32 (ac_seqno sample_tracked + 1) /\
      exists r, acct_list d' = r :: acct_list sample_tracked /\
        node_seq r = u32 (ac_seqno sample_tracked) /\ ac_type (acc r) = ACCT_MSG_OPEN /\
        ac_len (acc r) = 1112 /\ ac_pid (acc r) = ps_pid process0 /\
        acc_body r = acct_open_b (strlcpy PATH_MAX (trk_name n)) 1 0 /\
        (acct_list sample_tracked = [] -> wakeups d' = wakeups sample_tracked + 1))
  end.
Proof. apply (acct_open_records (fun t => t) true clock0 process0 bin_sh 1 0 sample_tracked). Defined.

(** *** Renaming and unlinking a tracked file *)

Lemma rename_like_untracks {T} `{RBTree vnodep trkvnode T} rb_map
    `{!TrkTree rb_map} (d d1 : driver T) n :
  same_tracker d d1 -> tracked rb_map (trktree_vnoderemove d1 (trk_vnode n)).2 =
    delete (trk_vnode n) (tracked rb_map d).
Proof.
  intros [Ht _]. rewrite (vnoderemove_tracked rb_map). unfold tracked. by rewrite Ht.
Qed.

(** Renaming or unlinking a tracked file untracks that file and no other,
    whether or not the event is audited, unless the event is audited and there is
    no memory for its record; then the file stays tracked. *)
Theorem acct_unlink_untracks {T} `{RBTree vnodep trkvnode T} rb_map
    `{!TrkTree rb_map} m clk pr vn name e0 (d : driver T) :
  well_keyed (tracked rb_map d) ->
  (tracked rb_map (acct_unlink m clk pr vn e0 d) =
     if m then delete vn (tracked rb_map d)
     else match tracked rb_map d !! vn with
          | Some n => if nz (trktree_parsepermissions d (Some n) ACCT_ENA_UNLINK 0)
                      then delete vn (tracked rb_map d) else tracked rb_map d
          | None => tracked rb_map d
          end) /\
  (tracked rb_map (acct_rename m clk pr vn name e0 d) =
     if m then delete vn (tracked rb_map d)
     else match tracked rb_map d !! vn with
          | Some n => if nz (trktree_parsepermissions d (Some n) ACCT_ENA_RENAME 0)
                      then delete vn (tracked rb_map d) else tracked rb_map d
          | None => tracked rb_map d
          end).
Proof.
  intros Hw. unfold acct_unlink, acct_rename. rewrite !(lookup_tracked rb_map).
  destruct (tracked rb_map d !! vn) as [n|] eqn:E.
  - assert (trk_vnode n = vn) as Hk by by apply Hw.
    split; case_if; destruct m; cbn [negb]; try done;
      rewrite (rename_like_untracks rb_map d); rewrite ?Hk; try done;
      apply record_same.
  - simpl. rewrite delete_id by done. by destruct m.
Qed.

Lemma acct_unlink_untracks_witness :
  let d : driver (gmap vnodep trkvnode) := run_ops namei0 no_fault 100 10000
    [OpIoctl ACCT_IOC_TRACK_FILE (ctl0 8 0 "/bin/sh") 1] in
  is_Some (tracked (fun t => t) d !! bin_sh) /\
  tracked (fun t => t) (acct_unlink true clock0 process0 bin_sh 0 d) =
    delete bin_sh (tracked (fun t => t) d) /\
  tracked (fun t => t) (acct_rename true clock0 process0 bin_sh "/bin/ksh" 0 d) =
    delete bin_sh (tracked (fun t => t) d).
Proof.
  split; [by eexists|]. apply (acct_unlink_untracks (fun t => t) true).
  apply (run_ops_counted (fun t => t)). repeat constructor.
Defined.

(** *** Tracking a file and asking for its state *)

(** After a successful [ACCT_IOC_TRACK_FILE], [ACCT_IOC_FSTATUS] on any path
    that leads to the same file reports what the call returned: the file events
    and the conditions requested, added to those that the file already had, cut
    to 8 bits; the other tracked files are unchanged. *)
Theorem acct_track_then_status {T} `{RBTree vnodep trkvnode T} rb_map
    `{!TrkTree rb_map} namei (ctl ctl2 : acct_ctl) p p2 v (d : driver T) :
  well_keyed (tracked rb_map d) ->
  path_to_vnode namei p (acct_path ctl) = Some v ->
  path_to_vnode namei p2 (acct_path ctl2) = Some v ->
  let old := default (Trkvnode (trk_path_copy (acct_path ctl)) 0 0 v) (tracked rb_map d !! v) in
  let '(error, ctl', d') := acctioctl namei ACCT_IOC_TRACK_FILE ctl p d in
  let '(error2, ctl2', d2) := acctioctl namei ACCT_IOC_FSTATUS ctl2 p2 d' in
  error = 0 /\ error2 = 0 /\ d2 = d' /\
  acct_ena ctl' = u8 (Z.lor (trk_ena old) (Z.land (acct_ena ctl) F_ENA)) /\
  acct_cond ctl' = u8 (Z.lor (trk_flags old) (acct_cond ctl)) /\
  acct_ena ctl2' = acct_ena ctl' /\ acct_cond ctl2' = acct_cond ctl' /\
  (forall v', v' <> v -> tracked rb_map d' !! v' = tracked rb_map d !! v').
Proof.
  intros Hw Hp Hp2. simpl. unfold trktree_add_path, trktree_add_vnode. rewrite Hp.
  pose proof (add_vnode_tracked rb_map d v (acct_path ctl)) as Ha.
  destruct (trktree_add_vnode_unlocked d v (acct_path ctl)) as [n d1]; cbv zeta in Ha.
  destruct Ha as [Hn Ht]. simpl. unfold trktree_pathlookup, trktree_vnodelookup. rewrite Hp2. simpl.
  rewrite (rb_find_map (rb_map := rb_map)), (rb_modify_map (rb_map := rb_map)).
  assert (trk_vnode n = v) as Hv.
  { subst n. destruct (tracked rb_map d !! v) eqn:E; simpl; [by apply Hw|done]. }
  assert (rb_map (f_tracker d1) !! v = Some n) as Hl.
  { fold (tracked rb_map d1). rewrite Ht, Hn. destruct (tracked rb_map d !! v) eqn:E; simpl; [done|].
    by rewrite lookup_insert_eq. }
  rewrite Hv, lookup_alter_eq, Hl. simpl. subst n.
  repeat (split; [done|]). intros v' Hne. unfold tracked at 1; simpl.
  rewrite (rb_modify_map (rb_map := rb_map)), lookup_alter_ne by done.
  fold (tracked rb_map d1). rewrite Ht.
  destruct (tracked rb_map d !! v); [done|]. by rewrite lookup_insert_ne.
Qed.

Lemma acct_track_then_status_witness :
  let ctl := ctl0 (Z.lor ACCT_ENA_OPEN ACCT_ENA_EXEC) 3 "/bin/sh" in
  let '(error, ctl', d') := acctioctl namei0 ACCT_IOC_TRACK_FILE ctl 1
    (acctattach : driver (gmap vnodep trkvnode)) in
  let '(error2, ctl2', d2) := acctioctl namei0 ACCT_IOC_FSTATUS ctl 1 d' in
  error = 0 /\ acct_ena ctl' = 8 /\ acct_cond ctl' = 3 /\
  acct_ena ctl2' = 8 /\ acct_cond ctl2' = 3.
Proof.
  intros ctl.
  pose proof (acct_track_then_status (fun t => t) namei0 ctl ctl 1 1 bin_sh
    (acctattach : driver (gmap vnodep trkvnode)) (map_Forall_empty _) eq_refl eq_refl) as Hp.
  simpl in *. destruct Hp as (? & _ & _ & ? & ? & ? & ? & _). repeat split; congruence.
Defined.
