(* ===== verification/Pfexecvar.v ===== *)
(** * The data that pfexec's kernel part and daemon share
    ([0.syscall-pfexec-obsd/src/kern/pfexecvar.h], [pfexec.h],
    [0.syscall-pfexec-obsd/src/pfexecd/pfexecd.h]) *)

From S2P Require Import Prelude.

(** ** Limits of OpenBSD *)
Definition ARG_MAX := 524288.
Definition NGROUPS_MAX := 16.
Definition LOGIN_NAME_MAX := 32.
Definition PATH_MAX := 1024.
Definition UID_MAX := 4294967295.
Definition GID_MAX := 4294967295.
Definition EPERM := 1.
Definition EINVAL := 22.

(** ** Strings inside areas

    An area ([pfr_argarea], [pfr_envarea]) is a block of bytes; it is the Rocq
    string of its bytes up to the last that is not NUL, so that NUL bytes may
    occur in it and every byte past its end is NUL. *)

Definition NUL : Ascii.ascii := Ascii.zero.

(** The area from byte [off] on. *)
Fixpoint area_drop (n : nat) (s : string) : string :=
  match n, s with
  | O, _ => s
  | S n, String _ s => area_drop n s
  | S _, EmptyString => EmptyString
  end.

(** The C string that starts at the beginning of [s]. *)
Fixpoint cstr (s : string) : string :=
  match s with
  | EmptyString => EmptyString
  | String c s => if Ascii.eqb c NUL then EmptyString else String c (cstr s)
  end.

(** Writing the bytes [s] over an area from byte [off] on. *)
Fixpoint area_over (s a : string) : string :=
  match s, a with
  | EmptyString, _ => a
  | String c s, EmptyString => String c (area_over s EmptyString)
  | String c s, String _ a => String c (area_over s a)
  end.
Fixpoint area_write (off : nat) (s a : string) : string :=
  match off, a with
  | O, _ => area_over s a
  | S off, EmptyString => String NUL (area_write off s EmptyString)
  | S off, String c a => String c (area_write off s a)
  end.

(** [strncmp(a, b, n) == 0]. *)
Fixpoint strncmp_eq (a b : string) (n : Z) : bool :=
  if n <=? 0 then true else
  match a, b with
  | EmptyString, EmptyString => true
  | EmptyString, String cb _ => Ascii.eqb cb NUL
  | String ca _, EmptyString => Ascii.eqb ca NUL
  | String ca a, String cb b =>
    if Ascii.eqb ca cb then (if Ascii.eqb ca NUL then true else strncmp_eq a b (n - 1)) else false
  end.

(** ** Requests and responses *)

Record pfexec_arg := PfexecArg { pfa_offset : Z; pfa_len : Z }.

(** The arrays [pfr_argp] and [pfr_envp] have 1024 elements; the elements past
    the end of the list are zero, as both sides clear the structure first. *)
Definition arg_get (l : list pfexec_arg) (i : Z) : pfexec_arg :=
  default (PfexecArg 0 0) (l !! Z.to_nat i).

(** [struct pfexec_req]. *)
Record pfexec_req := PfexecReq {
  pfr_pid : Z; pfr_uid : Z; pfr_gid : Z; pfr_ngroups : Z; pfr_groups : list Z;
  pfr_req_flags : Z; pfr_req_user : string;
  pfr_path : string; pfr_argc : Z; pfr_argp : list pfexec_arg;
  pfr_envc : Z; pfr_envp : list pfexec_arg;
  pfr_argarea : string; pfr_envarea : string }.

(** [enum pfexecve_flags]. *)
Definition PFEXECVE_NOPROMPT := Z.shiftl 1 0.
Definition PFEXECVE_USER := Z.shiftl 1 1.
Definition PFEXECVE_ALL_FLAGS := Z.lor PFEXECVE_NOPROMPT PFEXECVE_USER.

(** [enum pfexec_resp_flags]. *)
Definition PFRESP_UID := Z.shiftl 1 0.
Definition PFRESP_GID := Z.shiftl 1 1.
Definition PFRESP_GROUPS := Z.shiftl 1 2.
Definition PFRESP_CHROOT := Z.shiftl 1 3.
Definition PFRESP_ENV := Z.shiftl 1 4.

(** [struct pfexec_resp]; [rp_groups] has [NGROUPS_MAX] elements. *)
Record pfexec_resp := PfexecResp {
  rp_flags : Z; rp_errno : Z; rp_uid : Z; rp_gid : Z;
  rp_ngroups : Z; rp_groups : list Z; rp_chroot : string;
  rp_envc : Z; rp_envp : list pfexec_arg; rp_envarea : string }.

Definition resp_zero : pfexec_resp :=
  PfexecResp 0 0 0 0 0 (replicate (Z.to_nat NGROUPS_MAX) 0) EmptyString 0 [] EmptyString.

(** ** Rules of pfexecd.conf *)

Definition PERMIT := 1.
Definition DENY := 2.
Definition NOPASS := 1.
Definition KEEPENV := 2.
Definition PERSIST := 4.
Definition NOLOG := 8.
Definition KEEPGRP := 16.
Definition CHROOT := 32.

(** [struct rule]; NULL pointers are [None]. *)
Record rule := Rule {
  r_action : Z; r_options : Z; r_ident : string; r_target : option string;
  r_cmd : option string; r_cmdargs : option (list string);
  r_envlist : option (list string); r_grplist : option (list string);
  r_chroot : option string }.

(** The part of [struct passwd] in use. *)
Record passwd := Passwd {
  pw_name : string; pw_uid : Z; pw_gid : Z; pw_dir : string; pw_shell : string }.

(** The user database of the system: [getpwnam], [getpwuid_r], [getgrnam] and
    [getgrouplist]. *)
Record userdb := Userdb {
  getpwnam : string -> option passwd;
  getpwuid : Z -> option passwd;
  getgrnam : string -> option Z;
  getgrouplist : string -> Z -> list Z }.

Lemma strncmp_eq_0 a b n : n <= 0 -> strncmp_eq a b n = true.
Proof. intros Hn. apply Z.leb_le in Hn. destruct a; simpl; by rewrite Hn. Qed.

(** With no NUL in [a], comparing at least one byte more than [a] has tells
    whether the C strings are equal. *)
Lemma strncmp_eq_full a b n :
  cstr a = a -> strlen a < n -> strncmp_eq a b n = true <-> cstr b = a.
Proof.
  unfold strlen. revert b n; induction a as [|c a IH]; intros b n Ha Hn; simpl in *.
  - replace (n <=? 0) with false by (symmetry; apply Z.leb_gt; lia).
    destruct b as [|cb b]; simpl; [done|]. by destruct (Ascii.eqb cb NUL).
  - destruct (Ascii.eqb c NUL) eqn:Ec; [done|]. injection Ha as Ha.
    replace (n <=? 0) with false by (symmetry; apply Z.leb_gt; lia).
    destruct b as [|cb b]; simpl; [done|].
    destruct (Ascii.eqb c cb) eqn:E.
    + apply Ascii.eqb_eq in E as <-. rewrite Ec, IH by (done || lia). split; [by intros ->|by intros [=]].
    + apply Ascii.eqb_neq in E. destruct (Ascii.eqb cb NUL); split; [done| |done|]; intros Hx; congruence.
Qed.

(** ** Areas as arrays *)

Lemma cstr_app_nul a b : cstr a = a -> cstr (a ++ String NUL b) = a.
Proof.
  induction a as [|c a IH]; simpl; [done|].
  destruct (Ascii.eqb c NUL); [done|]. intros [= Ha]. by rewrite IH.
Qed.

Lemma cstr_idemp s : cstr (cstr s) = cstr s.
Proof.
  induction s as [|c s IH]; simpl; [done|].
  destruct (Ascii.eqb c NUL) eqn:E; simpl; [done|]. by rewrite E, IH.
Qed.

Lemma area_over_nil s : area_over s "" = s.
Proof. induction s; simpl; by f_equal. Qed.

Lemma area_drop_length n s : (n <= String.length s)%nat -> String.length (area_drop n s) = (String.length s - n)%nat.
Proof. revert s; induction n; intros [|c s] Hn; simpl in *; try lia. apply IHn. lia. Qed.

(** Writing right behind the end of an area appends to it. *)
Lemma area_write_end s a : area_write (String.length a) s a = (a ++ s)%string.
Proof. induction a; simpl; [apply area_over_nil|]. by rewrite IHa. Qed.

Lemma area_drop_app n a b :
  (n <= String.length a)%nat -> area_drop n (a ++ b) = (area_drop n a ++ b)%string.
Proof. revert a; induction n; intros [|c a] Hn; simpl in *; try lia; try done. apply IHn. lia. Qed.

Lemma area_drop_end a b : area_drop (String.length a) (a ++ b) = b.
Proof. induction a; simpl; [done|done]. Qed.

(** A C string inside an area is not changed by what is appended to it. *)
Lemma cstr_drop_app n a b :
  (exists x y, area_drop n a = (x ++ String NUL y)%string /\ cstr x = x) ->
  (n <= String.length a)%nat -> cstr (area_drop n (a ++ b)) = cstr (area_drop n a).
Proof.
  intros (x & y & Hd & Hx) Hn. rewrite area_drop_app, Hd by done.
  rewrite string_app_assoc.
  change ((String NUL y) ++ b)%string with (String NUL (y ++ b)).
  by rewrite !cstr_app_nul.
Qed.
