(* ===== verification/PfexecEnv.v ===== *)
(** * The environment of a pfexec'd command
    ([0.syscall-pfexec-obsd/src/pfexecd/env.c])

    [prepenv] builds the environment that the new program gets, out of the rule,
    the entry of the target user and the environment of the caller.  It keeps
    the variables in a tree keyed by name.  Allocation failures end the daemon
    ([err]) and are not modelled. *)

From S2P Require Import Prelude RBTree Pfexecvar.

(** [strchr(e, '=')]: the bytes before and after the first equals sign. *)
Fixpoint split_eq (s : string) : option (string * string) :=
  match s with
  | EmptyString => None
  | String c s =>
    if Ascii.eqb c "="%char then Some (EmptyString, s)
    else '(k, v) ← split_eq s; Some (String c k, v)
  end.

(** The inner loop of [find_in_env]: what is left of [cp] after [i] equal
    bytes. *)
Fixpoint match_name (i : nat) (np cp : string) : option string :=
  match i with
  | O => Some cp
  | S i =>
    match cp, np with
    | String c cp, String n np => if Ascii.eqb c n then match_name i np cp else None
    | _, _ => None
    end
  end.

(** [find_in_env], with the offset 0 that its only caller passes. *)
Fixpoint find_in_env (name : string) (len : nat) (my_env : list string) : option string :=
  match my_env with
  | [] => None
  | e :: p =>
    match match_name len name e with
    | Some (String c cp) => if Ascii.eqb c "="%char then Some cp else find_in_env name len p
    | _ => find_in_env name len p
    end
  end.

(** The loop of [get_my_env]: the length up to an equals sign. *)
Fixpoint name_len (np : string) : nat :=
  match np with
  | EmptyString => O
  | String c np => if Ascii.eqb c "="%char then O else S (name_len np)
  end.

(** [get_my_env]. *)
Definition get_my_env (name : string) (my_env : list string) : option string :=
  find_in_env name (name_len name) my_env.

Definition NAME_SIZE := 1024.       (* sizeof(name) *)
Definition safepath : string := "/bin:/sbin:/usr/bin:/usr/sbin:/usr/local/bin:/usr/local/sbin".
Definition copyset : list string := ["DISPLAY"; "TERM"]%string.

(** [struct env]: the tree of the nodes and their count, a [u_int]. *)
Record env (T : Type) := Env { root : T; count : Z }.
Arguments Env {T}.
Arguments root {T}.
Arguments count {T}.

Section Environment.
Context {T : Type} `{RBTree string string T}.
Implicit Types e : env T.

(** [addnode]: the count grows whether or not the name was there. *)
Definition addnode e (key value : string) : env T :=
  Env (rb_insert key value (root e)).2 (u32 (count e + 1)).

(** An insertion that ignores a name that is there already. *)
Definition addnode_new e (key value : string) : env T :=
  match rb_insert key value (root e) with
  | (Some _, t) => Env t (count e)
  | (None, t) => Env t (u32 (count e + 1))
  end.

(** Removing a name, as [fillenv] does before it assigns one. *)
Definition unsetenv e (key : string) : env T :=
  match rb_find key (root e) with
  | Some _ => Env (rb_remove key (root e)).2 (u32 (count e - 1))
  | None => e
  end.

(** One turn of the loop of [fillenv]. *)
Definition fillenv_step (my_env : list string) e (x : string) : env T :=
  let eq := split_eq x in
  let name := match eq with None => x | Some (k, _) => k end in
  if NAME_SIZE - 1 <? strlen name then e else
  let minus := match name with String c _ => Ascii.eqb c "-"%char | EmptyString => false end in
  let key := match name with String _ n => if minus then n else name | EmptyString => name end in
  let e := unsetenv e key in
  if minus then e else
  let val := match eq with
    | Some (_, String c v) => if Ascii.eqb c "$"%char then get_my_env v my_env else Some (String c v)
    | Some (_, EmptyString) => Some EmptyString
    | None => get_my_env name my_env
    end in
  match val with
  | Some v => addnode e name v
  | None => e
  end.

(** [fillenv]. *)
Definition fillenv e (envlist my_env : list string) : env T :=
  foldl (fillenv_step my_env) e envlist.

(** One turn of the [KEEPENV] loop of [createenv]. *)
Definition keepenv_step e (x : string) : env T :=
  match split_eq x with
  | None => e
  | Some (EmptyString, _) => e
  | Some (name, v) => if NAME_SIZE - 1 <? strlen name then e else addnode_new e name v
  end.

(** [createenv].  The last insertion has the key ["SHELL"], as in the source. *)
Definition createenv (r : rule) (targpw : passwd) (my_env : list string) : env T :=
  let e := Env rb_empty 0 in
  let e := addnode e "PFEXEC_USER" (r_ident r) in
  let e := addnode e "HOME" (pw_dir targpw) in
  let e := addnode e "LOGNAME" (pw_name targpw) in
  let e := addnode e "USER" (pw_name targpw) in
  let e := addnode e "SHELL" (pw_shell targpw) in
  let e := fillenv e copyset my_env in
  let e := if nz (Z.land (r_options r) KEEPENV) then foldl keepenv_step e my_env else e in
  addnode_new e "SHELL" safepath.

(** [flattenenv]: a vector of [count + 1] slots is filled with one string per
    node and a NULL. *)
Definition flattenenv e : ub (list string) :=
  let l := rb_elems (root e) in
  if Z.of_nat (length l) + 1 <=? u32 (count e + 1)
  then Ok ((fun '(k, v) => (k ++ "=" ++ v)%string) <$> l) else UB out_of_bounds.

(** [prepenv]. *)
Definition prepenv (r : rule) (targpw : passwd) (my_env : list string) : ub (list string) :=
  let e := createenv r targpw my_env in
  let e := match r_envlist r with Some l => fillenv e l my_env | None => e end in
  flattenenv e.
End Environment.

(** ** Names and values *)

Lemma split_eq_key x k v : split_eq x = Some (k, v) -> split_eq k = None.
Proof.
  revert k; induction x as [|c x IH]; intros k Hx; simpl in *; [done|].
  destruct (Ascii.eqb c "=") eqn:Ec; [by injection Hx as <- <-|].
  destruct (split_eq x) as [[k0 v0]|]; simpl in Hx; [|done]. injection Hx as <- <-.
  simpl. rewrite Ec. by rewrite (IH k0).
Qed.

Lemma split_eq_join k v : split_eq k = None -> split_eq (k ++ "=" ++ v) = Some (k, v).
Proof.
  induction k as [|c k IH]; simpl; [done|]. destruct (Ascii.eqb c "="); [done|].
  destruct (split_eq k) as [[]|]; [done|]. intros _. by rewrite IH.
Qed.

(** ** The environment as a map *)

Section MapView.
Context {T : Type} `{RBTree string string T} (rb_map : T -> gmap string string)
  `{!RBTreeLaws string string T rb_map}.
Implicit Types e : env T.

Definition vars e : gmap string string := rb_map (root e).

(** The count is the number of nodes, as long as it stays below 2^32. *)
Definition count_ok e : Prop := count e = u32 (Z.of_nat (size (vars e))).

Lemma vars_addnode e k v :
  vars (addnode e k v) = match vars e !! k with Some _ => vars e | None => <[k := v]> (vars e) end.
Proof. apply (rb_insert_map (rb_map := rb_map)). Qed.

Lemma vars_addnode_new e k v :
  vars (addnode_new e k v) = match vars e !! k with Some _ => vars e | None => <[k := v]> (vars e) end.
Proof.
  unfold addnode_new, vars.
  pose proof (rb_insert_map (rb_map := rb_map) k v (root e)) as Hm.
  by destruct (rb_insert k v (root e)) as [[o|] t].
Qed.

Lemma count_addnode e k v : vars e !! k = None -> count_ok e -> count_ok (addnode e k v).
Proof.
  unfold count_ok. intros Hk Hc. rewrite vars_addnode, Hk, map_size_insert_None by done.
  simpl. rewrite Hc, uN_add_l. f_equal. lia.
Qed.

Lemma count_addnode_new e k v : count_ok e -> count_ok (addnode_new e k v).
Proof.
  unfold count_ok. intros Hc. rewrite vars_addnode_new. unfold addnode_new.
  pose proof (rb_insert_old (rb_map := rb_map) k v (root e)) as Ho. fold (vars e) in Ho.
  destruct (rb_insert k v (root e)) as [o t]. simpl in Ho; subst o.
  destruct (vars e !! k) eqn:E; simpl; [done|].
  rewrite map_size_insert_None, Hc, uN_add_l by done. f_equal. lia.
Qed.

Lemma vars_unsetenv e k : vars (unsetenv e k) = delete k (vars e).
Proof.
  unfold unsetenv, vars. rewrite (rb_find_map (rb_map := rb_map)).
  destruct (rb_map (root e) !! k) eqn:E; simpl.
  - apply (rb_remove_map (rb_map := rb_map)).
  - by rewrite delete_id.
Qed.

Lemma count_unsetenv e k : count_ok e -> count_ok (unsetenv e k).
Proof.
  unfold count_ok. intros Hc. rewrite vars_unsetenv. unfold unsetenv.
  rewrite (rb_find_map (rb_map := rb_map)). fold (vars e).
  destruct (vars e !! k) eqn:E; simpl.
  - assert (size (vars e) ≠ 0%nat) by (eapply map_size_ne_0_lookup_2; eauto).
    rewrite map_size_delete_Some, Hc, uN_sub_l by eauto. f_equal. lia.
  - by rewrite map_size_delete_None.
Qed.

(** The name that an entry of [envlist] sets or, with a minus sign, unsets. *)
Definition target_name (x : string) : string :=
  let name := match split_eq x with None => x | Some (k, _) => k end in
  match name with
  | String c n => if Ascii.eqb c "-"%char then n else name
  | EmptyString => EmptyString
  end.

(** A turn of [fillenv] is one of: nothing, unset, or unset and assign. *)
Lemma fillenv_step_cases my_env e x :
  let k := target_name x in
  fillenv_step my_env e x = e \/ fillenv_step my_env e x = unsetenv e k \/
  exists v, fillenv_step my_env e x = addnode (unsetenv e k) k v /\ split_eq k = None.
Proof.
  intros k. unfold fillenv_step. cbv zeta. case_if; [by left|]. right.
  unfold k, target_name.
  set (name := match split_eq x with None => x | Some (k, _) => k end).
  assert (split_eq name = None) as Hn.
  { unfold name. destruct (split_eq x) as [[k0 v0]|] eqn:Ex; [|done]. by eapply split_eq_key. }
  replace (match name with
    | EmptyString => name
    | String _ n => if match name with EmptyString => false | String c _ => Ascii.eqb c "-"%char end
                    then n else name end)
    with (match name with
    | EmptyString => EmptyString
    | String c n => if Ascii.eqb c "-"%char then n else name end) by (by destruct name).
  clearbody name.
  destruct name as [|c n]; [|destruct (Ascii.eqb c "-"%char); [by left|]];
    match goal with |- context [match ?x with Some v => _ | None => _ end] => destruct x as [v|] end;
    eauto.
Qed.

Lemma count_fillenv_step my_env e x : count_ok e -> count_ok (fillenv_step my_env e x).
Proof.
  intros Hc. destruct (fillenv_step_cases my_env e x) as [->|[->|(v & -> & _)]];
    auto using count_unsetenv.
  apply count_addnode; [|by apply count_unsetenv].
  by rewrite vars_unsetenv, lookup_delete_eq.
Qed.

Lemma size_insert_le (m : gmap string string) k v :
  (size (match m !! k with Some _ => m | None => <[k := v]> m end) <= S (size m))%nat.
Proof. destruct (m !! k) eqn:E; [lia|]. by rewrite map_size_insert_None. Qed.

Lemma size_unsetenv e k : (size (vars (unsetenv e k)) <= size (vars e))%nat.
Proof. rewrite vars_unsetenv, map_size_delete. destruct (vars e !! k); simpl; lia. Qed.

Lemma size_fillenv_step my_env e x :
  (size (vars (fillenv_step my_env e x)) <= S (size (vars e)))%nat.
Proof.
  destruct (fillenv_step_cases my_env e x) as [->|[->|(v & -> & _)]]; [lia| |].
  - pose proof (size_unsetenv e (target_name x)). lia.
  - rewrite vars_addnode. etrans; [apply size_insert_le|].
    pose proof (size_unsetenv e (target_name x)). lia.
Qed.

Lemma fillenv_step_other my_env e x k :
  k <> target_name x -> vars (fillenv_step my_env e x) !! k = vars e !! k.
Proof.
  intros Hk. destruct (fillenv_step_cases my_env e x) as [->|[->|(v & -> & _)]]; [done| |].
  - by rewrite vars_unsetenv, lookup_delete_ne.
  - rewrite vars_addnode, vars_unsetenv, lookup_delete_eq.
    by rewrite lookup_insert_ne, lookup_delete_ne.
Qed.

(** Names of variables hold no equals sign. *)
Definition names_ok e : Prop := forall k, is_Some (vars e !! k) -> split_eq k = None.

Lemma names_addnode e k v : split_eq k = None -> names_ok e -> names_ok (addnode e k v).
Proof.
  intros Hk He i. rewrite vars_addnode. destruct (vars e !! k); [apply He|].
  destruct (decide (i = k)) as [->|Hne]; [done|]. rewrite lookup_insert_ne by done. apply He.
Qed.

Lemma names_unsetenv e k : names_ok e -> names_ok (unsetenv e k).
Proof.
  intros He i. rewrite vars_unsetenv, lookup_delete_is_Some. intros [_ Hx]. by apply He.
Qed.

Lemma names_fillenv_step my_env e x : names_ok e -> names_ok (fillenv_step my_env e x).
Proof.
  intros He. destruct (fillenv_step_cases my_env e x) as [->|[->|(v & -> & ?)]];
    auto using names_unsetenv, names_addnode.
Qed.

Lemma names_addnode_new e k v : split_eq k = None -> names_ok e -> names_ok (addnode_new e k v).
Proof.
  intros Hk He i. rewrite vars_addnode_new. rewrite <- vars_addnode.
  by apply names_addnode.
Qed.

(** A turn of the [KEEPENV] loop: nothing, or an insertion. *)
Lemma keepenv_step_cases e x :
  keepenv_step e x = e \/
  exists k v, keepenv_step e x = addnode_new e k v /\ split_eq k = None /\ split_eq x = Some (k, v).
Proof.
  unfold keepenv_step. destruct (split_eq x) as [[[|c k] v]|] eqn:E; auto.
  case_if; [auto|]. right. eexists _, _. split; [done|]. split; [|done]. by eapply split_eq_key.
Qed.
End MapView.

(** ** Properties *)

Section Prepenv.
Context {T : Type} `{RBTree string string T} (rb_map : T -> gmap string string)
  `{!RBTreeLaws string string T rb_map}.
Implicit Types e : env T.
Local Abbreviation vars := (vars rb_map).
Local Abbreviation count_ok := (count_ok rb_map).
Local Abbreviation names_ok := (names_ok rb_map).

(** The variables that [createenv] takes from the rule and the target user. *)
Definition fixed_vars (r : rule) (pw : passwd) : list (string * string) :=
  [("PFEXEC_USER", r_ident r); ("HOME", pw_dir pw); ("LOGNAME", pw_name pw);
   ("USER", pw_name pw); ("SHELL", pw_shell pw)]%string.

Definition env_base (r : rule) (pw : passwd) : env T :=
  foldl (fun e '(k, v) => addnode e k v) (Env rb_empty 0) (fixed_vars r pw).

Definition env_ok e : Prop := count_ok e /\ names_ok e.

Lemma env_base_vars r pw : vars (env_base r pw) = list_to_map (reverse (fixed_vars r pw)).
Proof.
  unfold env_base. simpl. rewrite !(vars_addnode rb_map). unfold PfexecEnv.vars at 1; simpl.
  unfold PfexecEnv.vars; simpl. rewrite (rb_map_empty (rb_map := rb_map)).
  rewrite lookup_empty. repeat (rewrite lookup_insert_ne by done). rewrite lookup_empty. done.
Qed.

Lemma env_base_ok r pw : env_ok (env_base r pw).
Proof.
  split.
  - unfold PfexecEnv.count_ok. rewrite env_base_vars. reflexivity.
  - intros k. rewrite env_base_vars. simpl. intros Hk.
    repeat (rewrite lookup_insert in Hk; case_decide; [by subst k|]).
    rewrite lookup_empty in Hk. by destruct Hk.
Qed.

(** What [createenv] has built before its last insertion, and the final
    environment. *)
Definition env_caller r pw my_env : env T :=
  let e := fillenv (env_base r pw) copyset my_env in
  if nz (Z.land (r_options r) KEEPENV) then foldl keepenv_step e my_env else e.
Definition env_final r pw my_env : env T :=
  fillenv (createenv r pw my_env) (default [] (r_envlist r)) my_env.

Lemma prepenv_final r pw my_env : prepenv r pw my_env = flattenenv (env_final r pw my_env).
Proof. unfold prepenv, env_final. by destruct (r_envlist r). Qed.

Lemma createenv_caller r pw my_env :
  createenv r pw my_env = addnode_new (env_caller r pw my_env) "SHELL" safepath.
Proof. done. Qed.

Lemma fillenv_ok e l my_env : env_ok e -> env_ok (fillenv e l my_env).
Proof.
  intros He. unfold fillenv. apply foldl_inv; [done|].
  intros ? ? _ [? ?]. split; [by apply count_fillenv_step|by apply names_fillenv_step].
Qed.

Lemma keepenv_ok e l : env_ok e -> env_ok (foldl keepenv_step e l).
Proof.
  intros He. apply foldl_inv; [done|]. intros e1 x _ [Hc Hn].
  destruct (keepenv_step_cases e1 x) as [->|(k & v & -> & ? & _)]; [done|].
  split; [by apply count_addnode_new|by apply names_addnode_new].
Qed.

Lemma env_final_ok r pw my_env : env_ok (env_final r pw my_env).
Proof.
  apply fillenv_ok. rewrite createenv_caller.
  assert (env_ok (env_caller r pw my_env)) as [Hc Hn].
  { unfold env_caller. case_if; [apply keepenv_ok|]; apply fillenv_ok, env_base_ok. }
  split; [by apply count_addnode_new|by apply names_addnode_new].
Qed.

Lemma size_addnode_new e k v : (size (vars (addnode_new e k v)) <= S (size (vars e)))%nat.
Proof. rewrite (vars_addnode_new rb_map). apply size_insert_le. Qed.

Lemma size_fillenv e l my_env : (size (vars (fillenv e l my_env)) <= size (vars e) + length l)%nat.
Proof. unfold fillenv. apply (foldl_measure _ (fun e => size (vars e))). intros. apply (size_fillenv_step rb_map). Qed.

Lemma size_keepenv e l : (size (vars (foldl keepenv_step e l)) <= size (vars e) + length l)%nat.
Proof.
  apply (foldl_measure _ (fun e => size (vars e))). intros e1 x.
  destruct (keepenv_step_cases e1 x) as [->|(k & v & -> & _)]; [lia|]. apply size_addnode_new.
Qed.

Lemma size_final r pw my_env :
  (size (vars (env_final r pw my_env)) <= 8 + length my_env + length (default [] (r_envlist r)))%nat.
Proof.
  unfold env_final. etrans; [apply size_fillenv|]. rewrite createenv_caller.
  assert (size (vars (env_base r pw)) = 5%nat) as Hb by (rewrite env_base_vars; reflexivity).
  pose proof (size_fillenv (env_base r pw) copyset my_env) as Hf.
  pose proof (size_addnode_new (env_caller r pw my_env) "SHELL" safepath) as Hs.
  assert (size (vars (env_caller r pw my_env)) <= 7 + length my_env)%nat.
  { unfold env_caller. case_if; [etrans; [apply size_keepenv|]|]; simpl in *; lia. }
  lia.
Qed.

(** Later insertions and the assignments to other names keep a variable. *)
Lemma final_keeps r pw my_env k v :
  vars (env_base r pw) !! k = Some v ->
  k ∉ copyset -> k ∉ target_name <$> default [] (r_envlist r) ->
  vars (env_final r pw my_env) !! k = Some v.
Proof.
  intros Hb Hcopy Henv. unfold env_final, fillenv.
  apply (foldl_inv (fun e => vars e !! k = Some v)).
  2: { intros e1 x Hx He. rewrite (fillenv_step_other rb_map); [done|].
       intros ->. apply Henv. apply list_elem_of_fmap. eauto. }
  rewrite createenv_caller, (vars_addnode_new rb_map).
  assert (vars (env_caller r pw my_env) !! k = Some v) as Hc.
  { unfold env_caller.
    assert (vars (fillenv (env_base r pw) copyset my_env) !! k = Some v) as Hf.
    { unfold fillenv. apply (foldl_inv (fun e => vars e !! k = Some v)); [done|].
      intros e1 x Hx He. rewrite (fillenv_step_other rb_map); [done|]. intros ->. apply Hcopy.
      change copyset with (target_name <$> copyset). apply list_elem_of_fmap. eauto. }
    case_if; [|done]. apply (foldl_inv (fun e => vars e !! k = Some v)); [done|].
    intros e1 x _ He. destruct (keepenv_step_cases e1 x) as [->|(k1 & v1 & -> & _)]; [done|].
    rewrite (vars_addnode_new rb_map). destruct (vars e1 !! k1) eqn:E1; [done|].
    rewrite lookup_insert_ne; [done|]. intros ->. congruence. }
  destruct (vars (env_caller r pw my_env) !! "SHELL"%string) eqn:E1; [done|].
  rewrite lookup_insert_ne; [done|]. intros <-. congruence.
Qed.

(** The strings that [flattenenv] writes. *)
Lemma flattenenv_ok e :
  env_ok e -> Z.of_nat (size (vars e)) < 2 ^ 32 - 1 ->
  exists l, flattenenv e = Ok l /\ length l = size (vars e) /\
    (forall k v, vars e !! k = Some v -> (k ++ "=" ++ v)%string ∈ l) /\
    (forall s k v, s ∈ l -> split_eq s = Some (k, v) -> vars e !! k = Some v).
Proof.
  intros [Hc Hn] Hs. unfold flattenenv. rewrite (rb_elems_length rb_map). fold (vars e).
  rewrite Hc, uN_add_l, !uN_small by lia. case_if; cbool; [|lia].
  eexists. split; [done|]. rewrite length_fmap, (rb_elems_length rb_map). split; [done|].
  split.
  - intros k v Hk. apply list_elem_of_fmap. exists (k, v). split; [done|].
    rewrite (rb_elems_map (rb_map := rb_map)). by apply elem_of_map_to_list.
  - intros s k v (kv & -> & Hkv)%list_elem_of_fmap. destruct kv as [k1 v1].
    rewrite (rb_elems_map (rb_map := rb_map)) in Hkv. apply elem_of_map_to_list in Hkv.
    rewrite split_eq_join by (apply Hn; eauto). by intros [= <- <-].
Qed.
End Prepenv.

(** C33: [prepenv] always produces an environment, and never writes past the
    vector that it allocates: the node count that sizes the vector is the number
    of variables, as long as the entries of the caller and of the rule number
    fewer than 2^32 - 10. *)
Theorem prepenv_fits {T} `{RBTree string string T} rb_map
    `{!RBTreeLaws string string T rb_map} r pw my_env :
  Z.of_nat (length my_env + length (default [] (r_envlist r))) < 2 ^ 32 - 10 ->
  exists l, prepenv r pw my_env = Ok l /\
    length l = size (vars rb_map (env_final r pw my_env)).
Proof.
  intros Hlen. rewrite prepenv_final.
  pose proof (size_final rb_map r pw my_env).
  destruct (flattenenv_ok rb_map (env_final r pw my_env)) as (l & -> & ? & _);
    [by apply (env_final_ok rb_map)|lia|]. eauto.
Qed.

Definition rule0 (options : Z) (envlist : option (list string)) : rule :=
  Rule PERMIT options "alice" None None None envlist None None.
Definition pw0 : passwd := Passwd "root" 0 0 "/root" "/bin/ksh".

Lemma prepenv_fits_witness :
  exists l, prepenv (rule0 KEEPENV (Some ["-HOME"; "A=$B"]%string)) pw0
      ["HOME=/evil"; "B=x"; "TERM=vt220"]%string = Ok l /\
    length l = size (vars (fun t => t)
      (env_final (rule0 KEEPENV (Some ["-HOME"; "A=$B"]%string)) pw0
        ["HOME=/evil"; "B=x"; "TERM=vt220"]%string)).
Proof. apply (prepenv_fits (fun t => t)). vm_compute. reflexivity. Defined.

(** C4: The variables that the daemon fixes cannot be changed by the caller.
    For a name among PFEXEC_USER, HOME, LOGNAME, USER and SHELL that the setenv
    section of the rule does not mention, the environment defines the name
    exactly once, with the value taken from the rule or the target user,
    whatever environment the caller passes and with or without [KEEPENV]. *)
Theorem prepenv_fixed_vars {T} `{RBTree string string T} rb_map
    `{!RBTreeLaws string string T rb_map} r pw my_env k v :
  Z.of_nat (length my_env + length (default [] (r_envlist r))) < 2 ^ 32 - 10 ->
  (k, v) ∈ fixed_vars r pw ->
  k ∉ target_name <$> default [] (r_envlist r) ->
  exists l, prepenv r pw my_env = Ok l /\ (k ++ "=" ++ v)%string ∈ l /\
    forall s v', s ∈ l -> split_eq s = Some (k, v') -> v' = v.
Proof.
  intros Hlen Hk Hnot. rewrite prepenv_final.
  pose proof (size_final rb_map r pw my_env).
  assert (vars rb_map (env_final r pw my_env) !! k = Some v) as Hv.
  { apply final_keeps; [done| | |done].
    - rewrite env_base_vars by done. apply elem_of_list_to_map_1; [|by rewrite elem_of_reverse].
      apply (bool_decide_unpack _). reflexivity.
    - intros Hc. unfold fixed_vars, copyset in *. set_solver. }
  destruct (flattenenv_ok rb_map (env_final r pw my_env)) as (l & Hl & _ & Hin & Huniq);
    [by apply (env_final_ok rb_map)|lia|].
  exists l. split; [done|]. split; [by apply Hin|].
  intros s v' Hs He. specialize (Huniq s k v' Hs He). congruence.
Qed.

Lemma prepenv_fixed_vars_witness :
  exists l, prepenv (rule0 KEEPENV None) pw0 ["HOME=/evil"; "PATH=/evil"]%string = Ok l /\
    ("HOME" ++ "=" ++ "/root")%string ∈ l /\
    forall s v', s ∈ l -> split_eq s = Some ("HOME"%string, v') -> v' = "/root"%string.
Proof.
  apply (prepenv_fixed_vars (fun t => t)).
  - vm_compute. reflexivity.
  - unfold fixed_vars. simpl. set_solver.
  - simpl. set_solver.
Defined.

(** Without [KEEPENV] and without a setenv section the new program gets no
    PATH: the search path that [createenv] adds last is offered under the name
    SHELL, which is always taken. *)
Theorem prepenv_no_path {T} `{RBTree string string T} rb_map
    `{!RBTreeLaws string string T rb_map} r pw my_env :
  Z.of_nat (length my_env) < 2 ^ 32 - 10 ->
  Z.land (r_options r) KEEPENV = 0 -> r_envlist r = None ->
  exists l, prepenv r pw my_env = Ok l /\
    forall s v, s ∈ l -> split_eq s <> Some ("PATH"%string, v).
Proof.
  intros Hlen Hkeep Henv. rewrite prepenv_final.
  pose proof (size_final rb_map r pw my_env) as Hs. rewrite Henv in Hs. simpl in Hs.
  destruct (flattenenv_ok rb_map (env_final r pw my_env)) as (l & Hl & _ & _ & Huniq);
    [by apply (env_final_ok rb_map)|lia|].
  exists l. split; [done|]. intros s v Hin He. specialize (Huniq s _ v Hin He).
  revert Huniq. unfold env_final. rewrite Henv. simpl.
  rewrite createenv_caller, (vars_addnode_new rb_map).
  assert (vars rb_map (env_caller r pw my_env) !! "PATH"%string = None) as Hp.
  { unfold env_caller. rewrite Hkeep. simpl. unfold fillenv; simpl.
    rewrite !(fillenv_step_other rb_map) by done. rewrite env_base_vars by done. reflexivity. }
  destruct (vars rb_map (env_caller r pw my_env) !! "SHELL"%string); [congruence|].
  rewrite lookup_insert_ne by done. congruence.
Qed.

Lemma prepenv_no_path_witness :
  exists l, prepenv (rule0 NOPASS None) pw0 ["PATH=/bin"; "TERM=vt220"]%string = Ok l /\
    forall s v, s ∈ l -> split_eq s <> Some ("PATH"%string, v).
Proof. apply (prepenv_no_path (fun t => t)); vm_compute; reflexivity. Defined.
