(* ===== verification/Pfexecd.v ===== *)
(** * The pfexec daemon ([0.syscall-pfexec-obsd/src/pfexecd/pfexecd.c])

    The kernel asks the daemon, over a socket that only root may connect to,
    whether a process may run a command as another user.  The daemon validates
    the request, finds the last rule of pfexecd.conf that matches it and answers
    with an error or with the credentials and the environment of the new program.

    Uses of a NULL pointer and writes outside of an array are values of [ub]. *)

From S2P Require Import Prelude RBTree Pfexecvar PfexecEnv.

(** ** Numbers in strings *)

Definition isspace (c : Ascii.ascii) : bool :=
  let n := Z.of_nat (Ascii.nat_of_ascii c) in (n =? 32) || ((9 <=? n) && (n <=? 13)).
Definition digit_value (c : Ascii.ascii) : option Z :=
  let n := Z.of_nat (Ascii.nat_of_ascii c) in
  if (48 <=? n) && (n <=? 57) then Some (n - 48) else None.

(** [strtoll(s, &ep, 10)] on a string whose end it must reach: the number, before
    the range check, when [ep] is moved and [*ep] is NUL. *)
Fixpoint digits (acc : Z) (s : string) : option Z :=
  match s with
  | EmptyString => Some acc
  | String c s => d ← digit_value c; digits (10 * acc + d) s
  end.
Definition digits1 (s : string) : option Z :=
  match s with EmptyString => None | String _ _ => digits 0 s end.
Fixpoint strtoll_all (s : string) : option Z :=
  match s with
  | EmptyString => None
  | String c s' =>
    if isspace c then strtoll_all s'
    else if Ascii.eqb c "-"%char then Z.opp <$> digits1 s'
    else if Ascii.eqb c "+"%char then digits1 s'
    else digits1 s
  end.

(** [strtonum(s, lo, hi, &errstr)]: the value, 0 on an error, and whether
    [errstr] is NULL. *)
Definition strtonum (s : string) (lo hi : Z) : Z * bool :=
  match strtoll_all s with
  | Some z => if (lo <=? z) && (z <=? hi) then (z, true) else (0, false)
  | None => (0, false)
  end.

(** ** Users and groups *)

Section Lookup.
Context (db : userdb).

(** [parseuid]: [*uid] and the result. *)
Definition parseuid (s : string) : Z * Z :=
  match getpwnam db s with
  | Some pw => if pw_uid pw =? UID_MAX then (pw_uid pw, -1) else (pw_uid pw, 0)
  | None =>
    let '(uid, ok) := strtonum s 0 (UID_MAX - 1) in
    if negb ok then (uid, -1) else (uid, 0)
  end.

(** [uidcheck]. *)
Definition uidcheck (s : string) (desired : Z) : Z :=
  let '(uid, rc) := parseuid s in
  if nz rc then -1 else
  if negb (uid =? desired) then -1 else 0.

(** [parsegid]. *)
Definition parsegid (s : string) : Z * Z :=
  match getgrnam db s with
  | Some gid => if gid =? GID_MAX then (gid, -1) else (gid, 0)
  | None =>
    let '(gid, ok) := strtonum s 0 (GID_MAX - 1) in
    if negb ok then (gid, -1) else (gid, 0)
  end.
End Lookup.

(** [prompt_password]: there is no prompt, and 0 means failure to its caller. *)
Definition prompt_password (req : pfexec_req) : Z := 0.

(** ** Environment areas *)

(** The C string at an offset of an area. *)
Definition area_cstr (area : string) (off : Z) : string := cstr (area_drop (Z.to_nat off) area).

(** [envarea_convert]: the strings that the elements of [ret] point to. *)
Definition envarea_convert (req : pfexec_req) : list string :=
  let max := pfr_envc req in
  let max := if 1024 <? max then 1024 else max in
  (fun i => area_cstr (pfr_envarea req) (pfa_offset (arg_get (pfr_envp req) i))) <$> seqZ 0 max.

(** [strlcpy(area + len, s, size)] into an area of [ARG_MAX] bytes: the area and
    the result, the length of [s].  A size of 0 writes nothing. *)
Definition area_strlcpy (area : string) (len : Z) (s : string) (size : Z) : ub (string * Z) :=
  if size =? 0 then Ok (area, strlen s) else
  let s' := strlcpy size s in
  if (0 <=? len) && (len + strlen s' + 1 <=? ARG_MAX)
  then Ok (area_write (Z.to_nat len) (s' ++ String NUL "") area, strlen s)
  else UB out_of_bounds.

(** The loop of [envarea_destroy_revert]; [max - len] is converted to
    [size_t] in the call of [strlcpy]. *)
Fixpoint revert_loop (from : list string) (envc max len : Z)
    (envp : list pfexec_arg) (area : string) : ub (Z * list pfexec_arg * string) :=
  match from with
  | [] => Ok (envc, envp, area)
  | s :: from =>
    if (envc <? 1024) && (0 <? max) then
      '(area, copied) ← area_strlcpy area len s (u64 (max - len));
      let copied := s32 (copied + 1) in
      revert_loop from (envc + 1) (max - copied) (len + copied)
        (envp ++ [PfexecArg (u32 len) (u32 copied)]) area
    else Ok (envc, envp, area)
  end.

(** [envarea_destroy_revert]. *)
Definition envarea_destroy_revert (from : list string) (resp : pfexec_resp) : ub pfexec_resp :=
  '(envc, envp, area) ← revert_loop from 0 ARG_MAX 0 [] (rp_envarea resp);
  let area := String.substring 0 (Z.to_nat (ARG_MAX - 1)) area in
  Ok (PfexecResp (rp_flags resp) (rp_errno resp) (rp_uid resp) (rp_gid resp)
        (rp_ngroups resp) (rp_groups resp) (rp_chroot resp) envc envp area).

(** ** Groups *)

(** The loop of [get_groups]: [prev] is the [gid] of the inner loop, which skips
    the elements equal to it without a change to [pfr_groups]. *)
Fixpoint groups_loop (groups : list Z) (prev : option Z) (cnt : Z) (out : list Z) : ub (Z * list Z) :=
  match groups with
  | [] => Ok (cnt, out)
  | gid :: groups =>
    if bool_decide (prev = Some gid) then groups_loop groups prev (cnt + 1) out
    else out ← array_set cnt gid out; groups_loop groups (Some gid) (cnt + 1) out
  end.

Definition set_groups (resp : pfexec_resp) (n : Z) (g : list Z) : pfexec_resp :=
  PfexecResp (rp_flags resp) (rp_errno resp) (rp_uid resp) (rp_gid resp) n g
    (rp_chroot resp) (rp_envc resp) (rp_envp resp) (rp_envarea resp).
Definition set_ids (resp : pfexec_resp) (uid gid : Z) : pfexec_resp :=
  PfexecResp (rp_flags resp) (rp_errno resp) uid gid (rp_ngroups resp) (rp_groups resp)
    (rp_chroot resp) (rp_envc resp) (rp_envp resp) (rp_envarea resp).
Definition add_flags (resp : pfexec_resp) (f : Z) : pfexec_resp :=
  PfexecResp (Z.lor (rp_flags resp) f) (rp_errno resp) (rp_uid resp) (rp_gid resp)
    (rp_ngroups resp) (rp_groups resp) (rp_chroot resp) (rp_envc resp) (rp_envp resp)
    (rp_envarea resp).
Definition set_errno (resp : pfexec_resp) (e : Z) : pfexec_resp :=
  PfexecResp (rp_flags resp) e (rp_uid resp) (rp_gid resp)
    (rp_ngroups resp) (rp_groups resp) (rp_chroot resp) (rp_envc resp) (rp_envp resp)
    (rp_envarea resp).
Definition set_chroot (resp : pfexec_resp) (c : string) : pfexec_resp :=
  PfexecResp (rp_flags resp) (rp_errno resp) (rp_uid resp) (rp_gid resp)
    (rp_ngroups resp) (rp_groups resp) c (rp_envc resp) (rp_envp resp) (rp_envarea resp).

(** The loop over [r->grplist]. *)
Fixpoint grplist_loop (db : userdb) (grplist : list string) (gs : Z) (gid : Z) (out : list Z)
    : Z * Z * list Z :=
  match grplist with
  | [] => (gs, gid, out)
  | g :: grplist =>
    if gs <? NGROUPS_MAX then
      let '(rgid, rc) := parsegid db g in
      if negb (rc =? -1)
      then grplist_loop db grplist (gs + 1) (if gs =? 0 then rgid else gid) (<[Z.to_nat gs := rgid]> out)
      else grplist_loop db grplist (gs + 1) gid out
    else (gs, gid, out)
  end.

Section Daemon.
Context {T : Type} `{RBTree string string T} (db : userdb).

(** [get_groups]: [getgrouplist] has room for [NGROUPS_MAX + 1] groups. *)
Definition get_groups (pw : passwd) (resp : pfexec_resp) : ub pfexec_resp :=
  let groups := take (Z.to_nat (NGROUPS_MAX + 1)) (getgrouplist db (pw_name pw) (pw_gid pw)) in
  '(cnt, out) ← groups_loop groups None 0 (rp_groups resp);
  Ok (set_groups resp cnt out).

(** ** Rules *)

(** The loop over [r->cmdargs]: [None] when it returns 0. *)
Fixpoint cmdargs_loop (req : pfexec_req) (max_args : Z) (cmdargs : list string) (i : Z) : option Z :=
  match cmdargs with
  | [] => Some i
  | a :: cmdargs =>
    let arg_data := arg_get (pfr_argp req) (i + 1) in
    let my_addr := area_drop (Z.to_nat (pfa_offset arg_data)) (pfr_argarea req) in
    if max_args <? i then None else
    if negb (strncmp_eq a my_addr (pfa_len arg_data)) then None else
    cmdargs_loop req max_args cmdargs (i + 1)
  end.

(** The part of [match] under [r->cmdargs]. *)
Definition match_args (req : pfexec_req) (cmdargs : list string) : bool :=
  let max_args := s32 (u32 (pfr_argc req - 1)) in
  if (match cmdargs with [] => true | _ => false end) && (0 <? max_args) then false else
  match cmdargs_loop req max_args cmdargs 0 with
  | None => false
  | Some i => negb (i <? max_args)
  end.

(** [match]. *)
Definition match_rule (req : pfexec_req) (r : rule) : bool :=
  let uid := pfr_uid req in
  let target := fst (parseuid db (pfr_req_user req)) in
  let cmd := pfr_path req in
  if nz (uidcheck db (r_ident r) uid) then false else
  if (if r_target r is Some t then nz (uidcheck db t target) else false) then false else
  match r_cmd r with
  | Some c =>
    if negb (String.eqb c cmd) then false else
    match r_cmdargs r with
    | Some args => match_args req args
    | None => true
    end
  | None => true
  end.

(** ** Answers *)

(** [craft_response]. *)
Definition craft_response (req : pfexec_req) (r : rule) (resp : pfexec_resp) : ub pfexec_resp :=
  let resp := add_flags resp PFRESP_UID in
  let target := fst (parseuid db (pfr_req_user req)) in
  let my_env := envarea_convert req in
  let targpw := getpwuid db target in
  targpw ← deref targpw;
  envp ← prepenv r targpw my_env;
  resp ← envarea_destroy_revert envp resp;
  let resp := set_ids resp (pw_uid targpw) (pw_gid targpw) in
  let resp :=
    match r_grplist r with
    | Some grplist =>
      let '(gs, gid, out) := grplist_loop db grplist 0 (rp_gid resp) (rp_groups resp) in
      let resp := set_groups (set_ids resp (rp_uid resp) gid) gs out in
      add_flags (add_flags resp PFRESP_GID) PFRESP_GROUPS
    | None => resp
    end in
  let resp :=
    if nz (Z.land (r_options r) KEEPGRP) then
      let gs := Z.min (pfr_ngroups req) NGROUPS_MAX in
      let out := take (Z.to_nat gs) (pfr_groups req) ++ drop (Z.to_nat gs) (rp_groups resp) in
      set_groups (set_ids resp (rp_uid resp) (pfr_gid req)) gs out
    else resp in
  resp ← (if rp_ngroups resp =? 0 then
            resp ← get_groups targpw resp;
            Ok (add_flags (add_flags resp PFRESP_GID) PFRESP_GROUPS)
          else Ok resp);
  Ok (if nz (Z.land (r_options r) CHROOT) then
        add_flags (set_chroot resp
          (match r_chroot r with
           | Some c => strlcpy PATH_MAX c
           | None => strlcpy 11 "/var/empty"
           end)) PFRESP_CHROOT
      else resp).

(** The validation of one argument or environment reference. *)
Definition arg_ok (a : pfexec_arg) : bool :=
  if ARG_MAX <=? pfa_offset a then false else
  if ARG_MAX <=? pfa_len a then false else
  if ARG_MAX <=? u32 (pfa_offset a + pfa_len a) then false else true.
Definition args_ok (argp : list pfexec_arg) (argc : Z) : bool :=
  forallb (fun i => arg_ok (arg_get argp i)) (seqZ 0 argc).

(** The checks of a correctly formed request. *)
Definition request_ok (req : pfexec_req) : bool :=
  if NGROUPS_MAX <=? pfr_ngroups req then false else
  if nz (Z.land (pfr_req_flags req) (not32 PFEXECVE_ALL_FLAGS)) then false else
  if (strlen (pfr_path req) <? 1) || (PATH_MAX <=? strlen (pfr_path req)) then false else
  if (1024 <=? pfr_argc req) || (1024 <=? pfr_envc req) then false else
  if nz (Z.land (pfr_req_flags req) PFEXECVE_USER) &&
     ((strlen (pfr_req_user req) <? 1) || (LOGIN_NAME_MAX <=? strlen (pfr_req_user req)))
  then false else
  args_ok (pfr_argp req) (pfr_argc req) && args_ok (pfr_envp req) (pfr_envc req).

(** The loop that finds the last matching rule. *)
Definition last_match (req : pfexec_req) (rules : list rule) : option rule :=
  foldl (fun lastr r => if match_rule req r then Some r else lastr) None rules.

(** [process_request]: the response and the result. *)
Definition process_request (rules : list rule) (req : pfexec_req) (resp : pfexec_resp)
    : ub (pfexec_resp * Z) :=
  if negb (request_ok req) then Ok (resp, EINVAL) else
  match last_match req rules with
  | None => Ok (set_errno resp EPERM, EPERM)
  | Some lastr =>
    if nz (Z.land (r_action lastr) DENY) then Ok (set_errno resp EPERM, EPERM) else
    if nz (Z.land (pfr_req_flags req) PFEXECVE_NOPROMPT) && negb (nz (Z.land (r_options lastr) NOPASS))
    then Ok (resp, EPERM) else
    if negb (nz (Z.land (r_options lastr) NOPASS)) && (prompt_password req =? 0)
    then Ok (resp, EPERM) else
    resp ← craft_response req lastr resp;
    let resp := set_errno resp 0 in
    if nz (Z.land (r_options lastr) NOLOG) then Ok (resp, -1) else Ok (resp, 0)
  end.
End Daemon.

(** ** Clients and events *)

(** What [log_request] writes. *)
Inductive log_line :=
  | LogRan (uid : Z) (path requser : string) (pid : Z)
  | LogDenied (pid : Z) (path requser : string) (uid : Z)
  | LogError (pid uid errno : Z).

(** [log_request]. *)
Definition log_request (req : pfexec_req) (resp : pfexec_resp) : log_line :=
  let requser := if nz (Z.land (pfr_req_flags req) PFEXECVE_USER) then pfr_req_user req else "root"%string in
  if rp_errno resp =? 0 then LogRan (pfr_uid req) (pfr_path req) requser (pfr_pid req)
  else if rp_errno resp =? EPERM then LogDenied (pfr_pid req) (pfr_path req) requser (pfr_uid req)
  else LogError (pfr_pid req) (pfr_uid req) (rp_errno resp).

Definition EAGAIN := 35.
Definition ECONNABORTED := 53.
Definition ECONNRESET := 54.

(** The state of the daemon: the descriptors of [pfd_clients] in order, those
    whose [c_readable] event is pending, and whether [pfd_acceptable] is. *)
Record daemon := MkDaemon {
  pfd_clients : list Z; c_readable : gset Z; pfd_acceptable : bool }.

(** What the handlers do to the outside. *)
Inductive effect :=
  | Close (fd : Z) | SendMsg (fd : Z) (resp : pfexec_resp) | Log (l : log_line) | Exit.

(** What [accept] and the calls on the new socket return. *)
Inductive accepted :=
  | AcceptErr (errno : Z)
  | Accept (newfd : Z) (peer : option (Z * Z)) (setsockopt_ok calloc_ok : bool).

(** What [recvmsg] returns: an error, or the number of bytes and the request. *)
Inductive received := RecvErr (errno : Z) | Recv (n : Z) (req : pfexec_req).

(** The size of [struct pfexec_req], a sum of the sizes of its members. *)
Definition sizeof_pfexec_req :=
  4 * 4 + 4 * NGROUPS_MAX + 4 + LOGIN_NAME_MAX + PATH_MAX + 2 * (4 + 8 * 1024) + 2 * ARG_MAX.

(** [destroy_client]. *)
Definition destroy_client (d : daemon) (fd : Z) : daemon * list effect :=
  (MkDaemon (filter (fun x => x <> fd) (pfd_clients d)) (c_readable d ∖ {[fd]}) (pfd_acceptable d),
   [Close fd]).

(** [on_lsock_acceptable]; the daemon ends when [accept] fails otherwise. *)
Definition on_lsock_acceptable (d : daemon) (a : accepted) : daemon * list effect :=
  let out d := MkDaemon (pfd_clients d) (c_readable d) true in
  match a with
  | AcceptErr errno =>
    if (errno =? ECONNABORTED) || (errno =? ECONNRESET) then (out d, []) else (d, [Exit])
  | Accept newfd peer setsockopt_ok calloc_ok =>
    match peer with
    | None => (out d, [Close newfd])
    | Some (uid, gid) =>
      if nz uid || nz gid then (out d, [Close newfd]) else
      if negb setsockopt_ok then (out d, [Close newfd]) else
      if negb calloc_ok then (out d, [Close newfd]) else
      (out (MkDaemon (pfd_clients d ++ [newfd]) (c_readable d ∪ {[newfd]}) (pfd_acceptable d)), [])
    end
  end.

Section Events.
Context {T : Type} `{RBTree string string T} (db : userdb) (rules : list rule).

(** [on_client_readable]. *)
Definition on_client_readable (d : daemon) (fd : Z) (r : received) (send_ok : bool)
    : ub (daemon * list effect) :=
  let out d := MkDaemon (pfd_clients d) (c_readable d ∪ {[fd]}) (pfd_acceptable d) in
  match r with
  | RecvErr errno => Ok (if errno =? EAGAIN then (out d, []) else destroy_client d fd)
  | Recv recvd req =>
    if recvd =? 0 then Ok (destroy_client d fd) else
    if recvd <? sizeof_pfexec_req then Ok (destroy_client d fd) else
    '(resp, rc) ← process_request db rules req resp_zero;
    let '(resp, log) :=
      if rc =? 0 then (resp, [Log (log_request req resp)])
      else if negb (rc =? -1) then
        let resp := set_errno resp_zero (u32 rc) in (resp, [Log (log_request req resp)])
      else (resp, []) in
    if negb send_ok then
      let '(d, effs) := destroy_client d fd in Ok (d, log ++ effs)
    else Ok (out d, log ++ [SendMsg fd resp])
  end.

(** An event that the library dispatches: it is pending no more. *)
Inductive event := Acceptable (a : accepted) | Readable (fd : Z) (r : received) (send_ok : bool).

Definition dispatch (d : daemon) (e : event) : ub (daemon * list effect) :=
  match e with
  | Acceptable a =>
    if pfd_acceptable d then Ok (on_lsock_acceptable (MkDaemon (pfd_clients d) (c_readable d) false) a)
    else Ok (d, [])
  | Readable fd r send_ok =>
    if bool_decide (fd ∈ c_readable d)
    then on_client_readable (MkDaemon (pfd_clients d) (c_readable d ∖ {[fd]}) (pfd_acceptable d)) fd r send_ok
    else Ok (d, [])
  end.

(** [event_dispatch], on the events of a run. *)
Fixpoint event_dispatch (d : daemon) (es : list event) : ub (daemon * list effect) :=
  match es with
  | [] => Ok (d, [])
  | e :: es =>
    '(d, effs) ← dispatch d e;
    '(d, effs') ← event_dispatch d es;
    Ok (d, effs ++ effs')
  end.
End Events.

(** The daemon when [main] enters the loop. *)
Definition daemon_init : daemon := MkDaemon [] ∅ true.

(** ** Validation *)

Lemma arg_ok_spec a :
  0 <= pfa_offset a < 2 ^ 32 -> 0 <= pfa_len a < 2 ^ 32 ->
  arg_ok a = true <-> pfa_offset a + pfa_len a < ARG_MAX.
Proof.
  intros Ho Hl. unfold arg_ok. case_if; cbool.
  { split; [done|]. unfold ARG_MAX in *. lia. }
  case_if; cbool.
  { split; [done|]. unfold ARG_MAX in *. lia. }
  rewrite uN_small by (unfold ARG_MAX in *; lia).
  case_if; cbool; split; intros; try done; lia.
Qed.

Lemma args_ok_spec argp argc :
  args_ok argp argc = true <-> forall i, 0 <= i < argc -> arg_ok (arg_get argp i) = true.
Proof.
  unfold args_ok. rewrite forallb_forall. split.
  - intros Hf i Hi. apply Hf. apply list_elem_of_In, elem_of_seqZ. lia.
  - intros Hf i Hi%list_elem_of_In%elem_of_seqZ. apply Hf. lia.
Qed.

(** ** The last rule wins *)

Lemma last_match_app db req l r :
  last_match db req (l ++ [r]) = if match_rule db req r then Some r else last_match db req l.
Proof. unfold last_match. by rewrite foldl_app. Qed.

Lemma last_match_spec db req rules r :
  last_match db req rules = Some r <->
  exists l1 l2, rules = l1 ++ r :: l2 /\ match_rule db req r = true /\
    forall r', r' ∈ l2 -> match_rule db req r' = false.
Proof.
  induction rules as [|x l IH] using rev_ind.
  - unfold last_match. simpl. split; [done|]. intros ([] & ? & ? & _); done.
  - rewrite last_match_app. case_if.
    + split.
      * intros [= ->]. exists l, []. set_solver.
      * intros (l1 & l2 & Hl & Hr & Hn). destruct l2 as [|y l2 _] using rev_ind.
        { apply app_inj_tail in Hl as [_ ->]. done. }
        rewrite app_comm_cons, app_assoc in Hl. apply app_inj_tail in Hl as [_ ->].
        rewrite Hn in E by set_solver. done.
    + rewrite IH. split.
      * intros (l1 & l2 & -> & Hr & Hn). exists l1, (l2 ++ [x]). split; [by rewrite <- app_assoc|].
        split; [done|]. intros r' [Hr'|Hr']%elem_of_app; [by apply Hn|]. set_solver.
      * intros (l1 & l2 & Hl & Hr & Hn). destruct l2 as [|y l2 _] using rev_ind.
        { apply app_inj_tail in Hl as [_ ->]. congruence. }
        rewrite app_comm_cons, app_assoc in Hl. apply app_inj_tail in Hl as [-> ->].
        exists l1, l2. split; [done|]. split; [done|]. intros; apply Hn. set_solver.
Qed.

Lemma last_match_None db req rules :
  last_match db req rules = None <-> forall r, r ∈ rules -> match_rule db req r = false.
Proof.
  induction rules as [|x l IH] using rev_ind; [set_solver|].
  rewrite last_match_app. case_if.
  - split; [done|]. intros Hn. rewrite Hn in E; [done|set_solver].
  - rewrite IH. split; intros Hn r Hr; [|apply Hn; set_solver].
    apply elem_of_app in Hr as [Hr|Hr]; [by apply Hn|]. set_solver.
Qed.

(** ** Answers *)

(** What a grant means: the response names the target user of the request. *)
Definition grants (db : userdb) (req : pfexec_req) (resp : pfexec_resp) : Prop :=
  rp_errno resp = 0 /\
  exists pw, getpwuid db (fst (parseuid db (pfr_req_user req))) = Some pw /\ rp_uid resp = pw_uid pw.

Section Answers.
Context {T : Type} `{RBTree string string T} (db : userdb).

Lemma revert_uid l resp resp' :
  envarea_destroy_revert l resp = Ok resp' ->
  rp_groups resp' = rp_groups resp /\ rp_ngroups resp' = rp_ngroups resp /\
  rp_flags resp' = rp_flags resp.
Proof.
  unfold envarea_destroy_revert. intros ([[? ?] ?] & _ & [= <-])%ub_bind_ok. done.
Qed.

Lemma get_groups_ok pw resp resp' :
  get_groups db pw resp = Ok resp' ->
  exists cnt out, resp' = set_groups resp cnt out /\
    groups_loop (take (Z.to_nat (NGROUPS_MAX + 1)) (getgrouplist db (pw_name pw) (pw_gid pw)))
      None 0 (rp_groups resp) = Ok (cnt, out).
Proof. unfold get_groups. intros ([cnt out] & ? & [= <-])%ub_bind_ok. eauto. Qed.

Lemma craft_response_uid req r resp resp' :
  craft_response db req r resp = Ok resp' ->
  exists pw, getpwuid db (fst (parseuid db (pfr_req_user req))) = Some pw /\
    rp_uid resp' = pw_uid pw.
Proof.
  unfold craft_response. intros (pw & Hpw & Hc)%ub_bind_ok.
  destruct (getpwuid db (fst (parseuid db (pfr_req_user req)))) as [pw0|]; [|done].
  injection Hpw as ->. exists pw. split; [done|].
  apply ub_bind_ok in Hc as (envp & _ & Hc). apply ub_bind_ok in Hc as (r1 & _ & Hc).
  cbv zeta in Hc.
  apply ub_bind_ok in Hc as (r2 & Hg & Hc). injection Hc as <-.
  assert (rp_uid r2 = pw_uid pw) as Hu; [|by case_if].
  revert Hg. set (r0 := if nz _ then _ else _).
  assert (rp_uid r0 = pw_uid pw) as H0.
  { unfold r0. destruct (r_grplist r); [destruct (grplist_loop _ _ _ _ _) as [[? ?] ?]|]; by case_if. }
  case_if; [|by intros [= <-]].
  intros (r3 & (cnt & out & -> & _)%get_groups_ok & [= <-])%ub_bind_ok. done.
Qed.
End Answers.

Lemma process_request_spec {T} `{RBTree string string T} db rules req resp rc :
  process_request db rules req resp_zero = Ok (resp, rc) -> rc = 0 \/ rc = -1 ->
  request_ok req = true /\ grants db req resp /\
  exists l1 r l2, rules = l1 ++ r :: l2 /\ match_rule db req r = true /\
    (forall r', r' ∈ l2 -> match_rule db req r' = false) /\
    Z.land (r_action r) DENY = 0 /\ Z.land (r_options r) NOPASS <> 0 /\
    (rc = -1 <-> Z.land (r_options r) NOLOG <> 0).
Proof.
  unfold process_request. destruct (request_ok req) eqn:Eok; simpl; [|by intros [= <- <-] [|]].
  destruct (last_match db req rules) as [r|] eqn:El; [|by intros [= <- <-] [|]].
  apply last_match_spec in El as (l1 & l2 & Hl & Hm & Hn).
  case_if; [by intros [= <- <-] [|]|].
  case_if; [by intros [= <- <-] [|]|].
  case_if; [by intros [= <- <-] [|]|].
  intros (r1 & Hc & Hr)%ub_bind_ok Hrc. split; [done|].
  apply craft_response_uid in Hc as (pw & Hpw & Hu).
  assert (resp = set_errno r1 0) as -> by (revert Hr; case_if; congruence).
  split. { split; [done|]. by exists pw. }
  exists l1, r, l2. do 3 (split; [done|]). split; [by apply nz_false|].
  split. { cbool. destruct E1 as [?|?]; [done|]. unfold prompt_password in *. done. }
  revert Hr. case_if; intros [= <-]; cbool; naive_solver.
Qed.

(** C2: A request is granted (the result is 0, or -1 when nothing is to be
    logged) only when it is well formed and the last of the rules that match it
    permits and has [NOPASS]; then the response has errno 0 and the user id of
    the target, and it is the option [NOLOG] of that rule that chooses between
    the two results. *)
Theorem process_request_grants {T} `{RBTree string string T} db rules req resp rc :
  process_request db rules req resp_zero = Ok (resp, rc) -> rc = 0 \/ rc = -1 ->
  request_ok req = true /\ grants db req resp /\
  exists l1 r l2, rules = l1 ++ r :: l2 /\ match_rule db req r = true /\
    (forall r', r' ∈ l2 -> match_rule db req r' = false) /\
    Z.land (r_action r) DENY = 0 /\ Z.land (r_options r) NOPASS <> 0 /\
    (rc = -1 <-> Z.land (r_options r) NOLOG <> 0).
Proof. apply process_request_spec. Qed.

(** In a well-formed request every argument and every variable lies inside
    its area: no 32-bit wrap-around of offset plus length passes the check. *)
Theorem request_ok_refs req i :
  request_ok req = true ->
  (forall a, a ∈ pfr_argp req ++ pfr_envp req ->
     0 <= pfa_offset a < 2 ^ 32 /\ 0 <= pfa_len a < 2 ^ 32) ->
  (0 <= i < pfr_argc req ->
     pfa_offset (arg_get (pfr_argp req) i) + pfa_len (arg_get (pfr_argp req) i) < ARG_MAX) /\
  (0 <= i < pfr_envc req ->
     pfa_offset (arg_get (pfr_envp req) i) + pfa_len (arg_get (pfr_envp req) i) < ARG_MAX).
Proof.
  unfold request_ok. intros Hok Hw. revert Hok. do 5 (case_if; [done|]).
  intros [Ha He]%andb_true_iff.
  rewrite args_ok_spec in Ha, He.
  assert (forall l, (forall a, a ∈ l -> 0 <= pfa_offset a < 2 ^ 32 /\ 0 <= pfa_len a < 2 ^ 32) ->
    0 <= pfa_offset (arg_get l i) < 2 ^ 32 /\ 0 <= pfa_len (arg_get l i) < 2 ^ 32) as Hg.
  { intros l Hl. unfold arg_get. destruct (l !! Z.to_nat i) as [a|] eqn:Ea; simpl; [|lia].
    apply Hl. by eapply list_elem_of_lookup_2. }
  split; intros Hi.
  - specialize (Ha i Hi). destruct (Hg (pfr_argp req)) as [? ?]; [intros; apply Hw; set_solver|].
    by apply arg_ok_spec.
  - specialize (He i Hi). destruct (Hg (pfr_envp req)) as [? ?]; [intros; apply Hw; set_solver|].
    by apply arg_ok_spec.
Qed.

(** The hypotheses of the properties below: the reference [a] of an area is the
    C string [s], and [args] are the arguments of a request. *)
Definition refers (area : string) (a : pfexec_arg) (s : string) : Prop :=
  pfa_len a = strlen s /\ area_cstr area (pfa_offset a) = s.
Definition has_args (req : pfexec_req) (args : list string) : Prop :=
  pfr_argc req = Z.of_nat (length args) /\ (0 < length args < 1024)%nat /\
  (forall i s, args !! i = Some s ->
    refers (pfr_argarea req) (arg_get (pfr_argp req) (Z.of_nat i)) s) /\
  arg_get (pfr_argp req) (pfr_argc req) = PfexecArg 0 0.

(** ** Arguments of rules *)

Lemma strncmp_prefix c b :
  cstr c = c -> strncmp_eq c b (strlen (cstr b)) = String.prefix (cstr b) c.
Proof.
  unfold strlen. revert c; induction b as [|x b IH]; intros c Hc; simpl.
  { rewrite strncmp_eq_0 by lia. by destruct c. }
  destruct (Ascii.eqb x NUL) eqn:Ex. { rewrite strncmp_eq_0 by (simpl; lia). by destruct c. }
  cbn [String.length]. destruct c as [|y c]; cbn [strncmp_eq String.prefix].
  { replace (_ <=? 0) with false by (symmetry; apply Z.leb_gt; lia). done. }
  replace (_ <=? 0) with false by (symmetry; apply Z.leb_gt; lia).
  simpl in Hc. destruct (Ascii.eqb y NUL) eqn:Ey; [done|]. injection Hc as Hc.
  destruct (ascii_dec x y) as [->|Hne].
  - rewrite Ascii.eqb_refl. rewrite <- (IH c Hc). f_equal. lia.
  - destruct (Ascii.eqb y x) eqn:E; [|done]. apply Ascii.eqb_eq in E. congruence.
Qed.

(** The comparison of the loop at one index. *)
Definition arg_eq (req : pfexec_req) (c : string) (i : Z) : bool :=
  let a := arg_get (pfr_argp req) (i + 1) in
  strncmp_eq c (area_drop (Z.to_nat (pfa_offset a)) (pfr_argarea req)) (pfa_len a).

Lemma cmdargs_loop_spec req max_args cmdargs i j :
  cmdargs_loop req max_args cmdargs i = Some j <->
  j = i + Z.of_nat (length cmdargs) /\
  (forall k c, cmdargs !! k = Some c -> i + Z.of_nat k <= max_args /\ arg_eq req c (i + Z.of_nat k) = true).
Proof.
  revert i; induction cmdargs as [|c l IH]; intros i; cbn [cmdargs_loop].
  { simpl. split; [intros [= <-]; split; [lia|done]|intros [-> _]; f_equal; lia]. }
  fold (arg_eq req c i). split.
  - do 2 (case_if; [done|]). intros [-> Hk]%IH. cbn [length]. split; [lia|].
    intros [|k] c' Hc'; simpl in Hc'.
    + injection Hc' as <-. rewrite Z.add_0_r. cbool. done.
    + destruct (Hk k c' Hc') as [? ?]. replace (i + Z.of_nat (S k)) with (i + 1 + Z.of_nat k) by lia. done.
  - cbn [length]. intros [-> Hk]. destruct (Hk 0%nat c eq_refl) as [? Heq]. rewrite Z.add_0_r in *.
    rewrite Heq. case_if; cbool; [lia|]. simpl. apply IH. split; [lia|].
    intros k c' Hc'. specialize (Hk (S k) c' Hc').
    replace (i + 1 + Z.of_nat k) with (i + Z.of_nat (S k)) by lia. done.
Qed.

(** The arguments of a rule match those of a request exactly when the rule
    gives as many arguments as the request has, or one more, and every argument of the
    request is a prefix of the rule's.  (The comment of the code wants them to
    match explicitly.) *)
Theorem match_args_prefix req args cmdargs :
  has_args req args -> Forall (fun c => cstr c = c) cmdargs ->
  match_args req cmdargs = true <->
  (length args - 1 <= length cmdargs <= length args)%nat /\
  (forall i a c, args !! S i = Some a -> cmdargs !! i = Some c -> String.prefix a c = true).
Proof.
  intros (Hargc & Hlen & Href & Hpast) Hcs. unfold match_args.
  rewrite Hargc, uN_small, sN_small by lia.
  assert (forall k c, cmdargs !! k = Some c -> Z.of_nat k <= Z.of_nat (length args) - 1 ->
    arg_eq req c (Z.of_nat k) = true <->
    forall a, args !! S k = Some a -> String.prefix a c = true) as Heq.
  { intros k c Hk Hle. unfold arg_eq. destruct (args !! S k) as [a|] eqn:Ea.
    - destruct (Href _ _ Ea) as [Hl Hs]. rewrite Nat2Z.inj_succ in *.
      change (Z.succ (Z.of_nat k)) with (Z.of_nat k + 1) in *. rewrite Hl. unfold area_cstr in Hs.
      rewrite <- Hs. rewrite strncmp_prefix by (by eapply Forall_lookup_1 in Hcs).
      naive_solver.
    - apply lookup_ge_None in Ea. replace (Z.of_nat k + 1) with (pfr_argc req) by lia.
      rewrite Hpast. simpl. rewrite strncmp_eq_0 by done. split; [done|done]. }
  destruct (cmdargs_loop req (Z.of_nat (length args) - 1) cmdargs 0) as [j|] eqn:El.
  - apply cmdargs_loop_spec in El as [-> Hk].
    assert (length cmdargs <= length args)%nat.
    { destruct cmdargs as [|c l _] using rev_ind; [simpl; lia|]. rewrite length_app in *. simpl.
      destruct (Hk (length l) c) as [? _]; [by rewrite lookup_app_r, Nat.sub_diag by lia|]. lia. }
    assert (forall i a c, args !! S i = Some a -> cmdargs !! i = Some c -> String.prefix a c = true) as Hp.
    { intros i a c Ha Hc. destruct (Hk i c Hc) as [? Hq]. by eapply Heq. }
    case_if; cbool.
    + destruct E as [Hc ?]. destruct cmdargs; [|done]. simpl. split; [done|]. intros [? _]. lia.
    + destruct E as [Hc|Hc]; (split; [intros; split; [lia|done]|intros [? _]; lia]).
  - split; [by case_if|]. intros [Hlc Hp]. exfalso.
    assert (cmdargs_loop req (Z.of_nat (length args) - 1) cmdargs 0 = Some (Z.of_nat (length cmdargs))) as Hs;
      [|congruence].
    apply cmdargs_loop_spec. split; [lia|]. intros k c Hc.
    pose proof (lookup_lt_Some _ _ _ Hc). split; [lia|]. apply Heq; [done|lia|].
    intros a Ha. by eapply Hp.
Qed.

(** ** The environment area of a response *)

(** The bytes that the strings take with their NULs, their concatenation, and
    the references to them from byte [len] on. *)
Definition area_size (l : list string) : Z := foldr (fun s n => strlen s + 1 + n) 0 l.
Fixpoint area_flat (l : list string) : string :=
  match l with [] => EmptyString | s :: l => (s ++ String NUL (area_flat l))%string end.
Fixpoint area_refs (len : Z) (l : list string) : list pfexec_arg :=
  match l with
  | [] => []
  | s :: l => PfexecArg len (strlen s + 1) :: area_refs (len + (strlen s + 1)) l
  end.

Lemma strlen_nonneg s : 0 <= strlen s.
Proof. unfold strlen. lia. Qed.

Lemma strlen_app a b : strlen (a ++ b) = strlen a + strlen b.
Proof. unfold strlen. rewrite string_length_app. lia. Qed.

Lemma area_size_nonneg l : 0 <= area_size l.
Proof. induction l as [|s l IH]; simpl; [done|]. pose proof (strlen_nonneg s). lia. Qed.

Lemma strlen_flat l : strlen (area_flat l) = area_size l.
Proof.
  induction l as [|s l IH]; cbn [area_flat area_size foldr]; [done|].
  rewrite strlen_app. fold (area_size l). rewrite <- IH. unfold strlen. cbn [String.length]. lia.
Qed.

Lemma revert_loop_spec from envc envp area :
  2 * (strlen area + area_size from) <= ARG_MAX ->
  envc + Z.of_nat (length from) <= 1024 ->
  revert_loop from envc (ARG_MAX - strlen area) (strlen area) envp area =
  Ok (envc + Z.of_nat (length from), envp ++ area_refs (strlen area) from,
      (area ++ area_flat from)%string).
Proof.
  revert envc envp area; induction from as [|s l IH]; intros envc envp area Hs Hc.
  { simpl. rewrite app_nil_r, string_app_nil_r, Z.add_0_r. done. }
  cbn [revert_loop area_size foldr length] in *. fold (area_size l) in Hs.
  pose proof (strlen_nonneg s). pose proof (strlen_nonneg area). pose proof (area_size_nonneg l).
  assert (ARG_MAX < 2 ^ 20) by (by compute).
  rewrite (proj2 (Z.ltb_lt envc 1024)), (proj2 (Z.ltb_lt 0 (ARG_MAX - strlen area))) by lia.
  rewrite !uN_small by lia. unfold area_strlcpy.
  rewrite (proj2 (Z.eqb_neq (ARG_MAX - strlen area - strlen area) 0)) by lia.
  rewrite strlcpy_fits by lia.
  rewrite (proj2 (Z.leb_le 0 (strlen area))), (proj2 (Z.leb_le (strlen area + strlen s + 1) ARG_MAX)) by lia.
  cbn [andb ub_bind mbind].
  replace (Z.to_nat (strlen area)) with (String.length area) by (unfold strlen; lia).
  rewrite area_write_end.
  assert (strlen (area ++ (s ++ String NUL "")) = strlen area + (strlen s + 1)) as Hl.
  { rewrite !strlen_app. unfold strlen. cbn [String.length]. lia. }
  rewrite sN_small, !uN_small by lia.
  replace (ARG_MAX - strlen area - (strlen s + 1)) with (ARG_MAX - (strlen area + (strlen s + 1))) by lia.
  rewrite <- Hl, IH by lia. rewrite Hl. f_equal.
  f_equal; [f_equal; [lia|by rewrite <- app_assoc]|]. cbn [area_flat]. by rewrite !string_app_assoc.
Qed.

Lemma area_refs_length len l : length (area_refs len l) = length l.
Proof. revert len; induction l; intros; simpl; auto. Qed.

Lemma area_refs_cstr pre l i s :
  Forall (fun s => cstr s = s) l -> l !! i = Some s ->
  exists off, area_refs (strlen pre) l !! i = Some (PfexecArg off (strlen s + 1)) /\
    area_cstr (pre ++ area_flat l) off = s.
Proof.
  revert pre i; induction l as [|x l IH]; intros pre i Hl Hi; [done|].
  apply Forall_cons in Hl as [Hx Hl]. destruct i as [|i]; cbn [area_refs area_flat].
  - injection Hi as ->. exists (strlen pre). split; [done|].
    unfold area_cstr, strlen. rewrite Nat2Z.id, area_drop_end. by apply cstr_app_nul.
  - destruct (IH (pre ++ (x ++ String NUL ""))%string i Hl Hi) as (off & Hr & Hs).
    rewrite !strlen_app in Hr. change (strlen (String NUL "")) with 1 in Hr.
    exists off. split; [done|]. rewrite <- Hs. f_equal.
    rewrite !string_app_assoc. done.
Qed.

(** C39: The environment survives the trip through the response: when the
    strings take at most half of the area, the reference number [i] of the
    response leads to the string number [i].  Its length field counts the NUL,
    unlike those of requests. *)
Theorem envarea_roundtrip from resp :
  rp_envarea resp = EmptyString -> Forall (fun s => cstr s = s) from ->
  (length from <= 1024)%nat -> 2 * area_size from <= ARG_MAX ->
  exists resp', envarea_destroy_revert from resp = Ok resp' /\
    rp_envc resp' = Z.of_nat (length from) /\
    forall i s, from !! i = Some s ->
      let a := arg_get (rp_envp resp') (Z.of_nat i) in
      area_cstr (rp_envarea resp') (pfa_offset a) = s /\ pfa_len a = strlen s + 1.
Proof.
  intros Ha Hcs Hlen Hsize. unfold envarea_destroy_revert. rewrite Ha.
  pose proof (revert_loop_spec from 0 [] "" Hsize ltac:(lia)) as Hl.
  change (strlen "") with 0 in Hl. rewrite Z.sub_0_r in Hl. rewrite Hl. simpl.
  eexists. split; [done|]. split; [done|]. intros i s Hi. cbn [rp_envp rp_envarea].
  destruct (area_refs_cstr "" from i s Hcs Hi) as (off & Hr & Hs).
  unfold arg_get. rewrite Nat2Z.id. change (strlen "") with 0 in Hr. rewrite Hr. cbn [default].
  split; [|done]. rewrite substring_all; [done|].
  pose proof (strlen_flat from) as Hf. unfold strlen in Hf. unfold ARG_MAX in *. 
  change ("" ++ area_flat from)%string with (area_flat from). lia.
Qed.

(** ** Groups of a user *)

(** The element before number [i] of a list. *)
Definition before {A} (prev : option A) (l : list A) (i : nat) : option A :=
  match i with O => prev | S i => l !! i end.

Lemma groups_loop_in l prev cnt out :
  0 <= cnt -> cnt + Z.of_nat (length l) <= Z.of_nat (length out) ->
  exists out', groups_loop l prev cnt out = Ok (cnt + Z.of_nat (length l), out') /\
    length out' = length out /\
    (forall i, (i < Z.to_nat cnt)%nat -> out' !! i = out !! i) /\
    (forall i g, l !! i = Some g ->
       out' !! (Z.to_nat cnt + i)%nat =
       if bool_decide (before prev l i = Some g) then out !! (Z.to_nat cnt + i)%nat else Some g).
Proof.
  revert prev cnt out; induction l as [|g l IH]; intros prev cnt out Hc Hl; cbn [groups_loop length] in *.
  { exists out. rewrite Z.add_0_r. done. }
  assert (Z.to_nat (cnt + 1) = S (Z.to_nat cnt)) as Hs by lia.
  destruct (bool_decide (prev = Some g)) eqn:Eb.
  - apply bool_decide_eq_true in Eb as ->.
    destruct (IH (Some g) (cnt + 1) out) as (out' & -> & Hlen & Hlow & Hi); [lia|lia|].
    exists out'. split; [f_equal; f_equal; lia|]. split; [done|]. rewrite Hs in *.
    split; [intros; apply Hlow; lia|]. intros [|i] g' Hg'; simpl in Hg'.
    + injection Hg' as <-. cbn [before]. rewrite bool_decide_true by done. apply Hlow. lia.
    + specialize (Hi i g' Hg'). rewrite Nat.add_succ_r. rewrite <- Nat.add_succ_l, Hi.
      destruct i; done.
  - rewrite array_set_in by lia. simpl. set (out1 := <[Z.to_nat cnt := g]> out).
    assert (length out1 = length out) as Hlen1 by apply length_insert.
    destruct (IH (Some g) (cnt + 1) out1) as (out' & -> & Hlen & Hlow & Hi); [lia|lia|].
    exists out'. split; [f_equal; f_equal; lia|]. split; [lia|]. rewrite Hs in *.
    split.
    { intros i Hi'. rewrite Hlow by lia. apply list_lookup_insert_ne. lia. }
    intros [|i] g' Hg'; simpl in Hg'.
    + injection Hg' as <-. cbn [before]. rewrite Eb, Nat.add_0_r, Hlow by lia.
      apply list_lookup_insert_eq. lia.
    + specialize (Hi i g' Hg'). rewrite Nat.add_succ_r. rewrite <- Nat.add_succ_l, Hi.
      unfold out1. rewrite list_lookup_insert_ne by lia. destruct i; done.
Qed.

Lemma groups_loop_app l1 l2 prev cnt out :
  groups_loop (l1 ++ l2) prev cnt out =
  '(cnt, out) ← groups_loop l1 prev cnt out;
  groups_loop l2 (match last l1 with Some g => Some g | None => prev end) cnt out.
Proof.
  revert prev cnt out; induction l1 as [|g l1 IH]; intros prev cnt out; cbn [groups_loop app]; [done|].
  destruct (bool_decide (prev = Some g)) eqn:Eb.
  - apply bool_decide_eq_true in Eb as ->. rewrite IH, last_cons. by destruct (last l1).
  - destruct (array_set cnt g out) as [out1|f]; simpl; [|done]. rewrite IH, last_cons. by destruct (last l1).
Qed.

(** The groups of a user without a [setgroups] rule.  With at most 16
    groups the response counts them all, but an entry equal to the one before
    keeps what the response held there, which is group 0 in a fresh response.
    A seventeenth group different from the sixteenth is written behind the end
    of [pfr_groups]. *)
Theorem get_groups_slots db pw resp groups :
  getgrouplist db (pw_name pw) (pw_gid pw) = groups ->
  length (rp_groups resp) = 16%nat ->
  ((length groups <= 16)%nat ->
     exists resp', get_groups db pw resp = Ok resp' /\
       rp_ngroups resp' = Z.of_nat (length groups) /\
       forall i g, groups !! i = Some g ->
         rp_groups resp' !! i =
         if bool_decide (before None groups i = Some g) then rp_groups resp !! i else Some g) /\
  ((16 < length groups)%nat -> groups !! 15%nat <> groups !! 16%nat ->
     get_groups db pw resp = UB out_of_bounds).
Proof.
  intros Hg Hlen. unfold get_groups. rewrite Hg.
  change (Z.to_nat (NGROUPS_MAX + 1)) with 17%nat. split.
  - intros Hle. rewrite take_ge by lia.
    destruct (groups_loop_in groups None 0 (rp_groups resp)) as (out & -> & _ & _ & Hi); [lia|lia|].
    simpl. eexists. split; [done|]. split; [done|]. exact Hi.
  - intros Hlt Hne. destruct (groups !! 16%nat) as [g|] eqn:E16.
    2: { apply lookup_ge_None in E16. lia. }
    rewrite (take_S_r _ _ g) by done. rewrite groups_loop_app.
    destruct (groups_loop_in (take 16 groups) None 0 (rp_groups resp)) as (out & -> & Hout & _);
      [lia|rewrite length_take; lia|].
    rewrite length_take. replace (Z.of_nat (16 `min` length groups)) with 16 by lia.
    simpl mbind. rewrite last_lookup, length_take.
    replace (pred (16 `min` length groups)) with 15%nat by lia.
    rewrite lookup_take_lt by lia. cbn [groups_loop].
    rewrite bool_decide_false by (destruct (groups !! 15%nat) eqn:E15; congruence).
    unfold array_set. rewrite Hout, Hlen. done.
Qed.

(** ** Unknown users *)

Definition with_user (req : pfexec_req) (u : string) : pfexec_req :=
  PfexecReq (pfr_pid req) (pfr_uid req) (pfr_gid req) (pfr_ngroups req) (pfr_groups req)
    (pfr_req_flags req) u (pfr_path req) (pfr_argc req) (pfr_argp req) (pfr_envc req)
    (pfr_envp req) (pfr_argarea req) (pfr_envarea req).

Lemma cmdargs_loop_user req u max_args l i :
  cmdargs_loop (with_user req u) max_args l i = cmdargs_loop req max_args l i.
Proof. revert i; induction l as [|a l IH]; intros i; cbn [cmdargs_loop]; [done|]. by rewrite IH. Qed.

Lemma match_rule_user db req u r :
  fst (parseuid db u) = fst (parseuid db (pfr_req_user req)) ->
  match_rule db (with_user req u) r = match_rule db req r.
Proof.
  intros Hu. unfold match_rule. cbn [with_user pfr_uid pfr_req_user pfr_path]. rewrite Hu.
  case_if; [done|]. case_if; [done|]. destruct (r_cmd r); [|done]. case_if; [done|].
  destruct (r_cmdargs r); [|done]. unfold match_args. cbn [with_user pfr_argc].
  by rewrite cmdargs_loop_user.
Qed.

Lemma craft_response_user {T} `{RBTree string string T} db req u r resp :
  fst (parseuid db u) = fst (parseuid db (pfr_req_user req)) ->
  craft_response db (with_user req u) r resp = craft_response db req r resp.
Proof. intros Hu. unfold craft_response. cbn [with_user pfr_req_user]. by rewrite Hu. Qed.

(** A well-formed request to become a user that does not exist (the name is
    neither in the user database nor a number) is answered like the same
    request for root. *)
Theorem unknown_user_is_root {T} `{RBTree string string T} db rules req resp pw :
  request_ok req = true ->
  getpwnam db (pfr_req_user req) = None -> strtoll_all (pfr_req_user req) = None ->
  getpwnam db "root" = Some pw -> pw_uid pw = 0 ->
  process_request db rules req resp = process_request db rules (with_user req "root") resp.
Proof.
  intros Hok Hnone Hnum Hroot H0. unfold process_request.
  assert (fst (parseuid db "root") = fst (parseuid db (pfr_req_user req))) as Hu.
  { unfold parseuid. rewrite Hnone, Hroot, H0. unfold strtonum. by rewrite Hnum. }
  assert (request_ok (with_user req "root") = true) as Hok'.
  { revert Hok. unfold request_ok. cbn [with_user pfr_ngroups pfr_req_flags pfr_path pfr_argc pfr_envc pfr_argp pfr_envp pfr_req_user].
    do 5 (case_if; [done|]). intros ->. by rewrite andb_false_r. }
  rewrite Hok, Hok'. simpl.
  replace (last_match db (with_user req "root") rules) with (last_match db req rules).
  2: { unfold last_match. generalize (@None rule). induction rules as [|r l IH]; intros o; simpl; [done|].
       by rewrite match_rule_user, IH. }
  destruct (last_match db req rules) as [r|]; [|done].
  by rewrite craft_response_user.
Qed.

(** ** Clients *)

(** Every client waits for its next request, and the daemon for its next
    client. *)
Definition daemon_inv (d : daemon) : Prop :=
  c_readable d = list_to_set (pfd_clients d) /\ pfd_acceptable d = true.

(** An [accept] of the run gave the descriptor to a peer that is root. *)
Definition root_accepted (es : list event) (fd : Z) : Prop :=
  exists so ca, Acceptable (Accept fd (Some (0, 0)) so ca) ∈ es.

Lemma filter_out (fd : Z) (l : list Z) :
  list_to_set l ∖ {[fd]} = (list_to_set (filter (fun x => x <> fd) l) : gset Z).
Proof. apply set_eq. intros x. rewrite elem_of_difference, !elem_of_list_to_set, list_elem_of_filter. set_solver. Qed.

Section Run.
Context {T : Type} `{RBTree string string T} (db : userdb) (rules : list rule).

Ltac effs_solver :=
  simpl; intros; rewrite ?elem_of_app, ?elem_of_cons, ?elem_of_nil in *; naive_solver.

(** The two outcomes of a handler for a client: it is destroyed, or it waits
    again and at most was sent a response. *)
Lemma on_client_readable_cases d fd r so d' effs :
  on_client_readable db rules d fd r so = Ok (d', effs) ->
  (d' = fst (destroy_client d fd) /\ forall fd' resp, SendMsg fd' resp ∉ effs) \/
  (d' = MkDaemon (pfd_clients d) (c_readable d ∪ {[fd]}) (pfd_acceptable d) /\
   forall fd' resp, SendMsg fd' resp ∈ effs -> fd' = fd).
Proof.
  unfold on_client_readable. destruct r as [errno|n req].
  { intros [= He]. revert He. case_if; intros [= <- <-]; [right|left]; (split; [done|effs_solver]). }
  case_if; [intros [= <- <-]; left; split; [done|effs_solver]|].
  case_if; [intros [= <- <-]; left; split; [done|effs_solver]|].
  intros ([resp rc] & _ & Hr)%ub_bind_ok. revert Hr.
  destruct (rc =? 0), (rc =? -1), so; intros [= <- <-]; solve [left; split; [done|effs_solver]|right; split; [done|effs_solver]].
Qed.

(** One event keeps the invariant, and a client that has one was root. *)
Lemma dispatch_inv es d e d' effs :
  dispatch db rules d e = Ok (d', effs) -> Exit ∉ effs ->
  daemon_inv d -> (forall fd, fd ∈ pfd_clients d -> root_accepted es fd) ->
  daemon_inv d' /\ (forall fd, fd ∈ pfd_clients d' -> root_accepted (es ++ [e]) fd) /\
  (forall fd resp, SendMsg fd resp ∈ effs -> root_accepted es fd).
Proof.
  intros Hd Hexit [Hr Ha] Hroot.
  assert (forall fd, fd ∈ pfd_clients d -> root_accepted (es ++ [e]) fd) as Hroot'.
  { intros fd (so & ca & ?)%Hroot. exists so, ca. set_solver. }
  destruct e as [a|fd r so]; simpl in Hd.
  - rewrite Ha in Hd. destruct a as [errno|fd peer so ca]; simpl in Hd.
    + revert Hd. case_if; intros [= <- <-]; [|set_solver]. split; [done|]. set_solver.
    + destruct peer as [[uid gid]|]; [|injection Hd as <- <-; split; [done|set_solver]].
      case_if in Hd; [injection Hd as <- <-; split; [done|set_solver]|].
      case_if in Hd; [injection Hd as <- <-; split; [done|set_solver]|].
      case_if in Hd; [injection Hd as <- <-; split; [done|set_solver]|].
      injection Hd as <- <-. cbool. destruct E as [-> ->].
      split; [split; [simpl; rewrite Hr, list_to_set_app_L; set_solver|done]|].
      split; [|set_solver]. simpl. intros fd' [Hf|Hf]%elem_of_app; [by apply Hroot'|].
      apply list_elem_of_singleton in Hf as ->. exists so, ca. set_solver.
  - case_bool_decide; [|injection Hd as <- <-; split; [done|set_solver]].
    assert (fd ∈ pfd_clients d) as Hin by (rewrite Hr in *; by apply elem_of_list_to_set in H0).
    apply on_client_readable_cases in Hd as [[-> Hs]|[-> Hs]]; simpl.
    + split; [split; [|done]; simpl; rewrite Hr, <- filter_out; set_solver|].
      split; [|set_solver]. intros fd' [_ ?]%list_elem_of_filter. by apply Hroot'.
    + split; [split; [|done]; simpl; rewrite Hr|].
      { apply set_eq. intros x. destruct (decide (x = fd)); set_solver. }
      split; [done|]. intros fd' resp ->%Hs. by apply Hroot.
Qed.
End Run.

(** C34: In a run of the daemon that does not end, every client is always
    waiting for its next request and the daemon for its next client, and a response is only
    ever sent over a descriptor that [accept] gave to a peer with user id 0 and
    group id 0. *)
Theorem event_dispatch_root {T} `{RBTree string string T} db rules es d effs :
  event_dispatch db rules daemon_init es = Ok (d, effs) -> Exit ∉ effs ->
  daemon_inv d /\
  (forall fd, fd ∈ pfd_clients d -> root_accepted es fd) /\
  (forall fd resp, SendMsg fd resp ∈ effs -> root_accepted es fd).
Proof.
  assert (daemon_inv daemon_init) as Hinv by done.
  assert (forall fd, fd ∈ pfd_clients daemon_init -> root_accepted [] fd) as Hroot by set_solver.
  change es with ([] ++ es) at 2 3. revert Hinv Hroot. generalize daemon_init as d0.
  generalize (@nil event) as es0.
  revert effs d; induction es as [|e es IH]; intros effs d es0 d0 Hinv Hroot Hd Hx.
  { injection Hd as <- <-. rewrite app_nil_r. set_solver. }
  cbn [event_dispatch] in Hd. apply ub_bind_ok in Hd as ([d1 effs1] & H1 & Hd).
  apply ub_bind_ok in Hd as ([d2 effs2] & H2 & Hd). injection Hd as -> <-.
  destruct (dispatch_inv db rules es0 d0 e d1 effs1 H1) as (Hi1 & Hr1 & Hs1); [set_solver|done|done|].
  destruct (IH effs2 d (es0 ++ [e]) d1) as (Hi2 & Hr2 & Hs2); [done|done|done|set_solver|].
  rewrite <- app_assoc in *. simpl in *. split; [done|]. split; [done|].
  intros fd resp [Hf|Hf]%elem_of_app; [|by eapply Hs2].
  destruct (Hs1 fd resp Hf) as (so & ca & ?). exists so, ca. set_solver.
Qed.

(** ** The properties on an example *)

Definition nul (a b : string) : string := (a ++ String NUL b)%string.
Definition db0 : userdb :=
  Userdb (fun n => if String.eqb n "alice" then Some (Passwd "alice" 1000 1000 "/home/alice" "/bin/ksh")
                   else if String.eqb n "root" then Some pw0 else None)
    (fun u => if u =? 0 then Some pw0 else None)
    (fun g => if String.eqb g "wheel" then Some 0 else None)
    (fun _ g => [g; 0; 2; 3]).
(** [alice] asks for the command [rm -r x] as the user of the argument. *)
Definition req0 (user : string) : pfexec_req :=
  PfexecReq 7 1000 1000 1 [1000] PFEXECVE_USER user "/bin/rm" 3
    [PfexecArg 0 2; PfexecArg 3 2; PfexecArg 6 1] 1 [PfexecArg 0 10]
    (nul "rm" (nul "-r" "x")) "TERM=vt220".
Definition rule1 (options action : Z) (cmdargs : list string) : rule :=
  Rule action options "alice" (Some "root"%string) (Some "/bin/rm"%string) (Some cmdargs)
    None None None.
Definition rules0 : list rule :=
  [rule1 0 DENY ["-r"; "x"]; rule1 NOPASS PERMIT ["-rf"; "x"; "y"]; rule1 0 DENY ["-i"]]%string.
Definition resp0 : pfexec_resp :=
  match process_request (T := gmap string string) db0 rules0 (req0 "root") resp_zero with
  | Ok (resp, _) => resp
  | UB _ => resp_zero
  end.

Lemma process_request_grants_witness :
  rp_envc resp0 = 6 /\ request_ok (req0 "root") = true /\ grants db0 (req0 "root") resp0.
Proof.
  destruct (process_request_grants (T := gmap string string) db0 rules0 (req0 "root") resp0 0)
    as (? & ? & _); [vm_compute; reflexivity|by left|].
  split; [vm_compute; reflexivity|]. split; assumption.
Defined.

Lemma request_ok_refs_witness :
  pfa_offset (arg_get (pfr_argp (req0 "root")) 1) + pfa_len (arg_get (pfr_argp (req0 "root")) 1) < ARG_MAX.
Proof.
  refine (proj1 (request_ok_refs (req0 "root") 1 _ _) _); [vm_compute; reflexivity| |by split].
  simpl. intros a Ha. repeat (apply elem_of_cons in Ha as [->|Ha]; [simpl; lia|]). by apply elem_of_nil in Ha.
Defined.

(** The rule [rm -rf x y] matches the request [rm -r x]. *)
Lemma match_args_prefix_witness : match_args (req0 "root") ["-rf"; "x"; "y"]%string = true.
Proof.
  apply (match_args_prefix (req0 "root") ["rm"; "-r"; "x"]%string).
  - split; [done|]. split; [simpl; lia|]. split; [|done].
    intros [|[|[|i]]] s Hs; simpl in Hs; try done; injection Hs as <-; done.
  - repeat constructor.
  - split; [simpl; lia|]. intros [|[|[|i]]] a c Ha Hc; simpl in *; try done; by simplify_eq.
Defined.

Lemma envarea_roundtrip_witness :
  exists resp', envarea_destroy_revert ["A=1"; ""; "B=22"]%string resp_zero = Ok resp' /\
    area_cstr (rp_envarea resp') (pfa_offset (arg_get (rp_envp resp') 2)) = "B=22"%string.
Proof.
  destruct (envarea_roundtrip ["A=1"; ""; "B=22"]%string resp_zero) as (r & Hr & _ & Hi);
    [done|repeat constructor|simpl; lia|vm_compute; discriminate|].
  exists r. split; [exact Hr|]. apply (Hi 2%nat "B=22"%string). reflexivity.
Defined.

Lemma get_groups_slots_witness :
  (exists resp', get_groups db0 (Passwd "alice" 7 7 "" "") resp_zero = Ok resp' /\ rp_ngroups resp' = 4) /\
  get_groups (Userdb (getpwnam db0) (getpwuid db0) (getgrnam db0) (fun _ g => seqZ g 17)) pw0 resp_zero
    = UB out_of_bounds.
Proof.
  split.
  - destruct (get_groups_slots db0 (Passwd "alice" 7 7 "" "") resp_zero _ eq_refl eq_refl) as [H _].
    destruct H as (r & Hr & Hn & _); [simpl; lia|]. exists r. split; [exact Hr|exact Hn].
  - apply (get_groups_slots _ pw0 resp_zero _ eq_refl eq_refl); [vm_compute; lia|vm_compute; discriminate].
Defined.

Lemma unknown_user_is_root_witness :
  process_request (T := gmap string string) db0 rules0 (req0 "nobody") resp_zero =
  process_request (T := gmap string string) db0 rules0 (with_user (req0 "nobody") "root") resp_zero.
Proof. apply (unknown_user_is_root db0 rules0 (req0 "nobody") resp_zero pw0); vm_compute; reflexivity. Defined.

Definition events0 : list event :=
  [Acceptable (Accept 5 (Some (1000, 1000)) true true); Acceptable (Accept 6 (Some (0, 0)) true true);
   Readable 6 (Recv sizeof_pfexec_req (req0 "root")) true; Readable 5 (RecvErr EAGAIN) true;
   Readable 6 (Recv 0 (req0 "root")) true].

Lemma event_dispatch_root_witness :
  exists d effs, event_dispatch (T := gmap string string) db0 rules0 daemon_init events0 = Ok (d, effs) /\
    length effs = 4%nat /\ daemon_inv d.
Proof.
  assert (exists d effs, event_dispatch (T := gmap string string) db0 rules0 daemon_init events0 = Ok (d, effs) /\
    length effs = 4%nat /\ bool_decide (pfd_clients d = []) = true /\
    forallb (fun e => match e with Exit => false | _ => true end) effs = true) as (d & effs & Hd & Hl & _ & Hx).
  { eexists _, _. split; [vm_compute; reflexivity|]. done. }
  exists d, effs. split; [exact Hd|]. split; [exact Hl|].
  apply (event_dispatch_root db0 rules0 events0 d effs Hd).
  intros He. rewrite forallb_forall in Hx. by specialize (Hx Exit (proj1 (list_elem_of_In _ _) He)).
Defined.
