(* ===== verification/PfexecConf.v ===== *)
(** * pfexecd.conf ([0.syscall-pfexec-obsd/src/pfexecd/parse.y])

    The scanner [yylex] of the configuration, the grammar with the actions that
    build the rules, and [parseconfig] of [pfexecd.c].  The parser itself is
    written by yacc from the grammar: the class [Yacc] states what yacc promises
    of it, and every theorem holds for any such parser. *)

From S2P Require Import RBTree Pfexecvar PfexecEnv Pfexecd Prelude.

(** ** Tokens and messages *)

Inductive token :=
  | TPERMIT | TDENY | TAS | TCMD | TARGS | TNOPASS | TNOLOG | TPERSIST | TKEEPENV
  | TSETENV | TSETGRP | TKEEPGRP | TCHROOT
  | TSTRING (s : string)
  | TNL | TOPEN | TCLOSE.

(** The messages of [yyerror], with the column where they name one. *)
Inductive yymsg :=
  | NulChar (col : Z) | OpenQuotes (col : Z) | OpenEscape (col : Z) | TooLong | InputError
  | NopassPersist | TwoSetenv | TwoSetgrp | TwoChroot.

(** What the scanner keeps: the rest of [yyfp], the position in [yylval] and the
    messages with their lines; [parse_errors] counts them. *)
Record lexer := Lexer {
  lx_in : string; lx_line : Z; lx_col : Z; lx_errs : list (yymsg * Z) }.
Definition parse_errors (lx : lexer) : nat := length (lx_errs lx).

Definition yyerror (m : yymsg) (lx : lexer) : lexer :=
  Lexer (lx_in lx) (lx_line lx) (lx_col lx) (lx_errs lx ++ [(m, lx_line lx + 1)]).

(** The table of keywords. *)
Definition keywords : list (string * token) :=
  [("deny", TDENY); ("permit", TPERMIT); ("as", TAS); ("cmd", TCMD); ("args", TARGS);
   ("nopass", TNOPASS); ("nolog", TNOLOG); ("persist", TPERSIST); ("keepenv", TKEEPENV);
   ("setenv", TSETENV); ("keepgroups", TKEEPGRP); ("setgroups", TSETGRP);
   ("chroot", TCHROOT)]%string.

Definition LF : ascii := "010"%char.
Definition TAB : ascii := "009"%char.
Definition QUOTE : ascii := "034"%char.
Definition BACKSLASH : ascii := "092"%char.
Definition sizeof_buf : Z := 1024.

(** ** Words

    The local variables of [yylex]: the word in [buf], and the flags. *)
Record word := Word {
  w_buf : string; w_quotes : bool; w_escape : bool; w_qpos : Z; w_nonkw : bool }.
Definition word0 : word := Word "" false false (-1) false.

Definition set_escape (b : bool) (w : word) : word :=
  Word (w_buf w) (w_quotes w) b (w_qpos w) (w_nonkw w).
Definition set_nonkw (w : word) : word :=
  Word (w_buf w) (w_quotes w) (w_escape w) (w_qpos w) true.

(** [*p++ = c] with the check of the end of [buf], and [escape = 0]. *)
Definition word_push (c : ascii) (w : word) (lx : lexer) : word * lexer :=
  let buf := (w_buf w ++ String c "")%string in
  let put b := Word b (w_quotes w) false (w_qpos w) (w_nonkw w) in
  if strlen buf =? sizeof_buf then (put ""%string, yyerror TooLong lx) else (put buf, lx).

(** The quote character toggles [quotes]. *)
Definition word_quote (w : word) (col : Z) : word :=
  if w_quotes w then Word (w_buf w) false (w_escape w) (w_qpos w) (w_nonkw w)
  else Word (w_buf w) true (w_escape w) col true.

(** What the [switch] of the word loop does with a character. *)
Inductive word_step := Continue (w : word) (lx : lexer) | Eow (w : word) (lx : lexer).

(** [lx] is the scanner before the character [c] is counted: its position is the
    one of [c], and [lx_in] is what follows [c]. *)
Definition word_char (c : ascii) (w : word) (lx : lexer) : word_step :=
  let push := let '(w, lx) := word_push c w lx in Continue w lx in
  if Ascii.eqb c NUL then Continue (set_escape false w) (yyerror (NulChar (lx_col lx + 1)) lx)
  else if Ascii.eqb c BACKSLASH then
    if w_escape w then push else Continue (set_escape true w) lx
  else if Ascii.eqb c LF then
    let lx := if w_quotes w then yyerror (OpenQuotes (w_qpos w + 1)) lx else lx in
    if w_escape w then
      Continue (set_escape false (set_nonkw w)) (Lexer (lx_in lx) (lx_line lx + 1) 0 (lx_errs lx))
    else Eow w lx
  else if Ascii.eqb c "{" || Ascii.eqb c "}" || Ascii.eqb c "#" || Ascii.eqb c " " || Ascii.eqb c TAB then
    if negb (w_escape w) && negb (w_quotes w) then Eow w lx else push
  else if Ascii.eqb c QUOTE then
    if w_escape w then push else Continue (word_quote w (lx_col lx)) lx
  else push.

(** [for (;; c = getc(yyfp), yylval.colno++)] over the characters [s]: the word, the
    scanner, with [c] given back by [ungetc], and whether [c] is [EOF]. *)
Fixpoint word_loop (s : string) (w : word) (line col : Z) (errs : list (yymsg * Z))
    : word * lexer * bool :=
  match s with
  | EmptyString =>
      let lx := Lexer "" line col errs in
      let lx := if w_escape w then yyerror (OpenEscape (lx_col lx)) lx else lx in
      let lx := if w_quotes w then yyerror (OpenQuotes (w_qpos w + 1)) lx else lx in
      (w, lx, true)
  | String c s =>
      match word_char c w (Lexer s line col errs) with
      | Continue w lx => word_loop s w (lx_line lx) (lx_col lx + 1) (lx_errs lx)
      | Eow w lx => (w, Lexer (String c s) (lx_line lx) (lx_col lx) (lx_errs lx), false)
      end
  end.

(** ** [yylex] *)

(** Skipping whitespace and comments. *)
Fixpoint skip_blanks (s : string) (col : Z) : string * Z :=
  match s with
  | String c s' => if Ascii.eqb c " " || Ascii.eqb c TAB then skip_blanks s' (col + 1) else (s, col)
  | EmptyString => (s, col)
  end.
Fixpoint skip_comment (s : string) : option string :=
  match s with
  | String c s' => if Ascii.eqb c LF then Some s' else skip_comment s'
  | EmptyString => None
  end.

Definition keyword (buf : string) : option token :=
  snd <$> List.find (fun kw => String.eqb buf (fst kw)) keywords.

Section Yylex.
(** [ferror(yyfp)]. *)
Context (ferr : bool).

(** [eof:]. *)
Definition lex_eof (lx : lexer) : option token * lexer :=
  (None, if ferr then yyerror InputError lx else lx).

(** From [repeat:] on; the fuel counts the jumps back to it. *)
Fixpoint yylex_from (fuel : nat) (w : word) (lx : lexer) : ub (option token * lexer) :=
  match fuel with
  | O => UB no_fuel
  | S fuel =>
      let '(s, col) := skip_blanks (lx_in lx) (lx_col lx) in
      let lx := Lexer s (lx_line lx) col (lx_errs lx) in
      match s with
      | EmptyString => Ok (lex_eof lx)
      | String c s' =>
          if Ascii.eqb c LF then Ok (Some TNL, Lexer s' (lx_line lx + 1) 0 (lx_errs lx))
          else if Ascii.eqb c "{" then Ok (Some TOPEN, Lexer s' (lx_line lx) col (lx_errs lx))
          else if Ascii.eqb c "}" then Ok (Some TCLOSE, Lexer s' (lx_line lx) col (lx_errs lx))
          else if Ascii.eqb c "#" then
            match skip_comment s' with
            | Some s' => Ok (Some TNL, Lexer s' (lx_line lx + 1) 0 (lx_errs lx))
            | None => Ok (lex_eof (Lexer "" (lx_line lx) col (lx_errs lx)))
            end
          else
            let '(w, lx, eof) := word_loop s w (lx_line lx) col (lx_errs lx) in
            if String.eqb (w_buf w) "" && eof then Ok (lex_eof lx)
            else if String.eqb (w_buf w) "" && (w_qpos w =? -1) then yylex_from fuel w lx
            else
              match (if w_nonkw w then None else keyword (w_buf w)) with
              | Some t => Ok (Some t, lx)
              | None => Ok (Some (TSTRING (w_buf w)), lx)
              end
      end
  end.

Definition yylex (lx : lexer) : ub (option token * lexer) :=
  yylex_from (S (String.length (lx_in lx))) word0 lx.

(** The calls of [yylex] up to the one that returns 0; the fuel counts them. *)
Fixpoint yylex_all (fuel : nat) (lx : lexer) : ub (list token * lexer) :=
  match fuel with
  | O => UB no_fuel
  | S fuel =>
      '(t, lx) ← yylex lx;
      match t with
      | Some t => '(ts, lx) ← yylex_all fuel lx; Ok (t :: ts, lx)
      | None => Ok ([], lx)
      end
  end.
Definition scan (text : string) : ub (list token * lexer) :=
  yylex_all (S (String.length text)) (Lexer text 0 0 []).
End Yylex.

(** ** Termination and the buffer of words *)

(** A word in [buf] has at most 1023 characters. *)
Definition word_ok (w : word) : Prop := strlen (w_buf w) < sizeof_buf.

Lemma word_push_spec c w lx :
  word_ok w ->
  word_ok (word_push c w lx).1 /\ lx_in (word_push c w lx).2 = lx_in lx.
Proof.
  unfold word_push, word_ok. intros Hw.
  assert (strlen (w_buf w ++ String c "") = strlen (w_buf w) + 1) as Hl.
  { unfold strlen. rewrite string_length_app. simpl. lia. }
  case_if; simpl; [done|]. cbool. rewrite Hl in *. split; [lia|done].
Qed.

Lemma word_char_ok c w lx :
  word_ok w ->
  match word_char c w lx with
  | Continue w' lx' => word_ok w' /\ lx_in lx' = lx_in lx
  | Eow w' lx' => word_ok w' /\ lx_in lx' = lx_in lx
  end.
Proof.
  intros Hw. pose proof (word_push_spec c w lx Hw) as Hp. unfold word_char.
  destruct (word_push c w lx) as [w' lx']. simpl in Hp.
  repeat case_match; simplify_eq; simpl; try done; by unfold word_quote; destruct (w_quotes w).
Qed.

(** The word loop stops, in front of a delimiter or at the end of the input. *)
Lemma word_loop_ok s w line col errs :
  word_ok w ->
  match word_loop s w line col errs with
  | (w', lx, eof) =>
      word_ok w' /\ (String.length (lx_in lx) <= String.length s)%nat /\
      (eof = true -> lx_in lx = "")
  end.
Proof.
  revert w line col errs; induction s as [|c s IH]; intros w line col errs Hw; simpl.
  { destruct (w_escape w), (w_quotes w); simpl; done. }
  pose proof (word_char_ok c w (Lexer s line col errs) Hw) as Hc.
  destruct (word_char c w (Lexer s line col errs)) as [w' lx|w' lx]; simpl in Hc; [|naive_solver].
  specialize (IH w' (lx_line lx) (lx_col lx + 1) (lx_errs lx) (proj1 Hc)).
  destruct (word_loop s w' _ _ _) as [[? ?] ?]. naive_solver lia.
Qed.

Definition delimiter (c : ascii) : bool :=
  Ascii.eqb c LF || Ascii.eqb c "{" || Ascii.eqb c "}" || Ascii.eqb c "#" || Ascii.eqb c " " || Ascii.eqb c TAB.

(** The first character of a word is read by the loop. *)
Lemma word_loop_first c s w line col errs :
  word_ok w -> delimiter c = false ->
  (String.length (lx_in (word_loop (String c s) w line col errs).1.2) <= String.length s)%nat.
Proof.
  intros Hw Hd. unfold delimiter in Hd. rewrite !orb_false_iff in Hd.
  destruct Hd as [[[[[Hlf Ho] Hc] Hh] Hs] Ht].
  simpl. pose proof (word_char_ok c w (Lexer s line col errs) Hw) as Hk.
  destruct (word_char c w (Lexer s line col errs)) as [w' lx|w' lx] eqn:E; simpl in *.
  - pose proof (word_loop_ok s w' (lx_line lx) (lx_col lx + 1) (lx_errs lx) (proj1 Hk)) as Hl.
    destruct (word_loop s w' _ _ _) as [[? ?] ?]. naive_solver.
  - exfalso. revert E. unfold word_char. rewrite Hlf, Ho, Hc, Hh, Hs, Ht. simpl.
    destruct (word_push c w _). repeat case_match; done.
Qed.

Lemma skip_blanks_ok s col :
  match skip_blanks s col with
  | (s', _) => (String.length s' <= String.length s)%nat /\
               (forall c s'', s' = String c s'' -> Ascii.eqb c " " = false /\ Ascii.eqb c TAB = false)
  end.
Proof.
  revert col; induction s as [|c s IH]; intros col; simpl; [done|].
  destruct (Ascii.eqb c " " || Ascii.eqb c TAB) eqn:E.
  - specialize (IH (col + 1)). destruct (skip_blanks s (col + 1)). naive_solver lia.
  - apply orb_false_iff in E. naive_solver.
Qed.

Lemma skip_comment_ok s s' : skip_comment s = Some s' -> (String.length s' < String.length s)%nat.
Proof.
  revert s'; induction s as [|c s IH]; intros s'; simpl; [done|].
  case_if; [intros [= ->]; lia|]. intros H%IH. lia.
Qed.

(** One call returns, and has consumed input when it returns a token; a string has
    at most 1023 characters. *)
Definition token_ok (t : token) : Prop :=
  if t is TSTRING s then strlen s < sizeof_buf else True.

Lemma keyword_ok buf t : keyword buf = Some t -> token_ok t.
Proof.
  unfold keyword. intros (kw & Hf & ->)%fmap_Some.
  apply List.find_some in Hf as [Hin _]. unfold keywords in Hin. simpl in Hin.
  naive_solver.
Qed.

Lemma yylex_from_ok ferr fuel w lx :
  (String.length (lx_in lx) < fuel)%nat -> word_ok w ->
  exists t lx', yylex_from ferr fuel w lx = Ok (t, lx') /\
    match t with
    | Some t => token_ok t /\ (String.length (lx_in lx') < String.length (lx_in lx))%nat
    | None => True
    end.
Proof.
  revert w lx; induction fuel as [|fuel IH]; intros w [s0 line col errs] Hf Hw; [simpl in Hf; lia|].
  simpl in Hf |- *. pose proof (skip_blanks_ok s0 col) as Hs.
  destruct (skip_blanks s0 col) as [[|c s] col'] eqn:Esk; [by do 2 eexists|].
  destruct Hs as [Hl Hb]. specialize (Hb c s eq_refl) as [Hsp Htab]. simpl in Hl.
  destruct (Ascii.eqb c LF) eqn:Elf; [do 2 eexists; split; [done|]; simpl; split; [done|lia]|].
  destruct (Ascii.eqb c "{") eqn:Eo; [do 2 eexists; split; [done|]; simpl; split; [done|lia]|].
  destruct (Ascii.eqb c "}") eqn:Ec; [do 2 eexists; split; [done|]; simpl; split; [done|lia]|].
  destruct (Ascii.eqb c "#") eqn:Eh.
  { destruct (skip_comment s) as [s'|] eqn:Ek; [|by do 2 eexists].
    apply skip_comment_ok in Ek. do 2 eexists; split; [done|]. simpl. split; [done|lia]. }
  assert (delimiter c = false) as Hd.
  { unfold delimiter. by rewrite Elf, Eo, Ec, Eh, Hsp, Htab. }
  pose proof (word_loop_ok (String c s) w line col' errs Hw) as Hok.
  pose proof (word_loop_first c s w line col' errs Hw Hd) as Hfst.
  change (lx_line _) with line. change (lx_errs _) with errs.
  destruct (word_loop (String c s) w line col' errs) as [[w' lx'] eof].
  simpl in Hfst. destruct Hok as (Hw' & _ & _).
  case_if; [by do 2 eexists|]. case_if.
  { destruct (IH w' lx') as (t & lx'' & -> & Ht); [lia|done|]. do 2 eexists. split; [done|].
    destruct t; [|done]. split; [apply Ht|]. destruct Ht. lia. }
  destruct (if w_nonkw w' then None else keyword (w_buf w')) as [t|] eqn:Ek.
  - do 2 eexists; split; [done|]. split; [|lia].
    destruct (w_nonkw w'); [done|]. by eapply keyword_ok.
  - do 2 eexists; split; [done|]. split; [done|lia].
Qed.

Lemma yylex_all_ok ferr fuel lx :
  (String.length (lx_in lx) < fuel)%nat ->
  exists ts lx', yylex_all ferr fuel lx = Ok (ts, lx') /\ Forall token_ok ts.
Proof.
  revert lx; induction fuel as [|fuel IH]; intros lx Hf; [lia|]. simpl. unfold yylex.
  destruct (yylex_from_ok ferr (S (String.length (lx_in lx))) word0 lx) as (t & lx' & -> & Ht);
    [lia|done|]. simpl. destruct t as [t|]; [|by do 2 eexists].
  destruct (IH lx') as (ts & lx'' & -> & Hts); [lia|]. simpl. do 2 eexists. split; [done|].
  constructor; [apply Ht|done].
Qed.

Lemma scan_total ferr text : exists ts lx, scan ferr text = Ok (ts, lx) /\ Forall token_ok ts.
Proof. apply yylex_all_ok. simpl. lia. Qed.

(** ** Writing tokens so that they are read back

    A string is written between quotes, with quotes and backslashes escaped. *)

Fixpoint escape_str (s : string) : string :=
  match s with
  | EmptyString => EmptyString
  | String c s =>
      if Ascii.eqb c QUOTE || Ascii.eqb c BACKSLASH then String BACKSLASH (String c (escape_str s))
      else String c (escape_str s)
  end.

Definition keyword_text (t : token) : string :=
  match List.find (fun kw => match snd kw, t with
                             | TPERMIT, TPERMIT | TDENY, TDENY | TAS, TAS | TCMD, TCMD
                             | TARGS, TARGS | TNOPASS, TNOPASS | TNOLOG, TNOLOG
                             | TPERSIST, TPERSIST | TKEEPENV, TKEEPENV | TSETENV, TSETENV
                             | TSETGRP, TSETGRP | TKEEPGRP, TKEEPGRP | TCHROOT, TCHROOT => true
                             | _, _ => false
                             end) keywords with
  | Some kw => fst kw
  | None => ""
  end.

Definition token_text (t : token) : string :=
  match t with
  | TSTRING s => String QUOTE (escape_str s ++ String QUOTE "")
  | TNL => String LF ""
  | TOPEN => "{"
  | TCLOSE => "}"
  | t => keyword_text t
  end.

Fixpoint tokens_text (ts : list token) : string :=
  match ts with
  | [] => ""
  | t :: ts => token_text t ++ String " " (tokens_text ts)
  end.

(** Strings of at most 1023 bytes without NUL and newline can be written. *)
Fixpoint no_lf (s : string) : bool :=
  match s with EmptyString => true | String c s => negb (Ascii.eqb c LF) && no_lf s end.
Definition printable (s : string) : Prop :=
  no_nul s = true /\ no_lf s = true /\ strlen s < sizeof_buf.
Definition token_printable (t : token) : Prop :=
  if t is TSTRING s then printable s else True.

Lemma word_push_app b c q p k lx :
  strlen (b ++ String c "") < sizeof_buf ->
  forall e, word_push c (Word b q e p k) lx = (Word (b ++ String c "") q false p k, lx).
Proof. intros Hl e. unfold word_push. simpl. case_if; [|done]. cbool. lia. Qed.

Lemma word_loop_string s b q p line col errs rest :
  no_nul s = true -> no_lf s = true -> strlen (b ++ s) < sizeof_buf -> q = true ->
  exists col', col <= col' /\ word_loop (escape_str s ++ rest) (Word b q false p true) line col errs
             = word_loop rest (Word (b ++ s) q false p true) line col' errs.
Proof.
  intros Hn Hlf Hl ->. revert b col Hl. induction s as [|c s IH]; intros b col Hl; simpl.
  { exists col. by rewrite string_app_nil_r. }
  simpl in Hn, Hlf. apply andb_true_iff in Hn as [Hc Hn], Hlf as [Hcl Hlf].
  apply negb_true_iff in Hc, Hcl.
  assert (b ++ String c s = (b ++ String c "") ++ s)%string as Heq.
  { by rewrite string_app_assoc. }
  rewrite Heq in Hl |- *.
  assert (strlen (b ++ String c "") < sizeof_buf) as Hb.
  { unfold strlen in *. rewrite string_length_app in Hl. lia. }
  destruct (Ascii.eqb c QUOTE || Ascii.eqb c BACKSLASH) eqn:E; simpl.
  - replace (word_char c _ _) with (Continue (Word (b ++ String c "") true false p true)
      (Lexer (escape_str s ++ rest) line (col + 1) errs)).
    { destruct (IH Hn Hlf _ (col + 1 + 1) Hl) as (col' & ? & ?). exists col'. by split; [lia|]. }
    unfold word_char, set_escape. simpl. rewrite Hc, Hcl, word_push_app by done.
    apply orb_true_iff in E as [E|E]; apply Ascii.eqb_eq in E as ->; done.
  - apply orb_false_iff in E as [E1 E2].
    replace (word_char c _ _) with (Continue (Word (b ++ String c "") true false p true)
      (Lexer (escape_str s ++ rest) line col errs)).
    { destruct (IH Hn Hlf _ (col + 1) Hl) as (col' & ? & ?). exists col'. by split; [lia|]. }
    unfold word_char. simpl. rewrite Hc, Hcl, E1, E2, word_push_app by done.
    by destruct (_ || _).
Qed.

(** Characters that the word loop takes as they are. *)
Fixpoint plain (s : string) : bool :=
  match s with
  | EmptyString => true
  | String c s => negb (Ascii.eqb c NUL || Ascii.eqb c BACKSLASH || Ascii.eqb c QUOTE || delimiter c) && plain s
  end.

Lemma word_loop_plain s b p k line col errs rest :
  plain s = true -> strlen (b ++ s) < sizeof_buf ->
  exists col', col <= col' /\ word_loop (s ++ String " " rest) (Word b false false p k) line col errs
             = (Word (b ++ s) false false p k, Lexer (String " " rest) line col' errs, false).
Proof.
  revert b col. induction s as [|c s IH]; intros b col Hp Hl; simpl.
  { exists col. by rewrite string_app_nil_r. }
  simpl in Hp. apply andb_true_iff in Hp as [Hc Hp]. unfold delimiter in Hc.
  rewrite negb_true_iff, !orb_false_iff in Hc. destruct Hc as [[[Hn Hb] Hq] [[[[[Hlf Ho] Hcl] Hh] Hs] Ht]].
  assert (b ++ String c s = (b ++ String c "") ++ s)%string as Heq.
  { by rewrite string_app_assoc. }
  rewrite Heq in Hl |- *.
  assert (strlen (b ++ String c "") < sizeof_buf) as Hbl.
  { unfold strlen in *. rewrite string_length_app in Hl. lia. }
  unfold word_char. rewrite Hn, Hb, Hlf, Ho, Hcl, Hh, Hs, Ht, Hq, word_push_app by done. simpl.
  destruct (IH _ (col + 1) Hp Hl) as (col' & ? & ?). exists col'. by split; [lia|].
Qed.

Lemma skip_blank_space s col : exists col', skip_blanks (String " " s) col = skip_blanks s col'.
Proof. by exists (col + 1). Qed.

Lemma keyword_text_spec t :
  match t with TSTRING _ | TNL | TOPEN | TCLOSE => False | _ => True end ->
  token_text t = keyword_text t /\ plain (keyword_text t) = true /\
  keyword (keyword_text t) = Some t /\ strlen (keyword_text t) < sizeof_buf /\
  exists c s, keyword_text t = String c s /\ delimiter c = false.
Proof. destruct t; try done; intros _; (split_and!; [done..|do 2 eexists; done]). Qed.

(** [yylex] in front of the text of a token, whatever blanks come first. *)
Lemma yylex_token ferr n t rest line col errs :
  token_printable t -> 0 <= col ->
  exists line' col', 0 <= col' /\ yylex_from ferr (S n) word0 (Lexer (token_text t ++ String " " rest) line col errs)
    = Ok (Some t, Lexer (String " " rest) line' col' errs).
Proof.
  intros Ht Hcol.
  destruct (match t with TSTRING _ | TNL | TOPEN | TCLOSE => false | _ => true end) eqn:Ek.
  - destruct (keyword_text_spec t) as (-> & Hp & Hk & Hl & c & s & Hcs & Hd); [by destruct t|].
    destruct (word_loop_plain (keyword_text t) "" (-1) false line col errs rest Hp Hl) as (col' & Hcol' & Hw).
    rewrite Hcs in Hw |- *. unfold delimiter in Hd. rewrite !orb_false_iff in Hd.
    destruct Hd as [[[[[Hlf Ho] Hc] Hh] Hs] Htab].
    exists line, col'. split; [lia|].
    cbn [yylex_from lx_in lx_line lx_col lx_errs].
    change (String c s ++ String " " rest)%string with (String c (s ++ String " " rest)).
    cbn [skip_blanks]. rewrite Hs, Htab. simpl orb. cbv iota zeta. rewrite Hlf, Ho, Hc, Hh.
    change (String c (s ++ String " " rest)) with (String c s ++ String " " rest)%string.
    unfold word0. cbn [lx_line lx_errs]. rewrite Hw. cbn [w_buf w_qpos w_nonkw String.append].
    rewrite andb_false_r. simpl. rewrite <- Hcs.
    change ("" ++ keyword_text t)%string with (keyword_text t). by rewrite Hk.
  - destruct t as [| | | | | | | | | | | | |s| | |]; try done; [|do 2 eexists; (split; [|reflexivity]); simpl; lia..].
    destruct Ht as (Hn & Hlf & Hl).
    destruct (word_loop_string s "" true col line (col + 1) errs
      (String QUOTE (String " " rest))) as (col' & Hcol' & Hw); [done..|].
    exists line, (col' + 1). split; [lia|].
    replace (token_text (TSTRING s) ++ String " " rest)%string
      with (String QUOTE (escape_str s ++ String QUOTE (String " " rest)))
      by (change (String QUOTE (String " " rest)) with (String QUOTE "" ++ String " " rest)%string;
          by rewrite <- string_app_assoc).
    cbn [yylex_from lx_in lx_line lx_col lx_errs skip_blanks]. simpl orb. cbv iota zeta.
    change (word_loop (String QUOTE (escape_str s ++ String QUOTE (String " " rest))) word0 line col errs)
      with (word_loop (escape_str s ++ String QUOTE (String " " rest))
             (Word "" true false col true) line (col + 1) errs).
    change (Ascii.eqb QUOTE LF) with false. change (Ascii.eqb QUOTE "{") with false.
    change (Ascii.eqb QUOTE "}") with false. change (Ascii.eqb QUOTE "#") with false.
    cbn [lx_line lx_errs]. rewrite Hw. cbn. rewrite andb_false_r.
    replace (col =? -1) with false; [by rewrite andb_false_r|].
    symmetry. apply Z.eqb_neq. lia.
Qed.

Lemma yylex_blank ferr n w s line col errs :
  yylex_from ferr (S n) w (Lexer (String " " s) line col errs) =
  yylex_from ferr (S n) w (Lexer s line (col + 1) errs).
Proof. done. Qed.

Lemma tokens_text_length ts : (length ts <= String.length (tokens_text ts))%nat.
Proof.
  induction ts as [|t ts IH]; simpl; [lia|]. rewrite string_length_app. simpl. lia.
Qed.

Lemma yylex_all_text fuel ts pre line col errs :
  Forall token_printable ts -> 0 <= col -> (length ts < fuel)%nat -> pre = "" \/ pre = " " ->
  exists line' col',
    yylex_all false fuel (Lexer (pre ++ tokens_text ts) line col errs) = Ok (ts, Lexer "" line' col' errs).
Proof.
  revert pre fuel line col; induction ts as [|t ts IH]; intros pre fuel line col Hp Hc Hf Hpre;
    (destruct fuel as [|fuel]; [simpl in Hf; lia|]); cbn [yylex_all]; unfold yylex.
  { destruct Hpre as [-> | ->]; by do 2 eexists. }
  apply Forall_cons in Hp as [Ht Hp]. simpl in Hf.
  assert (exists c0, 0 <= c0 /\ forall n, yylex_from false (S n) word0
      (Lexer (pre ++ tokens_text (t :: ts)) line col errs) = yylex_from false (S n) word0
      (Lexer (token_text t ++ String " " (tokens_text ts)) line c0 errs)) as (c0 & Hc0 & Hpre0).
  { destruct Hpre as [-> | ->]; [by exists col|]. exists (col + 1). split; [lia|]. done. }
  rewrite Hpre0.
  edestruct (yylex_token false) as (l1 & c1 & Hc1 & ->); [done|done|]. simpl.
  edestruct (IH " " fuel l1 c1) as (l2 & c2 & IH'); [done|done|lia|by right|].
  change (" " ++ tokens_text ts)%string with (String " " (tokens_text ts)) in IH'.
  rewrite IH'. simpl. by do 2 eexists.
Qed.

(** What is written is read back, without a message. *)
Lemma scan_text ts :
  Forall token_printable ts ->
  exists line col, scan false (tokens_text ts) = Ok (ts, Lexer "" line col []).
Proof.
  intros Hp. unfold scan. apply (yylex_all_text _ ts ""); [done..| |by left].
  pose proof (tokens_text_length ts). lia.
Qed.

(** ** The grammar

    One relation per nonterminal between the tokens of a derivation and the value
    that the actions compute; a [NULL]-terminated array is the list of its
    elements.  The production [error '\n'] has no place here: a text that needs it
    has an error. *)

Record optval := OptVal {
  ov_options : Z; ov_envlist : option (list string); ov_grplist : option (list string);
  ov_chroot : option string }.

(** The action of [options: options option], with the message before [YYERROR]. *)
Definition options_add (o1 o2 : optval) : yymsg + optval :=
  let options := Z.lor (ov_options o1) (ov_options o2) in
  if Z.land options (Z.lor NOPASS PERSIST) =? Z.lor NOPASS PERSIST then inl NopassPersist else
  match ov_envlist o2, ov_envlist o1 with
  | Some _, Some _ => inl TwoSetenv
  | e2, e1 =>
      match ov_grplist o2, ov_grplist o1 with
      | Some _, Some _ => inl TwoSetgrp
      | g2, g1 =>
          match ov_chroot o2, ov_chroot o1 with
          | Some _, Some _ => inl TwoChroot
          | c2, c1 =>
              let pick {A} (x2 x1 : option A) := if x2 is Some _ then x2 else x1 in
              inr (OptVal options (pick e2 e1) (pick g2 g1) (pick c2 c1))
          end
      end
  end.
Definition no_options : optval := OptVal 0 None None None.

Inductive strlist : list token -> list string -> Prop :=
  | strlist_empty : strlist [] []
  | strlist_more ts l s : strlist ts l -> strlist (ts ++ [TSTRING s]) (l ++ [s]).

Inductive option_ : list token -> optval -> Prop :=
  | option_nopass : option_ [TNOPASS] (OptVal NOPASS None None None)
  | option_nolog : option_ [TNOLOG] (OptVal NOLOG None None None)
  | option_persist : option_ [TPERSIST] (OptVal PERSIST None None None)
  | option_keepenv : option_ [TKEEPENV] (OptVal KEEPENV None None None)
  | option_keepgrp : option_ [TKEEPGRP] (OptVal KEEPGRP None None None)
  | option_setenv ts l :
      strlist ts l -> option_ (TSETENV :: TOPEN :: ts ++ [TCLOSE]) (OptVal 0 (Some l) None None)
  | option_setgrp ts l s :
      strlist ts l ->
      option_ (TSETGRP :: TOPEN :: ts ++ [TSTRING s; TCLOSE]) (OptVal 0 None (Some (l ++ [s])) None)
  | option_chroot : option_ [TCHROOT; TOPEN; TCLOSE] (OptVal CHROOT None None None)
  | option_chroot_dir s :
      option_ [TCHROOT; TOPEN; TSTRING s; TCLOSE] (OptVal CHROOT None None (Some s)).

Inductive options : list token -> optval -> Prop :=
  | options_none : options [] no_options
  | options_more ts v us o v' :
      options ts v -> option_ us o -> options_add v o = inr v' -> options (ts ++ us) v'.

Inductive action : list token -> Z * optval -> Prop :=
  | action_permit ts v : options ts v -> action (TPERMIT :: ts) (PERMIT, v)
  | action_deny : action [TDENY] (DENY, no_options).

Inductive target : list token -> option string -> Prop :=
  | target_none : target [] None
  | target_as s : target [TAS; TSTRING s] (Some s).

Inductive args : list token -> option (list string) -> Prop :=
  | args_empty : args [] None
  | args_list ts l : strlist ts l -> args (TARGS :: ts) (Some l).

Inductive cmd : list token -> option string * option (list string) -> Prop :=
  | cmd_none : cmd [] (None, None)
  | cmd_args s ts l : args ts l -> cmd (TCMD :: TSTRING s :: ts) (Some s, l).

(** The fields that the action of [rule] sets in the new structure. *)
Definition rule_make (a : Z * optval) (ident : string) (target : option string)
    (c : option string * option (list string)) : rule :=
  Rule (fst a) (ov_options (snd a)) ident target (fst c) (snd c)
    (ov_envlist (snd a)) (ov_grplist (snd a)) (ov_chroot (snd a)).

Inductive rule_ : list token -> rule -> Prop :=
  | rule_intro ts a ident us t vs c :
      action ts a -> target us t -> cmd vs c ->
      rule_ (ts ++ TSTRING ident :: us ++ vs) (rule_make a ident t c).

Inductive grammar : list token -> list rule -> Prop :=
  | grammar_empty : grammar [] []
  | grammar_nl ts rs : grammar ts rs -> grammar (ts ++ [TNL]) rs
  | grammar_rule ts rs us r : grammar ts rs -> rule_ us r -> grammar (ts ++ us ++ [TNL]) (rs ++ [r]).

(** The table [rules], which doubles when it is full; [nrules] is its length. *)
Record rtab := RTab { rt_rules : list rule; rt_max : Z }.
Definition rule_append (t : rtab) (r : rule) : ub rtab :=
  let n := Z.of_nat (length (rt_rules t)) in
  let max := if n =? rt_max t then (if rt_max t =? 0 then 32 else rt_max t) * 2 else rt_max t in
  if n <? max then Ok (RTab (rt_rules t ++ [r]) max) else UB out_of_bounds.
Fixpoint rules_append (t : rtab) (rs : list rule) : ub rtab :=
  match rs with
  | [] => Ok t
  | r :: rs => t ← rule_append t r; rules_append t rs
  end.

(** What yacc promises of the parser it writes: [yyparse] reads the tokens, runs the
    action of [rule] for the rules of the list, and calls [yyerror] the number of
    times that is the second component.  It does not call it exactly when the
    tokens can be derived with actions that succeed. *)
Class Yacc := {
  yyparse : list token -> list rule * nat;
  yyparse_spec ts rs : yyparse ts = (rs, O) <-> grammar ts rs }.

(** [parseconfig]: the result and the table.  [fmem] tells whether [fmemopen] gives
    a stream for that many bytes; without one [getc] uses NULL. *)
Definition parseconfig `{Yacc} (fmem : Z -> bool) (buf : string) (conflen : Z) : ub (Z * rtab) :=
  if fmem (conflen - 1) then
    '(ts, lx) ← scan false (String.substring 0 (Z.to_nat (conflen - 1)) buf);
    let '(rs, errors) := yyparse ts in
    t ← rules_append (RTab [] 0) rs;
    Ok (if nz (Z.of_nat (parse_errors lx + errors)) then 1 else 0, t)
  else UB null_deref.

(** ** A parser that keeps yacc's promise

    The grammar with one token of lookahead; it shows that the promise can be kept,
    and that a text has at most one list of rules. *)

Fixpoint p_strlist (ts : list token) : list string * list token :=
  match ts with
  | TSTRING s :: ts => let '(l, rest) := p_strlist ts in (s :: l, rest)
  | _ => ([], ts)
  end.

Definition p_option (ts : list token) : option (optval * list token) :=
  match ts with
  | TNOPASS :: ts => Some (OptVal NOPASS None None None, ts)
  | TNOLOG :: ts => Some (OptVal NOLOG None None None, ts)
  | TPERSIST :: ts => Some (OptVal PERSIST None None None, ts)
  | TKEEPENV :: ts => Some (OptVal KEEPENV None None None, ts)
  | TKEEPGRP :: ts => Some (OptVal KEEPGRP None None None, ts)
  | TSETENV :: TOPEN :: ts =>
      match p_strlist ts with
      | (l, TCLOSE :: ts) => Some (OptVal 0 (Some l) None None, ts)
      | _ => None
      end
  | TSETGRP :: TOPEN :: ts =>
      match p_strlist ts with
      | (s :: l, TCLOSE :: ts) => Some (OptVal 0 None (Some (s :: l)) None, ts)
      | _ => None
      end
  | TCHROOT :: TOPEN :: TCLOSE :: ts => Some (OptVal CHROOT None None None, ts)
  | TCHROOT :: TOPEN :: TSTRING s :: TCLOSE :: ts => Some (OptVal CHROOT None None (Some s), ts)
  | _ => None
  end.

Definition starts_option (t : token) : bool :=
  match t with
  | TNOPASS | TNOLOG | TPERSIST | TKEEPENV | TKEEPGRP | TSETENV | TSETGRP | TCHROOT => true
  | _ => false
  end.

Fixpoint p_options (fuel : nat) (v : optval) (ts : list token) : option (optval * list token) :=
  match fuel, ts with
  | S fuel, t :: _ =>
      if starts_option t then
        '(o, ts) ← p_option ts;
        match options_add v o with inr v => p_options fuel v ts | inl _ => None end
      else Some (v, ts)
  | S _, [] => Some (v, [])
  | O, _ => None
  end.

Definition p_action (ts : list token) : option (Z * optval * list token) :=
  match ts with
  | TPERMIT :: ts => '(v, ts) ← p_options (S (length ts)) no_options ts; Some ((PERMIT, v), ts)
  | TDENY :: ts => Some ((DENY, no_options), ts)
  | _ => None
  end.
Definition p_target (ts : list token) : option (option string * list token) :=
  match ts with
  | TAS :: TSTRING s :: ts => Some (Some s, ts)
  | TAS :: _ => None
  | ts => Some (None, ts)
  end.
Definition p_cmd (ts : list token) : option (option string * option (list string) * list token) :=
  match ts with
  | TCMD :: TSTRING s :: TARGS :: ts => let '(l, ts) := p_strlist ts in Some ((Some s, Some l), ts)
  | TCMD :: TSTRING s :: ts => Some ((Some s, None), ts)
  | TCMD :: _ => None
  | ts => Some ((None, None), ts)
  end.
Definition p_rule (ts : list token) : option (rule * list token) :=
  '(a, ts) ← p_action ts;
  match ts with
  | TSTRING ident :: ts =>
      '(t, ts) ← p_target ts; '(c, ts) ← p_cmd ts; Some (rule_make a ident t c, ts)
  | _ => None
  end.

Fixpoint p_grammar (fuel : nat) (rs : list rule) (ts : list token) : option (list rule) :=
  match fuel, ts with
  | S _, [] => Some rs
  | S fuel, TNL :: ts => p_grammar fuel rs ts
  | S fuel, ts =>
      '(r, ts) ← p_rule ts;
      match ts with TNL :: ts => p_grammar fuel (rs ++ [r]) ts | _ => None end
  | O, _ => None
  end.

(** *** Strings, options and rules are read whatever follows them *)

Lemma strlist_spec ts l : strlist ts l <-> ts = TSTRING <$> l.
Proof.
  split.
  - induction 1 as [|ts l s _ ->]; [done|]. by rewrite fmap_app.
  - intros ->. induction l as [|s l IH] using rev_ind; [constructor|].
    rewrite fmap_app. by constructor.
Qed.

Definition no_string (ts : list token) : Prop :=
  match ts with TSTRING _ :: _ => False | _ => True end.

Lemma p_strlist_app l rest : no_string rest -> p_strlist ((TSTRING <$> l) ++ rest) = (l, rest).
Proof.
  intros Hr. induction l as [|s l IH]; [by destruct rest as [|[] ?]|].
  rewrite fmap_cons. cbn [p_strlist app]. by rewrite IH.
Qed.

Lemma p_strlist_split ts : ts = (TSTRING <$> (p_strlist ts).1) ++ (p_strlist ts).2.
Proof.
  induction ts as [|t ts IH]; [done|]. destruct t; try done. simpl.
  destruct (p_strlist ts) as [l rest]. cbn [fst snd] in *. rewrite fmap_cons. by rewrite IH at 1.
Qed.

Lemma option_read us o rest : option_ us o -> p_option (us ++ rest) = Some (o, rest).
Proof.
  destruct 1 as [| | | | |ts l H|ts l s H| |]; try done; apply strlist_spec in H as ->; simpl.
  - rewrite <- app_assoc. simpl. by rewrite p_strlist_app.
  - rewrite <- app_assoc. simpl.
    replace ((TSTRING <$> l) ++ TSTRING s :: TCLOSE :: rest)
      with ((TSTRING <$> (l ++ [s])) ++ TCLOSE :: rest) by (by rewrite fmap_app, <- app_assoc).
    rewrite p_strlist_app by done. by destruct l.
Qed.

Lemma option_starts us o : option_ us o -> exists t us', us = t :: us' /\ starts_option t = true.
Proof. destruct 1; by do 2 eexists. Qed.

Lemma options_read us v :
  options us v ->
  exists k, (k <= length us)%nat /\
    forall fuel rest, p_options (k + fuel) no_options (us ++ rest) = p_options fuel v rest.
Proof.
  induction 1 as [|us v us' o v' _ (k & Hk & IH) Ho Ha]; [by exists O|].
  destruct (option_starts _ _ Ho) as (t & us'' & -> & Ht).
  exists (S k). split; [rewrite length_app; simpl; lia|]. intros fuel rest.
  replace (S k + fuel)%nat with (k + S fuel)%nat by lia.
  rewrite <- app_assoc, IH. cbn [p_options app]. rewrite Ht.
  pose proof (option_read _ _ rest Ho) as Hr. cbn [app] in Hr. rewrite Hr. cbn. by rewrite Ha.
Qed.

Lemma rule_read us r rest : rule_ us r -> p_rule (us ++ TNL :: rest) = Some (r, TNL :: rest).
Proof.
  destruct 1 as [ts a ident us t vs c Ha Ht Hc].
  assert (p_action ((ts ++ TSTRING ident :: us ++ vs) ++ TNL :: rest)
    = Some (a, TSTRING ident :: us ++ vs ++ TNL :: rest)) as Hact.
  { rewrite <- app_assoc. simpl. rewrite <- app_assoc. destruct Ha as [ts v Ho|]; [|done].
    cbn [p_action app]. destruct (options_read _ _ Ho) as (k & Hk & Hr).
    set (tl := TSTRING ident :: us ++ vs ++ TNL :: rest).
    replace (S (length (ts ++ tl))) with (k + (S (length ts - k + length tl)))%nat
      by (rewrite length_app; lia).
    by rewrite Hr. }
  unfold p_rule. rewrite Hact. simpl.
  assert (p_target (us ++ vs ++ TNL :: rest) = Some (t, vs ++ TNL :: rest)) as ->.
  { destruct Ht; [|done]. by destruct Hc. }
  simpl. assert (p_cmd (vs ++ TNL :: rest) = Some (c, TNL :: rest)) as ->; [|done].
  destruct Hc as [|s ts' l Hargs]; [done|]. destruct Hargs as [|ts'' l H]; [done|].
  apply strlist_spec in H as ->. simpl. by rewrite p_strlist_app.
Qed.

Lemma rule_starts us r : rule_ us r -> exists us', us = TPERMIT :: us' \/ us = TDENY :: us'.
Proof. destruct 1 as [? ? ? ? ? ? ? [] _ _]; eexists; [by left|by right]. Qed.

Lemma grammar_read us rs :
  grammar us rs ->
  exists k, (k <= length us)%nat /\
    forall fuel rest, p_grammar (k + fuel) [] (us ++ rest) = p_grammar fuel rs rest.
Proof.
  induction 1 as [|us rs _ (k & Hk & IH)|us rs us' r _ (k & Hk & IH) Hr]; [by exists O| |].
  - exists (S k). rewrite length_app. cbn [length]. split; [lia|]. intros fuel rest.
    replace (S k + fuel)%nat with (k + S fuel)%nat by lia. by rewrite <- app_assoc, IH.
  - exists (S k). rewrite !length_app. cbn [length]. split; [lia|]. intros fuel rest.
    replace (S k + fuel)%nat with (k + S fuel)%nat by lia. rewrite <- !app_assoc, IH. simpl.
    pose proof (rule_read _ _ rest Hr) as Hp.
    destruct (rule_starts _ _ Hr) as [us'' [-> | ->]]; simpl in *; by rewrite Hp.
Qed.

(** *** What the parser accepts is in the grammar *)

Lemma option_sound ts o rest : p_option ts = Some (o, rest) -> exists us, ts = us ++ rest /\ option_ us o.
Proof.
  intros Hp. destruct ts as [|t ts]; [done|].
  destruct t; try done; cbn [p_option] in Hp;
    try (injection Hp as <- <-; eexists [_]; split; [done|constructor]).
  - destruct ts as [|[] ts]; try done. pose proof (p_strlist_split ts) as Hs.
    destruct (p_strlist ts) as [l [|[] r]]; try done. cbn [fst snd] in Hs. injection Hp as <- <-.
    exists (TSETENV :: TOPEN :: (TSTRING <$> l) ++ [TCLOSE]). split.
    + rewrite Hs. cbn [app]. by rewrite <- app_assoc.
    + constructor. by apply strlist_spec.
  - destruct ts as [|[] ts]; try done. pose proof (p_strlist_split ts) as Hs.
    destruct (p_strlist ts) as [[|s l] [|[] r]]; try done. cbn [fst snd] in Hs. injection Hp as <- <-.
    assert (s :: l <> []) as Hne by done.
    destruct (exists_last Hne) as (l' & s' & Hl). rewrite Hl in Hs |- *.
    exists (TSETGRP :: TOPEN :: (TSTRING <$> l') ++ [TSTRING s'; TCLOSE]). split.
    + rewrite Hs, fmap_app. cbn [app]. by rewrite <- !app_assoc.
    + constructor. by apply strlist_spec.
  - destruct ts as [|[] [|[] ts]]; try done.
    + destruct ts as [|[] ts]; try done. injection Hp as <- <-. eexists [_; _; _; _]. split; [done|constructor].
    + injection Hp as <- <-. eexists [_; _; _]. split; [done|constructor].
Qed.

Lemma options_sound fuel ts0 v ts v' rest :
  options ts0 v -> p_options fuel v ts = Some (v', rest) ->
  exists us, ts = us ++ rest /\ options (ts0 ++ us) v'.
Proof.
  revert ts0 v ts. induction fuel as [|fuel IH]; intros ts0 v ts Ho Hp; [done|].
  destruct ts as [|t ts]; cbn [p_options] in Hp.
  { simplify_eq. exists []. split; [done|by rewrite app_nil_r]. }
  destruct (starts_option t).
  - destruct (p_option (t :: ts)) as [[o r]|] eqn:E; [|done]. cbn in Hp.
    destruct (options_add v o) as [|v1] eqn:Ha; [done|].
    apply option_sound in E as (us & -> & Hus).
    destruct (IH (ts0 ++ us) v1 r) as (us' & -> & Hv); [by eapply options_more|done|].
    exists (us ++ us'). by rewrite <- !app_assoc in *.
  - simplify_eq. exists []. split; [done|by rewrite app_nil_r].
Qed.

Lemma rule_sound ts r rest : p_rule ts = Some (r, rest) -> exists us, ts = us ++ rest /\ rule_ us r.
Proof.
  unfold p_rule. intros Hp. destruct (p_action ts) as [[a ts1]|] eqn:Ha; [|done]. cbn in Hp.
  assert (exists us, ts = us ++ ts1 /\ action us a) as (us & -> & Hact).
  { destruct ts as [|[] ts]; try done; cbn [p_action] in Ha.
    - destruct (p_options _ no_options ts) as [[v r']|] eqn:E; [|done]. cbn in Ha. simplify_eq.
      apply (options_sound _ []) in E as (us & -> & Hv); [|constructor].
      exists (TPERMIT :: us). by split; [|constructor].
    - simplify_eq. exists [TDENY]. by split; [|constructor]. }
  destruct ts1 as [|[] ts1]; try done.
  destruct (p_target ts1) as [[t ts2]|] eqn:Ht; [|done]. cbn in Hp.
  destruct (p_cmd ts2) as [[c ts3]|] eqn:Hc; [|done]. cbn in Hp. injection Hp as <- <-.
  assert (exists us, ts1 = us ++ ts2 /\ target us t) as (us2 & -> & Htar).
  { destruct ts1 as [|[] ts1]; cbn [p_target] in Ht; try (injection Ht as <- <-; exists []; split; [done|constructor]).
    destruct ts1 as [|[] ts1]; try done. injection Ht as <- <-. eexists [_; _]. split; [done|constructor]. }
  assert (exists us, ts2 = us ++ ts3 /\ cmd us c) as (us3 & -> & Hcmd).
  { clear Ha. destruct ts2 as [|[] ts2]; cbn [p_cmd] in Hc;
      try (injection Hc as <- <-; exists []; split; [done|constructor]).
    destruct ts2 as [|[] ts2]; try done.
    assert (forall ts', Some (Some s0, None, ts') = Some (c, ts3) ->
      exists us, TCMD :: TSTRING s0 :: ts' = us ++ ts3 /\ cmd us c) as Hno.
    { intros ts' [= <- <-]. eexists [_; _]. split; [done|]. do 2 constructor. }
    destruct ts2 as [|[] ts2]; try by apply Hno.
    pose proof (p_strlist_split ts2) as Hs. destruct (p_strlist ts2) as [l r]. cbn [fst snd] in Hs.
    injection Hc as <- <-. exists (TCMD :: TSTRING s0 :: TARGS :: (TSTRING <$> l)).
    split; [by rewrite Hs|]. do 2 constructor. by apply strlist_spec. }
  exists (us ++ TSTRING s :: us2 ++ us3). split; [|by constructor].
  rewrite <- app_assoc. cbn [app]. by rewrite <- app_assoc.
Qed.

Lemma grammar_sound fuel ts0 rs ts rs' :
  grammar ts0 rs -> p_grammar fuel rs ts = Some rs' -> grammar (ts0 ++ ts) rs'.
Proof.
  revert ts0 rs ts. induction fuel as [|fuel IH]; intros ts0 rs ts Hg Hp; [done|].
  assert (('(r, ts1) ← p_rule ts;
           match ts1 with TNL :: ts2 => p_grammar fuel (rs ++ [r]) ts2 | _ => None end) = Some rs' ->
          grammar (ts0 ++ ts) rs') as Hrule.
  { destruct (p_rule ts) as [[r ts1]|] eqn:E; [|done]. cbn. intros Hr.
    destruct ts1 as [|[] ts1]; try done. apply rule_sound in E as (us & -> & Hu).
    apply (IH (ts0 ++ us ++ [TNL])) in Hr; [|by constructor]. by rewrite <- !app_assoc in Hr. }
  destruct ts as [|[] ts]; try (by apply Hrule).
  - cbn in Hp. simplify_eq. by rewrite app_nil_r.
  - apply (IH (ts0 ++ [TNL])) in Hp; [|by constructor]. by rewrite <- app_assoc in Hp.
Qed.

Definition reference_parse (ts : list token) : list rule * nat :=
  match p_grammar (S (length ts)) [] ts with Some rs => (rs, O) | None => ([], 1%nat) end.

Lemma reference_parse_spec ts rs : reference_parse ts = (rs, O) <-> grammar ts rs.
Proof.
  unfold reference_parse. split.
  - destruct (p_grammar _ _ _) as [rs'|] eqn:E; [|done]. intros [= ->].
    by apply (grammar_sound _ [] []) in E; [|constructor].
  - intros Hg. destruct (grammar_read _ _ Hg) as (k & Hk & Hr).
    replace (S (length ts)) with (k + S (length ts - k))%nat by lia.
    specialize (Hr (S (length ts - k)) []). rewrite app_nil_r in Hr. by rewrite Hr.
Qed.

#[export] Instance reference_yacc : Yacc :=
  {| yyparse := reference_parse; yyparse_spec := reference_parse_spec |}.

(** ** Accepted rules

    What the grammar leaves of the structure: a rule that denies has no options;
    one that permits combines neither [nopass] with [persist] nor an empty list of
    groups, and names a directory only together with [chroot]. *)

Definition rule_wf (r : rule) : Prop :=
  (r_cmd r = None -> r_cmdargs r = None) /\
  ((r_action r = DENY /\ r_options r = 0 /\ r_envlist r = None /\ r_grplist r = None /\ r_chroot r = None) \/
   (r_action r = PERMIT /\ 0 <= r_options r < 64 /\
    Z.land (r_options r) (Z.lor NOPASS PERSIST) <> Z.lor NOPASS PERSIST /\
    r_grplist r <> Some [] /\ (r_chroot r <> None -> Z.land (r_options r) CHROOT = CHROOT))).

Definition optval_wf (v : optval) : Prop :=
  0 <= ov_options v < 64 /\
  Z.land (ov_options v) (Z.lor NOPASS PERSIST) <> Z.lor NOPASS PERSIST /\
  ov_grplist v <> Some [] /\ (ov_chroot v <> None -> Z.land (ov_options v) CHROOT = CHROOT).

Lemma lor_64 a b : 0 <= a < 64 -> 0 <= b < 64 -> 0 <= Z.lor a b < 64.
Proof.
  intros Ha Hb. assert (0 <= Z.lor a b) as H0 by (apply Z.lor_nonneg; lia). split; [done|].
  destruct (Z.eq_dec (Z.lor a b) 0) as [->|]; [done|]. apply (Z.log2_lt_pow2 _ 6); [lia|].
  rewrite Z.log2_lor by lia. apply Z.max_lub_lt.
  - destruct (Z.eq_dec a 0) as [->|]; [done|]. apply Z.log2_lt_pow2; lia.
  - destruct (Z.eq_dec b 0) as [->|]; [done|]. apply Z.log2_lt_pow2; lia.
Qed.

Lemma land_lor_bit a b c : Z.land a c = c \/ Z.land b c = c -> Z.land (Z.lor a b) c = c.
Proof.
  rewrite (Z.land_lor_distr_l a b c). intros [-> | ->]; apply Z.bits_inj'; intros n _;
    rewrite !Z.lor_spec, ?Z.land_spec; destruct (Z.testbit a n), (Z.testbit b n), (Z.testbit c n); done.
Qed.

Lemma option_wf us o : option_ us o -> optval_wf o.
Proof.
  destruct 1; (split; [done|]; split; [done|]; split; [|try done]); try done.
  intros [= Hl]. by destruct l.
Qed.

Lemma options_add_wf v o v' : optval_wf v -> optval_wf o -> options_add v o = inr v' -> optval_wf v'.
Proof.
  intros (Hr1 & _ & Hg1 & Hc1) (Hr2 & _ & Hg2 & Hc2). unfold options_add.
  case_if; [done|]. apply Z.eqb_neq in E. intros Ha.
  pose proof (lor_64 _ _ Hr1 Hr2) as Hl.
  pose proof (land_lor_bit (ov_options v) (ov_options o) CHROOT) as Hb.
  destruct v as [o1 e1 g1 c1], o as [o2 e2 g2 c2]. unfold optval_wf. cbn [ov_options ov_envlist ov_grplist ov_chroot] in *.
  destruct e2, e1, g2, g1, c2, c1; try done; injection Ha as <-; cbn; (split_and!; [lia|lia|done..|]); naive_solver.
Qed.

Lemma options_wf ts v : options ts v -> optval_wf v.
Proof.
  induction 1; [by split_and!|]. eapply options_add_wf; [done| |done]. by eapply option_wf.
Qed.

Lemma rule_is_wf ts r : rule_ ts r -> rule_wf r.
Proof.
  destruct 1 as [ts a ident us t vs c Ha Ht Hc]. split.
  { destruct Hc; simpl; [done|]. intros [=]. }
  destruct Ha as [ts v Hv|]; [right|left; done].
  apply options_wf in Hv as (? & ? & ? & ?). done.
Qed.

Lemma grammar_wf ts rs : grammar ts rs -> Forall rule_wf rs.
Proof.
  induction 1; [done|done|]. apply Forall_app; split; [done|]. constructor; [|done].
  by eapply rule_is_wf.
Qed.

(** The table has room whenever a rule is stored. *)
Definition rtab_ok (t : rtab) : Prop := 0 <= Z.of_nat (length (rt_rules t)) <= rt_max t.

Lemma rules_append_ok t rs :
  rtab_ok t -> exists max, rules_append t rs = Ok (RTab (rt_rules t ++ rs) max) /\ rtab_ok (RTab (rt_rules t ++ rs) max).
Proof.
  revert t; induction rs as [|r rs IH]; intros [l m] Ht; cbn [rules_append].
  { exists m. by rewrite app_nil_r. }
  unfold rule_append, rtab_ok in *. cbn [rt_rules rt_max] in *.
  assert (exists m', (if Z.of_nat (length l) =? m then (if m =? 0 then 32 else m) * 2 else m) = m' /\
    Z.of_nat (length l) < m') as (m' & -> & Hm).
  { case_if; cbool; [|exists m; split; [done|lia]]. eexists. split; [done|]. case_if; cbool; lia. }
  apply Z.ltb_lt in Hm as Hb. rewrite Hb. cbn [mbind ub_bind].
  destruct (IH (RTab (l ++ [r]) m')) as (max & -> & Hok).
  { cbn. rewrite length_app. simpl. lia. }
  exists max. cbn [rt_rules] in *. by rewrite <- app_assoc in Hok |- *.
Qed.

(** The text that [yyparse] is given. *)
Definition config_text (buf : string) (conflen : Z) : string :=
  String.substring 0 (Z.to_nat (conflen - 1)) buf.

Lemma parseconfig_spec `{Yacc} fmem buf conflen :
  fmem (conflen - 1) = true ->
  exists rc t ts lx, parseconfig fmem buf conflen = Ok (rc, t) /\
    scan false (config_text buf conflen) = Ok (ts, lx) /\ rtab_ok t /\
    (rc = 0 \/ rc = 1) /\ (rc = 0 <-> lx_errs lx = [] /\ exists rs, grammar ts rs) /\
    (rc = 0 -> grammar ts (rt_rules t)).
Proof.
  intros Hf. unfold parseconfig. rewrite Hf.
  destruct (scan_total false (config_text buf conflen)) as (ts & lx & Hs & _).
  unfold config_text in Hs. rewrite Hs. cbn [mbind ub_bind].
  destruct (yyparse ts) as [rs errors] eqn:Ey.
  destruct (rules_append_ok (RTab [] 0) rs) as (max & Ht & Hok); [done|]. rewrite Ht. cbn [mbind ub_bind].
  assert (nz (Z.of_nat (parse_errors lx + errors)) = false <-> lx_errs lx = [] /\ errors = O) as Hz.
  { rewrite nz_false. unfold parse_errors. rewrite <- length_zero_iff_nil. lia. }
  do 4 eexists. split; [done|]. split; [done|]. split; [done|].
  split; [case_if; auto|]. split.
  - case_if.
    + split; [done|]. intros [Hl [rs' Hg]]. apply yyparse_spec in Hg. rewrite Ey in Hg.
      injection Hg as _ ->. destruct Hz as [_ Hz]. by specialize (Hz (conj Hl eq_refl)).
    + destruct Hz as [Hz _]. destruct Hz as [Hl ->]; [done|]. split; [|done]. intros _. split; [done|].
      exists rs. by apply yyparse_spec.
  - case_if; [done|]. intros _. destruct Hz as [Hz _]. destruct Hz as [Hl ->]; [done|].
    by apply yyparse_spec.
Qed.

(** ** Writing rules *)

Definition flag_tokens (o : Z) : list token :=
  let flag (b : Z) (t : token) := if nz (Z.land o b) then [t] else [] in
  flag NOPASS TNOPASS ++ flag NOLOG TNOLOG ++ flag PERSIST TPERSIST ++
  flag KEEPENV TKEEPENV ++ flag KEEPGRP TKEEPGRP.
Definition braced (t : token) (l : list string) : list token :=
  t :: TOPEN :: (TSTRING <$> l) ++ [TCLOSE].
Definition opt_tokens {A} (f : A -> list token) (x : option A) : list token :=
  match x with Some x => f x | None => [] end.

Definition rule_tokens (r : rule) : list token :=
  (if r_action r =? DENY then [TDENY] else
     TPERMIT :: flag_tokens (r_options r) ++ opt_tokens (braced TSETENV) (r_envlist r) ++
     opt_tokens (braced TSETGRP) (r_grplist r) ++
     (if nz (Z.land (r_options r) CHROOT) then braced TCHROOT (option_list (r_chroot r)) else [])) ++
  TSTRING (r_ident r) :: opt_tokens (fun s => [TAS; TSTRING s]) (r_target r) ++
  opt_tokens (fun s => TCMD :: TSTRING s :: opt_tokens (fun l => TARGS :: (TSTRING <$> l)) (r_cmdargs r)) (r_cmd r).

Definition rules_tokens (rs : list rule) : list token := concat ((fun r => rule_tokens r ++ [TNL]) <$> rs).

(** A configuration file with the given rules. *)
Definition rules_text (rs : list rule) : string := tokens_text (rules_tokens rs).

Definition rule_strings (r : rule) : list string :=
  r_ident r :: option_list (r_target r) ++ option_list (r_cmd r) ++ default [] (r_cmdargs r) ++
  default [] (r_envlist r) ++ default [] (r_grplist r) ++ option_list (r_chroot r).

Definition flags_check (o : Z) : bool :=
  (Z.land o (Z.lor NOPASS PERSIST) =? Z.lor NOPASS PERSIST) ||
  match p_options 6 no_options (flag_tokens o) with
  | Some (OptVal o' None None None, []) =>
      negb (Z.land o' (Z.lor NOPASS PERSIST) =? Z.lor NOPASS PERSIST) && (Z.lor o' (if nz (Z.land o CHROOT) then CHROOT else 0) =? o)
  | _ => false
  end.

Lemma flags_checked : forallb flags_check (seqZ 0 64) = true.
Proof. vm_compute. done. Qed.

Lemma flags_derive o :
  0 <= o < 64 -> Z.land o (Z.lor NOPASS PERSIST) <> Z.lor NOPASS PERSIST ->
  exists o', options (flag_tokens o) (OptVal o' None None None) /\
    Z.land o' (Z.lor NOPASS PERSIST) <> Z.lor NOPASS PERSIST /\
    Z.lor o' (if nz (Z.land o CHROOT) then CHROOT else 0) = o.
Proof.
  intros Ho Hn. pose proof flags_checked as Hc. rewrite List.forallb_forall in Hc.
  assert (flags_check o = true) as Hf by (apply Hc, list_elem_of_In, elem_of_seqZ; lia).
  unfold flags_check in Hf. rewrite (proj2 (Z.eqb_neq _ _) Hn) in Hf. cbn [orb] in Hf.
  destruct (p_options 6 no_options (flag_tokens o)) as [[[o' [] [] []] []]|] eqn:E; try done.
  apply andb_true_iff in Hf as [H1 H2]. apply negb_true_iff, Z.eqb_neq in H1. apply Z.eqb_eq in H2.
  exists o'. split; [|done].
  apply (options_sound _ []) in E as (us & Heq & Hv); [|constructor]. by rewrite app_nil_r in Heq; subst.
Qed.

(** Adding an option that sets no flag of the pair. *)
Lemma options_add_free f e g c o2 e2 g2 c2 :
  Z.land (Z.lor f o2) (Z.lor NOPASS PERSIST) <> Z.lor NOPASS PERSIST ->
  (e = None \/ e2 = None) -> (g = None \/ g2 = None) -> (c = None \/ c2 = None) ->
  options_add (OptVal f e g c) (OptVal o2 e2 g2 c2) =
  inr (OptVal (Z.lor f o2) (if e2 is Some _ then e2 else e) (if g2 is Some _ then g2 else g)
        (if c2 is Some _ then c2 else c)).
Proof.
  intros Hn He Hg Hc. unfold options_add. cbn [ov_options].
  rewrite (proj2 (Z.eqb_neq _ _) Hn). cbn.
  destruct e, e2, g, g2, c, c2; naive_solver.
Qed.

Lemma rule_options r :
  rule_wf r -> r_action r <> DENY ->
  options (flag_tokens (r_options r) ++ opt_tokens (braced TSETENV) (r_envlist r) ++
     opt_tokens (braced TSETGRP) (r_grplist r) ++
     (if nz (Z.land (r_options r) CHROOT) then braced TCHROOT (option_list (r_chroot r)) else []))
   (OptVal (r_options r) (r_envlist r) (r_grplist r) (r_chroot r)).
Proof.
  intros [_ [[? _]|(_ & Ho & Hn & Hg & Hc)]] Hd; [done|].
  destruct (flags_derive _ Ho Hn) as (o' & Hf & Hn' & Hl).
  assert (options (flag_tokens (r_options r) ++ opt_tokens (braced TSETENV) (r_envlist r))
    (OptVal o' (r_envlist r) None None)) as H1.
  { destruct (r_envlist r) as [l|]; simpl; [|by rewrite app_nil_r].
    eapply options_more; [done|apply option_setenv, strlist_spec; done|].
    rewrite options_add_free; rewrite ?Z.lor_0_r; auto. }
  assert (options ((flag_tokens (r_options r) ++ opt_tokens (braced TSETENV) (r_envlist r)) ++
    opt_tokens (braced TSETGRP) (r_grplist r)) (OptVal o' (r_envlist r) (r_grplist r) None)) as H2.
  { destruct (r_grplist r) as [l|]; simpl; [|by rewrite app_nil_r].
    destruct (exists_last (l := l)) as (l' & s & ->); [congruence|].
    assert (braced TSETGRP (l' ++ [s]) = TSETGRP :: TOPEN :: (TSTRING <$> l') ++ [TSTRING s; TCLOSE]) as ->
      by (unfold braced; by rewrite fmap_app, <- app_assoc).
    eapply options_more; [done|apply option_setgrp, strlist_spec; done|].
    rewrite options_add_free; rewrite ?Z.lor_0_r; auto. }
  rewrite !app_assoc. destruct (nz (Z.land (r_options r) CHROOT)) eqn:Ech.
  - eapply options_more; [done| |].
    + instantiate (1 := OptVal CHROOT None None (r_chroot r)). destruct (r_chroot r); constructor.
    + rewrite options_add_free; [by rewrite Hl; destruct (r_chroot r)|by rewrite Hl|auto..].
  - rewrite app_nil_r. rewrite Z.lor_0_r in Hl. subst o'.
    destruct (r_chroot r) as [c|]; [|done]. rewrite Hc in Ech; done.
Qed.

(** The tokens of a rule derive it. *)
Lemma rule_derive r : rule_wf r -> rule_ (rule_tokens r) r.
Proof.
  intros Hwf. pose proof (rule_options r Hwf) as Hopt. unfold rule_tokens.
  assert (target (opt_tokens (fun s => [TAS; TSTRING s]) (r_target r)) (r_target r)) as Ht
    by (destruct (r_target r); constructor).
  assert (cmd (opt_tokens (fun s => TCMD :: TSTRING s :: opt_tokens (fun l => TARGS :: (TSTRING <$> l)) (r_cmdargs r)) (r_cmd r))
    (r_cmd r, r_cmdargs r)) as Hc.
  { destruct Hwf as [Hwf _]. destruct (r_cmd r); [|rewrite Hwf by done; constructor].
    constructor. destruct (r_cmdargs r); constructor. by apply strlist_spec. }
  assert (exists a, action (if r_action r =? DENY then [TDENY] else
     TPERMIT :: flag_tokens (r_options r) ++ opt_tokens (braced TSETENV) (r_envlist r) ++
     opt_tokens (braced TSETGRP) (r_grplist r) ++
     (if nz (Z.land (r_options r) CHROOT) then braced TCHROOT (option_list (r_chroot r)) else [])) a /\
     r = rule_make a (r_ident r) (r_target r) (r_cmd r, r_cmdargs r)) as (a & Ha & Hr).
  { destruct (r_action r =? DENY) eqn:E; cbool.
    - exists (DENY, no_options). split; [constructor|].
      destruct Hwf as [_ [(? & ? & ? & ? & ?)|(Hp & _)]]; [|rewrite Hp in E; done].
      destruct r; unfold rule_make; simpl in *; by subst.
    - exists (PERMIT, OptVal (r_options r) (r_envlist r) (r_grplist r) (r_chroot r)).
      split; [constructor; by apply Hopt|].
      destruct Hwf as [_ [(? & _)|(Hp & _)]]; [done|].
      destruct r; unfold rule_make; simpl in *; by subst. }
  pose proof (rule_intro _ _ (r_ident r) _ _ _ _ Ha Ht Hc) as Hx. by rewrite <- Hr in Hx.
Qed.

Lemma rules_derive rs : Forall rule_wf rs -> grammar (rules_tokens rs) rs.
Proof.
  induction rs as [|r rs IH] using rev_ind; [constructor|].
  intros [Hrs Hr]%Forall_app. apply Forall_cons in Hr as [Hr _]. unfold rules_tokens.
  rewrite fmap_app, concat_app. cbn. rewrite app_nil_r.
  constructor; [by apply IH|by apply rule_derive].
Qed.

Lemma strings_printable l : Forall printable l -> Forall token_printable (TSTRING <$> l).
Proof. intros Hl. by apply Forall_fmap. Qed.

Lemma braced_printable t l : token_printable t -> Forall printable l -> Forall token_printable (braced t l).
Proof.
  intros Ht Hl. constructor; [done|]. constructor; [done|].
  apply Forall_app. split; [by apply strings_printable|by repeat constructor].
Qed.

Lemma rule_tokens_printable r : Forall printable (rule_strings r) -> Forall token_printable (rule_tokens r).
Proof.
  unfold rule_strings. rewrite Forall_cons, !Forall_app. intros (Hi & Ht & Hc & Ha & He & Hg & Hd).
  unfold rule_tokens. apply Forall_app. split.
  - case_if; [by repeat constructor|]. constructor; [done|]. rewrite !Forall_app. split_and!.
    + unfold flag_tokens. repeat (apply Forall_app; split); case_if; by repeat constructor.
    + destruct (r_envlist r); [by apply braced_printable|constructor].
    + destruct (r_grplist r); [by apply braced_printable|constructor].
    + case_if; [by apply braced_printable|constructor].
  - constructor; [done|]. apply Forall_app. split.
    + destruct (r_target r); [|constructor]. constructor; [done|]. by apply (strings_printable [_]).
    + destruct (r_cmd r); [|constructor]. constructor; [done|]. apply Forall_cons in Hc as [Hc _].
      constructor; [done|]. destruct (r_cmdargs r); [|constructor].
      constructor; [done|]. by apply strings_printable.
Qed.

Lemma rules_tokens_printable rs :
  Forall (fun r => Forall printable (rule_strings r)) rs -> Forall token_printable (rules_tokens rs).
Proof.
  intros Hrs. unfold rules_tokens. apply Forall_concat, Forall_fmap.
  apply (Forall_impl _ _ _ Hrs). intros r Hr. apply Forall_app. split; [by apply rule_tokens_printable|].
  by repeat constructor.
Qed.

Lemma config_text_buf text rest : config_text (text ++ rest) (strlen text + 1) = text.
Proof.
  unfold config_text, strlen. replace (Z.to_nat _) with (String.length text) by lia.
  apply string_substring_app.
Qed.

Lemma parse_rules_text `{Yacc} fmem rs rest :
  fmem (strlen (rules_text rs)) = true ->
  Forall rule_wf rs -> Forall (fun r => Forall printable (rule_strings r)) rs ->
  exists t, parseconfig fmem (rules_text rs ++ rest) (strlen (rules_text rs) + 1) = Ok (0, t) /\ rt_rules t = rs.
Proof.
  intros Hf Hw Hp.
  destruct (parseconfig_spec fmem (rules_text rs ++ rest) (strlen (rules_text rs) + 1))
    as (rc & t & ts & lx & Hpc & Hs & _ & _ & Hrc & Hg).
  { by replace (_ + 1 - 1) with (strlen (rules_text rs)) by lia. }
  rewrite config_text_buf in Hs.
  destruct (scan_text (rules_tokens rs)) as (l & c & Hs'); [by apply rules_tokens_printable|].
  unfold rules_text in Hs. rewrite Hs' in Hs. injection Hs as <- <-.
  apply rules_derive in Hw. assert (rc = 0) as -> by (apply Hrc; split; [done|by exists rs]).
  specialize (Hg eq_refl). exists t. split; [done|].
  apply yyparse_spec in Hg, Hw. congruence.
Qed.

(** * Properties *)

(** C32: When [fmemopen] gives a stream, [parseconfig] returns without a fault.  It
    returns 0 exactly when the scanner has no message for the text and its tokens
    can be derived; the table of rules is then the one of the derivation, in the
    order of the text, and a rule that denies has no options, a rule that permits
    does not combine [nopass] and [persist], and has a group in every
    [setgroups]. *)
Theorem parseconfig_accepts `{Yacc} fmem buf conflen :
  fmem (conflen - 1) = true ->
  exists rc t ts lx, parseconfig fmem buf conflen = Ok (rc, t) /\
    scan false (config_text buf conflen) = Ok (ts, lx) /\
    (rc = 0 <-> lx_errs lx = [] /\ exists rs, grammar ts rs) /\
    (rc = 0 -> grammar ts (rt_rules t) /\ Forall rule_wf (rt_rules t)).
Proof.
  intros Hf. destruct (parseconfig_spec fmem buf conflen Hf) as (rc & t & ts & lx & ? & ? & _ & _ & ? & Hg).
  exists rc, t, ts, lx. do 3 (split; [done|]). intros Hrc. split; [by apply Hg|].
  eapply grammar_wf. by apply Hg.
Qed.

(** A word of 1023 bytes is read as it is, one of 1024 bytes is an error, and a
    backslash does not keep a word from being a keyword, which pfexecd.conf(5)
    promises. *)
Definition letters (n : nat) : string := Nat.iter n (String "a") "".
Example word_of_1023 : scan false (letters 1023) = Ok ([TSTRING (letters 1023)], Lexer "" 0 1023 []).
Proof. vm_compute. reflexivity. Qed.
Example word_of_1024 :
  exists lx, scan false (letters 1024 ++ "b") = Ok ([TSTRING "b"], lx) /\ lx_errs lx = [(TooLong, 1)].
Proof. eexists. split; vm_compute; reflexivity. Qed.
Example escaped_keyword : exists lx, scan false "\permit" = Ok ([TPERMIT], lx).
Proof. eexists. vm_compute. reflexivity. Qed.

(** * Witnesses *)

Definition conf0 : string :=
  ("# wheel" ++ String LF ("permit nopass setgroups { wheel } alice as root cmd /bin/ls args -l" ++
   String LF ("deny bob" ++ String LF "")))%string.
Definition conf0_rules : list rule :=
  [Rule PERMIT NOPASS "alice" (Some "root") (Some "/bin/ls") (Some ["-l"]) None (Some ["wheel"]) None;
   Rule DENY 0 "bob" None None None None None None]%string.

Lemma parseconfig_accepts_witness :
  (exists ts lx, scan false conf0 = Ok (ts, lx) /\ lx_errs lx = [] /\ grammar ts conf0_rules) /\
  exists rc t ts lx, parseconfig (fun _ => true) conf0 (strlen conf0 + 1) = Ok (rc, t) /\
    scan false (config_text conf0 (strlen conf0 + 1)) = Ok (ts, lx) /\
    (rc = 0 <-> lx_errs lx = [] /\ exists rs, grammar ts rs) /\
    (rc = 0 -> grammar ts (rt_rules t) /\ Forall rule_wf (rt_rules t)).
Proof.
  split; [|apply (parseconfig_accepts (fun _ => true)); reflexivity].
  do 2 eexists. split; [vm_compute; reflexivity|]. split; [reflexivity|].
  apply reference_parse_spec. vm_compute. reflexivity.
Defined.
