(* ===== verification/PfexecdMain.v ===== *)
(** * The start of the daemon ([main] of [0.syscall-pfexec-obsd/src/pfexecd/pfexecd.c])

    From the command line to [event_dispatch]: the configuration is read as root,
    the socket is bound, the privileges are dropped and then the text is parsed.
    What the system answers to the calls is a [world]; the state of the process
    that the calls change is a [proc]. *)

From S2P Require Import RBTree Pfexecvar PfexecEnv Pfexecd PfexecConf Prelude.

(** What [getopt] with "fc:t" gives for the arguments. *)
Inductive opt := Opt_f | Opt_t | Opt_c (optarg : string) | Opt_other.

Definition S_IFREG : Z := 32768.
Definition CONFIG_MAX_SIZE : Z := 16777216.

(** A file that can be opened: what [fstat] gives ([st_mode] and [st_size], [None] on
    an error) and what the calls of [read] give, one after the other: an error or
    bytes; behind the list the file is at its end. *)
Record file := File { f_stat : option (Z * Z); f_reads : list (option string) }.

(** The credentials and the restrictions of a process. *)
Record proc := Proc {
  p_uid : Z; p_gid : Z; p_groups : list Z; p_unveiled : bool; p_pledge : option string }.

Record world := World {
  w_open : string -> option file;
  w_fmemopen : Z -> bool;
  w_lsock : option Z;            (* [socket] *)
  w_bind : bool; w_listen : bool;
  w_fork : Z; w_setsid : bool;
  w_getpwnam : string -> option passwd;
  w_setgid : Z -> Z; w_setuid : Z -> Z; w_unveil : Z; w_pledge : Z }.

(** How [main] ends: [err], [errx] or [exit] with a status, [return] from [main], or
    it waits for events with the rules. *)
Inductive outcome := Exited (status : Z) | Returned (ret : Z) | Serving (p : proc) (rules : list rule).

(** [drop_privs]: the result and the process. *)
Definition drop_privs (w : world) (p : proc) : Z * proc :=
  let ret := 0 in
  match w_getpwnam w "_pfexecd" with
  | None => (ret, p)
  | Some pw =>
      let ret := w_setgid w (pw_gid pw) in
      if nz ret then (ret, p) else
      let p := Proc (p_uid p) (pw_gid pw) (p_groups p) (p_unveiled p) (p_pledge p) in
      let ret := w_setuid w (pw_uid pw) in
      if nz ret then (ret, p) else
      let p := Proc (pw_uid pw) (p_gid p) (p_groups p) (p_unveiled p) (p_pledge p) in
      let ret := w_unveil w in
      if ret =? -1 then (ret, p) else
      let p := Proc (p_uid p) (p_gid p) (p_groups p) true (p_pledge p) in
      let ret := w_pledge w in
      if ret =? -1 then (ret, p) else
      (ret, Proc (p_uid p) (p_gid p) (p_groups p) (p_unveiled p) (Some "stdio unix getpw"))
  end.

(** The loop over the arguments: [daemon], [testmode] and [conf], or [usage]. *)
Record config := Config { c_daemon : bool; c_testmode : bool; c_conf : string }.
Definition config0 : config := Config true false "/etc/pfexecd.conf".
Fixpoint parse_args (argv : list opt) (c : config) : option config :=
  match argv with
  | [] => Some c
  | Opt_f :: argv => parse_args argv (Config false (c_testmode c) (c_conf c))
  | Opt_t :: argv => parse_args argv (Config (c_daemon c) true (c_conf c))
  | Opt_c s :: argv => parse_args argv (Config (c_daemon c) (c_testmode c) s)
  | Opt_other :: _ => None
  end.

(** The loop that reads the file into [pfd_configbuf] from byte [done] on; [None] is
    [err].  A call of [read] gives at most [conflen - done] bytes. *)
Fixpoint read_loop (reads : list (option string)) (buf : string) (done size conflen : Z) : option string :=
  if done <? size then
    match reads with
    | [] => Some buf
    | None :: _ => None
    | Some bytes :: reads =>
        let bytes := String.substring 0 (Z.to_nat (conflen - done)) bytes in
        let rr := strlen bytes in
        if rr =? 0 then Some buf
        else read_loop reads (area_write (Z.to_nat done) bytes buf) (done + rr) size conflen
    end
  else Some buf.

(** [open], [fstat], the checks and the loop: the buffer and [conflen]. *)
Fixpoint nul_bytes (n : nat) : string := match n with O => "" | S n => String NUL (nul_bytes n) end.
Definition nuls (n : Z) : string := nul_bytes (Z.to_nat n).
Definition read_config (w : world) (conf : string) : option (string * Z) :=
  f ← w_open w conf;
  '(mode, size) ← f_stat f;
  if Z.land mode S_IFREG =? 0 then None else
  if CONFIG_MAX_SIZE <? size then None else
  let conflen := size + 1 in
  buf ← read_loop (f_reads f) (nuls conflen) 0 size conflen;
  Some (area_write (Z.to_nat (conflen - 1)) (String NUL "") buf, conflen).

(** [close(lsock)] with a variable that may not have been set. *)
Definition close_lsock (lsock : option Z) : ub unit :=
  match lsock with Some _ => Ok tt | None => UB uninitialized end.

(** [main]. *)
Definition main `{Yacc} (w : world) (argv : list opt) (p : proc) : ub outcome :=
  match parse_args argv config0 with
  | None => Ok (Exited 1)
  | Some c =>
    match read_config w (c_conf c) with
    | None => Ok (Exited 1)
    | Some (buf, conflen) =>
      let testmode := c_testmode c in
      let lsock := if testmode then None else w_lsock w in
      if negb testmode && (match lsock with None => true | _ => false end
                           || negb (w_bind w) || negb (w_listen w)) then Ok (Exited 1) else
      let daemon := c_daemon c && negb testmode in
      if daemon && (w_fork w <? 0) then Ok (Exited 1) else
      if daemon && (0 <? w_fork w) then Ok (Returned 0) else
      if daemon && negb (w_setsid w) then Ok (Exited 1) else
      let '(ret, p) := if testmode then (0, p) else drop_privs w p in
      if nz ret then close_lsock lsock;; Ok (Returned ret) else
      '(ret, t) ← parseconfig (w_fmemopen w) buf conflen;
      if nz ret then close_lsock lsock;; Ok (Returned ret) else
      if testmode then Ok (Returned 0) else Ok (Serving p (rt_rules t))
    end
  end.

(** ** Reading the file *)

Lemma nuls_length n : 0 <= n -> strlen (nuls n) = n.
Proof.
  intros Hn. unfold nuls, strlen. rewrite <- (Z2Nat.id n) at 2 by done. f_equal.
  induction (Z.to_nat n) as [|k IH]; simpl; [done|]. by rewrite IH.
Qed.

Lemma nuls_add a b : 0 <= a -> 0 <= b -> nuls (a + b) = (nuls a ++ nuls b)%string.
Proof.
  intros Ha Hb. unfold nuls. rewrite Z2Nat.inj_add by done.
  induction (Z.to_nat a) as [|k IH]; [done|]. cbn [Nat.add nul_bytes]. by rewrite IH.
Qed.

Lemma area_over_app s a b : String.length a = String.length s -> area_over s (a ++ b) = (s ++ b)%string.
Proof.
  revert a; induction s as [|c s IH]; intros [|x a] Hl; try done.
  change (String c (area_over s (a ++ b)) = String c (s ++ b)). f_equal. apply IH. by injection Hl.
Qed.

Lemma area_write_app p s a b :
  String.length a = String.length s ->
  area_write (String.length p) s (p ++ a ++ b) = (p ++ s ++ b)%string.
Proof. intros Hl. induction p as [|c p IH]; [exact (area_over_app s a b Hl)|].
  change (String c (area_write (String.length p) s (p ++ a ++ b)) = String c (p ++ s ++ b)). by rewrite IH. Qed.

Definition chunks_text (chunks : list string) : string := foldr String.append "" chunks.

(** However the text is cut into pieces by [read], it ends up in the buffer. *)
Lemma read_loop_chunks chunks pre :
  let size := strlen pre + strlen (chunks_text chunks) in
  Forall (fun s => s <> "") chunks ->
  read_loop (Some <$> chunks) (pre ++ nuls (strlen (chunks_text chunks) + 1)) (strlen pre) size (size + 1)
  = Some (pre ++ chunks_text chunks ++ nuls 1)%string.
Proof.
  revert pre; induction chunks as [|s chunks IH]; intros pre size Hne; unfold size; clear size.
  { cbn -[nuls strlen]. replace (strlen pre + strlen "") with (strlen pre) by (unfold strlen; simpl; lia).
    by rewrite Z.ltb_irrefl. }
  apply Forall_cons in Hne as [Hs Hne]. rewrite fmap_cons. cbn [chunks_text foldr].
  fold (chunks_text chunks). set (rest := chunks_text chunks) in *.
  assert (0 < strlen s) as Hpos by (destruct s; [done|]; unfold strlen; simpl; lia).
  pose proof (strlen_nonneg pre). pose proof (strlen_nonneg rest).
  rewrite strlen_app. cbn [read_loop].
  rewrite (proj2 (Z.ltb_lt _ _)) by lia.
  assert (String.substring 0 (Z.to_nat (strlen pre + (strlen s + strlen rest) + 1 - strlen pre)) s = s) as ->.
  { apply substring_all. unfold strlen in *. lia. }
  rewrite (proj2 (Z.eqb_neq _ _)) by lia.
  replace (strlen s + strlen rest + 1) with (strlen s + (strlen rest + 1)) by lia.
  rewrite nuls_add by lia.
  assert (area_write (Z.to_nat (strlen pre)) s (pre ++ nuls (strlen s) ++ nuls (strlen rest + 1))
    = ((pre ++ s) ++ nuls (strlen rest + 1))%string) as ->.
  { unfold strlen at 1. rewrite Nat2Z.id, area_write_app, string_app_assoc; [done|].
    pose proof (nuls_length (strlen s)) as Hn. unfold strlen in *. lia. }
  specialize (IH (pre ++ s)%string Hne). rewrite strlen_app in IH. cbv zeta in IH.
  replace (strlen pre + (strlen s + strlen rest)) with (strlen pre + strlen s + strlen rest) by lia.
  rewrite IH. by rewrite !string_app_assoc.
Qed.

Lemma read_config_chunks w conf mode chunks :
  let text := chunks_text chunks in
  w_open w conf = Some (File (Some (mode, strlen text)) (Some <$> chunks)) ->
  Z.land mode S_IFREG <> 0 -> strlen text <= CONFIG_MAX_SIZE -> Forall (fun s => s <> "") chunks ->
  read_config w conf = Some ((text ++ String NUL "")%string, strlen text + 1).
Proof.
  intros text Ho Hm Hl Hne. unfold read_config. rewrite Ho. cbn [mbind option_bind f_stat f_reads].
  rewrite (proj2 (Z.eqb_neq _ _) Hm), (proj2 (Z.ltb_ge _ _) Hl).
  pose proof (read_loop_chunks chunks "" Hne) as Hr. cbn [String.append] in Hr.
  unfold text. change (strlen "") with 0 in Hr.
  cbn [mbind option_bind] in *. rewrite Z.add_0_l in Hr.
  change ("" ++ nuls (strlen (chunks_text chunks) + 1))%string with (nuls (strlen (chunks_text chunks) + 1)) in Hr.
  rewrite Hr. cbn [mbind option_bind].
  change ("" ++ chunks_text chunks ++ nuls 1)%string with (chunks_text chunks ++ nuls 1)%string.
  replace (strlen (chunks_text chunks) + 1 - 1) with (strlen (chunks_text chunks)) by lia.
  unfold strlen at 1. rewrite Nat2Z.id.
  pose proof (area_write_app (chunks_text chunks) (String NUL "") (nuls 1) "" eq_refl) as Hw.
  rewrite !string_app_nil_r in Hw. by rewrite Hw.
Qed.

(** ** Dropping the privileges *)

Definition unprivileged (pw : passwd) (p : proc) : proc :=
  Proc (pw_uid pw) (pw_gid pw) (p_groups p) true (Some "stdio unix getpw"%string).

Lemma drop_privs_spec w p p' :
  drop_privs w p = (0, p') ->
  p' = match w_getpwnam w "_pfexecd" with Some pw => unprivileged pw p | None => p end.
Proof.
  unfold drop_privs. destruct (w_getpwnam w "_pfexecd") as [pw|]; [|congruence].
  repeat case_if; intros [= ? <-]; cbool; try done; lia.
Qed.

Definition calls_succeed (w : world) : Prop :=
  w_lsock w <> None /\ w_bind w = true /\ w_listen w = true /\ w_fork w = 0 /\ w_setsid w = true /\
  (forall g, w_setgid w g = 0) /\ (forall u, w_setuid w u = 0) /\ w_unveil w = 0 /\ w_pledge w = 0.

Lemma drop_privs_succeeds w p : calls_succeed w -> exists p', drop_privs w p = (0, p').
Proof.
  intros (_ & _ & _ & _ & _ & Hg & Hu & Hv & Hp). unfold drop_privs.
  destruct (w_getpwnam w "_pfexecd"); [|by eexists]. rewrite Hg, Hu, Hv, Hp. cbn. by eexists.
Qed.

(** What is known of a daemon that waits for events. *)
Lemma main_serves `{Yacc} w argv p p' rules :
  main w argv p = Ok (Serving p' rules) ->
  exists c buf conflen ts lx, parse_args argv config0 = Some c /\ c_testmode c = false /\
    read_config w (c_conf c) = Some (buf, conflen) /\ w_lsock w <> None /\
    scan false (config_text buf conflen) = Ok (ts, lx) /\ lx_errs lx = [] /\ grammar ts rules /\
    drop_privs w p = (0, p').
Proof.
  unfold main. destruct (parse_args argv config0) as [c|]; [|done].
  destruct (read_config w (c_conf c)) as [[buf conflen]|] eqn:Er; [|done].
  destruct (c_testmode c) eqn:Et; cbn [negb andb].
  { cbn. rewrite andb_false_r. cbn. destruct (parseconfig _ _ _) as [[rc t]|]; [|done]. cbn.
    case_if; done. }
  case_if; [done|]. rewrite andb_true_r. do 3 (case_if; [done|]).
  destruct (drop_privs w p) as [ret p1] eqn:Ed. case_if; [by destruct (close_lsock _)|].
  destruct (w_fmemopen w (conflen - 1)) eqn:Ef;
    [|unfold parseconfig; rewrite Ef; done].
  destruct (parseconfig_spec (w_fmemopen w) buf conflen Ef) as (rc & t & ts & lx & -> & Hs & _ & _ & Hrc & Hg).
  cbn [mbind ub_bind]. case_if; [by destruct (close_lsock _)|]. intros [= <- <-].
  apply nz_false in E3, E4. subst. destruct (proj1 Hrc eq_refl) as [Hl _].
  exists c, buf, conflen, ts, lx. split_and!; try done; [|by apply Hg].
  by destruct (w_lsock w).
Qed.

(** * Properties *)

(** C10: A daemon that waits for events is not in test mode; it serves the rules that the
    tokens of its configuration derive, in their order, and the scanner had no
    message; and it runs with the ids of [_pfexecd], unveiled and pledged, if that
    user exists, and with the credentials it was started with if not.  Its
    supplementary groups are the ones it was started with in both cases. *)
Theorem served_rules_and_ids `{Yacc} w argv p p' rules :
  main w argv p = Ok (Serving p' rules) ->
  (exists c buf conflen ts lx, parse_args argv config0 = Some c /\ c_testmode c = false /\
    read_config w (c_conf c) = Some (buf, conflen) /\
    scan false (config_text buf conflen) = Ok (ts, lx) /\ lx_errs lx = [] /\ grammar ts rules) /\
  Forall rule_wf rules /\
  p' = match w_getpwnam w "_pfexecd" with Some pw => unprivileged pw p | None => p end /\
  p_groups p' = p_groups p.
Proof.
  intros (c & buf & conflen & ts & lx & ? & ? & ? & _ & ? & ? & Hg & Hd)%main_serves.
  apply drop_privs_spec in Hd as ->. split; [naive_solver|]. split; [by eapply grammar_wf|].
  split; [done|]. by destruct (w_getpwnam w "_pfexecd").
Qed.

(** C16: A file of at most 16 MB that holds the text of well-formed rules, in whatever
    pieces [read] gives it, starts a daemon that serves exactly these rules when
    the calls of the system succeed. *)
Theorem written_rules_served `{Yacc} w argv p c mode chunks rs :
  parse_args argv config0 = Some c -> c_testmode c = false ->
  w_open w (c_conf c) = Some (File (Some (mode, strlen (rules_text rs))) (Some <$> chunks)) ->
  chunks_text chunks = rules_text rs -> Forall (fun s => s <> "") chunks ->
  Z.land mode S_IFREG <> 0 -> strlen (rules_text rs) <= CONFIG_MAX_SIZE ->
  w_fmemopen w (strlen (rules_text rs)) = true -> calls_succeed w ->
  Forall rule_wf rs -> Forall (fun r => Forall printable (rule_strings r)) rs ->
  exists p', main w argv p = Ok (Serving p' rs).
Proof.
  intros Ha Ht Ho Hc Hne Hm Hl Hf Hcalls Hw Hp. rewrite <- Hc in Ho, Hl.
  apply read_config_chunks in Ho; [|done..]. rewrite Hc in Ho.
  destruct (drop_privs_succeeds w p Hcalls) as [p' Hd]. exists p'.
  destruct (parse_rules_text (w_fmemopen w) rs (String NUL "") Hf Hw Hp) as (t & Hpc & <-).
  destruct Hcalls as (Hls & Hb & Hli & Hfk & Hss & _).
  unfold main. rewrite Ha, Ho, Ht, Hb, Hli, Hfk, Hss, Hd. cbn [negb andb orb].
  destruct (w_lsock w); [|done]. cbn. rewrite !andb_false_r. cbn. by rewrite Hpc.
Qed.

(** C5: Composed with the answers of the daemon: a request is granted only by a rule of
    the configuration that says [permit] and [nopass], the last of the text that
    matches the request. *)
Theorem grants_are_configured {T} `{Yacc} `{RBTree string string T} w argv p p' rules db req resp rc :
  main w argv p = Ok (Serving p' rules) ->
  process_request db rules req resp_zero = Ok (resp, rc) -> rc = 0 \/ rc = -1 ->
  exists c buf conflen ts lx l1 r l2, parse_args argv config0 = Some c /\
    read_config w (c_conf c) = Some (buf, conflen) /\
    scan false (config_text buf conflen) = Ok (ts, lx) /\ grammar ts (l1 ++ r :: l2) /\
    match_rule db req r = true /\ (forall r', r' ∈ l2 -> match_rule db req r' = false) /\
    r_action r = PERMIT /\ Z.land (r_options r) NOPASS <> 0.
Proof.
  intros (c & buf & conflen & ts & lx & Ha & _ & Hr & _ & Hs & _ & Hg & _)%main_serves Hp Hrc.
  apply process_request_spec in Hp as (_ & _ & l1 & r & l2 & -> & Hm & Hn & Hd & Hnp & _); [|done].
  exists c, buf, conflen, ts, lx, l1, r, l2. split_and!; try done.
  apply grammar_wf, Forall_app in Hg as [_ [Hg _]%Forall_cons].
  destruct Hg as [_ [(Hact & _)|(Hact & _)]]; [|done]. by rewrite Hact in Hd.
Qed.

(** With [-t] the program returns 0 for a text without errors; for any other it goes
    to [close:], where [lsock] was never set. *)
Theorem test_mode_uses_lsock `{Yacc} w argv p c buf conflen :
  parse_args argv config0 = Some c -> c_testmode c = true ->
  read_config w (c_conf c) = Some (buf, conflen) -> w_fmemopen w (conflen - 1) = true ->
  exists ts lx, scan false (config_text buf conflen) = Ok (ts, lx) /\
    ((lx_errs lx = [] /\ exists rs, grammar ts rs) -> main w argv p = Ok (Returned 0)) /\
    (~ (lx_errs lx = [] /\ exists rs, grammar ts rs) -> main w argv p = UB uninitialized).
Proof.
  intros Ha Ht Hr Hf.
  destruct (parseconfig_spec (w_fmemopen w) buf conflen Hf) as (rc & t & ts & lx & Hpc & Hs & _ & Hrc01 & Hrc & _).
  exists ts, lx. split; [done|].
  assert (main w argv p = if nz rc then UB uninitialized else Ok (Returned 0)) as ->.
  { unfold main. rewrite Ha, Hr, Ht. cbn. rewrite andb_false_r. cbn. rewrite Hpc. cbn.
    by destruct (nz rc). }
  destruct Hrc01 as [-> | ->]; cbn; split; naive_solver.
Qed.

(** * Witnesses *)

Definition halves (s : string) : list string :=
  [String.substring 0 20 s; String.substring 20 (String.length s - 20) s].
Definition world_of (text : string) (user : bool) : world :=
  World (fun _ => Some (File (Some (33188, strlen text)) (Some <$> halves text))) (fun n => 0 <? n)
    (Some 3) true true 0 true
    (fun n => if user && String.eqb n "_pfexecd" then
                Some (Passwd "_pfexecd" 111 112 "/var/empty" "/sbin/nologin") else None)
    (fun _ => 0) (fun _ => 0) 0 0.
Definition root0 : proc := Proc 0 0 [0; 2; 3] false None.
Definition daemon0 : proc := Proc 111 112 [0; 2; 3] true (Some "stdio unix getpw"%string).

Lemma served_rules_and_ids_witness :
  (Forall rule_wf conf0_rules /\ p_groups daemon0 = [0; 2; 3]) /\
  root0 = match w_getpwnam (world_of conf0 false) "_pfexecd" with
          | Some pw => unprivileged pw root0 | None => root0 end.
Proof.
  split.
  - destruct (served_rules_and_ids (world_of conf0 true) [] root0 daemon0 conf0_rules)
      as (_ & Hw & _ & Hg); [vm_compute; reflexivity|]. split; [exact Hw|exact Hg].
  - destruct (served_rules_and_ids (world_of conf0 false) [] root0 root0 conf0_rules)
      as (_ & _ & Hp & _); [vm_compute; reflexivity|]. exact Hp.
Defined.

Lemma written_rules_served_witness :
  exists p', main (world_of (rules_text rules0) true) [Opt_f; Opt_c "pf.conf"] root0
             = Ok (Serving p' rules0).
Proof.
  apply (written_rules_served (world_of (rules_text rules0) true) [Opt_f; Opt_c "pf.conf"] root0
           (Config false false "pf.conf") 33188 (halves (rules_text rules0)) rules0).
  - reflexivity.
  - reflexivity.
  - reflexivity.
  - vm_compute. reflexivity.
  - repeat constructor; vm_compute; discriminate.
  - vm_compute. discriminate.
  - vm_compute. discriminate.
  - vm_compute. reflexivity.
  - repeat split; discriminate.
  - assert (forall args, rule_wf (rule1 0 DENY args)) as Hd.
    { intros args. split; [discriminate|]. left. repeat split. }
    assert (forall args, rule_wf (rule1 NOPASS PERMIT args)) as Hp.
    { intros args. split; [discriminate|]. right. split; [reflexivity|]. split; [split; [discriminate|reflexivity]|].
      split; [discriminate|]. split; [discriminate|]. intros Hn. destruct (Hn eq_refl). }
    apply Forall_cons. split; [exact (Hd _)|]. apply Forall_cons. split; [exact (Hp _)|].
    apply Forall_cons. split; [exact (Hd _)|]. apply Forall_nil. exact I.
  - repeat constructor; reflexivity.
Defined.

Lemma grants_are_configured_witness :
  exists r, r_action r = PERMIT /\ Z.land (r_options r) NOPASS <> 0 /\ match_rule db0 (req0 "root") r = true.
Proof.
  destruct (grants_are_configured (T := gmap string string) (world_of (rules_text rules0) true) [] root0
              daemon0 rules0 db0 (req0 "root") resp0 0)
    as (c & buf & n & ts & lx & l1 & r & l2 & _ & _ & _ & _ & Hm & _ & Ha & Hn);
    [vm_compute; reflexivity|vm_compute; reflexivity|by left|].
  exists r. split; [exact Ha|]. split; [exact Hn|exact Hm].
Defined.

Lemma test_mode_uses_lsock_witness :
  main (world_of conf0 true) [Opt_t] root0 = Ok (Returned 0) /\
  exists ts lx, scan false "permit" = Ok (ts, lx) /\
    (~ (lx_errs lx = [] /\ exists rs, grammar ts rs) -> main (world_of "permit" true) [Opt_t] root0 = UB uninitialized).
Proof.
  split.
  - destruct (test_mode_uses_lsock (world_of conf0 true) [Opt_t] root0 (Config true true "/etc/pfexecd.conf")
      (conf0 ++ String NUL "") (strlen conf0 + 1)) as (ts & lx & Hs & Hok & _); [vm_compute; reflexivity..|].
    apply Hok. vm_compute in Hs. injection Hs as <- <-. split; [reflexivity|].
    exists conf0_rules. apply reference_parse_spec. vm_compute. reflexivity.
  - destruct (test_mode_uses_lsock (world_of "permit" true) [Opt_t] root0 (Config true true "/etc/pfexecd.conf")
      ("permit" ++ String NUL "") (strlen "permit" + 1)) as (ts & lx & Hs & _ & Hbad); [vm_compute; reflexivity..|].
    exists ts, lx. split; [exact Hs|exact Hbad].
Defined.
