(* ===== verification/KernPfexec.v ===== *)
(** * The pfexecve system call ([0.syscall-pfexec-obsd/src/kern/kern_pfexec.c])

    The kernel copies the arguments of the caller into a request, sends it to the
    daemon, checks the response, gives the process the credentials of the
    response and executes the program.  What the socket layer, the file system and
    [sys_execve] return is an input of the model. *)

From S2P Require Import Prelude RBTree Pfexecvar PfexecEnv Pfexecd.

Definition ENOMEM := 12.
Definition ENOTCONN := 57.
Definition EPIPE := 32.
Definition ENAMETOOLONG := 63.

(** ** The process *)

(** [struct ucred]. *)
Record ucred := Ucred {
  cr_uid : Z; cr_ruid : Z; cr_svuid : Z; cr_gid : Z; cr_rgid : Z; cr_svgid : Z;
  cr_ngroups : Z; cr_groups : list Z }.

(** The process: its credentials, whether [PS_SUGID] is set, the root directory
    ([fd_rdir]), the calls of [chgproccnt] made for it, and the program that
    [sys_execve] last loaded with its arguments and environment. *)
Record process := Process {
  ps_pid : Z; ps_ucred : ucred; ps_sugid : bool; fd_rdir : option string;
  ps_counts : list (Z * Z);
  ps_program : option (string * list string * list string) }.

(** [struct pfexecve_opts] and the arguments of the call; NULL is [None]. *)
Record pfexecve_opts := PfexecveOpts { pfo_flags : Z; pfo_user : string }.
Record pfexecve_args := PfexecveArgs {
  a_opts : option pfexecve_opts; a_path : option string;
  a_argp : option (list string); a_envp : option (list string) }.

(** ** The request *)

(** [copyinstr(from, to, size, &copied)] of a readable string: the bytes, with
    the NUL when it fits, and [copied]. *)
Definition copyinstr (s : string) (size : Z) : string * Z :=
  if strlen s <? size then ((s ++ String NUL "")%string, strlen s + 1)
  else (String.substring 0 (Z.to_nat size) s, size).

(** The loops of [fill_mbuf] over [argp] and [envp]; [max] and [len] are of type
    [size_t]. *)
Fixpoint fill_loop (from : list string) (argc max len : Z)
    (argp : list pfexec_arg) (area : string) : ub (Z * list pfexec_arg * string) :=
  match from with
  | [] => Ok (argc, argp, area)
  | s :: from =>
    if (argc <? 1024) && (0 <? max) then
      let '(bytes, copied) := copyinstr s (u64 (max - len)) in
      if len + copied <=? ARG_MAX then
        let area := area_write (Z.to_nat len) bytes area in
        fill_loop from (argc + 1) (u64 (max - copied)) (len + copied)
          (argp ++ [PfexecArg (u32 len) (u32 (copied - 1))]) area
      else UB out_of_bounds
    else Ok (argc, argp, area)
  end.

(** The loop and the NUL that is written to the end of the area. *)
Definition fill_area (from : list string) : ub (Z * list pfexec_arg * string) :=
  '(argc, argp, area) ← fill_loop from 0 ARG_MAX 0 [] "";
  Ok (argc, argp, String.substring 0 (Z.to_nat (ARG_MAX - 1)) area).

(** A string of a fixed array, which runs on into the next array when it does not
    fit. *)
Definition copy_field (s next : string) (size : Z) : string :=
  if strlen s <? size then s else (String.substring 0 (Z.to_nat size) s ++ next)%string.

(** [fill_mbuf]. *)
Definition fill_mbuf (proc : process) (opts : pfexecve_opts) (path : string)
    (argp envp : list string) : ub pfexec_req :=
  let creds := ps_ucred proc in
  '(argc, args, argarea) ← fill_area argp;
  '(envc, envs, envarea) ← fill_area envp;
  let path := copy_field path "" PATH_MAX in
  let user := copy_field (pfo_user opts) path LOGIN_NAME_MAX in
  Ok (PfexecReq (ps_pid proc) (cr_uid creds) (cr_gid creds) (cr_ngroups creds) (cr_groups creds)
        (pfo_flags opts) user path argc args envc envs argarea envarea).

(** ** The exchange with the daemon *)

(** How the wait for the connection ends. *)
Inductive connecting := Connected | TimedOut | SoError (e : Z).

(** What the socket layer returns; [soreceive] fails with an error, or without
    an mbuf ([None]). *)
Record sockets := Sockets {
  socreate : Z; sosetopt_snd : Z; sosetopt_rcv : Z; soconnect : Z; so_wait : connecting;
  sosend : Z; soreceive : pfexec_req -> option Z + pfexec_resp }.

(** [listen_sock]: [sys_pf_errno] and whether [so] is set. *)
Definition listen_sock (net : sockets) : Z * bool :=
  let close ret := if ret =? 0 then ret else ENOTCONN in
  if nz (socreate net) then (close (socreate net), false) else
  if nz (sosetopt_snd net) then (close (sosetopt_snd net), false) else
  if nz (sosetopt_rcv net) then (close (sosetopt_rcv net), false) else
  if nz (soconnect net) then (close (soconnect net), false) else
  match so_wait net with
  | TimedOut => (close 0, false)
  | SoError e => if nz e then (close e, false) else (close 0, true)
  | Connected => (close 0, true)
  end.

(** [send_sock]: [sys_pf_errno]. *)
Definition send_sock (net : sockets) (so : bool) : ub Z :=
  if so then Ok (sosend net) else UB null_deref.

(** [rcv_sock]: [sys_pf_errno] and the response; the loop of [soreceive] is one
    step. *)
Definition rcv_sock (net : sockets) (req : pfexec_req) : Z * option pfexec_resp :=
  match soreceive net req with
  | inl (Some e) => (e, None)
  | inl None => (EPIPE, None)
  | inr resp => (0, Some resp)
  end.

(** [start_sock]: [sys_pf_errno] and the response. *)
Definition start_sock (net : sockets) (req : pfexec_req) : ub (Z * option pfexec_resp) :=
  let '(errno, so) := listen_sock net in
  if nz errno then Ok (errno, None) else
  errno ← send_sock net so;
  if nz errno then Ok (errno, None) else Ok (rcv_sock net req).

(** ** The response *)

(** [process_response]. *)
Definition process_response (resp : pfexec_resp) : Z :=
  if NGROUPS_MAX <=? u32 (rp_ngroups resp) then EINVAL else
  if 1024 <=? rp_envc resp then EINVAL else
  if negb (args_ok (rp_envp resp) (rp_envc resp)) then EINVAL else
  rp_errno resp.

(** [check_priv]: the result and [environment]. *)
Definition check_priv (resp : pfexec_resp) : Z * list string :=
  (rp_errno resp,
   (fun i => area_cstr (rp_envarea resp) (pfa_offset (arg_get (rp_envp resp) i))) <$> seqZ 0 (rp_envc resp)).

(** [pfexec_escilate]: [sys_pf_errno] and the process. *)
Definition pfexec_escilate (resp : pfexec_resp) (p : process) : Z * process :=
  let ngrp := s32 (rp_ngroups resp) in
  if (NGROUPS_MAX <? ngrp) || (ngrp <? 0) then (EINVAL, p) else
  let newcred := Ucred (rp_uid resp) (rp_uid resp) (rp_uid resp) (rp_gid resp) (rp_gid resp) (rp_gid resp)
    ngrp (take (Z.to_nat ngrp) (rp_groups resp) ++ drop (Z.to_nat ngrp) (cr_groups (ps_ucred p))) in
  (0, Process (ps_pid p) newcred true (fd_rdir p)
        (ps_counts p ++ [(cr_uid (ps_ucred p), -1); (rp_uid resp, 1)]) (ps_program p)).

Definition VSUID := 2048.
Definition VSGID := 1024.

(** The attributes [check_exec] finds for a program (the mode without the set-id bits when its
    file system is mounted without them), and what [proc_cansugid] says. *)
Record exec_attr := ExecAttr { va_mode : Z; va_uid : Z; va_gid : Z; cansugid : bool }.

(** What [sys_execve] and [namei] return: [sys_execve] fails with an error and the old program goes
    on, or loads the program with its attributes. *)
Record kernel := Kernel { sys_execve : process -> Z + exec_attr; chroot_error : process -> string -> Z }.

(** [apply_chroot]. *)
Definition apply_chroot (k : kernel) (p : process) (path : string) : Z * process :=
  let error := chroot_error k p path in
  if nz error then (error, p)
  else (0, Process (ps_pid p) (ps_ucred p) (ps_sugid p) (Some path) (ps_counts p) (ps_program p)).

Definition va_set (attr : exec_attr) (bits : Z) : bool := nz (Z.land (va_mode attr) bits).

(** Whether the program is run with the ids of its file. *)
Definition exec_setid (attr : exec_attr) : bool := va_set attr (Z.lor VSUID VSGID) && cansugid attr.

(** The credentials with which [sys_execve] starts a program: the effective ids are those of the
    file of a set-id program, and the saved ids follow the effective ones. *)
Definition exec_cred (attr : exec_attr) (cred : ucred) : ucred :=
  let cred :=
    if exec_setid attr
    then Ucred (if va_set attr VSUID then va_uid attr else cr_uid cred) (cr_ruid cred) (cr_svuid cred)
               (if va_set attr VSGID then va_gid attr else cr_gid cred) (cr_rgid cred) (cr_svgid cred)
               (cr_ngroups cred) (cr_groups cred)
    else cred in
  if negb (cr_uid cred =? cr_svuid cred) || negb (cr_gid cred =? cr_svgid cred)
  then Ucred (cr_uid cred) (cr_ruid cred) (cr_uid cred) (cr_gid cred) (cr_rgid cred) (cr_gid cred)
         (cr_ngroups cred) (cr_groups cred)
  else cred.

(** The call of [sys_execve]: a new program replaces the old one, with the credentials
    of [exec_cred]; [PS_SUGID] says from then on whether it is a set-id program. *)
Definition execve (k : kernel) (p : process) (path : string) (argp envp : list string) : Z * process :=
  match sys_execve k p with
  | inl ret => (ret, p)
  | inr attr =>
      (0, Process (ps_pid p) (exec_cred attr (ps_ucred p)) (exec_setid attr) (fd_rdir p) (ps_counts p)
            (Some (path, argp, envp)))
  end.

(** [pfexec_exec]: [sys_pf_errno], which only [pfexec_escilate] sets, and the
    process. *)
Definition pfexec_exec (k : kernel) (resp : pfexec_resp) (path : string) (argp : list string)
    (errno : Z) (p : process) : Z * process :=
  let '(ret, environment) := check_priv resp in
  if nz ret then (errno, p) else
  let '(errno, p) := pfexec_escilate resp p in
  let '(_, p) := execve k p path argp environment in
  let p :=
    if nz (Z.land (rp_flags resp) PFRESP_CHROOT) then
      let '(ret, p) := apply_chroot k p (strlcpy PATH_MAX (rp_chroot resp)) in
      if nz ret then snd (apply_chroot k p "/var/empty") else p
    else p in
  (errno, p).

(** [validate_args]. *)
Definition validate_args (uap : pfexecve_args) : Z :=
  match a_opts uap, a_path uap, a_argp uap, a_envp uap with
  | Some _, Some _, Some _, Some _ => 0
  | _, _, _, _ => EINVAL
  end.

(** [sys_pfexecve]: the result and the process.  [ret] is still 0 when
    [taskq_create] fails; [tsleep] is the result of [tsleep_nsec]. *)
Definition sys_pfexecve (net : sockets) (k : kernel) (taskq_ok malloc_ok : bool) (tsleep : Z)
    (p : process) (uap : pfexecve_args) : ub (Z * process) :=
  match a_opts uap, a_path uap, a_argp uap, a_envp uap with
  | Some opts, Some path, Some argp, Some envp =>
    if negb taskq_ok then Ok (0, p) else
    if negb malloc_ok then Ok (0, p) else
    req ← fill_mbuf p opts path argp envp;
    '(errno, resp) ← start_sock net req;
    if nz tsleep then Ok (tsleep, p) else
    ret ← (if errno =? 0 then r ← deref resp; Ok (process_response r) else Ok 0);
    let ret := if nz errno then errno else ret in
    if nz ret then Ok (ret, p) else
    r ← deref resp;
    Ok (pfexec_exec k r path argp errno p)
  | _, _, _, _ => Ok (validate_args uap, p)
  end.

(** ** Credentials *)

(** The credentials that a response gives. *)
Definition cred_of (resp : pfexec_resp) (old : ucred) : ucred :=
  let ngrp := s32 (rp_ngroups resp) in
  Ucred (rp_uid resp) (rp_uid resp) (rp_uid resp) (rp_gid resp) (rp_gid resp) (rp_gid resp)
    ngrp (take (Z.to_nat ngrp) (rp_groups resp) ++ drop (Z.to_nat ngrp) (cr_groups old)).

(** A program that is not set-id starts with credentials whose saved ids are the effective ones. *)
Lemma exec_cred_plain attr c : exec_setid attr = false -> cr_svuid c = cr_uid c -> cr_svgid c = cr_gid c ->
  exec_cred attr c = c.
Proof. intros Hs Hu Hg. unfold exec_cred. rewrite Hs, Hu, Hg, !Z.eqb_refl. done. Qed.

Lemma exec_cred_ruid attr c : cr_ruid (exec_cred attr c) = cr_ruid c.
Proof. unfold exec_cred. by destruct (exec_setid attr); cbn [cr_uid cr_svuid cr_gid cr_svgid]; case_if. Qed.

Lemma exec_cred_saved attr c : cr_svuid (exec_cred attr c) = cr_uid (exec_cred attr c).
Proof.
  unfold exec_cred. destruct (exec_setid attr); cbn [cr_uid cr_svuid cr_gid cr_svgid]; case_if; cbn [cr_uid cr_svuid]; try done.
  all: cbool; lia.
Qed.

Lemma exec_cred_uid attr c :
  cr_uid (exec_cred attr c) = (if exec_setid attr && va_set attr VSUID then va_uid attr else cr_uid c).
Proof.
  unfold exec_cred. destruct (exec_setid attr); cbn [andb cr_uid cr_svuid cr_gid cr_svgid]; by case_if.
Qed.

(** [sys_execve] leaves the program or starts the new one. *)
Lemma execve_cases k p path argp envp :
  snd (execve k p path argp envp) = p \/
  exists attr, sys_execve k p = inr attr /\
    ps_program (snd (execve k p path argp envp)) = Some (path, argp, envp) /\
    ps_ucred (snd (execve k p path argp envp)) = exec_cred attr (ps_ucred p).
Proof. unfold execve. destruct (sys_execve k p) as [e|attr] eqn:He; [by left|]. right. by exists attr. Qed.

Lemma apply_chroot_same k p path : ps_ucred (snd (apply_chroot k p path)) = ps_ucred p /\
  ps_program (snd (apply_chroot k p path)) = ps_program p.
Proof. unfold apply_chroot. by case_if. Qed.

(** The process with the credentials of a response that [process_response] lets through. *)
Lemma pfexec_escilate_cred resp p : u32 (rp_ngroups resp) < NGROUPS_MAX ->
  fst (pfexec_escilate resp p) = 0 /\ ps_ucred (snd (pfexec_escilate resp p)) = cred_of resp (ps_ucred p) /\
  ps_program (snd (pfexec_escilate resp p)) = ps_program p.
Proof.
  intros Hn. assert (0 <= s32 (rp_ngroups resp) < NGROUPS_MAX) as Hs.
  { replace (s32 (rp_ngroups resp)) with (s32 (u32 (rp_ngroups resp)))
      by (unfold sN, uN; by rewrite Zplus_mod_idemp_l).
    pose proof (uN_bounds 32 ltac:(lia) (rp_ngroups resp)). unfold NGROUPS_MAX in *. rewrite sN_small; lia. }
  unfold pfexec_escilate. rewrite (proj2 (Z.ltb_ge _ _)), (proj2 (Z.ltb_ge _ 0)) by lia. done.
Qed.

(** What [pfexec_exec] leaves when the response is no error: the credentials of the
    response, as the program that was loaded, if one was, changes them. *)
Lemma pfexec_exec_cred k resp path argp errno p p' ret :
  rp_errno resp = 0 -> u32 (rp_ngroups resp) < NGROUPS_MAX -> pfexec_exec k resp path argp errno p = (ret, p') ->
  ret = 0 /\
  (ps_ucred p' = cred_of resp (ps_ucred p) \/
   exists p1 attr env, ps_ucred p1 = cred_of resp (ps_ucred p) /\ sys_execve k p1 = inr attr /\
     ps_program p' = Some (path, argp, env) /\ ps_ucred p' = exec_cred attr (ps_ucred p1)).
Proof.
  intros He Hn. unfold pfexec_exec, check_priv. rewrite He. change (nz 0) with false. cbv iota beta.
  pose proof (pfexec_escilate_cred resp p Hn) as (H1 & H2 & _). destruct (pfexec_escilate resp p) as [e p1].
  cbn [fst snd] in H1, H2. subst e.
  match goal with |- context [execve k p1 path argp ?l] => set (env := l) end.
  pose proof (execve_cases k p1 path argp env) as H3. destruct (execve k p1 path argp env) as [r2 p2]. cbn [snd] in H3.
  intros Hex. assert (Hp : ret = 0 /\ ps_ucred p' = ps_ucred p2 /\ ps_program p' = ps_program p2).
  { revert Hex. case_if; [|by intros [= <- <-]].
    pose proof (apply_chroot_same k p2 (strlcpy PATH_MAX (rp_chroot resp))) as [H4 H5].
    destruct (apply_chroot k p2 (strlcpy _ _)) as [r3 p3]. cbn [snd] in H4, H5. rewrite <- H4, <- H5.
    intros [= <- <-]. case_if; [|done]. by destruct (apply_chroot_same k p3 "/var/empty"). }
  destruct Hp as (-> & Hc & Hg). split; [done|]. rewrite Hc, Hg. destruct H3 as [->|(attr & Ha & Hg2 & Hc2)]; [by left|].
  right. by exists p1, attr, env.
Qed.

Lemma process_response_0 resp :
  process_response resp = 0 -> u32 (rp_ngroups resp) < NGROUPS_MAX /\ rp_errno resp = 0.
Proof.
  unfold process_response. case_if; [done|]. case_if; [done|]. case_if; [done|]. cbool. done.
Qed.

Lemma start_sock_resp net req errno resp :
  start_sock net req = Ok (errno, Some resp) -> soreceive net req = inr resp.
Proof.
  unfold start_sock. destruct (listen_sock net) as [e so]. case_if; [done|].
  intros (e1 & _ & Hs)%ub_bind_ok. revert Hs. case_if; [done|]. unfold rcv_sock.
  destruct (soreceive net req) as [[?|]|]; [done|done|]. by intros [= _ <-].
Qed.

(** How the system call ends: with the process unchanged, or with
    [pfexec_exec] on a response to the request of this call that has no error and
    fewer than 16 groups. *)
Lemma sys_pfexecve_cases net k taskq_ok malloc_ok tsleep p uap ret p' :
  sys_pfexecve net k taskq_ok malloc_ok tsleep p uap = Ok (ret, p') ->
  p' = p \/
  exists opts path argp envp req resp,
    uap = PfexecveArgs (Some opts) (Some path) (Some argp) (Some envp) /\
    fill_mbuf p opts path argp envp = Ok req /\ soreceive net req = inr resp /\
    rp_errno resp = 0 /\ u32 (rp_ngroups resp) < NGROUPS_MAX /\
    (ret, p') = pfexec_exec k resp path argp 0 p.
Proof.
  unfold sys_pfexecve. destruct uap as [[opts|] [path|] [argp|] [envp|]]; cbn [a_opts a_path a_argp a_envp];
    try (by intros [= <- <-]; left).
  case_if; [by intros [= <- <-]; left|]. case_if; [by intros [= <- <-]; left|].
  intros (req & Hreq & Hd)%ub_bind_ok. apply ub_bind_ok in Hd as ([errno resp] & Hs & Hd).
  revert Hd. case_if; [by intros [= <- <-]; left|].
  intros (ret1 & Hret & Hd)%ub_bind_ok. revert Hd. case_if; [by intros [= <- <-]; left|].
  intros (r & Hr & Hd)%ub_bind_ok. right.
  destruct resp as [resp|]; [|done]. injection Hr as ->. apply start_sock_resp in Hs.
  assert (errno = 0) as ->. { revert E2. destruct (nz errno) eqn:En; [congruence|]. by apply nz_false in En. }
  cbn in Hret, E2. injection Hret as Hret. apply nz_false in E2. rewrite E2 in Hret.
  apply process_response_0 in Hret as [Hn He]. injection Hd as Hd.
  exists opts, path, argp, envp, req, r. by rewrite Hd.
Qed.

(** ** The daemon behind the socket *)

(** The response that the daemon sends for a whole request. *)
Definition daemon_answer {T} `{RBTree string string T} (db : userdb) (rules : list rule)
    (req : pfexec_req) : option Z + pfexec_resp :=
  match on_client_readable db rules (MkDaemon [] ∅ true) 0 (Recv sizeof_pfexec_req req) true with
  | Ok (_, effs) => match last effs with Some (SendMsg _ resp) => inr resp | _ => inl None end
  | UB _ => inl None
  end.

Lemma daemon_answer_ok {T} `{RBTree string string T} db rules req resp :
  daemon_answer db rules req = inr resp -> rp_errno resp = 0 ->
  exists rc, (rc = 0 \/ rc = -1) /\ process_request db rules req resp_zero = Ok (resp, rc).
Proof.
  unfold daemon_answer, on_client_readable. change (sizeof_pfexec_req =? 0) with false.
  rewrite Z.ltb_irrefl. cbv iota.
  destruct (process_request db rules req resp_zero) as [[r rc]|] eqn:Ep; [|done]. cbn [mbind ub_bind].
  destruct (Z.eqb_spec rc 0) as [->|H0]; cbn [negb].
  { cbn. intros [= <-] _. exists 0. by split; [left|]. }
  destruct (Z.eqb_spec rc (-1)) as [->|H1]; cbn [negb].
  { cbn. intros [= <-] _. exists (-1). by split; [right|]. }
  cbn. intros [= <-]. cbn. intros He. exfalso. revert Ep. unfold process_request.
  case_if; [by intros [= <- <-]|]. destruct (last_match db req rules); [|by intros [= <- <-]].
  case_if; [by intros [= <- <-]|]. case_if; [by intros [= <- <-]|]. case_if; [by intros [= <- <-]|].
  intros (r1 & _ & Hr)%ub_bind_ok. revert Hr. case_if; intros [= <- <-]; done.
Qed.

(** The user ids a granted process has: the real one is that of the user; the effective and
    the saved one are too, unless the program was loaded and is a set-user-id program: then
    they are those of the owner of its file. *)
Definition ids_given (k : kernel) (pw : passwd) (path : string) (argp : list string) (p' : process) : Prop :=
  cr_ruid (ps_ucred p') = pw_uid pw /\ cr_svuid (ps_ucred p') = cr_uid (ps_ucred p') /\
  (cr_uid (ps_ucred p') = pw_uid pw \/
   exists p1 attr env, cr_uid (ps_ucred p1) = pw_uid pw /\ sys_execve k p1 = inr attr /\
     exec_setid attr = true /\ va_set attr VSUID = true /\
     ps_program p' = Some (path, argp, env) /\ cr_uid (ps_ucred p') = va_uid attr).

(** What the credentials are when they change, and by which rule. *)
Lemma credentials_by_rule {T} `{RBTree string string T} db rules net k taskq_ok malloc_ok tsleep p uap ret p' :
  (forall req, soreceive net req = daemon_answer db rules req) ->
  sys_pfexecve net k taskq_ok malloc_ok tsleep p uap = Ok (ret, p') ->
  ps_ucred p' <> ps_ucred p ->
  ret = 0 /\
  exists opts path argp envp req l1 r l2 pw,
    uap = PfexecveArgs (Some opts) (Some path) (Some argp) (Some envp) /\
    fill_mbuf p opts path argp envp = Ok req /\ pfr_uid req = cr_uid (ps_ucred p) /\
    rules = l1 ++ r :: l2 /\ match_rule db req r = true /\
    (forall r', r' ∈ l2 -> match_rule db req r' = false) /\
    Z.land (r_action r) DENY = 0 /\ Z.land (r_options r) NOPASS <> 0 /\
    getpwuid db (fst (parseuid db (pfr_req_user req))) = Some pw /\
    ids_given k pw path argp p'.
Proof.
  intros Hnet Hsys Hne.
  apply sys_pfexecve_cases in Hsys as [->|(opts & path & argp & envp & req & resp & -> & Hreq & Hr & He & Hng & Hex)]; [done|].
  destruct (pfexec_exec_cred k resp path argp 0 p p' ret He Hng (eq_sym Hex)) as [-> Hc].
  split; [done|]. rewrite Hnet in Hr. destruct (daemon_answer_ok db rules req resp Hr He) as (rc & Hrc & Hp).
  destruct (process_request_spec db rules req resp rc Hp Hrc) as (_ & (_ & pw & Hpw & Hu) & l1 & r & l2 & Hl & Hm & Hn & Ha & Ho & _).
  exists opts, path, argp, envp, req, l1, r, l2, pw.
  assert (pfr_uid req = cr_uid (ps_ucred p)) as Hid.
  { unfold fill_mbuf in Hreq. apply ub_bind_ok in Hreq as ([[? ?] ?] & _ & Hreq).
    apply ub_bind_ok in Hreq as ([[? ?] ?] & _ & [= <-]). done. }
  repeat (split; [done|]). unfold ids_given. destruct Hc as [Hc|(p1 & attr & env & H1 & Hx & Hg & Hc)]; rewrite Hc.
  - split; [done|]. split; [done|by left].
  - rewrite exec_cred_ruid, exec_cred_saved, exec_cred_uid, H1. cbn [cred_of cr_ruid cr_uid].
    split; [done|]. split; [done|]. destruct (exec_setid attr && va_set attr VSUID) eqn:Es; [|by left].
    apply andb_true_iff in Es as [? ?]. right. exists p1, attr, env. by rewrite H1.
Qed.


(** ** The arguments in the request *)

Definition fill_refs (len : Z) (l : list string) : list pfexec_arg :=
  (fun a => PfexecArg (pfa_offset a) (pfa_len a - 1)) <$> area_refs len l.

Lemma fill_loop_spec from argc argp area :
  2 * (strlen area + area_size from) <= ARG_MAX -> argc + Z.of_nat (length from) <= 1024 ->
  fill_loop from argc (ARG_MAX - strlen area) (strlen area) argp area =
  Ok (argc + Z.of_nat (length from), argp ++ fill_refs (strlen area) from, (area ++ area_flat from)%string).
Proof.
  revert argc argp area; induction from as [|s l IH]; intros argc argp area Hs Hc.
  { simpl. rewrite app_nil_r, string_app_nil_r, Z.add_0_r. done. }
  cbn [fill_loop area_size foldr length] in *. fold (area_size l) in Hs.
  pose proof (strlen_nonneg s). pose proof (strlen_nonneg area). pose proof (area_size_nonneg l).
  assert (ARG_MAX < 2 ^ 20) by (by compute).
  rewrite (proj2 (Z.ltb_lt argc 1024)), (proj2 (Z.ltb_lt 0 (ARG_MAX - strlen area))) by lia.
  cbn [andb]. rewrite (uN_small 64 (ARG_MAX - strlen area - strlen area)) by lia. unfold copyinstr.
  rewrite (proj2 (Z.ltb_lt _ _)) by lia.
  rewrite (proj2 (Z.leb_le _ _)) by lia.
  replace (Z.to_nat (strlen area)) with (String.length area) by (unfold strlen; lia).
  rewrite area_write_end. rewrite !uN_small by lia.
  assert (strlen (area ++ (s ++ String NUL "")) = strlen area + (strlen s + 1)) as Hl.
  { rewrite !strlen_app. unfold strlen. cbn [String.length]. lia. }
  replace (ARG_MAX - strlen area - (strlen s + 1)) with (ARG_MAX - (strlen area + (strlen s + 1))) by lia.
  rewrite <- Hl, IH by lia. rewrite Hl. f_equal.
  f_equal; [f_equal; [lia|]|].
  - unfold fill_refs. cbn [area_refs fmap list_fmap pfa_offset pfa_len]. by rewrite <- app_assoc.
  - cbn [area_flat]. by rewrite !string_app_assoc.
Qed.

Lemma fill_area_spec from :
  Forall (fun s => cstr s = s) from -> (length from <= 1024)%nat -> 2 * area_size from <= ARG_MAX ->
  exists refs area, fill_area from = Ok (Z.of_nat (length from), refs, area) /\ length refs = length from /\
    forall i s, from !! i = Some s -> refers area (arg_get refs (Z.of_nat i)) s.
Proof.
  intros Hcs Hlen Hsize. unfold fill_area.
  pose proof (fill_loop_spec from 0 [] "" Hsize ltac:(lia)) as Hl.
  change (strlen "") with 0 in Hl. rewrite Z.sub_0_r in Hl. rewrite Hl. cbn [mbind ub_bind].
  do 2 eexists. split; [done|]. split; [unfold fill_refs; cbn; by rewrite length_fmap, area_refs_length|].
  intros i s Hi. destruct (area_refs_cstr "" from i s Hcs Hi) as (off & Hr & Hs).
  unfold arg_get, fill_refs. rewrite Nat2Z.id. change (strlen "") with 0 in Hr. cbn [app].
  rewrite list_lookup_fmap, Hr. cbn. split; [cbn; lia|]. cbn [pfa_offset].
  rewrite substring_all; [done|].
  pose proof (strlen_flat from) as Hf. unfold strlen in Hf. unfold ARG_MAX in *.
  change ("" ++ area_flat from)%string with (area_flat from). lia.
Qed.

(** The daemon sees the arguments of the caller: when they number from 1 to
    1023 and take at most half of the area, each reference of the request
    leads to one argument, in order, with its length.  (Past half of the area
    the copies are cut, because the loop takes the length off twice.) *)
Theorem fill_mbuf_args p opts path argp envp :
  Forall (fun s => cstr s = s) (argp ++ envp) ->
  (0 < length argp < 1024)%nat -> (length envp < 1024)%nat ->
  2 * area_size argp <= ARG_MAX -> 2 * area_size envp <= ARG_MAX ->
  exists req, fill_mbuf p opts path argp envp = Ok req /\ has_args req argp /\
    envarea_convert req = envp.
Proof.
  intros [Ha He]%Forall_app Hla Hle Hsa Hse. unfold fill_mbuf.
  destruct (fill_area_spec argp Ha ltac:(lia) Hsa) as (ar & aa & -> & Hlar & Har).
  destruct (fill_area_spec envp He ltac:(lia) Hse) as (er & ea & -> & Hler & Her).
  cbn [mbind ub_bind]. eexists. split; [done|]. split.
  - split; [done|]. split; [done|]. cbn [pfr_argp pfr_argarea pfr_argc]. split; [exact Har|].
    unfold arg_get. rewrite Nat2Z.id, lookup_ge_None_2 by lia. done.
  - unfold envarea_convert. cbn [pfr_envc pfr_envp pfr_envarea].
    rewrite (proj2 (Z.ltb_ge _ _)) by lia.
    apply list_eq. intros i. rewrite list_lookup_fmap.
    destruct (envp !! i) as [s|] eqn:Ei.
    + pose proof (lookup_lt_Some _ _ _ Ei). rewrite lookup_seqZ_lt by lia.
      cbn [fmap option_fmap option_map]. f_equal. apply (proj2 (Her i s Ei)).
    + apply lookup_ge_None in Ei. by rewrite lookup_seqZ_ge by lia.
Qed.

(** The sockets work and the daemon's response is valid. *)
Definition answered (net : sockets) (req : pfexec_req) (resp : pfexec_resp) : Prop :=
  socreate net = 0 /\ sosetopt_snd net = 0 /\ sosetopt_rcv net = 0 /\ soconnect net = 0 /\
  so_wait net = Connected /\ sosend net = 0 /\ soreceive net req = inr resp /\ process_response resp = 0.

(** A program that cannot be executed leaves the old program with the new
    credentials: the error of [sys_execve] is dropped after the credentials were
    raised, and the system call returns 0. *)
Theorem sys_pfexecve_exec_fails net k p opts path argp envp req resp :
  fill_mbuf p opts path argp envp = Ok req -> answered net req resp ->
  Z.land (rp_flags resp) PFRESP_CHROOT = 0 ->
  (forall p, exists e, sys_execve k p = inl e) ->
  exists p', sys_pfexecve net k true true 0 p
      (PfexecveArgs (Some opts) (Some path) (Some argp) (Some envp)) = Ok (0, p') /\
    ps_program p' = ps_program p /\ ps_ucred p' = cred_of resp (ps_ucred p).
Proof.
  intros Hreq (H1 & H2 & H3 & H4 & H5 & H6 & H7 & H8) Hf Hex.
  unfold sys_pfexecve. cbn [a_opts a_path a_argp a_envp negb]. rewrite Hreq. cbn [mbind ub_bind].
  unfold start_sock, listen_sock. rewrite H1, H2, H3, H4, H5. cbn.
  rewrite H6. cbn. unfold rcv_sock. rewrite H7. cbn. rewrite H8. cbn.
  apply process_response_0 in H8 as [Hng He].
  destruct (pfexec_escilate_cred resp p Hng) as (Ha & Hb & Hc).
  unfold pfexec_exec, check_priv. rewrite He. cbn. destruct (pfexec_escilate resp p) as [e1 p1]. cbn [fst snd] in Ha, Hb, Hc.
  unfold execve. destruct (Hex p1) as [e2 ->]. rewrite Hf. cbn. subst e1. by exists p1.
Qed.

(** When the connection to the daemon takes longer than two seconds, the
    error is lost and the request is sent over a NULL socket. *)
Theorem sys_pfexecve_timeout net k tsleep p opts path argp envp req :
  fill_mbuf p opts path argp envp = Ok req ->
  socreate net = 0 -> sosetopt_snd net = 0 -> sosetopt_rcv net = 0 -> soconnect net = 0 ->
  so_wait net = TimedOut ->
  sys_pfexecve net k true true tsleep p (PfexecveArgs (Some opts) (Some path) (Some argp) (Some envp)) =
  UB null_deref.
Proof.
  intros Hreq H1 H2 H3 H4 H5. unfold sys_pfexecve. cbn [a_opts a_path a_argp a_envp negb].
  rewrite Hreq. cbn [mbind ub_bind]. unfold start_sock, listen_sock. by rewrite H1, H2, H3, H4, H5.
Qed.

(** ** The properties on an example *)

Definition process0 : process :=
  Process 7 (Ucred 1000 1000 1000 1000 1000 1000 1 [1000]) false None [] None.
Definition args0 : pfexecve_args :=
  PfexecveArgs (Some (PfexecveOpts PFEXECVE_USER "root")) (Some "/bin/rm"%string)
    (Some ["rm"; "-r"; "x"]%string) (Some ["TERM=vt220"]%string).
Definition req1 : pfexec_req :=
  match fill_mbuf process0 (PfexecveOpts PFEXECVE_USER "root") "/bin/rm" ["rm"; "-r"; "x"] ["TERM=vt220"] with
  | Ok req => req | UB _ => req0 "root" end.
Definition net0 (w : connecting) : sockets :=
  Sockets 0 0 0 0 w 0 (daemon_answer (T := gmap string string) db0 rules0).
Definition kernel0 (e : Z) : kernel :=
  Kernel (fun _ => if nz e then inl e else inr (ExecAttr 493 0 0 true)) (fun _ _ => 0).

(** A program that is set-user-id for user 33. *)
Definition kernel_suid : kernel := Kernel (fun _ => inr (ExecAttr (VSUID + 493) 33 33 true)) (fun _ _ => 0).
Example suid_ids : match sys_pfexecve (net0 Connected) kernel_suid true true 0 process0 args0 with
  | Ok (_, p') => (cr_ruid (ps_ucred p'), cr_uid (ps_ucred p'), cr_svuid (ps_ucred p'), ps_sugid p') = (0, 33, 33, true)
  | UB _ => False end.
Proof. vm_compute. reflexivity. Qed.



Lemma fill_mbuf_args_witness :
  exists req, fill_mbuf process0 (PfexecveOpts 0 "") "/bin/rm" ["rm"; "-r"; "x"] ["TERM=vt220"] = Ok req /\
    has_args req ["rm"; "-r"; "x"]%string /\ envarea_convert req = ["TERM=vt220"%string].
Proof.
  apply (fill_mbuf_args process0 (PfexecveOpts 0 "") "/bin/rm").
  - repeat constructor.
  - simpl; lia.
  - simpl; lia.
  - vm_compute. discriminate.
  - vm_compute. discriminate.
Defined.

Lemma sys_pfexecve_exec_fails_witness :
  exists p', sys_pfexecve (net0 Connected) (kernel0 2) true true 0 process0 args0 = Ok (0, p') /\
    ps_program p' = None /\ cr_uid (ps_ucred p') = 0.
Proof.
  destruct (sys_pfexecve_exec_fails (net0 Connected) (kernel0 2) process0 (PfexecveOpts PFEXECVE_USER "root")
    "/bin/rm" ["rm"; "-r"; "x"] ["TERM=vt220"] req1
    (match daemon_answer (T := gmap string string) db0 rules0 req1 with inr r => r | inl _ => resp_zero end))
    as (p' & Hp & Hprog & Hc).
  - vm_compute. reflexivity.
  - repeat split; vm_compute; reflexivity.
  - vm_compute. reflexivity.
  - intros p. by exists 2.
  - exists p'. split; [exact Hp|]. split; [exact Hprog|]. rewrite Hc. vm_compute. reflexivity.
Defined.

Lemma sys_pfexecve_timeout_witness :
  sys_pfexecve (net0 TimedOut) (kernel0 0) true true 0 process0 args0 = UB null_deref.
Proof. apply (sys_pfexecve_timeout (net0 TimedOut) _ 0 process0 _ _ _ _ req1); vm_compute; reflexivity. Defined.
