(* ===== verification/KernPfexecTask.v ===== *)
(** * The tasks and the memory of the pfexecve system call
    ([0.syscall-pfexec-obsd/src/kern/kern_pfexec.c])

    [sys_pfexecve] lets the socket be handled by the thread of a task queue and sleeps
    meanwhile; a signal may wake it up early.  Both sides work on the same [sock_data], on the
    stack of the system call.  This file models the two as steps that can be taken in any
    order, with every allocation and release, and shows that what the caller sees is what
    [KernPfexec] says.

    Both sides run under the kernel lock, which is given up only where the code sleeps, so a
    step is what is done from one sleep to the next.  An object is named by the place that
    allocates it. *)

From S2P Require Import Prelude RBTree Pfexecvar PfexecEnv Pfexecd KernPfexec.

(** ** Memory *)

(** The task queue; the request and the mbuf that it is attached to ([craft_mbuf]); the socket,
    the mbuf of an option and that of the name of the other side ([listen_sock]); what each
    [soreceive] gives, and the copy of the response ([rcv_sock]); the vector of [check_priv];
    the copies of [pfex_path_copy]. *)
Inductive obj :=
  | Taskq | Req | Req_m | So | Opt | Name | Resp_m (i : nat) | From (i : nat) | Resp
  | Environment | Path (second : bool).

#[export] Instance obj_eq_dec : EqDecision obj.
Proof. solve_decision. Defined.

Definition obj_code (o : obj) : nat * nat :=
  match o with
  | Taskq => (0, 0) | Req => (0, 1) | Req_m => (0, 2) | So => (0, 3) | Opt => (0, 4) | Name => (0, 5)
  | Resp => (0, 6) | Environment => (0, 7) | Path false => (0, 8) | Path true => (0, 9)
  | Resp_m i => (1, i) | From i => (2, i)
  end%nat.
Definition obj_of (c : nat * nat) : obj :=
  match c with
  | (1, i) => Resp_m i | (2, i) => From i
  | (_, 0) => Taskq | (_, 1) => Req | (_, 2) => Req_m | (_, 3) => So | (_, 4) => Opt | (_, 5) => Name
  | (_, 6) => Resp | (_, 7) => Environment | (_, 8) => Path false | (_, _) => Path true
  end%nat.
#[export] Instance obj_countable : Countable obj.
Proof. apply (inj_countable' obj_code obj_of). by intros [| | | | | | | | | |[]]. Defined.

Definition new (o : obj) (h : gset obj) : gset obj := {[o]} ∪ h.
Definition use (o : obj) (h : gset obj) : ub unit :=
  if decide (o ∈ h) then Ok tt else UB use_after_free.
Definition free (o : obj) (h : gset obj) : ub (gset obj) :=
  if decide (o ∈ h) then Ok (h ∖ {[o]}) else UB use_after_free.

(** [free] and [m_freem] do nothing for NULL. *)
Definition free_opt (o : option obj) (h : gset obj) : ub (gset obj) :=
  match o with Some o => free o h | None => Ok h end.

(** ** What the socket layer does with mbufs *)

(** The size of [struct pfexec_resp], a sum of the sizes of its members. *)
Definition sizeof_pfexec_resp :=
  5 * 4 + 4 * NGROUPS_MAX + PATH_MAX + 4 + 8 * 1024 + ARG_MAX.

(** What one call of [soreceive] gives: its result, the mbufs [m], with their length, which it
    takes off [uio_resid], and, when that is enough, the response in them, and whether there is a
    name [from]. *)
Record piece := Piece { pc_ret : Z; pc_m : option (Z * pfexec_resp); pc_from : bool }.

(** [sosend_took]: whether [sosend] has taken the mbuf of the request over.  When [receives] is
    used up, the next [soreceive] sleeps for ever. *)
Record mbufs := Mbufs { sosend_took : bool; receives : list piece }.

(** ** The system call and its task *)

(** Where [sys_pfexecve] is, with the value that [ret] has: in [tsleep_nsec], behind it, at
    [pfexec_exec], at [free], in [taskq_destroy], at its end. *)
Inductive main_pc :=
  | Asleep | Woken (ret : Z) | Checked | Freeing (ret : Z) | Destroying (ret : Z) | Returned (ret : Z).

(** Where the thread of the queue is: in [listen_sock], in [send_sock], in the [soreceive] number
    [i] of [rcv_sock], in the [malloc] behind the last one; before [end_sock]; at rest. *)
Inductive task_pc :=
  | Listen | Send | Receive (i : nat) (len resid : Z) | Copy (i : nat) | End | Idle.

(** [d_resp] is the pointer [resp] with what it points to, and [c_sleep] what [tsleep_nsec]
    returned. *)
Record call := Call {
  c_main : main_pc; c_task : task_pc; c_live : gset obj; c_proc : process; c_sleep : Z;
  d_errno : Z; d_so : bool; d_resp_m : option obj; d_resp : option pfexec_resp }.

(** [wakeup(&data->ident)]. *)
Definition wakeup (m : main_pc) : main_pc := match m with Asleep => Woken 0 | _ => m end.

Section Tasks.
Context (net : sockets) (bufs : mbufs) (k : kernel) (path : string) (argp : list string).

(** [listen_sock]: the memory, [sys_pf_errno] and whether [so] is set. *)
Definition listen (h : gset obj) : ub (gset obj * Z * bool) :=
  let close ret := if ret =? 0 then ret else ENOTCONN in
  if nz (socreate net) then Ok (h, close (socreate net), false) else
  h ← free Opt (new Opt (new So h));
  if nz (sosetopt_snd net) then Ok (h, close (sosetopt_snd net), false) else
  h ← free Opt (new Opt h);
  if nz (sosetopt_rcv net) then Ok (h, close (sosetopt_rcv net), false) else
  let h := new Name h in
  let bad ret := h ← free So h; h ← free Name h; Ok (h, close ret, false) in
  let good := h ← free Name h; Ok (h, close 0, true) in
  if nz (soconnect net) then bad (soconnect net) else
  match so_wait net with
  | TimedOut => bad 0
  | SoError e => if nz e then bad e else good
  | Connected => good
  end.

(** The end of [start_sock] behind [send_sock] or [rcv_sock]. *)
Definition finish (s : call) (h : gset obj) (errno : Z) (resp : option pfexec_resp) : call :=
  Call (wakeup (c_main s)) End h (c_proc s) (c_sleep s) errno (d_so s) (d_resp_m s) resp.

(** The step of [send_sock]; the request goes with its mbuf ([free_req]). *)
Definition send (s : call) : ub call :=
  if negb (d_so s) then UB null_deref else
  _ ← use So (c_live s); _ ← use Req_m (c_live s);
  h ← (if sosend_took bufs then h ← free Req_m (c_live s); free Req h else Ok (c_live s));
  if nz (sosend net) then Ok (finish s h (sosend net) (d_resp s)) else
  Ok (Call (c_main s) (Receive 0 sizeof_pfexec_resp sizeof_pfexec_resp) h (c_proc s) (c_sleep s)
        0 (d_so s) (d_resp_m s) (d_resp s)).

(** The mbufs that a [soreceive] gives. *)
Definition got (i : nat) (p : piece) (h : gset obj) : gset obj :=
  let h := match pc_m p with Some _ => new (Resp_m i) h | None => h end in
  if pc_from p then new (From i) h else h.

(** A turn of the loop of [rcv_sock]. *)
Definition rcv_turn (s : call) (i : nat) (len resid : Z) (p : piece) : ub call :=
  _ ← use So (c_live s);
  let h := got i p (c_live s) in
  match pc_m p with
  | None => Ok (finish s h EPIPE (d_resp s))
  | Some (n, _) =>
    if nz (pc_ret p) then Ok (finish s h (pc_ret p) (d_resp s)) else
    let resid := resid - n in
    let len := len - (sizeof_pfexec_resp - resid) in
    if 0 <? len
    then Ok (Call (c_main s) (Receive (S i) len resid) h (c_proc s) (c_sleep s)
               (d_errno s) (d_so s) (d_resp_m s) (d_resp s))
    else Ok (Call (c_main s) (Copy i) h (c_proc s) (c_sleep s)
               (d_errno s) (d_so s) (Some (Resp_m i)) (d_resp s))
  end.

(** The rest of [rcv_sock]: [m_copydata] stops the kernel when the mbufs are too short. *)
Definition copy (s : call) (i : nat) (p : piece) : ub call :=
  '(n, resp) ← deref (pc_m p);
  let h := new Resp (c_live s) in
  _ ← use (Resp_m i) h;
  if n <? sizeof_pfexec_resp then UB out_of_bounds else
  h ← free_opt (if pc_from p then Some (From i) else None) h;
  Ok (finish s h 0 (Some resp)).

(** [end_sock]. *)
Definition end_sock (s : call) : ub call :=
  if negb (d_so s) then UB null_deref else
  h ← free So (c_live s); h ← free_opt (d_resp_m s) h;
  Ok (Call (wakeup (c_main s)) Idle h (c_proc s) (c_sleep s) (d_errno s) (d_so s) None (d_resp s)).

(** The next step of the thread; [None] when it has nothing to do or sleeps. *)
Definition step_task (s : call) : option (ub call) :=
  match c_task s with
  | Listen => Some (
      '(h, errno, so) ← listen (c_live s);
      Ok (if nz errno
          then Call (wakeup (c_main s)) Idle h (c_proc s) (c_sleep s) errno (d_so s) (d_resp_m s) (d_resp s)
          else Call (c_main s) Send h (c_proc s) (c_sleep s) errno so (d_resp_m s) (d_resp s)))
  | Send => Some (send s)
  | Receive i len resid => rcv_turn s i len resid <$> receives bufs !! i
  | Copy i => copy s i <$> receives bufs !! i
  | End => Some (end_sock s)
  | Idle => None
  end.

(** [pfexec_exec] with the vector of the environment, whose strings are in the response, and the
    copies of paths, which nothing frees: the memory, [sys_pf_errno] and the process. *)
Definition exec (s : call) (r : pfexec_resp) : ub (gset obj * Z * process) :=
  let h := new Environment (c_live s) in
  let '(ret, environment) := check_priv r in
  if nz ret then Ok (h, d_errno s, c_proc s) else
  let '(errno, p) := pfexec_escilate r (c_proc s) in
  _ ← use Resp h;
  let '(_, p) := execve k p path argp environment in
  let '(h, p) :=
    if nz (Z.land (rp_flags r) PFRESP_CHROOT) then
      let h := new (Path false) h in
      let '(ret, p) := apply_chroot k p (strlcpy PATH_MAX (rp_chroot r)) in
      if nz ret then (new (Path true) h, snd (apply_chroot k p "/var/empty")) else (h, p)
    else (h, p) in
  h ← free Environment h;
  Ok (h, errno, p).

Definition with_main (s : call) (m : main_pc) (h : gset obj) : call :=
  Call m (c_task s) h (c_proc s) (c_sleep s) (d_errno s) (d_so s) (d_resp_m s) (d_resp s).

(** Behind [tsleep_nsec]. *)
Definition woken (s : call) (ret : Z) : ub call :=
  if nz ret then
    Ok (Call (Freeing ret) (c_task s) (c_live s) (c_proc s) (c_sleep s) ret (d_so s) (d_resp_m s) (d_resp s))
  else
  ret ← (if d_errno s =? 0
         then r ← deref (d_resp s); _ ← use Resp (c_live s); Ok (process_response r) else Ok 0);
  let ret := if nz (d_errno s) then d_errno s else ret in
  Ok (with_main s (if nz ret then Freeing ret else Checked) (c_live s)).

(** The next step of the system call; [taskq_destroy] waits for the tasks. *)
Definition step_main (s : call) : option (ub call) :=
  match c_main s with
  | Asleep => None
  | Woken ret => Some (woken s ret)
  | Checked => Some (
      r ← deref (d_resp s); _ ← use Resp (c_live s);
      '(h, errno, p) ← exec s r;
      Ok (Call (Freeing errno) (c_task s) h p (c_sleep s) errno (d_so s) (d_resp_m s) (d_resp s)))
  | Freeing ret => Some (
      h ← free_opt ((fun _ => Resp) <$> d_resp s) (c_live s); Ok (with_main s (Destroying ret) h))
  | Destroying ret =>
      match c_task s with
      | Idle => Some (h ← free Taskq (c_live s); Ok (with_main s (Returned ret) h))
      | _ => None
      end
  | Returned _ => None
  end.

(** What happens next: a step of a side, or a signal, which makes [tsleep_nsec] return EINTR or
    ERESTART.  A side that cannot go on does nothing. *)
Inductive choice := Main | Task | Signal (restart : bool).

Definition EINTR := 4.
Definition ERESTART := -1.
Definition signal_ret (restart : bool) : Z := if restart then ERESTART else EINTR.

Definition step (c : choice) (s : call) : option (ub call) :=
  match c with
  | Main => step_main s
  | Task => step_task s
  | Signal restart =>
    match c_main s with
    | Asleep => Some (Ok (Call (Woken (signal_ret restart)) (c_task s) (c_live s) (c_proc s) (signal_ret restart)
                            (d_errno s) (d_so s) (d_resp_m s) (d_resp s)))
    | _ => None
    end
  end.

Fixpoint run (sched : list choice) (s : call) : ub call :=
  match sched with
  | [] => Ok s
  | c :: sched => match step c s with Some s' => s ← s'; run sched s | None => run sched s end
  end.
End Tasks.

(** [sys_pfexecve] up to [tsleep_nsec], with the request, or to a return before it.  When [malloc]
    of [craft_mbuf] fails, [ret] is 0 and the queue is destroyed. *)
Definition begin (taskq_ok malloc_ok : bool) (p : process) (uap : pfexecve_args) : ub call :=
  let ended ret h := Call (Returned ret) Idle h p 0 0 false None None in
  match a_opts uap, a_path uap, a_argp uap, a_envp uap with
  | Some opts, Some path, Some argp, Some envp =>
    if negb taskq_ok then Ok (ended 0 ∅) else
    let h := new Taskq ∅ in
    if negb malloc_ok then h ← free Taskq h; Ok (ended 0 h) else
    _ ← fill_mbuf p opts path argp envp;
    Ok (Call Asleep Listen (new Req_m (new Req h)) p 0 0 false None None)
  | _, _, _, _ => Ok (ended (validate_args uap) ∅)
  end.

(** The whole call under a schedule. *)
Definition sys_pfexecve_run (net : sockets) (bufs : mbufs) (k : kernel) (taskq_ok malloc_ok : bool)
    (p : process) (uap : pfexecve_args) (sched : list choice) : ub call :=
  s ← begin taskq_ok malloc_ok p uap;
  run net bufs k (default "" (a_path uap)) (default [] (a_argp uap)) sched s.

(** ** What the receipt comes to *)

(** The loop of [rcv_sock] on what [soreceive] gives, from number [i] on: the number of the last
    piece and the error, or the length and the response in its mbufs; [None] when the loop waits
    for ever. *)
Fixpoint rcv_loop (ps : list piece) (i : nat) (len resid : Z) : option (nat * (Z + Z * pfexec_resp)) :=
  match ps with
  | [] => None
  | p :: ps =>
    match pc_m p with
    | None => Some (i, inl EPIPE)
    | Some (n, resp) =>
      if nz (pc_ret p) then Some (i, inl (pc_ret p)) else
      let resid := resid - n in
      let len := len - (sizeof_pfexec_resp - resid) in
      if 0 <? len then rcv_loop ps (S i) len resid else Some (i, inr (n, resp))
    end
  end.
Definition rcv (bufs : mbufs) := rcv_loop (receives bufs) 0 sizeof_pfexec_resp sizeof_pfexec_resp.

(** The socket layer of [KernPfexec] with this receipt. *)
Definition net_of (net : sockets) (bufs : mbufs) : sockets :=
  Sockets (socreate net) (sosetopt_snd net) (sosetopt_rcv net) (soconnect net) (so_wait net) (sosend net)
    (fun _ => match rcv bufs with Some (_, inr (_, resp)) => inr resp | Some (_, inl e) => inl (Some e) | None => inl None end).

(** ** Memory, object by object *)

Lemma elem_of_new o o' h : o ∈ new o' h <-> o = o' \/ o ∈ h.
Proof. unfold new. set_solver. Qed.

Lemma use_ok o h : o ∈ h -> use o h = Ok tt.
Proof. intros. unfold use. by rewrite decide_True. Qed.

Lemma free_ok o h : o ∈ h -> free o h = Ok (h ∖ {[o]}).
Proof. intros. unfold free. by rewrite decide_True. Qed.

Lemma free_Ok o h h' : free o h = Ok h' -> o ∈ h /\ forall x, x ∈ h' <-> x ∈ h /\ x <> o.
Proof. unfold free. case_decide; [|done]. intros [= <-]. split; [done|]. set_solver. Qed.

Lemma use_Ok o h u : use o h = Ok u -> o ∈ h.
Proof. unfold use. by case_decide. Qed.

Lemma free_new o h : o ∉ h -> free o (new o h) = Ok h.
Proof. intros. rewrite free_ok by (rewrite elem_of_new; by left). f_equal. unfold new. set_solver. Qed.

Lemma got_elem i pc h o :
  o ∈ got i pc h <-> o ∈ h \/ o = Resp_m i /\ is_Some (pc_m pc) \/ o = From i /\ pc_from pc = true.
Proof.
  unfold got. destruct (pc_m pc); destruct (pc_from pc); rewrite ?elem_of_new; unfold is_Some; naive_solver.
Qed.

Section Proofs.
Context (net : sockets) (bufs : mbufs) (k : kernel) (p : process)
  (opts : pfexecve_opts) (path : string) (argp envp : list string) (req : pfexec_req).
Context (Hreq : fill_mbuf p opts path argp envp = Ok req).

Let uap := PfexecveArgs (Some opts) (Some path) (Some argp) (Some envp).

(** The socket that [listen_sock] leaves open when an option is refused. *)
Definition unclosed : bool :=
  (socreate net =? 0) && (nz (sosetopt_snd net) || nz (sosetopt_rcv net)).

Definition errno_of : Z := fst (listen_sock net).
Definition so_of : bool := snd (listen_sock net).

Lemma listen_spec h : So ∉ h -> Opt ∉ h -> Name ∉ h ->
  listen net h = Ok (if so_of || unclosed then new So h else h, errno_of, so_of).
Proof.
  intros Hs Ho Hn. unfold listen, errno_of, so_of, unclosed, listen_sock, nz.
  destruct (socreate net =? 0); [|done]. cbn [negb andb].
  assert (Hopt : free Opt (new Opt (new So h)) = Ok (new So h)) by (apply free_new; rewrite elem_of_new; naive_solver).
  assert (Hname : free Name (new Name (new So h)) = Ok (new So h)) by (apply free_new; rewrite elem_of_new; naive_solver).
  rewrite Hopt. cbn [mbind ub_bind].
  destruct (sosetopt_snd net =? 0); cbn [negb orb andb]; [|by rewrite orb_true_r].
  rewrite Hopt. cbn [mbind ub_bind].
  destruct (sosetopt_rcv net =? 0); cbn [negb orb andb]; [|by rewrite orb_true_r].
  rewrite free_ok by (rewrite !elem_of_new; naive_solver).
  assert (Hbad : free Name (new Name (new So h) ∖ {[So]}) = Ok h).
  { rewrite free_ok by (unfold new; set_solver). f_equal. unfold new. set_solver. }
  rewrite Hname. cbn [mbind ub_bind]. rewrite Hbad. cbn [mbind ub_bind].
  destruct (soconnect net =? 0); cbn [negb fst snd orb]; [|done].
  destruct (so_wait net) as [| |e]; cbn [fst snd orb]; [done|done|].
  by destruct (e =? 0); cbn [negb fst snd orb].
Qed.

Lemma errno_unclosed : errno_of = 0 -> so_of || unclosed = so_of.
Proof.
  unfold errno_of, so_of, unclosed, listen_sock, nz, ENOTCONN.
  destruct (socreate net =? 0); cbn [negb fst snd andb orb]; [|done].
  destruct (sosetopt_snd net =? 0); cbn [negb fst snd andb orb]; [|done].
  destruct (sosetopt_rcv net =? 0); cbn [negb fst snd andb orb]; [|done].
  intros _. by rewrite orb_false_r.
Qed.

Lemma errno_so : errno_of <> 0 -> so_of = false.
Proof.
  unfold errno_of, so_of, listen_sock. repeat (case_if; [done|]).
  destruct (so_wait net); [done|done|]. by case_if.
Qed.

(** ** The invariant *)

(** How [start_sock] ends, by [KernPfexec]. *)
Definition started (errno : Z) (resp : option pfexec_resp) : Prop :=
  start_sock (net_of net bufs) req = Ok (errno, resp).

Definition sent : Prop := errno_of = 0 /\ so_of = true /\ sosend net = 0.

Lemma started_refused : errno_of <> 0 -> started errno_of None.
Proof.
  intros He. unfold started, start_sock. change (listen_sock (net_of net bufs)) with (listen_sock net).
  revert He. unfold errno_of. destruct (listen_sock net) as [e so]. cbn [fst]. intros He.
  by rewrite (proj2 (nz_true e)).
Qed.

Lemma started_unsent : errno_of = 0 -> so_of = true -> sosend net <> 0 -> started (sosend net) None.
Proof.
  intros He Hs Hn. unfold started, start_sock. change (listen_sock (net_of net bufs)) with (listen_sock net).
  revert He Hs. unfold errno_of, so_of. destruct (listen_sock net) as [e so]. cbn [fst snd]. intros -> ->.
  cbn. by rewrite (proj2 (nz_true (sosend net))).
Qed.

Lemma started_received i res : sent -> rcv bufs = Some (i, res) ->
  match res with inl e => started e None | inr (_, r) => started 0 (Some r) end.
Proof.
  intros (He & Hs & Hn) Hr. unfold started, start_sock. change (listen_sock (net_of net bufs)) with (listen_sock net).
  revert He Hs. unfold errno_of, so_of. destruct (listen_sock net) as [e so]. cbn [fst snd]. intros -> ->.
  cbn. rewrite Hn. cbn. unfold rcv_sock. cbn. rewrite Hr. by destruct res as [?|[??]].
Qed.

(** The response that the call is executed by. *)
Definition accepted (r : pfexec_resp) : Prop := started 0 (Some r) /\ process_response r = 0.

(** The copies of paths that [pfexec_exec] makes for it. *)
Definition copies (r : pfexec_resp) : list bool :=
  if nz (Z.land (rp_flags r) PFRESP_CHROOT) then
    let p := snd (execve k (snd (pfexec_escilate r p)) path argp (snd (check_priv r))) in
    false :: (if nz (fst (apply_chroot k p (strlcpy PATH_MAX (rp_chroot r)))) then [true] else [])
  else [].

(** The mbufs number [j] of [soreceive], when the loop ended at number [i] with [res]. *)
Definition has (P : piece -> Prop) (j : nat) : Prop := exists pc, receives bufs !! j = Some pc /\ P pc.
Definition has_m : nat -> Prop := has (fun pc => is_Some (pc_m pc)).
Definition has_from : nat -> Prop := has (fun pc => pc_from pc = true).
Definition left_behind (has : nat -> Prop) (j : nat) : Prop :=
  exists i res, rcv bufs = Some (i, res) /\ has j /\ (if res then j <= i else j < i)%nat.

(** The objects that the system call has, and all objects but the response. *)
Definition main_holds (m : main_pc) (sleep : Z) (o : obj) : Prop :=
  match o, m with
  | Taskq, Returned _ => False
  | Taskq, _ => True
  | Path _, (Asleep | Woken _ | Checked) => False
  | Path b, _ => sleep = 0 /\ exists r, accepted r /\ b ∈ copies r
  | _, _ => False
  end.
Definition holds (s : call) (o : obj) : Prop :=
  match o with
  | Taskq | Path _ => main_holds (c_main s) (c_sleep s) o
  | Req | Req_m => match c_task s with Listen | Send => True | _ => errno_of <> 0 \/ sosend_took bufs = false end
  | So => match c_task s with
          | Listen => False | Send => so_of = true | Idle => unclosed = true | _ => True end
  | Opt | Name | Environment | Resp => False
  | Resp_m j => match c_task s with
                | Listen | Send => False
                | Receive i _ _ => has_m j /\ (j < i)%nat
                | Copy i => has_m j /\ (j <= i)%nat
                | End => d_resp_m s = Some (Resp_m j) \/ sent /\ left_behind has_m j
                | Idle => sent /\ left_behind has_m j end
  | From j => match c_task s with
              | Listen | Send => False
              | Receive i _ _ => has_from j /\ (j < i)%nat
              | Copy i => has_from j /\ (j <= i)%nat
              | End | Idle => sent /\ left_behind has_from j end
  end.

Lemma main_holds_wakeup m sleep o : main_holds (wakeup m) sleep o <-> main_holds m sleep o.
Proof. by destruct o, m. Qed.

Definition done (t : task_pc) : Prop := match t with End | Idle => True | _ => False end.
Definition unfreed (m : main_pc) : Prop := match m with Destroying _ | Returned _ => False | _ => True end.

(** [start_sock] could end. *)
Definition over : Prop := errno_of <> 0 \/ sosend net <> 0 \/ is_Some (rcv bufs).

(** The task. *)
Definition task_inv (s : call) : Prop :=
  match c_task s with
  | Listen => d_so s = false /\ d_resp_m s = None /\ d_resp s = None
  | Send => d_so s = so_of /\ errno_of = 0 /\ d_resp_m s = None /\ d_resp s = None
  | Receive i len resid => d_so s = true /\ sent /\ d_resp_m s = None /\ d_resp s = None /\
      rcv_loop (drop i (receives bufs)) i len resid = rcv bufs
  | Copy i => d_so s = true /\ sent /\ d_resp_m s = Some (Resp_m i) /\ d_resp s = None /\
      exists pc n r, receives bufs !! i = Some pc /\ pc_m pc = Some (n, r) /\ rcv bufs = Some (i, inr (n, r))
  | End => d_so s = true /\ errno_of = 0 /\ so_of = true /\ (exists e, started e (d_resp s)) /\ over /\
      (d_resp_m s = None \/ exists i n r, d_resp_m s = Some (Resp_m i) /\ has_m i /\ rcv bufs = Some (i, inr (n, r)))
  | Idle => (exists e, started e (d_resp s)) /\ over
  end.

(** The system call. *)
Definition main_inv (s : call) : Prop :=
  match c_main s with
  | Asleep => c_sleep s = 0 /\ c_proc s = p /\ ~ done (c_task s)
  | Woken ret => ret = c_sleep s /\ c_proc s = p /\ (ret = 0 -> done (c_task s) /\ started (d_errno s) (d_resp s))
  | Checked => c_sleep s = 0 /\ c_proc s = p /\ done (c_task s) /\ d_errno s = 0 /\
      exists r, d_resp s = Some r /\ accepted r
  | Freeing ret | Destroying ret | Returned ret =>
      (c_sleep s <> 0 -> ret = c_sleep s /\ c_proc s = p) /\
      (c_sleep s = 0 -> done (c_task s) /\
         sys_pfexecve (net_of net bufs) k true true 0 p uap = Ok (ret, c_proc s)) /\
      match c_main s with Returned _ => c_task s = Idle | _ => True end
  end.

Record inv (s : call) : Prop := Inv {
  i_live : forall o, o <> Resp -> o ∈ c_live s <-> holds s o;
  i_resp_live : d_resp s <> None -> unfreed (c_main s) -> Resp ∈ c_live s;
  i_resp_dead : Resp ∈ c_live s -> d_resp s <> None /\ (c_sleep s = 0 -> unfreed (c_main s));
  i_task : task_inv s;
  i_main : main_inv s }.

Lemma begin_inv s : begin true true p uap = Ok s -> inv s.
Proof.
  unfold begin. cbn [a_opts a_path a_argp a_envp uap negb]. rewrite Hreq. intros [= <-].
  split; try done.
  - intros o Ho. cbn [c_live]. rewrite !elem_of_new. destruct o; cbn; set_solver.
  - repeat split; cbn; naive_solver.
Qed.

(** ** The steps of the thread *)

(** What a step of the thread leaves of the invariant of the other side. *)
Lemma main_inv_task s s' :
  main_inv s -> c_main s' = c_main s -> c_sleep s' = c_sleep s -> c_proc s' = c_proc s ->
  ~ done (c_task s) -> ~ done (c_task s') -> main_inv s'.
Proof.
  unfold main_inv. intros Hm -> -> -> Hd Hd'.
  destruct (c_main s) as [|r| |r|r|r]; [tauto|tauto|tauto| | |]; destruct Hm as (H1 & H2 & H3); (split; [exact H1|]);
    (split; [tauto|]); [done|done|]. by rewrite H3 in Hd.
Qed.

Lemma main_inv_finish s s' :
  main_inv s -> c_main s' = wakeup (c_main s) -> c_sleep s' = c_sleep s -> c_proc s' = c_proc s ->
  ~ done (c_task s) -> done (c_task s') -> started (d_errno s') (d_resp s') -> main_inv s'.
Proof.
  unfold main_inv, wakeup. intros Hm -> -> -> Hd Hd' Hs.
  destruct (c_main s) as [|r| |r|r|r]; [|tauto|tauto| | |]; destruct Hm as (H1 & H2 & H3);
    [| | |by rewrite H3 in Hd]; (split; [done|]); (split; [tauto|]); done.
Qed.

Ltac live_cases Hl Hpc :=
  let o := fresh "o" in let Ho := fresh "Ho" in
  intros o Ho; specialize (Hl o Ho); unfold holds, sent in *; rewrite ?Hpc in Hl;
  destruct o; cbn [c_main c_task c_sleep d_resp_m] in *; try done;
  rewrite ?elem_of_new, ?got_elem, ?main_holds_wakeup, ?Hl; clear Hl;
  cbn [main_holds]; try (intuition congruence).

Lemma step_listen s s' : inv s -> c_task s = Listen -> step_task net bufs s = Some (Ok s') -> inv s'.
Proof.
  intros [Hl Hr1 Hr2 Ht Hm] Hpc. unfold step_task. rewrite Hpc. unfold task_inv in Ht. rewrite Hpc in Ht.
  destruct Ht as (Hso & Hrm & Hresp).
  assert (Hnot : forall o, o ∈ [So; Opt; Name] -> o ∉ c_live s).
  { intros o Ho. rewrite Hl by set_solver. unfold holds. rewrite Hpc. set_solver. }
  rewrite listen_spec by (apply Hnot; set_solver). cbn [mbind ub_bind]. intros [= <-].
  destruct (nz errno_of) eqn:He; cbn [c_main c_task].
  - apply nz_true in He. rewrite (errno_so He). cbn [orb].
    split; cbn [c_main c_task c_live d_resp c_sleep].
    + destruct unclosed eqn:Hun; live_cases Hl Hpc.
    + by rewrite Hresp.
    + intros Hx. assert (Resp ∈ c_live s) as [? _]%Hr2; [|done].
      destruct unclosed; [by apply elem_of_new in Hx as [?|?]|done].
    + unfold task_inv. cbn. rewrite Hresp. split; [|by left]. exists errno_of. by apply started_refused.
    + eapply main_inv_finish; [done|done|done|done|rewrite Hpc; cbn; tauto|done|]. cbn. rewrite Hresp. by apply started_refused.
  - apply nz_false in He. rewrite (errno_unclosed He).
    split; cbn [c_main c_task c_live d_resp c_sleep].
    + destruct so_of eqn:Hss; live_cases Hl Hpc.
    + by rewrite Hresp.
    + intros Hx. assert (Resp ∈ c_live s) as [? _]%Hr2; [|done].
      destruct so_of; [by apply elem_of_new in Hx as [?|?]|done].
    + by unfold task_inv; cbn.
    + eapply main_inv_task; [done|done|done|done|rewrite Hpc; cbn; tauto|cbn; tauto].
Qed.

Lemma step_send s s' : inv s -> c_task s = Send -> step_task net bufs s = Some (Ok s') -> inv s'.
Proof.
  intros [Hl Hr1 Hr2 Ht Hm] Hpc. unfold step_task. rewrite Hpc. unfold task_inv in Ht. rewrite Hpc in Ht.
  destruct Ht as (Hso & He & Hrm & Hresp). unfold send. rewrite Hso.
  destruct so_of eqn:Hss; [|done]. cbn [negb]. intros [= Hs].
  apply ub_bind_ok in Hs as (? & _ & Hs). apply ub_bind_ok in Hs as (? & Hreqm%use_Ok & Hs).
  apply ub_bind_ok in Hs as (h & Hh & Hs).
  assert (Hlh : forall o, o ∈ h <-> o ∈ c_live s /\ (o = Req \/ o = Req_m -> sosend_took bufs = false)).
  { destruct (sosend_took bufs); [|injection Hh as <-; intuition].
    apply ub_bind_ok in Hh as (h1 & (_ & H1)%free_Ok & (_ & H2)%free_Ok). intros o. rewrite H2, H1.
    intuition congruence. }
  assert (Hdead : Resp ∉ h). { intros [[? _]%Hr2 _]%Hlh. done. }
  revert Hs. unfold finish. case_if; intros [= <-]; [apply nz_true in E|apply nz_false in E].
  - split; cbn [c_main c_task c_live d_resp c_sleep].
    + setoid_rewrite Hlh. clear Hlh. live_cases Hl Hpc.
    + by rewrite Hresp.
    + done.
    + unfold task_inv; cbn. rewrite Hresp. split_and!; try done; [|by right; left|by left].
      exists (sosend net). by apply started_unsent.
    + eapply main_inv_finish; [done|done|done|done|rewrite Hpc; cbn; tauto|done|]. cbn. rewrite Hresp. by apply started_unsent.
  - split; cbn [c_main c_task c_live d_resp c_sleep].
    + setoid_rewrite Hlh. clear Hlh. live_cases Hl Hpc; (split; [tauto|lia]).
    + by rewrite Hresp.
    + done.
    + unfold task_inv; cbn. by rewrite drop_0.
    + eapply main_inv_task; [done|done|done|done|rewrite Hpc; cbn; tauto|cbn; tauto].
Qed.

(** The pieces up to number [i] are behind when the loop has passed or ended at [i]. *)
Lemma rcv_at i len resid pc : receives bufs !! i = Some pc ->
  rcv_loop (drop i (receives bufs)) i len resid = rcv_loop (pc :: drop (S i) (receives bufs)) i len resid.
Proof. intros Hp. by rewrite (drop_S _ _ _ Hp). Qed.

Lemma has_step P i pc j : receives bufs !! i = Some pc ->
  has P j /\ (j < S i)%nat <-> has P j /\ (j < i)%nat \/ j = i /\ P pc.
Proof.
  intros Hp. split; [intros (H & Hj)|intros [[H Hj]|[-> H]]; [split; [done|lia]|split; [by exists pc|lia]]].
  destruct (decide (j = i)) as [->|]; [|left; split; [done|lia]]. right. split; [done|].
  destruct H as (pc' & Hp' & H). congruence.
Qed.

Lemma left_last (P : nat -> Prop) i e j : rcv bufs = Some (i, inl e) -> left_behind P j <-> P j /\ (j < S i)%nat.
Proof.
  intros Hr. unfold left_behind. rewrite Hr.
  split; [intros (? & ? & [= <- <-] & H); split; [tauto|lia]|intros; exists i, (inl e); split_and!; [done|tauto|lia]].
Qed.

Lemma left_before (P : nat -> Prop) i x j : rcv bufs = Some (i, inr x) -> left_behind P j <-> P j /\ (j < i)%nat.
Proof. intros Hr. unfold left_behind. rewrite Hr. split; [intros (? & ? & [= <- <-] & H); tauto|]. intros. by exists i, (inr x). Qed.

Lemma receive_fails s i len resid pc e :
  inv s -> c_task s = Receive i len resid -> receives bufs !! i = Some pc -> rcv bufs = Some (i, inl e) ->
  inv (finish s (got i pc (c_live s)) e (d_resp s)).
Proof.
  intros [Hl Hr1 Hr2 Ht Hm] Hpc Hp Hr. unfold task_inv in Ht. rewrite Hpc in Ht.
  destruct Ht as (Hso & Hsent & Hrm & Hresp & _). pose proof (started_received i (inl e) Hsent Hr) as Hst.
  unfold finish. split; cbn [c_main c_task c_live d_resp c_sleep].
  - pose proof (fun P j => left_last P i e j Hr) as Hleft. destruct Hsent as (H1 & H2 & H3).
    live_cases Hl Hpc; rewrite Hleft; unfold has_m, has_from; rewrite (has_step _ _ _ _ Hp); intuition congruence.
  - by rewrite Hresp.
  - intros [[? _]%Hr2|[[? _]|[? _]]]%got_elem; done.
  - unfold task_inv; cbn. rewrite Hresp. destruct Hsent as (? & ? & ?). rewrite Hr.
    split_and!; try done; [by exists e|by right; right|by left].
  - eapply main_inv_finish; [done|done|done|done|rewrite Hpc; cbn; tauto|done|]. cbn. by rewrite Hresp.
Qed.

Lemma step_receive s s' i len resid :
  inv s -> c_task s = Receive i len resid -> step_task net bufs s = Some (Ok s') -> inv s'.
Proof.
  intros Hi Hpc. pose proof Hi as [Hl Hr1 Hr2 Ht Hm]. unfold step_task. rewrite Hpc. unfold task_inv in Ht. rewrite Hpc in Ht.
  destruct Ht as (Hso & Hsent & Hrm & Hresp & Hloop).
  destruct (receives bufs !! i) as [pc|] eqn:Hp; [|done]. cbn [fmap option_fmap option_map]. intros [= Hs].
  unfold rcv_turn in Hs. apply ub_bind_ok in Hs as (? & _ & Hs).
  rewrite (rcv_at _ _ _ _ Hp) in Hloop. cbn [rcv_loop] in Hloop.
  destruct (pc_m pc) as [[n resp]|] eqn:Hn; [|injection Hs as <-; by eapply receive_fails].
  revert Hs Hloop. case_if; [intros [= <-] Hloop; by eapply receive_fails|].
  assert (Hdead : Resp ∉ got i pc (c_live s)).
  { intros [[? _]%Hr2|[[? _]|[? _]]]%got_elem; done. }
  case_if; intros [= <-] Hloop; (split; cbn [c_main c_task c_live d_resp c_sleep]; [|by rewrite Hresp|done| |]).
  - live_cases Hl Hpc; unfold has_m, has_from; rewrite (has_step _ _ _ _ Hp); intuition congruence.
  - by unfold task_inv; cbn.
  - eapply main_inv_task; [done|done|done|done|rewrite Hpc; cbn; tauto|cbn; tauto].
  - live_cases Hl Hpc; unfold has_m, has_from; rewrite <- Nat.lt_succ_r, (has_step _ _ _ _ Hp); intuition congruence.
  - unfold task_inv; cbn. split_and!; try done. by exists pc, n, resp.
  - eapply main_inv_task; [done|done|done|done|rewrite Hpc; cbn; tauto|cbn; tauto].
Qed.

(** Before the thread is done with [start_sock] a system call that was not interrupted has not
    come to [free]. *)
Lemma unfreed_running s : main_inv s -> ~ done (c_task s) -> c_sleep s = 0 -> unfreed (wakeup (c_main s)).
Proof. unfold main_inv, wakeup. intros Hm Hd Hs. destruct (c_main s); try done; tauto. Qed.

Lemma free_opt_Ok o h h' : free_opt o h = Ok h' ->
  (forall x, o = Some x -> x ∈ h) /\ forall x, x ∈ h' <-> x ∈ h /\ o <> Some x.
Proof.
  destruct o as [y|]; simpl; [intros [Hy Hx]%free_Ok|intros [= ->]; intuition done].
  split; [by intros ? [= <-]|]. intros x. rewrite Hx. intuition congruence.
Qed.

Lemma step_copy s s' i : inv s -> c_task s = Copy i -> step_task net bufs s = Some (Ok s') -> inv s'.
Proof.
  intros [Hl Hr1 Hr2 Ht Hm] Hpc. unfold step_task. rewrite Hpc. unfold task_inv in Ht. rewrite Hpc in Ht.
  destruct Ht as (Hso & Hsent & Hrm & Hresp & pc & n & r & Hp & Hn & Hr). rewrite Hp. cbn [fmap option_fmap option_map].
  pose proof (started_received i (inr (n, r)) Hsent Hr) as Hst. cbn in Hst.
  unfold copy. rewrite Hn. cbn [deref mbind ub_bind]. intros [= Hs].
  apply ub_bind_ok in Hs as (? & _ & Hs). revert Hs. case_if; [done|]. intros (h & [_ Hh]%free_opt_Ok & Hs)%ub_bind_ok.
  injection Hs as <-. unfold finish. split; cbn [c_main c_task c_live d_resp c_sleep].
  - setoid_rewrite Hh. clear Hh. pose proof (fun P j => left_before P i (n, r) j Hr) as Hleft. destruct Hsent as (H1 & H2 & H3).
    pose proof (has_step (fun pc => is_Some (pc_m pc)) i pc) as Hsm. pose proof (has_step (fun pc => pc_from pc = true) i pc) as Hsf.
    assert (is_Some (pc_m pc)) as Him by (by rewrite Hn).
    destruct (pc_from pc) eqn:Hf; live_cases Hl Hpc; rewrite Hleft; unfold has_m, has_from in *; rewrite ?Hrm, <- Nat.lt_succ_r;
      rewrite ?(Hsm i0 Hp), ?(Hsf i0 Hp); rewrite ?Hf; intuition (first [congruence | simplify_eq; lia]).
  - intros _ _. rewrite Hh, elem_of_new. split; [by left|]. by destruct (pc_from pc).
  - intros _. split; [done|]. apply unfreed_running; [done|]. rewrite Hpc. cbn. tauto.
  - unfold task_inv; cbn. destruct Hsent as (? & ? & ?). rewrite Hr. split_and!; try done; [by exists 0|by right; right|].
    right. exists i, n, r. split_and!; [done| |done]. exists pc. by rewrite Hn.
  - eapply main_inv_finish; [done|done|done|done|rewrite Hpc; cbn; tauto|done|done].
Qed.

Lemma so_unclosed : so_of = true -> unclosed = false.
Proof.
  unfold so_of, unclosed, listen_sock, nz.
  destruct (socreate net =? 0); cbn [negb snd andb]; [|done].
  destruct (sosetopt_snd net =? 0); cbn [negb snd orb]; [|done].
  by destruct (sosetopt_rcv net =? 0); cbn [negb snd orb].
Qed.

Lemma step_end s s' : inv s -> c_task s = End -> step_task net bufs s = Some (Ok s') -> inv s'.
Proof.
  intros [Hl Hr1 Hr2 Ht Hm] Hpc. unfold step_task. rewrite Hpc. unfold task_inv in Ht. rewrite Hpc in Ht.
  destruct Ht as (Hso & He & Hss & Hst & Hover & Hrm). unfold end_sock. rewrite Hso. cbn [negb]. intros [= Hs].
  apply ub_bind_ok in Hs as (h1 & [_ Hh1]%free_Ok & Hs). apply ub_bind_ok in Hs as (h & [_ Hh]%free_opt_Ok & Hs).
  injection Hs as <-. pose proof (so_unclosed Hss) as Hun.
  assert (Hlh : forall o, o ∈ h <-> o ∈ c_live s /\ o <> So /\ d_resp_m s <> Some o) by (intros; rewrite Hh, Hh1; tauto).
  clear Hh Hh1. assert (Hne : d_resp_m s <> Some Resp) by (destruct Hrm as [->|(? & ? & ? & -> & _)]; done).
  assert (Hw : forall m, unfreed (wakeup m) <-> unfreed m) by (by intros []).
  split; cbn [c_main c_task c_live d_resp c_sleep].
  - setoid_rewrite Hlh. clear Hlh.
    destruct Hrm as [Hrm|(i & n & r & Hrm & Hhas & Hr)]; rewrite Hrm; clear Hne.
    + live_cases Hl Hpc.
    + pose proof (fun P j => left_before P i (n, r) j Hr) as Hleft. live_cases Hl Hpc.
      rewrite Hleft. intuition (first [congruence | simplify_eq; lia]).
  - rewrite Hlh, Hw. intros H1 H2. split_and!; [tauto|done|done].
  - rewrite Hlh, Hw. tauto.
  - unfold task_inv; cbn. done.
  - unfold main_inv, wakeup in *. cbn. rewrite Hpc in Hm. destruct (c_main s) as [|r| |r|r|r]; cbn in *; try tauto.
Qed.

(** ** The steps of the system call *)

(** The call of [KernPfexec] when the thread is done, and when a signal came. *)
Lemma sys_started errno resp tsleep : started errno resp ->
  sys_pfexecve (net_of net bufs) k true true tsleep p uap =
  if nz tsleep then Ok (tsleep, p) else
  ret ← (if errno =? 0 then r ← deref resp; Ok (process_response r) else Ok 0);
  let ret := if nz errno then errno else ret in
  if nz ret then Ok (ret, p) else r ← deref resp; Ok (pfexec_exec k r path argp errno p).
Proof.
  intros Hs. unfold sys_pfexecve. cbn [a_opts a_path a_argp a_envp uap negb]. rewrite Hreq. cbn [mbind ub_bind].
  unfold started in Hs. by rewrite Hs.
Qed.

(** [exec] is [pfexec_exec], and the vector is given back. *)
Lemma exec_spec s r h e p' :
  rp_errno r = 0 -> Environment ∉ c_live s -> exec k path argp s r = Ok (h, e, p') ->
  c_proc s = p -> (e, p') = pfexec_exec k r path argp (d_errno s) p /\
  forall o, o ∈ h <-> o ∈ c_live s \/ exists b, o = Path b /\ b ∈ copies r.
Proof.
  intros He Henv Hx Hp. unfold exec in Hx. unfold pfexec_exec, copies. rewrite Hp in Hx.
  destruct (check_priv r) as [ret env] eqn:Hc. assert (ret = 0) as -> by (unfold check_priv in Hc; congruence).
  cbn [nz Z.eqb negb snd] in *. change (nz 0) with false in *. cbv iota in *.
  destruct (pfexec_escilate r p) as [e1 p1]. cbn [snd] in *. apply ub_bind_ok in Hx as (? & _ & Hx).
  destruct (execve k p1 path argp env) as [e2 p2]. cbn [snd] in *.
  assert (Hfree : forall h1 h2, free Environment h1 = Ok h2 -> forall o, o ∈ h2 <-> o ∈ h1 /\ o <> Environment) by (by intros ? ? [_ ?]%free_Ok).
  destruct (nz (Z.land (rp_flags r) PFRESP_CHROOT)).
  - destruct (apply_chroot k p2 (strlcpy PATH_MAX (rp_chroot r))) as [e3 p3]. cbn [fst snd] in *.
    destruct (nz e3); apply ub_bind_ok in Hx as (h2 & Hh & [= -> -> ->]); (split; [done|]);
      intros o; rewrite (Hfree _ _ Hh), !elem_of_new.
    + split; [|intros [H|(b & -> & _)]; [split; [tauto|congruence]|split; [|done]; destruct b; tauto]].
      intros [[->|[->|[->|H]]] Hne]; [right; exists true; set_solver|right; exists false; set_solver|done|by left].
    + split; [|intros [H|(b & -> & Hb)]; [split; [tauto|congruence]|split; [|done]]].
      * intros [[->|[->|H]] Hne]; [right; exists false; set_solver|done|by left].
      * assert (b = false) as -> by set_solver. by left.
  - apply ub_bind_ok in Hx as (h2 & Hh & [= -> -> ->]). split; [done|].
    intros o. rewrite (Hfree _ _ Hh), elem_of_new. split; [tauto|].
    intros [H|(b & _ & Hb)]; [split; [tauto|congruence]|set_solver].
Qed.

Lemma started_accepted e d r : started e d -> accepted r -> e = 0 /\ d = Some r /\ process_response r = 0.
Proof. unfold started, accepted. intros Hs [Hs' Hp]. unfold started in Hs'. rewrite Hs in Hs'. injection Hs' as -> ->. done. Qed.

Lemma step_woken s s' ret : inv s -> c_main s = Woken ret -> step_main k path argp s = Some (Ok s') -> inv s'.
Proof.
  intros [Hl Hr1 Hr2 Ht Hm] Hpc. unfold step_main. rewrite Hpc in *. unfold main_inv in Hm. rewrite Hpc in Hm.
  destruct Hm as (-> & Hp & Hd). intros [= Hs]. revert Hs. unfold woken. case_if.
  { apply nz_true in E. intros [= <-]. split; cbn [c_main c_task c_live d_resp c_sleep]; [|tauto|tauto|done|].
    - live_cases Hl Hpc.
    - unfold main_inv. cbn. tauto. }
  apply nz_false in E. destruct (Hd E) as [Hdone Hst]. rewrite E in *. clear Hd.
  intros (r0 & Hr0 & [= <-])%ub_bind_ok. unfold with_main.
  destruct (nz (if nz (d_errno s) then d_errno s else r0)) eqn:Enz.
  - split; cbn [c_main c_task c_live d_resp c_sleep]; [|tauto|tauto|done|].
    + assert (Hno : forall r, ~ accepted r).
      { intros r (He & Hd & Hp0)%(started_accepted _ _ r Hst). rewrite He in Enz. cbn in Enz. rewrite He, Hd in Hr0. cbn in Hr0.
        apply ub_bind_ok in Hr0 as (? & _ & [= <-]). by rewrite Hp0 in Enz. }
      live_cases Hl Hpc. naive_solver.
    + unfold main_inv. cbn. split; [done|]. split; [|done]. intros _. split; [done|].
      etransitivity; [apply (sys_started _ _ 0 Hst)|]. change (nz 0) with false. cbv iota.
      assert ((if d_errno s =? 0 then r ← deref (d_resp s); Ok (process_response r) else Ok 0) = Ok r0) as ->.
      { destruct (d_errno s =? 0); [|done]. destruct (d_resp s); [|done]. cbn in Hr0 |- *. by apply ub_bind_ok in Hr0 as (? & _ & [= ->]). }
      cbn [mbind ub_bind]. rewrite Enz. by rewrite Hp.
  - split; cbn [c_main c_task c_live d_resp c_sleep]; [|tauto|tauto|done|].
    + live_cases Hl Hpc.
    + unfold main_inv. cbn. destruct (nz (d_errno s)) eqn:Ee; [congruence|]. apply nz_false in Ee, Enz. subst r0.
      rewrite Ee in Hr0. cbn in Hr0. apply ub_bind_ok in Hr0 as (r & Hr & Hr0). apply ub_bind_ok in Hr0 as (_ & _ & [= Hr0]).
      destruct (d_resp s) as [r'|] eqn:Hd; [|done]. injection Hr as ->.
      split_and!; try done. exists r. split; [done|]. split; [|done]. by rewrite <- Ee.
Qed.

Lemma step_checked s s' : inv s -> c_main s = Checked -> step_main k path argp s = Some (Ok s') -> inv s'.
Proof.
  intros [Hl Hr1 Hr2 Ht Hm] Hpc. unfold step_main. rewrite Hpc in *. unfold main_inv in Hm. rewrite Hpc in Hm.
  destruct Hm as (Hs0 & Hp & Hdone & He & r & Hd & Hacc). rewrite Hd. cbn [deref mbind ub_bind]. intros [= Hs].
  apply ub_bind_ok in Hs as (? & _ & Hs). apply ub_bind_ok in Hs as ([[h e] p'] & Hx & [= <-]).
  assert (Henv : Environment ∉ c_live s) by (rewrite Hl by done; cbn; tauto).
  destruct (exec_spec s r h e p' (proj2 (process_response_0 r (proj2 Hacc))) Henv Hx Hp) as [Hpx Hlh].
  rewrite He in Hpx.
  split; cbn [c_main c_task c_live d_resp c_sleep]; [| |intros _; by split|by rewrite <- Hd|].
  - setoid_rewrite Hlh. assert (Huniq : forall r', accepted r' <-> r' = r).
    { intros r'. split; [|by intros ->]. intros Hacc'. by destruct (started_accepted 0 (Some r) r' (proj1 Hacc) Hacc') as (_ & [= ->] & _). }
    live_cases Hl Hpc; try naive_solver.
  - intros _ _. apply Hlh. left. apply Hr1; [by rewrite Hd|done].
  - unfold main_inv. cbn. split; [done|]. split; [|done]. intros _. split; [done|].
    etransitivity; [apply (sys_started _ _ 0 (proj1 Hacc))|]. cbn. rewrite (proj2 Hacc). cbn. by rewrite Hpx.
Qed.

Lemma step_freeing s s' ret : inv s -> c_main s = Freeing ret -> step_main k path argp s = Some (Ok s') -> inv s'.
Proof.
  intros [Hl Hr1 Hr2 Ht Hm] Hpc. unfold step_main. rewrite Hpc in *. unfold main_inv in Hm. rewrite Hpc in Hm.
  intros [= Hs]. apply ub_bind_ok in Hs as (h & [_ Hh]%free_opt_Ok & [= <-]). unfold with_main.
  assert (Hlh : forall o, o ∈ h <-> o ∈ c_live s /\ (o = Resp -> d_resp s = None)).
  { intros o. rewrite Hh. destruct (d_resp s); cbn; naive_solver. }
  split; cbn [c_main c_task c_live d_resp c_sleep]; [|done| |done|].
  - setoid_rewrite Hlh. live_cases Hl Hpc.
  - intros [H1 H2]%Hlh. destruct (Hr2 H1) as [H3 _]. by destruct (H3 (H2 eq_refl)).
  - unfold main_inv. cbn. tauto.
Qed.

Lemma step_destroying s s' ret : inv s -> c_main s = Destroying ret -> step_main k path argp s = Some (Ok s') -> inv s'.
Proof.
  intros [Hl Hr1 Hr2 Ht Hm] Hpc. unfold step_main. rewrite Hpc in *. unfold main_inv in Hm. rewrite Hpc in Hm.
  destruct (c_task s) eqn:Htask; try done. intros [= Hs]. apply ub_bind_ok in Hs as (h & [_ Hh]%free_Ok & [= <-]). unfold with_main.
  split; cbn [c_main c_task c_live d_resp c_sleep]; [|done| | |].
  - setoid_rewrite Hh. live_cases Hl Hpc; rewrite ?Htask; intuition congruence.
  - intros [H1 _]%Hh. exact (Hr2 H1).
  - exact Ht.
  - unfold main_inv. cbn. rewrite Htask. tauto.
Qed.

Lemma step_inv c s s' : inv s -> step net bufs k path argp c s = Some (Ok s') -> inv s'.
Proof.
  intros Hi. destruct c; cbn [step].
  - destruct (c_main s) eqn:E; [|by eapply step_woken|by eapply step_checked|by eapply step_freeing|by eapply step_destroying|];
      unfold step_main; by rewrite E.
  - destruct (c_task s) eqn:E; [by apply step_listen|by apply step_send|by eapply step_receive|by eapply step_copy|by apply step_end|].
    unfold step_task. by rewrite E.
  - destruct (c_main s) eqn:E; try done. intros [= <-]. destruct Hi as [Hl Hr1 Hr2 Ht Hm].
    unfold main_inv in Hm. rewrite E in *. destruct Hm as (Hs & Hp & Hd).
    split; cbn [c_main c_task c_live d_resp c_sleep]; [|tauto|tauto|done|].
    + live_cases Hl E.
    + unfold main_inv. cbn. split_and!; [done|done|]. by destruct restart.
Qed.

Lemma run_inv sched s s' : inv s -> run net bufs k path argp sched s = Ok s' -> inv s'.
Proof.
  revert s; induction sched as [|c sched IH]; intros s Hi; cbn [run]; [by intros [= <-]|].
  destruct (step net bufs k path argp c s) as [m|] eqn:Hs; [|by apply IH].
  intros (s1 & -> & Hr)%ub_bind_ok. exact (IH s1 (step_inv c s s1 Hi Hs) Hr).
Qed.

(** ** No step fails *)

Context (Hwait : so_wait net <> TimedOut)
  (Hwhole : forall i n r, rcv bufs = Some (i, inr (n, r)) -> sizeof_pfexec_resp <= n).

Lemma connected : errno_of = 0 -> so_of = true.
Proof.
  unfold errno_of, so_of, listen_sock, nz, ENOTCONN.
  destruct (socreate net =? 0); cbn [negb fst snd]; [|done].
  destruct (sosetopt_snd net =? 0); cbn [negb fst snd]; [|done].
  destruct (sosetopt_rcv net =? 0); cbn [negb fst snd]; [|done].
  destruct (soconnect net =? 0); cbn [negb fst snd]; [|done].
  destruct (so_wait net) as [| |e]; cbn [fst snd]; [done|by destruct Hwait|].
  by destruct (e =? 0); cbn [negb fst snd].
Qed.

Lemma task_safe s m : inv s -> step_task net bufs s = Some m -> exists s', m = Ok s'.
Proof.
  intros [Hl Hr1 Hr2 Ht Hm]. unfold step_task, task_inv in *.
  assert (Hin : forall o, o <> Resp -> holds s o -> o ∈ c_live s) by (intros; by apply Hl). unfold holds in Hin.
  destruct (c_task s) as [| |i len resid|i| |] eqn:Hpc.
  - rewrite listen_spec; try (rewrite Hl by done; unfold holds; rewrite ?Hpc; tauto). intros [= <-]. cbn. eauto.
  - destruct Ht as (Hso & He & _). unfold send. rewrite Hso, (connected He). cbn [negb].
    rewrite (use_ok So) by (apply (Hin So); [done|]; by apply connected).
    assert (Hm1 : Req_m ∈ c_live s) by (by apply (Hin Req_m)). assert (Hm2 : Req ∈ c_live s) by (by apply (Hin Req)).
    rewrite (use_ok Req_m) by done. cbn [mbind ub_bind]. intros [= <-].
    destruct (sosend_took bufs); cbn [mbind ub_bind].
    + rewrite free_ok by done. cbn [mbind ub_bind]. rewrite free_ok by set_solver. cbn [mbind ub_bind]. case_if; eauto.
    + case_if; eauto.
  - destruct (receives bufs !! i) as [pc|]; [|done]. cbn. intros [= <-]. unfold rcv_turn.
    rewrite use_ok by (by apply (Hin So)). cbn [mbind ub_bind]. destruct (pc_m pc) as [[n r]|]; [|eauto].
    case_if; [eauto|]. case_if; eauto.
  - destruct Ht as (_ & _ & _ & _ & pc & n & r & Hp & Hn & Hr). rewrite Hp. cbn. intros [= <-]. unfold copy. rewrite Hn. cbn.
    rewrite use_ok. 2: { apply elem_of_new. right. apply (Hin (Resp_m i)); [done|]. split; [|lia]. exists pc. by rewrite Hn. }
    cbn [mbind ub_bind]. rewrite (proj2 (Z.ltb_ge _ _)) by (by eapply Hwhole).
    destruct (pc_from pc) eqn:Hf; cbn [free_opt mbind ub_bind]; [|eauto].
    rewrite free_ok; [cbn; eauto|]. apply elem_of_new. right. apply (Hin (From i)); [done|]. split; [|lia]. by exists pc.
  - destruct Ht as (Hso & _ & _ & _ & _ & Hrm). unfold end_sock. rewrite Hso. cbn [negb]. intros [= <-].
    rewrite free_ok by (by apply (Hin So)). cbn [mbind ub_bind].
    destruct Hrm as [->|(i & n & r & Hrm & _)]; cbn [free_opt mbind ub_bind]; [eauto|]. rewrite Hrm. cbn [free_opt].
    assert (Resp_m i ∈ c_live s) by (apply (Hin (Resp_m i)); [done|by left]).
    rewrite free_ok by set_solver. cbn. eauto.
  - done.
Qed.

Lemma rcv_loop_error ps i len resid j e : rcv_loop ps i len resid = Some (j, inl e) -> e <> 0.
Proof.
  revert i len resid; induction ps as [|pc ps IH]; intros i len resid; [done|]. cbn [rcv_loop].
  destruct (pc_m pc) as [[n r]|]; [|by intros [= _ <-]].
  destruct (nz (pc_ret pc)) eqn:En; [intros [= _ <-]; by apply nz_true|]. case_if; [apply IH|done].
Qed.

(** The thread never reports success without a response. *)
Lemma started_response : ~ started 0 None.
Proof.
  unfold started, start_sock. destruct (listen_sock (net_of net bufs)) as [e so].
  destruct (nz e) eqn:Ez; [intros [= ->]; done|]. destruct so; [|done]. cbn.
  destruct (nz (sosend net)) eqn:En; [intros [= H]; by rewrite H in En|].
  unfold rcv_sock. cbn. destruct (rcv bufs) as [[i [e'|[n r]]]|] eqn:Hr; [|done|done].
  intros [= ->]. by apply rcv_loop_error in Hr.
Qed.

Lemma main_safe s m : inv s -> step_main k path argp s = Some m -> exists s', m = Ok s'.
Proof.
  intros [Hl Hr1 Hr2 Ht Hm]. unfold step_main, main_inv in *.
  destruct (c_main s) as [|ret| |ret|ret|ret] eqn:Hpc; [done| | | | |done].
  - intros [= <-]. unfold woken. case_if; [eauto|]. apply nz_false in E.
    destruct (d_errno s =? 0) eqn:He; cbn; [|eauto]. apply Z.eqb_eq in He. destruct Hm as (_ & _ & Hm).
    destruct (Hm E) as [_ Hst]. rewrite He in Hst.
    destruct (d_resp s) as [r|] eqn:Hd; [|by destruct (started_response Hst)]. cbn. rewrite use_ok by (by apply Hr1). cbn. eauto.
  - destruct Hm as (Hs & Hp & Hdone & He & r & Hd & Hacc). rewrite Hd. cbn [deref mbind ub_bind]. intros [= <-].
    assert (Hresp : Resp ∈ c_live s) by (by apply Hr1; [rewrite Hd|]). rewrite (use_ok Resp (c_live s)) by done. cbn [mbind ub_bind].
    unfold exec. destruct (check_priv r) as [e env]. destruct (nz e); [cbn; eauto|].
    destruct (pfexec_escilate r (c_proc s)) as [e1 p1]. rewrite use_ok by (rewrite elem_of_new; by right). cbn [mbind ub_bind].
    destruct (execve k p1 path argp env) as [e2 p2]. destruct (nz (Z.land (rp_flags r) PFRESP_CHROOT)).
    + destruct (apply_chroot k p2 (strlcpy PATH_MAX (rp_chroot r))) as [e3 p3]. destruct (nz e3); rewrite free_ok by (rewrite !elem_of_new; eauto); cbn; eauto.
    + rewrite free_ok by (rewrite !elem_of_new; eauto). cbn. eauto.
  - intros [= <-]. destruct (d_resp s) eqn:Hd; cbn [fmap option_fmap option_map free_opt]; [|cbn; eauto].
    rewrite free_ok by (by apply Hr1). cbn. eauto.
  - destruct (c_task s); try done. intros [= <-]. rewrite free_ok; [cbn; eauto|]. apply Hl; [done|]. unfold holds. by rewrite Hpc.
Qed.

Lemma step_safe c s m : inv s -> step net bufs k path argp c s = Some m -> exists s', m = Ok s'.
Proof.
  intros Hi. destruct c; cbn [step]; [by apply main_safe|by apply task_safe|]. destruct (c_main s); try done. intros [= <-]. eauto.
Qed.

Lemma run_safe sched s : inv s -> exists s', run net bufs k path argp sched s = Ok s'.
Proof.
  revert s; induction sched as [|c sched IH]; intros s Hi; cbn [run]; [eauto|].
  destruct (step net bufs k path argp c s) as [m|] eqn:Hs; [|by apply IH].
  destruct (step_safe c s m Hi Hs) as [s' ->]. cbn. apply IH. by eapply step_inv.
Qed.

(** ** Progress *)

(** The steps that are left at most. *)
Definition main_left (m : main_pc) : nat :=
  match m with Asleep => 5 | Woken _ => 4 | Checked => 3 | Freeing _ => 2 | Destroying _ => 1 | Returned _ => 0 end.
Definition task_left (t : task_pc) : nat :=
  match t with
  | Listen => 5 + length (receives bufs) | Send => 4 + length (receives bufs)
  | Receive i _ _ => 3 + (length (receives bufs) - i) | Copy _ => 2 | End => 1 | Idle => 0
  end.
Definition steps_left (s : call) : nat := main_left (c_main s) + task_left (c_task s).

Lemma wakeup_left m : (main_left (wakeup m) <= main_left m)%nat.
Proof. destruct m; cbn; lia. Qed.

(** A step of one side leaves the rest as it is, but that the thread may wake the call up. *)
Lemma task_step s s' : step_task net bufs s = Some (Ok s') ->
  (c_main s' = c_main s \/ c_main s' = wakeup (c_main s)) /\ c_sleep s' = c_sleep s /\
  (task_left (c_task s') < task_left (c_task s))%nat.
Proof.
  unfold step_task. destruct (c_task s) as [| |i len resid|i| |] eqn:Hpc; intros Hs; cbn [task_left]; [| | | | |done].
  - injection Hs as Hs. apply ub_bind_ok in Hs as ([[h e] so] & _ & [= <-]).
    destruct (nz e); cbn; (split; [tauto|split; [done|lia]]).
  - injection Hs as Hs. revert Hs. unfold send. case_if; [done|]. intros (? & _ & Hs)%ub_bind_ok.
    apply ub_bind_ok in Hs as (? & _ & Hs). apply ub_bind_ok in Hs as (h & _ & Hs). revert Hs.
    case_if; intros [= <-]; cbn; (split; [tauto|split; [done|lia]]).
  - destruct (receives bufs !! i) as [pc|] eqn:Hp; [|done]. apply lookup_lt_Some in Hp. cbn in Hs. injection Hs as Hs.
    revert Hs. unfold rcv_turn. intros (? & _ & Hs)%ub_bind_ok.
    destruct (pc_m pc) as [[n r]|]; [|injection Hs as <-; cbn; split; [tauto|split; [done|lia]]].
    revert Hs. case_if; [|case_if]; intros [= <-]; cbn; (split; [tauto|split; [done|lia]]).
  - destruct (receives bufs !! i) as [pc|]; [|done]. injection Hs as Hs. revert Hs. unfold copy.
    intros ([n r] & _ & Hs)%ub_bind_ok. apply ub_bind_ok in Hs as (? & _ & Hs). revert Hs. case_if; [done|].
    intros (h & _ & [= <-])%ub_bind_ok. cbn. split; [tauto|split; [done|lia]].
  - injection Hs as Hs. revert Hs. unfold end_sock. case_if; [done|]. intros (? & _ & Hs)%ub_bind_ok.
    apply ub_bind_ok in Hs as (? & _ & [= <-]). cbn. split; [tauto|split; [done|lia]].
Qed.

Lemma main_step s s' : step_main k path argp s = Some (Ok s') ->
  c_task s' = c_task s /\ c_sleep s' = c_sleep s /\ (main_left (c_main s') < main_left (c_main s))%nat.
Proof.
  unfold step_main. destruct (c_main s) as [|ret| |ret|ret|ret]; intros Hs; try done.
  - injection Hs as Hs. revert Hs. unfold woken. case_if; [intros [= <-]; cbn; split_and!; try done; lia|].
    intros (r & _ & [= <-])%ub_bind_ok. unfold with_main.
    destruct (nz (if nz (d_errno s) then d_errno s else r)); cbn; split_and!; try done; lia.
  - injection Hs as Hs. apply ub_bind_ok in Hs as (r & _ & Hs). apply ub_bind_ok in Hs as (? & _ & Hs).
    apply ub_bind_ok in Hs as ([[h e] p'] & _ & [= <-]). cbn. split_and!; try done; lia.
  - injection Hs as Hs. apply ub_bind_ok in Hs as (h & _ & [= <-]). cbn. split_and!; try done; lia.
  - destruct (c_task s) eqn:E; try done. injection Hs as Hs. apply ub_bind_ok in Hs as (h & _ & [= <-]). cbn.
    split_and!; try done; lia.
Qed.

Lemma step_left c s s' : step net bufs k path argp c s = Some (Ok s') ->
  (steps_left s' < steps_left s)%nat /\
  (c_sleep s' = c_sleep s \/ exists restart, c = Signal restart /\ c_sleep s' = signal_ret restart).
Proof.
  unfold steps_left. destruct c as [| |restart]; cbn [step].
  - intros (-> & -> & H)%main_step. split; [lia|by left].
  - intros (H1 & -> & H2)%task_step. pose proof (wakeup_left (c_main s)). split; [|by left]. destruct H1 as [->| ->]; lia.
  - destruct (c_main s); try done. intros [= <-]. cbn. split; [lia|]. right. by exists restart.
Qed.

Lemma run_left sched s s' : run net bufs k path argp sched s = Ok s' -> s' = s \/ (steps_left s' < steps_left s)%nat.
Proof.
  revert s; induction sched as [|c sched IH]; intros s; cbn [run]; [intros [= <-]; by left|].
  destruct (step net bufs k path argp c s) as [m|] eqn:Hs; [|apply IH].
  intros (s1 & -> & Hr)%ub_bind_ok. destruct (step_left c s s1 Hs) as [Hlt _]. right. destruct (IH s1 Hr) as [->|]; lia.
Qed.

Lemma run_app l1 l2 s : run net bufs k path argp (l1 ++ l2) s = s1 ← run net bufs k path argp l1 s; run net bufs k path argp l2 s1.
Proof.
  revert s; induction l1 as [|c l1 IH]; intros s; [done|]. cbn [app run].
  destruct (step net bufs k path argp c s) as [[s1|]|]; [apply IH|done|apply IH].
Qed.

(** A choice that can be made and is among those that follow brings the call on. *)
Lemma run_enabled l c s s' m : c ∈ l -> step net bufs k path argp c s = Some m ->
  run net bufs k path argp l s = Ok s' -> (steps_left s' < steps_left s)%nat.
Proof.
  intros (l1 & l2 & ->)%list_elem_of_split Hs. rewrite run_app. intros (s1 & H1 & H2)%ub_bind_ok.
  destruct (run_left l1 s s1 H1) as [->|]; [|destruct (run_left _ _ _ H2) as [->|]; lia].
  cbn [run] in H2. rewrite Hs in H2. apply ub_bind_ok in H2 as (s2 & -> & H2). destruct (step_left c s s2 Hs) as [Hlt _].
  destruct (run_left _ _ _ H2) as [->|]; lia.
Qed.

(** Unless the daemon keeps it waiting, one of the two sides can go on until the end. *)
Lemma progress s : inv s -> is_Some (rcv bufs) -> (forall ret, c_main s <> Returned ret) ->
  is_Some (step_task net bufs s) \/ is_Some (step_main k path argp s).
Proof.
  intros [_ _ _ Ht Hm] Hr Hret. unfold step_task, step_main, task_inv, main_inv in *.
  destruct (c_task s) as [| |i len resid|i| |]; try (left; eauto; fail).
  - left. destruct Ht as (_ & _ & _ & _ & Hloop). destruct (receives bufs !! i) as [pc|] eqn:Hp; [cbn; eauto|].
    rewrite drop_ge in Hloop by (by apply lookup_ge_None). cbn in Hloop. rewrite <- Hloop in Hr. by destruct Hr.
  - left. destruct Ht as (_ & _ & _ & _ & pc & n & r & -> & _). cbn. eauto.
  - right. destruct (c_main s) as [|ret| |ret|ret|ret]; try (eauto; fail); [|by destruct (Hret ret)].
    destruct Hm as (_ & _ & Hd). destruct (Hd I).
Qed.

Lemma ended_stays sched s ret : c_main s = Returned ret -> c_task s = Idle -> run net bufs k path argp sched s = Ok s.
Proof.
  intros Hret Ht. induction sched as [|c sched IH]; [done|]. cbn [run].
  assert (step net bufs k path argp c s = None) as ->; [|done].
  destruct c; cbn [step]; unfold step_main, step_task; by rewrite ?Hret, ?Ht.
Qed.

Lemma returned_idle s ret : inv s -> c_main s = Returned ret -> c_task s = Idle.
Proof. intros [_ _ _ _ Hm] Hret. unfold main_inv in Hm. rewrite Hret in Hm. tauto. Qed.

Lemma rounds_end rounds s s' :
  inv s -> is_Some (rcv bufs) -> Forall (fun l => Main ∈ l /\ Task ∈ l) rounds ->
  (steps_left s <= length rounds)%nat -> run net bufs k path argp (concat rounds) s = Ok s' ->
  exists ret, c_main s' = Returned ret.
Proof.
  intros Hi Hr Hall. revert s Hi. induction Hall as [|l rounds [H1 H2] _ IH]; intros s Hi Hn; cbn [concat].
  { unfold steps_left in Hn. cbn in Hn. destruct (c_main s) eqn:E; cbn in Hn; try lia. intros [= <-]. eauto. }
  assert ((exists ret, c_main s = Returned ret) \/ forall ret, c_main s <> Returned ret) as [[ret Hret]|Hret]
    by (destruct (c_main s); eauto).
  { rewrite (ended_stays _ s ret Hret (returned_idle s ret Hi Hret)). intros [= <-]. eauto. }
  rewrite run_app. intros (s1 & Hr1 & Hrest)%ub_bind_ok.
  assert (steps_left s1 < steps_left s)%nat.
  { destruct (progress s Hi Hr Hret) as [[m Hs]|[m Hs]]; [by eapply (run_enabled l Task)|by eapply (run_enabled l Main)]. }
  eapply (IH s1); [by eapply run_inv|cbn in Hn; lia|done].
Qed.

(** ** Signals *)

Lemma run_sleep sched s s' : run net bufs k path argp sched s = Ok s' ->
  c_sleep s' = c_sleep s \/ exists restart, Signal restart ∈ sched /\ c_sleep s' = signal_ret restart.
Proof.
  revert s; induction sched as [|c sched IH]; intros s; cbn [run]; [intros [= <-]; by left|].
  destruct (step net bufs k path argp c s) as [m|] eqn:Hs.
  - intros (s1 & -> & Hr)%ub_bind_ok. destruct (IH s1 Hr) as [->|(b & Hb & ->)]; [|right; exists b; split; [by right|done]].
    destruct (proj2 (step_left c s s1 Hs)) as [->|(b & -> & ->)]; [by left|right; exists b; split; [by left|done]].
  - intros Hr. destruct (IH s Hr) as [->|(b & Hb & ->)]; [by left|right; exists b; split; [by right|done]].
Qed.
End Proofs.

(** ** The whole call *)

Section Call.
Context (net : sockets) (bufs : mbufs) (k : kernel) (taskq_ok malloc_ok : bool) (p : process).

(** A call either ends before it sleeps, with the result of [KernPfexec] and nothing left, or
    it has its request and keeps the invariant under any schedule. *)
Lemma run_cases uap sched s : sys_pfexecve_run net bufs k taskq_ok malloc_ok p uap sched = Ok s ->
  (exists ret, c_main s = Returned ret /\ c_sleep s = 0 /\ c_live s = ∅ /\
     sys_pfexecve (net_of net bufs) k taskq_ok malloc_ok 0 p uap = Ok (ret, c_proc s)) \/
  (taskq_ok = true /\ malloc_ok = true /\ exists opts path argp envp req s0,
     uap = PfexecveArgs (Some opts) (Some path) (Some argp) (Some envp) /\
     fill_mbuf p opts path argp envp = Ok req /\ begin true true p uap = Ok s0 /\
     c_sleep s0 = 0 /\ run net bufs k path argp sched s0 = Ok s /\
     inv net bufs k p opts path argp envp req s).
Proof.
  unfold sys_pfexecve_run. intros (s0 & Hb & Hr)%ub_bind_ok.
  assert (Hend : forall ret h path argp, run net bufs k path argp sched (Call (Returned ret) Idle h p 0 0 false None None) =
    Ok (Call (Returned ret) Idle h p 0 0 false None None)) by (intros; by eapply ended_stays).
  pose proof Hb as Hb0. unfold begin in Hb.
  destruct uap as [[opts|] [path|] [argp|] [envp|]]; cbn [a_opts a_path a_argp a_envp] in Hb, Hr;
    try (injection Hb as <-; rewrite Hend in Hr; injection Hr as <-; left; by eexists).
  destruct taskq_ok; cbn [negb] in Hb.
  2: { injection Hb as <-. rewrite Hend in Hr. injection Hr as <-. left. by eexists. }
  destruct malloc_ok; cbn [negb] in Hb.
  2: { rewrite free_new in Hb by set_solver. injection Hb as <-. rewrite Hend in Hr. injection Hr as <-. left. by eexists. }
  right. split; [done|]. split; [done|]. apply ub_bind_ok in Hb as (req & Hreq & [= <-]).
  do 6 eexists. split; [done|]. split; [exact Hreq|]. split; [exact Hb0|]. split; [done|]. split; [exact Hr|].
  eapply run_inv; [done| |exact Hr]. by apply begin_inv.
Qed.

(** C7: The system call and its task do what the sequential call of [KernPfexec] does.  However the
    thread of the task queue, the sleeping call and signals interleave, when the call returns, its
    result and the process are those of the sequential call in which [tsleep_nsec] returns what it
    returned here: 0, or the error of a signal that was sent. *)
Theorem call_refines uap sched s ret :
  sys_pfexecve_run net bufs k taskq_ok malloc_ok p uap sched = Ok s -> c_main s = Returned ret ->
  sys_pfexecve (net_of net bufs) k taskq_ok malloc_ok (c_sleep s) p uap = Ok (ret, c_proc s) /\
  (c_sleep s = 0 \/ exists restart, Signal restart ∈ sched /\ c_sleep s = signal_ret restart).
Proof.
  intros [(ret' & Hret' & Hs & _ & Hsys)|(-> & -> & opts & path & argp & envp & req & s0 & -> & Hreq & _ & Hs0 & Hr & Hi)]%run_cases Hret.
  { rewrite Hret in Hret'. injection Hret' as ->. rewrite Hs. split; [done|by left]. }
  split; [|rewrite <- Hs0; eapply run_sleep; exact Hr].
  destruct Hi as [_ _ _ Ht Hm]. unfold main_inv in Hm. rewrite Hret in Hm. destruct Hm as (H1 & H2 & Hidle).
  destruct (decide (c_sleep s = 0)) as [Hz|Hz]; [rewrite Hz; by apply H2|].
  destruct (H1 Hz) as [-> ->]. unfold task_inv in Ht. rewrite Hidle in Ht. destruct Ht as [[e Hst] _].
  etransitivity; [by eapply sys_started|]. by rewrite (proj2 (nz_true _)).
Qed.

(** What a call that has returned leaves allocated. *)
Definition left_over (opts : pfexecve_opts) (path : string) (argp : list string) (req : pfexec_req) (sleep : Z) (o : obj) : Prop :=
  match o with
  | Req | Req_m => errno_of net <> 0 \/ sosend_took bufs = false
  | So => unclosed net = true
  | Resp_m j => sent net /\ left_behind bufs (has_m bufs) j
  | From j => sent net /\ left_behind bufs (has_from bufs) j
  | Path b => sleep = 0 /\ exists r, accepted net bufs req r /\ b ∈ copies k p path argp r
  | _ => False
  end.


(** C8: The call ends.  When the connection does not time out and the daemon answers with a whole
    response, or the receipt fails, then no step of the call or of its task touches memory that is
    gone, under any schedule, and every schedule with ten turns of both sides, and one more for each
    piece of the answer, brings the call to its return. *)
Theorem call_ends opts path argp envp req rounds :
  fill_mbuf p opts path argp envp = Ok req -> so_wait net <> TimedOut ->
  (forall i n r, rcv bufs = Some (i, inr (n, r)) -> sizeof_pfexec_resp <= n) -> is_Some (rcv bufs) ->
  Forall (fun l => Main ∈ l /\ Task ∈ l) rounds -> (10 + length (receives bufs) <= length rounds)%nat ->
  exists s ret, sys_pfexecve_run net bufs k taskq_ok malloc_ok p
      (PfexecveArgs (Some opts) (Some path) (Some argp) (Some envp)) (concat rounds) = Ok s /\
    c_main s = Returned ret.
Proof.
  intros Hreq Hwait Hwhole Hrcv Hall Hlen. unfold sys_pfexecve_run. cbn [a_path a_argp default].
  destruct (taskq_ok && malloc_ok) eqn:Hok; [apply andb_true_iff in Hok as [-> ->]|].
  - assert (exists s0, begin true true p (PfexecveArgs (Some opts) (Some path) (Some argp) (Some envp)) = Ok s0 /\
      (steps_left bufs s0 <= length rounds)%nat) as (s0 & Hb & Hleft).
    { unfold begin. cbn [a_opts a_path a_argp a_envp negb]. rewrite Hreq. eexists. split; [done|]. unfold steps_left. cbn. lia. }
    rewrite Hb. cbn [mbind ub_bind]. pose proof (begin_inv net bufs k p _ _ _ _ _ Hreq s0 Hb) as Hi.
    destruct (run_safe net bufs k p _ _ _ _ _ Hreq Hwait Hwhole (concat rounds) s0 Hi) as [s Hs].
    exists s. destruct (rounds_end net bufs k p _ _ _ _ _ Hreq rounds s0 s Hi Hrcv Hall Hleft Hs) as [ret Hret]. by exists ret.
  - destruct taskq_ok; cbn [negb andb] in *; unfold begin; cbn [a_opts a_path a_argp a_envp negb].
    + rewrite Hok. cbn [negb]. rewrite free_new by set_solver. cbn [mbind ub_bind]. do 2 eexists.
      split; [by eapply ended_stays|done].
    + do 2 eexists. split; [by eapply ended_stays|done].
Qed.

(** A signal does not end a call that waits for the daemon: [taskq_destroy] waits for the thread,
    which waits for the answer. *)
Theorem signal_waits opts path argp envp req sched s ret :
  fill_mbuf p opts path argp envp = Ok req -> taskq_ok = true -> malloc_ok = true ->
  errno_of net = 0 -> sosend net = 0 -> rcv bufs = None ->
  sys_pfexecve_run net bufs k taskq_ok malloc_ok p (PfexecveArgs (Some opts) (Some path) (Some argp) (Some envp)) sched = Ok s ->
  c_main s <> Returned ret.
Proof.
  intros Hreq Ht1 Hm1 He Hn Hnone Hrun Hret. unfold sys_pfexecve_run in Hrun. rewrite Ht1, Hm1 in Hrun.
  apply ub_bind_ok in Hrun as (s0 & Hb & Hr). eapply run_inv in Hr; [|done|by apply begin_inv].
  pose proof (returned_idle _ _ _ _ _ _ _ _ _ _ _ Hr Hret) as Hidle. destruct Hr as [_ _ _ Ht _].
  unfold task_inv in Ht. rewrite Hidle in Ht. destruct Ht as [_ [H|[H|H]]]; [done|done|]. rewrite Hnone in H. by destruct H.
Qed.
End Call.

(** ** Examples *)

(** The answer of the daemon of [KernPfexec], in one piece. *)
Definition resp1 : pfexec_resp :=
  match daemon_answer (T := gmap string string) db0 rules0 req1 with inr r => r | inl _ => resp_zero end.
Definition bufs1 : mbufs := Mbufs true [Piece 0 (Some (sizeof_pfexec_resp, resp1)) false].

(** Nobody listens. *)
Definition ECONNREFUSED := 61.
Definition net1 : sockets := Sockets 0 0 0 ECONNREFUSED Connected 0 (fun _ => inl None).

(** A signal that comes while the answer is received. *)
Definition sched1 : list choice :=
  [Task; Task; Signal false; Main; Task; Task; Task; Main; Main; Main; Main].

Lemma call_refines_witness :
  exists s, sys_pfexecve_run (net0 Connected) bufs1 (kernel0 0) true true process0 args0 sched1 = Ok s /\
    sys_pfexecve (net_of (net0 Connected) bufs1) (kernel0 0) true true EINTR process0 args0 = Ok (EINTR, c_proc s).
Proof.
  eexists. split; [vm_compute; reflexivity|].
  match goal with |- _ = Ok (_, c_proc ?s) =>
    exact (proj1 (call_refines (net0 Connected) bufs1 (kernel0 0) true true process0 args0 sched1 s EINTR
      ltac:(vm_compute; reflexivity) ltac:(vm_compute; reflexivity))) end.
Defined.


Lemma call_ends_witness :
  exists s ret, sys_pfexecve_run (net0 Connected) bufs1 (kernel0 0) true true process0 args0
      (concat (replicate 11 [Task; Signal true; Main])) = Ok s /\ c_main s = Returned ret.
Proof.
  apply (call_ends (net0 Connected) bufs1 (kernel0 0) true true process0 (PfexecveOpts PFEXECVE_USER "root") "/bin/rm"
    ["rm"; "-r"; "x"]%string ["TERM=vt220"]%string req1).
  - vm_compute. reflexivity.
  - discriminate.
  - intros i n r. vm_compute. intros [= _ <- _]. discriminate.
  - vm_compute. eexists. reflexivity.
  - apply Forall_replicate. split; set_solver.
  - reflexivity.
Defined.

Lemma signal_waits_witness :
  exists s, sys_pfexecve_run (net0 Connected) (Mbufs true []) (kernel0 0) true true process0 args0
      [Task; Task; Signal false; Main; Main; Main; Task; Main] = Ok s /\ forall ret, c_main s <> Returned ret.
Proof.
  eexists. split; [vm_compute; reflexivity|]. intros ret.
  apply (signal_waits (net0 Connected) (Mbufs true []) (kernel0 0) true true process0 (PfexecveOpts PFEXECVE_USER "root") "/bin/rm"
    ["rm"; "-r"; "x"]%string ["TERM=vt220"]%string req1 [Task; Task; Signal false; Main; Main; Main; Task; Main]); vm_compute; reflexivity.
Defined.
