(* ===== verification/PfexecCmd.v ===== *)
(** * The pfexec command ([0.syscall-pfexec-obsd/src/pfexec/pfexec.c])

    The command reads its options, finds the program in [PATH] with the ids of the caller, and makes the system
    call of [KernPfexec] through [pfexecvpe] (of [patches/base.patch]).  The user database, the files that
    may be executed and the environment are inputs. *)

From S2P Require Import RBTree Pfexecvar PfexecEnv Pfexecd KernPfexec Prelude CText.

#[local] Open Scope string_scope.
#[local] Open Scope list_scope.
#[local] Open Scope Z_scope.

Definition ENOENT := 2.
Definition ENOEXEC := 8.
Definition _PATH_BSHELL : string := "/bin/sh".
Definition COLON : ascii := ":"%char.
Definition SLASH : ascii := "/"%char.
Definition safepath : string := "/bin:/sbin:/usr/bin:/usr/sbin:/usr/local/bin:/usr/local/sbin".

(** ** Looking for the program *)

(** The loop that strips the [/]s at the end. *)
Fixpoint strip (s : string) : string :=
  match s with
  | EmptyString => ""
  | String c s => match strip s with "" => if Ascii.eqb c SLASH then "" else String c "" | w => String c w end
  end.

(** The calls of [err], [errx] and [usage], all of which exit with status 1. *)
Inductive exit_msg :=
| CantSetGid
| CantSetUid
| UnknownUser
| NoArguments
| CommandNotFound (prog : string)
| Usage.

Section Command.
(** [stat] finds a regular file that [access] lets the caller execute. *)
Variable executable : string -> bool.

(** The loop of [findprog] over the directories: the warning, and the file. *)
Fixpoint find_loop (dirs : list string) (prog : string) : option string * option string :=
  match dirs with
  | [] => (None, None)
  | p :: dirs =>
      let p := if String.eqb p "" then "." else p in
      let filename := (strip p ++ "/" ++ prog)%string in
      if PATH_MAX <=? strlen filename then (Some filename, None) else
      if executable filename then (None, Some (strlcpy PATH_MAX filename)) else find_loop dirs prog
  end.

(** [findprog]; [ids] are the results of [setgid] and [setuid]. *)
Definition findprog (ids : Z * Z) (prog path : string) : exit_msg + option string * option string :=
  if nz ids.1 then inl CantSetGid else
  if nz ids.2 then inl CantSetUid else
  inr (if has_char SLASH prog
       then (None, if executable prog then Some (strlcpy PATH_MAX prog) else None)
       else find_loop (strsep COLON path) prog).

(** ** Options *)

Variable db : userdb.

(** [getopt(argc, argv, "u:ns")]: the options, [None] for one that is unknown or has no
    argument, and the arguments behind them. *)
Inductive opt := OptU (optarg : string) | OptN | OptS | OptBad.

Fixpoint opt_word (w : string) (next : option string) : list opt * bool :=
  match w with
  | EmptyString => ([], false)
  | String c w =>
      if Ascii.eqb c "u" then
        if String.eqb w "" then (match next with Some a => ([OptU a], true) | None => ([OptBad], false) end) else ([OptU w], false)
      else
        let o := if Ascii.eqb c "n" then OptN else if Ascii.eqb c "s" then OptS else OptBad in
        let '(os, used) := opt_word w next in (o :: os, used)
  end.

Fixpoint getopt (fuel : nat) (args : list string) : list opt * list string :=
  match fuel, args with
  | S fuel, String c (String c2 w) :: rest =>
      if Ascii.eqb c "-" then
        if Ascii.eqb c2 "-" && String.eqb w "" then ([], rest) else
        let '(os, used) := opt_word (String c2 w) (head rest) in
        let '(os', r) := getopt fuel (if used then tail rest else rest) in (os ++ os', r)
      else ([], args)
  | _, _ => ([], args)
  end.

(** The loop over the options: the [opts] of the call and [sflag]. *)
Fixpoint options_loop (os : list opt) (opts : pfexecve_opts) (sflag : bool) : exit_msg + pfexecve_opts * bool :=
  match os with
  | [] => inr (opts, sflag)
  | OptU optarg :: os =>
      if nz (snd (parseuid db optarg)) then inl UnknownUser else
      options_loop os (PfexecveOpts (Z.lor (pfo_flags opts) PFEXECVE_USER) (strlcpy (LOGIN_NAME_MAX - 1) optarg)) sflag
  | OptN :: os => options_loop os (PfexecveOpts (Z.lor (pfo_flags opts) PFEXECVE_NOPROMPT) (pfo_user opts)) sflag
  | OptS :: os => options_loop os opts true
  | OptBad :: _ => inl Usage
  end.

Definition given (v : option string) (d : string) : string :=
  match v with None => d | Some s => if String.eqb s "" then d else s end.

(** [main] up to the call of [pfexecvpe]: an exit, or the options, the file and [argv];
    [args] is [argv] from 1 on. *)
Definition command (ids : Z * Z) (getenv : string -> option string) (args : list string) :
    exit_msg + pfexecve_opts * string * list string :=
  let '(os, argv) := getopt (length args) args in
  match options_loop os (PfexecveOpts 0 "root") false with
  | inl e => inl e
  | inr (opts, sflag) =>
      match (if sflag : bool then [given (getenv "SHELL") "/bin/ksh"] else argv) with
      | [] => inl NoArguments
      | (prog :: _) as argv =>
          match findprog ids prog (given (getenv "PATH") safepath) with
          | inl e => inl e
          | inr (_, None) => inl (CommandNotFound prog)
          | inr (_, Some path) => inr (opts, path, argv)
          end
      end
  end.

(** ** The call *)

Variables (net : sockets) (k : kernel) (taskq_ok malloc_ok : bool) (tsleep : Z).

(** [pfexecve]: the process, and [errno] if it returns (it does not when the process has
    another program). *)
Definition pfexecve (opts : pfexecve_opts) (path : string) (argv envp : list string) (errno : Z) (p : process) :
    ub (option Z * process) :=
  '(ret, p) ← sys_pfexecve net k taskq_ok malloc_ok tsleep p (PfexecveArgs (Some opts) (Some path) (Some argv) (Some envp));
  Ok (match ps_program p with Some _ => None | None => Some (if nz ret then ret else errno) end, p).

(** [pfexecvpe] of a name with a [/]: -1 with [errno], or the new program.  Every branch of
    the [switch] but that of [ENOEXEC] leaves [errno] as it is. *)
Definition pfexecvpe (opts : pfexecve_opts) (name : string) (argv envp : list string) (errno : Z) (p : process) :
    ub (option Z * process) :=
  if String.eqb name "" then Ok (Some ENOENT, p) else
  '(r, p) ← pfexecve opts name argv envp errno p;
  match r with
  | None => Ok (None, p)
  | Some e =>
      if e =? ENOEXEC then pfexecve opts _PATH_BSHELL ("sh" :: name :: drop 1 argv) envp e p
      else Ok (Some e, p)
  end.

Inductive ended := Exited (m : exit_msg) | Failed (errno : Z) | Replaced.

(** [main]: how the command ends, and the process. *)
Definition main (ids : Z * Z) (getenv : string -> option string) (args envp : list string) (p : process) : ub (ended * process) :=
  match command ids getenv args with
  | inl e => Ok (Exited e, p)
  | inr (opts, path, argv) =>
      '(r, p) ← pfexecvpe opts path argv envp 0 p;
      Ok (match r with None => Replaced | Some e => Failed e end, p)
  end.
End Command.

(** ** The directories of [PATH] *)

Definition candidate (prog dir : string) : string :=
  (strip (if String.eqb dir "" then "." else dir) ++ "/" ++ prog)%string.

Lemma find_loop_first executable dirs prog : Forall (fun d => strlen (candidate prog d) < PATH_MAX) dirs ->
  find_loop executable dirs prog = (None, find executable (candidate prog <$> dirs)).
Proof.
  induction 1 as [|d dirs Hd Hds IH]; [done|]. cbn [find_loop fmap list_fmap find]. fold (candidate prog d).
  rewrite (proj2 (Z.leb_gt _ _)) by done. destruct (executable (candidate prog d)); [|exact IH].
  by rewrite strlcpy_fits.
Qed.

Lemma find_loop_found executable dirs prog f : snd (find_loop executable dirs prog) = Some f ->
  exists d, d ∈ dirs /\ f = candidate prog d /\ executable f = true.
Proof.
  induction dirs as [|d dirs IH]; [done|]. cbn [find_loop]. fold (candidate prog d). case_if; [done|].
  destruct (executable (candidate prog d)) eqn:He.
  - intros [= <-]. cbool. rewrite strlcpy_fits by done. exists d. split; [left|done].
  - intros Hf. destruct (IH Hf) as (d' & ? & ?). exists d'. split; [by right|done].
Qed.

(** A program without a slash is looked for in the directories between the colons of [PATH], an empty one being
    the current directory: the first that has it as a file that the caller may execute is
    taken, provided that no name before it is too long. *)
Theorem findprog_first executable prog path : has_char SLASH prog = false ->
  Forall (fun d => strlen (candidate prog d) < PATH_MAX) (strsep COLON path) ->
  join_with COLON (strsep COLON path) = path /\ Forall (fun w => has_char COLON w = false) (strsep COLON path) /\
  findprog executable (0, 0) prog path = inr (None, find executable (candidate prog <$> strsep COLON path)).
Proof.
  intros Hs Hl. destruct (strsep_spec COLON path) as [H1 H2]. split; [done|]. split; [done|].
  unfold findprog. change (nz (0, 0).1) with false. change (nz (0, 0).2) with false. cbv iota.
  by rewrite Hs, find_loop_first.
Qed.

(** ** What is run, and for whom *)

(** The argument of the last [-u]. *)
Definition last_user (os : list opt) : option string :=
  last (omap (fun o => match o with OptU u => Some u | _ => None end) os).

Definition user_of (os : list opt) (none : string) : string :=
  match last_user os with Some u => strlcpy (LOGIN_NAME_MAX - 1) u | None => none end.

Lemma last_user_cons u os : last_user (OptU u :: os) = Some (default u (last_user os)).
Proof.
  unfold last_user. change (omap ?f (OptU u :: os)) with (u :: omap f os).
  rewrite last_cons. by destruct (last _).
Qed.

(** The loop takes the user of the last [-u], and knows all of them. *)
Lemma options_loop_user db os opts sflag opts' sflag' : options_loop db os opts sflag = inr (opts', sflag') ->
  strlen (pfo_user opts) < LOGIN_NAME_MAX ->
  strlen (pfo_user opts') < LOGIN_NAME_MAX /\ pfo_user opts' = user_of os (pfo_user opts) /\
  forall u, OptU u ∈ os -> snd (parseuid db u) = 0.
Proof.
  revert opts sflag. induction os as [|[u| | |] os IH]; intros opts sflag; cbn [options_loop].
  - intros [= <- <-] Hl. split_and!; [done|done|]. intros u Hu. by apply not_elem_of_nil in Hu.
  - case_if; [done|]. apply nz_false in E. intros Ho _.
    destruct (IH _ _ Ho) as (H1 & H2 & H3).
    + cbn [pfo_user]. pose proof (strlcpy_length (LOGIN_NAME_MAX - 1) u eq_refl). unfold LOGIN_NAME_MAX in *. lia.
    + split; [done|]. split; [|intros v [[= ->]|Hv]%elem_of_cons; eauto].
      rewrite H2. unfold user_of. rewrite last_user_cons. cbn [pfo_user]. by destruct (last_user os).
  - intros Ho Hl. destruct (IH _ _ Ho Hl) as (H1 & H2 & H3). split_and!; [done|done|].
    intros v [[=]|Hv]%elem_of_cons. eauto.
  - intros Ho Hl. destruct (IH _ _ Ho Hl) as (H1 & H2 & H3). split_and!; [done|done|].
    intros v [[=]|Hv]%elem_of_cons. eauto.
  - done.
Qed.

(** The request is for the user of the options. *)
Lemma fill_mbuf_user p opts path argp envp req : fill_mbuf p opts path argp envp = Ok req ->
  strlen (pfo_user opts) < LOGIN_NAME_MAX -> pfr_req_user req = pfo_user opts.
Proof.
  unfold fill_mbuf. intros ([[? ?] ?] & _ & Hr)%ub_bind_ok Hl. apply ub_bind_ok in Hr as ([[? ?] ?] & _ & [= <-]).
  cbn [pfr_req_user]. unfold copy_field. by rewrite (proj2 (Z.ltb_lt _ _)).
Qed.

#[export] Instance ucred_eq_dec : EqDecision ucred.
Proof. solve_decision. Defined.

Section Granted.
Context {T : Type} `{RBTree string string T}.
Variables (executable : string -> bool) (db : userdb) (rules : list rule).
Variables (net : sockets) (k : kernel) (taskq_ok malloc_ok : bool) (tsleep : Z).

(** What [command] hands to the call. *)
Lemma command_found ids getenv args opts path argv : command executable db ids getenv args = inr (opts, path, argv) ->
  strlen (pfo_user opts) < LOGIN_NAME_MAX /\
  (pfo_user opts = user_of (getopt (length args) args).1 "root" /\
   forall u, OptU u ∈ (getopt (length args) args).1 -> snd (parseuid db u) = 0) /\
  exists prog f, head argv = Some prog /\ executable f = true /\ path = strlcpy PATH_MAX f /\
    (f = prog \/ exists d, d ∈ strsep COLON (given (getenv "PATH") safepath) /\ f = candidate prog d).
Proof.
  unfold command. destruct (getopt (length args) args) as [os rest]. cbn [fst].
  destruct (options_loop _ _ _ _) as [e|[opts' sflag]] eqn:Ho; [done|].
  destruct (options_loop_user _ _ _ _ _ _ Ho eq_refl) as [Hl Hu].
  destruct (if sflag then _ else rest) as [|prog argv'] eqn:Ha; [done|].
  unfold findprog. case_if; [done|]. case_if; [done|].
  destruct (has_char SLASH prog) eqn:Hs.
  - destruct (executable prog) eqn:He; [|done]. intros [= <- <- <-]. split; [done|]. split; [exact Hu|].
    exists prog, prog. split; [done|]. split; [done|]. split; [done|by left].
  - destruct (find_loop _ _ _) as [w [f|]] eqn:Hf; [|done]. intros [= <- <- <-]. split; [done|]. split; [exact Hu|].
    destruct (find_loop_found executable (strsep COLON (given (getenv "PATH") safepath)) prog f) as (d & Hd & Hfd & He); [by rewrite Hf|].
    exists prog, f. split; [done|]. split; [done|]. split; [|right; by exists d].
    clear -Hf. revert Hf. generalize (strsep COLON (given (getenv "PATH") safepath)) as dirs. intros dirs. induction dirs as [|d dirs IH]; [done|].
    cbn [find_loop]. fold (candidate prog d). case_if; [done|]. case_if; [|exact IH].
    intros [= <- <-]. cbool. by rewrite !strlcpy_fits by (by rewrite ?strlcpy_fits).
Qed.

(** The rule by which a call changed the credentials. *)
Definition by_rule (p p' : process) (opts : pfexecve_opts) (path : string) (argv envp : list string) : Prop :=
  exists req l1 r l2 pw, fill_mbuf p opts path argv envp = Ok req /\ pfr_uid req = cr_uid (ps_ucred p) /\
    rules = l1 ++ r :: l2 /\ match_rule db req r = true /\ (forall r', r' ∈ l2 -> match_rule db req r' = false) /\
    Z.land (r_action r) DENY = 0 /\ Z.land (r_options r) NOPASS <> 0 /\
    getpwuid db (fst (parseuid db (pfo_user opts))) = Some pw /\ ids_given k pw path argv p'.

Hypothesis daemon : forall req, soreceive net req = daemon_answer db rules req.

Lemma pfexecve_rule opts path argv envp errno p r p' : strlen (pfo_user opts) < LOGIN_NAME_MAX ->
  pfexecve net k taskq_ok malloc_ok tsleep opts path argv envp errno p = Ok (r, p') ->
  ps_ucred p' <> ps_ucred p -> by_rule p p' opts path argv envp /\ (r = None \/ r = Some errno).
Proof.
  intros Hl ([ret p1] & Hs & Hr)%ub_bind_ok Hne. injection Hr as Hr <-.
  destruct (credentials_by_rule db rules net k taskq_ok malloc_ok tsleep p _ ret p1 daemon Hs Hne)
    as (-> & opts' & path' & argv' & envp' & req & l1 & rl & l2 & pw & Heq & Hreq & Hid & Hrl & Hm & Hn & Ha & Ho & Hpw & Hu).
  injection Heq as <- <- <- <-. split.
  - exists req, l1, rl, l2, pw. by rewrite <- (fill_mbuf_user _ _ _ _ _ _ Hreq Hl).
  - rewrite <- Hr. change (nz 0) with false. destruct (ps_program p1); auto.
Qed.

Lemma pfexec_exec_pid resp path argp errno p : ps_pid (snd (pfexec_exec k resp path argp errno p)) = ps_pid p.
Proof.
  unfold pfexec_exec. destruct (check_priv resp) as [ret env]. case_if; [done|].
  assert (H1 : ps_pid (snd (pfexec_escilate resp p)) = ps_pid p) by (unfold pfexec_escilate; by case_if).
  destruct (pfexec_escilate resp p) as [e p1]. cbn [snd] in H1. rewrite <- H1.
  assert (H2 : ps_pid (snd (execve k p1 path argp env)) = ps_pid p1) by (unfold execve; by destruct (sys_execve k p1)).
  destruct (execve k p1 path argp env) as [r2 p2]. cbn [snd] in H2. rewrite <- H2. cbn [snd].
  assert (Hr : forall q s, ps_pid (snd (apply_chroot k q s)) = ps_pid q) by (intros q s; unfold apply_chroot; by case_if).
  case_if; [|done]. pose proof (Hr p2 (strlcpy PATH_MAX (rp_chroot resp))) as H3.
  destruct (apply_chroot k p2 _) as [r3 p3]. cbn [snd] in H3. rewrite <- H3. case_if; [apply Hr|done].
Qed.

Lemma pfexecve_pid opts path argv envp errno p r p' :
  pfexecve net k taskq_ok malloc_ok tsleep opts path argv envp errno p = Ok (r, p') -> ps_pid p' = ps_pid p.
Proof.
  intros ([ret p1] & Hs & Hr)%ub_bind_ok. injection Hr as _ <-.
  apply sys_pfexecve_cases in Hs as [->|(? & path' & argv' & ? & ? & resp & _ & _ & _ & _ & _ & Hx)]; [done|].
  pose proof (pfexec_exec_pid resp path' argv' 0 p) as Hp. by rewrite <- Hx in Hp.
Qed.

(** The request is made of the arguments and of who the process is. *)
Lemma fill_mbuf_same p p0 opts path argv envp : ps_ucred p0 = ps_ucred p -> ps_pid p0 = ps_pid p ->
  fill_mbuf p opts path argv envp = fill_mbuf p0 opts path argv envp.
Proof. unfold fill_mbuf. by intros -> ->. Qed.

End Granted.

(** C40: A user name of 31 bytes or more is checked whole and sent cut to 30 bytes; when the daemon knows
    no user of the cut name, it answers as it would for root. *)
Theorem long_user_is_root {T} `{RBTree string string T} executable db rules ids getenv u prog argv envp p req resp pw :
  snd (parseuid db u) = 0 ->
  let cut := String.substring 0 30 u in
  getpwnam db cut = None -> strtoll_all cut = None -> getpwnam db "root" = Some pw -> pw_uid pw = 0 ->
  String.prefix "-" prog = false -> executable prog = true -> has_char SLASH prog = true -> strlen prog < PATH_MAX -> ids = (0, 0) ->
  let opts := PfexecveOpts PFEXECVE_USER cut in
  command executable db ids getenv ("-u" :: u :: prog :: argv) = inr (opts, prog, prog :: argv) /\
  (fill_mbuf p opts prog (prog :: argv) envp = Ok req -> request_ok req = true ->
   process_request db rules req resp = process_request db rules (with_user req "root") resp).
Proof.
  intros Hok cut Hcut Hnum Hroot H0 Hp Hx Hs Hl -> opts. split.
  - assert (Hg : forall n, getopt n (prog :: argv) = ([], prog :: argv)).
    { intros [|n]; [done|]. destruct prog as [|c [|c2 w]]; [done|done|]. cbn [getopt].
      destruct (Ascii.eqb_spec c "-") as [->|]; [|done]. by cbn in Hp. }
    unfold command. change (getopt (length ("-u" :: u :: prog :: argv)) ("-u" :: u :: prog :: argv)) with
      (let '(os', r) := getopt (S (S (length argv))) (prog :: argv) in ([OptU u] ++ os', r)).
    rewrite Hg. cbn [app options_loop pfo_flags]. rewrite Hok. change (nz 0) with false. cbv iota.
    assert (strlcpy (LOGIN_NAME_MAX - 1) u = cut) as -> by reflexivity.
    unfold findprog. change (nz (0, 0).1) with false. change (nz (0, 0).2) with false. cbv iota.
    rewrite Hs, Hx. by rewrite strlcpy_fits.
  - intros Hreq Hrok. assert (Hru : pfr_req_user req = cut).
    { rewrite (fill_mbuf_user _ _ _ _ _ _ Hreq); [done|].
      pose proof (strlcpy_length 31 u eq_refl) as Hlt. change (pfo_user opts) with (strlcpy 31 u). unfold LOGIN_NAME_MAX. lia. }
    apply (unknown_user_is_root db rules req resp pw); try done; by rewrite Hru.
Qed.

(** *** Witnesses *)

Definition path_env (v : string) : option string := if String.eqb v "PATH" then Some "/usr/bin::/bin/" else None.
Definition in_bin (f : string) : bool := String.eqb f "/bin/rm".

Lemma findprog_first_witness : join_with COLON (strsep COLON "/usr/bin::/bin/") = "/usr/bin::/bin/" /\
  Forall (fun w => has_char COLON w = false) (strsep COLON "/usr/bin::/bin/") /\
  findprog in_bin (0, 0) "rm" "/usr/bin::/bin/" = inr (None, Some "/bin/rm").
Proof. apply (findprog_first in_bin "rm" "/usr/bin::/bin/"); [reflexivity|]. repeat constructor. Defined.


(** A user of 31 bytes that is in the database, and whose name without the last byte is not. *)
Definition long_user : string := "abcdefghijklmnopqrstuvwxyz_user".
Definition db_long : userdb :=
  Userdb (fun s => if String.eqb s long_user then Some (Passwd long_user 1001 1001 "/home" "/bin/sh") else getpwnam db0 s)
    (getpwuid db0) (getgrnam db0) (getgrouplist db0).

Lemma long_user_is_root_witness :
  command in_bin db_long (0, 0) path_env ["-u"; long_user; "/bin/rm"; "x"] =
    inr (PfexecveOpts PFEXECVE_USER "abcdefghijklmnopqrstuvwxyz_use", "/bin/rm", ["/bin/rm"; "x"]) /\
  exists req, fill_mbuf process0 (PfexecveOpts PFEXECVE_USER "abcdefghijklmnopqrstuvwxyz_use") "/bin/rm" ["/bin/rm"; "x"] ["TERM=vt220"] = Ok req /\
    process_request (T := gmap string string) db_long rules0 req resp_zero =
    process_request (T := gmap string string) db_long rules0 (with_user req "root") resp_zero.
Proof.
  set (made := fill_mbuf process0 (PfexecveOpts PFEXECVE_USER "abcdefghijklmnopqrstuvwxyz_use") "/bin/rm" ["/bin/rm"; "x"] ["TERM=vt220"]).
  assert (Hmade : exists req, made = Ok req /\ request_ok req = true).
  { eexists. split; [vm_compute; reflexivity|vm_compute; reflexivity]. }
  destruct Hmade as (req & Hreq & Hrok).
  destruct (long_user_is_root (T := gmap string string) in_bin db_long rules0 (0, 0) path_env long_user "/bin/rm" ["x"] ["TERM=vt220"]
    process0 req resp_zero pw0) as [H1 H2]; [vm_compute; reflexivity..|].
  split; [exact H1|]. exists req. split; [exact Hreq|]. exact (H2 Hreq Hrok).
Defined.
