(* ===== verification/RHdr.v ===== *)
(** * Packets of the reliable UDP server ([2.0.ReliableUDP/RKey.h], [RHdr.h])

    A packet has four 16-bit numbers (sequence number, acknowledgment, checksum,
    and flags with the version) and a message of 1464 bytes, which may be
    encrypted byte by byte with an RSA of 8 bits. *)

From S2P Require Import Prelude.

(** ** RKey.h *)

Definition N := 249.
Definition D := 15.
Definition E := 11.

(** The loop of [powr], on the [uint64_t] values [z] and [y]; [n] bounds its
    turns and is at least [y]. *)
Fixpoint powr_loop (n : nat) (x y m z : Z) : Z :=
  match n with
  | O => z
  | S n =>
    if 1 <? y then
      let z := z mod m in
      let z := u64 (z * x) in
      powr_loop n x (y - 1) m z
    else z
  end.

(** [powr]. *)
Definition powr (x y m : Z) : Z := powr_loop (Z.to_nat y) x y m x mod m.

(** ** RHdr.h *)

Definition R_VERSION := 2.
Definition RHDR_SIZ := 1472.
Definition MSG_SIZ := 1464.
Definition FLAG_OFFSET := 0xFE00.
Definition EMPTY_CHECKSUM_PRECOMPUTE := 65535.

(** [enum flags]. *)
Definition ACK := 0x8000.
Definition NAK := 0x4000.
Definition GET := 0x2000.
Definition DAT := 0x1000.
Definition FIN := 0x0800.
Definition CHK := 0x0400.
Definition ENC := 0x0200.

(** [RHdr_t]: the elements SEQN, ACKN, CHKS and FLGV of [content], and the bytes
    of [msg], each in 0..255. *)
Record RHdr := MkRHdr { SEQN : Z; ACKN : Z; CHKS : Z; FLGV : Z; msg : list Z }.

(** The assignments to one element. *)
Definition set_SEQN (v : Z) (h : RHdr) : RHdr := MkRHdr v (ACKN h) (CHKS h) (FLGV h) (msg h).
Definition set_ACKN (v : Z) (h : RHdr) : RHdr := MkRHdr (SEQN h) v (CHKS h) (FLGV h) (msg h).
Definition set_CHKS (v : Z) (h : RHdr) : RHdr := MkRHdr (SEQN h) (ACKN h) v (FLGV h) (msg h).
Definition set_FLGV (v : Z) (h : RHdr) : RHdr := MkRHdr (SEQN h) (ACKN h) (CHKS h) v (msg h).
Definition set_msg (m : list Z) (h : RHdr) : RHdr := MkRHdr (SEQN h) (ACKN h) (CHKS h) (FLGV h) m.

(** The macros [RHDR_INIT], [FLAG_VERSION_INIT], [FLAG_SET], [FLAG_UNSET],
    [FLAG_GET], [FLAG_CHECK], [FLAG_VALIDATE], [FLAG_CONFIRM] and
    [RHDR_MSG_SET]. *)
Definition zeros (n : Z) : list Z := replicate (Z.to_nat n) 0.
Definition FLAG_VERSION_INIT (h : RHdr) : RHdr := set_FLGV R_VERSION h.
Definition RHDR_INIT : RHdr := FLAG_VERSION_INIT (MkRHdr 0 0 0 0 (zeros MSG_SIZ)).
Definition FLAG_SET (h : RHdr) (flag : Z) : RHdr :=
  set_FLGV (Z.lor (FLGV h) (Z.land flag FLAG_OFFSET)) h.
Definition FLAG_UNSET (h : RHdr) (flag : Z) : RHdr :=
  set_FLGV (u16 (Z.land (FLGV h) (Z.lnot (Z.land flag FLAG_OFFSET)))) h.
Definition FLAG_GET (h : RHdr) : Z := FLGV h.
Definition FLAG_CHECK (h : RHdr) (flag : Z) : bool := FLAG_GET h =? Z.lor flag R_VERSION.
Definition FLAG_VALIDATE (h : RHdr) (flag : Z) : bool :=
  Z.land (FLAG_GET h) (Z.lor flag R_VERSION) =? Z.lor flag R_VERSION.
Definition FLAG_CONFIRM (h : RHdr) : bool := Z.land (FLAG_GET h) 0x03FF =? R_VERSION.

(** [memcpy(dst, src, n)] into the beginning of an array. *)
Definition memcpy (dst src : list Z) (n : Z) : list Z :=
  take (Z.to_nat n) src ++ drop (Z.to_nat n) dst.

Definition RHDR_MSG_SET (h : RHdr) (msg_str : list Z) (msg_len : Z) : RHdr :=
  set_msg (memcpy (msg h) msg_str (if msg_len <? MSG_SIZ then msg_len else MSG_SIZ)) h.

(** An element of a byte array. *)
Definition byte_at (m : list Z) (i : Z) : Z := default 0 (m !! Z.to_nat i).

(** [computer_chksum]: [c1] and [c2] are of the signed type [char]. *)
Definition computer_chksum (m : list Z) (pos c1 c2 : Z) : list Z * Z :=
  (m, u16 (u16 (s8 c1) + Z.shiftl (u16 (s8 c2)) 8)).

(** [carry_around_add]. *)
Definition carry_around_add (sum val : Z) : Z :=
  let over := u32 (sum + val) in
  u16 (Z.land over 0xffff + Z.shiftr over 16).

(** The loop of [rhdr_computer_internal]: the function may change the message.
    [MSG_SIZ / 2] turns reach the end of the message. *)
Fixpoint computer_loop (f : list Z -> Z -> Z -> Z -> list Z * Z) (n : nat)
    (m : list Z) (i accum : Z) : list Z * Z :=
  match n with
  | O => (m, accum)
  | S n =>
    if (i <? MSG_SIZ - 1) && nz (byte_at m i) then
      let '(m, v) := f m i (byte_at m i) (byte_at m (i + 1)) in
      computer_loop f n m (i + 2) (carry_around_add accum v)
    else (m, accum)
  end.

(** [rhdr_computer_internal]. *)
Definition rhdr_computer_internal (h : RHdr) (f : list Z -> Z -> Z -> Z -> list Z * Z) : RHdr * Z :=
  let '(m, accum) := computer_loop f (Z.to_nat (MSG_SIZ / 2)) (msg h) 0 0 in
  (set_msg m h, u16 (Z.lnot accum)).

(** [rhdr_computer_chksum]. *)
Definition rhdr_computer_chksum (h : RHdr) : Z := snd (rhdr_computer_internal h computer_chksum).

(** [valid_chksum]. *)
Definition valid_chksum (h : RHdr) : bool :=
  if negb (FLAG_VALIDATE h CHK) then false else
  if rhdr_computer_chksum h =? CHKS h then true else false.

(** [client_chksum]. *)
Definition client_chksum (h : RHdr) : bool :=
  if negb (FLAG_VALIDATE h CHK) then false else
  if negb (FLAG_CHECK h GET || FLAG_CHECK h (Z.lor GET CHK)) &&
     negb (CHKS h =? EMPTY_CHECKSUM_PRECOMPUTE)
  then false else valid_chksum h.

(** [compute_crypt]. *)
Definition compute_crypt (ch po num : Z) : Z := u8 (powr ch po num).

(** [encrypt_] and [decrypt_], whose arguments become [uint8_t]. *)
Definition crypt_ (po : Z) (m : list Z) (pos c1 c2 : Z) : list Z * Z :=
  let m := <[Z.to_nat pos := compute_crypt (u8 c1) po N]> m in
  let m := <[Z.to_nat (pos + 1) := compute_crypt (u8 c2) po N]> m in
  (m, 0).
Definition encrypt_ := crypt_ E.
Definition decrypt_ := crypt_ D.

(** [encrypt] and [decrypt]. *)
Definition encrypt (h : RHdr) : RHdr * Z := rhdr_computer_internal h encrypt_.
Definition decrypt (h : RHdr) : RHdr * Z := rhdr_computer_internal h decrypt_.

(** [ntohs] and [htons] on a little-endian machine. *)
Definition swap16 (x : Z) : Z := Z.lor (Z.shiftl (Z.land x 255) 8) (Z.shiftr x 8).

(** [convert_bytes], whose two directions are the same there. *)
Definition convert_bytes (h : RHdr) (network : bool) : RHdr :=
  MkRHdr (swap16 (SEQN h)) (swap16 (ACKN h)) (swap16 (CHKS h)) (swap16 (FLGV h)) (msg h).

(** ** Modular exponentiation *)

Lemma powr_loop_spec n x y m z :
  0 < m -> 0 <= x -> m * x <= 2 ^ 64 -> 0 <= z -> 1 <= y -> y - 1 <= Z.of_nat n ->
  powr_loop n x y m z mod m = (z * x ^ (y - 1)) mod m.
Proof.
  intros Hm Hx Hov. revert y z; induction n as [|n IH]; intros y z Hz Hy Hn; cbn [powr_loop].
  { replace (y - 1) with 0 by lia. by rewrite Z.pow_0_r, Z.mul_1_r. }
  case_if; cbool.
  - pose proof (Z.mod_pos_bound z m Hm).
    rewrite uN_small by nia. rewrite IH by nia.
    replace (x ^ (y - 1)) with (x * x ^ (y - 1 - 1))
      by (rewrite <- Z.pow_succ_r by lia; f_equal; lia).
    rewrite <- Z.mul_assoc. apply Z.mul_mod_idemp_l. lia.
  - replace (y - 1) with 0 by lia. by rewrite Z.pow_0_r, Z.mul_1_r.
Qed.

(** [powr] computes powers modulo [m] for exponents from 1 on, without a
    64-bit overflow as long as [m * x] fits. *)
Theorem powr_spec x y m :
  0 < m -> 0 <= x -> m * x <= 2 ^ 64 -> 1 <= y -> powr x y m = x ^ y mod m.
Proof.
  intros. unfold powr. rewrite powr_loop_spec by lia.
  replace y with (Z.succ (y - 1)) at 2 by lia. by rewrite Z.pow_succ_r by lia.
Qed.

Lemma powr_spec_witness : powr 200 11 249 = 200 ^ 11 mod 249.
Proof. apply (powr_spec 200 11 249); vm_compute; congruence. Defined.

(** ** The loop over the message, pair by pair *)

(** A function of [rhdr_computer_internal] that only replaces its two bytes. *)
Definition pairwise (f : list Z -> Z -> Z -> Z -> list Z * Z) (g : Z -> Z -> Z * Z * Z) : Prop :=
  forall pre a b l, f (pre ++ a :: b :: l) (Z.of_nat (length pre)) a b =
    (pre ++ fst (fst (g a b)) :: snd (fst (g a b)) :: l, snd (g a b)).

Fixpoint pairs_loop (g : Z -> Z -> Z * Z * Z) (l : list Z) (accum : Z) : list Z * Z :=
  match l with
  | a :: b :: l' =>
    if nz a then
      let '(l', accum) := pairs_loop g l' (carry_around_add accum (snd (g a b))) in
      (fst (fst (g a b)) :: snd (fst (g a b)) :: l', accum)
    else (l, accum)
  | _ => (l, accum)
  end.

Lemma byte_at_app pre a l : byte_at (pre ++ a :: l) (Z.of_nat (length pre)) = a.
Proof. unfold byte_at. by rewrite Nat2Z.id, list_lookup_middle. Qed.

Lemma computer_loop_pairs f g n pre l accum :
  pairwise f g -> length l = (2 * n)%nat -> Z.of_nat (length pre + length l) = MSG_SIZ ->
  computer_loop f n (pre ++ l) (Z.of_nat (length pre)) accum =
  (pre ++ fst (pairs_loop g l accum), snd (pairs_loop g l accum)).
Proof.
  intros Hf. revert pre l accum; induction n as [|n IH]; intros pre l accum Hl Hm; cbn [computer_loop].
  { by destruct l. }
  destruct l as [|a [|b l]]; simpl in Hl; [lia|lia|]. cbn [length] in Hm.
  assert (byte_at (pre ++ a :: b :: l) (Z.of_nat (length pre) + 1) = b) as Hb.
  { pose proof (byte_at_app (pre ++ [a]) b l) as Hb. rewrite <- app_assoc, length_app in Hb.
    simpl in Hb. by rewrite Nat2Z.inj_add in Hb. }
  rewrite byte_at_app, Hb, Hf. rewrite (proj2 (Z.ltb_lt _ _)) by lia.
  cbn [pairs_loop andb]. destruct (nz a); [|done].
  destruct (g a b) as [[a' b'] v]. cbn [fst snd].
  replace (Z.of_nat (length pre) + 2) with (Z.of_nat (length (pre ++ [a'; b'])))
    by (rewrite length_app; simpl; lia).
  replace (pre ++ a' :: b' :: l) with ((pre ++ [a'; b']) ++ l) by (by rewrite <- app_assoc).
  rewrite IH by (rewrite ?length_app; simpl; lia).
  destruct (pairs_loop g l _) as [l1 acc1]. cbn [fst snd]. by rewrite <- app_assoc.
Qed.

(** A packet whose message has the right size. *)
Definition msg_ok (h : RHdr) : Prop :=
  Z.of_nat (length (msg h)) = MSG_SIZ /\ Forall (fun b => 0 <= b < 256) (msg h).

Lemma computer_internal_pairs h f g :
  pairwise f g -> msg_ok h ->
  rhdr_computer_internal h f =
  (set_msg (fst (pairs_loop g (msg h) 0)) h, u16 (Z.lnot (snd (pairs_loop g (msg h) 0)))).
Proof.
  intros Hf [Hl _]. unfold rhdr_computer_internal.
  pose proof (computer_loop_pairs f g (Z.to_nat (MSG_SIZ / 2)) [] (msg h) 0 Hf) as Hc.
  cbn [app length] in Hc. change (Z.of_nat 0) with 0 in Hc.
  rewrite Hc; [done| |by rewrite Nat.add_0_l].
  change (Z.to_nat (MSG_SIZ / 2)) with 732%nat. unfold MSG_SIZ in Hl. lia.
Qed.

(** ** Byte order *)

Lemma bits_high16 x n : 0 <= x < 2 ^ 16 -> 16 <= n -> Z.testbit x n = false.
Proof.
  intros Hx Hn. rewrite <- (Z.mod_small x (2 ^ 16)) by done. by apply Z.mod_pow2_bits_high.
Qed.

Lemma swap16_bit x n :
  0 <= n -> Z.testbit (swap16 x) n = ((8 <=? n) && (n <? 16) && Z.testbit x (n - 8)) || Z.testbit x (n + 8).
Proof.
  intros Hn. unfold swap16. rewrite Z.lor_spec, Z.shiftr_spec by done. f_equal.
  rewrite Z.shiftl_spec by done. destruct (Z.leb_spec 8 n); simpl.
  - rewrite Z.land_spec. change 255 with (Z.ones 8). rewrite Z.testbit_ones_nonneg by lia.
    rewrite andb_comm. f_equal. destruct (Z.ltb_spec (n - 8) 8), (Z.ltb_spec n 16); lia || done.
  - by apply Z.testbit_neg_r; lia.
Qed.

Lemma swap16_inv x : 0 <= x < 2 ^ 16 -> swap16 (swap16 x) = x.
Proof.
  intros Hx. apply Z.bits_inj'. intros n Hn. rewrite swap16_bit, !(swap16_bit x (n + 8)) by lia.
  replace (n + 8 - 8) with n by lia. rewrite (bits_high16 x (n + 8 + 8)), orb_false_r by lia.
  destruct (Z.leb_spec 8 n) as [H8|H8]; destruct (Z.ltb_spec n 16) as [H16|H16]; cbn [andb].
  - rewrite swap16_bit by lia. replace (n - 8 + 8) with n by lia.
    rewrite (proj2 (Z.leb_gt 8 (n - 8))), (proj2 (Z.ltb_ge (n + 8) 16)) by lia.
    by rewrite andb_false_r, orb_false_r.
  - rewrite (bits_high16 x n) by lia. by rewrite andb_false_r.
  - rewrite (proj2 (Z.leb_le 8 (n + 8))), (proj2 (Z.ltb_lt (n + 8) 16)) by lia. done.
  - lia.
Qed.

(** The numbers of a packet fit in 16 bits. *)
Definition fits (h : RHdr) : Prop :=
  0 <= SEQN h < 2 ^ 16 /\ 0 <= ACKN h < 2 ^ 16 /\ 0 <= CHKS h < 2 ^ 16 /\ 0 <= FLGV h < 2 ^ 16.

Lemma convert_bytes_inv h b b' : fits h -> convert_bytes (convert_bytes h b) b' = h.
Proof.
  intros (Hs & Ha & Hc & Hf). unfold convert_bytes; cbn.
  rewrite !swap16_inv by done. by destruct h.
Qed.

(** ** Checksums *)

(** The 16-bit word of two bytes, and the words of a message: they end before
    the first pair that begins with a NUL. *)
Definition word (a b : Z) : Z := u16 (u16 (s8 a) + Z.shiftl (u16 (s8 b)) 8).
Fixpoint words (l : list Z) : list Z :=
  match l with
  | a :: b :: l => if nz a then word a b :: words l else []
  | _ => []
  end.

Lemma computer_chksum_pairwise : pairwise computer_chksum (fun a b => (a, b, word a b)).
Proof. done. Qed.

Lemma carry_around_add_spec s v :
  0 <= s < 2 ^ 16 -> 0 <= v < 2 ^ 16 ->
  0 <= carry_around_add s v < 2 ^ 16 /\
  carry_around_add s v mod 65535 = (s + v) mod 65535 /\
  (carry_around_add s v = 0 <-> s = 0 /\ v = 0).
Proof.
  intros Hs Hv. unfold carry_around_add. rewrite (uN_small 32) by lia.
  replace (Z.land (s + v) 0xffff) with ((s + v) mod 2 ^ 16)
    by (symmetry; change 0xffff with (Z.ones 16); by apply Z.land_ones).
  rewrite Z.shiftr_div_pow2 by lia.
  pose proof (Z.div_mod (s + v) (2 ^ 16) ltac:(lia)) as Hd.
  pose proof (Z.mod_pos_bound (s + v) (2 ^ 16) ltac:(lia)).
  assert (0 <= (s + v) / 2 ^ 16 <= 1) as Hq.
  { split; [apply Z.div_pos; lia|]. apply Z.lt_succ_r, Z.div_lt_upper_bound; lia. }
  set (q := (s + v) / 2 ^ 16) in *. set (r := (s + v) mod 2 ^ 16) in *.
  rewrite uN_small by lia. split; [lia|]. split; [|lia].
  rewrite Hd. replace (2 ^ 16 * q + r) with (r + q + q * 65535) by lia.
  by rewrite Z.mod_add by lia.
Qed.

Lemma word_bounds a b : 0 <= word a b < 2 ^ 16.
Proof. unfold word. apply uN_bounds. lia. Qed.

Lemma pairs_loop_chksum l accum :
  0 <= accum < 2 ^ 16 ->
  let r := snd (pairs_loop (fun a b => (a, b, word a b)) l accum) in
  0 <= r < 2 ^ 16 /\ r mod 65535 = (accum + foldr Z.add 0 (words l)) mod 65535.
Proof.
  revert accum. induction l as [l IH] using (induction_ltof1 _ (@length Z)); unfold ltof in IH.
  intros accum Ha r. subst r. destruct l as [|a [|b l]]; [rewrite Z.add_0_r; auto..|].
  cbn [pairs_loop words]. destruct (nz a); [|cbn [snd foldr]; rewrite Z.add_0_r; auto].
  pose proof (word_bounds a b) as Hw.
  destruct (carry_around_add_spec accum (word a b) Ha Hw) as (Hb & Hm & _).
  specialize (IH l ltac:(simpl; lia) _ Hb). cbn [snd fst] in *.
  destruct (pairs_loop _ l _) as [l1 acc1]. cbn [snd foldr] in *.
  destruct IH as [? ->]. split; [done|].
  rewrite Zplus_mod, Hm, <- Zplus_mod. f_equal. lia.
Qed.

Lemma rhdr_computer_chksum_bounds h : 0 <= rhdr_computer_chksum h < 2 ^ 16.
Proof.
  unfold rhdr_computer_chksum, rhdr_computer_internal.
  destruct (computer_loop _ _ _ _ _) as [m acc]. apply uN_bounds. lia.
Qed.

(** The checksum of a packet is the 16-bit complement of a number that is
    congruent modulo 65535 to the sum of the words of its message up to the
    first pair that begins with a NUL, and it is computed without an overflow.
    So packets whose sums differ modulo 65535 have different checksums. *)
Theorem rhdr_computer_chksum_spec h :
  msg_ok h ->
  0 <= rhdr_computer_chksum h < 2 ^ 16 /\
  (65535 - rhdr_computer_chksum h) mod 65535 = foldr Z.add 0 (words (msg h)) mod 65535.
Proof.
  intros Hm. unfold rhdr_computer_chksum.
  rewrite (computer_internal_pairs h _ _ computer_chksum_pairwise Hm). cbn [snd].
  destruct (pairs_loop_chksum (msg h) 0 ltac:(lia)) as [Hb Hs].
  destruct (pairs_loop _ (msg h) 0) as [l acc]. cbn [snd] in *.
  assert (u16 (Z.lnot acc) = 65535 - acc) as Hl.
  { unfold uN, Z.lnot. replace (Z.pred (- acc)) with (65535 - acc + (-1) * 2 ^ 16) by lia.
    rewrite Z.mod_add by lia. apply Z.mod_small. lia. }
  rewrite Hl. split; [lia|]. replace (65535 - (65535 - acc)) with acc by lia. exact Hs.
Qed.

(** ** Encryption *)

(** Every byte that a byte can be: decrypting its encryption gives it back
    modulo [N]; only the bytes of 249 and more are not recovered. *)
Lemma compute_crypt_table :
  forallb (fun c => (compute_crypt (u8 (compute_crypt c E N)) D N =? c mod N) &&
                    (0 <=? compute_crypt c E N) && (compute_crypt c E N <? 256) &&
                    Bool.eqb (nz (compute_crypt c E N)) (nz (c mod N)))
    (seqZ 0 256) = true.
Proof. vm_compute. reflexivity. Qed.

Lemma compute_crypt_inv c :
  0 <= c < N ->
  compute_crypt (u8 (compute_crypt c E N)) D N = c /\ 0 <= compute_crypt c E N < 256 /\
  nz (compute_crypt c E N) = nz c.
Proof.
  intros Hc. pose proof compute_crypt_table as Ht. rewrite forallb_forall in Ht.
  specialize (Ht c). unfold N in Hc.
  assert (In c (seqZ 0 256)) as Hin by (apply list_elem_of_In, elem_of_seqZ; lia).
  specialize (Ht Hin). rewrite !andb_true_iff, Z.eqb_eq, Z.leb_le, Z.ltb_lt in Ht.
  destruct Ht as [[[H1 H2] H3] H4%eqb_prop].
  assert (c mod N = c) as Hm by (apply Z.mod_small; unfold N; lia).
  rewrite Hm in *. done.
Qed.

Lemma crypt_pairwise po :
  pairwise (crypt_ po) (fun a b => (compute_crypt (u8 a) po N, compute_crypt (u8 b) po N, 0)).
Proof.
  intros pre a b l. unfold crypt_. rewrite Nat2Z.id.
  replace (Z.to_nat (Z.of_nat (length pre) + 1)) with (length pre + 1)%nat by lia.
  rewrite <- (Nat.add_0_r (length pre)) at 2.
  rewrite insert_app_r. cbn [insert list_insert]. rewrite insert_app_r. done.
Qed.

(** Decrypting an encrypted message gives it back when each of its bytes is
    below the modulus 249, wherever its first NUL is. *)
Theorem decrypt_encrypt h :
  msg_ok h -> Forall (fun b => b < N) (msg h) ->
  fst (decrypt (fst (encrypt h))) = h.
Proof.
  intros Hm Hn. assert (Forall (fun b => 0 <= b < N) (msg h)) as Hb.
  { destruct Hm as [_ Hm]. apply Forall_forall. rewrite Forall_forall in *. intros b Hin.
    specialize (Hm b Hin). specialize (Hn b Hin). lia. }
  unfold encrypt, encrypt_. rewrite (computer_internal_pairs h _ _ (crypt_pairwise E) Hm). cbn [fst].
  set (ge := fun a b => (compute_crypt (u8 a) E N, compute_crypt (u8 b) E N, 0)).
  set (gd := fun a b => (compute_crypt (u8 a) D N, compute_crypt (u8 b) D N, 0)).
  assert (forall l acc acc', Forall (fun b => 0 <= b < N) l ->
    length (fst (pairs_loop ge l acc)) = length l /\
    Forall (fun b => 0 <= b < 256) (fst (pairs_loop ge l acc)) /\
    fst (pairs_loop gd (fst (pairs_loop ge l acc)) acc') = l) as Hl.
  { induction l as [l IH] using (induction_ltof1 _ (@length Z)); unfold ltof in IH.
    intros acc acc' Hl. destruct l as [|a [|b l]].
    { done. }
    { split; [done|]. split; [|done]. eapply Forall_impl; [exact Hl|]. unfold N. simpl. lia. }
    apply Forall_cons in Hl as [Ha Hl]. apply Forall_cons in Hl as [Hb' Hl].
    cbn [pairs_loop]. destruct (nz a) eqn:Ea.
    - destruct (compute_crypt_inv a Ha) as (Hda & Hra & Hza).
      destruct (compute_crypt_inv b Hb') as (Hdb & Hrb & _).
      assert (u8 a = a) as Hua by (apply uN_small; unfold N in *; lia).
      assert (u8 b = b) as Hub by (apply uN_small; unfold N in *; lia).
      destruct (IH l ltac:(simpl; lia) (carry_around_add acc (snd (ge a b)))
                  (carry_around_add acc' 0) Hl) as (IH1 & IH2 & IH3).
      destruct (pairs_loop ge l _) as [l1 acc1]. unfold ge. cbn [fst snd] in *. rewrite Hua, Hub.
      cbn [pairs_loop length]. rewrite Hza, Ea.
      split; [by rewrite IH1|]. split; [constructor; [exact Hra|constructor; [exact Hrb|exact IH2]]|].
      change (snd (gd (compute_crypt a E N) (compute_crypt b E N))) with 0.
      destruct (pairs_loop gd l1 _) as [l2 acc2].
      unfold gd. cbn [fst snd] in *. by rewrite Hda, Hdb, IH3.
    - cbn [fst]. split; [done|]. split.
      { unfold N in *. constructor; [lia|]. constructor; [lia|]. eapply Forall_impl; [exact Hl|]. simpl. lia. }
      cbn [pairs_loop]. by rewrite Ea. }
  destruct (Hl (msg h) 0 0 Hb) as (H1 & H2 & H3).
  unfold decrypt, decrypt_.
  rewrite (computer_internal_pairs _ _ _ (crypt_pairwise D)).
  2: { split; cbn [set_msg msg]; [rewrite H1; apply Hm|done]. }
  cbn [fst set_msg msg]. fold gd. rewrite H3. by destruct h.
Qed.

(** ** The properties on an example *)

(** The packet of [rhdr_whitetest_run], with the message [abcde]. *)
Definition hdr_abcde : RHdr := RHDR_MSG_SET (FLAG_SET RHDR_INIT CHK) [97; 98; 99; 100; 101; 0] 6.

Lemma hdr_abcde_ok : msg_ok hdr_abcde.
Proof. split; [vm_compute; reflexivity|]. apply (bool_decide_unpack _). vm_compute. exact I. Qed.

Lemma rhdr_computer_chksum_spec_witness :
  (65535 - rhdr_computer_chksum hdr_abcde) mod 65535 = (25185 + 25699 + 101) mod 65535.
Proof. apply (rhdr_computer_chksum_spec hdr_abcde hdr_abcde_ok). Defined.

Lemma decrypt_encrypt_witness : fst (decrypt (fst (encrypt hdr_abcde))) = hdr_abcde.
Proof.
  apply (decrypt_encrypt hdr_abcde hdr_abcde_ok).
  apply (bool_decide_unpack _). vm_compute. exact I.
Defined.
