(* ===== verification/RProcess.v ===== *)
(** * The server's side of the reliable UDP protocol
    ([2.0.ReliableUDP/RQueue.h], [RState.h], [RProcess.h])

    A connection keeps the packets that the server sent (MYS) and received (HIS).
    [rprocess_request] handles the last packet of HIS: it appends the next packet
    of the file to MYS, repeats the last one, or drops the request. *)

From S2P Require Import Prelude RHdr.

(** ** RQueue.h

    A tail queue of entries is the list of their packets. *)

Abbreviation RHead := (list RHdr).

(** [entry_puts]. *)
Definition entry_puts (e : RHdr) (m : list Z) : RHdr := RHDR_MSG_SET e m (Z.of_nat (length m)).

(** [rhead_append]: the queue with the new entry at its tail. *)
Definition rhead_append (head : RHead) : RHead :=
  let e := RHDR_INIT in
  let e := match last head with
    | None => set_SEQN 1 e
    | Some l => set_SEQN (u16 (SEQN l + 1)) e
    end in
  head ++ [e].

(** [rhead_peak_entry] and [rhead_peak]. *)
Definition rhead_peak (head : RHead) : option RHdr := last head.

(** The tail entry and the one before it. *)
Definition tail_prev (head : RHead) : option RHdr :=
  match rev head with _ :: p :: _ => Some p | _ => None end.

(** [rhead_fix_seq]. *)
Definition rhead_fix_seq (head : RHead) : ub RHead :=
  tl ← deref (last head);
  prev ← deref (tail_prev head);
  Ok (if negb (SEQN tl =? SEQN prev + 1)
      then removelast head ++ [set_SEQN (u16 (SEQN prev + 1)) tl] else head).

(** [rhead_check_seq]. *)
Definition rhead_check_seq (head : RHead) : ub bool :=
  tl ← deref (last head);
  Ok (if FLAG_CHECK tl NAK then true else
      match tail_prev head with
      | None => true
      | Some prev => (SEQN tl =? SEQN prev + 1) && (ACKN tl =? ACKN prev + 1)
      end).

(** The loop of [rhead_destroy_n_to_last], on the queue from its tail. *)
Fixpoint destroy_n_loop (n : Z) (rhead : list RHdr) : list RHdr :=
  match rhead with
  | [] => []
  | var :: rest =>
    if SEQN var <? n then rhead
    else if n <? SEQN var then destroy_n_loop n rest
    else var :: destroy_n_loop n rest
  end.

(** [rhead_destroy_n_to_last]. *)
Definition rhead_destroy_n_to_last (head : RHead) (n : Z) : RHead :=
  rev (destroy_n_loop n (rev head)).

(** ** RState.h

    [curr] and [request] point to entries: they are the positions in MYS and in
    HIS. *)

Record RState := MkRState {
  MYS : RHead; HIS : RHead; curr : option nat; request : option nat;
  naks : Z; ack : Z; seq : Z; chksum : bool }.

(** [RSTATE_INIT], on a structure whose [ack] is [a], which it does not set. *)
Definition RSTATE_INIT (a : Z) : RState := MkRState [] [] None None 0 a 1 false.

(** [rstate_destroy]: the entries are freed. *)
Definition rstate_destroy (s : RState) : RState := MkRState [] [] None None (naks s) 0 0 false.

Definition set_curr c s := MkRState (MYS s) (HIS s) c (request s) (naks s) (ack s) (seq s) (chksum s).
Definition set_request r s := MkRState (MYS s) (HIS s) (curr s) r (naks s) (ack s) (seq s) (chksum s).
Definition set_ackseq a q s := MkRState (MYS s) (HIS s) (curr s) (request s) (naks s) a q (chksum s).
Definition set_chksum c s := MkRState (MYS s) (HIS s) (curr s) (request s) (naks s) (ack s) (seq s) c.
Definition set_MYS m s := MkRState m (HIS s) (curr s) (request s) (naks s) (ack s) (seq s) (chksum s).
Definition set_HIS h s := MkRState (MYS s) h (curr s) (request s) (naks s) (ack s) (seq s) (chksum s).

(** ** Files

    What the code uses of the file system and of [stdio]. *)

Record files := Files { stat_ok : list Z -> bool; fopen_r : list Z -> option (list Z) }.
Record FILE := MkFILE { f_data : list Z; f_pos : Z; f_eof : bool }.

Definition fopen (fs : files) (fname : list Z) : option FILE :=
  (fun d => MkFILE d 0 false) <$> fopen_r fs fname.
(** [fseek(f, off, SEEK_SET)] fails for a negative offset. *)
Definition fseek (f : FILE) (off : Z) : FILE * Z :=
  if off <? 0 then (f, -1) else (MkFILE (f_data f) off false, 0).
(** [fread(p, 1, n, f)]: the bytes read. *)
Definition fread (f : FILE) (n : Z) : list Z :=
  take (Z.to_nat n) (drop (Z.to_nat (f_pos f)) (f_data f)).

(** ** RProcess.h *)

(** The bytes of a buffer before the first NUL. *)
Fixpoint c_bytes (l : list Z) : list Z :=
  match l with
  | [] => []
  | b :: l => if nz b then b :: c_bytes l else []
  end.

(** [set_fname]: the name, and whether the file exists. *)
Definition set_fname (fs : files) (m : list Z) : list Z * bool :=
  let fname := [46; 47] ++ take (Z.to_nat (MSG_SIZ - 2)) m in
  let fname := <[Z.to_nat (MSG_SIZ - 1) := 0]> fname in
  let fname := c_bytes fname in
  (fname, stat_ok fs fname).

Arguments set_fname : simpl never.

(** [memcmp(msg, EMPTY_BUF, MSG_SIZ) != 0]. *)
Definition not_empty_msg (h : RHdr) : bool := existsb nz (msg h).

(** The packet that an index points to, and a change of it. *)
Definition at_curr (s : RState) : option RHdr := i ← curr s; MYS s !! i.
Definition upd_curr (f : RHdr -> RHdr) (s : RState) : RState :=
  match curr s with Some i => set_MYS (alter f i (MYS s)) s | None => s end.

(** The tail of HIS, the packet [*hdr_p] of [rprocess_request]. *)
Definition upd_hdr (f : RHdr -> RHdr) (s : RState) : RState :=
  set_HIS (alter f (pred (length (HIS s))) (HIS s)) s.

(** [rhead_append] to MYS, with [curr] set to the new entry. *)
Definition append_curr (s : RState) : RState :=
  set_curr (Some (length (MYS s))) (set_MYS (rhead_append (MYS s)) s).

Definition with_chksum (h : RHdr) : RHdr :=
  let h := FLAG_SET h CHK in set_CHKS (rhdr_computer_chksum h) h.

(** The ends of [rprocess_request], by their labels. *)
Definition WORSE_CHK (s : RState) : ub (RState * Z) := Ok (s, 3).
Definition BAD_CHK (s : RState) : ub (RState * Z) := Ok (s, 2).
Definition RET_PKT (s : RState) : ub (RState * Z) :=
  if curr s is Some _ then Ok (s, 1) else WORSE_CHK s.
Definition SND_PKT (s : RState) : ub (RState * Z) :=
  let s :=
    match at_curr s with
    | Some c => if chksum s && negb (FLAG_VALIDATE c CHK) then upd_curr with_chksum s else s
    | None => s
    end in
  RET_PKT s.
Definition INVALID_NAK (h : RHdr) (s : RState) : ub (RState * Z) :=
  if FLAG_VALIDATE h NAK then SND_PKT s
  else if curr s is Some _ then BAD_CHK s else WORSE_CHK s.

Definition bump (s : RState) : RState := set_ackseq (u16 (ack s + 1)) (u16 (seq s + 1)) s.

Section RProcess.
Context (fs : files).

(** The branch of a GET. *)
Definition process_get (h : RHdr) (s : RState) : ub (RState * Z) :=
  let '(fname, ok) := set_fname fs (msg h) in
  if negb ok then Ok (s, 0) else
  match fopen fs fname with
  | None => Ok (s, 0)
  | Some resource =>
    let s := append_curr s in
    let s := upd_curr (fun e => FLAG_SET e DAT) s in
    let s := upd_curr (fun e => set_msg (memcpy (msg e) (fread resource MSG_SIZ)
                                   (Z.of_nat (length (fread resource MSG_SIZ)))) e) s in
    let s := set_request (Some (pred (length (HIS s)))) s in
    SND_PKT (bump s)
  end.

(** The branch of an ACK of data. *)
Definition process_ack (s : RState) : ub (RState * Z) :=
  req ← deref (r ← request s; HIS s !! r);
  let '(fname, ok) := set_fname fs (msg req) in
  if negb ok then Ok (s, 0) else
  match fopen fs fname with
  | None => Ok (s, 0)
  | Some resource =>
    let s := append_curr s in
    let resource := fst (fseek resource (ack s * MSG_SIZ)) in
    if f_eof resource then
      SND_PKT (bump (upd_curr (fun e => FLAG_SET e FIN) s))
    else
      let s := upd_curr (fun e => FLAG_SET e DAT) s in
      let read := fread resource MSG_SIZ in
      let s := upd_curr (fun e => set_msg (memcpy (msg e) read (Z.of_nat (length read))) e) s in
      if Z.of_nat (length read) =? 0 then
        SND_PKT (bump (upd_curr (fun e => FLAG_SET (FLAG_VERSION_INIT e) FIN) s))
      else SND_PKT (bump s)
  end.

(** The branch of an ACK of the end. *)
Definition process_fin (h : RHdr) (s : RState) : RState :=
  let s := append_curr s in
  let s := upd_curr (fun e => FLAG_SET (FLAG_SET e ACK) FIN) s in
  let s := if FLAG_CHECK h CHK then upd_curr with_chksum s else s in
  let s := if FLAG_CHECK h ENC then upd_curr (fun e => fst (encrypt (FLAG_SET e ENC))) s else s in
  let s := upd_curr (set_ACKN (seq s)) s in
  let s := bump s in
  if chksum s then upd_curr with_chksum s else s.

(** What follows the checks of the checksum and of the sequence numbers. *)
Definition process_checked (h : RHdr) (s : RState) : ub (RState * Z) :=
  if (FLAG_CHECK h (Z.lor DAT NAK) || FLAG_VALIDATE h NAK) && bool_decide (is_Some (curr s)) then
    if ack s =? ACKN h then RET_PKT (set_ackseq (ack s) (u16 (seq s + 1)) s)
    else INVALID_NAK h s
  else if FLAG_CHECK h GET && bool_decide (curr s = None) then process_get h s
  else if FLAG_CHECK h (Z.lor ACK DAT) && bool_decide (is_Some (curr s)) then process_ack s
  else if FLAG_CHECK h (Z.lor ACK FIN) &&
    (if at_curr s is Some c then FLAG_CHECK c FIN || FLAG_CHECK c (Z.lor FIN CHK) else false)
  then Ok (process_fin h s, 0)
  else INVALID_NAK h s.

(** The check of the sequence numbers. *)
Definition process_seq (h : RHdr) (s : RState) : ub (RState * Z) :=
  if curr s is Some _ then
    if negb (FLAG_VALIDATE h NAK) && negb ((SEQN h =? seq s) && (ACKN h =? ack s))
    then RET_PKT s else process_checked h s
  else
    if negb ((SEQN h =? 1) && (ACKN h =? 0)) then Ok (s, 0) else process_checked h s.

(** [rprocess_request]: 0 is [false], 1 is [true]. *)
Definition rprocess_request (s : RState) : ub (RState * Z) :=
  let s := set_curr (match MYS s with [] => None | _ => Some (pred (length (MYS s))) end) s in
  let s := upd_hdr (fun h => convert_bytes h true) s in
  h ← deref (last (HIS s));
  if negb (FLAG_CONFIRM h) then INVALID_NAK h s else
  if bool_decide (is_Some (curr s)) && not_empty_msg h then BAD_CHK s else
  if FLAG_VALIDATE h CHK || chksum s then
    if curr s is Some _ then
      if negb (FLAG_VALIDATE h CHK) || negb (client_chksum h) then BAD_CHK s
      else process_seq (FLAG_UNSET h CHK) (upd_hdr (fun h => FLAG_UNSET h CHK) s)
    else
      let s := set_chksum true s in
      if negb (valid_chksum h) then WORSE_CHK s
      else process_seq (FLAG_UNSET h CHK) (upd_hdr (fun h => FLAG_UNSET h CHK) s)
  else process_seq h s.
End RProcess.

(** The part of [rhandle_port] that hands a full datagram over: it becomes the
    tail of HIS. *)
Definition receive (fs : files) (s : RState) (p : RHdr) : ub (RState * Z) :=
  rprocess_request fs (set_HIS (removelast (rhead_append (HIS s)) ++ [p]) s).

(** ** Packets of a file *)

(** The part of a file that packet number [i] (from 0) carries: the offset is
    computed from the 16-bit number of packets sent. *)
Definition chunk (d : list Z) (i : Z) : list Z :=
  take (Z.to_nat MSG_SIZ) (drop (Z.to_nat (u16 i * MSG_SIZ)) d).
Definition pad (c : list Z) : list Z := memcpy (zeros MSG_SIZ) c (Z.of_nat (length c)).

(** The flags of a packet, up to the one for the checksum. *)
Definition has_flags (e : RHdr) (f : Z) : Prop :=
  FLGV e = Z.lor f R_VERSION \/ FLGV e = Z.lor (Z.lor f CHK) R_VERSION.

Inductive kind := DATA | END | LAST.
Definition flags_of (k : kind) : Z :=
  match k with DATA => DAT | END => FIN | LAST => Z.lor ACK FIN end.

(** Packet number [i] of the file [d]: data, its end, or the last packet. *)
Definition content_ok (d : list Z) (i : Z) (k : kind) (m : list Z) : Prop :=
  match k with
  | DATA => m = pad (chunk d i) /\ (i = 0 \/ chunk d i <> [])
  | END => m = zeros MSG_SIZ /\ chunk d i = []
  | LAST => m = zeros MSG_SIZ /\ 0 < i /\ chunk d (i - 1) = []
  end.
Definition packet_ok (d : list Z) (i : Z) (e : RHdr) : Prop :=
  SEQN e = u16 (i + 1) /\ fits e /\ (FLAG_VALIDATE e CHK = true -> valid_chksum e = true) /\
  exists k, has_flags e (flags_of k) /\ content_ok d i k (msg e).

(** The invariant of a connection: what was sent are the packets of the file that
    the first request names, in order. *)
Definition packets_ok (d : list Z) (l : list RHdr) : Prop :=
  forall i e, l !! i = Some e -> packet_ok d (Z.of_nat i) e.
Definition serves (fs : files) (s : RState) (d : list Z) : Prop :=
  exists r req, request s = Some r /\ HIS s !! r = Some req /\
    snd (set_fname fs (msg req)) = true /\
    fopen_r fs (fst (set_fname fs (msg req))) = Some d.
Definition conn_ok (fs : files) (s : RState) : Prop :=
  ack s = u16 (Z.of_nat (length (MYS s))) /\ 0 <= seq s < 2 ^ 16 /\
  (MYS s <> [] -> exists d, serves fs s d /\ packets_ok d (MYS s)).

(** ** Queues *)

Lemma removelast_append (l : RHead) : removelast (rhead_append l) = l.
Proof. apply removelast_last. Qed.

Lemma receive_eq fs s p : receive fs s p = rprocess_request fs (set_HIS (HIS s ++ [p]) s).
Proof. unfold receive. by rewrite removelast_append. Qed.

(** The new entry of [rhead_append]. *)
Definition new_entry (l : RHead) : RHdr :=
  match last l with
  | None => set_SEQN 1 RHDR_INIT
  | Some e => set_SEQN (u16 (SEQN e + 1)) RHDR_INIT
  end.

Lemma rhead_append_eq l : rhead_append l = l ++ [new_entry l].
Proof. unfold rhead_append, new_entry. by destruct (last l). Qed.

Lemma packets_ok_last d l e :
  packets_ok d l -> last l = Some e -> packet_ok d (Z.of_nat (length l) - 1) e.
Proof.
  intros Hp Hl. rewrite last_lookup in Hl. pose proof (lookup_lt_Some _ _ _ Hl).
  replace (Z.of_nat (length l) - 1) with (Z.of_nat (pred (length l))) by lia. by apply Hp.
Qed.

Lemma new_entry_SEQN d l : packets_ok d l -> SEQN (new_entry l) = u16 (Z.of_nat (length l) + 1).
Proof.
  intros Hp. unfold new_entry. destruct (last l) as [e|] eqn:Hl.
  - destruct (packets_ok_last d l e Hp Hl) as [Hs _]. cbn [set_SEQN SEQN]. rewrite Hs, uN_add_l.
    f_equal. lia.
  - apply last_None in Hl as ->. done.
Qed.

Lemma new_entry_fields l :
  FLGV (new_entry l) = R_VERSION /\ msg (new_entry l) = zeros MSG_SIZ.
Proof. unfold new_entry. by destruct (last l). Qed.

Lemma new_entry_fits l : fits (new_entry l).
Proof.
  unfold fits, new_entry. destruct (last l) as [e|]; cbn.
  - pose proof (uN_bounds 16 ltac:(lia) (SEQN e + 1)). repeat split; lia || apply H || done.
  - done.
Qed.

(** A state whose MYS is [l] with [curr] at the entry [e] behind it. *)
Definition snoc (l : list RHdr) (e : RHdr) (s : RState) : RState :=
  set_curr (Some (length l)) (set_MYS (l ++ [e]) s).

Lemma append_curr_eq s : append_curr s = snoc (MYS s) (new_entry (MYS s)) s.
Proof. unfold append_curr, snoc. by rewrite rhead_append_eq. Qed.

Lemma upd_curr_snoc f l e s : upd_curr f (snoc l e s) = snoc l (f e) s.
Proof.
  assert (alter f (length l) (l ++ [e]) = l ++ [f e]) as Ha.
  { rewrite alter_app_r_alt by lia. by rewrite Nat.sub_diag. }
  unfold upd_curr. change (curr (snoc l e s)) with (Some (length l)).
  change (MYS (snoc l e s)) with (l ++ [e]). cbv beta iota. rewrite Ha. done.
Qed.

Lemma at_curr_snoc l e s : at_curr (snoc l e s) = Some e.
Proof. unfold at_curr, snoc. simpl. by rewrite list_lookup_middle. Qed.

Lemma packets_ok_snoc d l e :
  packets_ok d l -> packet_ok d (Z.of_nat (length l)) e -> packets_ok d (l ++ [e]).
Proof.
  intros Hl He i e' Hi. apply lookup_app_Some in Hi as [Hi|[Hlen Hi]]; [by apply Hl|].
  destruct (i - length l)%nat eqn:En; [|done]. injection Hi as <-.
  by replace i with (length l) by lia.
Qed.

Lemma packets_ok_app d l l' : packets_ok d (l ++ l') -> packets_ok d l.
Proof. intros Hp i e Hi. apply Hp. by apply lookup_app_l_Some. Qed.

(** ** Flags and checksums *)

Lemma chksum_msg h h' : msg h = msg h' -> rhdr_computer_chksum h = rhdr_computer_chksum h'.
Proof.
  intros Hm. unfold rhdr_computer_chksum, rhdr_computer_internal. rewrite Hm.
  by destruct (computer_loop _ _ _ _ _).
Qed.

Lemma with_chksum_ok d i e :
  packet_ok d i e -> packet_ok d i (with_chksum e).
Proof.
  intros (Hs & (F1 & F2 & F3 & F4) & _ & k & Hf & Hc). split; [done|]. split; [|split].
  - split; [done|]. split; [done|]. split; [apply rhdr_computer_chksum_bounds|].
    cbn [with_chksum set_CHKS FLGV FLAG_SET set_FLGV]. by destruct Hf as [-> | ->]; destruct k.
  - intros Hv. unfold valid_chksum. rewrite Hv. simpl.
    rewrite (chksum_msg (with_chksum e) (FLAG_SET e CHK)) by done. cbn [with_chksum set_CHKS CHKS].
    by rewrite Z.eqb_refl.
  - exists k. split; [|exact Hc]. right. cbn [with_chksum set_CHKS FLGV FLAG_SET set_FLGV].
    by destruct Hf as [-> | ->]; destruct k.
Qed.

(** ** The invariant *)

Lemma packets_ok_alter d f n l :
  (forall i e, packet_ok d i e -> packet_ok d i (f e)) -> packets_ok d l -> packets_ok d (alter f n l).
Proof.
  intros Hf Hl i e Hi. rewrite list_lookup_alter in Hi. case_decide as Hn; [subst n|by apply Hl].
  apply fmap_Some in Hi as (e0 & He & ->). by apply Hf, Hl.
Qed.

Section Invariant.
Context (fs : files).

Lemma conn_ok_snoc s d e :
  ack s = u16 (Z.of_nat (length (MYS s))) -> serves fs s d -> packets_ok d (MYS s) ->
  packet_ok d (Z.of_nat (length (MYS s))) e -> conn_ok fs (bump (snoc (MYS s) e s)).
Proof.
  intros Ha Hs Hp He. split; [|split]; cbn.
  - rewrite Ha, uN_add_l, length_app. f_equal. simpl. lia.
  - apply uN_bounds. lia.
  - intros _. exists d. split; [exact Hs|]. by apply packets_ok_snoc.
Qed.

Lemma SND_PKT_ok s : conn_ok fs s -> exists s' rc, SND_PKT s = Ok (s', rc) /\ conn_ok fs s'.
Proof.
  intros (Ha & Hq & Hm). unfold SND_PKT.
  set (s1 := match at_curr s with Some c => _ | None => s end).
  assert (conn_ok fs s1) as H1.
  { unfold s1. destruct (at_curr s); [|done]. case_if; [|done]. unfold upd_curr.
    destruct (curr s); [|done]. split; [|split]; cbn; [by rewrite length_alter|done|].
    intros Hne. destruct Hm as (d & Hs & Hp).
    { intros Hn. apply Hne. by rewrite Hn. }
    exists d. split; [exact Hs|]. apply packets_ok_alter; [by apply with_chksum_ok|done]. }
  unfold RET_PKT, WORSE_CHK. destruct (curr s1); eauto.
Qed.

Lemma INVALID_NAK_ok h s : conn_ok fs s -> exists s' rc, INVALID_NAK h s = Ok (s', rc) /\ conn_ok fs s'.
Proof.
  intros Hs. unfold INVALID_NAK. case_if; [by apply SND_PKT_ok|].
  unfold BAD_CHK, WORSE_CHK. destruct (curr s); eauto.
Qed.

(** The packet number [i] of a file as the branches of a GET and of an ACK of
    data fill it in. *)
Definition data_packet (d : list Z) (l : list RHdr) : RHdr :=
  set_msg (pad (chunk d (Z.of_nat (length l)))) (FLAG_SET (new_entry l) DAT).
Definition end_packet (l : list RHdr) : RHdr :=
  FLAG_SET (FLAG_VERSION_INIT (set_msg (pad []) (FLAG_SET (new_entry l) DAT))) FIN.

Lemma data_packet_ok d l :
  packets_ok d l -> l = [] \/ chunk d (Z.of_nat (length l)) <> [] ->
  packet_ok d (Z.of_nat (length l)) (data_packet d l).
Proof.
  intros Hl Hd. destruct (new_entry_fields l) as [Hf Hm]. unfold data_packet. split; [|split]; cbn.
  - by apply (new_entry_SEQN d).
  - destruct (new_entry_fits l) as (F1 & F2 & F3 & F4). unfold fits; cbn. by rewrite Hf.
  - split; [by unfold FLAG_VALIDATE, FLAG_GET; cbn; rewrite Hf|].
    exists DATA. split; [left; cbn; by rewrite Hf|]. split; [done|].
    destruct Hd as [->|Hd]; [by left|by right].
Qed.

Lemma end_packet_ok d l :
  packets_ok d l -> chunk d (Z.of_nat (length l)) = [] ->
  packet_ok d (Z.of_nat (length l)) (end_packet l).
Proof.
  intros Hl Hd. unfold end_packet. split; cbn; [by apply (new_entry_SEQN d)|].
  split; [by destruct (new_entry_fits l) as (F1 & F2 & F3 & F4)|]. split; [done|]. exists END. split; [by left|]. by split.
Qed.

Lemma process_get_eq h s d :
  MYS s = [] -> snd (set_fname fs (msg h)) = true ->
  fopen_r fs (fst (set_fname fs (msg h))) = Some d ->
  process_get fs h s = SND_PKT (bump (set_request (Some (pred (length (HIS s))))
    (snoc (MYS s) (data_packet d []) s))).
Proof.
  intros Hm Hok Hd. unfold process_get. destruct (set_fname fs (msg h)) as [f ok]. simpl in *. subst ok.
  cbn [negb]. unfold fopen. rewrite Hd. cbn [fmap option_fmap option_map].
  rewrite append_curr_eq, Hm, !upd_curr_snoc. do 4 f_equal.
Qed.

Lemma process_ack_eq s r req d :
  ack s = u16 (Z.of_nat (length (MYS s))) ->
  request s = Some r -> HIS s !! r = Some req -> snd (set_fname fs (msg req)) = true ->
  fopen_r fs (fst (set_fname fs (msg req))) = Some d ->
  process_ack fs s =
  SND_PKT (bump (snoc (MYS s)
    (if bool_decide (chunk d (Z.of_nat (length (MYS s))) = []) then end_packet (MYS s)
     else data_packet d (MYS s)) s)).
Proof.
  intros Ha Hr Hreq Hok Hd. unfold process_ack.
  assert (deref (r ← request s; HIS s !! r) = Ok req) as -> by (by rewrite Hr; simpl; rewrite Hreq).
  cbn [mbind ub_bind].
  destruct (set_fname fs (msg req)) as [f ok]. cbn [fst snd] in Hok, Hd. subst ok.
  cbn [negb]. unfold fopen. rewrite Hd. cbn [fmap option_fmap option_map].
  assert (0 <= ack s) as Hpos by (rewrite Ha; apply uN_bounds; lia).
  rewrite append_curr_eq. unfold fseek. cbn [ack snoc set_curr set_MYS].
  rewrite (proj2 (Z.ltb_ge (ack s * MSG_SIZ) 0)) by (unfold MSG_SIZ; lia).
  cbn [fst f_eof]. rewrite !upd_curr_snoc. unfold fread. cbn [f_pos f_data].
  rewrite Ha. fold (chunk d (Z.of_nat (length (MYS s)))).
  case_bool_decide as Hc.
  - rewrite Hc. unfold end_packet, pad. cbn [msg FLAG_SET set_FLGV length].
    by rewrite (proj2 (new_entry_fields _)).
  - destruct (chunk d _) as [|b c] eqn:Eb; [done|].
    rewrite (proj2 (Z.eqb_neq _ 0)) by (simpl; lia). unfold data_packet, pad. rewrite Eb.
    cbn [msg FLAG_SET set_FLGV]. by rewrite (proj2 (new_entry_fields _)).
Qed.

(** What holds when the checks are over. *)
Definition pre (s : RState) : Prop :=
  conn_ok fs s /\ HIS s <> [] /\
  curr s = match MYS s with [] => None | _ => Some (pred (length (MYS s))) end.

Lemma process_checked_ok h s :
  pre s -> last (HIS s) = Some h ->
  exists s' rc, process_checked fs h s = Ok (s', rc) /\ conn_ok fs s'.
Proof.
  intros (Hc & _ & Hcurr) Hh. unfold process_checked.
  case_if.
  { case_if; [|by apply INVALID_NAK_ok]. unfold RET_PKT, WORSE_CHK. destruct (curr _) eqn:Ec; do 2 eexists; (split; [done|]).
    all: destruct Hc as (Ha & Hq & Hm); split; [exact Ha|]; split; [apply uN_bounds; lia|exact Hm]. }
  destruct Hc as (Ha & Hq & Hm). case_if; cbool.
  { destruct E0 as [_ Hn]. assert (MYS s = []) as Hmys by (destruct (MYS s); congruence).
    destruct (snd (set_fname fs (msg h))) eqn:Eok.
    2: { unfold process_get. rewrite (surjective_pairing (set_fname fs (msg h))), Eok. eexists _, _. split; [done|by split; [|split]]. }
    destruct (fopen_r fs (fst (set_fname fs (msg h)))) as [d|] eqn:Ed.
    2: { unfold process_get, fopen. rewrite (surjective_pairing (set_fname fs (msg h))), Eok, Ed.
         eexists _, _. split; [done|by split; [|split]]. }
    rewrite (process_get_eq h s d) by done. apply SND_PKT_ok.
    set (s1 := set_request (Some (pred (length (HIS s)))) s).
    apply (conn_ok_snoc s1 d); [exact Ha| | |].
    - exists (pred (length (HIS s))), h. rewrite <- last_lookup. done.
    - cbn. rewrite Hmys. by intros i e Hi.
    - cbn. rewrite Hmys. apply (data_packet_ok d []); [by intros i e Hi|by left]. }
  case_if; cbool.
  { destruct E1 as [_ [i Hi]]. assert (MYS s <> []) as Hne by (intros Hn; rewrite Hn in Hcurr; congruence).
    destruct (Hm Hne) as (d & Hs & Hp). pose proof Hs as (r & req & Hr & Hreq & Hok & Hd).
    rewrite (process_ack_eq s r req d) by done. apply SND_PKT_ok. apply (conn_ok_snoc s d); [done..|].
    case_bool_decide; [by apply end_packet_ok|apply data_packet_ok; [done|by right]]. }
  case_if; [|by apply INVALID_NAK_ok]. cbool. destruct E2 as [Hf Hl].
  assert (FLAG_CHECK h CHK = false /\ FLAG_CHECK h ENC = false) as [Hck Hen].
  { unfold FLAG_CHECK in *. apply Z.eqb_eq in Hf. by rewrite Hf. }
  unfold process_fin. rewrite Hck, Hen. do 2 eexists. split; [done|].
  destruct (at_curr s) as [c|] eqn:Eat; [|done].
  assert (last (MYS s) = Some c) as Hlast.
  { unfold at_curr in Eat. rewrite Hcurr in Eat. rewrite last_lookup. by destruct (MYS s). }
  assert (MYS s <> []) as Hne by (intros Hn; by rewrite Hn in Hlast).
  destruct (Hm Hne) as (d & Hs & Hp).
  destruct (packets_ok_last d _ c Hp Hlast) as (_ & _ & _ & k & Hk & Hck').
  assert (chunk d (Z.of_nat (length (MYS s)) - 1) = []) as Hend.
  { unfold FLAG_CHECK, FLAG_GET, has_flags in *. destruct k; [|apply Hck'|].
    - exfalso. destruct Hk as [Hk|Hk]; rewrite Hk in Hl; vm_compute in Hl; discriminate Hl.
    - exfalso. destruct Hk as [Hk|Hk]; rewrite Hk in Hl; vm_compute in Hl; discriminate Hl. }
  rewrite append_curr_eq, !upd_curr_snoc.
  set (e := set_ACKN _ _).
  assert (packet_ok d (Z.of_nat (length (MYS s))) e) as He.
  { destruct (new_entry_fields (MYS s)) as [Hf1 Hm1]. split; [cbn; by apply (new_entry_SEQN d)|].
    split. { destruct (new_entry_fits (MYS s)) as (F1 & F2 & F3 & F4). unfold e, fits; cbn. by rewrite Hf1. }
    split; [by unfold FLAG_VALIDATE, FLAG_GET; cbn; rewrite Hf1|].
    exists LAST. split; [left; cbn; by rewrite Hf1|]. split; [done|]. split; [|done].
    destruct (MYS s); simpl; [done|lia]. }
  pose proof (conn_ok_snoc s d e Ha Hs Hp He) as Hok.
  case_if; [|exact Hok]. change (bump (snoc (MYS s) e s)) with (snoc (MYS s) e (bump s)).
  rewrite upd_curr_snoc. apply (conn_ok_snoc s d (with_chksum e)); [done..|]. by apply with_chksum_ok.
Qed.

Lemma process_seq_ok h s :
  pre s -> last (HIS s) = Some h ->
  exists s' rc, process_seq fs h s = Ok (s', rc) /\ conn_ok fs s'.
Proof.
  intros Hpre Hh. unfold process_seq, RET_PKT, WORSE_CHK.
  destruct (curr s) eqn:E; (case_if; [|by apply process_checked_ok]).
  - destruct Hpre. eauto.
  - destruct Hpre. eauto.
Qed.
End Invariant.

Lemma conn_ok_HIS fs s q : conn_ok fs s -> conn_ok fs (set_HIS (HIS s ++ [q]) s).
Proof.
  intros (Ha & Hq & Hm). split; [exact Ha|]. split; [exact Hq|]. intros Hne. destruct (Hm Hne) as (d & (r & req & Hr & Hreq & Hs) & Hp).
  exists d. split; [|exact Hp]. exists r, req. split; [exact Hr|]. split; [|exact Hs]. by apply lookup_app_l_Some.
Qed.

Lemma alter_last {A} (f : A -> A) l x : alter f (pred (length (l ++ [x]))) (l ++ [x]) = l ++ [f x].
Proof.
  rewrite length_app. simpl length. replace (pred (length l + 1)) with (length l) by lia.
  rewrite alter_app_r_alt by lia. by rewrite Nat.sub_diag.
Qed.

Lemma upd_hdr_snoc f l q s : upd_hdr f (set_HIS (l ++ [q]) s) = set_HIS (l ++ [f q]) s.
Proof.
  unfold upd_hdr. change (HIS (set_HIS (l ++ [q]) s)) with (l ++ [q]). by rewrite alter_last.
Qed.

(** The state of [rprocess_request] after its first lines, when the packet [h]
    has its numbers in the order of the machine. *)
Definition entered (s : RState) (h : RHdr) : RState :=
  set_HIS (HIS s ++ [h])
    (set_curr (match MYS s with [] => None | _ => Some (pred (length (MYS s))) end) s).

Lemma upd_hdr_entered f s q : upd_hdr f (entered s q) = entered s (f q).
Proof. unfold entered. by rewrite upd_hdr_snoc. Qed.

Lemma receive_entered fs s p :
  receive fs s p =
  let h := convert_bytes p true in
  let s1 := entered s h in
  let h' := FLAG_UNSET h CHK in
  let s' := entered s h' in
  if negb (FLAG_CONFIRM h) then INVALID_NAK h s1 else
  if bool_decide (is_Some (curr s1)) && not_empty_msg h then BAD_CHK s1 else
  if FLAG_VALIDATE h CHK || chksum s then
    if curr s1 is Some _ then
      if negb (FLAG_VALIDATE h CHK) || negb (client_chksum h) then BAD_CHK s1
      else process_seq fs h' s'
    else
      if negb (valid_chksum h) then WORSE_CHK (set_chksum true s1)
      else process_seq fs h' (set_chksum true s')
  else process_seq fs h s1.
Proof.
  rewrite receive_eq. unfold rprocess_request. cbv zeta.
  change (set_curr _ (set_HIS (HIS s ++ [p]) s)) with (entered s p).
  rewrite upd_hdr_entered.
  assert (deref (last (HIS (entered s (convert_bytes p true)))) = Ok (convert_bytes p true)) as ->
    by (unfold entered; cbn; by rewrite last_snoc).
  cbn [mbind ub_bind]. change (set_chksum true (entered s (convert_bytes p true)))
    with (entered (set_chksum true s) (convert_bytes p true)).
  rewrite !upd_hdr_entered. done.
Qed.

Lemma receive_ok fs s p :
  conn_ok fs s -> exists s' rc, receive fs s p = Ok (s', rc) /\ conn_ok fs s'.
Proof.
  intros Hs. rewrite receive_entered. cbv zeta.
  set (h := convert_bytes p true).
  assert (forall q c, conn_ok fs (entered s q) /\ conn_ok fs (set_chksum c (entered s q))) as He.
  { intros q c. split; exact (conn_ok_HIS fs s q Hs). }
  assert (forall q c, pre fs (entered s q) /\ pre fs (set_chksum c (entered s q))) as Hpre.
  { intros q c. split; (split; [apply (He q c)|split; [cbn; by destruct (HIS s)|done]]). }
  case_if; [apply INVALID_NAK_ok, (He h true)|].
  case_if; [do 2 eexists; split; [done|apply (He h true)]|].
  case_if.
  2: { apply process_seq_ok; [apply (Hpre h true)|]. cbn. by rewrite last_snoc. }
  destruct (curr (entered s h)).
  - case_if; [do 2 eexists; split; [done|apply (He h true)]|].
    apply process_seq_ok; [apply (Hpre _ true)|]. cbn. by rewrite last_snoc.
  - case_if; [do 2 eexists; split; [done|apply (He h true)]|].
    apply process_seq_ok; [apply (Hpre _ true)|]. cbn. by rewrite last_snoc.
Qed.

(** A connection that receives the datagrams [ps]. *)
Fixpoint receives (fs : files) (s : RState) (ps : list RHdr) : ub RState :=
  match ps with
  | [] => Ok s
  | p :: ps => '(s, _) ← receive fs s p; receives fs s ps
  end.

