(* ===== verification/RClient.v ===== *)
(** * The client of the reliable UDP protocol, and a whole transfer
    ([2.0.ReliableUDP/RClient.c])

    The loop of [main] sends the last packet of MYS, waits for the answer and
    appends the next packet.  With the option [-m] it throws packets away at random
    to exercise the recovery; the decisions are an input of the model.  The
    variables [encryption] and [xuberant] are never set, so their branches are
    left out. *)

From S2P Require Import Prelude RHdr RProcess.

(** The variables of [main]: the queues of [rstate], [track_seqn],
    [misbehaveD] and the bytes that went to the output file. *)
Record client := MkClient {
  c_MYS : RHead; c_HIS : RHead; track_seqn : Z; misbehaveD : bool; written : list Z }.

(** ** The output file *)

(** What the C library makes of a directive of a format, given behind its [%], when its argument is the
    [int] [MSG_SIZ]: the bytes that the directive takes of the format, and the text; [None] when the
    behaviour is undefined, as it is for a directive that takes another type. *)
Class Conversion := conversion : list Z -> option (nat * list Z).

Definition PERCENT := 37.

Section Printf.
Context `{cv : Conversion}.

(** [fprintf(req, fmt, MSG_SIZ)]: what is written.  [skip] counts the bytes of a directive that are
    still to be passed over, [arg] tells whether the argument is still there; there is no
    argument for a second directive. *)
Fixpoint printf_loop (fmt : list Z) (skip : nat) (arg : bool) : ub (list Z) :=
  match fmt, skip with
  | [], _ => Ok []
  | _ :: fmt, S skip => printf_loop fmt skip arg
  | b :: fmt, O =>
      if negb (b =? PERCENT) then out ← printf_loop fmt 0 arg; Ok (b :: out) else
      if (if head fmt is Some b then b =? PERCENT else false)
      then out ← printf_loop fmt 1 arg; Ok (PERCENT :: out) else
      match (if arg then conversion fmt else None) with
      | Some (n, text) => out ← printf_loop fmt n false; Ok (text ++ out)
      | None => UB wrong_type
      end
  end.

(** The format is the message of the last entry of a queue, up to the first NUL.  Behind a full message
    lies the [tqe_next] of the entry, which is NULL. *)
Definition fprintf_msg (m : list Z) : ub (list Z) := printf_loop (c_bytes (m ++ zeros 8)) 0 true.

Lemma printf_plain fmt arg : Forall (fun b => b <> PERCENT) fmt -> printf_loop fmt 0 arg = Ok fmt.
Proof.
  induction 1 as [|b l Hb Hl IH]; [done|]. cbn [printf_loop]. rewrite (proj2 (Z.eqb_neq _ _) Hb). cbn [negb].
  by rewrite IH.
Qed.
End Printf.

Section Loop.
Context `{cv : Conversion}.

Definition upd_last (f : RHdr -> RHdr) (l : RHead) : RHead := alter f (pred (length l)) l.

(** [strncpy(dst, src, n)] into [n] bytes. *)
Definition strncpy (src : list Z) (n : Z) : list Z :=
  let s := take (Z.to_nat n) (c_bytes src) in s ++ zeros (n - Z.of_nat (length s)).

(** The packet of the request: the name of the resource and GET. *)
Definition client_start (resource : list Z) : client :=
  let buf_str := strncpy resource MSG_SIZ in
  let mys := rhead_append [] in
  let mys := upd_last (fun e => entry_puts e (c_bytes buf_str)) mys in
  let mys := upd_last (fun e => FLAG_SET e GET) mys in
  MkClient mys [] 1 false [].

(** The first half of the loop: what is written to the socket. *)
Definition client_send (chksum : bool) (c : client) : client * option RHdr :=
  let mys := if chksum then upd_last with_chksum (c_MYS c) else c_MYS c in
  (MkClient mys (c_HIS c) (track_seqn c) (misbehaveD c) (written c),
   (fun e => convert_bytes e false) <$> last mys).

(** The label INVALID_NAK and the end of the loop. *)
Definition client_nak (c : client) (his : RHead) (mD : bool) : client * bool :=
  let mys := rhead_append (c_MYS c) in
  let mys := if mD then upd_last (fun e => FLAG_SET e DAT) mys else mys in
  let mys := upd_last (fun e => set_ACKN (track_seqn c) (FLAG_SET e NAK)) mys in
  let track := u16 (track_seqn c - 1) in
  (MkClient mys his (u16 (track + 1)) mD (written c), false).

(** The two branches that acknowledge, and the end of the loop with the output of the message. *)
Definition client_ack (c : client) (his : RHead) (m : list Z) (flag1 flag2 : Z) : ub (client * bool) :=
  let mys := rhead_append (c_MYS c) in
  let mys := upd_last (fun e => set_ACKN (track_seqn c) (FLAG_SET (FLAG_SET e flag1) flag2)) mys in
  out ← fprintf_msg m;
  Ok (MkClient mys his (u16 (track_seqn c + 1)) (misbehaveD c) (written c ++ out), false).

(** The second half of the loop, for the answer [p]: [misr] is the outcome of
    [rand() % 2].  The result tells whether the loop ends. *)
Definition client_recv (chksum misbehave misr : bool) (c : client) (p : RHdr) : ub (client * bool) :=
  let h := convert_bytes p true in
  if chksum && negb (valid_chksum h) then Ok (client_nak c (c_HIS c ++ [h]) (misbehaveD c)) else
  let h := FLAG_UNSET h CHK in
  let his := c_HIS c ++ [h] in
  if negb (FLAG_VALIDATE h FIN) && misbehave && (1 <? track_seqn c) && misr
  then Ok (client_nak c his true) else
  if FLAG_CHECK h (Z.lor FIN ACK) &&
     (if last (c_MYS c) is Some e then ACKN h =? SEQN e else false)
  then Ok (MkClient [] [] (track_seqn c) (misbehaveD c) (written c), true)
  else if FLAG_CHECK h FIN && (SEQN h =? track_seqn c) then client_ack c his (msg h) ACK FIN
  else if FLAG_CHECK h DAT && (SEQN h =? track_seqn c) then client_ack c his (msg h) ACK DAT
  else Ok (client_nak c his (misbehaveD c)).

(** One turn of the loop against a server with one connection, over a channel
    that loses nothing: the server answers with its current packet unless the
    request was dropped (the results 2 and 3). *)
Inductive turn := NoAnswer | Answer (c : client) (s : RState) (ends : bool).

Definition exchange (fs : files) (misbehave misr : bool) (c : client) (s : RState) : ub turn :=
  let '(c, p) := client_send false c in
  p ← deref p;
  '(s, rc) ← receive fs s p;
  match at_curr s with
  | Some e =>
    if (rc =? 2) || (rc =? 3) then Ok NoAnswer
    else '(c, ends) ← client_recv false misbehave misr c (convert_bytes e false);
         Ok (Answer c s ends)
  | None => Ok NoAnswer
  end.

(** The loop, for the decisions [ds]. *)
Fixpoint transfer (fs : files) (misbehave : bool) (ds : list bool) (c : client) (s : RState) : ub turn :=
  match ds with
  | [] => Ok (Answer c s false)
  | d :: ds =>
    t ← exchange fs misbehave d c s;
    match t with
    | Answer c s false => transfer fs misbehave ds c s
    | t => Ok t
    end
  end.

End Loop.

(** The directives of the argument 1464 without flags, width and precision. *)
#[export] Instance plain_conversion : Conversion := fun fmt =>
  match fmt with
  | b :: _ =>
      if (b =? 100) || (b =? 105) || (b =? 117) then Some (1%nat, [49; 52; 54; 52])
      else if b =? 111 then Some (1%nat, [50; 54; 55; 48])
      else if b =? 120 then Some (1%nat, [53; 98; 56])
      else if b =? 88 then Some (1%nat, [53; 66; 56])
      else if b =? 99 then Some (1%nat, [184])
      else None
  | [] => None
  end.

(** A small file is transferred in four turns; with two packets thrown away, in six. *)
Definition fs0 (d : list Z) : files :=
  Files (fun f => bool_decide (f = [46; 47; 97])) (fun f => if bool_decide (f = [46; 47; 97]) then Some d else None).

Definition outcome (t : ub turn) : option (bool * list Z) :=
  match t with Ok (Answer c _ ends) => Some (ends, written c) | _ => None end.

Example transfer_small :
  outcome (transfer (fs0 (replicate 1500 65)) true [false; true; true; false; false; false]
    (client_start [97]) (RSTATE_INIT 0)) = Some (true, replicate 1500 65).
Proof. vm_compute. reflexivity. Qed.

(** A message is a format: of the file [%d] the client writes the number 1464, of one with a NUL it drops
    what follows in the part, and with [%s] its behaviour is undefined. *)
Definition transferred (d : list Z) : option (bool * list Z) :=
  outcome (transfer (fs0 d) false [false; false; false] (client_start [97]) (RSTATE_INIT 0)).

Example transfer_directive :
  transferred [37; 100] = Some (true, [49; 52; 54; 52]) /\ transferred [65; 0; 66] = Some (true, [65]) /\
  transfer (fs0 [37; 115]) false [false; false; false] (client_start [97]) (RSTATE_INIT 0) = UB wrong_type.
Proof. vm_compute. done. Qed.

(** ** The server's answers without checksums *)

Lemma zeros_empty h : msg h = zeros MSG_SIZ -> not_empty_msg h = false.
Proof. intros Hm. unfold not_empty_msg. rewrite Hm. vm_compute. reflexivity. Qed.

(** Decides the condition of the outermost conditional, which has no variables. *)
Ltac eval_if :=
  match goal with
  | |- context [if ?b then _ else _] =>
    let v := eval vm_compute in b in
    match v with true => idtac | false => idtac end;
    change b with v; cbv iota
  end.

(** A packet of the client after its first: the flags [f], no message. *)
Definition plain (f : Z) (P : RHdr) : Prop :=
  FLGV P = Z.lor f R_VERSION /\ msg P = zeros MSG_SIZ /\ fits P.

Section Server.
Context (fs : files) (d : list Z).

(** A connection that has sent [k] packets, the last of them [Q]. *)
Record srv (s : RState) (k : Z) (Q : RHdr) : Prop := {
  srv_len : Z.of_nat (length (MYS s)) = k;
  srv_last : last (MYS s) = Some Q;
  srv_k : k < 2 ^ 16;
  srv_ack : ack s = k;
  srv_seq : 0 <= seq s < 2 ^ 16;
  srv_chk : chksum s = false;
  srv_serves : serves fs s d;
  srv_ok : packets_ok d (MYS s) }.

Lemma srv_curr s k Q P : srv s k Q -> curr (entered s P) = Some (pred (length (MYS s))).
Proof. intros H. unfold entered; cbn. pose proof (srv_last _ _ _ H). by destruct (MYS s). Qed.

Lemma srv_at s k Q P : srv s k Q -> at_curr (entered s P) = Some Q.
Proof.
  intros H. unfold at_curr. rewrite (srv_curr s k Q P H). cbn.
  rewrite <- last_lookup. apply (srv_last _ _ _ H).
Qed.

Lemma receive_plain s k Q P f b :
  srv s k Q -> f ∈ [Z.lor ACK DAT; NAK; Z.lor DAT NAK; Z.lor ACK FIN] -> plain f P ->
  receive fs s (convert_bytes P b) = process_seq fs P (entered s P).
Proof.
  intros H Hf (Hfl & Hm & Hfit). rewrite receive_entered. cbv zeta.
  rewrite convert_bytes_inv by done. rewrite zeros_empty, andb_false_r by done.
  rewrite (srv_chk _ _ _ H), orb_false_r.
  assert (FLAG_CONFIRM P = true /\ FLAG_VALIDATE P CHK = false) as [-> ->]; [|done].
  unfold FLAG_CONFIRM, FLAG_VALIDATE, FLAG_GET. rewrite Hfl.
  repeat (apply elem_of_cons in Hf as [->|Hf]; [done|]). by apply elem_of_nil in Hf.
Qed.

Lemma SND_PKT_plain s i : curr s = Some i -> chksum s = false -> SND_PKT s = Ok (s, 1).
Proof.
  intros Hi Hc. unfold SND_PKT. rewrite Hc. cbn [andb].
  replace (match at_curr s with Some _ => s | None => s end) with s by (by destruct (at_curr s)).
  unfold RET_PKT. by rewrite Hi.
Qed.

Lemma process_seq_plain s k Q P :
  srv s k Q -> SEQN P = seq s -> ACKN P = k -> process_seq fs P (entered s P) = process_checked fs P (entered s P).
Proof.
  intros H Hs Ha. unfold process_seq. rewrite (srv_curr s k Q P H).
  change (seq (entered s P)) with (seq s). change (ack (entered s P)) with (ack s).
  by rewrite Hs, Ha, (srv_ack _ _ _ H), !Z.eqb_refl, andb_false_r.
Qed.

(** The next packet of the file. *)
Definition next_packet (l : list RHdr) : RHdr :=
  if bool_decide (chunk d (Z.of_nat (length l)) = []) then end_packet l else data_packet d l.

Lemma serves_entered s P : serves fs s d -> serves fs (entered s P) d.
Proof.
  intros (r & req & Hr & Hreq & Hs). exists r, req. split; [exact Hr|]. split; [|exact Hs].
  by apply lookup_app_l_Some.
Qed.

Lemma srv_snoc s k Q P e :
  srv s k Q -> k + 1 < 2 ^ 16 -> packet_ok d k e -> srv (bump (snoc (MYS s) e (entered s P))) (k + 1) e.
Proof.
  intros H Hk He. pose proof (srv_len _ _ _ H). pose proof (srv_ack _ _ _ H) as Hack. split; cbn.
  - rewrite length_app. simpl. lia.
  - apply last_snoc.
  - lia.
  - rewrite Hack. apply uN_small; lia.
  - apply uN_bounds. lia.
  - apply (srv_chk _ _ _ H).
  - apply (serves_entered s P (srv_serves _ _ _ H)).
  - apply packets_ok_snoc; [apply (srv_ok _ _ _ H)|]. by rewrite H0.
Qed.

Lemma receive_ack s k Q P b :
  srv s k Q -> k + 1 < 2 ^ 16 -> plain (Z.lor ACK DAT) P -> SEQN P = seq s -> ACKN P = k ->
  let s' := bump (snoc (MYS s) (next_packet (MYS s)) (entered s P)) in
  receive fs s (convert_bytes P b) = Ok (s', 1) /\ srv s' (k + 1) (next_packet (MYS s)).
Proof.
  intros H Hk HP Hs Ha s'. rewrite (receive_plain s k Q P (Z.lor ACK DAT) b H ltac:(rewrite !elem_of_cons; tauto) HP).
  rewrite (process_seq_plain s k Q P H Hs Ha). destruct HP as (Hf & _ & _).
  unfold process_checked. rewrite (srv_curr s k Q P H).
  unfold FLAG_CHECK, FLAG_VALIDATE, FLAG_GET. rewrite Hf.
  rewrite (bool_decide_false (Some _ = None)) by done.
  rewrite (bool_decide_true (is_Some (Some _))) by eauto. do 3 eval_if.
  destruct (serves_entered s P (srv_serves _ _ _ H)) as (r & req & Hr & Hreq & Hok & Hd).
  pose proof (srv_len _ _ _ H) as Hlen. pose proof (srv_ack _ _ _ H) as Hack.
  rewrite (process_ack_eq fs (entered s P) r req d); [| |done..].
  2: { change (MYS (entered s P)) with (MYS s). rewrite Hlen, uN_small by lia. exact Hack. }
  change (MYS (entered s P)) with (MYS s). fold (next_packet (MYS s)). fold s'.
  split; [by apply (SND_PKT_plain s' (length (MYS s))); [|apply (srv_chk _ _ _ H)]|].
  apply (srv_snoc s k Q P); [done|lia|]. rewrite <- Hlen. unfold next_packet. case_bool_decide.
  - apply end_packet_ok; [apply (srv_ok _ _ _ H)|done].
  - apply data_packet_ok; [apply (srv_ok _ _ _ H)|by right].
Qed.

Lemma receive_nak s k Q P f b :
  srv s k Q -> f ∈ [NAK; Z.lor DAT NAK] -> plain f P -> ACKN P = k ->
  let s' := set_ackseq k (u16 (seq s + 1)) (entered s P) in
  receive fs s (convert_bytes P b) = Ok (s', 1) /\ srv s' k Q /\ at_curr s' = Some Q.
Proof.
  intros H Hin HP Ha s'. rewrite (receive_plain s k Q P f b H ltac:(rewrite !elem_of_cons, elem_of_nil in *; tauto) HP).
  destruct HP as (Hf & _ & _).
  assert (FLAG_VALIDATE P NAK = true) as Hn.
  { unfold FLAG_VALIDATE, FLAG_GET. rewrite Hf.
    repeat (apply elem_of_cons in Hin as [->|Hin]; [done|]). by apply elem_of_nil in Hin. }
  unfold process_seq. rewrite (srv_curr s k Q P H), Hn. cbn [negb andb].
  unfold process_checked. rewrite (srv_curr s k Q P H), Hn, orb_true_r.
  rewrite (bool_decide_true (is_Some (Some _))) by eauto. cbn [andb].
  change (ack (entered s P)) with (ack s). rewrite Ha, (srv_ack _ _ _ H), Z.eqb_refl.
  change (seq (entered s P)) with (seq s). fold s'.
  split; [|split].
  - unfold RET_PKT. change (curr s') with (curr (entered s P)). by rewrite (srv_curr s k Q P H).
  - split; try apply H; cbn; try done.
    + apply uN_bounds. lia.
    + apply (serves_entered s P (srv_serves _ _ _ H)).
  - apply (srv_at s k Q P H).
Qed.

(** The answer to the acknowledgment of the end. *)
Definition last_packet (s : RState) : RHdr :=
  set_ACKN (seq s) (FLAG_SET (FLAG_SET (new_entry (MYS s)) ACK) FIN).

Lemma receive_fin s k Q P b :
  srv s k Q -> FLGV Q = Z.lor FIN R_VERSION -> plain (Z.lor ACK FIN) P -> SEQN P = seq s -> ACKN P = k ->
  receive fs s (convert_bytes P b) = Ok (bump (snoc (MYS s) (last_packet s) (entered s P)), 0).
Proof.
  intros H HQ HP Hs Ha. rewrite (receive_plain s k Q P (Z.lor ACK FIN) b H ltac:(rewrite !elem_of_cons; tauto) HP).
  rewrite (process_seq_plain s k Q P H Hs Ha). destruct HP as (Hf & _ & _).
  unfold process_checked. rewrite (srv_curr s k Q P H), (srv_at s k Q P H).
  unfold FLAG_CHECK, FLAG_VALIDATE, FLAG_GET. rewrite Hf, HQ.
  rewrite (bool_decide_false (Some _ = None)) by done.
  rewrite (bool_decide_true (is_Some (Some _))) by eauto. do 4 eval_if.
  unfold process_fin. unfold FLAG_CHECK, FLAG_GET. rewrite Hf. 
  rewrite append_curr_eq, !upd_curr_snoc. do 2 eval_if. rewrite !upd_curr_snoc.
  change (chksum (bump _)) with (chksum s). rewrite (srv_chk _ _ _ H). done.
Qed.
End Server.

(** ** The client's packets *)

Lemma upd_last_append f l : upd_last f (rhead_append l) = l ++ [f (new_entry l)].
Proof. rewrite rhead_append_eq. unfold upd_last. apply alter_last. Qed.

Lemma upd_last_snoc f l x : upd_last f (l ++ [x]) = l ++ [f x].
Proof. unfold upd_last. apply alter_last. Qed.

Lemma new_entry_SEQN_last l P : last l = Some P -> SEQN (new_entry l) = u16 (SEQN P + 1).
Proof. intros Hl. unfold new_entry. by rewrite Hl. Qed.

(** The packet [P] that the client sends next: it answers packet number [k] of
    the server with the flags [f]. *)
Definition tip (c : client) (s : RState) (P : RHdr) : Prop :=
  last (c_MYS c) = Some P /\ SEQN P = seq s.
Definition asks (c : client) (s : RState) (f k : Z) (P : RHdr) : Prop :=
  tip c s P /\ plain f P /\ ACKN P = k.

Lemma client_send_eq c s P :
  tip c s P -> client_send false c = (c, Some (convert_bytes P false)).
Proof. intros (Hl & _). unfold client_send. rewrite Hl. by destruct c. Qed.

Lemma FLAG_UNSET_id Q f :
  f ∈ [DAT; FIN; Z.lor ACK FIN] -> FLGV Q = Z.lor f R_VERSION -> FLAG_UNSET Q CHK = Q.
Proof.
  intros Hf HQ. destruct Q as [a b c g m]; cbn in HQ. subst g. unfold FLAG_UNSET. cbn [FLGV].
  assert (u16 (Z.land (Z.lor f R_VERSION) (Z.lnot (Z.land CHK FLAG_OFFSET))) = Z.lor f R_VERSION) as ->; [|done].
  repeat (apply elem_of_cons in Hf as [->|Hf]; [done|]). by apply elem_of_nil in Hf.
Qed.

Section Client.
Context (c : client) (s s' : RState) (P : RHdr).
Context (HP : tip c s P) (Hseq : seq s' = u16 (seq s + 1)).

Lemma client_nak_asks his mD :
  0 <= track_seqn c < 2 ^ 16 ->
  exists P', asks (fst (client_nak c his mD)) s' (if mD then Z.lor DAT NAK else NAK) (track_seqn c) P'.
Proof.
  intros Ht. destruct HP as (Hl & Hs).
  destruct (new_entry_fits (c_MYS c)) as (F1 & F2 & F3 & F4).
  destruct (new_entry_fields (c_MYS c)) as [Hfl Hmsg].
  unfold client_nak, asks, tip. cbn [fst c_MYS].
  destruct mD; eexists; rewrite ?upd_last_append, ?upd_last_snoc, last_snoc;
    (split; [split; [reflexivity|]|split; [split; [|split]|]]);
    cbn; rewrite ?Hfl, ?Hmsg, ?(new_entry_SEQN_last _ _ Hl), ?Hs, ?Hseq; try done;
    unfold fits; cbn; rewrite ?Hfl; repeat split; try done; try apply F1; try apply F3; apply Ht.
Qed.

Lemma client_ack_asks `{cv : Conversion} his m out f1 f2 :
  fprintf_msg m = Ok out -> f1 = ACK -> f2 = DAT \/ f2 = FIN -> 0 <= track_seqn c < 2 ^ 16 ->
  exists c', client_ack c his m f1 f2 = Ok (c', false) /\
    track_seqn c' = u16 (track_seqn c + 1) /\ written c' = written c ++ out /\
    exists P', asks c' s' (Z.lor f1 f2) (track_seqn c) P'.
Proof.
  intros Hout -> H2 Ht. destruct HP as (Hl & Hs). unfold client_ack. rewrite Hout. cbn [mbind ub_bind].
  eexists. split; [reflexivity|]. do 2 (split; [done|]).
  destruct (new_entry_fits (c_MYS c)) as (F1 & F2 & F3 & F4).
  destruct (new_entry_fields (c_MYS c)) as [Hfl Hmsg].
  eexists. unfold asks, tip. cbn [c_MYS]. rewrite upd_last_append, last_snoc.
  split; [split; [reflexivity|]|split; [split; [|split]|]];
    cbn; rewrite ?Hfl, ?Hmsg, ?(new_entry_SEQN_last _ _ Hl), ?Hs, ?Hseq; try done.
  { by destruct H2 as [-> | ->]. }
  unfold fits; cbn; rewrite ?Hfl. repeat split; try done; try apply F1; try apply F3; try apply Ht;
    by destruct H2 as [-> | ->].
Qed.
End Client.

(** ** The transfer *)

(** The number of packets with data that a file takes. *)
Definition parts (d : list Z) (n : Z) : Prop :=
  1 <= n < 2 ^ 16 - 2 /\ Z.of_nat (length d) <= n * MSG_SIZ /\
  (n = 1 \/ (n - 1) * MSG_SIZ < Z.of_nat (length d)).

(** What the first [k] packets make of the output: each part up to its first NUL. *)
Definition data_out (d : list Z) (k : Z) : list Z := concat ((fun i => c_bytes (chunk d i)) <$> seqZ 0 k).

Lemma data_out_S d k : 0 <= k -> data_out d (k + 1) = data_out d k ++ c_bytes (chunk d k).
Proof.
  intros Hk. unfold data_out. rewrite seqZ_app by lia. rewrite fmap_app, concat_app.
  change (concat ((fun i => c_bytes (chunk d i)) <$> seqZ (0 + k) 1)) with (c_bytes (chunk d (0 + k)) ++ []).
  by rewrite app_nil_r.
Qed.

Lemma c_bytes_zeros l n : c_bytes (l ++ zeros n) = c_bytes l.
Proof.
  induction l as [|b l IH]; cbn [app c_bytes]; [|by rewrite IH]. unfold zeros. by destruct (Z.to_nat n).
Qed.

Lemma c_bytes_all l : Forall (fun b => nz b = true) l -> c_bytes l = l.
Proof. induction 1 as [|b l Hb Hl IH]; simpl; [done|]. by rewrite Hb, IH. Qed.

Lemma c_bytes_Forall (P : Z -> Prop) l : Forall P l -> Forall P (c_bytes l).
Proof. induction 1 as [|b l Hb Hl IH]; simpl; [done|]. case_if; by constructor. Qed.

Lemma chunk_length d i : (length (chunk d i) <= Z.to_nat MSG_SIZ)%nat.
Proof. unfold chunk. rewrite length_take. lia. Qed.

Lemma chunk_Forall (P : Z -> Prop) d i : Forall P d -> Forall P (chunk d i).
Proof. intros Hd. unfold chunk. by apply Forall_take, Forall_drop. Qed.

(** A part without a [%] is written up to its first NUL. *)
Lemma fprintf_part `{cv : Conversion} d i : Forall (fun b => b <> PERCENT) d ->
  fprintf_msg (pad (chunk d i)) = Ok (c_bytes (chunk d i)).
Proof.
  intros Hd. unfold fprintf_msg. rewrite c_bytes_zeros.
  assert (c_bytes (pad (chunk d i)) = c_bytes (chunk d i)) as ->.
  { unfold pad, memcpy. rewrite Nat2Z.id, take_ge by done. unfold zeros. rewrite drop_replicate, <- (Nat2Z.id (_ - _)). apply c_bytes_zeros. }
  by apply printf_plain, c_bytes_Forall, chunk_Forall.
Qed.

Lemma chunk_nil d n k :
  parts d n -> 1 <= k < 2 ^ 16 -> (chunk d k = [] <-> n <= k).
Proof.
  intros ([Hn _] & Hle & Hlt) Hk. unfold chunk. rewrite uN_small by lia.
  rewrite <- length_zero_iff_nil, length_take, length_drop. unfold MSG_SIZ in *.
  change (Z.to_nat 1464) with 1464%nat. split; intros; [|lia]. destruct Hlt as [->|Hlt]; lia.
Qed.

(** The phases: the client has accepted the last packet, has thrown it away, or
    has accepted the end. *)
Inductive phase := Accepted | Thrown | Ended.

Record joint (fs : files) (d : list Z) (n : Z) (ph : phase) (k : Z) (c : client) (s : RState) : Prop := {
  j_parts : parts d n;
  j_k : 1 <= k <= (match ph with Ended => n + 1 | _ => n end);
  j_srv : exists Q, srv fs d s k Q /\ fits Q /\ SEQN Q = k /\
    match ph with
    | Ended => k = n + 1 /\ FLGV Q = Z.lor FIN R_VERSION
    | _ => FLGV Q = Z.lor DAT R_VERSION /\ msg Q = pad (chunk d (k - 1))
    end;
  j_asks : exists P f, asks c s f k P /\
    match ph with
    | Accepted => f = Z.lor ACK DAT
    | Thrown => f ∈ [NAK; Z.lor DAT NAK]
    | Ended => f = Z.lor ACK FIN
    end;
  j_track : track_seqn c = match ph with Thrown => k | _ => k + 1 end;
  j_written : written c = match ph with
    | Accepted => data_out d k | Thrown => data_out d (k - 1) | Ended => data_out d n end }.

(** The turns that are left when nothing more is thrown away. *)
Definition left_turns (n : Z) (ph : phase) (k : Z) : Z :=
  match ph with Accepted => n - k + 2 | Thrown => n - k + 3 | Ended => 1 end.

Section Turns.
Context `{cv : Conversion} (fs : files) (misbehave misr : bool).

Lemma exchange_eq c s s' P Q rc :
  tip c s P -> receive fs s (convert_bytes P false) = Ok (s', rc) -> rc = 0 \/ rc = 1 ->
  at_curr s' = Some Q ->
  exchange fs misbehave misr c s =
  ('(c, ends) ← client_recv false misbehave misr c (convert_bytes Q false); Ok (Answer c s' ends)).
Proof.
  intros HP Hr Hrc Hat. unfold exchange. rewrite (client_send_eq c s P HP).
  cbn [deref mbind ub_bind]. rewrite Hr. cbn [mbind ub_bind]. rewrite Hat.
  by replace ((rc =? 2) || (rc =? 3)) with false by (by destruct Hrc as [-> | ->]).
Qed.

(** Whether the client throws the answer away. *)
Definition thrown (c : client) : bool := misbehave && (1 <? track_seqn c) && misr.

Lemma recv_data c Q :
  fits Q -> FLGV Q = Z.lor DAT R_VERSION -> SEQN Q = track_seqn c ->
  client_recv false misbehave misr c (convert_bytes Q false) =
  if thrown c then Ok (client_nak c (c_HIS c ++ [Q]) true) else client_ack c (c_HIS c ++ [Q]) (msg Q) ACK DAT.
Proof.
  intros HQ Hf Hs. unfold client_recv. rewrite convert_bytes_inv by done. cbn [andb]. cbv zeta.
  rewrite (FLAG_UNSET_id Q DAT) by (rewrite ?elem_of_cons; tauto).
  unfold FLAG_VALIDATE, FLAG_CHECK, FLAG_GET. rewrite Hf, Hs.
  rewrite (Z.eqb_refl (track_seqn c)). unfold thrown.
  change (negb (Z.land (Z.lor DAT R_VERSION) (Z.lor FIN R_VERSION) =? Z.lor FIN R_VERSION)) with true.
  cbn [andb]. by case_if.
Qed.

Lemma recv_end c Q :
  fits Q -> FLGV Q = Z.lor FIN R_VERSION -> SEQN Q = track_seqn c ->
  client_recv false misbehave misr c (convert_bytes Q false) =
  client_ack c (c_HIS c ++ [Q]) (msg Q) ACK FIN.
Proof.
  intros HQ Hf Hs. unfold client_recv. rewrite convert_bytes_inv by done. cbn [andb]. cbv zeta.
  rewrite (FLAG_UNSET_id Q FIN) by (rewrite ?elem_of_cons; tauto).
  unfold FLAG_VALIDATE, FLAG_CHECK, FLAG_GET. rewrite Hf, Hs.
  by rewrite (Z.eqb_refl (track_seqn c)).
Qed.

Lemma recv_last c Q P :
  fits Q -> FLGV Q = Z.lor (Z.lor ACK FIN) R_VERSION -> last (c_MYS c) = Some P -> ACKN Q = SEQN P ->
  client_recv false misbehave misr c (convert_bytes Q false) =
  Ok (MkClient [] [] (track_seqn c) (misbehaveD c) (written c), true).
Proof.
  intros HQ Hf Hl Ha. unfold client_recv. rewrite convert_bytes_inv by done. cbn [andb]. cbv zeta.
  rewrite (FLAG_UNSET_id Q (Z.lor ACK FIN)) by (rewrite ?elem_of_cons; tauto).
  unfold FLAG_VALIDATE, FLAG_CHECK, FLAG_GET. rewrite Hf, Hl, Ha.
  by rewrite (Z.eqb_refl (SEQN P)).
Qed.

(** A turn from one phase leads to another, closer to the end unless the answer
    was thrown away. *)
Definition turn_ok (d : list Z) (n left : Z) (t : ub turn) : Prop :=
  exists c s ends, t = Ok (Answer c s ends) /\
  if ends then written c = data_out d n
  else exists ph k, joint fs d n ph k c s /\
    left_turns n ph k <= left - (if misbehave && misr then 0 else 1).

Context (d : list Z) (n : Z) (plain_d : Forall (fun b => b <> PERCENT) d).

(** After an answer with data: it is accepted or thrown away. *)
Lemma data_answer k c s s' P Q :
  parts d n -> 1 <= k <= n -> tip c s P -> seq s' = u16 (seq s + 1) ->
  srv fs d s' k Q -> fits Q -> SEQN Q = k -> FLGV Q = Z.lor DAT R_VERSION ->
  msg Q = pad (chunk d (k - 1)) -> track_seqn c = k -> written c = data_out d (k - 1) ->
  exists c', client_recv false misbehave misr c (convert_bytes Q false) = Ok (c', false) /\
    exists ph, joint fs d n ph k c' s' /\ left_turns n ph k <= n - k + 2 + (if misbehave && misr then 1 else 0).
Proof.
  intros Hn Hk HP Hseq Hsrv HQ Hs Hf Hm Ht Hw.
  assert (0 <= track_seqn c < 2 ^ 16) as Htb by (destruct Hn; lia).
  rewrite recv_data by congruence. unfold thrown. case_if.
  - eexists. split; [done|]. exists Thrown. split.
    + destruct (client_nak_asks c s s' P HP Hseq (c_HIS c ++ [Q]) true Htb) as [P' HP'].
      rewrite Ht in HP'. split; try done.
      * exists Q. repeat (split; [done|]). done.
      * exists P', (Z.lor DAT NAK). split; [exact HP'|]. rewrite !elem_of_cons; tauto.
      * change (u16 (u16 (track_seqn c - 1) + 1) = k).
        rewrite uN_add_l, Ht. rewrite uN_small; lia.
    + cbool. destruct E as [[-> ?] ->]. simpl. lia.
  - destruct (client_ack_asks c s s' P HP Hseq (c_HIS c ++ [Q]) (msg Q) (c_bytes (chunk d (k - 1))) ACK DAT)
      as (c' & -> & Ht' & Hw' & P' & HP'); [rewrite Hm; by apply fprintf_part|done|by left|done|].
    exists c'. split; [done|]. rewrite Ht in HP', Ht'. exists Accepted. split.
    + split; try done.
      * exists Q. repeat (split; [done|]). done.
      * exists P', (Z.lor ACK DAT). split; [exact HP'|done].
      * rewrite Ht'. apply uN_small; destruct Hn; lia.
      * rewrite Hw', Hw. replace k with (k - 1 + 1) at 3 by lia. by rewrite data_out_S by lia.
    + simpl. case_match; lia.
Qed.
End Turns.

Section Transfer.
Context `{cv : Conversion} (fs : files) (d : list Z) (n : Z) (misbehave : bool).
Context (plain_d : Forall (fun b => b <> PERCENT) d).

Lemma next_packet_fits l : fits (next_packet d l).
Proof.
  destruct (new_entry_fits l) as (F1 & F2 & F3 & F4). destruct (new_entry_fields l) as [Hfl _].
  unfold next_packet, fits. case_bool_decide; cbn; rewrite ?Hfl; done.
Qed.

Lemma next_packet_SEQN s k Q : srv fs d s k Q -> k + 1 < 2 ^ 16 -> SEQN (next_packet d (MYS s)) = k + 1.
Proof.
  intros H Hk. pose proof (srv_len _ _ _ _ _ H) as Hlen.
  assert (SEQN (next_packet d (MYS s)) = SEQN (new_entry (MYS s))) as ->
    by (unfold next_packet; by case_bool_decide).
  rewrite (new_entry_SEQN d) by apply (srv_ok _ _ _ _ _ H). rewrite Hlen. apply uN_small; lia.
Qed.

(** From a packet accepted: the server sends the next one, or the end. *)
Lemma turn_accepted misr k c s :
  joint fs d n Accepted k c s ->
  turn_ok fs misbehave misr d n (n - k + 2) (exchange fs misbehave misr c s).
Proof.
  intros [Hn Hk (Q & Hsrv & HQ & HQs & HQf & HQm) (P & f & HP & ->) Ht Hw]. cbn in Hk, Ht, Hw.
  assert (k + 1 < 2 ^ 16) as Hk1 by (destruct Hn; lia).
  pose proof HP as (Htip & Hpl & Ha). pose proof Htip as (_ & Hs).
  destruct (receive_ack fs d s k Q P false Hsrv Hk1 Hpl Hs Ha) as [Hr Hsrv'].
  pose proof (next_packet_fits (MYS s)) as HQ'. pose proof (next_packet_SEQN s k Q Hsrv Hk1) as HQs'.
  pose proof (srv_len _ _ _ _ _ Hsrv) as Hlen. pose proof (chunk_nil d n k Hn ltac:(lia)) as Hnil.
  set (s' := bump (snoc (MYS s) (next_packet d (MYS s)) (entered s P))) in *.
  pose proof (exchange_eq fs misbehave misr c s s' P (next_packet d (MYS s)) 1 Htip Hr ltac:(by right)
    (at_curr_snoc _ _ _)) as He.
  destruct (decide (n <= k)) as [Hle|Hgt].
  - assert (next_packet d (MYS s) = end_packet (MYS s)) as Hnp.
    { unfold next_packet. rewrite Hlen, bool_decide_true by tauto. done. }
    rewrite Hnp in *. assert (FLGV (end_packet (MYS s)) = Z.lor FIN R_VERSION) as Hf' by done.
    rewrite (recv_end misbehave misr c _ HQ' Hf') in He by congruence.
    destruct (client_ack_asks c s s' P Htip eq_refl (c_HIS c ++ [end_packet (MYS s)])
      (msg (end_packet (MYS s))) [] ACK FIN) as (c' & Ha' & Ht' & Hw' & P' & HP'); [done|done|by right|lia|].
    rewrite Ha' in He. cbn [mbind ub_bind] in He.
    eexists _, _, _. split; [exact He|]. exists Ended, (n + 1). assert (k = n) as -> by lia.
    split; [|simpl; case_match; lia]. rewrite Ht in HP', Ht'.
    split; try done; [lia| | | |].
    + exists (end_packet (MYS s)). repeat (split; [done|]). done.
    + exists P', (Z.lor ACK FIN). split; [exact HP'|done].
    + rewrite Ht'. destruct Hn. apply uN_small; lia.
    + by rewrite Hw', app_nil_r.
  - assert (next_packet d (MYS s) = data_packet d (MYS s)) as Hnp.
    { unfold next_packet. rewrite Hlen, bool_decide_false; [done|]. rewrite Hnil. lia. }
    rewrite Hnp in *.
    destruct (data_answer fs misbehave misr d n plain_d (k + 1) c s s' P _ Hn ltac:(lia)
      Htip eq_refl Hsrv' HQ' HQs') as (c' & Hrec & ph & Hj & Hl).
    { cbn. by rewrite (proj1 (new_entry_fields _)). }
    { cbn. by rewrite Hlen, Z.add_simpl_r. }
    { done. }
    { by rewrite Z.add_simpl_r. }
    rewrite Hrec in He. eexists _, _, _. split; [exact He|]. exists ph, (k + 1). split; [done|].
    revert Hl. case_match; lia.
Qed.

(** From a packet thrown away: the server repeats it. *)
Lemma turn_thrown misr k c s :
  joint fs d n Thrown k c s ->
  turn_ok fs misbehave misr d n (n - k + 3) (exchange fs misbehave misr c s).
Proof.
  intros [Hn Hk (Q & Hsrv & HQ & HQs & HQf & HQm) (P & f & HP & Hf) Ht Hw]. cbn in Hk, Ht, Hw.
  pose proof HP as (Htip & Hpl & Ha). pose proof Htip as (_ & Hs).
  destruct (receive_nak fs d s k Q P f false Hsrv Hf Hpl Ha) as (Hr & Hsrv' & Hat).
  set (s' := set_ackseq k (u16 (seq s + 1)) (entered s P)) in *.
  pose proof (exchange_eq fs misbehave misr c s s' P Q 1 Htip Hr ltac:(by right) Hat) as He.
  destruct (data_answer fs misbehave misr d n plain_d k c s s' P _ Hn Hk
      Htip eq_refl Hsrv' HQ HQs HQf HQm Ht Hw) as (c' & Hrec & ph & Hj & Hl).
  rewrite Hrec in He. eexists _, _, _. split; [exact He|]. exists ph, k. split; [done|].
  revert Hl. case_match; lia.
Qed.

(** From the end: the server answers with its last packet. *)
Lemma turn_ended misr k c s :
  joint fs d n Ended k c s -> turn_ok fs misbehave misr d n 1 (exchange fs misbehave misr c s).
Proof.
  intros [Hn Hk (Q & Hsrv & HQ & HQs & HQk & HQf) (P & f & HP & ->) Ht Hw]. cbn in Hk, Ht, Hw.
  pose proof HP as (Htip & Hpl & Ha). pose proof Htip as (Hl & Hs).
  pose proof (receive_fin fs d s k Q P false Hsrv HQf Hpl Hs Ha) as Hr.
  pose proof (exchange_eq fs misbehave misr c s _ P (last_packet s) 0 Htip Hr ltac:(by left)
    (at_curr_snoc _ _ _)) as He.
  rewrite (recv_last misbehave misr c (last_packet s) P) in He; [| | |done|done].
  - eexists _, _, _. split; [exact He|]. exact Hw.
  - destruct (new_entry_fits (MYS s)) as (F1 & F2 & F3 & F4). destruct (new_entry_fields (MYS s)) as [Hfl _].
    unfold fits. cbn. rewrite Hfl. pose proof (srv_seq _ _ _ _ _ Hsrv). done.
  - cbn. by rewrite (proj1 (new_entry_fields _)).
Qed.

Lemma turn_joint misr ph k c s :
  joint fs d n ph k c s ->
  turn_ok fs misbehave misr d n (left_turns n ph k) (exchange fs misbehave misr c s).
Proof. destruct ph; [apply turn_accepted|apply turn_thrown|apply turn_ended]. Qed.

(** The number of turns that throw nothing away. *)
Definition kept (ds : list bool) : Z :=
  Z.of_nat (length (filter (fun misr => misbehave && misr = false) ds)).

Lemma kept_cons misr ds : kept (misr :: ds) = (if misbehave && misr then 0 else 1) + kept ds.
Proof. unfold kept. rewrite filter_cons. case_decide as Hd; destruct (misbehave && misr); try done. simpl. lia. Qed.

Lemma data_out_prefix k m : 0 <= k <= m -> data_out d k `prefix_of` data_out d m.
Proof.
  intros Hk. exists (concat ((fun i => c_bytes (chunk d i)) <$> seqZ k (m - k))). unfold data_out.
  rewrite <- concat_app, <- fmap_app. do 2 f_equal. replace m with (k + (m - k)) at 1 by lia. rewrite seqZ_app by lia. done.
Qed.

Lemma joint_prefix ph k c s : joint fs d n ph k c s -> written c `prefix_of` data_out d n.
Proof. intros [Hn Hk _ _ _ ->]. destruct ph; [| |done]; apply data_out_prefix; lia. Qed.

Lemma transfer_joint ds ph k c s :
  joint fs d n ph k c s ->
  exists c' s' ends, transfer fs misbehave ds c s = Ok (Answer c' s' ends) /\
    written c' `prefix_of` data_out d n /\ (ends = true -> written c' = data_out d n) /\
    (left_turns n ph k <= kept ds -> ends = true).
Proof.
  revert ph k c s; induction ds as [|misr ds IH]; intros ph k c s Hj; cbn [transfer].
  - exists c, s, false. split; [done|]. split; [by eapply joint_prefix|]. split; [done|].
    unfold kept. simpl. pose proof (j_k _ _ _ _ _ _ _ Hj). destruct ph; simpl in *; lia.
  - destruct (turn_joint misr ph k c s Hj) as (c1 & s1 & ends & -> & Hends). cbn [mbind ub_bind].
    destruct ends.
    + exists c1, s1, true. split; [done|]. rewrite Hends. done.
    + destruct Hends as (ph1 & k1 & Hj1 & Hl). destruct (IH ph1 k1 c1 s1 Hj1) as (c' & s' & ends & Ht & Hp & Hf & Hk').
      exists c', s', ends. do 3 (split; [done|]). intros Hkept. apply Hk'. rewrite kept_cons in Hkept. lia.
Qed.
End Transfer.

(** ** The first turn *)

Lemma c_bytes_app l m : Forall (fun b => nz b = true) l -> c_bytes (l ++ m) = l ++ c_bytes m.
Proof. induction 1 as [|b l Hb Hl IH]; simpl; [done|]. by rewrite Hb, IH. Qed.

(** The name of a resource: bytes without a NUL that leave room for one. *)
Definition resource_ok (name : list Z) : Prop :=
  Forall (fun b => nz b = true) name /\ Z.of_nat (length name) < MSG_SIZ.

(** The request is the name padded with NULs, and the server finds the file [d]. *)
Definition offers (fs : files) (name d : list Z) : Prop :=
  snd (set_fname fs (pad name)) = true /\ fopen_r fs (fst (set_fname fs (pad name))) = Some d.

Definition get_packet (name : list Z) : RHdr :=
  MkRHdr 1 0 0 (Z.lor GET R_VERSION) (pad name).

Lemma client_start_eq name :
  resource_ok name -> client_start name = MkClient [get_packet name] [] 1 false [].
Proof.
  intros [Hnz Hlen]. unfold client_start. cbv zeta.
  assert (c_bytes (strncpy name MSG_SIZ) = name) as Hc.
  { unfold strncpy. pose proof (c_bytes_app name [] Hnz) as Hn. rewrite !app_nil_r in Hn. rewrite Hn.
    rewrite take_ge by lia. rewrite c_bytes_app by done.
    unfold zeros. assert (Z.to_nat (MSG_SIZ - Z.of_nat (length name)) <> 0%nat) by lia.
    destruct (Z.to_nat _); [done|]. simpl. apply app_nil_r. }
  rewrite Hc, upd_last_append, upd_last_snoc. unfold get_packet, entry_puts, RHDR_MSG_SET.
  rewrite (proj2 (Z.ltb_lt _ _) Hlen). done.
Qed.

Lemma first_turn `{cv : Conversion} fs name d n misbehave misr :
  resource_ok name -> offers fs name d -> parts d n -> Forall (fun b => b <> PERCENT) d ->
  turn_ok fs misbehave misr d n (n + 2) (exchange fs misbehave misr (client_start name) (RSTATE_INIT 0)).
Proof.
  intros Hname [Hok Hd] Hn plain_d. rewrite client_start_eq by done.
  set (c := MkClient _ _ _ _ _). set (P := get_packet name). set (s := RSTATE_INIT 0).
  assert (fits P) as HPf by done. assert (tip c s P) as HP by done.
  assert (serves fs (set_request (Some 0%nat) (entered s P)) d) as Hserves by (exists 0%nat, P; done).
  set (s' := bump (snoc [] (data_packet d []) (set_request (Some 0%nat) (entered s P)))).
  assert (receive fs s (convert_bytes P false) = Ok (s', 1)) as Hr.
  { rewrite receive_entered. cbv zeta. rewrite convert_bytes_inv by done.
    change (process_get fs P (entered s P) = Ok (s', 1)).
    rewrite (process_get_eq fs P (entered s P) d) by done.
    change (SND_PKT s' = Ok (s', 1)). by apply (SND_PKT_plain s' 0). }
  assert (packets_ok d [data_packet d []]) as Hpk.
  { apply (packets_ok_snoc d []); [by intros i e Hi|]. apply data_packet_ok; [by intros i e Hi|by left]. }
  assert (srv fs d s' 1 (data_packet d [])) as Hsrv by (split; done).
  pose proof (exchange_eq fs misbehave misr c s s' P (data_packet d []) 1 HP Hr ltac:(by right) eq_refl) as He.
  destruct (data_answer fs misbehave misr d n plain_d 1 c s s' P _ Hn ltac:(destruct Hn; lia) HP eq_refl Hsrv)
    as (c' & Hrec & ph & Hj & Hl); try done.
  rewrite Hrec in He. eexists _, _, _. split; [exact He|]. exists ph, 1. split; [done|].
  revert Hl. case_match; lia.
Qed.

(** The messages are the file: without the padding, the parts make up [d]. *)
Lemma chunks_concat d k :
  0 <= k < 2 ^ 16 -> concat (chunk d <$> seqZ 0 k) = take (Z.to_nat (k * MSG_SIZ)) d.
Proof.
  intros Hk. replace k with (Z.of_nat (Z.to_nat k)) in * by lia. generalize dependent (Z.to_nat k). clear k.
  induction n as [|k IH]; intros Hk.
  { done. }
  replace (Z.of_nat (S k)) with (Z.of_nat k + 1) by lia. rewrite seqZ_app by lia.
  rewrite fmap_app, concat_app, IH by lia.
  change (concat (chunk d <$> seqZ (0 + Z.of_nat k) 1)) with (chunk d (0 + Z.of_nat k) ++ []).
  rewrite app_nil_r. unfold chunk. rewrite uN_small by lia.
  replace (Z.to_nat ((Z.of_nat k + 1) * MSG_SIZ)) with (Z.to_nat (Z.of_nat k * MSG_SIZ) + Z.to_nat MSG_SIZ)%nat
    by (unfold MSG_SIZ; lia).
  rewrite Z.add_0_l. by rewrite take_take_drop.
Qed.

Lemma parts_concat d n : parts d n -> concat (chunk d <$> seqZ 0 n) = d.
Proof.
  intros (? & ? & _). rewrite chunks_concat by lia. apply take_ge. unfold MSG_SIZ in *. lia.
Qed.

(** What a client has written of a file without a [%], and when the transfer ends. *)
Lemma transfer_parts `{cv : Conversion} fs name d n misbehave ds :
  resource_ok name -> offers fs name d -> parts d n -> Forall (fun b => b <> PERCENT) d ->
  exists c s ends, transfer fs misbehave ds (client_start name) (RSTATE_INIT 0) = Ok (Answer c s ends) /\
    written c `prefix_of` data_out d n /\ (ends = true -> written c = data_out d n) /\
    (n + 2 <= kept misbehave ds -> ends = true).
Proof.
  intros Hname Hoff Hn Hp. destruct ds as [|misr ds]; cbn [transfer].
  - exists (client_start name), (RSTATE_INIT 0), false. split; [done|].
    rewrite client_start_eq by done. split; [apply prefix_nil|]. split; [done|].
    unfold kept; simpl; destruct Hn; lia.
  - destruct (first_turn fs name d n misbehave misr Hname Hoff Hn Hp) as (c1 & s1 & ends & -> & Hends).
    cbn [mbind ub_bind]. destruct ends.
    + exists c1, s1, true. split; [done|]. rewrite Hends. done.
    + destruct Hends as (ph & k & Hj & Hl).
      destruct (transfer_joint fs d n misbehave Hp ds ph k c1 s1 Hj) as (c & s & ends & Ht & Hpre & Hf & Hk).
      exists c, s, ends. do 3 (split; [done|]).
      intros Hkept. apply Hk. rewrite kept_cons in Hkept. lia.
Qed.

Lemma data_out_file d n : parts d n -> Forall (fun b => nz b = true) d -> data_out d n = d.
Proof.
  intros Hn Hd. rewrite <- (parts_concat d n Hn) at 2. unfold data_out. f_equal. apply list_fmap_ext.
  intros i x _. by apply c_bytes_all, chunk_Forall.
Qed.


