(* ===== verification/RHandleServ.v ===== *)
(** * The connections of the reliable UDP server
    ([2.0.ReliableUDP/RHandleServ.h], the loop of [RUSHBSvr.c])

    The server keeps a tree of client addresses, each with a tree of ports; a port
    has the bytes received, the protocol state and a mutex.  The main thread
    handles datagrams and timeouts; each packet is sent by a thread of its own,
    which gets the mutex locked and unlocks it.  The model runs such a thread in
    one step, and a datagram for a port whose mutex is locked waits
    ([None]). *)

From S2P Require Import Prelude RBTree RHdr RProcess.

Definition LOCALHOST_ADDRV := 16777343.
Definition MAX_TIMEOUT := 4.
Definition DEAD_TIMEOUT := 1000.

(** [RMsg_t]: [m_his] and [m_mys] are [update_stamp], [m_ona] and [m_clr]
    [active], [m_nmsg] and [m_nbad] [nreqs]. *)
Record RMsg := MkRMsg {
  m_msg : list Z; m_written : Z; m_left : Z; m_port : Z;
  m_mys : Z; m_his : Z; m_state : RState; m_lock : bool;
  m_ona : bool; m_clr : bool; m_nmsg : Z; m_nbad : Z }.

Definition set_buf b w l m := MkRMsg b w l (m_port m) (m_mys m) (m_his m) (m_state m) (m_lock m)
  (m_ona m) (m_clr m) (m_nmsg m) (m_nbad m).
Definition set_stamps y h m := MkRMsg (m_msg m) (m_written m) (m_left m) (m_port m) y h (m_state m)
  (m_lock m) (m_ona m) (m_clr m) (m_nmsg m) (m_nbad m).
Definition set_state s m := MkRMsg (m_msg m) (m_written m) (m_left m) (m_port m) (m_mys m) (m_his m) s
  (m_lock m) (m_ona m) (m_clr m) (m_nmsg m) (m_nbad m).
Definition set_lock b m := MkRMsg (m_msg m) (m_written m) (m_left m) (m_port m) (m_mys m) (m_his m)
  (m_state m) b (m_ona m) (m_clr m) (m_nmsg m) (m_nbad m).
Definition set_active o c m := MkRMsg (m_msg m) (m_written m) (m_left m) (m_port m) (m_mys m) (m_his m)
  (m_state m) (m_lock m) o c (m_nmsg m) (m_nbad m).
Definition add_nmsg m := MkRMsg (m_msg m) (m_written m) (m_left m) (m_port m) (m_mys m) (m_his m)
  (m_state m) (m_lock m) (m_ona m) (m_clr m) (u32 (m_nmsg m + 1)) (m_nbad m).
Definition add_nbad m := MkRMsg (m_msg m) (m_written m) (m_left m) (m_port m) (m_mys m) (m_his m)
  (m_state m) (m_lock m) (m_ona m) (m_clr m) (m_nmsg m) (u32 (m_nbad m + 1)).

(** [RAddr_t]: an address has its tree [P] of ports. *)
Record RAddr (P : Type) := MkRAddr { ncons : Z; port_tree : P; a_stamp : Z }.
Arguments MkRAddr {P}.
Arguments ncons {P}.
Arguments port_tree {P}.
Arguments a_stamp {P}.

(** The packet in [RHDR_SIZ] bytes of memory, on a little-endian machine. *)
Definition word_at (b : list Z) (i : Z) : Z := byte_at b (2 * i) + 256 * byte_at b (2 * i + 1).
Definition hdr_of_bytes (b : list Z) : RHdr :=
  MkRHdr (word_at b 0) (word_at b 1) (word_at b 2) (word_at b 3) (drop 8 b).

(** [csock_send], with the mutex locked: the port and the packet sent. *)
Definition csock_send (m : RMsg) : ub (RMsg * option RHdr) :=
  if negb (m_ona m) && m_clr m then Ok (set_lock false m, None)
  else if negb (m_clr m) && negb (m_ona m) then Ok (set_lock false m, None)
  else
    cur ← deref (at_curr (m_state m));
    let switch_off := FLAG_CHECK cur (Z.lor FIN ACK) || FLAG_CHECK cur (Z.lor (Z.lor FIN ACK) CHK) in
    let m := set_state (upd_curr (fun h => convert_bytes h false) (m_state m)) m in
    let sent := at_curr (m_state m) in
    let m := if switch_off then set_active false (m_clr m) m else m in
    let m := set_state (upd_curr (fun h => convert_bytes h true) (m_state m)) m in
    Ok (set_lock false m, sent).

(** The end of [rhandle_port], from [pthread_mutex_lock] on, with the mutex
    locked: the port, the result, and whether a thread was created for it. *)
Definition port_locked (fs : files) (old_time : Z) (create_ok : bool) (m : RMsg)
    : ub (RMsg * bool * bool) :=
  let unlock_port m := Ok (set_lock false m, false, false) in
  if (m_left m =? 0) && (m_written m =? RHDR_SIZ) then
    '(s, rp_ret) ← receive fs (m_state m) (hdr_of_bytes (m_msg m));
    let m := set_state s m in
    if rp_ret =? 2 then unlock_port (set_stamps old_time old_time m) else
    if rp_ret =? 3 then unlock_port (add_nbad (set_active false false m)) else
    let m := if (rp_ret =? 0) && bool_decide (curr s = None)
             then add_nbad (set_active false false m) else m in
    Ok (m, true, create_ok)
  else Ok (m, true, false).

(** The port after the first part of [rhandle_port]: a new one, or the one found
    with the bytes of the datagram. *)
Definition port_new (buf : list Z) (len port now : Z) : RMsg :=
  let m := MkRMsg (zeros RHDR_SIZ) 0 0 port 0 0 (RSTATE_INIT 0) false true false 0 0 in
  let m := add_nmsg m in
  let m := set_buf (memcpy (m_msg m) buf len) len (RHDR_SIZ - len) m in
  set_stamps now now m.
Definition port_again (buf : list Z) (len now : Z) (m : RMsg) : RMsg :=
  let m := add_nmsg m in
  let m :=
    if RHDR_SIZ <=? len then set_buf (memcpy (m_msg m) buf len) RHDR_SIZ 0 m
    else
      let space := if m_left m <? len then m_left m else len in
      set_buf (take (Z.to_nat (m_written m)) (m_msg m) ++
               memcpy (drop (Z.to_nat (m_written m)) (m_msg m)) buf space)
        (m_written m + space) (m_left m - space) m in
  set_stamps now now m.
Definition port_reopen (m : RMsg) : RMsg :=
  if m_clr m then set_active true false (set_state (RSTATE_INIT (ack (m_state m))) m) else m.

Section Server.
Context (fs : files) {P A : Type} `{RBTree Z RMsg P} `{RBTree Z (RAddr P) A}.

(** [rhandle_port]: [None] while it waits for the mutex. *)
Definition rhandle_port (buf : list Z) (len port now : Z) (create_ok : bool) (p_tree : P)
    : ub (option (P * bool * bool)) :=
  let '(m, old_time, p_tree) :=
    match rb_find port p_tree with
    | None =>
      let m := port_new buf len port now in (m, 0, (rb_insert port m p_tree).2)
    | Some m => (port_again buf len now m, m_his m, p_tree)
    end in
  let m := port_reopen m in
  if m_lock m then Ok None else
  '(m, ret, created) ← port_locked fs old_time create_ok (set_lock true m);
  Ok (Some (rb_modify port (fun _ => m) p_tree, ret, created)).

(** [rhandle_serv]: a new address is inserted only when its first datagram is
    handled. *)
Definition rhandle_serv (buf : list Z) (len addr port now : Z) (create_ok : bool) (tree : A)
    : ub (option (A * bool)) :=
  let addr := if addr =? 0 then LOCALHOST_ADDRV else addr in
  match rb_find addr tree with
  | None =>
    r ← rhandle_port buf len port now create_ok rb_empty;
    Ok (match r with
        | None => None
        | Some (pt, ret, created) =>
          if negb ret then Some (tree, false)
          else Some ((rb_insert addr (MkRAddr 2 pt now) tree).2, created)
        end)
  | Some a =>
    r ← rhandle_port buf len port now create_ok (port_tree a);
    Ok (match r with
        | None => None
        | Some (pt, ret, created) => Some (rb_modify addr (fun a => MkRAddr (ncons a) pt now) tree, created)
        end)
  end.

(** The body of the loops of [rhandle_retransmit] for one port: the port, and
    whether a thread was created. *)
Definition retransmit_port (freeze : Z) (create_ok : bool) (m : RMsg) : RMsg * bool :=
  if negb (m_ona m) && negb (m_clr m) && negb (m_lock m) then
    (set_active false true (set_state (rstate_destroy (m_state m)) m), false)
  else if (MAX_TIMEOUT <=? freeze - m_mys m) && m_ona m && negb (m_clr m) && negb (m_lock m) then
    let m := set_lock true m in
    let m := if DEAD_TIMEOUT <=? freeze - m_his m then set_active false (m_clr m) m else m in
    (set_stamps freeze (m_his m) m, create_ok)
  else (m, false).

(** [rhandle_retransmit] on the ports of one address, and on all addresses, with
    the threads created. *)
Definition retransmit_ports (freeze : Z) (create_ok : bool) (t : P) : P * list Z :=
  (foldl (fun t k => rb_modify k (fun m => fst (retransmit_port freeze create_ok m)) t) t (rb_elems t).*1,
   omap (fun '(k, m) => if snd (retransmit_port freeze create_ok m) then Some k else None) (rb_elems t)).
Definition rhandle_retransmit (freeze : Z) (create_ok : bool) (tree : A) : A * list (Z * Z) :=
  (foldl (fun t k => rb_modify k (fun a =>
       MkRAddr (ncons a) (fst (retransmit_ports freeze create_ok (port_tree a))) (a_stamp a)) t)
     tree (rb_elems tree).*1,
   rb_elems tree ≫= fun '(k, a) => (fun p => (k, p)) <$> snd (retransmit_ports freeze create_ok (port_tree a))).

(** [rhandle_destroy], after its call of [rhandle_retransmit]. *)
Definition rhandle_destroy (tree : A) : A :=
  foldl (fun t k => (rb_remove k t).2) tree (rb_elems tree).*1.

(** The server: the tree and the threads that have not run yet. *)
Record server := Server { addr_tree : A; threads : list (Z * Z) }.

Inductive sevent :=
  | Timeout (now : Z) (create_ok : bool)
  | Datagram (buf : list Z) (len addr port now : Z) (create_ok : bool)
  | RunThread (addr port : Z).

Definition lookup_port (tree : A) (addr port : Z) : option RMsg :=
  a ← rb_find addr tree; rb_find port (port_tree a).
Definition update_port (tree : A) (addr port : Z) (m : RMsg) : A :=
  rb_modify addr (fun a => MkRAddr (ncons a) (rb_modify port (fun _ => m) (port_tree a)) (a_stamp a)) tree.

(** One event; [None] when it cannot happen yet.  A thread sends a packet. *)
Definition sstep (e : sevent) (s : server) : ub (option (server * option RHdr)) :=
  match e with
  | Timeout now create_ok =>
    let '(t, l) := rhandle_retransmit now create_ok (addr_tree s) in
    Ok (Some (Server t (threads s ++ l), None))
  | Datagram buf len addr port now create_ok =>
    r ← rhandle_serv buf len addr port now create_ok (addr_tree s);
    Ok (match r with
        | None => None
        | Some (t, created) =>
          let addr := if addr =? 0 then LOCALHOST_ADDRV else addr in
          Some (Server t (threads s ++ if (created : bool) then [(addr, port)] else []), None)
        end)
  | RunThread addr port =>
    if bool_decide ((addr, port) ∈ threads s) then
      match lookup_port (addr_tree s) addr port with
      | None => UB null_deref
      | Some m =>
        '(m, sent) ← csock_send m;
        Ok (Some (Server (update_port (addr_tree s) addr port m)
                    (filter (fun x => x <> (addr, port)) (threads s)), sent))
      end
    else Ok None
  end.

(** A run: events that cannot happen yet are passed over. *)
Fixpoint srun (es : list sevent) (s : server) : ub (server * list RHdr) :=
  match es with
  | [] => Ok (s, [])
  | e :: es =>
    r ← sstep e s;
    match r with
    | None => srun es s
    | Some (s, sent) =>
      '(s, l) ← srun es s;
      Ok (s, match sent with Some p => p :: l | None => l end)
    end
  end.
End Server.
Arguments server : clear implicits.
Arguments Server {A}.

(** ** The outcome of a request *)

(** [curr] points into MYS. *)
Definition curr_ok (s : RState) : Prop :=
  match curr s with Some i => (i < length (MYS s))%nat | None => True end.

Definition good (r : ub (RState * Z)) : Prop :=
  forall s rc, r = Ok (s, rc) -> curr_ok s /\ (rc = 1 \/ rc = 2 -> is_Some (curr s)) /\ 0 <= rc <= 3.

Lemma good_Ok s rc :
  curr_ok s -> (rc = 1 \/ rc = 2 -> is_Some (curr s)) -> 0 <= rc <= 3 -> good (Ok (s, rc)).
Proof. by intros ? ? ? ? ? [= <- <-]. Qed.

Lemma upd_curr_ok f s : curr_ok s -> curr_ok (upd_curr f s).
Proof. unfold curr_ok, upd_curr. destruct (curr s) eqn:E; cbn; rewrite ?E; [|done]. by rewrite length_alter. Qed.

Lemma append_curr_ok s : curr_ok (append_curr s).
Proof. rewrite append_curr_eq. unfold curr_ok. cbn. rewrite length_app. simpl. lia. Qed.

Section Good.
Context (fs : files).

Lemma RET_PKT_good s : curr_ok s -> good (RET_PKT s).
Proof.
  intros Hs. unfold RET_PKT, WORSE_CHK. destruct (curr s) eqn:Ec; apply good_Ok; rewrite ?Ec; done || lia.
Qed.

Lemma SND_PKT_good s : curr_ok s -> good (SND_PKT s).
Proof.
  intros Hs. unfold SND_PKT. apply RET_PKT_good. destruct (at_curr s); [|done].
  case_if; [by apply upd_curr_ok|done].
Qed.

Lemma INVALID_NAK_good h s : curr_ok s -> good (INVALID_NAK h s).
Proof.
  intros Hs. unfold INVALID_NAK, BAD_CHK, WORSE_CHK. case_if; [by apply SND_PKT_good|].
  destruct (curr s) eqn:Ec; apply good_Ok; rewrite ?Ec; done || lia.
Qed.

Lemma process_get_good h s : curr_ok s -> good (process_get fs h s).
Proof.
  intros Hs. unfold process_get. destruct (set_fname fs (msg h)) as [f ok].
  case_if; [apply good_Ok; [done|lia|lia]|]. destruct (fopen fs f); [|apply good_Ok; [done|lia|lia]].
  apply SND_PKT_good. apply (upd_curr_ok _ _ (upd_curr_ok _ _ (append_curr_ok s))).
Qed.

Lemma process_ack_good s : curr_ok s -> good (process_ack fs s).
Proof.
  intros Hs. unfold process_ack. destruct (deref _) as [req|]; [|done]. cbn [mbind ub_bind].
  destruct (set_fname fs (msg req)) as [f ok].
  case_if; [apply good_Ok; [done|lia|lia]|]. destruct (fopen fs f); [|apply good_Ok; [done|lia|lia]].
  pose proof (append_curr_ok s) as Ha.
  case_if; [apply SND_PKT_good, (upd_curr_ok _ _ Ha)|].
  case_if; apply SND_PKT_good.
  - apply (upd_curr_ok _ _ (upd_curr_ok _ _ (upd_curr_ok _ _ Ha))).
  - apply (upd_curr_ok _ _ (upd_curr_ok _ _ Ha)).
Qed.

Lemma process_checked_good h s : curr_ok s -> good (process_checked fs h s).
Proof.
  intros Hs. unfold process_checked.
  case_if; [case_if; [by apply RET_PKT_good|by apply INVALID_NAK_good]|].
  case_if; [by apply process_get_good|]. case_if; [by apply process_ack_good|].
  case_if; [|by apply INVALID_NAK_good]. apply good_Ok; [|lia|lia]. unfold process_fin.
  pose proof (append_curr_ok s) as Ha. apply (upd_curr_ok (fun e => FLAG_SET (FLAG_SET e ACK) FIN)) in Ha.
  set (s1 := upd_curr _ (append_curr s)) in *.
  set (s2 := if FLAG_CHECK h CHK then _ else s1).
  assert (curr_ok s2) as H2 by (unfold s2; case_if; [by apply upd_curr_ok|done]).
  set (s3 := if FLAG_CHECK h ENC then _ else s2).
  assert (curr_ok s3) as H3 by (unfold s3; case_if; [by apply upd_curr_ok|done]).
  apply (upd_curr_ok (set_ACKN (seq s3))) in H3. change (curr_ok (bump (upd_curr (set_ACKN (seq s3)) s3))) in H3.
  case_if; [by apply upd_curr_ok|done].
Qed.

Lemma process_seq_good h s : curr_ok s -> good (process_seq fs h s).
Proof.
  intros Hs. unfold process_seq. destruct (curr s).
  - case_if; [by apply RET_PKT_good|by apply process_checked_good].
  - case_if; [apply good_Ok; [done|lia|lia]|by apply process_checked_good].
Qed.

Lemma receive_good s p : good (receive fs s p).
Proof.
  rewrite receive_entered. cbv zeta.
  assert (forall q, curr_ok (entered s q) /\ curr_ok (set_chksum true (entered s q))) as He.
  { intros q. unfold curr_ok; cbn. destruct (MYS s); simpl; lia. }
  case_if; [apply INVALID_NAK_good, He|]. unfold BAD_CHK, WORSE_CHK.
  case_if. { apply good_Ok; [apply He| |lia]. intros _. cbool. tauto. }
  case_if; [|apply process_seq_good, He]. destruct (curr (entered s (convert_bytes p true))) eqn:Ec.
  - case_if; [|apply process_seq_good, He]. apply good_Ok; [apply He| |lia]. by rewrite Ec.
  - case_if; [|apply process_seq_good, He]. apply good_Ok; [apply He|lia|lia].
Qed.
End Good.

(** ** Ports *)

(** What holds of a port; [pending] says whether a thread of it has not run. *)
Record port_ok (fs : files) (pending : bool) (m : RMsg) : Prop := {
  po_conn : conn_ok fs (m_state m);
  po_curr : curr_ok (m_state m);
  po_size : m_written m + m_left m = RHDR_SIZ /\ 0 <= m_left m;
  po_lock : pending = true -> m_lock m = true;
  po_clr : m_clr m = true -> m_ona m = false /\ MYS (m_state m) = [];
  po_ona : m_ona m = true -> is_Some (curr (m_state m)) \/ (m_lock m = true /\ pending = false) }.

Lemma at_curr_some s : curr_ok s -> is_Some (curr s) -> exists e, at_curr s = Some e.
Proof.
  unfold curr_ok, at_curr. intros Hc [i Hi]. rewrite Hi in *. cbn.
  destruct (lookup_lt_is_Some_2 _ _ Hc) as [e He]. eauto.
Qed.

Lemma upd_curr_back s :
  Forall fits (MYS s) ->
  upd_curr (fun h => convert_bytes h true) (upd_curr (fun h => convert_bytes h false) s) = s.
Proof.
  intros Hf. unfold upd_curr. destruct (curr s) as [i|] eqn:E; [|by rewrite E].
  cbn. rewrite E. destruct s as [mys his c r nk a q ck]; unfold set_MYS; cbn in *. f_equal.
  apply list_eq. intros j. rewrite !list_lookup_alter.
  case_decide as Hij; [subst j|done]. rewrite decide_True by done.
  destruct (mys !! i) as [e|] eqn:Ei; [|done]. cbn. f_equal.
  apply convert_bytes_inv. by eapply Forall_lookup_1 in Hf.
Qed.

Lemma conn_fits fs s : conn_ok fs s -> Forall fits (MYS s).
Proof.
  intros (_ & _ & Hm). destruct (decide (MYS s = [])) as [->|Hne]; [done|].
  destruct (Hm Hne) as (d & _ & Hp). apply Forall_lookup_2. intros i e Hi. apply (Hp i e Hi).
Qed.

Lemma csock_send_ok fs m :
  port_ok fs true m -> exists m' sent, csock_send m = Ok (m', sent) /\ port_ok fs false m'.
Proof.
  intros [Hc Hcur Hsz Hl Hclr Hona]. unfold csock_send.
  destruct (m_ona m) eqn:Eo; cbn [negb andb].
  2: { destruct (m_clr m) eqn:Ec; cbn [negb andb]; do 2 eexists; (split; [done|]);
         by split; cbn; rewrite ?Eo, ?Ec. }
  rewrite andb_false_r. destruct (Hona eq_refl) as [Hsome|[_ ?]]; [|done].
  destruct (at_curr_some _ Hcur Hsome) as [e He]. rewrite He. cbn [deref mbind ub_bind].
  do 2 eexists. split; [done|]. pose proof (upd_curr_back (m_state m) (conn_fits fs _ Hc)) as Hb.
  split; cbn; try case_if; cbn; rewrite ?Hb; try done; auto;
    intros Hx; first [by left|by destruct (Hclr Hx)].
Qed.

Lemma port_locked_ok fs old_time create_ok m :
  m_lock m = true -> m_clr m = false -> port_ok fs false m ->
  exists m' ret created, port_locked fs old_time create_ok m = Ok (m', ret, created) /\
    port_ok fs created m' /\ (ret = false -> created = false) /\ (created = true -> m_left m = 0).
Proof.
  intros Hlock Hclear [Hc Hcur Hsz _ Hclr Hona]. unfold port_locked.
  case_if. 2: { do 3 eexists. split; [done|]. split; [by split|]. done. }
  cbool. assert (forall s : RState, m_clr m = true -> m_ona m = false /\ MYS s = []) as Hclr' by congruence.
  destruct (receive_ok fs (m_state m) (hdr_of_bytes (m_msg m)) Hc) as (s & rc & Hr & Hc').
  destruct (receive_good fs (m_state m) (hdr_of_bytes (m_msg m)) s rc Hr) as (Hcur' & Hsome & Hrc).
  rewrite Hr. cbn [mbind ub_bind].
  destruct (Z.eqb_spec rc 2) as [->|H2].
  { do 3 eexists. split; [done|]. split; [|done]. split; try done; try exact (Hclr' s). intros _. left. apply Hsome. by right. }
  destruct (Z.eqb_spec rc 3) as [->|H3].
  { do 3 eexists. split; [done|]. split; [|done]. by split. }
  destruct (Z.eqb_spec rc 0) as [->|H0]; cbn [andb].
  - case_bool_decide as Hn.
    + do 3 eexists. split; [done|]. split; [|split; [done|lia]]. by split.
    + do 3 eexists. split; [done|]. split; [|split; [done|lia]]. split; try done; try exact (Hclr' s).
      intros _. left. cbn. destruct (curr s); [eauto|done].
  - do 3 eexists. split; [done|]. split; [|split; [done|lia]]. split; try done; try exact (Hclr' s).
    intros _. left. apply Hsome. lia.
Qed.

Lemma retransmit_port_ok fs freeze create_ok m pending :
  port_ok fs pending m ->
  port_ok fs (pending || snd (retransmit_port freeze create_ok m)) (fst (retransmit_port freeze create_ok m)) /\
  (snd (retransmit_port freeze create_ok m) = true -> pending = false).
Proof.
  intros [Hc Hcur Hsz Hl Hclr Hona]. unfold retransmit_port.
  case_if.
  { rewrite orb_false_r. split; [|done]. by split. }
  case_if; [|rewrite orb_false_r; split; [by split|done]].
  cbool. destruct E0 as [[[_ Ho] Hcl] Hlk].
  assert (pending = false) as -> by (destruct pending; [|done]; specialize (Hl eq_refl); congruence).
  split; [|done]. cbn [orb fst snd].
  destruct (Hona Ho) as [Hs|[? _]]; [|congruence].
  split; cbn; try case_if; cbn; try done; try (by left); congruence.
Qed.

(** ** The server *)

Lemma port_new_ok fs buf len port now :
  0 <= len <= RHDR_SIZ -> port_ok fs false (set_lock true (port_reopen (port_new buf len port now))).
Proof.
  intros Hlen. split; try done; cbn; [lia|]. intros _. by right.
Qed.

Lemma port_again_ok fs buf len now m :
  0 <= len <= RHDR_SIZ -> port_ok fs false m ->
  port_ok fs false (set_lock true (port_reopen (port_again buf len now m))) /\
  m_lock (port_reopen (port_again buf len now m)) = m_lock m /\
  m_clr (port_reopen (port_again buf len now m)) = false.
Proof.
  intros Hlen [Hc Hcur [Hw Hl] _ Hclr _]. unfold port_reopen, port_again.
  set (m1 := if RHDR_SIZ <=? len then _ else _).
  assert (m_state m1 = m_state m /\ m_clr m1 = m_clr m /\ m_lock m1 = m_lock m /\
    m_written m1 + m_left m1 = RHDR_SIZ /\ 0 <= m_left m1) as (Hs & Hcl & Hlk & Hsum & Hge).
  { unfold m1. case_if; cbn; cbool; [done|]. case_if; cbool; repeat split; lia. }
  cbn. rewrite Hcl. destruct (m_clr m) eqn:Ec; cbn.
  - split; [|by rewrite Hlk]. destruct (Hclr eq_refl) as [_ Hm]. split; try done; cbn.
    + split; [|split]; cbn; [|lia|done]. rewrite Hs. destruct Hc as (-> & _ & _). by rewrite Hm.
    + intros _. by right.
  - split; [|by rewrite Hlk, Hcl]. split; try done; cbn; rewrite ?Hs, ?Hcl; try done. intros _. by right.
Qed.

Section ServerOk.
Context (fs : files) {P A : Type} `{RBTree Z RMsg P} `{RBTree Z (RAddr P) A}.
Context (rb_mapP : P -> gmap Z RMsg) `{!RBTreeLaws Z RMsg P rb_mapP}.
Context (rb_mapA : A -> gmap Z (RAddr P)) `{!RBTreeLaws Z (RAddr P) A rb_mapA}.

(** The ports of an address, seen as a map; [pend] holds of those with a thread. *)
Definition ports_ok (pend : Z -> bool) (t : P) : Prop :=
  forall p m, rb_mapP t !! p = Some m -> port_ok fs (pend p) m.

Lemma rhandle_port_ok pend buf len port now create_ok t :
  0 <= len <= RHDR_SIZ -> ports_ok pend t ->
  (pend port = true -> is_Some (rb_mapP t !! port)) ->
  rhandle_port fs buf len port now create_ok t = Ok None \/
  exists t' m ret created, rhandle_port fs buf len port now create_ok t = Ok (Some (t', ret, created)) /\
    rb_mapP t' = <[port := m]> (rb_mapP t) /\ port_ok fs created m /\ pend port = false /\
    (ret = false -> created = false).
Proof.
  intros Hlen Hok Hpend. unfold rhandle_port. rewrite (rb_find_map (rb_map := rb_mapP)).
  destruct (rb_mapP t !! port) as [m|] eqn:Em.
  - pose proof (Hok port m Em) as Hm. destruct (m_lock m) eqn:El.
    { left. assert (m_lock (port_reopen (port_again buf len now m)) = true) as ->; [|done].
      rewrite <- El. unfold port_reopen, port_again. by repeat case_if. }
    assert (pend port = false) as Hp.
    { destruct (pend port) eqn:Ep; [|done]. pose proof (po_lock _ _ _ Hm eq_refl). congruence. }
    rewrite Hp in Hm. destruct (port_again_ok fs buf len now m Hlen Hm) as (Hm1 & Hl1 & Hc1).
    right. rewrite Hl1, El.
    destruct (port_locked_ok fs (m_his m) create_ok (set_lock true (port_reopen (port_again buf len now m))))
      as (m' & ret & created & -> & Hm' & Hr & _); [done|exact Hc1|exact Hm1|].
    cbn [mbind ub_bind]. do 4 eexists. split; [done|]. split; [|done].
    rewrite (rb_modify_map (rb_map := rb_mapP)). apply map_eq. intros i.
    destruct (decide (i = port)) as [->|Hne].
    + by rewrite lookup_alter_eq, Em, lookup_insert_eq.
    + by rewrite lookup_alter_ne, lookup_insert_ne.
  - assert (pend port = false) as Hp by (destruct (pend port); [destruct Hpend; congruence|done]).
    right. change (m_lock (port_reopen (port_new buf len port now))) with false. cbv iota.
    destruct (port_locked_ok fs 0 create_ok (set_lock true (port_reopen (port_new buf len port now))))
      as (m' & ret & created & -> & Hm' & Hr & _); [done|done|by apply port_new_ok|].
    cbn [mbind ub_bind]. do 4 eexists. split; [done|]. split; [|done].
    rewrite (rb_modify_map (rb_map := rb_mapP)), (rb_insert_map (rb_map := rb_mapP)), Em.
    apply map_eq. intros i. destruct (decide (i = port)) as [->|Hne].
    + by rewrite lookup_alter_eq, !lookup_insert_eq.
    + by rewrite lookup_alter_ne, !lookup_insert_ne.
Qed.

Lemma lookup_port_map tree a p :
  lookup_port tree a p = x ← rb_mapA tree !! a; rb_mapP (port_tree x) !! p.
Proof.
  unfold lookup_port. rewrite (rb_find_map (rb_map := rb_mapA)).
  destruct (rb_mapA tree !! a); cbn; [apply (rb_find_map (rb_map := rb_mapP))|done].
Qed.

(** The state of the server: every thread has a port, whose mutex it holds. *)
Record server_ok (s : server A) : Prop := {
  so_thread : forall a p, (a, p) ∈ threads s -> is_Some (lookup_port (addr_tree s) a p);
  so_port : forall a p m, lookup_port (addr_tree s) a p = Some m ->
    port_ok fs (bool_decide ((a, p) ∈ threads s)) m }.

Definition sevent_ok (e : sevent) : Prop :=
  match e with Datagram _ len _ _ _ _ => 0 <= len <= RHDR_SIZ | _ => True end.

(** A thread runs. *)
Lemma thread_ok s a p m :
  server_ok s -> (a, p) ∈ threads s -> lookup_port (addr_tree s) a p = Some m ->
  exists m' sent, csock_send m = Ok (m', sent) /\
    server_ok (Server (update_port (addr_tree s) a p m') (filter (fun x => x <> (a, p)) (threads s))) /\
    (forall a' p', (a', p') <> (a, p) ->
       lookup_port (update_port (addr_tree s) a p m') a' p' = lookup_port (addr_tree s) a' p').
Proof.
  intros [Ht Hp] Hin Hm. pose proof (Hp a p m Hm) as Hok. rewrite bool_decide_true in Hok by done.
  destruct (csock_send_ok fs m Hok) as (m' & sent & Hs & Hok'). exists m', sent. split; [done|].
  assert (forall a' p', lookup_port (update_port (addr_tree s) a p m') a' p' =
    if bool_decide ((a', p') = (a, p)) then Some m' else lookup_port (addr_tree s) a' p') as Hl.
  { intros a' p'. rewrite !lookup_port_map. rewrite lookup_port_map in Hm. unfold update_port.
    rewrite (rb_modify_map (rb_map := rb_mapA)). destruct (decide (a' = a)) as [->|Hne].
    - rewrite lookup_alter_eq. destruct (rb_mapA (addr_tree s) !! a) as [x|] eqn:Ea; [|done]. cbn in *.
      rewrite (rb_modify_map (rb_map := rb_mapP)). destruct (decide (p' = p)) as [->|Hne].
      + by rewrite bool_decide_true, lookup_alter_eq, Hm.
      + by rewrite bool_decide_false, lookup_alter_ne by congruence.
    - by rewrite lookup_alter_ne, bool_decide_false by congruence. }
  split; [|intros a' p' Hne; by rewrite Hl, bool_decide_false].
  split; cbn; intros a' p'.
  - intros [Hne Hin']%list_elem_of_filter. rewrite Hl, bool_decide_false by done. by apply Ht.
  - intros m1. rewrite Hl. case_bool_decide as Heq.
    + intros [= <-]. injection Heq as -> ->. rewrite bool_decide_false; [done|].
      by intros [? _]%list_elem_of_filter.
    + intros Hm1. specialize (Hp a' p' m1 Hm1).
      rewrite (bool_decide_ext _ ((a', p') ∈ threads s)); [done|]. rewrite list_elem_of_filter. tauto.
Qed.

(** A datagram. *)
Lemma datagram_ok s buf len addr port now create_ok :
  0 <= len <= RHDR_SIZ -> server_ok s ->
  rhandle_serv fs buf len addr port now create_ok (addr_tree s) = Ok None \/
  exists t created, rhandle_serv fs buf len addr port now create_ok (addr_tree s) = Ok (Some (t, created)) /\
    let a := if addr =? 0 then LOCALHOST_ADDRV else addr in
    server_ok (Server t (threads s ++ if created then [(a, port)] else [])) /\
    (forall a' p', (a', p') <> (a, port) -> lookup_port t a' p' = lookup_port (addr_tree s) a' p').
Proof.
  intros Hlen [Ht Hp]. unfold rhandle_serv. set (a := if addr =? 0 then LOCALHOST_ADDRV else addr).
  rewrite (rb_find_map (rb_map := rb_mapA)).
  assert (forall t x m created, rb_mapA t = <[a := x]> (rb_mapA (addr_tree s)) ->
    rb_mapP (port_tree x) = <[port := m]> (default ∅ (rb_mapP <$> (port_tree <$> rb_mapA (addr_tree s) !! a))) ->
    port_ok fs created m -> ((a, port) ∈ threads s -> False) ->
    server_ok (Server t (threads s ++ if created then [(a, port)] else [])) /\
    (forall a' p', (a', p') <> (a, port) -> lookup_port t a' p' = lookup_port (addr_tree s) a' p')) as Hfin.
  { intros t x m created Hta Hx Hm Hno.
    assert (forall a' p', lookup_port t a' p' =
      if bool_decide ((a', p') = (a, port)) then Some m else lookup_port (addr_tree s) a' p') as Hl.
    { intros a' p'. rewrite !lookup_port_map, Hta. destruct (decide (a' = a)) as [->|Hne].
      - rewrite lookup_insert_eq. cbn. rewrite Hx. destruct (decide (p' = port)) as [->|Hne].
        + by rewrite lookup_insert_eq, bool_decide_true.
        + rewrite lookup_insert_ne, bool_decide_false by congruence.
          by destruct (rb_mapA (addr_tree s) !! a).
      - by rewrite lookup_insert_ne, bool_decide_false by congruence. }
    split; [|intros a' p' Hne; by rewrite Hl, bool_decide_false].
    split; cbn; intros a' p'.
    - intros [Hin|Hin]%elem_of_app.
      + rewrite Hl. case_bool_decide; [eauto|]. by apply Ht.
      + rewrite Hl, bool_decide_true; [eauto|]. destruct created; set_solver.
    - intros m1. rewrite Hl. case_bool_decide as Heq.
      + intros [= <-]. injection Heq as -> ->. destruct created.
        * by rewrite bool_decide_true by set_solver.
        * rewrite app_nil_r. by rewrite bool_decide_false.
      + intros Hm1. specialize (Hp a' p' m1 Hm1).
        rewrite (bool_decide_ext _ ((a', p') ∈ threads s)); [done|]. destruct created; set_solver. }
  destruct (rb_mapA (addr_tree s) !! a) as [x|] eqn:Ea.
  - assert (ports_ok (fun p => bool_decide ((a, p) ∈ threads s)) (port_tree x)) as Hx.
    { intros p m Hm. apply Hp. rewrite lookup_port_map, Ea. exact Hm. }
    destruct (rhandle_port_ok _ buf len port now create_ok (port_tree x) Hlen Hx)
      as [-> | (t' & m & ret & created & -> & Hm & Hok & Hpd & _)]; [|by left|right].
    { intros Hb%bool_decide_eq_true. apply Ht in Hb. by rewrite lookup_port_map, Ea in Hb. }
    apply bool_decide_eq_false in Hpd. cbn [mbind ub_bind].
    eexists _, created. split; [done|]. eapply (Hfin _ (MkRAddr (ncons x) t' now)); [|exact Hm|done|done].
    rewrite (rb_modify_map (rb_map := rb_mapA)). apply map_eq. intros i.
    destruct (decide (i = a)) as [->|Hne].
    + by rewrite lookup_alter_eq, Ea, lookup_insert_eq.
    + by rewrite lookup_alter_ne, lookup_insert_ne.
  - assert ((a, port) ∈ threads s -> False) as Hno.
    { intros Hin%Ht. rewrite lookup_port_map, Ea in Hin. by destruct Hin. }
    destruct (rhandle_port_ok (fun _ => false) buf len port now create_ok rb_empty Hlen)
      as [-> | (t' & m & ret & created & -> & Hm & Hok & _ & Hret)];
      [by intros p m; rewrite (rb_map_empty (rb_map := rb_mapP))|done|by left|right].
    cbn [mbind ub_bind]. destruct ret; cbn [negb].
    + eexists _, created. split; [done|]. eapply (Hfin _ (MkRAddr 2 t' now)); [|cbn; rewrite Hm|done|done].
      * by rewrite (rb_insert_map (rb_map := rb_mapA)), Ea.
      * by rewrite (rb_map_empty (rb_map := rb_mapP)).
    + eexists _, false. split; [done|]. rewrite app_nil_r. by split.
Qed.

(** The timeouts. *)
Lemma retransmit_ports_map freeze create_ok t :
  rb_mapP (fst (retransmit_ports freeze create_ok t)) =
  (fun m => fst (retransmit_port freeze create_ok m)) <$> rb_mapP t.
Proof. apply (rb_modify_all rb_mapP). Qed.

Lemma retransmit_lookup freeze create_ok tree a p :
  lookup_port (fst (rhandle_retransmit freeze create_ok tree)) a p =
  (fun m => fst (retransmit_port freeze create_ok m)) <$> lookup_port tree a p.
Proof.
  rewrite !lookup_port_map. cbn [rhandle_retransmit fst]. rewrite (rb_modify_all rb_mapA), lookup_fmap.
  destruct (rb_mapA tree !! a); cbn [fmap option_fmap option_map mbind option_bind port_tree]; [|done].
  by rewrite retransmit_ports_map, lookup_fmap.
Qed.

Lemma retransmit_threads freeze create_ok tree a p :
  (a, p) ∈ snd (rhandle_retransmit freeze create_ok tree) <->
  exists m, lookup_port tree a p = Some m /\ snd (retransmit_port freeze create_ok m) = true.
Proof.
  cbn [rhandle_retransmit snd]. rewrite list_elem_of_bind. split.
  - intros ([a' x] & Hin & Hx). rewrite (elem_of_rb_elems rb_mapA) in Hx.
    apply list_elem_of_fmap in Hin as (p' & [= -> ->] & Hp). cbn [retransmit_ports snd] in Hp.
    apply list_elem_of_omap in Hp as ([k m] & Hm & Hk). rewrite (elem_of_rb_elems rb_mapP) in Hm.
    case_if in Hk; [|done]. injection Hk as ->.
    exists m. rewrite lookup_port_map, Hx. by split.
  - intros (m & Hm & Hs). rewrite lookup_port_map in Hm.
    destruct (rb_mapA tree !! a) as [x|] eqn:Ea; [|done]. cbn in Hm.
    exists (a, x). rewrite (elem_of_rb_elems rb_mapA). split; [|done].
    apply list_elem_of_fmap. exists p. split; [done|]. apply list_elem_of_omap. exists (p, m).
    rewrite (elem_of_rb_elems rb_mapP), Hs. done.
Qed.

Lemma timeout_ok s freeze create_ok :
  server_ok s ->
  server_ok (Server (fst (rhandle_retransmit freeze create_ok (addr_tree s)))
                    (threads s ++ snd (rhandle_retransmit freeze create_ok (addr_tree s)))).
Proof.
  intros [Ht Hp]. split; cbn [threads addr_tree]; intros a p.
  - rewrite retransmit_lookup, fmap_is_Some. intros [Hin|Hin]%elem_of_app; [by apply Ht|].
    apply retransmit_threads in Hin as (m & Hm & _). eauto.
  - intros m. rewrite retransmit_lookup. intros (m0 & Hm & ->)%fmap_Some.
    destruct (retransmit_port_ok fs freeze create_ok m0 _ (Hp a p m0 Hm)) as [Hok _].
    match goal with |- port_ok _ ?b _ => replace b with
      (bool_decide ((a, p) ∈ threads s) || snd (retransmit_port freeze create_ok m0)) end; [exact Hok|].
    apply eq_true_iff_eq. rewrite orb_true_iff, !bool_decide_eq_true, elem_of_app, retransmit_threads.
    rewrite Hm. naive_solver.
Qed.

(** Every event that is possible keeps the server sound. *)
Lemma sstep_ok e s :
  sevent_ok e -> server_ok s ->
  sstep fs e s = Ok None \/ exists s' sent, sstep fs e s = Ok (Some (s', sent)) /\ server_ok s'.
Proof.
  intros He Hs. destruct e as [now create_ok|buf len addr port now create_ok|a p]; cbn [sstep].
  - right. rewrite (surjective_pairing (rhandle_retransmit now create_ok (addr_tree s))).
    do 2 eexists. split; [done|]. by apply timeout_ok.
  - destruct (datagram_ok s buf len addr port now create_ok He Hs) as [-> | (t & created & -> & Hok & _)];
      [by left|right]. cbn [mbind ub_bind]. by do 2 eexists.
  - case_bool_decide as Hin; [|by left]. right.
    destruct (so_thread s Hs a p Hin) as [m Hm]. rewrite Hm.
    destruct (thread_ok s a p m Hs Hin Hm) as (m' & sent & -> & Hok & _). cbn [mbind ub_bind].
    by do 2 eexists.
Qed.

Lemma server_init_ok : server_ok (Server rb_empty []).
Proof.
  split; cbn [threads addr_tree]; intros a p; [by intros ?%elem_of_nil|].
  intros m. by rewrite lookup_port_map, (rb_map_empty (rb_map := rb_mapA)).
Qed.

Lemma srun_ok es s :
  Forall sevent_ok es -> server_ok s -> exists s' l, srun fs es s = Ok (s', l) /\ server_ok s'.
Proof.
  intros Hes. revert s; induction Hes as [|e es He Hes IH]; intros s Hs; cbn [srun]; [eauto|].
  destruct (sstep_ok e s He Hs) as [-> | (s' & sent & -> & Hs')]; cbn [mbind ub_bind]; [by apply IH|].
  destruct (IH s' Hs') as (s2 & l & -> & Hs2). cbn [mbind ub_bind]. eauto.
Qed.

(** A port whose mutex is locked without a thread that would unlock it. *)
Definition stuck (a p : Z) (s : server A) : Prop :=
  (a, p) ∉ threads s /\ exists m, lookup_port (addr_tree s) a p = Some m /\ m_lock m = true.

Lemma stuck_waits a p s buf len now create_ok :
  a <> 0 -> stuck a p s -> sstep fs (Datagram buf len a p now create_ok) s = Ok None.
Proof.
  intros Ha (_ & m & Hm & Hl). cbn [sstep]. unfold rhandle_serv.
  rewrite (proj2 (Z.eqb_neq a 0)) by done. rewrite (rb_find_map (rb_map := rb_mapA)).
  rewrite lookup_port_map in Hm. destruct (rb_mapA (addr_tree s) !! a) as [x|] eqn:Ea; [|done]. cbn in Hm.
  unfold rhandle_port. rewrite (rb_find_map (rb_map := rb_mapP)), Hm.
  assert (m_lock (port_reopen (port_again buf len now m)) = true) as ->; [|done].
  rewrite <- Hl. unfold port_reopen, port_again. by repeat case_if.
Qed.

Lemma sstep_stuck a p e s s' sent :
  a <> 0 -> sevent_ok e -> server_ok s -> stuck a p s ->
  sstep fs e s = Ok (Some (s', sent)) -> stuck a p s'.
Proof.
  intros Ha He Hs Hst. pose proof Hst as (Hno & m & Hm & Hl).
  destruct e as [now create_ok|buf len addr port now create_ok|a' p'].
  - cbn [sstep]. rewrite (surjective_pairing (rhandle_retransmit now create_ok (addr_tree s))). intros [= <- <-].
    assert (retransmit_port now create_ok m = (m, false)) as Hr.
    { unfold retransmit_port. by rewrite Hl, !andb_false_r. }
    split; cbn [threads addr_tree].
    + intros [?|(m' & Hm' & Hc)%retransmit_threads]%elem_of_app; [done|].
      rewrite Hm in Hm'. injection Hm' as <-. by rewrite Hr in Hc.
    + exists m. split; [|done]. pose proof (retransmit_lookup now create_ok (addr_tree s) a p) as Hlk.
      rewrite Hm in Hlk. cbn [fmap option_fmap option_map] in Hlk. by rewrite Hr in Hlk.
  - destruct (decide ((a, p) = (if addr =? 0 then LOCALHOST_ADDRV else addr, port))) as [Heq|Hne].
    { injection Heq as Heq ->. intros Hstep. exfalso.
      assert (sstep fs (Datagram buf len addr port now create_ok) s =
              sstep fs (Datagram buf len a port now create_ok) s) as Hsame.
      { cbn [sstep]. unfold rhandle_serv. rewrite <- Heq. by rewrite (proj2 (Z.eqb_neq a 0)) by done. }
      rewrite Hsame, stuck_waits in Hstep by done. done. }
    destruct (datagram_ok s buf len addr port now create_ok He Hs) as [Hd | (t & created & Hd & _ & Hf)];
      cbn [sstep]; rewrite Hd; cbn [mbind ub_bind]; [done|]. intros [= <- <-].
    split; cbn [threads addr_tree].
    + rewrite elem_of_app. intros [?|Hin]; [done|]. destruct created; set_solver.
    + exists m. by rewrite Hf.
  - cbn [sstep]. case_bool_decide as Hin; [|done].
    destruct (so_thread s Hs a' p' Hin) as [m' Hm']. rewrite Hm'.
    destruct (thread_ok s a' p' m' Hs Hin Hm') as (m1 & sent1 & -> & _ & Hf). intros [= <- <-].
    split; cbn [threads addr_tree].
    + intros [_ ?]%list_elem_of_filter. done.
    + exists m. rewrite Hf; [done|]. intros [= -> ->]. done.
Qed.

Lemma srun_stuck a p es s s' l :
  a <> 0 -> Forall sevent_ok es -> server_ok s -> stuck a p s -> srun fs es s = Ok (s', l) -> stuck a p s'.
Proof.
  intros Ha Hes. revert s s' l; induction Hes as [|e es He Hes IH]; intros s s' l Hs Hst; cbn [srun].
  { by intros [= <- <-]. }
  pose proof (sstep_stuck a p e s) as Hstep.
  destruct (sstep_ok e s He Hs) as [Hd | (s1 & sent & Hd & Hs1)]; rewrite Hd; cbn [mbind ub_bind].
  - by apply IH.
  - intros ([s2 l2] & Hr & [= <- <-])%ub_bind_ok. eapply (IH s1); [done|by eapply Hstep|exact Hr].
Qed.
End ServerOk.

(** C11: The server never uses a NULL pointer, whatever datagrams arrive, whenever
    threads run or fail to be created, and however long clients stay silent: in
    every run each thread that has not run yet has a port, whose mutex is locked
    and whose current packet exists unless the port was closed in between, and all
    connections stay sound. *)
Theorem srun_safe fs {P A} `{RBTree Z RMsg P} `{RBTree Z (RAddr P) A}
    rb_mapP `{!RBTreeLaws Z RMsg P rb_mapP} rb_mapA `{!RBTreeLaws Z (RAddr P) A rb_mapA} es :
  Forall sevent_ok es ->
  exists s l, srun fs es (Server rb_empty []) = Ok (s, l) /\ server_ok fs s.
Proof. intros Hes. apply (srun_ok fs rb_mapP rb_mapA); [done|]. by apply (server_init_ok fs rb_mapP rb_mapA). Qed.

Lemma short_datagram fs {P A} `{RBTree Z RMsg P} `{RBTree Z (RAddr P) A}
    rb_mapP `{!RBTreeLaws Z RMsg P rb_mapP} rb_mapA `{!RBTreeLaws Z (RAddr P) A rb_mapA}
    s a p buf len now create_ok :
  a <> 0 -> 0 <= len < RHDR_SIZ -> lookup_port (addr_tree s) a p = None -> (a, p) ∉ threads s ->
  exists s', sstep fs (Datagram buf len a p now create_ok) s = Ok (Some (s', None)) /\ stuck a p s'.
Proof.
  intros Ha Hlen Hnone Hth. cbn [sstep]. unfold rhandle_serv.
  rewrite (proj2 (Z.eqb_neq a 0)) by done. rewrite (rb_find_map (rb_map := rb_mapA)).
  rewrite (lookup_port_map rb_mapP rb_mapA) in Hnone.
  set (m := set_lock true (port_reopen (port_new buf len p now))).
  assert (forall t, rb_mapP t !! p = None -> exists t',
    rhandle_port fs buf len p now create_ok t = Ok (Some (t', true, false)) /\ rb_mapP t' !! p = Some m) as Hport.
  { intros t Ht. unfold rhandle_port. rewrite (rb_find_map (rb_map := rb_mapP)), Ht.
    change (m_lock (port_reopen (port_new buf len p now))) with false. cbv iota. fold m.
    unfold port_locked. change (m_left m) with (RHDR_SIZ - len).
    rewrite (proj2 (Z.eqb_neq (RHDR_SIZ - len) 0)) by lia. cbn [andb mbind ub_bind].
    eexists. split; [done|]. rewrite (rb_modify_map (rb_map := rb_mapP)), lookup_alter_eq.
    by rewrite (rb_insert_map (rb_map := rb_mapP)), Ht, lookup_insert_eq. }
  destruct (rb_mapA (addr_tree s) !! a) as [x|] eqn:Ea.
  - destruct (Hport (port_tree x) Hnone) as (t' & -> & Hm). cbn [mbind ub_bind].
    eexists. split; [done|]. split; cbn [threads addr_tree]; [by rewrite app_nil_r|].
    exists m. split; [|done]. rewrite (lookup_port_map rb_mapP rb_mapA), (rb_modify_map (rb_map := rb_mapA)).
    by rewrite lookup_alter_eq, Ea.
  - destruct (Hport rb_empty) as (t' & -> & Hm); [by rewrite (rb_map_empty (rb_map := rb_mapP))|].
    cbn [mbind ub_bind]. eexists. split; [done|]. split; cbn [threads addr_tree]; [by rewrite app_nil_r|].
    exists m. split; [|done]. rewrite (lookup_port_map rb_mapP rb_mapA), (rb_insert_map (rb_map := rb_mapA)), Ea.
    by rewrite lookup_insert_eq.
Qed.

(** A first datagram that is shorter than a packet locks its client out.  The
    mutex of the port stays locked without a thread to unlock it, so that every
    later datagram of that client waits for ever, whatever else happens. *)
Theorem short_datagram_blocks fs {P A} `{RBTree Z RMsg P} `{RBTree Z (RAddr P) A}
    rb_mapP `{!RBTreeLaws Z RMsg P rb_mapP} rb_mapA `{!RBTreeLaws Z (RAddr P) A rb_mapA}
    s a p buf len now create_ok es :
  server_ok fs s -> lookup_port (addr_tree s) a p = None ->
  a <> 0 -> 0 <= len < RHDR_SIZ -> Forall sevent_ok es ->
  exists s1 s2 l, sstep fs (Datagram buf len a p now create_ok) s = Ok (Some (s1, None)) /\
    srun fs es s1 = Ok (s2, l) /\
    forall buf' len' now' create_ok', sstep fs (Datagram buf' len' a p now' create_ok') s2 = Ok None.
Proof.
  intros Hs Hnone Ha Hlen Hes.
  assert ((a, p) ∉ threads s) as Hth.
  { intros Hin. apply (so_thread _ _ Hs) in Hin. rewrite Hnone in Hin. by destruct Hin. }
  destruct (short_datagram fs rb_mapP rb_mapA s a p buf len now create_ok Ha Hlen Hnone Hth) as (s1 & H1 & Hst).
  assert (server_ok fs s1) as Hs1.
  { destruct (sstep_ok fs rb_mapP rb_mapA (Datagram buf len a p now create_ok) s)
      as [Hd|(s' & sent & Hd & Hok)]; [simpl; lia|done|congruence|]. rewrite H1 in Hd. by injection Hd as <- _. }
  destruct (srun_ok fs rb_mapP rb_mapA es s1 Hes Hs1) as (s2 & l & Hr & _).
  exists s1, s2, l. split; [done|]. split; [done|]. intros.
  apply (stuck_waits fs rb_mapP rb_mapA); [done|].
  eapply (srun_stuck fs rb_mapP rb_mapA a p es s1); [done|done|exact Hs1|done|exact Hr].
Qed.

(** ** The properties on an example *)

Abbreviation ports0 := (gmap Z RMsg).
Abbreviation tree0 := (gmap Z (RAddr ports0)).
Definition files0 : files := Files (fun _ => true) (fun _ => Some [1; 2; 3]).
(** The bytes of the request of a file, in network order, and of one that is
    too short. *)
Definition get_bytes : list Z := [0; 1; 0; 0; 0; 0; 0x20; 2; 97] ++ zeros 1463.
Definition sevents0 : list sevent :=
  [Datagram get_bytes 1472 5 80 100 true; RunThread 5 80; Timeout 104 true; RunThread 5 80;
   Datagram [1] 1 5 81 105 true; Datagram get_bytes 1472 5 81 106 true].

(** The server answers and repeats its answer after four seconds. *)
Example srun_example :
  match srun (P := ports0) (A := tree0) files0 sevents0 (Server ∅ []) with
  | Ok (_, l) => (fun h => (SEQN h, FLGV h, take 4 (msg h))) <$> l
  | UB _ => []
  end = [(256, 528, [1; 2; 3; 0]); (256, 528, [1; 2; 3; 0])].
Proof. vm_compute. reflexivity. Qed.

Lemma sevents0_ok : Forall sevent_ok sevents0.
Proof. repeat constructor; vm_compute; discriminate. Qed.

Lemma srun_safe_witness :
  exists s l, srun (P := ports0) (A := tree0) files0 sevents0 (Server rb_empty []) = Ok (s, l) /\
    server_ok files0 s.
Proof.
  exact (srun_safe files0 (P := ports0) (A := tree0) (fun t => t) (fun t => t) sevents0 sevents0_ok).
Defined.

Lemma short_datagram_blocks_witness :
  exists s1 s2 l, sstep (P := ports0) (A := tree0) files0 (Datagram [1] 1 5 81 105 true) (Server rb_empty [])
      = Ok (Some (s1, None)) /\ srun files0 sevents0 s1 = Ok (s2, l) /\
    forall buf len now create_ok, sstep files0 (Datagram buf len 5 81 now create_ok) s2 = Ok None.
Proof.
  refine (short_datagram_blocks files0 (P := ports0) (A := tree0) (fun t => t) (fun t => t)
    (Server rb_empty []) 5 81 [1] 1 105 true sevents0 _ _ _ _ sevents0_ok).
  - exact (server_init_ok files0 (P := ports0) (A := tree0) (fun t => t) (fun t => t)).
  - reflexivity.
  - discriminate.
  - split; [discriminate|reflexivity].
Defined.
