(* ===== verification/RIPop.v ===== *)
(** * Addresses of the link-layer simulation ([2.1.LinkLayerSim/RIPop.h])

    A switch hands addresses of its network out in order, from the address that
    it was given to the last one that the mask allows. *)

From S2P Require Import Prelude.

Definition IP_BOX_SZ := 4.
Definition IP_MAX_SPACE := 32.
Definition IP_SUBNET_MASK := 255.
Definition IP_MAX_NAME := 16.

(** [RIPsingle_t]: the boxes [fst], [snd], [thd] and [frt] of an address. *)
Record RIPsingle := MkIP { fst_ : Z; snd_ : Z; thd : Z; frt : Z }.

(** [RIPop_t]. *)
Record RIPop := MkOp { ip_box : RIPsingle; ip_cur : RIPsingle; ip_max : RIPsingle; space : Z }.

Definition ip_zero : RIPsingle := MkIP 0 0 0 0.
Definition RIPOP_INIT : RIPop := MkOp ip_zero ip_zero ip_zero 0.

(** [enum ip_bit]. *)
Definition bi_fi := 8.
Definition bi_se := 16.
Definition bi_th := 24.
Definition bi_fo := 32.

(** The first part of [rIpop_assign_ip]: the address after the current one. *)
Definition next_ip (c : RIPsingle) : RIPsingle :=
  if frt c <? IP_SUBNET_MASK then MkIP (fst_ c) (snd_ c) (thd c) (u8 (frt c + 1))
  else if thd c <? IP_SUBNET_MASK then MkIP (fst_ c) (snd_ c) (u8 (thd c + 1)) 0
  else if snd_ c <? IP_SUBNET_MASK then MkIP (fst_ c) (u8 (snd_ c + 1)) 0 (frt c)
  else if fst_ c <? IP_SUBNET_MASK then MkIP (u8 (fst_ c + 1)) 0 (thd c) (frt c)
  else c.

Definition ip_below (a m : RIPsingle) : bool :=
  (frt a <=? frt m) && (snd_ a <=? snd_ m) && (thd a <=? thd m) && (fst_ a <=? fst_ m).

(** [rIpop_assign_ip]: the state, the address and the result. *)
Definition rIpop_assign_ip (op : RIPop) (increment : bool) : RIPop * RIPsingle * bool :=
  let ip := next_ip (ip_cur op) in
  if increment then
    if ip_below ip (ip_max op) then (MkOp (ip_box op) ip (ip_max op) (space op), ip, true)
    else (op, ip_zero, false)
  else (op, ip, true).

(** One turn of the first loop of [rIpop_justify]. *)
Definition justify_bit (m : RIPsingle) (i : Z) : RIPsingle :=
  if i <? bi_fi then MkIP (fst_ m) (snd_ m) (thd m) (u8 (Z.lor (frt m) (Z.shiftl 1 i)))
  else if (bi_fi <=? i) && (i <? bi_se) then
    MkIP (fst_ m) (snd_ m) (u8 (Z.lor (thd m) (Z.shiftl 1 (i - bi_fi)))) (frt m)
  else if (bi_se <=? i) && (i <? bi_th) then
    MkIP (fst_ m) (u8 (Z.lor (snd_ m) (Z.shiftl 1 (i - bi_se)))) (thd m) (frt m)
  else if (bi_th <=? i) && (i <? bi_fo) then
    MkIP (u8 (Z.lor (fst_ m) (Z.shiftl 1 (i - bi_th)))) (snd_ m) (thd m) (frt m)
  else m.

(** The second loop: a box without a bit is that of the current address. *)
Definition justify_box (m c : Z) : Z := if m =? 0 then c else m.

(** [rIpop_justify]. *)
Definition rIpop_justify (op : RIPop) (sp : Z) : RIPop :=
  let sp := u8 (IP_MAX_SPACE - sp) in
  let m := foldl justify_bit (ip_max op) (seqZ 0 (Z.min IP_MAX_SPACE sp)) in
  let c := ip_cur op in
  MkOp (ip_box op) c
    (MkIP (justify_box (fst_ m) (fst_ c)) (justify_box (snd_ m) (snd_ c))
          (justify_box (thd m) (thd c)) (justify_box (frt m) (frt c))) sp.

(** ** Text *)

(** ["%u"] of a number from 0 to 255. *)
Definition dec_digit (d : Z) : Ascii.ascii := Ascii.ascii_of_nat (Z.to_nat (48 + d)).
Definition dec (b : Z) : string :=
  if b <? 10 then String (dec_digit b) ""
  else if b <? 100 then String (dec_digit (b / 10)) (String (dec_digit (b mod 10)) "")
  else String (dec_digit (b / 100)) (String (dec_digit (b / 10 mod 10)) (String (dec_digit (b mod 10)) "")).

(** The loop of [rIpop_op_to_str]: [buf] is the text up to [where], and the
    [snprintf] writes the number, a dot and a NUL after it. *)
Fixpoint op_to_str_loop (l : list Z) (buf : string) : ub string :=
  match l with
  | [] => Ok buf
  | b :: l =>
    let buf := (buf ++ dec b ++ ".")%string in
    if Z.of_nat (String.length buf) + 1 <=? IP_MAX_NAME then op_to_str_loop l buf else UB out_of_bounds
  end.

(** [rIpop_op_to_str]: the last dot is made the NUL. *)
Definition rIpop_op_to_str (ip : RIPsingle) : ub string :=
  buf ← op_to_str_loop [fst_ ip; snd_ ip; thd ip; frt ip] EmptyString;
  Ok (String.substring 0 (String.length buf - 1) buf).

Definition char_code (c : Ascii.ascii) : Z := Z.of_nat (Ascii.nat_of_ascii c).
Definition is_digit (c : Ascii.ascii) : bool := (48 <=? char_code c) && (char_code c <=? 57).
Definition is_dot (c : Ascii.ascii) : bool := Ascii.eqb c "."%char.

(** [atoi]: white space, a sign and digits.  (The callers take the low eight
    bits of the value, so that its wrap-around does not matter.) *)
Definition is_space (c : Ascii.ascii) : bool := (char_code c =? 32) || (9 <=? char_code c) && (char_code c <=? 13).
Fixpoint atoi_digits (acc : Z) (s : string) : Z :=
  match s with
  | String c s => if is_digit c then atoi_digits (10 * acc + (char_code c - 48)) s else acc
  | EmptyString => acc
  end.
Fixpoint atoi (s : string) : Z :=
  match s with
  | EmptyString => 0
  | String c t =>
    if is_space c then atoi t
    else if char_code c =? 45 then - atoi_digits 0 t
    else if char_code c =? 43 then atoi_digits 0 t
    else atoi_digits 0 s
  end.

(** The loop of [rIpop_str_validate_good]; [prev] is the character before, [i]
    the index, and the string ends with its NUL.  Its test of digits is an [||],
    which holds of every character. *)
Fixpoint validate_loop (s : string) (i : Z) (prev : bool) (dots digits sz : Z) (bad : bool)
  : Z * Z * Z * bool :=
  if (i <? IP_MAX_NAME) && negb bad then
    let sz := u8 (sz + 1) in
    match s with
    | EmptyString => (dots, digits, sz, bad)
    | String c s =>
      let dots := if is_dot c then dots + 1 else dots in
      let bad := if negb (is_dot c) && ((char_code c <? 48) || (57 <? char_code c)) then true else bad in
      let digits := if (48 <=? char_code c) || (char_code c <=? 57) then digits + 1 else digits in
      let bad := if (0 <? i) && is_dot c && prev then true else bad in
      validate_loop s (i + 1) (is_dot c) dots digits sz bad
    end
  else (dots, digits, sz, bad).

(** [rIpop_str_validate_good]: the result and what it leaves in [name_sz]. *)
Definition rIpop_str_validate_good (name : option string) (name_sz : option Z) : bool * option Z :=
  match name with
  | None => (false, name_sz)
  | Some name =>
    let '(dots, digits, sz, bad) := validate_loop name 0 false 0 0 0 false in
    (if (dots =? 3) && (4 <=? digits) && (digits <=? 12) && negb bad then true else false,
     (fun _ => sz) <$> name_sz)
  end.

(** A write to [ip_cur] and [ip_box]. *)
Definition set_box (x v : Z) (ip : RIPsingle) : RIPsingle :=
  if x =? 0 then MkIP v (snd_ ip) (thd ip) (frt ip)
  else if x =? 1 then MkIP (fst_ ip) v (thd ip) (frt ip)
  else if x =? 2 then MkIP (fst_ ip) (snd_ ip) v (frt ip)
  else MkIP (fst_ ip) (snd_ ip) (thd ip) v.
Definition write_box (x v : Z) (op : RIPop) : ub RIPop :=
  if x <? IP_BOX_SZ then Ok (MkOp (set_box x v (ip_box op)) (set_box x v (ip_cur op)) (ip_max op) (space op))
  else UB out_of_bounds.

(** The loop of [rIpop_str_to_op]: [seg] are the characters from [name + s] on
    that were read, in order. *)
Fixpoint str_to_op_loop (s : string) (i x : Z) (seg : string) (op : RIPop) : ub RIPop :=
  if i <? IP_MAX_NAME then
    match s with
    | EmptyString => write_box x (u8 (atoi seg)) op
    | String c s =>
      if is_dot c then
        op ← write_box x (u8 (atoi seg)) op;
        str_to_op_loop s (i + 1) (x + 1) EmptyString op
      else str_to_op_loop s (i + 1) x (seg ++ String c EmptyString)%string op
    end
  else Ok op.

(** [rIpop_str_to_op], whose result is always true. *)
Definition rIpop_str_to_op (op : RIPop) (name : string) : ub RIPop := str_to_op_loop name 0 0 EmptyString op.

(** ** Addresses in order *)

Definition ip_ok (a : RIPsingle) : Prop :=
  0 <= fst_ a < 256 /\ 0 <= snd_ a < 256 /\ 0 <= thd a < 256 /\ 0 <= frt a < 256.
Definition ip_val (a : RIPsingle) : Z := ((fst_ a * 256 + snd_ a) * 256 + thd a) * 256 + frt a.
Definition ip_last : RIPsingle := MkIP 255 255 255 255.

Lemma next_ip_spec c :
  ip_ok c -> ip_ok (next_ip c) /\ (c <> ip_last -> ip_val c < ip_val (next_ip c)).
Proof.
  destruct c as [a b c d]. intros (H1 & H2 & H3 & H4). unfold next_ip, IP_SUBNET_MASK, ip_ok, ip_val in *.
  cbn in *. repeat (case_if; cbool; cbn; [rewrite uN_small by lia; split; [lia|]; intros _; lia|]).
  split; [lia|]. intros Hne. exfalso. apply Hne. unfold ip_last. f_equal; lia.
Qed.

(** [n] calls that hand an address out. *)
Fixpoint assign_n (n : nat) (op : RIPop) : list RIPsingle * RIPop :=
  match n with
  | O => ([], op)
  | S n =>
    let '(op, ip, ok) := rIpop_assign_ip op true in
    if ok then let '(l, op) := assign_n n op in (ip :: l, op) else ([], op)
  end.

Lemma assign_n_spec n op l op' :
  ip_ok (ip_cur op) -> ip_max op <> ip_last -> ip_ok (ip_max op) -> assign_n n op = (l, op') ->
  StronglySorted Z.lt (ip_val <$> l) /\
  Forall (fun a => ip_val (ip_cur op) < ip_val a /\ ip_below a (ip_max op) = true) l.
Proof.
  revert op l op'; induction n as [|n IH]; intros op l op' Hc Hm Hok; cbn [assign_n].
  { intros [= <- <-]. split; constructor. }
  unfold rIpop_assign_ip. destruct (next_ip_spec _ Hc) as [Hn Hlt].
  destruct (ip_below (next_ip (ip_cur op)) (ip_max op)) eqn:Eb; [|intros [= <- <-]; split; constructor].
  assert (ip_val (ip_cur op) < ip_val (next_ip (ip_cur op))) as Hlt1.
  { apply Hlt. intros Heq. rewrite Heq in Eb. change (next_ip ip_last) with ip_last in Eb.
    apply Hm. destruct (ip_max op) as [a b c d]. unfold ip_below, ip_last, ip_ok in *. cbn in *. cbool.
    f_equal; lia. }
  set (op1 := MkOp _ _ _ _). destruct (assign_n n op1) as [l1 op2] eqn:Ea. intros [= <- <-].
  destruct (IH op1 l1 op2 Hn Hm Hok Ea) as [Hs Hf]. cbn [fmap list_fmap ip_cur ip_max op1] in *.
  rewrite Forall_forall in Hf. split.
  - constructor; [exact Hs|]. apply Forall_fmap, Forall_forall. intros a Ha. apply (Hf a Ha).
  - constructor; [by split|]. apply Forall_forall. intros a Ha. destruct (Hf a Ha). split; [lia|done].
Qed.

Lemma sorted_nodup (l : list Z) : StronglySorted Z.lt l -> NoDup l.
Proof.
  induction 1 as [|x l Hs IH Hf]; constructor; [|done].
  intros Hx. rewrite Forall_forall in Hf. specialize (Hf x Hx). lia.
Qed.

(** A switch never hands an address out twice, and all are beyond the one
    that it started from and within the boxes of the mask, unless the mask is
    255.255.255.255 itself. *)
Theorem assign_ip_unique n op l op' :
  ip_ok (ip_cur op) -> ip_ok (ip_max op) -> ip_max op <> ip_last -> assign_n n op = (l, op') ->
  NoDup l /\ Forall (fun a => ip_val (ip_cur op) < ip_val a /\ ip_below a (ip_max op) = true) l.
Proof.
  intros Hc Hok Hm Ha. destruct (assign_n_spec n op l op' Hc Hm Hok Ha) as [Hs Hf].
  split; [|exact Hf]. apply sorted_nodup, NoDup_fmap_1 in Hs. exact Hs.
Qed.

(** The host bits of a box, for [h] host bits in all. *)
Definition host_bits (h lo : Z) : Z := Z.min 8 (Z.max 0 (h - lo)).
Definition max_box (h lo c : Z) : Z := if host_bits h lo =? 0 then c else 2 ^ host_bits h lo - 1.

(** The last address for a mask of [p] bits has in each box that has host
    bits the number with just these bits, and in the others the box of the
    current address.  (In a box with both network and host bits the network
    bits are lost.) *)
Theorem justify_max op p :
  0 <= p <= 32 -> ip_max op = ip_zero ->
  ip_max (rIpop_justify op p) =
  let c := ip_cur op in let h := 32 - p in
  MkIP (max_box h 24 (fst_ c)) (max_box h 16 (snd_ c)) (max_box h 8 (thd c)) (max_box h 0 (frt c)).
Proof.
  intros Hp Hm. destruct op as [b [c0 c1 c2 c3] m s]. cbn in Hm. subst m.
  assert (p ∈ seqZ 0 33) as Hin by (apply elem_of_seqZ; lia).
  revert Hin. generalize dependent p. intros p _ Hin.
  assert (exists h, h ∈ seqZ 0 33 /\ p = 32 - h) as (h & Hh & ->).
  { exists (32 - p). apply elem_of_seqZ in Hin. split; [apply elem_of_seqZ; lia|lia]. }
  clear Hin. vm_compute in Hh.
  repeat (apply elem_of_cons in Hh as [->|Hh]; [reflexivity|]). by apply elem_of_nil in Hh.
Qed.

Lemma justify_max_witness :
  (0 <= 24 <= 32 /\ ip_max (MkOp (MkIP 192 168 0 1) (MkIP 192 168 0 1) ip_zero 0) = ip_zero) /\
  ip_max (rIpop_justify (MkOp (MkIP 192 168 0 1) (MkIP 192 168 0 1) ip_zero 0) 24) = MkIP 192 168 0 255.
Proof.
  split; [split; [lia|reflexivity]|].
  exact (justify_max (MkOp (MkIP 192 168 0 1) (MkIP 192 168 0 1) ip_zero 0) 24 ltac:(lia) eq_refl).
Defined.

Lemma assign_ip_unique_witness :
  exists l op',
    assign_n 3 (MkOp (MkIP 192 168 0 1) (MkIP 192 168 0 254) (MkIP 192 168 1 255) 8) = (l, op') /\
    l = [MkIP 192 168 0 255; MkIP 192 168 1 0; MkIP 192 168 1 1] /\ NoDup l.
Proof.
  eexists _, _. split; [reflexivity|]. split; [reflexivity|].
  eapply (assign_ip_unique 3 (MkOp (MkIP 192 168 0 1) (MkIP 192 168 0 254) (MkIP 192 168 1 255) 8));
    [unfold ip_ok; cbn; lia|unfold ip_ok; cbn; lia|discriminate|reflexivity].
Defined.

(** ** Text and back *)

Definition byte_range : list Z := seqZ 0 256.

Fixpoint no_dot (s : string) : bool :=
  match s with EmptyString => true | String c s => negb (is_dot c) && no_dot s end.

Definition dec_len (b : Z) : nat := if b <? 10 then 1%nat else if b <? 100 then 2%nat else 3%nat.

Definition dec_good (b : Z) : bool :=
  no_dot (dec b) && (atoi (dec b) =? b) && Nat.eqb (String.length (dec b)) (dec_len b).

Lemma dec_table : forallb dec_good byte_range = true.
Proof. vm_compute. reflexivity. Qed.

Lemma dec_spec b :
  0 <= b < 256 -> no_dot (dec b) = true /\ atoi (dec b) = b /\ String.length (dec b) = dec_len b.
Proof.
  intros Hb. pose proof dec_table as T. rewrite forallb_forall in T.
  specialize (T b ltac:(apply list_elem_of_In, elem_of_seqZ; lia)). unfold dec_good in T.
  apply andb_prop in T as [T Hl]. apply andb_prop in T as [Hd Ha].
  apply Z.eqb_eq in Ha. apply Nat.eqb_eq in Hl. done.
Qed.

(** The text of four numbers. *)
Definition dotted (a b c d : Z) : string := (dec a ++ "." ++ dec b ++ "." ++ dec c ++ "." ++ dec d)%string.
Definition dotted_len (ip : RIPsingle) : nat :=
  (dec_len (fst_ ip) + dec_len (snd_ ip) + dec_len (thd ip) + dec_len (frt ip) + 3)%nat.

Lemma dotted_length ip :
  ip_ok ip -> String.length (dotted (fst_ ip) (snd_ ip) (thd ip) (frt ip)) = dotted_len ip.
Proof.
  intros (H1 & H2 & H3 & H4). apply dec_spec in H1, H2, H3, H4. destruct H1 as (_ & _ & E1).
  destruct H2 as (_ & _ & E2), H3 as (_ & _ & E3), H4 as (_ & _ & E4).
  unfold dotted, dotted_len. rewrite !string_length_app. cbn [String.length]. lia.
Qed.

Lemma dec_len_bounds b : (1 <= dec_len b <= 3)%nat.
Proof. unfold dec_len. repeat case_if; lia. Qed.

Lemma op_to_str_eq ip :
  ip_ok ip -> rIpop_op_to_str ip =
    if (dotted_len ip <=? 14)%nat then Ok (dotted (fst_ ip) (snd_ ip) (thd ip) (frt ip)) else UB out_of_bounds.
Proof.
  intros Hok. unfold rIpop_op_to_str, op_to_str_loop, IP_MAX_NAME. cbv zeta.
  rewrite !string_length_app. pose proof Hok as (H1 & H2 & H3 & H4).
  destruct (dec_spec _ H1) as (_ & _ & E1), (dec_spec _ H2) as (_ & _ & E2),
    (dec_spec _ H3) as (_ & _ & E3), (dec_spec _ H4) as (_ & _ & E4).
  rewrite E1, E2, E3, E4. cbn [String.length]. unfold dotted_len.
  pose proof (dec_len_bounds (fst_ ip)). pose proof (dec_len_bounds (snd_ ip)).
  pose proof (dec_len_bounds (thd ip)). pose proof (dec_len_bounds (frt ip)).
  do 3 (rewrite (proj2 (Z.leb_le _ 16)) by lia).
  destruct (_ <=? 14)%nat eqn:E.
  - apply Nat.leb_le in E. rewrite (proj2 (Z.leb_le _ 16)) by lia. cbn. f_equal.
    change ("" ++ ?x)%string with x.
    replace ((((dec (fst_ ip) ++ ".") ++ dec (snd_ ip) ++ ".") ++ dec (thd ip) ++ ".") ++ dec (frt ip) ++ ".")%string
      with (dotted (fst_ ip) (snd_ ip) (thd ip) (frt ip) ++ ".")%string.
    2: { unfold dotted. by rewrite !string_app_assoc. }
    rewrite string_length_app. cbn [String.length].
    replace (_ + 1 - 1)%nat with (String.length (dotted (fst_ ip) (snd_ ip) (thd ip) (frt ip))) by lia.
    apply string_substring_app.
  - apply Nat.leb_gt in E. rewrite (proj2 (Z.leb_gt _ 16)) by lia. done.
Qed.

(** A segment without dots up to the dot or to the end of the name. *)
Lemma str_to_op_seg t r i x seg op :
  no_dot t = true -> i + strlen t < IP_MAX_NAME ->
  str_to_op_loop (t ++ String "." r) i x seg op =
  (op ← write_box x (u8 (atoi (seg ++ t))) op; str_to_op_loop r (i + strlen t + 1) (x + 1) "" op) /\
  str_to_op_loop t i x seg op = write_box x (u8 (atoi (seg ++ t))) op.
Proof.
  unfold strlen. revert i seg. induction t as [|c t IH]; intros i seg Hd Hi.
  - cbn [String.length] in Hi. change ("" ++ ?x)%string with x. cbn [str_to_op_loop]. rewrite string_app_nil_r.
    rewrite (proj2 (Z.ltb_lt _ _)) by lia. split; [|done].
    cbn [is_dot String.length]. by rewrite Z.add_0_r.
  - cbn [no_dot String.length] in *. apply andb_prop in Hd as [Hc Hd]. apply negb_true_iff in Hc.
    change (String c t ++ ?x)%string with (String c (t ++ x)). cbn [str_to_op_loop].
    rewrite (proj2 (Z.ltb_lt i _)) by lia. rewrite Hc.
    destruct (IH (i + 1) (seg ++ String c "")%string Hd ltac:(lia)) as [-> ->].
    rewrite string_app_assoc. change (String c "" ++ t)%string with (String c t).
    split; [|done].
    replace (i + 1 + Z.of_nat (String.length t) + 1) with (i + Z.of_nat (S (String.length t)) + 1) by lia. done.
Qed.

Lemma dec_strlen b : 0 <= b < 256 -> strlen (dec b) = Z.of_nat (dec_len b).
Proof. intros Hb. unfold strlen. by destruct (dec_spec b Hb) as (_ & _ & ->). Qed.

Lemma write_dec x b op :
  0 <= b < 256 -> write_box x (u8 (atoi ("" ++ dec b))) op = write_box x b op.
Proof.
  intros Hb. change ("" ++ dec b)%string with (dec b). destruct (dec_spec b Hb) as (_ & -> & _).
  by rewrite uN_small by lia.
Qed.

Lemma write_box_ok x v op :
  x < 4 -> write_box x v op =
           Ok (MkOp (set_box x v (ip_box op)) (set_box x v (ip_cur op)) (ip_max op) (space op)).
Proof. intros. unfold write_box, IP_BOX_SZ. by rewrite (proj2 (Z.ltb_lt _ _)) by lia. Qed.

Lemma dot_app x : ("." ++ x)%string = String "." x.
Proof. done. Qed.

Lemma str_to_op_dec b r i x op :
  0 <= b < 256 -> i + strlen (dec b) < IP_MAX_NAME ->
  str_to_op_loop (dec b ++ String "." r) i x "" op =
  (op ← write_box x b op; str_to_op_loop r (i + strlen (dec b) + 1) (x + 1) "" op).
Proof.
  intros Hb Hi. rewrite <- (write_dec x b op Hb).
  by apply (str_to_op_seg (dec b) r i x "" op (proj1 (dec_spec b Hb))).
Qed.

Lemma str_to_op_end b i x op :
  0 <= b < 256 -> i + strlen (dec b) < IP_MAX_NAME ->
  str_to_op_loop (dec b) i x "" op = write_box x b op.
Proof.
  intros Hb Hi. rewrite <- (write_dec x b op Hb).
  by apply (str_to_op_seg (dec b) "" i x "" op (proj1 (dec_spec b Hb))).
Qed.

Lemma str_to_op_dotted ip op :
  ip_ok ip ->
  rIpop_str_to_op op (dotted (fst_ ip) (snd_ ip) (thd ip) (frt ip)) = Ok (MkOp ip ip (ip_max op) (space op)).
Proof.
  intros (H1 & H2 & H3 & H4).
  pose proof (dec_len_bounds (fst_ ip)). pose proof (dec_len_bounds (snd_ ip)).
  pose proof (dec_len_bounds (thd ip)). pose proof (dec_len_bounds (frt ip)).
  pose proof (dec_strlen _ H1). pose proof (dec_strlen _ H2). pose proof (dec_strlen _ H3).
  pose proof (dec_strlen _ H4).
  unfold rIpop_str_to_op, dotted. rewrite !dot_app.
  rewrite str_to_op_dec by (done || (unfold IP_MAX_NAME; lia)).
  rewrite write_box_ok by lia. cbn [mbind ub_bind].
  rewrite str_to_op_dec by (done || (unfold IP_MAX_NAME; lia)). rewrite write_box_ok by lia. cbn [mbind ub_bind].
  rewrite str_to_op_dec by (done || (unfold IP_MAX_NAME; lia)). rewrite write_box_ok by lia. cbn [mbind ub_bind].
  rewrite str_to_op_end by (done || (unfold IP_MAX_NAME; lia)).
  rewrite write_box_ok by lia. by destruct ip.
Qed.

(** An address that is written as text and read again is the same one, in
    both of the places where it is kept.  The text is written past the end of its
    16 bytes exactly when all four numbers have three digits. *)
Theorem ip_text_roundtrip ip op :
  ip_ok ip ->
  if (100 <=? fst_ ip) && (100 <=? snd_ ip) && (100 <=? thd ip) && (100 <=? frt ip)
  then rIpop_op_to_str ip = UB out_of_bounds
  else rIpop_op_to_str ip ≫= rIpop_str_to_op op = Ok (MkOp ip ip (ip_max op) (space op)).
Proof.
  intros Hok. rewrite (op_to_str_eq ip Hok). pose proof (str_to_op_dotted ip op Hok) as Hs.
  destruct ((100 <=? fst_ ip) && _ && _ && _) eqn:E.
  - cbool. rewrite (proj2 (Nat.leb_gt _ _)); [done|]. unfold dotted_len, dec_len.
    repeat (rewrite (proj2 (Z.ltb_ge _ 10)) by lia). repeat (rewrite (proj2 (Z.ltb_ge _ 100)) by lia). lia.
  - rewrite (proj2 (Nat.leb_le _ _)); [exact Hs|]. unfold dotted_len.
    pose proof (dec_len_bounds (fst_ ip)). pose proof (dec_len_bounds (snd_ ip)).
    pose proof (dec_len_bounds (thd ip)). pose proof (dec_len_bounds (frt ip)).
    assert (forall b, (100 <=? b) = false -> (dec_len b <= 2)%nat) as Hd.
    { intros b Hb. apply Z.leb_gt in Hb. unfold dec_len. rewrite (proj2 (Z.ltb_lt b 100) Hb). case_if; lia. }
    rewrite !andb_false_iff in E.
    destruct E as [[[E|E]|E]|E]; apply Hd in E; lia.
Qed.

Lemma ip_text_roundtrip_witness :
  ip_ok (MkIP 192 168 0 1) /\
  rIpop_op_to_str (MkIP 192 168 0 1) ≫= rIpop_str_to_op RIPOP_INIT =
  Ok (MkOp (MkIP 192 168 0 1) (MkIP 192 168 0 1) ip_zero 0).
Proof.
  assert (ip_ok (MkIP 192 168 0 1)) as Hok by (unfold ip_ok; cbn; lia). split; [exact Hok|].
  exact (ip_text_roundtrip (MkIP 192 168 0 1) RIPOP_INIT Hok).
Defined.

Fixpoint all_digits (s : string) : bool :=
  match s with EmptyString => true | String c s => is_digit c && all_digits s end.

Lemma dec_digits_table : forallb (fun b => all_digits (dec b)) byte_range = true.
Proof. vm_compute. reflexivity. Qed.

Lemma dec_digits b : 0 <= b < 256 -> all_digits (dec b) = true.
Proof.
  intros Hb. pose proof dec_digits_table as T. rewrite forallb_forall in T.
  exact (T b ltac:(apply list_elem_of_In, elem_of_seqZ; lia)).
Qed.

Lemma digit_not_dot c : is_digit c = true -> is_dot c = false.
Proof.
  unfold is_digit, is_dot. intros H. destruct (Ascii.eqb c ".") eqn:E; [|done].
  apply Ascii.eqb_eq in E. subst c. discriminate H.
Qed.

(** The digits of one number are all counted and leave the name good. *)
Lemma validate_seg t r i p dots digits sz :
  all_digits t = true -> 0 <= i -> i + strlen t <= IP_MAX_NAME -> 0 <= sz <= i ->
  exists p', (t <> ""%string -> p' = false) /\ (t = ""%string -> p' = p) /\
  validate_loop (t ++ r) i p dots digits sz false =
  validate_loop r (i + strlen t) p' dots (digits + strlen t) (sz + strlen t) false.
Proof.
  unfold strlen. revert i p digits sz. induction t as [|c t IH]; intros i p digits sz Hd H0 Hi Hs.
  { exists p. split; [done|]. split; [done|]. cbn [String.length Z.of_nat]. by rewrite !Z.add_0_r. }
  cbn [all_digits String.length] in *. apply andb_prop in Hd as [Hc Hd].
  destruct (IH (i + 1) false (digits + 1) (sz + 1) Hd ltac:(lia) ltac:(lia) ltac:(lia)) as (p' & Hp & Hq & IH').
  exists false. split; [done|]. split; [done|].
  change (String c t ++ r)%string with (String c (t ++ r)). cbn [validate_loop].
  unfold IP_MAX_NAME in *. rewrite (proj2 (Z.ltb_lt i _)) by lia. cbn [andb negb].
  rewrite uN_small by lia. rewrite (digit_not_dot c Hc). unfold is_digit in Hc. apply andb_prop in Hc as [Hc1 Hc2].
  rewrite Hc1. apply Z.leb_le in Hc1, Hc2. rewrite (proj2 (Z.ltb_ge (char_code c) 48)) by lia.
  rewrite (proj2 (Z.ltb_ge 57 _)) by lia. cbn [negb andb orb]. rewrite andb_false_r. cbn [andb].
  assert (p' = false) as ->. { destruct t; [by apply Hq|by apply Hp]. }
  rewrite IH'. f_equal; lia.
Qed.

Lemma validate_dec b r i p dots digits sz :
  0 <= b < 256 -> 0 <= i -> i + strlen (dec b) < IP_MAX_NAME -> 0 <= sz <= i ->
  validate_loop (dec b ++ String "." r) i p dots digits sz false =
  validate_loop r (i + strlen (dec b) + 1) true (dots + 1) (digits + strlen (dec b) + 1)
    (sz + strlen (dec b) + 1) false.
Proof.
  intros Hb H0 Hi Hs. pose proof (dec_len_bounds b). pose proof (dec_strlen b Hb) as Hl.
  destruct (validate_seg (dec b) (String "." r) i p dots digits sz (dec_digits b Hb) H0 ltac:(lia) Hs)
    as (p' & Hp & _ & ->).
  rewrite Hp. 2: { intros He. rewrite He in Hl. unfold strlen in Hl. cbn in Hl. lia. }
  cbn [validate_loop]. unfold IP_MAX_NAME in *. rewrite (proj2 (Z.ltb_lt (_ + _) 16)) by lia. cbn [andb negb].
  rewrite uN_small by lia. cbn [is_dot Ascii.eqb Bool.eqb negb andb]. rewrite andb_false_r. done.
Qed.

(** An address that was written as text is accepted exactly when the text
    has at most 12 characters: the dots are counted as digits, so that
    192.168.10.10 is refused.  The size reported includes the NUL. *)
Theorem validate_text ip s n :
  ip_ok ip -> rIpop_op_to_str ip = Ok s ->
  rIpop_str_validate_good (Some s) (Some n) = (strlen s <=? 12, Some (strlen s + 1)).
Proof.
  intros Hok. rewrite (op_to_str_eq ip Hok). destruct (_ <=? 14)%nat eqn:El; [|done]. intros [= <-].
  apply Nat.leb_le in El. unfold dotted_len in El. pose proof Hok as (H1 & H2 & H3 & H4).
  pose proof (dec_len_bounds (fst_ ip)). pose proof (dec_len_bounds (snd_ ip)).
  pose proof (dec_len_bounds (thd ip)). pose proof (dec_len_bounds (frt ip)).
  pose proof (dec_strlen _ H1). pose proof (dec_strlen _ H2). pose proof (dec_strlen _ H3).
  pose proof (dec_strlen _ H4).
  assert (strlen (dotted (fst_ ip) (snd_ ip) (thd ip) (frt ip)) = Z.of_nat (dotted_len ip)) as ->.
  { unfold strlen. by rewrite dotted_length. }
  unfold rIpop_str_validate_good, dotted, dotted_len. rewrite !dot_app.
  do 3 rewrite validate_dec by (done || (unfold IP_MAX_NAME; lia)).
  rewrite <- (string_app_nil_r (dec (frt ip))).
  match goal with |- context [validate_loop _ ?i ?p ?d ?g ?z false] =>
    destruct (validate_seg (dec (frt ip)) "" i p d g z (dec_digits _ H4)) as (p' & _ & _ & ->);
      [lia|unfold IP_MAX_NAME; lia|lia|] end.
  cbn [validate_loop]. unfold IP_MAX_NAME. rewrite (proj2 (Z.ltb_lt _ 16)) by lia. cbn [andb negb fmap option_fmap option_map].
  rewrite uN_small by lia. f_equal; [|f_equal; lia].
  rewrite (proj2 (Z.eqb_eq _ 3)) by lia. rewrite (proj2 (Z.leb_le 4 _)) by lia. cbn [andb].
  rewrite andb_true_r. match goal with |- (if ?a then _ else _) = ?b => replace a with b by (f_equal; lia) end.
  by destruct (_ <=? _).
Qed.

Lemma validate_text_witness :
  (ip_ok (MkIP 192 168 10 10) /\ rIpop_op_to_str (MkIP 192 168 10 10) = Ok "192.168.10.10"%string) /\
  rIpop_str_validate_good (Some "192.168.10.10"%string) (Some 0) = (false, Some 14).
Proof.
  assert (ip_ok (MkIP 192 168 10 10)) as Hok by (unfold ip_ok; cbn; lia).
  split; [split; [exact Hok|reflexivity]|].
  exact (validate_text (MkIP 192 168 10 10) "192.168.10.10" 0 Hok eq_refl).
Defined.
