(* ===== verification/RMap.v ===== *)
(** * The routes of the link-layer simulation ([2.1.LinkLayerSim/RMap.h])

    [RMap_t] is a list of the switches from which a distance was announced, each
    with the list of the addresses that it reaches; [head]/[tail] and
    [headD]/[tailD] are the two ends of these lists.  Nothing is ever removed, so
    a pointer to an element is its index.  The cursors [curr], [currD], [found]
    and [foundD] are written by a loop before they are read: the loops return
    them. *)

From S2P Require Import Prelude.

(** [RMDist_t]: [holder] is the element of the list of [to_ip]. *)
Record RMDist := MkDist { to_ip : Z; distance : Z; holder : option nat }.

(** [RMElem_t]. *)
Record RMElem := MkElem { from_ip : Z; dists : list RMDist }.

Abbreviation RMap := (list RMElem).

(** ** Prefixes *)

(** [ntohl] on a little-endian machine. *)
Definition ntohl (a : Z) : Z :=
  Z.lor (Z.shiftl (Z.land a 255) 24)
    (Z.lor (Z.shiftl (Z.land (Z.shiftr a 8) 255) 16)
      (Z.lor (Z.shiftl (Z.land (Z.shiftr a 16) 255) 8) (Z.land (Z.shiftr a 24) 255))).

(** The loop of [rmap_longest_prefix_mathing], from bit [n - 1] down. *)
Fixpoint prefix_loop (n : nat) (a b matched : Z) : Z :=
  match n with
  | O => matched
  | S i =>
    let ax := Z.land a (u32 (Z.shiftl 1 (Z.of_nat i))) in
    let bx := Z.land b (u32 (Z.shiftl 1 (Z.of_nat i))) in
    if negb (ax =? bx) then matched else prefix_loop i a b (u8 (matched + 1))
  end.

(** [rmap_longest_prefix_mathing]. *)
Definition rmap_longest_prefix_mathing (a b : Z) : Z := prefix_loop 32 (ntohl a) (ntohl b) 0.
Arguments rmap_longest_prefix_mathing : simpl never.

(** ** The lookup *)

(** [found_from_ip], [found_from_ip_distance] and [found_from_ip_prefix]. *)
Record best := MkBest { b_ip : Z; b_dist : Z; b_prefix : Z }.

(** The body of the two loops of [rMap_shortest_and_longest_matching_prefix_to]. *)
Definition best_step (to : Z) (st : best) (p : Z * RMDist) : best :=
  let '(from, d) := p in
  if to_ip d =? to then
    if b_ip st =? 0 then MkBest from (distance d) (b_prefix st)
    else if distance d <? b_dist st then MkBest from (distance d) (b_prefix st)
    else if distance d =? b_dist st then
      let pre := rmap_longest_prefix_mathing to (b_ip st) in
      let tmp_prefix := rmap_longest_prefix_mathing to from in
      if pre <? tmp_prefix then MkBest from (distance d) tmp_prefix
      else MkBest (b_ip st) (b_dist st) pre
    else st
  else st.

(** The entries in the order of the loops. *)
Definition entries (m : RMap) : list (Z * RMDist) := e ← m; pair (from_ip e) <$> dists e.

Definition rMap_shortest_and_longest_matching_prefix_to (m : RMap) (to : Z) : Z :=
  b_ip (foldl (best_step to) (MkBest 0 0 0) (entries m)).

(** [rMap_find_to_ip] and [rMap_find_from_ip]: the index of what was found. *)
Fixpoint find_index {A} (p : A -> bool) (l : list A) : option nat :=
  match l with
  | [] => None
  | x :: l => if p x then Some 0%nat else S <$> find_index p l
  end.
Definition rMap_find_to_ip (e : RMElem) (ip : Z) : option nat := find_index (fun d => to_ip d =? ip) (dists e).
Definition rMap_find_from_ip (m : RMap) (ip : Z) : option nat := find_index (fun e => from_ip e =? ip) m.

(** ** The announcement of a distance *)

Definition add_dist (d : RMDist) (e : RMElem) : RMElem := MkElem (from_ip e) (dists e ++ [d]).
Definition set_dist (j : nat) (z : Z) (e : RMElem) : RMElem :=
  MkElem (from_ip e) (alter (fun d => MkDist (to_ip d) z (holder d)) j (dists e)).

(** Whether the entry that was found is farther than the new distance. *)
Definition improves (e : RMElem) (to dist : Z) : option nat :=
  match rMap_find_to_ip e to with
  | Some j => match dists e !! j with Some d => if dist <? distance d then Some j else None | None => None end
  | None => None
  end.

(** [rMap_append], whose result is always true. *)
Definition rMap_append (m : RMap) (from to dist : Z) : RMap :=
  match m with
  | [] => [MkElem from [MkDist to dist (Some 1%nat)]; MkElem to []]
  | _ =>
    match rMap_find_from_ip m from with
    | Some i =>
      match e ← m !! i; improves e to dist with
      | Some j => alter (set_dist j dist) i m
      | None =>
        match rMap_find_from_ip m to with
        | Some h => alter (add_dist (MkDist to dist (Some h))) i m
        | None => alter (add_dist (MkDist to dist (Some (length m)))) i m ++ [MkElem to []]
        end
      end
    | None =>
      let m' := m ++ [MkElem from []] in
      match rMap_find_from_ip m' to with
      | Some h => m ++ [MkElem from [MkDist to dist (Some h)]]
      | None => m ++ [MkElem from [MkDist to dist (Some (S (length m)))]; MkElem to []]
      end
    end
  end.

(** [rMap_init]. *)
Definition rMap_init : RMap := [].

(** The announcements [(from, to, distance)] in order. *)
Definition announce (l : list (Z * Z * Z)) (m : RMap) : RMap :=
  foldl (fun m '(f, t, d) => rMap_append m f t d) m l.

(** The maps of [rMap_whitetest]. *)
Example whitetest_map :
  announce [(192, 168, 10); (192, 168, 5); (192, 56, 7); (99, 192, 6); (192, 99, 50)] rMap_init =
  [MkElem 192 [MkDist 168 5 (Some 1%nat); MkDist 56 7 (Some 2%nat); MkDist 99 50 (Some 3%nat)];
   MkElem 168 []; MkElem 56 []; MkElem 99 [MkDist 192 6 (Some 0%nat)]].
Proof. reflexivity. Qed.

(** ** Prefixes, proved *)

Lemma land_bit_eq a b i :
  (i < 32)%nat ->
  (Z.land a (u32 (Z.shiftl 1 (Z.of_nat i))) =? Z.land b (u32 (Z.shiftl 1 (Z.of_nat i)))) =
  Bool.eqb (Z.testbit a (Z.of_nat i)) (Z.testbit b (Z.of_nat i)).
Proof.
  intros Hi. rewrite Z.shiftl_1_l. rewrite uN_small by (split; [lia|apply Z.pow_lt_mono_r; lia]).
  assert (forall x, Z.land x (2 ^ Z.of_nat i) = if Z.testbit x (Z.of_nat i) then 2 ^ Z.of_nat i else 0) as Hl.
  { intros x. apply Z.bits_inj'. intros k Hk. rewrite Z.land_spec, Z.pow2_bits_eqb by lia.
    destruct (Z.eqb_spec (Z.of_nat i) k) as [<-|Hne].
    - rewrite andb_true_r. destruct (Z.testbit x (Z.of_nat i)); [|by rewrite Z.bits_0].
      rewrite Z.pow2_bits_eqb by lia. by rewrite Z.eqb_refl.
    - rewrite andb_false_r. destruct (Z.testbit x (Z.of_nat i)); [|by rewrite Z.bits_0].
      rewrite Z.pow2_bits_eqb by lia. symmetry. by apply Z.eqb_neq. }
  rewrite !Hl. assert (0 < 2 ^ Z.of_nat i) by lia.
  destruct (Z.testbit a _), (Z.testbit b _); cbn [Bool.eqb];
    [apply Z.eqb_refl|apply Z.eqb_neq; lia|apply Z.eqb_neq; lia|done].
Qed.

Definition same_bit (a b : Z) (i : nat) : Prop :=
  Z.testbit (ntohl a) (Z.of_nat i) = Z.testbit (ntohl b) (Z.of_nat i).

Lemma prefix_loop_spec n a b k :
  (n <= 32)%nat -> 0 <= k <= 32 - Z.of_nat n ->
  exists j : nat, (j <= n)%nat /\ prefix_loop n a b k = k + Z.of_nat j /\
    (forall i : nat, (n - j <= i < n)%nat -> Z.testbit a (Z.of_nat i) = Z.testbit b (Z.of_nat i)) /\
    ((j < n)%nat -> Z.testbit a (Z.of_nat (n - 1 - j)) <> Z.testbit b (Z.of_nat (n - 1 - j))).
Proof.
  revert k; induction n as [|n IH]; intros k Hn Hk; cbn [prefix_loop].
  { exists 0%nat. repeat split; [lia|lia|intros i Hi; lia|lia]. }
  rewrite land_bit_eq by lia.
  destruct (Bool.eqb _ _) eqn:E; cbn [negb].
  - apply Bool.eqb_prop in E. rewrite uN_small by lia.
    destruct (IH (k + 1) ltac:(lia) ltac:(lia)) as (j & Hj & -> & Hsame & Hdiff).
    exists (S j). split; [lia|]. split; [lia|]. split.
    + intros i Hi. destruct (decide (i = n)) as [->|]; [done|apply Hsame; lia].
    + intros Hlt. replace (S n - 1 - S j)%nat with (n - 1 - j)%nat by lia. apply Hdiff. lia.
  - exists 0%nat. split; [lia|]. split; [lia|]. split; [intros i Hi; lia|].
    intros _. replace (S n - 1 - 0)%nat with n by lia. intros He. by rewrite He, Bool.eqb_reflx in E.
Qed.

(** The result is the number of leading bits, in host order, that two addresses
    share. *)
Lemma prefix_spec a b :
  exists j : nat, (j <= 32)%nat /\ rmap_longest_prefix_mathing a b = Z.of_nat j /\
    (forall i : nat, (32 - j <= i < 32)%nat -> same_bit a b i) /\
    ((j < 32)%nat -> ~ same_bit a b (31 - j)).
Proof.
  destruct (prefix_loop_spec 32 (ntohl a) (ntohl b) 0 ltac:(lia) ltac:(lia)) as (j & Hj & E & Hs & Hd).
  exists j. split; [done|]. split; [unfold rmap_longest_prefix_mathing; lia|]. split; [exact Hs|].
  intros Hlt. replace (31 - j)%nat with (32 - 1 - j)%nat by lia. by apply Hd.
Qed.

(** ** The lookup, proved *)

(** The route [p] to [to] is at least as good as [q]. *)
Definition at_least (to : Z) (p q : Z * RMDist) : Prop :=
  distance p.2 < distance q.2 \/
  distance p.2 = distance q.2 /\
  rmap_longest_prefix_mathing to q.1 <= rmap_longest_prefix_mathing to p.1.

Lemma at_least_trans to p q r : at_least to p q -> at_least to q r -> at_least to p r.
Proof. unfold at_least. lia. Qed.

Definition to_match (to : Z) (p : Z * RMDist) : Prop := to_ip p.2 = to.

(** What the loops know after a part [l] of the entries. *)
Definition best_inv (to : Z) (l : list (Z * RMDist)) (st : best) : Prop :=
  (b_ip st = 0 /\ forall q, q ∈ l -> ~ to_match to q) \/
  (b_ip st <> 0 /\ exists p, p ∈ l /\ to_match to p /\ p.1 = b_ip st /\ distance p.2 = b_dist st /\
     forall q, q ∈ l -> to_match to q -> at_least to p q).

Lemma best_step_inv to l x st :
  x.1 <> 0 -> best_inv to l st -> best_inv to (l ++ [x]) (best_step to st x).
Proof.
  destruct x as [f d]. cbn. intros Hf Hinv. unfold best_step.
  destruct (Z.eqb_spec (to_ip d) to) as [Hto|Hto].
  2: { assert (~ to_match to (f, d)) as Hno by done.
       destruct Hinv as [[H0 Hn]|(H0 & p & Hp & Hm & Hi & Hd & Hb)]; [left|right]; split; try done.
       - intros q [Hq|Hq%list_elem_of_singleton]%elem_of_app; [by apply Hn|by subst q].
       - exists p. split; [apply elem_of_app; by left|]. do 3 (split; [done|]).
         intros q [Hq|Hq%list_elem_of_singleton]%elem_of_app; [by apply Hb|by subst q]. }
  assert (forall st', b_ip st' = f -> b_dist st' = distance d ->
    (forall q, q ∈ l -> to_match to q -> at_least to (f, d) q) -> best_inv to (l ++ [(f, d)]) st') as Hnew.
  { intros st' Hi Hd Hb. right. rewrite Hi. split; [done|]. exists (f, d).
    split; [apply elem_of_app; right; by left|]. do 3 (split; [done|]).
    intros q [Hq|Hq%list_elem_of_singleton]%elem_of_app Hq'; [by apply Hb|]. subst q. right. cbn. lia. }
  destruct (Z.eqb_spec (b_ip st) 0) as [Hz|Hz].
  { destruct Hinv as [[_ Hn]|[? _]]; [|done]. apply Hnew; [done|done|]. intros q Hq Hq'. by destruct (Hn q Hq). }
  destruct Hinv as [[? _]|(_ & p & Hp & Hm & Hi & Hd & Hb)]; [done|].
  assert (forall st', b_ip st' = b_ip st -> b_dist st' = b_dist st -> at_least to p (f, d) ->
    best_inv to (l ++ [(f, d)]) st') as Hold.
  { intros st' Hi' Hd' Hge. right. rewrite Hi', Hd'. split; [done|]. exists p.
    split; [apply elem_of_app; by left|]. do 3 (split; [done|]).
    intros q [Hq|Hq%list_elem_of_singleton]%elem_of_app Hq'; [by apply Hb|by subst q]. }
  destruct (Z.ltb_spec (distance d) (b_dist st)) as [Hlt|Hge].
  { apply Hnew; [done|done|]. intros q Hq Hq'. apply (at_least_trans to _ p); [left; cbn; lia|by apply Hb]. }
  destruct (Z.eqb_spec (distance d) (b_dist st)) as [Heq|Hne].
  2: { apply Hold; [done|done|]. left. cbn. lia. }
  destruct (Z.ltb_spec (rmap_longest_prefix_mathing to (b_ip st)) (rmap_longest_prefix_mathing to f)).
  - apply Hnew; [done|done|]. intros q Hq Hq'. apply (at_least_trans to _ p); [|by apply Hb].
    right. cbn. rewrite Hi. lia.
  - apply Hold; [done|done|]. right. cbn. rewrite Hi. lia.
Qed.

Lemma best_fold_inv to l : Forall (fun x => x.1 <> 0) l -> best_inv to l (foldl (best_step to) (MkBest 0 0 0) l).
Proof.
  induction l as [|x l IH] using rev_ind; intros Hf.
  { left. split; [done|]. intros q Hq. by apply elem_of_nil in Hq. }
  apply Forall_app in Hf as [Hf Hx]. apply Forall_cons in Hx as [Hx _]. rewrite foldl_app. cbn [foldl].
  by apply best_step_inv; [|apply IH].
Qed.

(** The lookup in any map: a way to the address at the least distance of all, and
    of those at this distance one with the longest prefix. *)
Lemma best_of_entries to m :
  Forall (fun x => x.1 <> 0) (entries m) -> Exists (to_match to) (entries m) ->
  exists p, p ∈ entries m /\ to_match to p /\
    p.1 = rMap_shortest_and_longest_matching_prefix_to m to /\
    forall q, q ∈ entries m -> to_match to q -> at_least to p q.
Proof.
  intros Hf Hex. destruct (best_fold_inv to (entries m) Hf) as [[_ Hn]|(_ & p & Hp & Hm' & Hi & _ & Hb)].
  { apply Exists_exists in Hex as (q & Hq & Hq'). by destruct (Hn q Hq). }
  exists p. done.
Qed.

(** ** The announcements, proved *)

(** The map has an entry of distance [z] from [f] to [t]. *)
Definition route (m : RMap) (f t z : Z) : Prop :=
  exists e d, e ∈ m /\ d ∈ dists e /\ from_ip e = f /\ to_ip d = t /\ distance d = z.
Definition elem_route (e : RMElem) (f t z : Z) : Prop :=
  exists d, d ∈ dists e /\ from_ip e = f /\ to_ip d = t /\ distance d = z.

Lemma route_app m1 m2 f t z : route (m1 ++ m2) f t z <-> route m1 f t z \/ route m2 f t z.
Proof.
  unfold route. split.
  - intros (e & d & [He|He]%elem_of_app & H); [left|right]; eauto.
  - intros [(e & d & He & H)|(e & d & He & H)]; exists e, d; rewrite elem_of_app; auto.
Qed.

Lemma route_cons e m f t z : route (e :: m) f t z <-> elem_route e f t z \/ route m f t z.
Proof.
  unfold route, elem_route. split.
  - intros (e' & d & [->|He]%elem_of_cons & H); [left|right]; eauto.
  - intros [(d & H)|(e' & d & He & H)]; [exists e, d|exists e', d]; rewrite elem_of_cons; auto.
Qed.

Lemma route_nil f t z : ~ route [] f t z.
Proof. intros (e & d & He & _). by apply elem_of_nil in He. Qed.

Lemma elem_route_empty x f t z : ~ elem_route (MkElem x []) f t z.
Proof. intros (d & Hd & _). cbn in Hd. by apply elem_of_nil in Hd. Qed.

(** Changing one element of a list. *)
Lemma alter_split {A} (g : A -> A) i (l : list A) x :
  l !! i = Some x ->
  exists l1 l2, length l1 = i /\ l = l1 ++ x :: l2 /\ alter g i l = l1 ++ g x :: l2.
Proof.
  intros Hi. exists (take i l), (drop (S i) l).
  pose proof (lookup_lt_Some _ _ _ Hi). assert (length (take i l) = i) as Hlen by (rewrite length_take; lia).
  split; [done|]. pose proof (take_drop_middle l i x Hi) as Heq. split; [done|].
  rewrite <- Heq at 1. pose proof (alter_app_r g (take i l) (x :: drop (S i) l) 0) as Ha.
  rewrite Hlen, Nat.add_0_r in Ha. rewrite Ha. done.
Qed.

Lemma find_index_Some {A} (p : A -> bool) l i :
  find_index p l = Some i -> exists x, l !! i = Some x /\ p x = true.
Proof.
  revert i; induction l as [|x l IH]; intros i; cbn [find_index]; [done|].
  destruct (p x) eqn:E; [intros [= <-]; eauto|].
  destruct (find_index p l) as [j|]; cbn; [|done]. intros [= <-]. by apply IH.
Qed.

Lemma find_index_None {A} (p : A -> bool) l x : find_index p l = None -> x ∈ l -> p x = false.
Proof.
  induction l as [|y l IH]; cbn [find_index]; [by intros _ ?%elem_of_nil|].
  destruct (p y) eqn:E; [done|]. destruct (find_index p l); cbn; [done|].
  intros _ [->|Hx]%elem_of_cons; auto.
Qed.

Lemma find_from_Some m f i : rMap_find_from_ip m f = Some i -> exists e, m !! i = Some e /\ from_ip e = f.
Proof. intros (e & He & Hp)%find_index_Some. exists e. split; [done|]. lia. Qed.

Lemma improves_Some e t z j :
  improves e t z = Some j -> exists d, dists e !! j = Some d /\ to_ip d = t /\ z < distance d.
Proof.
  unfold improves. destruct (rMap_find_to_ip e t) as [k|] eqn:Ef; [|done].
  apply find_index_Some in Ef as (d & Hd & Ht). rewrite Hd. case_if; [|done]. intros [= <-].
  exists d. split; [done|]. lia.
Qed.

(** How one announcement changes the routes: its own is there, no other is new,
    and one is lost only when it went the same way and was longer. *)
Record announced (old new : Z -> Z -> Z -> Prop) (f t z : Z) : Prop := {
  ann_own : new f t z;
  ann_only : forall f' t' z', new f' t' z' -> old f' t' z' \/ (f', t', z') = (f, t, z);
  ann_kept : forall f' t' z', old f' t' z' -> new f' t' z' \/ (f' = f /\ t' = t /\ z < z') }.

Lemma announced_one m1 e e' m2 m3 f t z :
  announced (elem_route e) (elem_route e') f t z -> (forall f t z, ~ route m3 f t z) ->
  announced (route (m1 ++ e :: m2)) (route ((m1 ++ e' :: m2) ++ m3)) f t z.
Proof.
  intros [Ho Hn Hk] H3. split.
  - rewrite !route_app, route_cons. auto.
  - intros f' t' z'. rewrite !route_app, !route_cons. intros [[H|[H%Hn|H]]|H%H3]; tauto.
  - intros f' t' z'. rewrite !route_app, !route_cons. intros [H|[H%Hk|H]]; tauto.
Qed.

Lemma announced_add e h t z : announced (elem_route e) (elem_route (add_dist (MkDist t z h) e)) (from_ip e) t z.
Proof.
  unfold elem_route, add_dist. cbn [dists from_ip]. split.
  - exists (MkDist t z h). rewrite elem_of_app. split; [right; by left|done].
  - intros f' t' z' (d & [Hd|Hd%list_elem_of_singleton]%elem_of_app & H1 & H2 & H3); [left; eauto|].
    right. subst d. cbn in *. congruence.
  - intros f' t' z' (d & Hd & H). left. exists d. rewrite elem_of_app. auto.
Qed.

Lemma announced_set e j d z :
  dists e !! j = Some d -> z < distance d ->
  announced (elem_route e) (elem_route (set_dist j z e)) (from_ip e) (to_ip d) z.
Proof.
  intros Hj Hz. unfold elem_route, set_dist. cbn [dists from_ip].
  destruct (alter_split (fun d => MkDist (to_ip d) z (holder d)) j (dists e) d Hj) as (l1 & l2 & _ & He & Ha).
  rewrite Ha, He. split.
  - eexists. split; [apply elem_of_app; right; by left|done].
  - intros f' t' z' (x & [Hx|[->|Hx]%elem_of_cons]%elem_of_app & H1 & H2 & H3); cbn in *.
    + left. exists x. rewrite elem_of_app. auto.
    + right. congruence.
    + left. exists x. rewrite elem_of_app, elem_of_cons. auto.
  - intros f' t' z' (x & [Hx|[->|Hx]%elem_of_cons]%elem_of_app & H1 & H2 & H3); cbn in *.
    + left. exists x. rewrite elem_of_app. auto.
    + right. subst. auto.
    + left. exists x. rewrite elem_of_app, elem_of_cons. auto.
Qed.

Lemma announced_new m f t z h m3 :
  (forall f t z, ~ route m3 f t z) -> announced (route m) (route (m ++ MkElem f [MkDist t z h] :: m3)) f t z.
Proof.
  intros H3. split.
  - rewrite route_app, route_cons. right. left. exists (MkDist t z h). split; [by left|done].
  - intros f' t' z'. rewrite route_app, route_cons. intros [H|[(d & Hd & H1 & H2 & H4)|H%H3]]; [tauto| |tauto].
    apply list_elem_of_singleton in Hd. subst d. right. cbn in *. congruence.
  - intros f' t' z' H. left. rewrite route_app. auto.
Qed.

Lemma no_route_empty x f t z : ~ route [MkElem x []] f t z.
Proof. rewrite route_cons. intros [H|H]; [by apply elem_route_empty in H|by apply route_nil in H]. Qed.
Create HintDb rmap.
#[export] Hint Resolve no_route_empty route_nil : rmap.

Lemma append_announced m f t z : announced (route m) (route (rMap_append m f t z)) f t z.
Proof.
  unfold rMap_append. destruct m as [|e0 m0] eqn:Em; [|rewrite <- Em; clear Em].
  { apply (announced_new [] f t z (Some 1%nat) [MkElem t []]). auto with rmap. }
  destruct (rMap_find_from_ip m f) as [i|] eqn:Ef.
  2: { destruct (rMap_find_from_ip _ t); apply announced_new; auto with rmap. }
  apply find_from_Some in Ef as (e & Hi & <-). rewrite Hi. cbn [mbind option_bind].
  assert (forall g, announced (elem_route e) (elem_route (g e)) (from_ip e) t z ->
    forall m3, (forall f t z, ~ route m3 f t z) -> announced (route m) (route (alter g i m ++ m3)) (from_ip e) t z) as Hone.
  { intros g Hg m3 H3. destruct (alter_split g i m e Hi) as (m1 & m2 & _ & Hm & ->).
    rewrite Hm at 1. by apply announced_one. }
  destruct (improves e t z) as [j|] eqn:Ei.
  - apply improves_Some in Ei as (d & Hj & <- & Hz). rewrite <- (app_nil_r (alter _ _ _)).
    apply Hone; [by apply announced_set|auto with rmap].
  - destruct (rMap_find_from_ip m t).
    + rewrite <- (app_nil_r (alter _ _ _)). apply Hone; [apply announced_add|auto with rmap].
    + apply Hone; [apply announced_add|auto with rmap].
Qed.

Lemma route_entries m f t z :
  route m f t z <-> exists d, (f, d) ∈ entries m /\ to_ip d = t /\ distance d = z.
Proof.
  unfold route, entries. split.
  - intros (e & d & He & Hd & <- & H). exists d. split; [|done].
    apply list_elem_of_bind. exists e. split; [|done]. apply list_elem_of_fmap. eauto.
  - intros (d & Hin & H). apply list_elem_of_bind in Hin as (e & Hin & He).
    apply list_elem_of_fmap in Hin as (d' & [= -> ->] & Hd). eauto 10.
Qed.

Lemma announce_snoc l f t z m : announce (l ++ [(f, t, z)]) m = rMap_append (announce l m) f t z.
Proof. unfold announce. by rewrite foldl_app. Qed.

Lemma announce_routes l :
  (forall f t z, route (announce l rMap_init) f t z -> (f, t, z) ∈ l) /\
  (forall f t z, (f, t, z) ∈ l -> exists z', route (announce l rMap_init) f t z' /\ z' <= z).
Proof.
  induction l as [|[[f t] z] l [IH1 IH2]] using rev_ind.
  { split; [intros f t z H; by apply route_nil in H|intros f t z H; by apply elem_of_nil in H]. }
  rewrite announce_snoc. destruct (append_announced (announce l rMap_init) f t z) as [Ho Hn Hk]. split.
  - intros f' t' z' H. apply elem_of_app. apply Hn in H as [H|H]; [left; by apply IH1|right].
    rewrite H. by left.
  - intros f' t' z' [H|H%list_elem_of_singleton]%elem_of_app.
    + destruct (IH2 _ _ _ H) as (y & Hy & Hle). destruct (Hk _ _ _ Hy) as [Hy'|(-> & -> & Hz)]; [eauto|].
      exists z. split; [done|lia].
    + injection H as -> -> ->. exists z. split; [done|lia].
Qed.

(** After any announcements, in any order and repeated as they may be, the
    lookup of an address gives a switch that announced the least of all the
    distances to it that were ever announced, and of those at this distance one
    with the longest prefix. *)
Theorem announced_shortest l to f0 z0 :
  Forall (fun a => a.1.1 <> 0) l -> (f0, to, z0) ∈ l ->
  let r := rMap_shortest_and_longest_matching_prefix_to (announce l rMap_init) to in
  exists z, (r, to, z) ∈ l /\
    forall f' z', (f', to, z') ∈ l ->
      z < z' \/ z = z' /\ rmap_longest_prefix_mathing to f' <= rmap_longest_prefix_mathing to r.
Proof.
  intros Hf H0 r. destruct (announce_routes l) as [Hs Hc]. rewrite Forall_forall in Hf.
  assert (forall f d, (f, d) ∈ entries (announce l rMap_init) -> (f, to_ip d, distance d) ∈ l) as Hin.
  { intros f d Hd. apply Hs, route_entries. eauto. }
  destruct (best_of_entries to (announce l rMap_init)) as ([f d] & Hp & Hm & Hi & Hb).
  - apply Forall_forall. intros [f d] Hd. apply Hin, Hf in Hd. exact Hd.
  - apply Exists_exists. destruct (Hc _ _ _ H0) as (z' & Hr & _). apply route_entries in Hr as (d & Hd & Ht & _).
    exists (f0, d). done.
  - fold r in Hi. cbn in Hi. subst f. exists (distance d). pose proof (Hin _ _ Hp) as Hl.
    unfold to_match in Hm. cbn in Hm. rewrite Hm in Hl. split; [exact Hl|].
    intros f' z' Hl'. destruct (Hc _ _ _ Hl') as (z'' & Hr & Hle). apply route_entries in Hr as (d' & Hd' & Ht & Hz).
    destruct (Hb _ Hd' Ht) as [Hlt|[Heq Hpre]]; cbn in *; [left; lia|].
    destruct (decide (z' = distance d)); [right; split; [done|exact Hpre]|left; lia].
Qed.

(** ** The list of the switches *)

Definition ids (m : RMap) : list Z := from_ip <$> m.

(** [holder] is the element of the address that the entry leads to. *)
Definition holder_ok (l : list Z) (d : RMDist) : Prop :=
  exists h, holder d = Some h /\ l !! h = Some (to_ip d).

(** Each address has one element, and each entry leads to that of its own. *)
Definition rmap_wf (m : RMap) : Prop :=
  NoDup (ids m) /\ forall e d, e ∈ m -> d ∈ dists e -> holder_ok (ids m) d.

Lemma holder_ok_app l k d : holder_ok l d -> holder_ok (l ++ k) d.
Proof. intros (h & Hh & Hl). exists h. split; [done|]. by apply lookup_app_l_Some. Qed.

Lemma ids_alter g i m e : m !! i = Some e -> from_ip (g e) = from_ip e -> ids (alter g i m) = ids m.
Proof.
  intros Hi Hg. destruct (alter_split g i m e Hi) as (m1 & m2 & _ & Hm & ->). rewrite Hm at 1.
  unfold ids. rewrite !fmap_app. cbn. by rewrite Hg.
Qed.

Lemma elem_of_alter g i (m : RMap) e x : m !! i = Some e -> x ∈ alter g i m -> x ∈ m \/ x = g e.
Proof.
  intros Hi. destruct (alter_split g i m e Hi) as (m1 & m2 & _ & Hm & ->).
  rewrite Hm. rewrite !elem_of_app, !elem_of_cons. tauto.
Qed.

Lemma find_from_ids m t h : rMap_find_from_ip m t = Some h -> ids m !! h = Some t.
Proof. intros (e & He & <-)%find_from_Some. unfold ids. by rewrite list_lookup_fmap, He. Qed.

Lemma find_from_fresh m t : rMap_find_from_ip m t = None -> t ∉ ids m.
Proof.
  intros Hn Hin. apply list_elem_of_fmap in Hin as (e & -> & He).
  pose proof (find_index_None _ _ _ Hn He) as H. cbn in H. lia.
Qed.

Lemma nodup_snoc l (x : Z) : NoDup l -> x ∉ l -> NoDup (l ++ [x]).
Proof.
  intros Hl Hx. apply NoDup_app. split; [done|]. split; [|apply NoDup_singleton].
  intros y Hy ->%list_elem_of_singleton. done.
Qed.

Definition bare (k : list Z) : RMap := (fun x => MkElem x []) <$> k.

Lemma ids_bare k : ids (bare k) = k.
Proof. induction k; cbn; [done|]. by f_equal. Qed.

Lemma bare_no_dists k x d : x ∈ bare k -> d ∈ dists x -> False.
Proof. intros (y & -> & _)%list_elem_of_fmap Hd. by apply elem_of_nil in Hd. Qed.

(** Changing the entries of one element, and adding elements without entries. *)
Lemma wf_alter g i m e k :
  rmap_wf m -> m !! i = Some e -> from_ip (g e) = from_ip e -> NoDup (ids m ++ k) ->
  (forall d, d ∈ dists (g e) -> holder_ok (ids m ++ k) d) -> rmap_wf (alter g i m ++ bare k).
Proof.
  intros [_ Hh] Hi Hg Hnd Hd.
  assert (ids (alter g i m ++ bare k) = ids m ++ k) as Hids.
  { unfold ids at 1. rewrite fmap_app. fold (ids (alter g i m)) (ids (bare k)).
    by rewrite ids_bare, (ids_alter g i m e Hi Hg). }
  split; rewrite Hids; [done|]. intros x d [Hx|Hx]%elem_of_app Hxd.
  - apply (elem_of_alter g i m e x Hi) in Hx as [Hx| ->]; [|by apply Hd].
    apply holder_ok_app. by apply (Hh x).
  - by destruct (bare_no_dists k x d).
Qed.

(** Adding an element with one entry, and elements without. *)
Lemma wf_new m f d0 k :
  rmap_wf m -> NoDup (ids m ++ f :: k) -> holder_ok (ids m ++ f :: k) d0 ->
  rmap_wf (m ++ MkElem f [d0] :: bare k).
Proof.
  intros [_ Hh] Hnd Hd.
  assert (ids (m ++ MkElem f [d0] :: bare k) = ids m ++ f :: k) as Hids.
  { unfold ids at 1. rewrite fmap_app, fmap_cons. fold (ids m) (ids (bare k)). by rewrite ids_bare. }
  split; rewrite Hids; [done|]. intros x d [Hx|[->|Hx]%elem_of_cons]%elem_of_app Hxd.
  - apply holder_ok_app. by apply (Hh x).
  - cbn in Hxd. apply list_elem_of_singleton in Hxd. by subst d.
  - by destruct (bare_no_dists k x d).
Qed.

Lemma holder_last l k t z : holder_ok (l ++ t :: k) (MkDist t z (Some (length l))).
Proof. exists (length l). split; [done|]. cbn. rewrite lookup_app_r by lia. by rewrite Nat.sub_diag. Qed.

(** Announcing a distance keeps one element for each address and every
    [holder] at the element of the address that its entry leads to, unless the
    first of all announcements is from an address to itself. *)
Theorem append_wf m f t z : rmap_wf m -> (m = [] -> f <> t) -> rmap_wf (rMap_append m f t z).
Proof.
  intros Hwf Hft. unfold rMap_append. destruct m as [|e0 m0] eqn:Em; [|rewrite <- Em in *; clear Em Hft].
  { apply (wf_new [] f _ [t] Hwf).
    - specialize (Hft eq_refl). repeat (constructor; rewrite ?list_elem_of_singleton; try done). by intros ?%elem_of_nil.
    - by exists 1%nat. }
  pose proof Hwf as [Hnd Hh].
  destruct (rMap_find_from_ip m f) as [i|] eqn:Ef.
  - apply find_from_Some in Ef as (e & Hi & <-). rewrite Hi. cbn [mbind option_bind].
    assert (e ∈ m) as He by (by apply list_elem_of_lookup_2 in Hi).
    destruct (improves e t z) as [j|] eqn:Ej.
    { apply improves_Some in Ej as (d & Hj & _ & _). rewrite <- (app_nil_r (alter _ _ _)).
      apply (wf_alter _ i m e []); try done; rewrite app_nil_r; [done|]. intros d' Hd'. cbn in Hd'.
      destruct (alter_split (fun d => MkDist (to_ip d) z (holder d)) j (dists e) d Hj) as (l1 & l2 & _ & Hl & Ha).
      rewrite Ha in Hd'. pose proof (Hh e) as Hhe. rewrite Hl in Hhe.
      apply elem_of_app in Hd' as [Hd'|[->|Hd']%elem_of_cons].
      - apply Hhe; [done|]. apply elem_of_app. auto.
      - apply (Hhe d); [done|]. apply elem_of_app. right. by left.
      - apply Hhe; [done|]. apply elem_of_app. right. by right. }
    destruct (rMap_find_from_ip m t) as [h|] eqn:Et.
    + rewrite <- (app_nil_r (alter _ _ _)). apply (wf_alter _ i m e []); try done; rewrite app_nil_r; [done|].
      intros d [Hd|Hd%list_elem_of_singleton]%elem_of_app; [by apply (Hh e)|]. subst d.
      exists h. split; [done|]. by apply find_from_ids.
    + apply (wf_alter _ i m e [t]); try done; [by apply nodup_snoc, find_from_fresh|].
      intros d [Hd|Hd%list_elem_of_singleton]%elem_of_app; [apply holder_ok_app; by apply (Hh e)|]. subst d.
      replace (length m) with (length (ids m)) by apply length_fmap. apply holder_last.
  - apply find_from_fresh in Ef as Hf.
    assert (ids (m ++ [MkElem f []]) = ids m ++ [f]) as Hids by (unfold ids; by rewrite fmap_app).
    destruct (rMap_find_from_ip (m ++ [MkElem f []]) t) as [h|] eqn:Et.
    + apply (wf_new m f _ [] Hwf); [by apply nodup_snoc|]. exists h. split; [done|].
      apply find_from_ids in Et. by rewrite Hids in Et.
    + apply (wf_new m f _ [t] Hwf).
      * apply find_from_fresh in Et. rewrite Hids in Et. change (f :: [t]) with ([f] ++ [t]). rewrite app_assoc.
        apply nodup_snoc; [by apply nodup_snoc|done].
      * replace (S (length m)) with (length (ids m ++ [f])) by (rewrite length_app; cbn; unfold ids; rewrite length_fmap; lia).
        change (f :: [t]) with ([f] ++ [t]). rewrite app_assoc. apply holder_last.
Qed.

Lemma announced_shortest_witness :
  (Forall (fun a => a.1.1 <> 0) [(192, 168, 10); (99, 168, 7)] /\ (192, 168, 10) ∈ [(192, 168, 10); (99, 168, 7)]) /\
  exists z, (99, 168, z) ∈ [(192, 168, 10); (99, 168, 7)].
Proof.
  assert (Forall (fun a => a.1.1 <> 0) [(192, 168, 10); (99, 168, 7)]) as H1.
  { repeat constructor; cbn; discriminate. }
  assert ((192, 168, 10) ∈ [(192, 168, 10); (99, 168, 7)]) as H2 by (by left).
  split; [split; assumption|].
  destruct (announced_shortest [(192, 168, 10); (99, 168, 7)] 168 192 10 H1 H2) as (z & Hz & _).
  exists z. vm_compute in Hz |- *. exact Hz.
Defined.

Lemma append_wf_witness :
  (rmap_wf rMap_init /\ (rMap_init = [] -> 192 <> 168)) /\ rmap_wf (rMap_append rMap_init 192 168 10).
Proof.
  assert (rmap_wf rMap_init) as H1.
  { split; [constructor|]. intros e d He. by apply elem_of_nil in He. }
  split; [split; [exact H1|intros _; lia]|]. apply append_wf; [exact H1|intros _; lia].
Defined.
