(* ===== verification/RStr.v ===== *)
(** * Packets, fragments and the table of the link-layer simulation
    ([2.1.LinkLayerSim/RSPkt.h], [RDatPkt.h], [RGreet.h], [RStr.h], [RTabel.h])

    A buffer is the list of its bytes.  A packet is a buffer that begins with the
    12 bytes of [RSPkt_t]: two addresses in network byte order, three reserved
    bytes and the mode.  An address is the [uint32_t] that a little-endian machine
    loads from its four bytes. *)

From S2P Require Import Prelude RIPop.

Definition UDP_MAX_PKT := 1500.
Definition UDP_BUF_MAX_SZ := 1500.

(** [enum rs_mode]. *)
Definition RS_DISCOVERY := 1.
Definition RS_OFFER := 2.
Definition RS_REQUEST := 3.
Definition RS_ACKNOWLEDGE := 4.
Definition RS_DATA_PAYLOAD := 5.
Definition RS_QUERY_PACKET := 6.
Definition RS_QUERY_ACCEPT := 7.
Definition RS_MORE_FRAGMENTS := 10.
Definition RS_LAST_FRAGMENT := 11.

(** [sizeof] of [RSPkt_t], [RGreet_t] and [RData_t]. *)
Definition sizeof_RSPkt := 12.
Definition sizeof_RGreet := 16.
Definition sizeof_RData := 1500.

(** ** Buffers *)

Definition bytes0 (n : Z) : list Z := replicate (Z.to_nat n) 0.

(** [memcpy(buf + off, src, n)] of all bytes of [src]. *)
Definition write_at (off : Z) (src buf : list Z) : ub (list Z) :=
  if (0 <=? off) && (off + Z.of_nat (length src) <=? Z.of_nat (length buf))
  then Ok (take (Z.to_nat off) buf ++ src ++ drop (Z.to_nat off + length src) buf)
  else UB out_of_bounds.

(** The first [n] bytes of [buf]. *)
Definition read_n (n : Z) (buf : list Z) : ub (list Z) :=
  if n <=? Z.of_nat (length buf) then Ok (take (Z.to_nat n) buf) else UB out_of_bounds.

(** ** The fields of packets *)

Definition get8 (off : nat) (p : list Z) : Z := default 0 (p !! off).
Definition get32 (off : nat) (p : list Z) : Z :=
  get8 off p + 256 * (get8 (off + 1) p + 256 * (get8 (off + 2) p + 256 * get8 (off + 3) p)).
Definition bytes32 (z : Z) : list Z := [z mod 256; z / 256 mod 256; z / 65536 mod 256; z / 16777216 mod 256].

Definition src_ip (p : list Z) : Z := get32 0 p.
Definition dest_ip (p : list Z) : Z := get32 4 p.
Definition mode (p : list Z) : Z := get8 11 p.
Definition assign_ip (p : list Z) : Z := get32 12 p.

(** [RSPkt_t] with its reserved bytes zero, and [RGreet_t]. *)
Definition mk_pkt (src dst md : Z) : list Z := bytes32 src ++ bytes32 dst ++ [0; 0; 0; md].
Definition mk_greet (src dst md asg : Z) : list Z := mk_pkt src dst md ++ bytes32 asg.

(** [RSPKT_MODE_CHK] and [RSPKT_MODE_SET]. *)
Definition RSPKT_MODE_CHK (p : list Z) (v : Z) : bool := if mode p =? v then true else false.
Definition RSPKT_MODE_SET (p : list Z) (v : Z) : ub (list Z) := array_set 11 v p.

(** [rsPkt_ip_op_take]: the text that [inet_ntoa] makes of an address. *)
Definition ip_of_u32 (z : Z) : RIPsingle := MkIP (z mod 256) (z / 256 mod 256) (z / 65536 mod 256) (z / 16777216 mod 256).
Definition rsPkt_ip_op_take (z : Z) : string :=
  let ip := ip_of_u32 z in dotted (fst_ ip) (snd_ ip) (thd ip) (frt ip).

(** ** Lists of buffers

    [RStr_lst_t]: the contents of [buf_extra], from [head] to [tail]. *)

Abbreviation RStr_lst := (list (list Z)).

(** [RStr_lst_append]. *)
Definition RStr_lst_append (lst : RStr_lst) (size : Z) : RStr_lst := lst ++ [bytes0 size].

(** The bytes of one turn of the loop of [RStr_lst_buf_add], in the buffer that
    was appended; [room] is [skip_sz - stamp_sz], a [size_t]. *)
Definition frag_node (buf : list Z) (buf_sz : Z) (stamp : list Z) (skip_sz : Z) : ub (list Z) :=
  let room := u64 (skip_sz - Z.of_nat (length stamp)) in
  node ← write_at 0 stamp (bytes0 skip_sz);
  src ← read_n (if buf_sz <? s64 room then u64 buf_sz else room) buf;
  node ← write_at (Z.of_nat (length stamp)) src node;
  RSPKT_MODE_SET node RS_MORE_FRAGMENTS.

(** The loop: each turn appends one buffer. *)
Fixpoint frag_loop (fuel : nat) (lst : RStr_lst) (buf : list Z) (buf_sz : Z) (stamp : list Z) (skip_sz : Z)
    : ub RStr_lst :=
  match fuel with
  | O => UB no_fuel
  | S fuel =>
    let room := u64 (skip_sz - Z.of_nat (length stamp)) in
    node ← frag_node buf buf_sz stamp skip_sz;
    let lst := removelast (RStr_lst_append lst skip_sz) ++ [node] in
    let buf := drop (Z.to_nat room) buf in
    let buf_sz := s64 (buf_sz - room) in
    if 0 <? buf_sz then frag_loop fuel lst buf buf_sz stamp skip_sz else Ok lst
  end.

(** The modes after the loop: [tail] when there is a second buffer, else
    [head]. *)
Definition frag_last (lst : RStr_lst) : ub RStr_lst :=
  match lst with
  | [] => UB null_deref
  | [b] => b ← RSPKT_MODE_SET b RS_DATA_PAYLOAD; Ok [b]
  | _ =>
    tail ← deref (last lst);
    tail ← RSPKT_MODE_SET tail RS_LAST_FRAGMENT;
    Ok (removelast lst ++ [tail])
  end.

(** [RStr_lst_buf_add].  The loop ends when the buffer is used up, so that one
    turn for each of its bytes is enough. *)
Definition RStr_lst_buf_add (lst : RStr_lst) (buf : list Z) (buf_sz : Z) (stamp : list Z) (skip_sz : Z)
    : ub RStr_lst :=
  lst ← frag_loop (S (Z.to_nat buf_sz)) lst buf buf_sz stamp skip_sz;
  frag_last lst.

(** [rsSrvUdp_fragment]: [excess] is the packet as it was received. *)
Definition rsSrvUdp_fragment (mailbox : RStr_lst) (excess stamp : list Z) : ub RStr_lst :=
  RStr_lst_buf_add mailbox (drop 12 excess) (Z.of_nat (length excess) - sizeof_RSPkt) stamp UDP_BUF_MAX_SZ.

(** ** The table

    [RTabel_t]: the entries [(client, dst)] from [head] to [tail]. *)

Section Tabel.
Context {C : Type}.

(** [rTabel_find]. *)
Fixpoint rTabel_find (t : list (C * Z)) (dst : Z) : option C :=
  match t with
  | [] => None
  | (client, d) :: t => if d =? dst then Some client else rTabel_find t dst
  end.

(** [rTabel_append]. *)
Definition rTabel_append (t : list (C * Z)) (client : option C) (dst : Z) : list (C * Z) :=
  match client with
  | None => t
  | Some c => if rTabel_find t dst is Some _ then t else t ++ [(c, dst)]
  end.

(** Only the first client of an address is kept. *)
Lemma rTabel_append_find t client dst d :
  rTabel_find (rTabel_append t client dst) d =
  match rTabel_find t d with
  | Some c => Some c
  | None => if dst =? d then client else None
  end.
Proof.
  destruct client as [c|]; cbn [rTabel_append].
  2: { destruct (rTabel_find t d); [done|]. by destruct (dst =? d). }
  assert (forall t', rTabel_find (t' ++ [(c, dst)]) d =
    match rTabel_find t' d with Some x => Some x | None => if dst =? d then Some c else None end) as Happ.
  { induction t' as [|[x y] t' IH]; cbn; [done|]. destruct (y =? d); [done|apply IH]. }
  destruct (rTabel_find t dst) as [x|] eqn:E; [|apply Happ].
  destruct (rTabel_find t d) eqn:Ed; [done|].
  destruct (Z.eqb_spec dst d) as [->|]; [congruence|done].
Qed.
End Tabel.

(** ** Fragments of a long packet *)

(** The payloads of fragments, put together. *)
Definition payloads (l : RStr_lst) : list Z := concat (drop 12 <$> l).

Example two_fragments :
  (if RStr_lst_buf_add [] (bytes0 2000) 2000 (mk_pkt 1 2 RS_DATA_PAYLOAD) 1500 is Ok m
   then mode <$> m else []) = [RS_MORE_FRAGMENTS; RS_LAST_FRAGMENT].
Proof. vm_compute. reflexivity. Qed.

Lemma bytes0_length n : length (bytes0 n) = Z.to_nat n.
Proof. apply length_replicate. Qed.

Lemma bytes0_split n m : 0 <= n -> 0 <= m -> bytes0 (n + m) = bytes0 n ++ bytes0 m.
Proof. intros. unfold bytes0. rewrite <- replicate_add. f_equal. lia. Qed.

Lemma read_n_ok n buf : n <= Z.of_nat (length buf) -> read_n n buf = Ok (take (Z.to_nat n) buf).
Proof. intros. unfold read_n. by rewrite (proj2 (Z.leb_le _ _)). Qed.

(** Writing behind a first part. *)
Lemma write_at_app pre src buf :
  (length src <= length buf)%nat ->
  write_at (Z.of_nat (length pre)) src (pre ++ buf) = Ok (pre ++ src ++ drop (length src) buf).
Proof.
  intros Hl. unfold write_at. rewrite length_app. case_if.
  2: { cbool. lia. }
  rewrite Nat2Z.id, take_app_length. do 2 f_equal. f_equal.
  by rewrite drop_app_add.
Qed.

(** The mode of a buffer that has a whole header. *)
Lemma set_mode_header h m rest v :
  length h = 11%nat -> RSPKT_MODE_SET (h ++ m :: rest) v = Ok (h ++ v :: rest).
Proof.
  intros Hh. unfold RSPKT_MODE_SET. rewrite array_set_in by (rewrite length_app; cbn; lia).
  change (Z.to_nat 11) with 11%nat. rewrite <- Hh. rewrite <- (Nat.add_0_r (length h)).
  by rewrite insert_app_r.
Qed.

Lemma get_mode_header h m rest : length h = 11%nat -> mode (h ++ m :: rest) = m.
Proof. intros Hh. unfold mode, get8. rewrite <- Hh. by rewrite list_lookup_middle. Qed.

(** The room for payload in a fragment: 1500 bytes less the header. *)
Definition room : nat := Z.to_nat 1488.
Lemma room_eq : Z.of_nat room = 1488.
Proof. reflexivity. Qed.
Lemma room_nat : Z.to_nat 1488 = room.
Proof. reflexivity. Qed.
#[global] Opaque room.

(** One fragment: the header of the stamp, and up to 1488 bytes with zeros behind. *)
Definition fragment (h buf : list Z) (v : Z) : list Z :=
  h ++ v :: take room buf ++ bytes0 (1488 - Z.of_nat (length buf)).

Lemma frag_node_eq h m buf :
  length h = 11%nat -> Z.of_nat (length buf) < 2 ^ 63 ->
  frag_node buf (Z.of_nat (length buf)) (h ++ [m]) 1500 = Ok (fragment h buf RS_MORE_FRAGMENTS).
Proof.
  intros Hh Hb. unfold frag_node. pose proof room_eq. assert (length (h ++ [m]) = 12%nat) as Hs by (rewrite length_app; cbn; lia).
  rewrite Hs. change (u64 (1500 - Z.of_nat 12)) with 1488. change (s64 1488) with 1488.
  change 0 with (Z.of_nat (length (@nil Z))) at 1. change (bytes0 1500) with ([] ++ bytes0 1500).
  rewrite write_at_app by (rewrite Hs, bytes0_length; lia). rewrite Hs.
  change (drop 12 (bytes0 1500)) with (bytes0 1488). change ([] ++ ?x) with x. cbn [mbind ub_bind].
  assert ((if Z.of_nat (length buf) <? 1488 then u64 (Z.of_nat (length buf)) else 1488) =
          Z.of_nat (length (take room buf))) as ->.
  { rewrite length_take. destruct (Z.ltb_spec (Z.of_nat (length buf)) 1488); [rewrite uN_small by lia|]; lia. }
  rewrite read_n_ok by (rewrite length_take; lia). cbn [mbind ub_bind]. rewrite Nat2Z.id.
  assert (take (length (take room buf)) buf = take room buf) as ->.
  { rewrite length_take. destruct (decide (room <= length buf)%nat); [by rewrite Nat.min_l|].
    rewrite Nat.min_r by lia. rewrite !take_ge by lia. done. }
  rewrite <- Hs. rewrite write_at_app by (rewrite length_take, bytes0_length; lia). cbn [mbind ub_bind].
  rewrite <- app_assoc. change ([m] ++ ?x) with (m :: x). rewrite set_mode_header by done.
  unfold fragment. unfold bytes0. rewrite drop_replicate, length_take.
  replace (Z.to_nat 1488 - Nat.min room (length buf))%nat with (Z.to_nat (1488 - Z.of_nat (length buf))); [done|].
  lia.
Qed.

(** The fragments of a buffer, all marked as not the last. *)
Definition fragments (h buf : list Z) (frs : RStr_lst) : Prop :=
  frs <> [] /\
  1488 * (Z.of_nat (length frs) - 1) < Z.of_nat (length buf) <= 1488 * Z.of_nat (length frs) /\
  Forall (fun p => length p = 1500%nat /\ take 11 p = h) frs /\
  payloads frs = buf ++ bytes0 (1488 * Z.of_nat (length frs) - Z.of_nat (length buf)).

Lemma fragment_shape h buf v :
  length h = 11%nat -> length (fragment h buf v) = 1500%nat /\ take 11 (fragment h buf v) = h /\
  mode (fragment h buf v) = v /\
  drop 12 (fragment h buf v) = take room buf ++ bytes0 (1488 - Z.of_nat (length buf)).
Proof.
  intros Hh. pose proof room_eq. unfold fragment. split; [|split; [|split]].
  - rewrite length_app. cbn [length]. rewrite length_app, length_take, bytes0_length. lia.
  - rewrite <- Hh. apply take_app_length.
  - by apply get_mode_header.
  - replace 12%nat with (length h + 1)%nat by lia. by rewrite drop_app_add.
Qed.

Lemma frag_loop_eq h m fuel : forall lst buf,
  length h = 11%nat -> 0 < Z.of_nat (length buf) < 2 ^ 62 -> (length buf <= fuel)%nat ->
  exists frs, frag_loop fuel lst buf (Z.of_nat (length buf)) (h ++ [m]) 1500 = Ok (lst ++ frs) /\
    fragments h buf frs /\ Forall (fun p => mode p = RS_MORE_FRAGMENTS) frs.
Proof.
  pose proof room_eq. induction fuel as [|fuel IH]; intros lst buf Hh Hb Hf; [lia|]. cbn [frag_loop].
  rewrite (frag_node_eq h m) by (done || lia). cbn [mbind ub_bind].
  unfold RStr_lst_append. rewrite removelast_last.
  assert (length (h ++ [m]) = 12%nat) as -> by (rewrite length_app; cbn; lia).
  change (u64 (1500 - Z.of_nat 12)) with 1488. rewrite room_nat.
  set (node := fragment h buf RS_MORE_FRAGMENTS). destruct (fragment_shape h buf RS_MORE_FRAGMENTS Hh) as (N1 & N2 & N3 & N4).
  fold node in N1, N2, N3, N4.
  assert (s64 (Z.of_nat (length buf) - 1488) = Z.of_nat (length buf) - 1488) as ->.
  { apply sN_small; lia. }
  destruct (Z.ltb_spec 0 (Z.of_nat (length buf) - 1488)) as [Hlt|Hge].
  - assert (Z.of_nat (length buf) - 1488 = Z.of_nat (length (drop room buf))) as Hlen by (rewrite length_drop; lia).
    rewrite Hlen. destruct (IH (lst ++ [node]) (drop room buf) Hh ltac:(lia) ltac:(lia)) as (frs & -> & (F1 & F2 & F3 & F4) & F5).
    exists (node :: frs). split; [by rewrite <- app_assoc|]. split; [|by constructor].
    split; [done|]. cbn [length]. split; [lia|]. split; [by constructor|].
    change (payloads (node :: frs)) with (drop 12 node ++ payloads frs). rewrite F4, N4.
    replace (1488 - Z.of_nat (length buf)) with (- (Z.of_nat (length buf) - 1488)) by lia.
    assert (bytes0 (- (Z.of_nat (length buf) - 1488)) = []) as -> by (unfold bytes0; by replace (Z.to_nat _) with 0%nat by lia).
    rewrite app_nil_r, app_assoc, take_drop. do 2 f_equal. lia.
  - exists [node]. split; [done|]. split; [|by repeat constructor].
    split; [done|]. cbn [length]. split; [lia|]. split; [by repeat constructor|].
    change (payloads [node]) with (drop 12 node ++ []). by rewrite app_nil_r, N4, take_ge by lia.
Qed.

Lemma payloads_app l k : payloads (l ++ k) = payloads l ++ payloads k.
Proof. unfold payloads. by rewrite fmap_app, concat_app. Qed.

Lemma header_split (p : list Z) : (12 <= length p)%nat -> exists h v rest, p = h ++ v :: rest /\ length h = 11%nat.
Proof.
  intros Hp. destruct (drop 11 p) as [|v rest] eqn:E.
  - assert (length (drop 11 p) = 0%nat) as Hl by (by rewrite E). rewrite length_drop in Hl. lia.
  - exists (take 11 p), v, rest. rewrite <- E, take_drop. split; [done|]. rewrite length_take. lia.
Qed.

(** Setting the mode changes neither the rest of the header nor the payload. *)
Lemma set_mode_eq p v :
  (12 <= length p)%nat ->
  exists q, RSPKT_MODE_SET p v = Ok q /\ length q = length p /\ take 11 q = take 11 p /\
    drop 12 q = drop 12 p /\ mode q = v.
Proof.
  intros (h & m & rest & -> & Hh)%header_split. exists (h ++ v :: rest).
  rewrite (set_mode_header h m rest v Hh). split; [done|]. split; [by rewrite !length_app|].
  rewrite !(take_app_le _ _ 11), !take_ge by lia. split; [done|].
  rewrite (drop_app_ge _ _ 12), (drop_app_ge _ (m :: _) 12) by lia. rewrite Hh.
  split; [done|]. by apply get_mode_header.
Qed.

(** How the last fragment is marked. *)
Definition last_mode (lst frs : RStr_lst) : Z :=
  if bool_decide (length (lst ++ frs) = 1%nat) then RS_DATA_PAYLOAD else RS_LAST_FRAGMENT.

(** [frag_last] marks the last of the new fragments. *)
Lemma frag_last_eq lst l x :
  (12 <= length x)%nat ->
  exists y, frag_last (lst ++ l ++ [x]) = Ok (lst ++ l ++ [y]) /\ length y = length x /\
    take 11 y = take 11 x /\ drop 12 y = drop 12 x /\ mode y = last_mode lst (l ++ [x]).
Proof.
  intros Hx. unfold last_mode. rewrite app_assoc. destruct (lst ++ l) as [|a k] eqn:E.
  - destruct (set_mode_eq x RS_DATA_PAYLOAD Hx) as (y & Hy & H1 & H2 & H3 & H4). exists y.
    apply app_nil in E as [-> ->]. cbn [app frag_last]. rewrite Hy. cbn. by rewrite bool_decide_eq_true_2.
  - destruct (set_mode_eq x RS_LAST_FRAGMENT Hx) as (y & Hy & H1 & H2 & H3 & H4). exists y.
    assert (frag_last ((a :: k) ++ [x]) = (tail ← deref (last ((a :: k) ++ [x]));
      tail ← RSPKT_MODE_SET tail RS_LAST_FRAGMENT; Ok (removelast ((a :: k) ++ [x]) ++ [tail]))) as ->.
    { by destruct k. }
    rewrite last_snoc, removelast_last. cbn [deref mbind ub_bind]. rewrite Hy. cbn [mbind ub_bind].
    rewrite (app_assoc lst l [y]), E. rewrite bool_decide_eq_false_2; [done|].
    rewrite length_app. cbn. lia.
Qed.

(** The header of the buffers, the modes, and the payload of a packet that was cut
    up. *)
Definition cut (lst : RStr_lst) (h buf : list Z) (frs : RStr_lst) : Prop :=
  fragments h buf frs /\
  mode <$> frs = replicate (pred (length frs)) RS_MORE_FRAGMENTS ++ [last_mode lst frs].

Lemma buf_add_eq lst h m buf :
  length h = 11%nat -> 0 < Z.of_nat (length buf) < 2 ^ 62 ->
  exists frs, RStr_lst_buf_add lst buf (Z.of_nat (length buf)) (h ++ [m]) 1500 = Ok (lst ++ frs) /\
    cut lst h buf frs.
Proof.
  intros Hh Hb. unfold RStr_lst_buf_add.
  destruct (frag_loop_eq h m (S (Z.to_nat (Z.of_nat (length buf)))) lst buf Hh Hb ltac:(lia))
    as (frs & -> & (F1 & F2 & F3 & F4) & F5). cbn [mbind ub_bind].
  destruct frs as [|x l _] using rev_ind; [done|]. clear F1.
  apply Forall_app in F3 as [F3 [F3x F3h]%Forall_singleton]. apply Forall_app in F5 as [F5 _].
  destruct (frag_last_eq lst l x ltac:(lia)) as (y & Hy & Y1 & Y2 & Y3 & Y4).
  exists (l ++ [y]). split; [exact Hy|].
  assert (length (l ++ [x]) = length (l ++ [y])) as Hlen by (by rewrite !length_app).
  split; [split; [by destruct l|]; split; [by rewrite <- Hlen|]; split|].
  - apply Forall_app. split; [done|]. apply Forall_singleton. by rewrite Y1, Y2.
  - rewrite <- Hlen, <- F4, !payloads_app. unfold payloads. cbn. by rewrite Y3.
  - rewrite fmap_app. cbn. rewrite length_app. cbn. rewrite Nat.add_1_r. cbn [pred].
    rewrite Y4. unfold last_mode. rewrite !length_app. cbn [length]. f_equal.
    clear -F5. induction F5; cbn; [done|]. by f_equal.
Qed.

(** ** The fields of packets, proved *)

Definition is_byte (b : Z) : Prop := 0 <= b < 256.

Lemma get8_byte p off : Forall is_byte p -> is_byte (get8 off p).
Proof.
  intros Hp. unfold get8. destruct (p !! off) as [b|] eqn:E; [|cbn; unfold is_byte; lia].
  apply (Forall_lookup_1 _ _ _ _ Hp E).
Qed.

Lemma get32_bounds p off : Forall is_byte p -> 0 <= get32 off p < 2 ^ 32.
Proof.
  intros Hp. unfold get32. pose proof (get8_byte p off Hp). pose proof (get8_byte p (off + 1) Hp).
  pose proof (get8_byte p (off + 2) Hp). pose proof (get8_byte p (off + 3) Hp). unfold is_byte in *. lia.
Qed.

Lemma u32_bytes z : 0 <= z < 2 ^ 32 ->
  z mod 256 + 256 * (z / 256 mod 256 + 256 * (z / 65536 mod 256 + 256 * (z / 16777216 mod 256))) = z.
Proof. intros. Z.to_euclidean_division_equations. lia. Qed.

Lemma mk_pkt_dest src dst m rest : 0 <= dst < 2 ^ 32 -> dest_ip (mk_pkt src dst m ++ rest) = dst.
Proof. intros. unfold dest_ip, get32, get8. cbn. by apply u32_bytes. Qed.

Lemma mk_pkt_mode src dst m rest : mode (mk_pkt src dst m ++ rest) = m.
Proof. done. Qed.

Lemma dest_ip_header p q : take 11 p = take 11 q -> dest_ip p = dest_ip q.
Proof.
  intros H. unfold dest_ip, get32. assert (forall off, (off < 11)%nat -> get8 off p = get8 off q) as Hg.
  { intros off Ho. unfold get8. rewrite <- (lookup_take_lt p 11), <- (lookup_take_lt q 11) by lia. by rewrite H. }
  by rewrite !Hg by lia.
Qed.

(** The text of an address determines it. *)
Lemma dotted_inj a b :
  ip_ok a -> ip_ok b -> dotted (fst_ a) (snd_ a) (thd a) (frt a) = dotted (fst_ b) (snd_ b) (thd b) (frt b) -> a = b.
Proof.
  intros Ha Hb Heq. pose proof (str_to_op_dotted a RIPOP_INIT Ha) as H. rewrite Heq in H.
  rewrite (str_to_op_dotted b RIPOP_INIT Hb) in H. by injection H.
Qed.

Lemma ip_of_u32_ok z : ip_ok (ip_of_u32 z).
Proof. unfold ip_ok, ip_of_u32; cbn. repeat split; apply Z.mod_pos_bound; lia. Qed.

Lemma take_inj x y : 0 <= x < 2 ^ 32 -> 0 <= y < 2 ^ 32 -> rsPkt_ip_op_take x = rsPkt_ip_op_take y -> x = y.
Proof.
  intros Hx Hy H. apply dotted_inj in H; [|apply ip_of_u32_ok..]. unfold ip_of_u32 in H. injection H as H1 H2 H3 H4.
  rewrite <- (u32_bytes x Hx), <- (u32_bytes y Hy). congruence.
Qed.

(** A packet that needs no fragments. *)
Lemma buf_add_whole lst h m rest :
  length h = 11%nat -> length rest = 1488%nat ->
  RStr_lst_buf_add lst (h ++ m :: rest) 1500 [] 1500 =
  Ok (lst ++ [h ++ last_mode lst [h] :: rest]).
Proof.
  intros Hh Hr. unfold RStr_lst_buf_add. change (S (Z.to_nat 1500)) with (S (S (Z.to_nat 1499))).
  assert (frag_node (h ++ m :: rest) 1500 [] 1500 = Ok (h ++ RS_MORE_FRAGMENTS :: rest)) as Hn.
  { unfold frag_node. change (u64 (1500 - Z.of_nat (length (@nil Z)))) with 1500. change (s64 1500) with 1500.
    cbn [Z.ltb Z.compare]. change (bytes0 1500) with ([] ++ bytes0 1500).
    assert (length (h ++ m :: rest) = 1500%nat) as Hl by (rewrite length_app; cbn; lia).
    change 0 with (Z.of_nat (length (@nil Z))) at 1. rewrite write_at_app by (cbn; lia).
    cbn [mbind ub_bind]. rewrite Z.ltb_irrefl, read_n_ok by lia. cbn [mbind ub_bind].
    rewrite take_ge by lia. change ([] ++ [] ++ drop (length []) (bytes0 1500)) with ([] ++ bytes0 1500).
    rewrite write_at_app by (rewrite bytes0_length; lia). cbn [mbind ub_bind].
    rewrite drop_ge by (rewrite bytes0_length; lia). rewrite app_nil_r. cbn [app].
    by apply set_mode_header. }
  cbn [frag_loop]. rewrite Hn. cbn [mbind ub_bind]. unfold RStr_lst_append. rewrite !removelast_last.
  change (s64 (1500 - u64 (1500 - Z.of_nat (length (@nil Z))))) with 0. cbn [Z.ltb Z.compare mbind ub_bind].
  destruct (frag_last_eq lst [] (h ++ RS_MORE_FRAGMENTS :: rest)) as (y & Hy & Y1 & Y2 & Y3 & Y4).
  { rewrite length_app; cbn; lia. }
  etransitivity; [exact Hy|]. cbn [app]. do 3 f_equal.
  rewrite (take_app_le h _ 11), (take_ge h) in Y2 by lia. rewrite (drop_app_ge _ (RS_MORE_FRAGMENTS :: _) 12), Hh in Y3 by lia.
  cbn in Y3. destruct (header_split y) as (h' & v & r' & -> & Hh'); [rewrite Y1, length_app; cbn; lia|].
  rewrite (get_mode_header h') in Y4 by done.
  rewrite (take_app_le _ _ 11), (take_ge h') in Y2 by lia. rewrite (drop_app_ge _ (v :: _) 12), Hh' in Y3 by lia.
  cbn in Y3. rewrite !drop_0 in Y3. rewrite Y2, Y3, Y4. unfold last_mode. by rewrite !length_app.
Qed.

(** A packet longer than a datagram can be put together again.  Its fragments
    are whole packets with the addresses of the stamp; their payloads in order are the
    data of the packet and zeros, less than a fragment; and they are marked as
    fragments, the last one as the last, except that a lone one is marked as a
    whole packet. *)
Theorem fragment_roundtrip excess src dst :
  12 < Z.of_nat (length excess) < 2 ^ 62 ->
  exists frs, rsSrvUdp_fragment [] excess (mk_pkt src dst RS_DATA_PAYLOAD) = Ok frs /\
    (exists k, 0 <= k < 1488 /\ payloads frs = drop 12 excess ++ bytes0 k) /\
    Forall (fun p => length p = 1500%nat /\ take 11 p = take 11 (mk_pkt src dst RS_DATA_PAYLOAD)) frs /\
    mode <$> frs = if bool_decide (length frs = 1%nat) then [RS_DATA_PAYLOAD]
                   else replicate (pred (length frs)) RS_MORE_FRAGMENTS ++ [RS_LAST_FRAGMENT].
Proof.
  intros He. unfold rsSrvUdp_fragment, sizeof_RSPkt, UDP_BUF_MAX_SZ.
  replace (Z.of_nat (length excess) - 12) with (Z.of_nat (length (drop 12 excess))) by (rewrite length_drop; lia).
  change (mk_pkt src dst RS_DATA_PAYLOAD) with ((bytes32 src ++ bytes32 dst ++ [0; 0; 0]) ++ [RS_DATA_PAYLOAD]).
  destruct (buf_add_eq [] (bytes32 src ++ bytes32 dst ++ [0; 0; 0]) RS_DATA_PAYLOAD (drop 12 excess) eq_refl)
    as (frs & -> & (F1 & F2 & F3 & F4) & F5).
  { rewrite length_drop. lia. }
  exists frs. split; [done|]. split; [eexists; split; [|exact F4]; rewrite length_drop in *; lia|].
  split; [exact F3|]. rewrite F5. unfold last_mode. cbn [app]. case_bool_decide as Hl; [by rewrite Hl|done].
Qed.

Lemma fragment_roundtrip_witness :
  12 < Z.of_nat (length (bytes0 3000)) < 2 ^ 62 /\
  exists frs, rsSrvUdp_fragment [] (bytes0 3000) (mk_pkt 1 2 RS_DATA_PAYLOAD) = Ok frs /\ (length frs = 3)%nat.
Proof.
  assert (12 < Z.of_nat (length (bytes0 3000)) < 2 ^ 62) as H by (vm_compute; split; reflexivity).
  split; [exact H|]. destruct (fragment_roundtrip (bytes0 3000) 1 2 H) as (frs & Hf & _).
  exists frs. split; [exact Hf|]. vm_compute in Hf. injection Hf as <-. reflexivity.
Defined.
