(* ===== verification/RSrv.v ===== *)
(** * The switch of the link-layer simulation
    ([2.1.LinkLayerSim/RSrvUdp.h], [RSrvUHandle.h], [RSrvTcp.h], the routing of
    [RSrvTHandle.h], [RDatPkt.h])

    A switch has adaptors (hosts) over UDP and other switches over TCP.  An
    adaptor asks for an address (DISCOVERY, REQUEST) and sends data to an address.
    The switch keeps data in the mailbox of the adaptor or of the switch that it
    is for, announces it (QUERY_PACKET) and hands it out when the other side
    accepts (QUERY_ACCEPT).  Data longer than a datagram is cut up.

    [inet_addr] is the function of the C library. *)

From S2P Require Import Prelude RIPop RMap RStr.

(** The address and the port of a [sockaddr_in]. *)
Definition sockaddr : Type := Z * Z.

(** [RSock_t]: the excess buffer is [Some] when [excess_on]. *)
Record RSock := MkSock { s_fd : Z; s_addr : sockaddr; s_buf : list Z; s_excess : option (list Z) }.

(** [RAdaptor_t]. *)
Record RAdaptor := MkAdaptor {
  a_addr : sockaddr; a_ip : RIPsingle; a_name : string; a_buf : list Z; a_mail : RStr_lst }.

(** [RSrvUdp_t]: [u_host] is [ubox->ubox.host]. *)
Record RSrvUdp := MkUdp {
  u_op : RIPop; u_list : list RAdaptor; adaptor_n : Z; u_name : string; u_host : string }.

(** [RSwitch_t]: the connection is an index into the sockets. *)
Record RSwitch := MkSwitch {
  sw_conn : nat; sw_ip : RIPsingle; sw_name : string; sw_buf : list Z; sw_mail : RStr_lst;
  sw_assign : list Z; sw_dist : Z; conlist : bool }.

(** A pointer to a switch: whether it is in the list [head_con], and its index;
    nothing is removed from the lists. *)
Definition swptr : Type := bool * nat.

(** [RSrvTcp_t]. *)
Record RSrvTcp := MkTcp {
  t_op : RIPop; t_head : list RSwitch; t_con : list RSwitch; switch_n : Z; switchcon_n : Z;
  t_name : string; t_x : Z; t_y : Z; t_map : RMap; t_tabel : list (swptr * Z) }.

(** What [RTU_t] has of them: the UDP side is [Some] when [stcp.sup] is set. *)
Record RTUp := MkTUp { sup : option RSrvUdp; stp : RSrvTcp; socks : list RSock }.

(** What a handler does to the outside: [sendto] over UDP, [sendto] on a
    connection, and data shown to the user. *)
Inductive reffect :=
  | SendTo (to : sockaddr) (b : list Z)
  | WriteFd (fd : Z) (b : list Z)
  | ShowBuf (from : string) (b : list Z).

Definition set_list l u := MkUdp (u_op u) l (adaptor_n u) (u_name u) (u_host u).
Definition set_mail m a := MkAdaptor (a_addr a) (a_ip a) (a_name a) (a_buf a) m.
Definition set_abuf b a := MkAdaptor (a_addr a) (a_ip a) (a_name a) b (a_mail a).
Definition set_smail m s := MkSwitch (sw_conn s) (sw_ip s) (sw_name s) (sw_buf s) m (sw_assign s) (sw_dist s) (conlist s).
Definition set_sup u t := MkTUp (Some u) (stp t) (socks t).

(** The packet of a client: its excess buffer or its buffer. *)
Definition client_pkt (c : RSock) : list Z := default (s_buf c) (s_excess c).

(** A header at the beginning of a buffer. *)
Definition put_header (h b : list Z) : ub (list Z) := write_at 0 h b.

Section Srv.
Context (inet_addr : string -> Z).

(** [rsPkt_ip_op_put]. *)
Definition rsPkt_ip_op_put (name : string) : Z := u32 (inet_addr name).

(** ** RSrvUdp.h *)

(** [rSrvUdp_adaptor_append]: the result of [rIpop_assign_ip] is not looked at. *)
Definition rSrvUdp_adaptor_append (u : RSrvUdp) (client : RSock) : ub RSrvUdp :=
  let '(op, ip, _) := rIpop_assign_ip (u_op u) true in
  name ← rIpop_op_to_str ip;
  let adaptor := MkAdaptor (s_addr client) ip name (s_buf client) [] in
  Ok (MkUdp op (u_list u ++ [adaptor]) (u64 (adaptor_n u + 1)) (u_name u) (u_host u)).

(** [rsSvrUdp_find_adaptor_ip]: the index of the adaptor. *)
Definition rsSvrUdp_find_adaptor_ip (l : list RAdaptor) (find_ip : Z) : option nat :=
  find_index (fun a => String.eqb (a_name a) (rsPkt_ip_op_take find_ip)) l.

Definition udp_zero (host : string) : RSrvUdp := MkUdp RIPOP_INIT [] 0 "" host.

(** [rSvrUdp_init]; [u] and [host] are from before. *)
Definition rSvrUdp_init (u : RSrvUdp) (name : option string) (subnet : Z) : ub (RSrvUdp * bool) :=
  match name with
  | None => Ok (u, false)
  | Some s =>
    if (subnet <? 0) || (IP_MAX_SPACE <? subnet) then Ok (u, false) else
    if negb (fst (rIpop_str_validate_good (Some s) (Some 0))) then Ok (udp_zero (u_host u), false) else
    op ← rIpop_str_to_op RIPOP_INIT s;
    Ok (MkUdp (rIpop_justify op (u8 subnet)) [] 0 s (u_host u), true)
  end.

(** ** Routing ([RSrvTHandle.h]) *)

Definition switch_list (t : RSrvTcp) (con : bool) : list RSwitch := if con then t_con t else t_head t.
Definition lookup_sw (t : RSrvTcp) (p : swptr) : option RSwitch := switch_list t p.1 !! p.2.
Definition update_sw (f : RSwitch -> RSwitch) (p : swptr) (t : RSrvTcp) : RSrvTcp :=
  MkTcp (t_op t) (if p.1 then t_head t else alter f p.2 (t_head t))
    (if p.1 then alter f p.2 (t_con t) else t_con t) (switch_n t) (switchcon_n t)
    (t_name t) (t_x t) (t_y t) (t_map t) (t_tabel t).

(** [rsSvrTcp_for_me], with what [rsSvrShowBuf] shows. *)
Definition rsSvrTcp_for_me (t : RTUp) (pkt : list Z) (excess : option (list Z)) : option reffect :=
  let show := ShowBuf (rsPkt_ip_op_take (src_ip pkt)) (drop 12 (default pkt excess)) in
  if dest_ip pkt =? rsPkt_ip_op_put (t_name (stp t)) then Some show
  else if match sup t with Some u => dest_ip pkt =? rsPkt_ip_op_put (u_name u) | None => false end then Some show
  else if existsb (fun s => assign_ip (sw_assign s) =? dest_ip pkt) (t_con (stp t)) then Some show
  else None.

(** One turn of the two loops for the longest prefix: the switch and
    [max_matched]. *)
Definition prefix_step (addr : RSwitch -> Z) (con : bool) (dest : Z)
    (st : option swptr * Z) (x : nat * RSwitch) : option swptr * Z :=
  let tmp_match := rmap_longest_prefix_mathing (addr x.2) dest in
  if st.2 <? tmp_match then (Some (con, x.1), tmp_match) else st.

Definition switch_addr (s : RSwitch) : Z := rsPkt_ip_op_put (sw_name s).
Definition con_addr (s : RSwitch) : Z := src_ip (sw_assign s).

(** The part of [rsSvrTcp_route_handle] before [SND_PKT]. *)
Definition route_choice (t : RSrvTcp) (dest : Z) : option swptr :=
  match rTabel_find (t_tabel t) dest with
  | Some p => Some p
  | None =>
    let found_to_ip := rMap_shortest_and_longest_matching_prefix_to (t_map t) dest in
    let by_map :=
      if found_to_ip =? 0 then None else
      match find_index (fun s => found_to_ip =? switch_addr s) (t_head t) with
      | Some i => Some (false, i)
      | None => pair true <$> find_index (fun s => con_addr s =? found_to_ip) (t_con t)
      end in
    match by_map with
    | Some p => Some p
    | None =>
      let first := match t_con t with [] => None | _ => Some (true, 0%nat) end in
      let st := foldl (prefix_step con_addr true dest) (first, 0) (imap pair (t_con t)) in
      fst (foldl (prefix_step switch_addr false dest) st (imap pair (t_head t)))
    end
  end.

(** What is put into a mailbox: fragments of the excess buffer, or one packet with
    the payload of [payload_of]. *)
Definition mail_add (mail : RStr_lst) (src dst : Z) (payload_of : list Z) (excess : option (list Z)) : ub RStr_lst :=
  let dat_pkt := mk_pkt src dst RS_DATA_PAYLOAD in
  match excess with
  | Some e => rsSrvUdp_fragment mail e dat_pkt
  | None =>
    payload ← read_n (UDP_MAX_PKT - sizeof_RSPkt) (drop 12 payload_of);
    RStr_lst_buf_add mail (dat_pkt ++ payload) sizeof_RData [] UDP_BUF_MAX_SZ
  end.

(** [rsSvrTcp_route_handle], whose result is always false; [from] is the connection whose
    buffer [pkt] is, if it is that of one: a packet that goes back to it is overwritten by
    the query before it is copied. *)
Definition rsSvrTcp_route_handle (t : RTUp) (from : option nat) (pkt : list Z) (excess : option (list Z)) : ub (RTUp * list reffect) :=
  if rsSvrTcp_for_me t pkt excess is Some e then Ok (t, [e]) else
  match route_choice (stp t) (dest_ip pkt) with
  | None => Ok (t, [])
  | Some p =>
    sw ← deref (lookup_sw (stp t) p);
    let snd :=
      if conlist sw then mk_pkt (dest_ip (sw_assign sw)) (src_ip (sw_assign sw)) RS_QUERY_PACKET
      else mk_pkt (rsPkt_ip_op_put (t_name (stp t))) (switch_addr sw) RS_QUERY_PACKET in
    c ← deref (socks t !! sw_conn sw);
    b ← put_header snd (s_buf c);
    let socks := <[sw_conn sw := MkSock (s_fd c) (s_addr c) b (s_excess c)]> (socks t) in
    let pkt := if decide (from = Some (sw_conn sw)) then b else pkt in
    m ← mail_add (sw_mail sw) (src_ip pkt) (dest_ip pkt) pkt excess;
    Ok (MkTUp (sup t) (update_sw (set_smail m) p (stp t)) socks, [WriteFd (s_fd c) b])
  end.

(** ** RSrvUHandle.h *)

(** [rUdp_write]: what is sent, and whether the packet can be used after it; an
    excess buffer is freed. *)
Definition rUdp_write (client : RSock) : list reffect * ub unit :=
  match s_excess client with
  | Some e => ([SendTo (s_addr client) e], UB use_after_free)
  | None => ([SendTo (s_addr client) (s_buf client)], Ok tt)
  end.

(** A write to the packet of a client. *)
Definition set_pkt (p : list Z) (c : RSock) : RSock :=
  match s_excess c with
  | Some _ => MkSock (s_fd c) (s_addr c) (s_buf c) (Some p)
  | None => MkSock (s_fd c) (s_addr c) p None
  end.

(** The mode [RS_DISCOVERY]. *)
Definition udp_discovery (t : RTUp) (u : RSrvUdp) (client : RSock) : ub (RTUp * bool * list reffect) :=
  let '(_, assign, _) := rIpop_assign_ip (u_op u) false in
  assign_ip ← rIpop_op_to_str assign;
  let asg := rsPkt_ip_op_put assign_ip in
  pkt ← put_header (mk_greet (rsPkt_ip_op_put (u_host u)) 0 RS_OFFER asg) (client_pkt client);
  let client := set_pkt pkt client in
  let '(effs, alive) := rUdp_write client in
  _ ← alive;
  pkt ← write_at 4 (bytes32 asg) pkt;
  u ← rSrvUdp_adaptor_append u (set_pkt pkt client);
  Ok (set_sup u t, false, effs).

(** The mode [RS_REQUEST]. *)
Definition udp_request (t : RTUp) (u : RSrvUdp) (client : RSock) : ub (RTUp * bool * list reffect) :=
  let pkt := client_pkt client in
  match rsSvrUdp_find_adaptor_ip (u_list u) (assign_ip pkt) with
  | None => Ok (t, false, [])
  | Some j =>
    a ← deref (u_list u !! j);
    buf ← write_at 4 (bytes32 (assign_ip (a_buf a))) (a_buf a);
    buf ← RSPKT_MODE_SET buf RS_ACKNOWLEDGE;
    pkt ← put_header (take 16 buf) pkt;
    let '(effs, _) := rUdp_write (set_pkt pkt client) in
    Ok (set_sup (set_list (alter (set_abuf buf) j (u_list u)) u) t, true, effs)
  end.

(** The mode [RS_DATA_PAYLOAD]. *)
Definition udp_data (t : RTUp) (u : RSrvUdp) (client : RSock) : ub (RTUp * bool * list reffect) :=
  let pkt := client_pkt client in
  match rsSvrUdp_find_adaptor_ip (u_list u) (dest_ip pkt) with
  | None => '(t, effs) ← rsSvrTcp_route_handle t None pkt (s_excess client); Ok (t, false, effs)
  | Some j =>
    a ← deref (u_list u !! j);
    m ← mail_add (a_mail a) (src_ip pkt) (dest_ip pkt) (s_buf client) (s_excess client);
    let craft := mk_pkt (rsPkt_ip_op_put (u_name u)) (dest_ip pkt) RS_QUERY_PACKET in
    Ok (set_sup (set_list (alter (set_mail m) j (u_list u)) u) t, false,
        [SendTo (a_addr a) (craft ++ bytes0 1488)])
  end.

(** The mode [RS_QUERY_ACCEPT]: the loop reads [mailbox.head] before it tests
    it. *)
Definition udp_accept (t : RTUp) (u : RSrvUdp) (client : RSock) : ub (RTUp * bool * list reffect) :=
  match rsSvrUdp_find_adaptor_ip (u_list u) (src_ip (client_pkt client)) with
  | None => Ok (t, false, [])
  | Some j =>
    a ← deref (u_list u !! j);
    match a_mail a with
    | [] => UB null_deref
    | mail =>
      Ok (set_sup (set_list (alter (set_mail []) j (u_list u)) u) t, true,
          (fun b => SendTo (a_addr a) (take 1500 b)) <$> mail)
    end
  end.

(** [rsSvrUdp_handle]. *)
Definition rsSvrUdp_handle (t : RTUp) (client : RSock) : ub (RTUp * bool * list reffect) :=
  u ← deref (sup t);
  let pkt := client_pkt client in
  if RSPKT_MODE_CHK pkt RS_DISCOVERY then udp_discovery t u client
  else if RSPKT_MODE_CHK pkt RS_REQUEST then udp_request t u client
  else if RSPKT_MODE_CHK pkt RS_DATA_PAYLOAD then udp_data t u client
  else if RSPKT_MODE_CHK pkt RS_QUERY_ACCEPT then udp_accept t u client
  else Ok (t, false, []).

(** A sequence of datagrams. *)
Fixpoint udp_run (cs : list RSock) (t : RTUp) : ub (RTUp * list reffect) :=
  match cs with
  | [] => Ok (t, [])
  | c :: cs =>
    '(t, _, e1) ← rsSvrUdp_handle t c;
    '(t, e2) ← udp_run cs t;
    Ok (t, e1 ++ e2)
  end.
End Srv.

(** ** What is put into a mailbox *)

Definition is_data (b : list Z) : bool :=
  (mode b =? RS_DATA_PAYLOAD) || (mode b =? RS_MORE_FRAGMENTS) || (mode b =? RS_LAST_FRAGMENT).

(** The data of a packet, with zeros up to a whole number of fragments. *)
Definition data_of (buf : list Z) (excess : option (list Z)) : list Z :=
  match excess with
  | None => drop 12 buf
  | Some e => drop 12 e ++ bytes0 ((- (Z.of_nat (length e) - 12)) mod 1488)
  end.

(** An entry of a mailbox of the address [dst]. *)
Definition entry_ok (dst : Z) (b : list Z) : Prop :=
  length b = 1500%nat /\ is_data b = true /\ dest_ip b = dst.

Definition buf_ok (b : list Z) : Prop := length b = 1500%nat /\ Forall is_byte b.
Definition excess_ok (e : option (list Z)) : Prop :=
  match e with Some e => UDP_BUF_MAX_SZ < Z.of_nat (length e) < 2 ^ 62 /\ Forall is_byte e | None => True end.

Lemma data_modes frs lst :
  (forall b, b ∈ frs -> mode b ∈ replicate (pred (length frs)) RS_MORE_FRAGMENTS ++ [last_mode lst frs]) ->
  Forall (fun b => is_data b = true) frs.
Proof.
  intros H. apply Forall_forall. intros b Hb. specialize (H b Hb). unfold is_data.
  apply elem_of_app in H as [[-> _]%elem_of_replicate| ->%list_elem_of_singleton]; [done|].
  unfold last_mode. by case_if.
Qed.

Lemma mail_add_ok mail src dst buf excess :
  0 <= dst < 2 ^ 32 -> length buf = 1500%nat -> excess_ok excess ->
  exists frs, mail_add mail src dst buf excess = Ok (mail ++ frs) /\ frs <> [] /\
    payloads frs = data_of buf excess /\ Forall (entry_ok dst) frs.
Proof.
  intros Hd Hb He. unfold mail_add.
  set (h := bytes32 src ++ bytes32 dst ++ [0; 0; 0]).
  assert (length h = 11%nat) as Hh by done.
  assert (forall v rest, dest_ip (h ++ v :: rest) = dst) as Hdest.
  { intros v rest. exact (mk_pkt_dest src dst v rest Hd). }
  change (mk_pkt src dst RS_DATA_PAYLOAD) with (h ++ [RS_DATA_PAYLOAD]).
  destruct excess as [e|].
  - destruct He as [He _]. unfold UDP_BUF_MAX_SZ in He. unfold rsSrvUdp_fragment, sizeof_RSPkt, UDP_BUF_MAX_SZ.
    replace (Z.of_nat (length e) - 12) with (Z.of_nat (length (drop 12 e))) by (rewrite length_drop; lia).
    destruct (buf_add_eq mail h RS_DATA_PAYLOAD (drop 12 e) Hh) as (frs & -> & (F1 & F2 & F3 & F4) & F5).
    { rewrite length_drop. lia. }
    exists frs. split; [done|]. split; [done|]. split.
    + rewrite F4. cbn [data_of]. do 2 f_equal. rewrite length_drop in *.
      apply (Z.mod_unique _ _ (- Z.of_nat (length frs))); lia.
    + pose proof (data_modes frs mail) as Hm. rewrite <- F5 in Hm. specialize (Hm (fun b Hb => proj2 (list_elem_of_fmap _ _ _) (ex_intro _ b (conj eq_refl Hb)))).
      rewrite Forall_forall in *. intros b Hin. destruct (F3 b Hin) as [L1 L2].
      split; [done|]. split; [by apply Hm|].
      rewrite (dest_ip_header b (h ++ [0])); [apply Hdest|]. by rewrite L2.
  - rewrite read_n_ok by (rewrite length_drop; unfold UDP_MAX_PKT, sizeof_RSPkt; lia). cbn [mbind ub_bind].
    rewrite take_ge by (rewrite length_drop; unfold UDP_MAX_PKT, sizeof_RSPkt; lia).
    rewrite <- app_assoc. cbn [app].
    unfold sizeof_RData, UDP_BUF_MAX_SZ. change ((h ++ [RS_DATA_PAYLOAD]) ++ ?x) with (h ++ RS_DATA_PAYLOAD :: x).
    rewrite buf_add_whole by (done || (rewrite length_drop; lia)).
    eexists. split; [done|]. split; [done|]. split.
    { cbn [data_of]. rewrite <- (app_nil_r (drop 12 buf)) at 2. reflexivity. }
    apply Forall_singleton. split; [rewrite length_app; cbn [length]; rewrite length_drop; lia|].
    split; [|apply Hdest]. unfold is_data. rewrite (get_mode_header h) by done.
    unfold last_mode. by case_if.
Qed.

(** ** The data of one address through the switch *)

(** The data waiting for an adaptor, by the address of the adaptor. *)
Definition adaptor_at (ip : Z) (t : RTUp) : option RAdaptor :=
  u ← sup t; j ← rsSvrUdp_find_adaptor_ip (u_list u) ip; u_list u !! j.
Definition mail_of (ip : Z) (t : RTUp) : list Z :=
  match adaptor_at ip t with Some a => payloads (a_mail a) | None => [] end.

(** The data sent to an address. *)
Definition sent_packet (ip : Z) (e : reffect) : option (list Z) :=
  match e with
  | SendTo _ b => if is_data b && (dest_ip b =? ip) then Some b else None
  | _ => None
  end.
Definition sent (ip : Z) (effs : list reffect) : list Z := payloads (omap (sent_packet ip) effs).

(** The data for an address that a datagram brings to an adaptor of the switch. *)
Definition accepted_data (ip : Z) (t : RTUp) (c : RSock) : list Z :=
  if RSPKT_MODE_CHK (client_pkt c) RS_DATA_PAYLOAD && (dest_ip (client_pkt c) =? ip) &&
     bool_decide (is_Some (adaptor_at ip t))
  then data_of (s_buf c) (s_excess c) else [].

Definition client_ok (c : RSock) : Prop := buf_ok (s_buf c) /\ excess_ok (s_excess c).

(** Every mailbox holds whole packets for the address of its adaptor. *)
Definition adaptor_ok (a : RAdaptor) : Prop :=
  Forall (fun b => length b = 1500%nat /\ is_data b = true /\ 0 <= dest_ip b < 2 ^ 32 /\
                   rsPkt_ip_op_take (dest_ip b) = a_name a) (a_mail a).
Definition mail_ok (t : RTUp) : Prop := forall u, sup t = Some u -> Forall adaptor_ok (u_list u).

Lemma find_index_alter {A} (p : A -> bool) f j l :
  (forall x, p (f x) = p x) -> find_index p (alter f j l) = find_index p l.
Proof.
  intros Hp. revert j; induction l as [|x l IH]; intros j; [done|].
  destruct j as [|j]; cbn.
  - by rewrite Hp.
  - case_if; [done|]. by rewrite <- (IH j).
Qed.

Lemma find_index_snoc {A} (p : A -> bool) l x :
  find_index p (l ++ [x]) =
  match find_index p l with Some i => Some i | None => if p x then Some (length l) else None end.
Proof.
  induction l as [|y l IH]; cbn; [done|]. case_if; [done|]. rewrite IH.
  destruct (find_index p l); cbn; [done|]. by case_if.
Qed.

Lemma find_adaptor_Some l ip j :
  rsSvrUdp_find_adaptor_ip l ip = Some j -> exists a, l !! j = Some a /\ a_name a = rsPkt_ip_op_take ip.
Proof. intros (a & Ha & Hn)%find_index_Some. exists a. split; [done|]. by apply String.eqb_eq. Qed.

(** Changing one adaptor without its name. *)
Lemma adaptor_at_alter f j l u t ip :
  (forall a, a_name (f a) = a_name a) -> sup t = Some u -> l = u_list u ->
  adaptor_at ip (set_sup (set_list (alter f j l) u) t) =
  (if bool_decide (rsSvrUdp_find_adaptor_ip l ip = Some j) then f <$> adaptor_at ip t else adaptor_at ip t).
Proof.
  intros Hf Hu ->. unfold adaptor_at. rewrite Hu. cbn. unfold rsSvrUdp_find_adaptor_ip.
  rewrite find_index_alter by (intros; by rewrite Hf).
  destruct (find_index _ (u_list u)) as [k|]; cbn; [|done].
  case_bool_decide as Hk.
  - injection Hk as ->. by rewrite list_lookup_alter, decide_True.
  - rewrite list_lookup_alter_ne; [done|]. intros ->. done.
Qed.

Lemma sent_app ip e1 e2 : sent ip (e1 ++ e2) = sent ip e1 ++ sent ip e2.
Proof. unfold sent. by rewrite omap_app, payloads_app. Qed.

Lemma sent_none ip to b : is_data b = false -> sent ip [SendTo to b] = [].
Proof. intros H. unfold sent. cbn. by rewrite H. Qed.

(** A datagram that changes no mailbox. *)
Definition step_ok (t : RTUp) (c : RSock) (t' : RTUp) (effs : list reffect) : Prop :=
  mail_ok t' /\
  forall ip, 0 <= ip < 2 ^ 32 -> mail_of ip t ++ accepted_data ip t c = sent ip effs ++ mail_of ip t'.

Lemma adaptor_ok_at t u j a : mail_ok t -> sup t = Some u -> u_list u !! j = Some a -> adaptor_ok a.
Proof. intros H Hu Ha. specialize (H u Hu). by apply (Forall_lookup_1 _ _ _ _ H Ha). Qed.

Lemma mail_ok_alter f j u t a :
  mail_ok t -> sup t = Some u -> u_list u !! j = Some a -> adaptor_ok (f a) ->
  mail_ok (set_sup (set_list (alter f j (u_list u)) u) t).
Proof.
  intros Hm Hu Ha Hf u' [= <-]. cbn [u_list set_list].
  destruct (alter_split f j (u_list u) a Ha) as (l1 & l2 & _ & Hl & ->). specialize (Hm u Hu).
  rewrite Hl in Hm. apply Forall_app in Hm as [H1 [_ H2]%Forall_cons]. apply Forall_app. split; [done|by constructor].
Qed.

Lemma route_no_data inet_addr t from pkt excess t' effs :
  rsSvrTcp_route_handle inet_addr t from pkt excess = Ok (t', effs) ->
  sup t' = sup t /\ forall ip, sent ip effs = [].
Proof.
  unfold rsSvrTcp_route_handle. destruct (rsSvrTcp_for_me _ _ _ _) as [e|] eqn:Ee.
  - intros [= <- <-]. split; [done|]. intros ip. revert Ee. unfold rsSvrTcp_for_me.
    repeat case_if; intros [= <-]; done.
  - destruct (route_choice _ _ _) as [p|]; [|by intros [= <- <-]].
    intros (sw & _ & H)%ub_bind_ok. apply ub_bind_ok in H as (c & _ & H). apply ub_bind_ok in H as (b & _ & H).
    apply ub_bind_ok in H as (m & _ & H). injection H as <- <-. done.
Qed.

Lemma is_data_mode b v : mode b = v -> v <> 5 -> v <> 10 -> v <> 11 -> is_data b = false.
Proof.
  intros Hv H1 H2 H3. unfold is_data, RS_DATA_PAYLOAD, RS_MORE_FRAGMENTS, RS_LAST_FRAGMENT. rewrite Hv.
  apply Z.eqb_neq in H1, H2, H3. by rewrite H1, H2, H3.
Qed.

(** ** The modes, one by one *)

Section Steps.
Context (inet_addr : string -> Z).

Lemma discovery_step t u c t' r effs :
  sup t = Some u -> mail_ok t -> client_ok c -> RSPKT_MODE_CHK (client_pkt c) RS_DISCOVERY = true ->
  udp_discovery inet_addr t u c = Ok (t', r, effs) -> step_ok t c t' effs.
Proof.
  intros Hu Hm Hc Hmode. unfold udp_discovery.
  destruct (rIpop_assign_ip (u_op u) false) as [[o1 a1] r1].
  intros (s & _ & H)%ub_bind_ok. apply ub_bind_ok in H as (pkt & Hpkt & H).
  set (c1 := set_pkt pkt c) in *. destruct (rUdp_write c1) as [ef al] eqn:Ew.
  apply ub_bind_ok in H as (tt & Hal & H). apply ub_bind_ok in H as (pkt2 & _ & H).
  apply ub_bind_ok in H as (u' & Happ & H). injection H as <- _ <-.
  unfold rSrvUdp_adaptor_append in Happ. destruct (rIpop_assign_ip (u_op u) true) as [[o2 a2] r2].
  apply ub_bind_ok in Happ as (nm & _ & Happ). injection Happ as <-.
  split.
  - intros u2 [= <-]. cbn. apply Forall_app. split; [by apply Hm|]. by apply Forall_singleton, Forall_nil.
  - intros ip Hip.
    assert (accepted_data ip t c = []) as ->.
    { unfold accepted_data, RSPKT_MODE_CHK in *. revert Hmode. case_if; [|done]. cbool. rewrite E. done. }
    assert (sent ip ef = []) as ->.
    { unfold rUdp_write in Ew. destruct (s_excess c1) eqn:Ex; injection Ew as <- <-; [done|].
      apply sent_none. unfold c1, set_pkt in *. destruct (s_excess c); [done|]. cbn [s_buf].
      apply (is_data_mode _ RS_OFFER); [|done..]. unfold put_header, write_at in Hpkt. revert Hpkt.
      case_if; [|done]. intros [= <-]. done. }
    rewrite app_nil_r. cbn [app]. unfold mail_of, adaptor_at. rewrite Hu. cbn.
    unfold rsSvrUdp_find_adaptor_ip. rewrite find_index_snoc.
    destruct (find_index _ (u_list u)) as [k|] eqn:Ek; cbn.
    + apply find_index_Some in Ek as (a & Ha & _). by rewrite lookup_app_l, Ha by (by apply lookup_lt_Some in Ha).
    + case_if; cbn; [|done]. by rewrite list_lookup_middle.
Qed.

Lemma request_step t u c t' r effs :
  sup t = Some u -> mail_ok t -> client_ok c -> RSPKT_MODE_CHK (client_pkt c) RS_REQUEST = true ->
  udp_request t u c = Ok (t', r, effs) -> step_ok t c t' effs.
Proof.
  intros Hu Hm Hc Hmode. unfold udp_request.
  assert (forall ip, accepted_data ip t c = []) as Hacc.
  { intros ip. unfold accepted_data, RSPKT_MODE_CHK in *. revert Hmode. case_if; [|done]. cbool. by rewrite E. }
  destruct (rsSvrUdp_find_adaptor_ip _ _) as [j|] eqn:Ef.
  2: { intros [= <- <- <-]. split; [done|]. intros ip _. by rewrite Hacc, app_nil_r. }
  intros (a & Ha & H)%ub_bind_ok. apply ub_bind_ok in H as (b1 & Hb1 & H). apply ub_bind_ok in H as (b2 & Hb2 & H).
  apply ub_bind_ok in H as (pkt & Hpkt & H). destruct (rUdp_write _) as [ef al] eqn:Ew. injection H as <- _ <-.
  apply find_adaptor_Some in Ef as (a' & Ha' & _). rewrite Ha' in Ha. injection Ha as ->.
  split.
  - apply (mail_ok_alter _ j u t a); [done..|]. exact (adaptor_ok_at t u j a Hm Hu Ha').
  - intros ip Hip. rewrite Hacc, app_nil_r.
    assert (sent ip ef = []) as ->.
    { assert (mode pkt = RS_ACKNOWLEDGE) as Hmd.
      { unfold put_header, write_at in Hpkt. revert Hpkt. case_if; [|done]. intros [= <-].
        unfold RSPKT_MODE_SET in Hb2. apply array_set_Ok in Hb2 as [Hl ->].
        unfold mode, get8. change (take (Z.to_nat 0) (client_pkt c)) with (@nil Z). change ([] ++ ?x) with x.
        rewrite lookup_app_l by (rewrite length_take, length_insert; lia).
        rewrite lookup_take_lt by lia. change (Z.to_nat 11) with 11%nat. rewrite list_lookup_insert_eq by lia. done. }
      unfold rUdp_write in Ew. unfold set_pkt in Ew. destruct (s_excess c); injection Ew as <- <-;
        apply sent_none; by apply (is_data_mode _ RS_ACKNOWLEDGE). }
    cbn [app]. unfold mail_of. rewrite (adaptor_at_alter _ j _ u) by done. case_if; [|done].
    by destruct (adaptor_at ip t).
Qed.

(** A mailbox that holds data for one address only. *)
Lemma sent_mail ip s to l :
  Forall (fun b => length b = 1500%nat /\ is_data b = true /\ dest_ip b = s) l ->
  sent ip ((fun b => SendTo to (take 1500 b)) <$> l) = if s =? ip then payloads l else [].
Proof.
  induction 1 as [|b l (Hb & Hd & Hs) Hl IH]; [by case_if|]. rewrite fmap_cons.
  change (?e :: ?k) with ([e] ++ k) at 1. rewrite sent_app, IH. unfold sent. cbn [omap list_omap sent_packet].
  rewrite take_ge by lia. rewrite Hd, Hs. cbn [andb]. case_if; [|done].
  change (payloads (b :: l)) with (drop 12 b ++ payloads l). change (payloads [b]) with (drop 12 b ++ []).
  by rewrite app_nil_r.
Qed.

(** An adaptor that another address finds is another one. *)
Lemma other_adaptor l ip s j :
  0 <= ip < 2 ^ 32 -> 0 <= s < 2 ^ 32 -> rsSvrUdp_find_adaptor_ip l s = Some j ->
  bool_decide (rsSvrUdp_find_adaptor_ip l ip = Some j) = (s =? ip).
Proof.
  intros Hip Hs Hj. destruct (Z.eqb_spec s ip) as [->|Hne].
  - by apply bool_decide_eq_true.
  - apply bool_decide_eq_false. intros Hj'. apply find_adaptor_Some in Hj as (a & Ha & Hn).
    apply find_adaptor_Some in Hj' as (a' & Ha' & Hn'). rewrite Ha' in Ha. injection Ha as ->.
    apply Hne, take_inj; [done..|]. congruence.
Qed.

Lemma client_pkt_bytes c : client_ok c -> Forall is_byte (client_pkt c).
Proof. intros [[_ Hb] He]. unfold client_pkt. destruct (s_excess c); cbn in *; [by destruct He|done]. Qed.

Lemma client_pkt_length c : client_ok c -> (1500 <= length (client_pkt c))%nat.
Proof.
  intros [[Hb _] He]. unfold client_pkt. destruct (s_excess c) as [e|]; cbn [default]; [|by rewrite Hb].
  destruct He as [He _]. unfold UDP_BUF_MAX_SZ in He. unfold id. lia.
Qed.

Lemma adaptor_at_found t u ip j a :
  sup t = Some u -> rsSvrUdp_find_adaptor_ip (u_list u) ip = Some j -> u_list u !! j = Some a ->
  adaptor_at ip t = Some a.
Proof. intros Hu Hj Ha. unfold adaptor_at. rewrite Hu. cbn. rewrite Hj. cbn. done. Qed.

Lemma data_step t u c t' r effs :
  sup t = Some u -> mail_ok t -> client_ok c -> RSPKT_MODE_CHK (client_pkt c) RS_DATA_PAYLOAD = true ->
  udp_data inet_addr t u c = Ok (t', r, effs) -> step_ok t c t' effs.
Proof.
  intros Hu Hm Hc Hmode. unfold udp_data.
  pose proof (get32_bounds _ 4 (client_pkt_bytes c Hc)) as Hd. change (get32 4 ?p) with (dest_ip p) in Hd.
  destruct (rsSvrUdp_find_adaptor_ip _ _) as [j|] eqn:Ef.
  - apply find_adaptor_Some in Ef as Hfind. destruct Hfind as (a & Ha & Hn). rewrite Ha. cbn [deref mbind ub_bind].
    destruct Hc as [[Hb _] He].
    destruct (mail_add_ok (a_mail a) (src_ip (client_pkt c)) (dest_ip (client_pkt c)) (s_buf c) (s_excess c) Hd Hb He)
      as (frs & -> & _ & Hp & Hfrs). cbn [mbind ub_bind]. intros [= <- _ <-].
    split.
    + apply (mail_ok_alter _ j u t a); [done..|]. unfold adaptor_ok. cbn [a_mail a_name set_mail].
      apply Forall_app. split; [exact (adaptor_ok_at t u j a Hm Hu Ha)|].
      eapply Forall_impl; [exact Hfrs|]. intros b (H1 & H2 & ->). done.
    + intros ip Hip. rewrite sent_none by (apply (is_data_mode _ RS_QUERY_PACKET); done). cbn [app].
      unfold mail_of at 2. rewrite (adaptor_at_alter _ j _ u) by done. rewrite (other_adaptor _ _ _ _ Hip Hd Ef).
      unfold accepted_data. rewrite Hmode. destruct (Z.eqb_spec (dest_ip (client_pkt c)) ip) as [<-|]; cbn [andb].
      * unfold mail_of. rewrite (adaptor_at_found t u _ j a Hu Ef Ha), bool_decide_eq_true_2 by eauto.
        cbn [fmap option_fmap option_map a_mail set_mail]. by rewrite payloads_app, Hp.
      * by rewrite app_nil_r.
  - intros ([t1 e1] & Hr & H)%ub_bind_ok. injection H as <- _ <-. apply route_no_data in Hr as [Hs Hsent].
    split; [intros u'; rewrite Hs; apply Hm|]. intros ip Hip. rewrite Hsent. cbn [app].
    assert (adaptor_at ip t1 = adaptor_at ip t) as Hat by (unfold adaptor_at; by rewrite Hs).
    unfold mail_of. rewrite Hat. unfold accepted_data. rewrite Hmode. destruct (Z.eqb_spec (dest_ip (client_pkt c)) ip) as [<-|]; cbn [andb].
    + assert (adaptor_at (dest_ip (client_pkt c)) t = None) as -> by (unfold adaptor_at; rewrite Hu; cbn; by rewrite Ef).
      done.
    + by rewrite app_nil_r.
Qed.

Lemma accept_step t u c t' r effs :
  sup t = Some u -> mail_ok t -> client_ok c -> RSPKT_MODE_CHK (client_pkt c) RS_QUERY_ACCEPT = true ->
  udp_accept t u c = Ok (t', r, effs) -> step_ok t c t' effs.
Proof.
  intros Hu Hm Hc Hmode. unfold udp_accept.
  pose proof (get32_bounds _ 0 (client_pkt_bytes c Hc)) as Hd. change (get32 0 ?p) with (src_ip p) in Hd.
  assert (forall ip, accepted_data ip t c = []) as Hacc.
  { intros ip. unfold accepted_data, RSPKT_MODE_CHK in *. revert Hmode. case_if; [|done]. cbool. by rewrite E. }
  destruct (rsSvrUdp_find_adaptor_ip _ _) as [j|] eqn:Ef.
  2: { intros [= <- <- <-]. split; [done|]. intros ip _. by rewrite Hacc, app_nil_r. }
  apply find_adaptor_Some in Ef as Hfind. destruct Hfind as (a & Ha & Hn). rewrite Ha. cbn [deref mbind ub_bind].
  destruct (a_mail a) as [|b0 l0] eqn:El; [done|]. rewrite <- El. intros [= <- _ <-].
  split.
  - apply (mail_ok_alter _ j u t a); [done..|]. by apply Forall_nil.
  - intros ip Hip. rewrite Hacc, app_nil_r.
    rewrite (sent_mail ip (src_ip (client_pkt c))).
    2: { eapply Forall_impl; [exact (adaptor_ok_at t u j a Hm Hu Ha)|]. intros b (H1 & H2 & H3 & H4).
         split; [done|]. split; [done|]. apply take_inj; [done..|]. congruence. }
    unfold mail_of at 2. rewrite (adaptor_at_alter _ j _ u) by done. rewrite (other_adaptor _ _ _ _ Hip Hd Ef).
    unfold mail_of. destruct (Z.eqb_spec (src_ip (client_pkt c)) ip) as [<-|]; [|done].
    rewrite (adaptor_at_found t u _ j a Hu Ef Ha). cbn. by rewrite app_nil_r.
Qed.

Lemma handle_step t c t' r effs :
  mail_ok t -> client_ok c -> rsSvrUdp_handle inet_addr t c = Ok (t', r, effs) -> step_ok t c t' effs.
Proof.
  intros Hm Hc. unfold rsSvrUdp_handle. destruct (sup t) as [u|] eqn:Hu; [|done]. cbn [deref mbind ub_bind].
  destruct (RSPKT_MODE_CHK (client_pkt c) RS_DISCOVERY) eqn:E1; [by apply discovery_step|].
  destruct (RSPKT_MODE_CHK (client_pkt c) RS_REQUEST) eqn:E2; [by apply request_step|].
  destruct (RSPKT_MODE_CHK (client_pkt c) RS_DATA_PAYLOAD) eqn:E3; [by apply data_step|].
  destruct (RSPKT_MODE_CHK (client_pkt c) RS_QUERY_ACCEPT) eqn:E4; [by apply accept_step|].
  intros [= <- _ <-]. split; [done|]. intros ip _. unfold accepted_data. rewrite E3. by rewrite app_nil_r.
Qed.

(** The data that all the datagrams of a run bring for an address. *)
Fixpoint accepted_run (ip : Z) (cs : list RSock) (t : RTUp) : list Z :=
  match cs with
  | [] => []
  | c :: cs =>
    accepted_data ip t c ++
    match rsSvrUdp_handle inet_addr t c with Ok (t, _, _) => accepted_run ip cs t | UB _ => [] end
  end.

(** C18: No data is lost, doubled or reordered between the adaptors of a switch.  In a run
    of any datagrams, for every address: what was waiting for it before and what
    was then sent to it by others is what was handed out to it and what is still
    waiting, byte for byte and in order, however the datagrams of different
    adaptors interleave and whether or not they are cut into fragments. *)
Theorem udp_run_fifo cs t t' effs ip :
  mail_ok t -> Forall client_ok cs -> 0 <= ip < 2 ^ 32 ->
  udp_run inet_addr cs t = Ok (t', effs) ->
  mail_of ip t ++ accepted_run ip cs t = sent ip effs ++ mail_of ip t'.
Proof.
  intros Hm Hcs Hip. revert t effs Hm. induction Hcs as [|c cs Hc Hcs IH]; intros t effs Hm; cbn [udp_run accepted_run].
  { intros [= <- <-]. by rewrite app_nil_r. }
  intros ([[t1 r] e1] & Hh & H)%ub_bind_ok. apply ub_bind_ok in H as ([t2 e2] & Hr & H). injection H as <- <-.
  rewrite Hh. destruct (handle_step t c t1 r e1 Hm Hc Hh) as [Hm1 Hs].
  rewrite app_assoc, (Hs ip Hip), sent_app, <- !app_assoc. f_equal. by apply IH.
Qed.
End Steps.

(** Accepting twice crashes the switch: once the mailbox of an adaptor was
    handed out, the same QUERY_ACCEPT again reads through a NULL pointer, because
    the loop looks at the first entry before it tests for the end. *)
Theorem accept_twice_crashes inet_addr t c t' effs :
  RSPKT_MODE_CHK (client_pkt c) RS_QUERY_ACCEPT = true ->
  rsSvrUdp_handle inet_addr t c = Ok (t', true, effs) ->
  rsSvrUdp_handle inet_addr t' c = UB null_deref.
Proof.
  intros Hmode. unfold rsSvrUdp_handle. destruct (sup t) as [u|]; [|done]. cbn [deref mbind ub_bind].
  assert (forall v, v <> RS_QUERY_ACCEPT -> RSPKT_MODE_CHK (client_pkt c) v = false) as Hother.
  { intros v Hv. unfold RSPKT_MODE_CHK in *. revert Hmode. case_if; [|done]. intros _. case_if; [|done].
    cbool. congruence. }
  rewrite !Hother, Hmode by done. unfold udp_accept at 1.
  destruct (rsSvrUdp_find_adaptor_ip (u_list u) _) as [j|] eqn:Ef; [|done].
  apply find_adaptor_Some in Ef as Hfind. destruct Hfind as (a & Ha & Hn). rewrite Ha. cbn [deref mbind ub_bind].
  destruct (a_mail a) as [|b l]; [done|]. intros [= <- _]. cbn [sup set_sup deref mbind ub_bind].
  unfold udp_accept. cbn [set_list u_list].
  assert (rsSvrUdp_find_adaptor_ip (alter (set_mail []) j (u_list u)) (src_ip (client_pkt c)) = Some j) as ->.
  { unfold rsSvrUdp_find_adaptor_ip in *. by rewrite find_index_alter. }
  by rewrite list_lookup_alter, decide_True, Ha.
Qed.

(** ** A switch without other switches keeps running *)

(** A switch with a UDP side and no connections. *)
Record local_ok (t : RTUp) : Prop := {
  lo_sup : exists u, sup t = Some u /\ ip_ok (ip_cur (u_op u)) /\
    Forall (fun a => length (a_buf a) = 1500%nat) (u_list u);
  lo_head : t_head (stp t) = [];
  lo_con : t_con (stp t) = [];
  lo_tabel : t_tabel (stp t) = [] }.

(** The datagrams that crash it: a DISCOVERY longer than a datagram, or when the
    next address has four numbers of three digits; and a QUERY_ACCEPT of an
    adaptor without mail. *)
Definition crashes (t : RTUp) (c : RSock) : Prop :=
  (RSPKT_MODE_CHK (client_pkt c) RS_DISCOVERY = true /\
   (is_Some (s_excess c) \/ exists u, sup t = Some u /\ dotted_len (next_ip (ip_cur (u_op u))) = 15%nat)) \/
  (RSPKT_MODE_CHK (client_pkt c) RS_QUERY_ACCEPT = true /\
   exists a, adaptor_at (src_ip (client_pkt c)) t = Some a /\ a_mail a = []).

Lemma dotted_len_bounds ip : (7 <= dotted_len ip <= 15)%nat.
Proof.
  unfold dotted_len. pose proof (dec_len_bounds (fst_ ip)). pose proof (dec_len_bounds (snd_ ip)).
  pose proof (dec_len_bounds (thd ip)). pose proof (dec_len_bounds (frt ip)). lia.
Qed.

Lemma write_at_in off src buf :
  0 <= off -> off + Z.of_nat (length src) <= Z.of_nat (length buf) ->
  exists b, write_at off src buf = Ok b /\ length b = length buf.
Proof.
  intros H1 H2. unfold write_at. case_if; [|cbool; lia]. eexists. split; [done|].
  rewrite !length_app, length_take, length_drop. lia.
Qed.

Lemma mode_set_in p v : (12 <= length p)%nat -> exists b, RSPKT_MODE_SET p v = Ok b /\ length b = length p.
Proof. intros Hp. destruct (set_mode_eq p v Hp) as (q & Hq & Hl & _). eauto. Qed.

Lemma assign_ip_step op inc op' ip ok :
  ip_ok (ip_cur op) -> rIpop_assign_ip op inc = (op', ip, ok) ->
  ip_ok (ip_cur op') /\ ip_ok ip /\ (ip = next_ip (ip_cur op) \/ ip = ip_zero).
Proof.
  intros Hc. destruct (next_ip_spec _ Hc) as [Hn _]. assert (ip_ok ip_zero) as Hz by (unfold ip_ok; cbn; lia).
  unfold rIpop_assign_ip. repeat case_if; intros [= <- <- <-]; cbn [ip_cur]; auto.
Qed.

Lemma op_to_str_short ip : ip_ok ip -> dotted_len ip <> 15%nat -> exists s, rIpop_op_to_str ip = Ok s.
Proof.
  intros Hok Hl. rewrite (op_to_str_eq ip Hok). pose proof (dotted_len_bounds ip).
  rewrite (proj2 (Nat.leb_le _ _)) by lia. eauto.
Qed.

Lemma local_ok_alter f j u t :
  (forall a, length (a_buf a) = 1500%nat -> length (a_buf (f a)) = 1500%nat) ->
  sup t = Some u -> local_ok t -> local_ok (set_sup (set_list (alter f j (u_list u)) u) t).
Proof.
  intros Hf Hu [(u' & Hu' & Hip & Hb) H1 H2 H3]. rewrite Hu' in Hu. injection Hu as ->. split; [|done..].
  eexists. split; [done|]. split; [done|]. cbn [u_list set_list].
  apply Forall_alter; [done|]. intros a Ha Hl. by apply Hf.
Qed.

Section Runs.
Context (inet_addr : string -> Z).

Lemma discovery_runs t u c :
  local_ok t -> client_ok c -> sup t = Some u -> s_excess c = None ->
  dotted_len (next_ip (ip_cur (u_op u))) <> 15%nat ->
  exists t' r effs, udp_discovery inet_addr t u c = Ok (t', r, effs) /\ local_ok t'.
Proof.
  intros [(u' & Hu' & Hip & Hb) L1 L2 L3] [[Hbuf _] _] Hu He Hlen. rewrite Hu' in Hu. injection Hu as ->.
  unfold udp_discovery. destruct (rIpop_assign_ip (u_op u) false) as [[o1 a1] r1] eqn:E1.
  assert (forall ip, ip_ok ip -> ip = next_ip (ip_cur (u_op u)) \/ ip = ip_zero ->
    exists s, rIpop_op_to_str ip = Ok s) as Htext.
  { intros ip Hok [->| ->]; apply op_to_str_short; done. }
  destruct (assign_ip_step _ _ _ _ _ Hip E1) as (_ & A1 & A2).
  destruct (Htext a1 A1 A2) as (s1 & ->). cbn [mbind ub_bind].
  unfold client_pkt, set_pkt, put_header. rewrite He. cbn [default].
  edestruct (write_at_in 0) as (p1 & -> & P1); [lia| |]; [|cbn [mbind ub_bind rUdp_write s_excess]].
  { rewrite Hbuf. unfold mk_greet, mk_pkt, bytes32. cbn. lia. }
  edestruct (write_at_in 4 (bytes32 (rsPkt_ip_op_put inet_addr s1)) p1) as (p2 & -> & P2); [lia| |].
  { rewrite P1, Hbuf. cbn. lia. }
  cbn [mbind ub_bind]. unfold rSrvUdp_adaptor_append. destruct (rIpop_assign_ip (u_op u) true) as [[o2 a2] r2] eqn:E2.
  destruct (assign_ip_step _ _ _ _ _ Hip E2) as (B0 & B1 & B2).
  destruct (Htext a2 B1 B2) as (s2 & ->). cbn [mbind ub_bind].
  eexists _, _, _. split; [done|]. split; [|done..]. eexists. split; [done|]. split; [exact B0|].
  cbn [u_list]. apply Forall_app. split; [done|]. apply Forall_singleton. cbn [a_buf s_buf]. lia.
Qed.

Lemma request_runs t u c :
  local_ok t -> client_ok c -> sup t = Some u ->
  exists t' r effs, udp_request t u c = Ok (t', r, effs) /\ local_ok t'.
Proof.
  intros Hok Hc Hu. pose proof Hok as [(u' & Hu' & Hip & Hb) _ _ _]. rewrite Hu' in Hu. injection Hu as ->.
  unfold udp_request. destruct (rsSvrUdp_find_adaptor_ip _ _) as [j|] eqn:Ef; [|by eexists _, _, _].
  apply find_adaptor_Some in Ef as (a & Ha & _). rewrite Ha. cbn [deref mbind ub_bind].
  pose proof (Forall_lookup_1 _ _ _ _ Hb Ha) as Hl. cbn in Hl.
  destruct (write_at_in 4 (bytes32 (assign_ip (a_buf a))) (a_buf a)) as (b1 & -> & B1); [lia|rewrite Hl; cbn; lia|].
  cbn [mbind ub_bind]. destruct (mode_set_in b1 RS_ACKNOWLEDGE) as (b2 & -> & B2); [lia|]. cbn [mbind ub_bind].
  unfold put_header. destruct (write_at_in 0 (take 16 b2) (client_pkt c)) as (b3 & -> & B3); [lia| |].
  { rewrite length_take. pose proof (client_pkt_length c Hc). lia. }
  cbn [mbind ub_bind]. destruct (rUdp_write _) as [ef al]. eexists _, _, _. split; [done|].
  apply local_ok_alter; [|done..]. intros x _. cbn. lia.
Qed.

Lemma data_runs t u c :
  local_ok t -> client_ok c -> sup t = Some u ->
  exists t' r effs, udp_data inet_addr t u c = Ok (t', r, effs) /\ local_ok t'.
Proof.
  intros Hok Hc Hu. unfold udp_data. pose proof (get32_bounds _ 4 (client_pkt_bytes c Hc)) as Hd.
  change (get32 4 ?p) with (dest_ip p) in Hd.
  destruct (rsSvrUdp_find_adaptor_ip _ _) as [j|] eqn:Ef.
  - apply find_adaptor_Some in Ef as (a & Ha & _). rewrite Ha. cbn [deref mbind ub_bind]. destruct Hc as [[Hb _] He].
    destruct (mail_add_ok (a_mail a) (src_ip (client_pkt c)) (dest_ip (client_pkt c)) (s_buf c) (s_excess c) Hd Hb He)
      as (frs & -> & _). cbn [mbind ub_bind]. eexists _, _, _. split; [done|]. by apply local_ok_alter.
  - unfold rsSvrTcp_route_handle. destruct (rsSvrTcp_for_me _ _ _ _); [by eexists _, _, _|].
    destruct Hok as [H1 H2 H3 H4]. unfold route_choice. rewrite H2, H3, H4. cbn.
    case_if; cbn; by eexists _, _, _.
Qed.

Lemma accept_runs t u c :
  local_ok t -> sup t = Some u -> (forall a, adaptor_at (src_ip (client_pkt c)) t = Some a -> a_mail a <> []) ->
  exists t' r effs, udp_accept t u c = Ok (t', r, effs) /\ local_ok t'.
Proof.
  intros Hok Hu Hm. unfold udp_accept. destruct (rsSvrUdp_find_adaptor_ip _ _) as [j|] eqn:Ef; [|by eexists _, _, _].
  apply find_adaptor_Some in Ef as Hfind. destruct Hfind as (a & Ha & _). rewrite Ha. cbn [deref mbind ub_bind].
  specialize (Hm a (adaptor_at_found t u _ j a Hu Ef Ha)). destruct (a_mail a); [done|].
  eexists _, _, _. split; [done|]. by apply local_ok_alter.
Qed.

(** A switch without other switches handles every datagram and stays sound,
    unless the datagram is one of the three that crash it. *)
Theorem local_switch_runs t c :
  local_ok t -> client_ok c -> ~ crashes t c ->
  exists t' r effs, rsSvrUdp_handle inet_addr t c = Ok (t', r, effs) /\ local_ok t'.
Proof.
  intros Hok Hc Hno. pose proof Hok as [(u & Hu & _) _ _ _]. unfold rsSvrUdp_handle. rewrite Hu. cbn [deref mbind ub_bind].
  destruct (RSPKT_MODE_CHK (client_pkt c) RS_DISCOVERY) eqn:E1.
  - apply discovery_runs; [done..| |].
    + destruct (s_excess c) eqn:E; [|done]. exfalso. apply Hno. left. split; [done|]. left. by rewrite E.
    + intros Hl. apply Hno. left. split; [done|]. right. eauto.
  - destruct (RSPKT_MODE_CHK (client_pkt c) RS_REQUEST); [by apply request_runs|].
    destruct (RSPKT_MODE_CHK (client_pkt c) RS_DATA_PAYLOAD); [by apply data_runs|].
    destruct (RSPKT_MODE_CHK (client_pkt c) RS_QUERY_ACCEPT) eqn:E4; [|by eexists _, _, _].
    apply accept_runs; [done..|]. intros a Ha Hm. apply Hno. right. split; [done|]. eauto.
Qed.
End Runs.

(** ** Concrete cases *)

(** [inet_addr] of four decimal numbers. *)
Definition inet_addr0 (s : string) : Z :=
  match rIpop_str_to_op RIPOP_INIT s with
  | Ok op => let ip := ip_box op in fst_ ip + 256 * (snd_ ip + 256 * (thd ip + 256 * frt ip))
  | UB _ => 2 ^ 32 - 1
  end.

Definition tcp0 : RSrvTcp := MkTcp RIPOP_INIT [] [] 0 0 "" 0 0 [] [].
Definition udp0 : RSrvUdp :=
  MkUdp (MkOp (MkIP 192 168 0 1) (MkIP 192 168 0 1) (MkIP 192 168 0 255) 8) [] 0 "192.168.0.1" "192.168.0.1".
Definition tup0 : RTUp := MkTUp (Some udp0) tcp0 [].

Definition ip_a : Z := inet_addr0 "192.168.0.2".
Definition ip_b : Z := inet_addr0 "192.168.0.3".
Definition datagram (port : Z) (h payload : list Z) : RSock :=
  MkSock 3 (0, port) (take 1500 (h ++ payload ++ bytes0 1500)) None.
Definition accept_b : RSock := datagram 8 (mk_pkt ip_b 0 RS_QUERY_ACCEPT) [].

(** Two adaptors get addresses, the first sends to the second, which accepts. *)
Definition clients0 : list RSock :=
  [datagram 7 (mk_pkt 0 0 RS_DISCOVERY) []; datagram 8 (mk_pkt 0 0 RS_DISCOVERY) [];
   datagram 7 (mk_pkt ip_a ip_b RS_DATA_PAYLOAD) [72; 105]; accept_b].

#[export] Instance is_byte_dec b : Decision (is_byte b).
Proof. unfold is_byte. apply _. Defined.

Lemma datagram_client_ok port h payload :
  length h = 12%nat -> Forall is_byte h -> Forall is_byte payload -> client_ok (datagram port h payload).
Proof.
  intros Hl Hh Hp. split; [|done]. unfold datagram. cbn [s_buf]. split.
  - rewrite length_take, !length_app, bytes0_length. lia.
  - apply Forall_take, Forall_app. split; [done|]. apply Forall_app. split; [done|].
    unfold bytes0. apply Forall_replicate. unfold is_byte. lia.
Qed.

Lemma udp_run_fifo_witness :
  exists t' effs, udp_run inet_addr0 clients0 tup0 = Ok (t', effs) /\
    (mail_ok tup0 /\ Forall client_ok clients0 /\ 0 <= ip_b < 2 ^ 32) /\
    take 2 (sent ip_b effs) = [72; 105] /\
    mail_of ip_b tup0 ++ accepted_run inet_addr0 ip_b clients0 tup0 = sent ip_b effs ++ mail_of ip_b t'.
Proof.
  destruct (udp_run inet_addr0 clients0 tup0) as [[t' effs]|] eqn:E; [|vm_compute in E; discriminate E].
  exists t', effs. split; [reflexivity|].
  assert (mail_ok tup0) as H1 by (intros u [= <-]; constructor).
  assert (Forall client_ok clients0) as H2.
  { unfold clients0, accept_b.
    do 4 (apply Forall_cons_2; [apply datagram_client_ok; [reflexivity|apply (bool_decide_unpack _); vm_compute; exact I..]|]).
    apply Forall_nil_2. }
  assert (0 <= ip_b < 2 ^ 32) as H3 by (vm_compute; split; congruence).
  split; [split; [exact H1|split; [exact H2|exact H3]]|]. split.
  - vm_compute in E. injection E as _ <-. vm_compute. reflexivity.
  - exact (udp_run_fifo inet_addr0 clients0 tup0 t' effs ip_b H1 H2 H3 E).
Defined.

Definition fed_tup : RTUp :=
  match udp_run inet_addr0 (removelast clients0) tup0 with Ok (t, _) => t | UB _ => tup0 end.

Lemma accept_twice_crashes_witness :
  exists t' effs, RSPKT_MODE_CHK (client_pkt accept_b) RS_QUERY_ACCEPT = true /\
    rsSvrUdp_handle inet_addr0 fed_tup accept_b = Ok (t', true, effs) /\
    rsSvrUdp_handle inet_addr0 t' accept_b = UB null_deref.
Proof.
  destruct (rsSvrUdp_handle inet_addr0 fed_tup accept_b) as [[[t' r] effs]|] eqn:E; [|vm_compute in E; discriminate E].
  assert (r = true) as -> by (vm_compute in E; congruence).
  exists t', effs. split; [reflexivity|]. split; [reflexivity|].
  exact (accept_twice_crashes inet_addr0 fed_tup accept_b t' effs eq_refl E).
Defined.

Lemma local_switch_runs_witness :
  (local_ok fed_tup /\ client_ok accept_b /\ ~ crashes fed_tup accept_b) /\
  exists t' r effs, rsSvrUdp_handle inet_addr0 fed_tup accept_b = Ok (t', r, effs) /\ local_ok t'.
Proof.
  assert (local_ok fed_tup) as H1.
  { split; [|vm_compute; reflexivity..]. eexists. split; [vm_compute; reflexivity|]. split.
    - cbn. unfold ip_ok. cbn. lia.
    - apply (bool_decide_unpack _). vm_compute. exact I. }
  assert (client_ok accept_b) as H2.
  { apply datagram_client_ok; [reflexivity|apply (bool_decide_unpack _); vm_compute; exact I..]. }
  assert (~ crashes fed_tup accept_b) as H3.
  { intros [[H _]|[_ (a & Ha & Hm)]]; [vm_compute in H; discriminate H|].
    vm_compute in Ha. injection Ha as <-. cbn in Hm. discriminate Hm. }
  split; [split; [exact H1|split; [exact H2|exact H3]]|].
  exact (local_switch_runs inet_addr0 fed_tup accept_b H1 H2 H3).
Defined.
