(* ===== verification/RSrvT.v ===== *)
(** * The connections between switches ([2.1.LinkLayerSim/RDstPkt.h], [RSrvTcp.h],
    [RSrvTHandle.h], [RTUp.h])

    A switch connects to another one, which gives it an address; the two tell each other
    where they are, and each tells the switches that it knows how far the new one is.  A
    switch is a node of one of two lists: of those that connected to this one, and of those
    that this one connected to.  A handler works on the buffer of the connection that a
    packet came from, and the switches share these buffers, so the buffers are a store. *)

From S2P Require Import Prelude RIPop RMap RStr RSrv.

#[local] Open Scope Z_scope.

(** ** RDstPkt.h *)

Definition RS_LOCATION_SEND := 8.
Definition RS_LOCATION_BROADCAST := 9.

(** [uint16_t] in the order of the machine and of the network, and its value. *)
Definition le16 (z : Z) : list Z := [z mod 256; z / 256 mod 256].
Definition be16 (z : Z) : list Z := [z / 256 mod 256; z mod 256].
Definition get_be16 (off : nat) (p : list Z) : Z := 256 * get8 off p + get8 (off + 1) p.

(** [RDstPktS_t] before and after [rDstS_convert_]. *)
Definition dst_pkt (src dst x y : Z) : list Z := mk_pkt src dst RS_LOCATION_SEND ++ le16 x ++ le16 y.
Definition dst_pkt_sent (src dst x y : Z) : list Z := mk_pkt src dst RS_LOCATION_SEND ++ be16 x ++ be16 y.

(** [rDst_calc_dist]: the squares are exact in a [double], and so is the whole part of
    the root of a number below [2 ^ 33]. *)
Definition rDst_calc_dist (x1 x2 y1 y2 : Z) : Z :=
  let '(x1, x2) := if x2 <? x1 then (x2, x1) else (x1, x2) in
  let '(y1, y2) := if y2 <? y1 then (y2, y1) else (y1, y2) in
  Z.sqrt ((x2 - x1) * (x2 - x1) + (y2 - y1) * (y2 - y1)).

(** [RDstPktB_t], and its bytes before and after [rDstB_convert_]. *)
Record RDstPktB := MkB { br_src : Z; br_dst : Z; br_target : Z; br_dist : Z }.
Definition bcast (b : RDstPktB) : list Z :=
  mk_pkt (br_src b) (br_dst b) RS_LOCATION_BROADCAST ++ bytes32 (br_target b) ++ bytes32 (br_dist b).
Definition bcast_sent (b : RDstPktB) : list Z :=
  mk_pkt (br_src b) (br_dst b) RS_LOCATION_BROADCAST ++ bytes32 (br_target b) ++ bytes32 (ntohl (br_dist b)).

(** ** The store *)

Definition sock (sk : list RSock) (k : nat) : ub RSock := deref (sk !! k).
Definition with_buf (b : list Z) (c : RSock) : RSock := MkSock (s_fd c) (s_addr c) b (s_excess c).

(** [memcpy] of a header into the buffer of a connection. *)
Definition put_buf (k : nat) (h : list Z) (sk : list RSock) : ub (list RSock) :=
  c ← sock sk k; b ← put_header h (s_buf c); Ok (<[k := with_buf b c]> sk).

(** A write to the packet of a connection. *)
Definition put_pkt (k : nat) (p : list Z) (sk : list RSock) : list RSock := alter (set_pkt p) k sk.

(** [rTcp_write] sends the whole buffer, [rTcp_write_short] up to the first NUL of the
    payload. *)
Definition rTcp_write (k : nat) (sk : list RSock) : ub reffect := c ← sock sk k; Ok (WriteFd (s_fd c) (s_buf c)).

Fixpoint strnlen (b : list Z) : nat := match b with [] => 0 | c :: b' => if c =? 0 then 0 else S (strnlen b') end.
Definition rTcp_write_short (k : nat) (sk : list RSock) : ub reffect :=
  c ← sock sk k; Ok (WriteFd (s_fd c) (take (12 + strnlen (drop 12 (s_buf c))) (s_buf c))).

Definition set_stp (s : RSrvTcp) (t : RTUp) : RTUp := MkTUp (sup t) s (socks t).
Definition set_socks (sk : list RSock) (t : RTUp) : RTUp := MkTUp (sup t) (stp t) sk.

Definition set_sbuf (b : list Z) (s : RSwitch) : RSwitch :=
  MkSwitch (sw_conn s) (sw_ip s) (sw_name s) b (sw_mail s) (sw_assign s) (sw_dist s) (conlist s).
Definition set_sname (ip : RIPsingle) (n : string) (s : RSwitch) : RSwitch :=
  MkSwitch (sw_conn s) ip n (sw_buf s) (sw_mail s) (sw_assign s) (sw_dist s) (conlist s).
Definition set_sassign (a : list Z) (s : RSwitch) : RSwitch :=
  MkSwitch (sw_conn s) (sw_ip s) (sw_name s) (sw_buf s) (sw_mail s) a (sw_dist s) (conlist s).
Definition set_sdist (d : Z) (s : RSwitch) : RSwitch :=
  MkSwitch (sw_conn s) (sw_ip s) (sw_name s) (sw_buf s) (sw_mail s) (sw_assign s) d (conlist s).

Definition set_map (m : RMap) (t : RSrvTcp) : RSrvTcp :=
  MkTcp (t_op t) (t_head t) (t_con t) (switch_n t) (switchcon_n t) (t_name t) (t_x t) (t_y t) m (t_tabel t).
Definition set_tabel (l : list (swptr * Z)) (t : RSrvTcp) : RSrvTcp :=
  MkTcp (t_op t) (t_head t) (t_con t) (switch_n t) (switchcon_n t) (t_name t) (t_x t) (t_y t) (t_map t) l.

(** ** RSrvTcp.h *)

(** The bytes of a [sockaddr_in]. *)
Definition sockaddr_bytes (a : sockaddr) : list Z := [2; 0] ++ be16 a.2 ++ bytes32 a.1 ++ bytes0 8.

(** [rsSvrTcp_find_switch_ip] with a connection and without. *)
Definition find_switch_con (l : list RSwitch) (a : sockaddr) : option nat :=
  find_index (fun s => bool_decide (take 16 (sw_buf s) = sockaddr_bytes a)) l.
Definition find_switch_ip (l : list RSwitch) (find_ip : Z) : option nat :=
  find_index (fun s => String.eqb (sw_name s) (rsPkt_ip_op_take find_ip)) l.

(** The last index. *)
Fixpoint find_last {A} (p : A -> bool) (l : list A) : option nat :=
  match l with
  | [] => None
  | x :: l' => match find_last p l' with Some i => Some (S i) | None => if p x then Some 0%nat else None end
  end.

(** The switch that a place comes from: one that connected to this one, or the last of those
    that this one connected to. *)
Definition teller (s : RSrvTcp) (src : Z) : option swptr :=
  match find_switch_ip (t_head s) src with
  | Some j => Some (false, j)
  | None => pair true <$> find_last (fun x => con_addr x =? src) (t_con s)
  end.

(** The switch whose mailbox a QUERY_ACCEPT empties. *)
Definition accepter (s : RSrvTcp) (src dst : Z) : option swptr :=
  match find_switch_ip (t_head s) src with
  | Some j => Some (false, j)
  | None => pair true <$> find_switch_ip (t_con s) dst
  end.

(** [rSrvTcp_switch_append], and the first bytes [b] that the caller copies into the
    buffer of the new switch. *)
Definition rSrvTcp_switch_append (t : RSrvTcp) (client : nat) (con : bool) (b : list Z) : ub RSrvTcp :=
  buf ← put_header b (bytes0 1500);
  if con then
    Ok (MkTcp (t_op t) (t_head t) (t_con t ++ [MkSwitch client ip_zero "" buf [] (bytes0 16) 0 true])
          (switch_n t) (u64 (switchcon_n t + 1)) (t_name t) (t_x t) (t_y t) (t_map t) (t_tabel t))
  else
    let '(op, ip, _) := rIpop_assign_ip (t_op t) true in
    name ← rIpop_op_to_str ip;
    Ok (MkTcp op (t_head t ++ [MkSwitch client ip name buf [] (bytes0 16) 0 false]) (t_con t)
          (u64 (switch_n t + 1)) (switchcon_n t) (t_name t) (t_x t) (t_y t) (t_map t) (t_tabel t)).

Section Tcp.
Context (inet_addr : string -> Z).
(** [stp->tbox->tbox.host], where the pointer is set. *)
Context (host : option string).

#[local] Notation put := (rsPkt_ip_op_put inet_addr).

(** ** RSrvTHandle.h *)

(** [rsSvrTcp_establish], when the packet can be sent. *)
Definition rsSvrTcp_establish (t : RTUp) (k : nat) : ub (RTUp * list reffect) :=
  c ← sock (socks t) k;
  sk ← put_buf k (mk_greet 0 0 RS_DISCOVERY 0) (socks t);
  w ← rTcp_write k sk;
  s ← rSrvTcp_switch_append (stp t) k true (sockaddr_bytes (s_addr c));
  Ok (set_stp s (set_socks sk t), [w]).

(** The mode [RS_DISCOVERY]. *)
Definition tcp_discovery (t : RTUp) (k : nat) : ub (RTUp * bool * list reffect) :=
  c ← sock (socks t) k;
  let '(_, assign, _) := rIpop_assign_ip (t_op (stp t)) false in
  text ← rIpop_op_to_str assign;
  h ← deref host;
  pkt ← put_header (mk_greet (put h) 0 RS_OFFER (put text)) (client_pkt c);
  w ← rTcp_write k (put_pkt k pkt (socks t));
  pkt ← write_at 4 (bytes32 (put text)) pkt;
  s ← rSrvTcp_switch_append (stp t) k false (take 16 pkt);
  Ok (set_stp s (set_socks (put_pkt k pkt (socks t)) t), true, [w]).

(** The mode [RS_OFFER]. *)
Definition tcp_offer (t : RTUp) (k : nat) : ub (RTUp * bool * list reffect) :=
  c ← sock (socks t) k;
  j ← deref (find_switch_con (t_con (stp t)) (s_addr c));
  let name := rsPkt_ip_op_take (assign_ip (s_buf c)) in
  op ← rIpop_str_to_op RIPOP_INIT name;
  sk ← put_buf k (mk_greet 0 (src_ip (s_buf c)) RS_REQUEST (assign_ip (s_buf c))) (socks t);
  w ← rTcp_write k sk;
  Ok (set_stp (update_sw (set_sname (ip_box op) name) (true, j) (stp t)) (set_socks sk t), false, [w]).

(** The answer with the own place, and the copy of it that switch [p] keeps. *)
Definition tell_place (t : RTUp) (k : nat) (p : swptr) (src dst : Z) : ub (RTUp * reffect) :=
  s ← deref (lookup_sw (stp t) p);
  sk ← put_buf k (dst_pkt_sent src dst (t_x (stp t)) (t_y (stp t))) (socks t);
  w ← rTcp_write k sk;
  b ← put_header (dst_pkt src dst (t_x (stp t)) (t_y (stp t))) (sw_buf s);
  Ok (set_stp (update_sw (set_sbuf b) p (stp t)) (set_socks sk t), w).

(** The mode [RS_ACKNOWLEDGE]. *)
Definition tcp_acknowledge (t : RTUp) (k : nat) : ub (RTUp * bool * list reffect) :=
  c ← sock (socks t) k;
  let pkt := client_pkt c in
  j ← deref (find_switch_con (t_con (stp t)) (s_addr c));
  let t1 := set_stp (update_sw (set_sassign (take 16 pkt)) (true, j) (stp t)) t in
  '(t2, w) ← tell_place t1 k (true, j) (dest_ip pkt) (src_ip pkt);
  Ok (t2, true, [w]).

(** The mode [RS_REQUEST]. *)
Definition tcp_request (t : RTUp) (k : nat) : ub (RTUp * bool * list reffect) :=
  c ← sock (socks t) k;
  match find_switch_ip (t_head (stp t)) (assign_ip (client_pkt c)) with
  | None => Ok (t, false, [])
  | Some j =>
      s ← deref (t_head (stp t) !! j);
      b ← write_at 4 (bytes32 (assign_ip (sw_buf s))) (sw_buf s);
      b ← RSPKT_MODE_SET b RS_ACKNOWLEDGE;
      pkt ← put_header (take 16 b) (client_pkt c);
      let sk := put_pkt k pkt (socks t) in
      w ← rTcp_write k sk;
      Ok (set_stp (update_sw (set_sbuf b) (false, j) (stp t)) (set_socks sk t), true, [w])
  end.

(** A broadcast to the switch of connection [k]. *)
Definition send_bcast (k : nat) (b : RDstPktB) (sk : list RSock) : ub (list RSock * reffect) :=
  sk ← put_buf k (bcast_sent b) sk; w ← rTcp_write k sk; Ok (sk, w).

(** The two loops of a new place: over the switches that this one connected to, and those
    that connected to it. *)
Fixpoint place_con (l : list RSwitch) (b : RDstPktB) (sk : list RSock) : ub (list RSock * list reffect) :=
  match l with
  | [] => Ok (sk, [])
  | s :: l' =>
      if con_addr s =? br_target b then place_con l' b sk
      else if mode (sw_assign s) =? RS_ACKNOWLEDGE then
        let b' := MkB (dest_ip (sw_assign s)) (con_addr s) (br_target b) (u32 (br_dist b + sw_dist s)) in
        '(sk, w) ← send_bcast (sw_conn s) b' sk;
        '(sk, e) ← place_con l' b sk; Ok (sk, w :: e)
      else place_con l' b sk
  end.
Fixpoint place_head (l : list RSwitch) (b : RDstPktB) (sk : list RSock) : ub (list RSock * list reffect) :=
  match l with
  | [] => Ok (sk, [])
  | s :: l' =>
      if con_addr s =? br_target b then place_head l' b sk else
      h ← deref host;
      let b' := MkB (put h) (switch_addr inet_addr s) (br_target b) (u32 (br_dist b + sw_dist s)) in
      sk ← put_buf (sw_conn s) (bcast b') sk;
      if br_dst b' =? br_target b' then place_head l' b sk else
      '(sk, w) ← send_bcast (sw_conn s) b' sk;
      '(sk, e) ← place_head l' b sk; Ok (sk, w :: e)
  end.

(** The rest of the mode [RS_LOCATION_SEND]: switch [p] gets its distance, and the others
    are told. *)
Definition spread_place (t : RTUp) (k : nat) (p : swptr) (saved : list Z) : ub (RTUp * list reffect) :=
  let d := rDst_calc_dist (t_x (stp t)) (get_be16 12 saved) (t_y (stp t)) (get_be16 14 saved) in
  let b := MkB (dest_ip saved) (src_ip saved) (src_ip saved) d in
  let s := set_map (rMap_append (t_map (stp t)) (br_src b) (br_target b) d) (update_sw (set_sdist d) p (stp t)) in
  '(b, sk, e2) ← (match sup t with
    | Some u =>
        if String.eqb (t_name s) "" then Ok (b, socks t, []) else
        let b := MkB (br_src b) (br_dst b) (put (u_name u)) d in
        '(sk, w) ← send_bcast k b (socks t); Ok (b, sk, [w])
    | None => Ok (b, socks t, [])
    end);
  '(sk, e3) ← place_con (t_con s) b sk;
  '(sk, e4) ← place_head (t_head s) b sk;
  Ok (set_stp s (set_socks sk t), e2 ++ e3 ++ e4).

(** The mode [RS_LOCATION_SEND].  [prev_pkt] is looked at only when there is a switch. *)
Definition tcp_location (t : RTUp) (k : nat) : ub (RTUp * bool * list reffect) :=
  c ← sock (socks t) k;
  let pkt := client_pkt c in
  let saved := s_buf c in
  let told := teller (stp t) (src_ip pkt) in
  '(t, e1) ← (match find_switch_ip (t_head (stp t)) (src_ip pkt) with
    | None => Ok (t, [])
    | Some j =>
        s ← deref (t_head (stp t) !! j);
        if RSPKT_MODE_CHK (sw_buf s) RS_LOCATION_SEND then Ok (t, [])
        else '(t', w) ← tell_place t k (false, j) (dest_ip pkt) (src_ip pkt); Ok (t', [w])
    end);
  p ← deref told;
  '(t, e2) ← spread_place t k p saved;
  Ok (t, true, e1 ++ e2).

(** The broadcast in the buffer of connection [k], whose distance was converted. *)
Definition bcast_in (b : list Z) : RDstPktB := MkB (src_ip b) (dest_ip b) (get32 12 b) (get32 16 b).

(** The two loops of a broadcast; [his] and [mine] are the addresses of a switch and of
    this one. *)
Fixpoint forward (his mine : RSwitch -> Z) (k : nat) (l : list RSwitch) (sk : list RSock) : ub (list RSock * list reffect) :=
  match l with
  | [] => Ok (sk, [])
  | s :: l' =>
      c ← sock sk k;
      let b := bcast_in (s_buf c) in
      if (his s =? br_target b) || (his s =? br_dst b) || (his s =? br_src b) then forward his mine k l' sk else
      '(sk, w) ← send_bcast (sw_conn s) (MkB (mine s) (his s) (br_target b) (u32 (br_dist b + sw_dist s))) sk;
      '(sk, e) ← forward his mine k l' sk; Ok (sk, w :: e)
  end.

(** The mode [RS_LOCATION_BROADCAST]; the result of [rMap_append] is true. *)
Definition tcp_broadcast (t : RTUp) (k : nat) : ub (RTUp * bool * list reffect) :=
  c ← sock (socks t) k;
  buf ← write_at 16 (bytes32 (ntohl (get32 16 (s_buf c)))) (s_buf c);
  let b := bcast_in buf in
  let s := set_map (rMap_append (t_map (stp t)) (br_src b) (br_target b) (br_dist b)) (stp t) in
  '(sk, e1) ← forward (switch_addr inet_addr) (fun _ => put (t_name s)) k (t_head s) (<[k := with_buf buf c]> (socks t));
  '(sk, e2) ← forward con_addr (switch_addr inet_addr) k (t_con s) sk;
  Ok (set_stp s (set_socks sk t), false, e1 ++ e2).

(** The loop over the mailbox. *)
Fixpoint deliver_mail (k conn : nat) (mail : RStr_lst) (sk : list RSock) : ub (list RSock * list reffect) :=
  match mail with
  | [] => Ok (sk, [])
  | m :: mail' =>
      b ← read_n sizeof_RData m;
      c ← sock sk conn;
      let sk := <[conn := with_buf b c]> sk in
      w ← rTcp_write_short k sk;
      '(sk, e) ← deliver_mail k conn mail' sk; Ok (sk, w :: e)
  end.

(** The mode [RS_QUERY_ACCEPT]: the loop reads the head of the mailbox before it tests it. *)
Definition tcp_accept (t : RTUp) (k : nat) : ub (RTUp * bool * list reffect) :=
  c ← sock (socks t) k;
  let pkt := client_pkt c in
  match accepter (stp t) (src_ip pkt) (dest_ip pkt) with
  | None => Ok (t, false, [])
  | Some p =>
      s ← deref (lookup_sw (stp t) p);
      match sw_mail s with
      | [] => UB null_deref
      | mail =>
          '(sk, e) ← deliver_mail k (sw_conn s) mail (socks t);
          Ok (set_stp (update_sw (set_smail []) p (stp t)) (set_socks sk t), true, e)
      end
  end.

(** The mode [RS_QUERY_PACKET]. *)
Definition tcp_query (t : RTUp) (k : nat) : ub (RTUp * bool * list reffect) :=
  c ← sock (socks t) k;
  let pkt := client_pkt c in
  sk ← put_buf k (mk_pkt (dest_ip pkt) (src_ip pkt) RS_QUERY_ACCEPT) (socks t);
  w ← rTcp_write k sk;
  Ok (set_socks sk t, false, [w]).

(** The switch of the connection whose descriptor is [fd]: the last one. *)
Definition has_fd (sk : list RSock) (fd : Z) (s : RSwitch) : bool :=
  match sk !! sw_conn s with Some c => s_fd c =? fd | None => false end.
Definition switch_of_fd (t : RTUp) (fd : Z) : option swptr :=
  match find_last (has_fd (socks t) fd) (t_head (stp t)) with
  | Some j => Some (false, j)
  | None => pair true <$> find_last (has_fd (socks t) fd) (t_con (stp t))
  end.

(** The mode [RS_DATA_PAYLOAD]. *)
Definition tcp_data (t : RTUp) (k : nat) : ub (RTUp * bool * list reffect) :=
  c ← sock (socks t) k;
  let pkt := client_pkt c in
  match u ← sup t; i ← rsSvrUdp_find_adaptor_ip (u_list u) (dest_ip pkt); Some (u, i) with
  | None =>
      let t := set_stp (set_tabel (rTabel_append (t_tabel (stp t)) (switch_of_fd t (s_fd c)) (src_ip pkt)) (stp t)) t in
      '(t, e) ← rsSvrTcp_route_handle inet_addr t (match s_excess c with None => Some k | Some _ => None end) pkt (s_excess c);
      Ok (t, false, e)
  | Some (u, j) =>
      a ← deref (u_list u !! j);
      m ← mail_add (a_mail a) (src_ip pkt) (dest_ip pkt) (s_buf c) (s_excess c);
      Ok (set_sup (set_list (alter (set_mail m) j (u_list u)) u) t, false,
          [SendTo (a_addr a) (mk_pkt (put (u_name u)) (dest_ip pkt) RS_QUERY_PACKET ++ bytes0 1488)])
  end.

(** [rsSvrTcp_handle]. *)
Definition rsSvrTcp_handle (t : RTUp) (k : nat) : ub (RTUp * bool * list reffect) :=
  c ← sock (socks t) k;
  let pkt := client_pkt c in
  if RSPKT_MODE_CHK pkt RS_DISCOVERY then tcp_discovery t k
  else if RSPKT_MODE_CHK pkt RS_OFFER then tcp_offer t k
  else if RSPKT_MODE_CHK pkt RS_ACKNOWLEDGE then tcp_acknowledge t k
  else if RSPKT_MODE_CHK pkt RS_LOCATION_SEND then tcp_location t k
  else if RSPKT_MODE_CHK pkt RS_LOCATION_BROADCAST then tcp_broadcast t k
  else if RSPKT_MODE_CHK pkt RS_REQUEST then tcp_request t k
  else if RSPKT_MODE_CHK pkt RS_QUERY_ACCEPT then tcp_accept t k
  else if RSPKT_MODE_CHK pkt RS_QUERY_PACKET then tcp_query t k
  else if RSPKT_MODE_CHK pkt RS_DATA_PAYLOAD then tcp_data t k
  else Ok (t, false, []).

(** ** RTUp.h

    What the poll loop does with what comes in: a connection that was accepted, the line
    of a user who wants to connect and can, bytes of a connection, and a datagram. *)

Inductive poll_event :=
  | Accepted (fd : Z) (a : sockaddr)
  | Connect (fd port : Z)
  | Received (k : nat) (data : list Z)
  | Datagram (c : RSock) (read_sz : Z).

(** [rTcp_read] *)
Definition rTcp_read (data : list Z) : list Z := take 1500 (data ++ bytes0 1500).

Definition LOCALHOST_ADDRV := 16777343.

Definition rTup_handle_poll_read (t : RTUp) (e : poll_event) : ub (RTUp * list reffect) :=
  match e with
  | Accepted fd a => Ok (set_socks (socks t ++ [MkSock fd a (bytes0 1500) None]) t, [])
  | Connect fd port =>
      rsSvrTcp_establish (set_socks (socks t ++ [MkSock fd (LOCALHOST_ADDRV, port) (bytes0 1500) None]) t) (length (socks t))
  | Received k data =>
      match data with
      | [] => Ok (t, [])
      | _ =>
          c ← sock (socks t) k;
          '(t, _, e) ← rsSvrTcp_handle (set_socks (<[k := with_buf (rTcp_read data) c]> (socks t)) t) k; Ok (t, e)
      end
  | Datagram c n =>
      if sizeof_RSPkt <=? n then '(t, _, e) ← rsSvrUdp_handle inet_addr t c; Ok (t, e) else Ok (t, [])
  end.

(** *** The start *)

(** [rTUP_args_t]. *)
Record rTUP_args := Args {
  global_on : bool; global_ : string; global_subnet : Z; local_on : bool; local : string; local_subnet : Z; pos_x : Z; pos_y : Z }.

(** The loop over an argument: its part before the first slash, and the number after the
    last one, or [subnet]. *)
Fixpoint subnet_loop (s : string) (cut : bool) (subnet : Z) : string * Z :=
  match s with
  | EmptyString => ("", subnet)
  | String c s' =>
      if Ascii.eqb c "/"%char then ("", snd (subnet_loop s' true (atoi s')))
      else let '(p, n) := subnet_loop s' cut subnet in ((if cut then "" else String c p)%string, n)
  end.

(** [rTUp_arg_check]: [None] when the program ends. *)
Definition rTUp_arg_check (argv : list string) : option rTUP_args :=
  match argv with
  | [kind; a2; a3; a4] =>
      let '(name, subnet) := subnet_loop a2 false (-1) in
      if String.eqb kind "local" then
        if subnet =? -1 then None else Some (Args false "" 0 true name subnet (atoi a3) (atoi a4))
      else if String.eqb kind "global" then
        if subnet =? -1 then None else Some (Args true name subnet false "" 0 (atoi a3) (atoi a4))
      else None
  | [kind; a2; a3; a4; a5] =>
      if String.eqb kind "local" then
        let '(name, subnet) := subnet_loop a2 false (-1) in
        if subnet =? -1 then None else
        let '(name', subnet') := subnet_loop a3 false (-1) in
        if subnet' =? -1 then None else Some (Args true name' subnet' true name subnet (atoi a4) (atoi a5))
      else None
  | _ => None
  end.

Definition tcp_zero : RSrvTcp := MkTcp RIPOP_INIT [] [] 0 0 "" 0 0 [] [].

(** [rSvrTcp_init]; [t] is from before. *)
Definition rSvrTcp_init (t : RSrvTcp) (name : string) (subnet : Z) : ub (RSrvTcp * bool) :=
  if (subnet <? 0) || (IP_MAX_SPACE <? subnet) then Ok (t, false) else
  if negb (fst (rIpop_str_validate_good (Some name) (Some 0))) then Ok (tcp_zero, false) else
  op ← rIpop_str_to_op RIPOP_INIT name;
  Ok (MkTcp (rIpop_justify op (u8 subnet)) [] [] 0 0 name 0 0 [] [], true).

(** [rTup_std_setup], with the three sockets of the poll loop and the host of the TCP side;
    the results of the two functions above are not looked at. *)
Definition rTup_std_setup (a : rTUP_args) : ub (RTUp * option string) :=
  u ← (if local_on a then
    '(u, _) ← rSvrUdp_init (udp_zero "") (Some (local a)) (local_subnet a);
    host ← rIpop_op_to_str (ip_box (u_op u));
    Ok (Some (MkUdp (u_op u) (u_list u) (adaptor_n u) (u_name u) host))
  else Ok None);
  '(t, host) ← (if global_on a then
    '(t, _) ← rSvrTcp_init tcp_zero (global_ a) (global_subnet a);
    host ← rIpop_op_to_str (ip_box (t_op t));
    Ok (t, Some host)
  else Ok (tcp_zero, None));
  Ok (MkTUp u (MkTcp (t_op t) (t_head t) (t_con t) (switch_n t) (switchcon_n t) (t_name t) (u16 (pos_x a)) (u16 (pos_y a)) (t_map t) (t_tabel t))
        (replicate 3 (MkSock 0 (0, 0) (bytes0 1500) None)), host).

Fixpoint poll_run (es : list poll_event) (t : RTUp) : ub (RTUp * list reffect) :=
  match es with
  | [] => Ok (t, [])
  | e :: es' => '(t, o1) ← rTup_handle_poll_read t e; '(t, o2) ← poll_run es' t; Ok (t, o1 ++ o2)
  end.

End Tcp.

(** ** Proofs: the store *)

Definition sock_ok (c : RSock) : Prop := length (s_buf c) = 1500%nat /\ s_excess c = None.

(** A store of [n] connections. *)
Definition store (n : nat) (sk : list RSock) : Prop := Forall sock_ok sk /\ length sk = n.

Lemma sock_in n sk k : store n sk -> (k < n)%nat -> exists c, sk !! k = Some c /\ sock_ok c.
Proof.
  intros [Hs Hn] Hk. destruct (lookup_lt_is_Some_2 sk k) as [c Hc]; [lia|]. exists c. split; [done|].
  by eapply Forall_lookup_1 in Hs.
Qed.

Lemma store_insert n sk k c : store n sk -> sock_ok c -> store n (<[k := c]> sk).
Proof. intros [Hs Hn] Hc. split; [by apply Forall_insert|by rewrite length_insert]. Qed.

Lemma put_header_in h b : (length h <= length b)%nat -> exists b', put_header h b = Ok b' /\ length b' = length b.
Proof. intros Hl. apply write_at_in; lia. Qed.

Lemma put_buf_in n k h sk : store n sk -> (k < n)%nat -> (length h <= 1500)%nat -> exists sk', put_buf k h sk = Ok sk' /\ store n sk'.
Proof.
  intros Hs Hk Hh. destruct (sock_in n sk k Hs Hk) as (c & Hc & Hb & He). unfold put_buf, sock. rewrite Hc. cbn [deref mbind ub_bind].
  destruct (put_header_in h (s_buf c)) as (b & -> & Hl); [lia|]. cbn [mbind ub_bind]. eexists. split; [done|].
  apply store_insert; [done|]. split; [cbn; congruence|done].
Qed.

Lemma write_in n k sk : store n sk -> (k < n)%nat -> exists w, rTcp_write k sk = Ok w.
Proof. intros Hs Hk. destruct (sock_in n sk k Hs Hk) as (c & Hc & _). unfold rTcp_write, sock. rewrite Hc. by eexists. Qed.

Lemma put_pkt_in n k p sk : store n sk -> length p = 1500%nat -> store n (put_pkt k p sk).
Proof.
  intros [Hs Hn] Hp. unfold put_pkt. split; [|by rewrite length_alter]. apply Forall_alter; [done|].
  intros c _ [Hb He]. unfold set_pkt. rewrite He. by split.
Qed.

Lemma send_bcast_in n k b sk : store n sk -> (k < n)%nat -> exists sk' w, send_bcast k b sk = Ok (sk', w) /\ store n sk'.
Proof.
  intros Hs Hk. unfold send_bcast. destruct (put_buf_in n k (bcast_sent b) sk Hs Hk) as (sk' & -> & Hs'); [cbn; lia|].
  cbn [mbind ub_bind]. destruct (write_in n k sk' Hs' Hk) as [w ->]. by exists sk', w.
Qed.

(** What a switch of the lists has. *)
Definition sw_ok (n : nat) (s : RSwitch) : Prop :=
  (sw_conn s < n)%nat /\ length (sw_buf s) = 1500%nat /\ Forall (fun m => length m = 1500%nat) (sw_mail s).

(** A loop that keeps the store. *)
Definition loop_in (n : nat) (r : ub (list RSock * list reffect)) : Prop := exists sk e, r = Ok (sk, e) /\ store n sk.

Lemma loop_send n k b sk (rest : list RSock -> ub (list RSock * list reffect)) : store n sk -> (k < n)%nat ->
  (forall sk', store n sk' -> loop_in n (rest sk')) ->
  loop_in n ('(sk, w) ← send_bcast k b sk; '(sk, e) ← rest sk; Ok (sk, w :: e)).
Proof.
  intros Hs Hk Hr. destruct (send_bcast_in n k b sk Hs Hk) as (sk' & w & -> & Hs'). cbn [mbind ub_bind].
  destruct (Hr sk' Hs') as (sk'' & e & -> & Hs''). by exists sk'', (w :: e).
Qed.

Lemma place_con_in n l b : Forall (sw_ok n) l -> forall sk, store n sk -> loop_in n (place_con l b sk).
Proof.
  induction 1 as [|s l [Hc _] _ IH]; intros sk Hs; cbn [place_con]; [by exists sk, []|].
  case_match; [by apply IH|]. case_match; [|by apply IH]. by apply loop_send.
Qed.

Lemma place_head_in inet_addr h n l b : Forall (sw_ok n) l -> forall sk, store n sk -> loop_in n (place_head inet_addr (Some h) l b sk).
Proof.
  induction 1 as [|s l [Hc _] _ IH]; intros sk Hs; cbn [place_head deref mbind ub_bind]; [by exists sk, []|].
  case_match; [by apply IH|].
  match goal with |- context [put_buf ?k ?p ?sk] => destruct (put_buf_in n k p sk Hs Hc) as (sk' & -> & Hs'); [cbn; lia|] end. cbn [mbind ub_bind].
  case_match; [by apply IH|]. by apply loop_send.
Qed.

Lemma forward_in his mine k n l : (k < n)%nat -> Forall (sw_ok n) l -> forall sk, store n sk -> loop_in n (forward his mine k l sk).
Proof.
  intros Hk. induction 1 as [|s l [Hc _] _ IH]; intros sk Hs; cbn [forward]; [by exists sk, []|].
  destruct (sock_in n sk k Hs Hk) as (c & Hck & _). unfold sock. rewrite Hck. cbn [deref mbind ub_bind].
  case_match; [by apply IH|]. by apply loop_send.
Qed.

Lemma deliver_mail_in n k conn mail : (k < n)%nat -> (conn < n)%nat -> Forall (fun m => length m = 1500%nat) mail ->
  forall sk, store n sk -> loop_in n (deliver_mail k conn mail sk).
Proof.
  intros Hk Hc. induction 1 as [|m mail Hm _ IH]; intros sk Hs; cbn [deliver_mail]; [by exists sk, []|].
  rewrite read_n_ok by (unfold sizeof_RData; lia). cbn [mbind ub_bind].
  destruct (sock_in n sk conn Hs Hc) as (c & Hcc & Hb & He). unfold sock. rewrite Hcc. cbn [deref mbind ub_bind].
  set (sk1 := <[conn := _]> sk). assert (Hs1 : store n sk1).
  { apply store_insert; [done|]. split; [|done]. cbn. rewrite length_take. unfold sizeof_RData. lia. }
  unfold rTcp_write_short. destruct (sock_in n sk1 k Hs1 Hk) as (c1 & Hc1 & _). unfold sock. rewrite Hc1. cbn [deref mbind ub_bind].
  destruct (IH sk1 Hs1) as (sk2 & e & -> & Hs2). by eexists _, _.
Qed.

(** ** Proofs: a switch keeps running *)

Definition srv_ok (n : nat) (s : RSrvTcp) : Prop :=
  (forall con, Forall (sw_ok n) (switch_list s con)) /\ Forall (fun e => is_Some (lookup_sw s e.1)) (t_tabel s) /\ ip_ok (ip_cur (t_op s)).
Definition switch_ok (t : RTUp) : Prop := store (length (socks t)) (socks t) /\ srv_ok (length (socks t)) (stp t).

(** A handler that ends in a sound state, with as many connections. *)
Definition runs (n : nat) (r : ub (RTUp * bool * list reffect)) : Prop :=
  exists t b e, r = Ok (t, b, e) /\ length (socks t) = n /\ switch_ok t.

Lemma runs_ok n t b e : store n (socks t) -> srv_ok n (stp t) -> runs n (Ok (t, b, e)).
Proof. intros [Hs Hn] Ht. exists t, b, e. split; [done|]. split; [done|]. split; [by split|by rewrite Hn]. Qed.

Lemma lookup_sw_update f p q s : is_Some (lookup_sw (update_sw f p s) q) <-> is_Some (lookup_sw s q).
Proof.
  destruct p as [[|] i], q as [[|] j]; cbn; try done; rewrite list_lookup_alter; case_decide; subst; by rewrite ?fmap_is_Some.
Qed.

Lemma srv_ok_update n f p s : (forall x, sw_ok n x -> sw_ok n (f x)) -> srv_ok n s -> srv_ok n (update_sw f p s).
Proof.
  intros Hf (Hl & Ht & Ho). split; [|split; [|done]].
  - intros con. specialize (Hl con). unfold switch_list, update_sw in *. cbn [t_head t_con].
    destruct con, (p.1); try done; apply Forall_alter; auto.
  - eapply Forall_impl; [exact Ht|]. intros e He. by apply lookup_sw_update.
Qed.

Lemma srv_ok_map n m s : srv_ok n s -> srv_ok n (set_map m s).
Proof. done. Qed.

Lemma srv_ok_at n s p x : srv_ok n s -> lookup_sw s p = Some x -> sw_ok n x.
Proof. intros (Hl & _) Hx. by eapply Forall_lookup_1 in Hx. Qed.

Lemma srv_ok_append n s k con b : srv_ok n s -> (k < n)%nat -> (length b <= 1500)%nat ->
  (con = false -> dotted_len (next_ip (ip_cur (t_op s))) <> 15%nat) ->
  exists s', rSrvTcp_switch_append s k con b = Ok s' /\ srv_ok n s'.
Proof.
  intros (Hl & Ht & Ho) Hk Hb Hd. unfold rSrvTcp_switch_append.
  destruct (put_header_in b (bytes0 1500)) as (buf & -> & Hbuf); [rewrite bytes0_length; lia|]. cbn [mbind ub_bind].
  assert (Happ : forall l x s', switch_list s' con = switch_list s con ++ [x] -> switch_list s' (negb con) = switch_list s (negb con) -> l = t_tabel s ->
    sw_ok n x -> (forall c, Forall (sw_ok n) (switch_list s' c)) /\ Forall (fun e => is_Some (lookup_sw s' e.1)) l).
  { intros l x s0 H1 H2 -> Hx. split.
    - intros c. destruct (decide (c = con)) as [->|Hne]; [rewrite H1; apply Forall_app; split; [done|by constructor]|].
      replace c with (negb con) by (by destruct c, con). by rewrite H2.
    - eapply Forall_impl; [exact Ht|]. intros [[c i] d]. unfold lookup_sw. cbn. intros [y Hy].
      destruct (decide (c = con)) as [->|Hne]; [rewrite H1; exists y; by apply lookup_app_l_Some|].
      replace c with (negb con) in * by (by destruct c, con). rewrite H2. by exists y. }
  destruct con.
  - eexists. split; [done|]. destruct (Happ (t_tabel s) (MkSwitch k ip_zero "" buf [] (bytes0 16) 0 true)
      (MkTcp (t_op s) (t_head s) (t_con s ++ [MkSwitch k ip_zero "" buf [] (bytes0 16) 0 true]) (switch_n s) (u64 (switchcon_n s + 1)) (t_name s) (t_x s) (t_y s) (t_map s) (t_tabel s)))
      as [H1 H2]; [done|done|done|split; [done|split; [exact Hbuf|done]]|]. by split.
  - destruct (rIpop_assign_ip (t_op s) true) as [[op ip] ok] eqn:Hi. destruct (assign_ip_step _ _ _ _ _ Ho Hi) as (Ho' & Hip & Hor).
    destruct (op_to_str_short ip) as [name ->]; [done|destruct Hor as [->| ->]; [by apply Hd|done]|]. cbn [mbind ub_bind].
    eexists. split; [done|]. destruct (Happ (t_tabel s) (MkSwitch k ip name buf [] (bytes0 16) 0 false)
      (MkTcp op (t_head s ++ [MkSwitch k ip name buf [] (bytes0 16) 0 false]) (t_con s) (u64 (switch_n s + 1)) (switchcon_n s) (t_name s) (t_x s) (t_y s) (t_map s) (t_tabel s)))
      as [H1 H2]; [done|done|done|split; [done|split; [exact Hbuf|done]]|]. by split.
Qed.

Section TcpRuns.
Context (inet_addr : string -> Z) (h : string).

Lemma sw_ok_buf n b x : length b = 1500%nat -> sw_ok n x -> sw_ok n (set_sbuf b x).
Proof. intros Hb (H1 & _ & H3). by split_and!. Qed.

Lemma client_pkt_of c : sock_ok c -> client_pkt c = s_buf c.
Proof. intros [_ He]. unfold client_pkt. by rewrite He. Qed.

Lemma tell_place_in n t k p src dst : store n (socks t) -> srv_ok n (stp t) -> (k < n)%nat -> is_Some (lookup_sw (stp t) p) ->
  exists t' w, tell_place t k p src dst = Ok (t', w) /\ store n (socks t') /\ srv_ok n (stp t') /\ sup t' = sup t /\
    forall q, is_Some (lookup_sw (stp t') q) <-> is_Some (lookup_sw (stp t) q).
Proof.
  intros Hs Ht Hk [x Hx]. unfold tell_place. rewrite Hx. cbn [deref mbind ub_bind].
  destruct (put_buf_in n k (dst_pkt_sent src dst (t_x (stp t)) (t_y (stp t))) (socks t) Hs Hk) as (sk & -> & Hs'); [cbn; lia|]. cbn [mbind ub_bind].
  destruct (write_in n k sk Hs' Hk) as [w ->]. cbn [mbind ub_bind]. destruct (srv_ok_at n _ _ _ Ht Hx) as (_ & Hb & _).
  destruct (put_header_in (dst_pkt src dst (t_x (stp t)) (t_y (stp t))) (sw_buf x)) as (b & -> & Hb'); [rewrite Hb; cbn; lia|]. cbn [mbind ub_bind].
  eexists _, _. split; [done|]. split; [done|]. split; [|split; [done|intros q; apply lookup_sw_update]].
  apply srv_ok_update; [|done]. intros y. apply sw_ok_buf. lia.
Qed.

Lemma discovery_in n t k : store n (socks t) -> srv_ok n (stp t) -> (k < n)%nat ->
  dotted_len (next_ip (ip_cur (t_op (stp t)))) <> 15%nat -> runs n (tcp_discovery inet_addr (Some h) t k).
Proof.
  intros Hs Ht Hk Hd. unfold tcp_discovery. destruct (sock_in n _ k Hs Hk) as (c & Hc & Hcok). unfold sock. rewrite Hc. cbn [deref mbind ub_bind].
  rewrite (client_pkt_of c Hcok). destruct (rIpop_assign_ip (t_op (stp t)) false) as [[op ip] ok] eqn:Hi.
  destruct (assign_ip_step _ _ _ _ _ (proj2 (proj2 Ht)) Hi) as (_ & Hip & Hor).
  destruct (op_to_str_short ip) as [text ->]; [done|by destruct Hor as [->| ->]|]. cbn [mbind ub_bind].
  destruct Hcok as [Hb He]. edestruct (put_header_in (mk_greet (rsPkt_ip_op_put inet_addr h) 0 RS_OFFER (rsPkt_ip_op_put inet_addr text)) (s_buf c)) as (p & -> & Hp); [rewrite Hb; cbn; lia|].
  cbn [mbind ub_bind]. rewrite Hb in Hp. pose proof (put_pkt_in n k p _ Hs Hp) as Hs1. destruct (write_in n k _ Hs1 Hk) as [w ->]. cbn [mbind ub_bind].
  destruct (write_at_in 4 (bytes32 (rsPkt_ip_op_put inet_addr text)) p) as (p' & -> & Hp'); [lia|rewrite Hp; cbn; lia|]. cbn [mbind ub_bind].
  destruct (srv_ok_append n (stp t) k false (take 16 p') Ht Hk) as (s' & -> & Hs'); [rewrite length_take; lia|done|]. cbn [mbind ub_bind].
  apply runs_ok; [|done]. apply put_pkt_in; [done|]. lia.
Qed.

Lemma offer_in n t k c : store n (socks t) -> srv_ok n (stp t) -> (k < n)%nat -> socks t !! k = Some c ->
  is_Some (find_switch_con (t_con (stp t)) (s_addr c)) -> runs n (tcp_offer t k).
Proof.
  intros Hs Ht Hk Hc [j Hj]. unfold tcp_offer, sock. rewrite Hc. cbn [deref mbind ub_bind]. rewrite Hj. cbn [deref mbind ub_bind].
  unfold rsPkt_ip_op_take. rewrite str_to_op_dotted by apply ip_of_u32_ok. cbn [mbind ub_bind].
  match goal with |- context [put_buf ?k ?p ?sk] => destruct (put_buf_in n k p sk Hs Hk) as (sk' & -> & Hs'); [cbn; lia|] end. cbn [mbind ub_bind].
  destruct (write_in n k sk' Hs' Hk) as [w ->]. cbn [mbind ub_bind]. apply runs_ok; [done|]. by apply srv_ok_update.
Qed.

Lemma find_con_valid l a j : find_switch_con l a = Some j -> is_Some (l !! j).
Proof. unfold find_switch_con. intros H. apply find_index_Some in H as (x & Hx & _). by exists x. Qed.

Lemma acknowledge_in n t k c : store n (socks t) -> srv_ok n (stp t) -> (k < n)%nat -> socks t !! k = Some c ->
  is_Some (find_switch_con (t_con (stp t)) (s_addr c)) -> runs n (tcp_acknowledge t k).
Proof.
  intros Hs Ht Hk Hc [j Hj]. unfold tcp_acknowledge, sock. rewrite Hc. cbn [deref mbind ub_bind]. rewrite Hj. cbn [deref mbind ub_bind].
  match goal with |- context [tell_place ?t1 k ?p ?s ?d] => destruct (tell_place_in n t1 k p s d Hs) as (t' & w & -> & Hs' & Ht' & _) end.
  - by apply srv_ok_update.
  - done.
  - apply lookup_sw_update. by apply (find_con_valid _ (s_addr c)).
  - cbn [mbind ub_bind]. by apply runs_ok.
Qed.

Lemma request_in n t k : store n (socks t) -> srv_ok n (stp t) -> (k < n)%nat -> runs n (tcp_request t k).
Proof.
  intros Hs Ht Hk. unfold tcp_request. destruct (sock_in n _ k Hs Hk) as (c & Hc & Hcok). unfold sock. rewrite Hc. cbn [deref mbind ub_bind].
  rewrite (client_pkt_of c Hcok). destruct (find_switch_ip _ _) as [j|] eqn:Hj; [|by apply runs_ok].
  apply find_index_Some in Hj as (x & Hx & _). rewrite Hx. cbn [deref mbind ub_bind].
  destruct (srv_ok_at n (stp t) (false, j) x Ht Hx) as (_ & Hb & _).
  destruct (write_at_in 4 (bytes32 (assign_ip (sw_buf x))) (sw_buf x)) as (b1 & -> & B1); [lia|rewrite Hb; cbn; lia|]. cbn [mbind ub_bind].
  destruct (mode_set_in b1 RS_ACKNOWLEDGE) as (b2 & -> & B2); [lia|]. cbn [mbind ub_bind].
  destruct (put_header_in (take 16 b2) (s_buf c)) as (p & -> & Hp); [rewrite length_take; destruct Hcok; lia|]. cbn [mbind ub_bind].
  assert (Hp' : length p = 1500%nat) by (destruct Hcok; lia). pose proof (put_pkt_in n k p _ Hs Hp') as Hs'.
  destruct (write_in n k _ Hs' Hk) as [w ->]. cbn [mbind ub_bind]. apply runs_ok; [done|]. apply srv_ok_update; [|done].
  intros y. apply sw_ok_buf. lia.
Qed.

Lemma find_last_spec {A} (p : A -> bool) l :
  match find_last p l with Some i => exists x, l !! i = Some x /\ p x = true | None => forall x, x ∈ l -> p x = false end.
Proof.
  induction l as [|x l IH]; cbn [find_last]; [by intros x ?%elem_of_nil|]. destruct (find_last p l) as [i|]; [done|].
  destruct (p x) eqn:Hx; [by exists x|]. intros y [->|Hy]%elem_of_cons; auto.
Qed.

Lemma teller_valid s src p : teller s src = Some p -> is_Some (lookup_sw s p).
Proof.
  unfold teller. destruct (find_switch_ip _ _) as [j|] eqn:Hj.
  - intros [= <-]. apply find_index_Some in Hj as (x & Hx & _). by exists x.
  - pose proof (find_last_spec (fun x => con_addr x =? src) (t_con s)) as Hl. destruct (find_last _ _); [|done]. intros [= <-].
    destruct Hl as (x & Hx & _). by exists x.
Qed.

(** The place and the map after a place was told. *)
Definition placed (s : RSrvTcp) (p : swptr) (saved : list Z) : RSrvTcp :=
  let d := rDst_calc_dist (t_x s) (get_be16 12 saved) (t_y s) (get_be16 14 saved) in
  set_map (rMap_append (t_map s) (dest_ip saved) (src_ip saved) d) (update_sw (set_sdist d) p s).

Lemma spread_place_in n t k p saved : store n (socks t) -> srv_ok n (stp t) -> (k < n)%nat ->
  exists sk e, spread_place inet_addr (Some h) t k p saved = Ok (set_stp (placed (stp t) p saved) (set_socks sk t), e) /\
    store n sk /\ srv_ok n (placed (stp t) p saved).
Proof.
  intros Hs1 Ht1 Hk. unfold spread_place, placed. set (b := MkB _ _ _ _). set (s := set_map _ _).
  assert (Hsok : srv_ok n s) by (apply srv_ok_map, srv_ok_update; done).
  match goal with |- exists _ _, ?m ≫= _ = _ /\ _ => assert (Hm : exists b sk e2, m = Ok (b, sk, e2) /\ store n sk) end.
  { destruct (sup t) as [u|]; [|by exists b, (socks t), []]. destruct (String.eqb (t_name s) ""); [by exists b, (socks t), []|].
    match goal with |- context [send_bcast ?k ?b ?sk] => destruct (send_bcast_in n k b sk Hs1 Hk) as (sk' & w & -> & Hs') end. by eexists _, _, _. }
  destruct Hm as (b' & sk & e2 & -> & Hs2). cbn [mbind ub_bind].
  destruct (place_con_in n (t_con s) b' (proj1 Hsok true) sk Hs2) as (sk3 & e3 & -> & Hs3). cbn [mbind ub_bind].
  destruct (place_head_in inet_addr h n (t_head s) b' (proj1 Hsok false) sk3 Hs3) as (sk4 & e4 & -> & Hs4). cbn [mbind ub_bind].
  by exists sk4, (e2 ++ e3 ++ e4).
Qed.

Lemma location_in n t k c : store n (socks t) -> srv_ok n (stp t) -> (k < n)%nat -> socks t !! k = Some c ->
  is_Some (teller (stp t) (src_ip (s_buf c))) -> runs n (tcp_location inet_addr (Some h) t k).
Proof.
  intros Hs Ht Hk Hc [p Hp]. unfold tcp_location. unfold sock at 1. rewrite Hc. cbn [deref mbind ub_bind].
  destruct (sock_in n _ k Hs Hk) as (c' & Hc' & Hcok). rewrite Hc in Hc'. injection Hc' as <-. rewrite (client_pkt_of c Hcok).
  match goal with |- runs n (?m ≫= _) => assert (Hm : exists t1 e1, m = Ok (t1, e1) /\ store n (socks t1) /\ srv_ok n (stp t1)) end.
  { destruct (find_switch_ip (t_head (stp t)) (src_ip (s_buf c))) as [j|] eqn:Hj; [|by exists t, []].
    apply find_index_Some in Hj as (x & Hx & _). rewrite Hx. cbn [deref mbind ub_bind]. case_match; [by exists t, []|].
    destruct (tell_place_in n t k (false, j) (dest_ip (s_buf c)) (src_ip (s_buf c)) Hs Ht Hk) as (t1 & w & -> & Hs1 & Ht1 & _); [by exists x|].
    by exists t1, [w]. }
  destruct Hm as (t1 & e1 & -> & Hs1 & Ht1). cbn [mbind ub_bind]. rewrite Hp. cbn [deref mbind ub_bind].
  destruct (spread_place_in n t1 k p (s_buf c) Hs1 Ht1 Hk) as (sk & e & -> & Hs2 & Ht2). cbn [mbind ub_bind]. by apply runs_ok.
Qed.

Lemma broadcast_in n t k : store n (socks t) -> srv_ok n (stp t) -> (k < n)%nat -> runs n (tcp_broadcast inet_addr t k).
Proof.
  intros Hs Ht Hk. unfold tcp_broadcast. destruct (sock_in n _ k Hs Hk) as (c & Hc & Hcok). unfold sock. rewrite Hc. cbn [deref mbind ub_bind].
  destruct (write_at_in 16 (bytes32 (ntohl (get32 16 (s_buf c)))) (s_buf c)) as (buf & -> & Hb); [lia|destruct Hcok as [-> _]; cbn; lia|]. cbn [mbind ub_bind].
  assert (Hs1 : store n (<[k := with_buf buf c]> (socks t))) by (apply store_insert; [done|]; destruct Hcok; by split; [cbn; congruence|]).
  match goal with |- runs n (?m ≫= _) => destruct (forward_in _ _ k n _ Hk (proj1 Ht false) _ Hs1 : loop_in n m) as (sk1 & e1 & -> & Hs2) end.
  cbn [mbind ub_bind].
  match goal with |- runs n (?m ≫= _) => destruct (forward_in _ _ k n _ Hk (proj1 Ht true) _ Hs2 : loop_in n m) as (sk3 & e3 & -> & Hs3) end.
  cbn [mbind ub_bind]. apply runs_ok; [done|]. by apply srv_ok_map.
Qed.

Lemma accepter_valid s src dst p : accepter s src dst = Some p -> is_Some (lookup_sw s p).
Proof.
  unfold accepter. destruct (find_switch_ip (t_head s) src) as [j|] eqn:Hj.
  - intros [= <-]. apply find_index_Some in Hj as (x & Hx & _). by exists x.
  - destruct (find_switch_ip (t_con s) dst) as [j|] eqn:Hj'; [|done]. intros [= <-].
    apply find_index_Some in Hj' as (x & Hx & _). by exists x.
Qed.

Lemma accept_in n t k c : store n (socks t) -> srv_ok n (stp t) -> (k < n)%nat -> socks t !! k = Some c ->
  (forall p x, accepter (stp t) (src_ip (s_buf c)) (dest_ip (s_buf c)) = Some p -> lookup_sw (stp t) p = Some x -> sw_mail x <> []) ->
  runs n (tcp_accept t k).
Proof.
  intros Hs Ht Hk Hc Hm. unfold tcp_accept, sock. rewrite Hc. cbn [deref mbind ub_bind].
  destruct (sock_in n _ k Hs Hk) as (c' & Hc' & Hcok). rewrite Hc in Hc'. injection Hc' as <-. rewrite (client_pkt_of c Hcok).
  destruct (accepter _ _ _) as [p|] eqn:Hp; [|by apply runs_ok].
  destruct (accepter_valid _ _ _ _ Hp) as [x Hx]. rewrite Hx. cbn [deref mbind ub_bind]. specialize (Hm p x eq_refl Hx).
  destruct (srv_ok_at n _ _ _ Ht Hx) as (Hcn & _ & Hml). destruct (sw_mail x) as [|m ml] eqn:Hmx; [done|].
  destruct (deliver_mail_in n k (sw_conn x) (m :: ml) Hk Hcn Hml (socks t) Hs) as (sk & e & -> & Hs'). cbn [mbind ub_bind].
  apply runs_ok; [done|]. apply srv_ok_update; [|done]. intros y (H1 & H2 & H3). by split_and!.
Qed.

Lemma query_in n t k : store n (socks t) -> srv_ok n (stp t) -> (k < n)%nat -> runs n (tcp_query t k).
Proof.
  intros Hs Ht Hk. unfold tcp_query. destruct (sock_in n _ k Hs Hk) as (c & Hc & Hcok). unfold sock. rewrite Hc. cbn [deref mbind ub_bind].
  match goal with |- context [put_buf ?k ?p ?sk] => destruct (put_buf_in n k p sk Hs Hk) as (sk' & -> & Hs'); [cbn; lia|] end. cbn [mbind ub_bind].
  destruct (write_in n k sk' Hs' Hk) as [w ->]. cbn [mbind ub_bind]. by apply runs_ok.
Qed.

Lemma bytes32_mod z : bytes32 (z mod 2 ^ 32) = bytes32 z.
Proof.
  unfold bytes32. change (2 ^ 32) with 4294967296. pose proof (Z.div_mod z 4294967296 ltac:(lia)) as Hz.
  set (q := z / 4294967296) in *. set (r := z mod 4294967296) in *. rewrite Hz.
  replace (4294967296 * q + r) with (q * 16777216 * 256 + r) by lia. rewrite Z.div_add_l by lia.
  replace (q * 16777216 * 256 + r) with (q * 65536 * 65536 + r) by lia. rewrite Z.div_add_l by lia.
  replace (q * 65536 * 65536 + r) with (q * 256 * 16777216 + r) by lia. rewrite Z.div_add_l by lia.
  replace (q * 256 * 16777216 + r) with (r + q * 16777216 * 256) by lia. rewrite Z.mod_add by lia.
  replace (q * 16777216 + r / 256) with (r / 256 + q * 65536 * 256) by lia. rewrite Z.mod_add by lia.
  replace (q * 65536 + r / 65536) with (r / 65536 + q * 256 * 256) by lia. rewrite Z.mod_add by lia.
  replace (q * 256 + r / 16777216) with (r / 16777216 + q * 256) by lia. by rewrite Z.mod_add by lia.
Qed.

(** A packet for a mailbox. *)
Lemma mail_add_in mail src dst buf : length buf = 1500%nat -> Forall (fun m => length m = 1500%nat) mail ->
  exists m, mail_add mail src dst buf None = Ok m /\ Forall (fun m => length m = 1500%nat) m.
Proof.
  intros Hb Hm. assert (mail_add mail src dst buf None = mail_add mail src (dst mod 2 ^ 32) buf None) as ->
    by (unfold mail_add, mk_pkt; by rewrite bytes32_mod).
  destruct (mail_add_ok mail src (dst mod 2 ^ 32) buf None) as (frs & -> & _ & _ & Hf); [apply Z.mod_pos_bound; lia|done|done|].
  eexists. split; [done|]. apply Forall_app. split; [done|]. eapply Forall_impl; [exact Hf|]. by intros m (Hl & _).
Qed.

(** The loops for the longest prefix end on a switch of their list or where they began. *)
Lemma prefix_loop_in addr con dest (P : swptr -> Prop) l st : (forall i x, (i, x) ∈ l -> P (con, i)) ->
  (forall p, st.1 = Some p -> P p) -> forall p, (foldl (prefix_step addr con dest) st l).1 = Some p -> P p.
Proof.
  intros Hl Hst. apply (foldl_inv (fun st => forall p, st.1 = Some p -> P p)); [done|].
  intros b [i x] Hx Hb p. unfold prefix_step. cbn [fst snd]. case_match; [|apply Hb]. intros [= <-]. by apply (Hl i x).
Qed.

Lemma elem_of_imap_pair {A} (l : list A) i x : (i, x) ∈ imap pair l -> is_Some (l !! i).
Proof.
  intros (j & Hj)%list_elem_of_lookup. rewrite list_lookup_imap in Hj. destruct (l !! j) eqn:Hl; [|done].
  injection Hj as <- <-. by rewrite Hl.
Qed.

Lemma route_choice_valid s dest p : Forall (fun e => is_Some (lookup_sw s e.1)) (t_tabel s) ->
  route_choice inet_addr s dest = Some p -> is_Some (lookup_sw s p).
Proof.
  intros Ht. unfold route_choice. destruct (rTabel_find (t_tabel s) dest) as [q|] eqn:Hq.
  { intros [= <-]. clear -Ht Hq. induction Ht as [|[c d] l Hc _ IH]; cbn in Hq; [done|]. case_match; [by injection Hq as ->|auto]. }
  match goal with |- match ?m with _ => _ end = _ -> _ => destruct m as [q|] eqn:Hm end.
  { intros [= <-]. case_match; [done|]. destruct (find_index _ (t_head s)) as [i|] eqn:Hi.
    - injection Hm as <-. apply find_index_Some in Hi as (x & Hx & _). by exists x.
    - destruct (find_index _ (t_con s)) as [i|] eqn:Hi'; [|done]. injection Hm as <-. apply find_index_Some in Hi' as (x & Hx & _). by exists x. }
  apply (prefix_loop_in _ _ _ (fun p => is_Some (lookup_sw s p))).
  - intros i x Hx. by apply elem_of_imap_pair in Hx.
  - apply (prefix_loop_in _ _ _ (fun p => is_Some (lookup_sw s p))).
    + intros i x Hx. by apply elem_of_imap_pair in Hx.
    + cbn [fst]. intros q. destruct (t_con s) as [|x l] eqn:Hc; [done|]. intros [= <-]. exists x. cbn. by rewrite Hc.
Qed.

Lemma route_in n t from pkt : store n (socks t) -> srv_ok n (stp t) -> length pkt = 1500%nat ->
  exists t' e, rsSvrTcp_route_handle inet_addr t from pkt None = Ok (t', e) /\ store n (socks t') /\ srv_ok n (stp t').
Proof.
  intros Hs Ht Hp. unfold rsSvrTcp_route_handle. destruct (rsSvrTcp_for_me _ _ _ _); [by eexists _, _|].
  destruct (route_choice _ _ _) as [p|] eqn:Hr; [|by eexists _, _].
  destruct (route_choice_valid _ _ _ (proj1 (proj2 Ht)) Hr) as [x Hx]. rewrite Hx. cbn [deref mbind ub_bind].
  destruct (srv_ok_at n _ _ _ Ht Hx) as (Hcn & _ & Hml). destruct (sock_in n _ _ Hs Hcn) as (c & Hc & Hb & He). rewrite Hc. cbn [deref mbind ub_bind].
  match goal with |- context [put_header ?h (s_buf c)] => destruct (put_header_in h (s_buf c)) as (b & -> & Hbl) end.
  { rewrite Hb. destruct (conlist x); cbn; lia. }
  cbn [mbind ub_bind].
  match goal with |- context [mail_add ?m ?s ?d ?b None] => destruct (mail_add_in m s d b) as (m' & -> & Hm'); [case_decide; lia|done|] end.
  cbn [mbind ub_bind]. eexists _, _. split; [done|]. split; [|].
  - apply store_insert; [done|]. split; [cbn; lia|done].
  - apply srv_ok_update; [|done]. intros y (H1 & H2 & _). by split_and!.
Qed.

Lemma switch_of_fd_valid t fd p : switch_of_fd t fd = Some p -> is_Some (lookup_sw (stp t) p).
Proof.
  unfold switch_of_fd. pose proof (find_last_spec (has_fd (socks t) fd) (t_head (stp t))) as H1. destruct (find_last _ (t_head (stp t))).
  - intros [= <-]. destruct H1 as (x & Hx & _). by exists x.
  - pose proof (find_last_spec (has_fd (socks t) fd) (t_con (stp t))) as H2. destruct (find_last _ (t_con (stp t))); [|done]. intros [= <-].
    destruct H2 as (x & Hx & _). by exists x.
Qed.

Lemma data_in n t k : store n (socks t) -> srv_ok n (stp t) -> (k < n)%nat -> runs n (tcp_data inet_addr t k).
Proof.
  intros Hs Ht Hk. unfold tcp_data. destruct (sock_in n _ k Hs Hk) as (c & Hc & Hcok). unfold sock. rewrite Hc. cbn [deref mbind ub_bind].
  rewrite (client_pkt_of c Hcok). destruct Hcok as [Hb He]. rewrite He.
  destruct (u ← sup t; i ← rsSvrUdp_find_adaptor_ip (u_list u) (dest_ip (s_buf c)); Some (u, i)) as [[u j]|] eqn:Hu.
  - destruct (sup t) as [u'|]; [|done]. cbn [mbind option_bind] in Hu. destruct (rsSvrUdp_find_adaptor_ip _ _) as [i|] eqn:Hi; [|done].
    injection Hu as -> ->. apply find_adaptor_Some in Hi as (a & Ha & _). rewrite Ha. cbn [deref mbind ub_bind].
    assert (exists m, mail_add (a_mail a) (src_ip (s_buf c)) (dest_ip (s_buf c)) (s_buf c) None = Ok m) as [m ->].
    { assert (mail_add (a_mail a) (src_ip (s_buf c)) (dest_ip (s_buf c)) (s_buf c) None =
        mail_add (a_mail a) (src_ip (s_buf c)) (dest_ip (s_buf c) mod 2 ^ 32) (s_buf c) None) as -> by (unfold mail_add, mk_pkt; by rewrite bytes32_mod).
      destruct (mail_add_ok (a_mail a) (src_ip (s_buf c)) (dest_ip (s_buf c) mod 2 ^ 32) (s_buf c) None) as (frs & -> & _);
        [apply Z.mod_pos_bound; lia|done|done|]. by eexists. }
    cbn [mbind ub_bind]. by apply runs_ok.
  - clear Hu. set (s := set_tabel _ _). destruct (route_in n (set_stp s t) (Some k) (s_buf c)) as (t' & e & Heq & Hs' & Ht').
    { done. }
    { destruct Ht as (H1 & H2 & H3). split; [done|]. split; [|done]. subst s. cbn [t_tabel set_tabel]. unfold rTabel_append.
      destruct (switch_of_fd t (s_fd c)) as [q|] eqn:Hq; [|done]. case_match; [done|]. apply Forall_app. split; [done|].
      constructor; [|done]. by apply (switch_of_fd_valid t (s_fd c)). }
    { done. }
    rewrite Heq. cbn [mbind ub_bind]. by apply runs_ok.
Qed.

(** The packets that crash a switch: a DISCOVERY when the next address has four numbers of
    three digits, an OFFER or an ACKNOWLEDGE where no connection waits for one, a place from
    nobody, and a QUERY_ACCEPT for an empty mailbox. *)
Definition tcp_crashes (t : RTUp) (c : RSock) : Prop :=
  let b := s_buf c in
  (mode b = RS_DISCOVERY /\ dotted_len (next_ip (ip_cur (t_op (stp t)))) = 15%nat) \/
  ((mode b = RS_OFFER \/ mode b = RS_ACKNOWLEDGE) /\ find_switch_con (t_con (stp t)) (s_addr c) = None) \/
  (mode b = RS_LOCATION_SEND /\ teller (stp t) (src_ip b) = None) \/
  (mode b = RS_QUERY_ACCEPT /\ exists p x, accepter (stp t) (src_ip b) (dest_ip b) = Some p /\ lookup_sw (stp t) p = Some x /\ sw_mail x = []).

Lemma tcp_runs t k c : switch_ok t -> socks t !! k = Some c -> ~ tcp_crashes t c ->
  exists t' r e, rsSvrTcp_handle inet_addr (Some h) t k = Ok (t', r, e) /\ length (socks t') = length (socks t) /\ switch_ok t'.
Proof.
  intros [Hs Ht] Hc Hno. pose proof (lookup_lt_Some _ _ _ Hc) as Hk. fold (runs (length (socks t)) (rsSvrTcp_handle inet_addr (Some h) t k)).
  unfold rsSvrTcp_handle, sock. rewrite Hc. cbn [deref mbind ub_bind].
  destruct (sock_in _ _ k Hs Hk) as (c' & Hc' & Hcok). rewrite Hc in Hc'. injection Hc' as <-. rewrite (client_pkt_of c Hcok). unfold RSPKT_MODE_CHK.
  destruct (Z.eqb_spec (mode (s_buf c)) RS_DISCOVERY) as [Hm|_].
  { apply discovery_in; [done..|]. intros Hd. apply Hno. by left. }
  destruct (Z.eqb_spec (mode (s_buf c)) RS_OFFER) as [Hm|_].
  { apply (offer_in _ _ _ c); [done..|]. destruct (find_switch_con _ _) eqn:Hf; [done|]. exfalso. apply Hno. right; left. auto. }
  destruct (Z.eqb_spec (mode (s_buf c)) RS_ACKNOWLEDGE) as [Hm|_].
  { apply (acknowledge_in _ _ _ c); [done..|]. destruct (find_switch_con _ _) eqn:Hf; [done|]. exfalso. apply Hno. right; left. auto. }
  destruct (Z.eqb_spec (mode (s_buf c)) RS_LOCATION_SEND) as [Hm|_].
  { apply (location_in _ _ _ c); [done..|]. destruct (teller _ _) eqn:Hf; [done|]. exfalso. apply Hno. do 2 right; left. auto. }
  destruct (mode (s_buf c) =? RS_LOCATION_BROADCAST); [by apply broadcast_in|].
  destruct (mode (s_buf c) =? RS_REQUEST); [by apply request_in|].
  destruct (Z.eqb_spec (mode (s_buf c)) RS_QUERY_ACCEPT) as [Hm|_].
  { apply (accept_in _ _ _ c); [done..|]. intros p x Hp Hx Hmail. apply Hno. do 3 right. split; [done|]. by exists p, x. }
  destruct (mode (s_buf c) =? RS_QUERY_PACKET); [by apply query_in|].
  destruct (mode (s_buf c) =? RS_DATA_PAYLOAD); [by apply data_in|]. by apply runs_ok.
Qed.

Lemma tcp_crashes_spec t k c : switch_ok t -> socks t !! k = Some c -> tcp_crashes t c ->
  exists f, rsSvrTcp_handle inet_addr (Some h) t k = UB f.
Proof.
  intros [Hs Ht] Hc Hno. pose proof (lookup_lt_Some _ _ _ Hc) as Hk.
  destruct (sock_in _ _ k Hs Hk) as (c' & Hc' & Hcok). rewrite Hc in Hc'. injection Hc' as <-.
  unfold rsSvrTcp_handle, tcp_discovery, tcp_offer, tcp_acknowledge, tcp_location, tcp_accept, sock. rewrite Hc. cbn [deref mbind ub_bind].
  rewrite (client_pkt_of c Hcok). unfold RSPKT_MODE_CHK.
  destruct Hno as [[-> Hd]|[[[-> | ->] Hf]|[[-> Hf]|[-> (p & x & Hp & Hx & Hm)]]]].
  - change (RS_DISCOVERY =? RS_DISCOVERY) with true. cbv iota. unfold rIpop_assign_ip. cbn [fst snd].
    rewrite op_to_str_eq by (by apply next_ip_spec, Ht). rewrite Hd. by eexists.
  - cbv [Z.eqb Pos.eqb RS_DISCOVERY RS_OFFER]. rewrite Hf. by eexists.
  - cbv [Z.eqb Pos.eqb RS_DISCOVERY RS_OFFER RS_ACKNOWLEDGE]. rewrite Hf. by eexists.
  - cbv [Z.eqb Pos.eqb RS_DISCOVERY RS_OFFER RS_ACKNOWLEDGE RS_LOCATION_SEND]. rewrite Hf.
    assert (find_switch_ip (t_head (stp t)) (src_ip (s_buf c)) = None) as -> by (unfold teller in Hf; by destruct (find_switch_ip _ _)).
    by eexists.
  - cbv [Z.eqb Pos.eqb RS_DISCOVERY RS_OFFER RS_ACKNOWLEDGE RS_LOCATION_SEND RS_LOCATION_BROADCAST RS_REQUEST RS_QUERY_ACCEPT].
    rewrite Hp, Hx. cbn [deref mbind ub_bind]. rewrite Hm. by eexists.
Qed.

(** C24: A switch that has a TCP side handles every packet of a connection and stays sound (its
    buffers have their length, its switches have a connection, its table points to switches),
    unless the packet is one of those that crash it, and these do. *)
Theorem tcp_handle_runs t k c : switch_ok t -> socks t !! k = Some c ->
  (~ tcp_crashes t c -> exists t' r e, rsSvrTcp_handle inet_addr (Some h) t k = Ok (t', r, e) /\ length (socks t') = length (socks t) /\ switch_ok t') /\
  (tcp_crashes t c -> exists f, rsSvrTcp_handle inet_addr (Some h) t k = UB f).
Proof. intros Ht Hc. split; [by apply tcp_runs|by apply tcp_crashes_spec]. Qed.

End TcpRuns.

(** ** Proofs: the greeting of two switches *)

Lemma mode_chk p v : RSPKT_MODE_CHK p v = (mode p =? v).
Proof. unfold RSPKT_MODE_CHK. by destruct (mode p =? v). Qed.

Lemma put_header_eq h b : (length h <= length b)%nat -> put_header h b = Ok (h ++ drop (length h) b).
Proof.
  intros Hl. unfold put_header, write_at. rewrite (proj2 (Z.leb_le _ _)) by lia. rewrite (proj2 (Z.leb_le _ _)) by lia.
  cbn [andb]. done.
Qed.

Lemma bytes32_get z r pre : 0 <= z < 2 ^ 32 -> get32 (length pre) (pre ++ bytes32 z ++ r) = z.
Proof.
  intros Hz. unfold get32, get8. rewrite !(lookup_app_r pre) by lia.
  replace (length pre - length pre)%nat with 0%nat by lia. replace (length pre + 1 - length pre)%nat with 1%nat by lia.
  replace (length pre + 2 - length pre)%nat with 2%nat by lia. replace (length pre + 3 - length pre)%nat with 3%nat by lia.
  cbn. by apply u32_bytes.
Qed.

Lemma mk_pkt_src src dst m rest : 0 <= src < 2 ^ 32 -> src_ip (mk_pkt src dst m ++ rest) = src.
Proof. intros Hs. exact (bytes32_get src (bytes32 dst ++ [0; 0; 0; m] ++ rest) [] Hs). Qed.

Lemma mk_greet_assign src dst m a rest : 0 <= a < 2 ^ 32 -> assign_ip (mk_greet src dst m a ++ rest) = a.
Proof. intros Ha. unfold mk_greet. rewrite <- app_assoc. exact (bytes32_get a rest (mk_pkt src dst m) Ha). Qed.

Lemma mk_greet_head src dst m a rest : mk_greet src dst m a ++ rest = mk_pkt src dst m ++ bytes32 a ++ rest.
Proof. unfold mk_greet. by rewrite <- app_assoc. Qed.

Lemma be16_get x y r pre : 0 <= x < 65536 -> length pre = 12%nat -> get_be16 12 (pre ++ be16 x ++ be16 y ++ r) = x.
Proof.
  intros Hx Hp. unfold get_be16, get8. rewrite !(lookup_app_r pre) by lia. rewrite Hp. cbn.
  rewrite (Z.mod_small (x / 256)) by (split; [apply Z.div_pos; lia|apply Z.div_lt_upper_bound; lia]).
  pose proof (Z.div_mod x 256 ltac:(lia)). lia.
Qed.

Lemma be16_get_snd x y r pre : 0 <= y < 65536 -> length pre = 12%nat -> get_be16 14 (pre ++ be16 x ++ be16 y ++ r) = y.
Proof.
  intros Hy Hp. unfold get_be16, get8. rewrite !(lookup_app_r pre) by lia. rewrite Hp. cbn.
  rewrite (Z.mod_small (y / 256)) by (split; [apply Z.div_pos; lia|apply Z.div_lt_upper_bound; lia]).
  pose proof (Z.div_mod y 256 ltac:(lia)). lia.
Qed.

(** The distance is the same from both sides. *)
Lemma calc_dist_sym x1 x2 y1 y2 : rDst_calc_dist x2 x1 y2 y1 = rDst_calc_dist x1 x2 y1 y2.
Proof.
  unfold rDst_calc_dist. destruct (Z.ltb_spec x2 x1), (Z.ltb_spec x1 x2), (Z.ltb_spec y2 y1), (Z.ltb_spec y1 y2); try lia; f_equal; nia.
Qed.

Lemma find_index_last {A} (p : A -> bool) l x : find_index p l = None -> p x = true -> find_index p (l ++ [x]) = Some (length l).
Proof.
  intros Hl Hx. induction l as [|y l IH]; cbn in *; [by rewrite Hx|]. destruct (p y); [done|].
  destruct (find_index p l) eqn:E; [done|]. by rewrite IH.
Qed.

Lemma find_last_snoc {A} (p : A -> bool) l x : p x = true -> find_last p (l ++ [x]) = Some (length l).
Proof. intros Hx. induction l as [|y l IH]; cbn; [by rewrite Hx|]. by rewrite IH. Qed.

Lemma alter_snoc {A} (f : A -> A) l x : alter f (length l) (l ++ [x]) = l ++ [f x].
Proof. rewrite <- (Nat.add_0_r (length l)). by rewrite alter_app_r. Qed.

Section Greeting.
Context (inet_addr : string -> Z).
(** What [inet_addr] reads is what [inet_ntoa] wrote. *)
Context (Hinet : forall z, 0 <= z < 2 ^ 32 -> rsPkt_ip_op_put inet_addr (rsPkt_ip_op_take z) = z).
#[local] Notation put := (rsPkt_ip_op_put inet_addr).

Lemma put_range s : 0 <= put s < 2 ^ 32.
Proof. apply uN_bounds. lia. Qed.

(** A packet with header [p] in the buffer of connection [k]. *)
Definition holding (t : RTUp) (k : nat) (c : RSock) (b : list Z) : RTUp := set_socks (<[k := with_buf b c]> (socks t)) t.

Lemma received t k c b host : socks t !! k = Some c -> length b = 1500%nat ->
  rTup_handle_poll_read inet_addr host t (Received k b) =
  ('(t', _, e) ← rsSvrTcp_handle inet_addr host (holding t k c b) k; Ok (t', e)).
Proof.
  intros Hc Hb. cbn [rTup_handle_poll_read]. destruct b as [|x b]; [done|]. unfold sock. rewrite Hc. cbn [deref mbind ub_bind].
  unfold rTcp_read. by rewrite take_app_le, take_ge by (rewrite Hb; lia).
Qed.

Lemma holding_at t k c b : (k < length (socks t))%nat -> socks (holding t k c b) !! k = Some (with_buf b c).
Proof. intros Hk. cbn. by rewrite list_lookup_insert_eq. Qed.

(** The handler of what is held, for the modes of the greeting. *)
Lemma handle_holding t k c b host : (k < length (socks t))%nat -> s_excess c = None ->
  rsSvrTcp_handle inet_addr host (holding t k c b) k =
  (let t' := holding t k c b in
   if mode b =? RS_DISCOVERY then tcp_discovery inet_addr host t' k
   else if mode b =? RS_OFFER then tcp_offer t' k
   else if mode b =? RS_ACKNOWLEDGE then tcp_acknowledge t' k
   else if mode b =? RS_LOCATION_SEND then tcp_location inet_addr host t' k
   else if mode b =? RS_LOCATION_BROADCAST then tcp_broadcast inet_addr t' k
   else if mode b =? RS_REQUEST then tcp_request t' k
   else if mode b =? RS_QUERY_ACCEPT then tcp_accept t' k
   else if mode b =? RS_QUERY_PACKET then tcp_query t' k
   else if mode b =? RS_DATA_PAYLOAD then tcp_data inet_addr t' k else Ok (t', false, [])).
Proof.
  intros Hk He. unfold rsSvrTcp_handle, sock. rewrite holding_at by done. cbn [deref mbind ub_bind].
  unfold client_pkt. cbn [with_buf s_excess]. rewrite He, !mode_chk. done.
Qed.

(** The first bytes of a buffer are replaced. *)
Lemma put_at k c h' b sk : sk !! k = Some (with_buf b c) -> length b = 1500%nat -> (length h' <= 1500)%nat ->
  put_buf k h' sk = Ok (<[k := with_buf (h' ++ drop (length h') b) c]> sk) /\
  rTcp_write k (<[k := with_buf (h' ++ drop (length h') b) c]> sk) = Ok (WriteFd (s_fd c) (h' ++ drop (length h') b)).
Proof.
  intros Hc Hb Hl. unfold put_buf, rTcp_write, sock. rewrite Hc. cbn [deref mbind ub_bind with_buf s_buf].
  rewrite put_header_eq by lia. cbn [mbind ub_bind]. split; [done|].
  rewrite list_lookup_insert_eq by (by apply lookup_lt_Some in Hc). done.
Qed.

Lemma header_length (h' b : list Z) : length b = 1500%nat -> (length h' <= 1500)%nat -> length (h' ++ drop (length h') b) = 1500%nat.
Proof. intros Hb Hl. rewrite length_app, length_drop. lia. Qed.

(** A connection [k] of a switch: its descriptor and its address are those of [c]. *)
Definition conn (t : RTUp) (k : nat) (c : RSock) : Prop := exists b, length b = 1500%nat /\ s_excess c = None /\ socks t !! k = Some (with_buf b c).

Lemma conn_holding t k c b : conn t k c -> length b = 1500%nat -> conn (holding t k c b) k c.
Proof.
  intros (b0 & Hb0 & He & Hc) Hb. exists b. split; [done|]. split; [done|]. apply holding_at. by apply lookup_lt_Some in Hc.
Qed.

Lemma received_conn t k c b host : conn t k c -> length b = 1500%nat ->
  rTup_handle_poll_read inet_addr host t (Received k b) = ('(t', _, e) ← rsSvrTcp_handle inet_addr host (holding t k c b) k; Ok (t', e)).
Proof. intros (b0 & Hb0 & He & Hc) Hb. by rewrite (received _ _ _ _ _ Hc Hb). Qed.

Lemma put_pkt_at k p c b sk : sk !! k = Some (with_buf b c) -> s_excess c = None -> put_pkt k p sk = <[k := with_buf p c]> sk.
Proof.
  intros Hc He. unfold put_pkt. apply list_eq. intros j. rewrite list_lookup_alter. case_decide as Hj.
  - subst j. rewrite Hc, list_lookup_insert_eq by (by apply lookup_lt_Some in Hc). unfold set_pkt, with_buf. cbn. by rewrite He.
  - by rewrite list_lookup_insert_ne.
Qed.

Lemma write_dest src dst dst' m rest : write_at 4 (bytes32 dst') (mk_pkt src dst m ++ rest) = Ok (mk_pkt src dst' m ++ rest).
Proof. unfold write_at. cbn [mk_pkt bytes32 app length andb]. rewrite (proj2 (Z.leb_le _ _)) by lia. rewrite (proj2 (Z.leb_le _ _)) by lia. done. Qed.

Lemma take_greet src dst m a r : take 16 (mk_greet src dst m a ++ r) = mk_greet src dst m a.
Proof. done. Qed.

(** The offer: the new switch has the address [asg] and keeps the packet. *)
Lemma greet_discovery t k c r host op asg : conn t k c -> length (mk_greet 0 0 RS_DISCOVERY 0 ++ r) = 1500%nat ->
  0 <= asg < 2 ^ 32 -> rIpop_assign_ip (t_op (stp t)) true = (op, ip_of_u32 asg, true) -> dotted_len (ip_of_u32 asg) <> 15%nat ->
  exists t' r1 r2, rTup_handle_poll_read inet_addr (Some host) t (Received k (mk_greet 0 0 RS_DISCOVERY 0 ++ r)) =
      Ok (t', [WriteFd (s_fd c) (mk_greet (put host) 0 RS_OFFER asg ++ r1)]) /\
    length (mk_greet (put host) 0 RS_OFFER asg ++ r1) = 1500%nat /\ conn t' k c /\ sup t' = sup t /\
    length (mk_greet (put host) asg RS_OFFER asg ++ r2) = 1500%nat /\ length (socks t') = length (socks t) /\
    stp t' = MkTcp op (t_head (stp t) ++ [MkSwitch k (ip_of_u32 asg) (rsPkt_ip_op_take asg) (mk_greet (put host) asg RS_OFFER asg ++ r2) [] (bytes0 16) 0 false])
      (t_con (stp t)) (u64 (switch_n (stp t) + 1)) (switchcon_n (stp t)) (t_name (stp t)) (t_x (stp t)) (t_y (stp t)) (t_map (stp t)) (t_tabel (stp t)).
Proof.
  intros Hc Hb Hasg Hop Hlen. rewrite (received_conn t k c) by done. set (b := mk_greet 0 0 RS_DISCOVERY 0 ++ r) in *.
  pose proof (conn_holding t k c b Hc Hb) as Hh. destruct Hc as (b0 & Hb0 & He & Hc). pose proof (lookup_lt_Some _ _ _ Hc) as Hk.
  rewrite handle_holding by done. change (mode b) with 1. cbv [Z.eqb Pos.eqb RS_DISCOVERY]. cbv zeta.
  unfold tcp_discovery, sock. rewrite holding_at by done. cbn [deref mbind ub_bind].
  unfold client_pkt. cbn [with_buf s_excess s_buf]. rewrite He. cbn [default].
  cbn [holding set_socks stp]. unfold rIpop_assign_ip in Hop |- *. cbn [fst snd].
  destruct (ip_below _ _) eqn:Hbelow; [|done]. injection Hop as Hop Hip. rewrite Hip in *.
  pose proof (dotted_len_bounds (ip_of_u32 asg)).
  rewrite op_to_str_eq by apply ip_of_u32_ok. rewrite (proj2 (Nat.leb_le _ _)) by lia. cbn [mbind ub_bind].
  change (dotted _ _ _ _) with (rsPkt_ip_op_take asg). rewrite Hinet by done.
  rewrite put_header_eq by (rewrite Hb; cbn; lia). cbn [mbind ub_bind].
  set (h1 := mk_greet (put host) 0 RS_OFFER asg). pose proof (header_length h1 b Hb ltac:(cbn; lia)) as Hl1.
  destruct Hh as (b1 & _ & _ & Hh). assert (b1 = b) as -> by (rewrite holding_at in Hh by done; by injection Hh).
  rewrite !(put_pkt_at k _ c b) by done. unfold rTcp_write, sock. rewrite list_lookup_insert_eq by (by apply lookup_lt_Some in Hh).
  cbn [deref mbind ub_bind with_buf s_fd s_buf]. 
  assert (forall x, write_at 4 (bytes32 asg) (h1 ++ x) = Ok (mk_greet (put host) asg RS_OFFER asg ++ x)) as ->
    by (intros x; subst h1; rewrite mk_greet_head, write_dest; by rewrite <- mk_greet_head). cbn [mbind ub_bind].
  rewrite take_greet. unfold rSrvTcp_switch_append. rewrite put_header_eq by (rewrite bytes0_length; cbn; lia). cbn [mbind ub_bind].
  unfold rIpop_assign_ip. rewrite Hip.
  rewrite Hbelow, op_to_str_eq by apply ip_of_u32_ok. rewrite (proj2 (Nat.leb_le _ _)) by lia. cbn [mbind ub_bind].
  change (dotted _ _ _ _) with (rsPkt_ip_op_take asg). rewrite (put_pkt_at k _ c b) by done.
  set (b2 := mk_greet (put host) asg RS_OFFER asg ++ drop (length h1) b).
  exists (MkTUp (sup t) (MkTcp op (t_head (stp t) ++ [MkSwitch k (ip_of_u32 asg) (rsPkt_ip_op_take asg) (mk_greet (put host) asg RS_OFFER asg ++ drop 16 (bytes0 1500)) [] (bytes0 16) 0 false])
      (t_con (stp t)) (u64 (switch_n (stp t) + 1)) (switchcon_n (stp t)) (t_name (stp t)) (t_x (stp t)) (t_y (stp t)) (t_map (stp t)) (t_tabel (stp t)))
    (<[k := with_buf b2 c]> (<[k := with_buf b c]> (socks t)))), (drop (length h1) b), (drop 16 (bytes0 1500)).
  split; [by rewrite Hop|]. split; [done|]. split.
  { exists b2. split; [exact (header_length (mk_greet (put host) asg RS_OFFER asg) b Hb ltac:(cbn; lia))|]. split; [done|].
    cbn [socks]. apply list_lookup_insert_eq. by rewrite length_insert. }
  split; [done|]. split; [rewrite length_app, length_drop, bytes0_length; cbn; lia|]. split; [cbn [socks]; by rewrite !length_insert|done].
Qed.

Lemma sockaddr_length a : length (sockaddr_bytes a) = 16%nat.
Proof. done. Qed.

(** The packet goes out on a new connection, which waits for an offer. *)
Lemma greet_establish t fd port host : let k := length (socks t) in let c := MkSock fd (LOCALHOST_ADDRV, port) [] None in
  exists t' r, rTup_handle_poll_read inet_addr host t (Connect fd port) = Ok (t', [WriteFd fd (mk_greet 0 0 RS_DISCOVERY 0 ++ r)]) /\
    length (mk_greet 0 0 RS_DISCOVERY 0 ++ r) = 1500%nat /\ conn t' k c /\ sup t' = sup t /\ length (socks t') = S k /\
    stp t' = MkTcp (t_op (stp t)) (t_head (stp t)) (t_con (stp t) ++ [MkSwitch k ip_zero "" (sockaddr_bytes (LOCALHOST_ADDRV, port) ++ drop 16 (bytes0 1500)) [] (bytes0 16) 0 true])
      (switch_n (stp t)) (u64 (switchcon_n (stp t) + 1)) (t_name (stp t)) (t_x (stp t)) (t_y (stp t)) (t_map (stp t)) (t_tabel (stp t)).
Proof.
  cbv zeta. cbn [rTup_handle_poll_read]. unfold rsSvrTcp_establish. cbn [socks set_socks stp].
  set (c := MkSock fd (LOCALHOST_ADDRV, port) [] None). change (MkSock fd _ (bytes0 1500) None) with (with_buf (bytes0 1500) c).
  assert (Hc : (socks t ++ [with_buf (bytes0 1500) c]) !! length (socks t) = Some (with_buf (bytes0 1500) c)) by (by rewrite lookup_app_r, Nat.sub_diag by lia).
  destruct (put_at (length (socks t)) c (mk_greet 0 0 RS_DISCOVERY 0) (bytes0 1500) _ Hc) as [-> Hw]; [by rewrite bytes0_length|cbn; lia|].
  unfold sock at 1. rewrite Hc. cbn [deref mbind ub_bind]. rewrite Hw. cbn [mbind ub_bind]. unfold rSrvTcp_switch_append.
  rewrite put_header_eq by (rewrite bytes0_length, sockaddr_length; lia). rewrite sockaddr_length. cbn [mbind ub_bind with_buf s_addr].
  eexists _, _. split; [reflexivity|]. split; [apply header_length; [by rewrite bytes0_length|cbn; lia]|].
  split; [|split; [done|split; [|done]]].
  - eexists. split; [|split; [done|]]; [|cbn [socks set_stp set_socks]; rewrite list_lookup_insert_eq; [reflexivity|rewrite length_app; simpl; lia]].
    apply header_length; [by rewrite bytes0_length|cbn; lia].
  - cbn [socks set_stp set_socks]. rewrite length_insert, length_app. simpl. lia.
Qed.

(** What a handler does that answers with a header. *)
Lemma answer t k c b h' : conn t k c -> length b = 1500%nat -> (length h' <= 1500)%nat -> exists sk r,
  put_buf k h' (socks (holding t k c b)) = Ok sk /\ rTcp_write k sk = Ok (WriteFd (s_fd c) (h' ++ r)) /\ length (h' ++ r) = 1500%nat /\
  length sk = length (socks t) /\ sk !! k = Some (with_buf (h' ++ r) c).
Proof.
  intros (b0 & Hb0 & He & Hc) Hb Hl. pose proof (lookup_lt_Some _ _ _ Hc) as Hk.
  destruct (put_at k c h' b _ (holding_at t k c b Hk) Hb Hl) as [Hp Hw]. eexists _, _. split; [exact Hp|]. split; [exact Hw|].
  split; [by apply header_length|]. cbn [holding socks set_socks]. split; [by rewrite !length_insert|].
  apply list_lookup_insert_eq. by rewrite length_insert.
Qed.

Lemma greet_offer t k c r host src asg j : conn t k c -> length (mk_greet src 0 RS_OFFER asg ++ r) = 1500%nat ->
  0 <= asg < 2 ^ 32 -> 0 <= src < 2 ^ 32 -> find_switch_con (t_con (stp t)) (s_addr c) = Some j ->
  exists t' r', rTup_handle_poll_read inet_addr host t (Received k (mk_greet src 0 RS_OFFER asg ++ r)) = Ok (t', [WriteFd (s_fd c) (mk_greet 0 src RS_REQUEST asg ++ r')]) /\
    length (mk_greet 0 src RS_REQUEST asg ++ r') = 1500%nat /\ conn t' k c /\ sup t' = sup t /\ length (socks t') = length (socks t) /\
    stp t' = update_sw (set_sname (ip_of_u32 asg) (rsPkt_ip_op_take asg)) (true, j) (stp t).
Proof.
  intros Hc Hb Hasg Hsrc Hj. rewrite (received_conn t k c) by done. set (b := mk_greet src 0 RS_OFFER asg ++ r) in *.
  destruct (answer t k c b (mk_greet 0 src RS_REQUEST asg) Hc Hb ltac:(cbn; lia)) as (sk & r' & Hp & Hw & Hl & Hlen & Hsk).
  pose proof Hc as (b0 & Hb0 & He & Hc0). pose proof (lookup_lt_Some _ _ _ Hc0) as Hk.
  rewrite handle_holding by done. change (mode b) with 2. cbv [Z.eqb Pos.eqb RS_DISCOVERY RS_OFFER]. cbv zeta.
  unfold tcp_offer, sock. rewrite holding_at by done. cbn [deref mbind ub_bind with_buf s_addr s_buf].
  change (stp (holding t k c b)) with (stp t). rewrite Hj. cbn [deref mbind ub_bind].
  assert (assign_ip b = asg) as -> by (by apply mk_greet_assign).
  assert (src_ip b = src) as -> by (unfold b; rewrite mk_greet_head; by apply mk_pkt_src).
  rewrite (str_to_op_dotted (ip_of_u32 asg) RIPOP_INIT (ip_of_u32_ok asg) : rIpop_str_to_op _ (rsPkt_ip_op_take asg) = _).
  cbn [mbind ub_bind]. rewrite Hp. cbn [mbind ub_bind]. rewrite Hw. cbn [mbind ub_bind ip_box].
  eexists _, r'. split; [reflexivity|]. split; [done|]. split; [by exists (mk_greet 0 src RS_REQUEST asg ++ r')|]. done.
Qed.

Lemma greet_request t k c r r2 host src dst asg j s : conn t k c -> length (mk_greet 0 dst RS_REQUEST asg ++ r) = 1500%nat ->
  0 <= asg < 2 ^ 32 -> find_switch_ip (t_head (stp t)) asg = Some j -> t_head (stp t) !! j = Some s ->
  sw_buf s = mk_greet src asg RS_OFFER asg ++ r2 ->
  exists t' r', rTup_handle_poll_read inet_addr host t (Received k (mk_greet 0 dst RS_REQUEST asg ++ r)) = Ok (t', [WriteFd (s_fd c) (mk_greet src asg RS_ACKNOWLEDGE asg ++ r')]) /\
    length (mk_greet src asg RS_ACKNOWLEDGE asg ++ r') = 1500%nat /\ conn t' k c /\ sup t' = sup t /\ length (socks t') = length (socks t) /\
    stp t' = update_sw (set_sbuf (mk_greet src asg RS_ACKNOWLEDGE asg ++ r2)) (false, j) (stp t).
Proof.
  intros Hc Hb Hasg Hj Hs Hbuf. rewrite (received_conn t k c) by done. set (b := mk_greet 0 dst RS_REQUEST asg ++ r) in *.
  pose proof Hc as (b0 & Hb0 & He & Hc0). pose proof (lookup_lt_Some _ _ _ Hc0) as Hk.
  rewrite handle_holding by done. change (mode b) with 3. cbv [Z.eqb Pos.eqb RS_DISCOVERY RS_OFFER RS_ACKNOWLEDGE RS_LOCATION_SEND RS_LOCATION_BROADCAST RS_REQUEST]. cbv zeta.
  unfold tcp_request, sock. rewrite holding_at by done. cbn [deref mbind ub_bind with_buf s_addr s_buf].
  unfold client_pkt. cbn [with_buf s_excess s_buf]. rewrite He. cbn [default]. change (stp (holding t k c b)) with (stp t).
  assert (assign_ip b = asg) as -> by (by apply mk_greet_assign). rewrite Hj. cbn [mbind ub_bind]. rewrite Hs. cbn [deref mbind ub_bind].
  rewrite Hbuf, mk_greet_assign by done. rewrite mk_greet_head, write_dest. cbn [mbind ub_bind].
  assert (RSPKT_MODE_SET (mk_pkt src asg RS_OFFER ++ bytes32 asg ++ r2) RS_ACKNOWLEDGE = Ok (mk_greet src asg RS_ACKNOWLEDGE asg ++ r2)) as ->.
  { unfold RSPKT_MODE_SET. rewrite array_set_in; [done|]. rewrite length_app. cbn. lia. }
  cbn [mbind ub_bind]. rewrite take_greet, put_header_eq by (rewrite Hb; cbn; lia). cbn [mbind ub_bind].
  set (h1 := mk_greet src asg RS_ACKNOWLEDGE asg). rewrite (put_pkt_at k _ c b) by (apply holding_at || done; done).
  unfold rTcp_write, sock. rewrite list_lookup_insert_eq by (cbn; by rewrite length_insert). cbn [deref mbind ub_bind with_buf s_fd s_buf].
  eexists _, (drop (length h1) b). split; [reflexivity|]. split; [by apply header_length; [|cbn; lia]|].
  split; [|split; [done|split; [cbn; by rewrite !length_insert|done]]].
  exists (h1 ++ drop (length h1) b). split; [by apply header_length; [|cbn; lia]|]. split; [done|]. cbn. apply list_lookup_insert_eq. by rewrite length_insert.
Qed.

Lemma tell_place_eq t k c b p s src dst : conn t k c -> length b = 1500%nat -> lookup_sw (stp t) p = Some s -> length (sw_buf s) = 1500%nat ->
  let x := t_x (stp t) in let y := t_y (stp t) in
  exists sk r', tell_place (holding t k c b) k p src dst =
      Ok (set_stp (update_sw (set_sbuf (dst_pkt src dst x y ++ drop 16 (sw_buf s))) p (stp t)) (set_socks sk t), WriteFd (s_fd c) (dst_pkt_sent src dst x y ++ r')) /\
    length (dst_pkt_sent src dst x y ++ r') = 1500%nat /\ length sk = length (socks t) /\ sk !! k = Some (with_buf (dst_pkt_sent src dst x y ++ r') c).
Proof.
  intros Hc Hb Hs Hsb. cbv zeta. unfold tell_place. change (stp (holding t k c b)) with (stp t). rewrite Hs. cbn [deref mbind ub_bind].
  destruct (answer t k c b (dst_pkt_sent src dst (t_x (stp t)) (t_y (stp t))) Hc Hb ltac:(cbn; lia)) as (sk & r' & Hp & Hw & Hl & Hlen & Hsk).
  rewrite Hp. cbn [mbind ub_bind]. rewrite Hw. cbn [mbind ub_bind]. rewrite put_header_eq by (rewrite Hsb; cbn; lia). cbn [mbind ub_bind].
  by exists sk, r'.
Qed.

Lemma greet_acknowledge t k c r host src asg j s : conn t k c -> length (mk_greet src asg RS_ACKNOWLEDGE asg ++ r) = 1500%nat ->
  0 <= asg < 2 ^ 32 -> 0 <= src < 2 ^ 32 -> find_switch_con (t_con (stp t)) (s_addr c) = Some j -> t_con (stp t) !! j = Some s -> length (sw_buf s) = 1500%nat ->
  let x := t_x (stp t) in let y := t_y (stp t) in
  exists t' r', rTup_handle_poll_read inet_addr host t (Received k (mk_greet src asg RS_ACKNOWLEDGE asg ++ r)) = Ok (t', [WriteFd (s_fd c) (dst_pkt_sent asg src x y ++ r')]) /\
    length (dst_pkt_sent asg src x y ++ r') = 1500%nat /\ conn t' k c /\ sup t' = sup t /\ length (socks t') = length (socks t) /\
    stp t' = update_sw (set_sbuf (dst_pkt asg src x y ++ drop 16 (sw_buf s))) (true, j) (update_sw (set_sassign (mk_greet src asg RS_ACKNOWLEDGE asg)) (true, j) (stp t)).
Proof.
  intros Hc Hb Hasg Hsrc Hj Hs Hsb. cbv zeta. rewrite (received_conn t k c) by done. set (b := mk_greet src asg RS_ACKNOWLEDGE asg ++ r) in *.
  pose proof Hc as (b0 & Hb0 & He & Hc0). pose proof (lookup_lt_Some _ _ _ Hc0) as Hk.
  rewrite handle_holding by done. change (mode b) with 4. cbv [Z.eqb Pos.eqb RS_DISCOVERY RS_OFFER RS_ACKNOWLEDGE]. cbv zeta.
  unfold tcp_acknowledge, sock. rewrite holding_at by done. cbn [deref mbind ub_bind with_buf s_addr s_buf].
  unfold client_pkt. cbn [with_buf s_excess s_buf]. rewrite He. cbn [default]. change (stp (holding t k c b)) with (stp t).
  rewrite Hj. cbn [deref mbind ub_bind].
  assert (dest_ip b = asg) as -> by (unfold b; rewrite mk_greet_head; by apply mk_pkt_dest).
  assert (src_ip b = src) as -> by (unfold b; rewrite mk_greet_head; by apply mk_pkt_src).
  change (take 16 b) with (mk_greet src asg RS_ACKNOWLEDGE asg). set (s1 := update_sw _ _ (stp t)).
  assert (Hs1 : lookup_sw s1 (true, j) = Some (set_sassign (mk_greet src asg RS_ACKNOWLEDGE asg) s)).
  { subst s1. cbn. rewrite list_lookup_alter, decide_True, Hs by done. done. }
  destruct (tell_place_eq (set_stp s1 t) k c b (true, j) _ asg src Hc Hb Hs1 Hsb) as (sk & r' & Ht & Hl & Hlen & Hsk).
  change (set_stp s1 (holding t k c b)) with (holding (set_stp s1 t) k c b). rewrite Ht. cbn [mbind ub_bind].
  eexists _, r'. split; [reflexivity|]. split; [done|]. split; [by eexists|]. done.
Qed.

(** The place of the peer arrives: at the switch that was connected to, which answers, ... *)
Lemma greet_place_head t k c r h src dst x y j s p : switch_ok t -> conn t k c -> length (dst_pkt_sent src dst x y ++ r) = 1500%nat ->
  0 <= src < 2 ^ 32 -> 0 <= dst < 2 ^ 32 -> 0 <= x < 65536 -> 0 <= y < 65536 ->
  find_switch_ip (t_head (stp t)) src = Some j -> t_head (stp t) !! j = Some s -> mode (sw_buf s) <> RS_LOCATION_SEND -> p = (false, j) ->
  let x' := t_x (stp t) in let y' := t_y (stp t) in
  let d := rDst_calc_dist x' x y' y in
  exists t' r' e, rTup_handle_poll_read inet_addr (Some h) t (Received k (dst_pkt_sent src dst x y ++ r)) = Ok (t', WriteFd (s_fd c) (dst_pkt_sent dst src x' y' ++ r') :: e) /\
    length (dst_pkt_sent dst src x' y' ++ r') = 1500%nat /\
    stp t' = set_map (rMap_append (t_map (stp t)) dst src d) (update_sw (set_sdist d) p (update_sw (set_sbuf (dst_pkt dst src x' y' ++ drop 16 (sw_buf s))) p (stp t))).
Proof.
  intros [Hst Hsv] Hc Hb Hsrc Hdst Hx Hy Hj Hs Hm ->. cbv zeta. rewrite (received_conn t k c) by done. set (b := dst_pkt_sent src dst x y ++ r) in *.
  pose proof Hc as (b0 & Hb0 & He & Hc0). pose proof (lookup_lt_Some _ _ _ Hc0) as Hk.
  rewrite handle_holding by done. change (mode b) with 8. cbv [Z.eqb Pos.eqb RS_DISCOVERY RS_OFFER RS_ACKNOWLEDGE RS_LOCATION_SEND]. cbv zeta.
  unfold tcp_location, sock. rewrite holding_at by done. cbn [deref mbind ub_bind with_buf s_addr s_buf].
  unfold client_pkt. cbn [with_buf s_excess s_buf]. rewrite He. cbn [default]. change (stp (holding t k c b)) with (stp t).
  assert (Hbe : b = mk_pkt src dst RS_LOCATION_SEND ++ be16 x ++ be16 y ++ r) by (unfold b, dst_pkt_sent; by rewrite <- !app_assoc).
  assert (src_ip b = src) as Hbs by (rewrite Hbe; by apply mk_pkt_src). assert (dest_ip b = dst) as Hbd by (rewrite Hbe; by apply mk_pkt_dest).
  rewrite Hbs, Hbd. unfold teller. rewrite Hj. cbn [mbind ub_bind]. rewrite Hs. cbn [deref mbind ub_bind].
  rewrite mode_chk, (proj2 (Z.eqb_neq _ _) Hm). destruct (srv_ok_at _ _ (false, j) s Hsv Hs) as (_ & Hsb & _).
  destruct (tell_place_eq t k c b (false, j) s dst src Hc Hb Hs Hsb) as (sk & r' & Ht & Hl & Hlen & Hsk). rewrite Ht. cbn [mbind ub_bind deref].
  set (t1 := set_stp _ (set_socks sk t)).
  destruct (tell_place_in (length (socks t)) (holding t k c b) k (false, j) dst src) as (t1' & w' & Ht' & Hs1 & Hv1 & _).
  { cbn. apply store_insert; [done|]. by split. } { done. } { done. } { by exists s. }
  rewrite Ht in Ht'. injection Ht' as <- <-. fold t1 in Hs1, Hv1.
  destruct (spread_place_in inet_addr h (length (socks t)) t1 k (false, j) b Hs1 Hv1 Hk) as (sk' & e & -> & _ & _). cbn [mbind ub_bind].
  eexists _, r', e. split; [reflexivity|]. split; [done|]. cbn [stp set_stp]. unfold placed. rewrite Hbs, Hbd.
  assert (get_be16 12 b = x) as -> by (rewrite Hbe; by apply be16_get).
  assert (get_be16 14 b = y) as -> by (rewrite Hbe; by apply be16_get_snd). done.
Qed.

(** ... and at the switch that connected. *)
Lemma greet_place_con t k c r h src dst x y p : switch_ok t -> conn t k c -> length (dst_pkt_sent src dst x y ++ r) = 1500%nat ->
  0 <= src < 2 ^ 32 -> 0 <= dst < 2 ^ 32 -> 0 <= x < 65536 -> 0 <= y < 65536 ->
  find_switch_ip (t_head (stp t)) src = None -> teller (stp t) src = Some p ->
  let d := rDst_calc_dist (t_x (stp t)) x (t_y (stp t)) y in
  exists t' e, rTup_handle_poll_read inet_addr (Some h) t (Received k (dst_pkt_sent src dst x y ++ r)) = Ok (t', e) /\
    stp t' = set_map (rMap_append (t_map (stp t)) dst src d) (update_sw (set_sdist d) p (stp t)).
Proof.
  intros [Hst Hsv] Hc Hb Hsrc Hdst Hx Hy Hj Hp. cbv zeta. rewrite (received_conn t k c) by done. set (b := dst_pkt_sent src dst x y ++ r) in *.
  pose proof Hc as (b0 & Hb0 & He & Hc0). pose proof (lookup_lt_Some _ _ _ Hc0) as Hk.
  rewrite handle_holding by done. change (mode b) with 8. cbv [Z.eqb Pos.eqb RS_DISCOVERY RS_OFFER RS_ACKNOWLEDGE RS_LOCATION_SEND]. cbv zeta.
  unfold tcp_location, sock. rewrite holding_at by done. cbn [deref mbind ub_bind with_buf s_addr s_buf].
  unfold client_pkt. cbn [with_buf s_excess s_buf]. rewrite He. cbn [default]. change (stp (holding t k c b)) with (stp t).
  assert (Hbe : b = mk_pkt src dst RS_LOCATION_SEND ++ be16 x ++ be16 y ++ r) by (unfold b, dst_pkt_sent; by rewrite <- !app_assoc).
  assert (src_ip b = src) as Hbs by (rewrite Hbe; by apply mk_pkt_src). assert (dest_ip b = dst) as Hbd by (rewrite Hbe; by apply mk_pkt_dest).
  rewrite Hbs, Hbd, Hj, Hp. cbn [deref mbind ub_bind].
  destruct (spread_place_in inet_addr h (length (socks t)) (holding t k c b) k p b) as (sk' & e & -> & _ & _);
    [cbn; apply store_insert; [done|by split]|done|done|]. cbn [mbind ub_bind].
  eexists _, e. split; [reflexivity|]. cbn [stp set_stp holding set_socks]. unfold placed. rewrite Hbs, Hbd.
  assert (get_be16 12 b = x) as -> by (rewrite Hbe; by apply be16_get).
  assert (get_be16 14 b = y) as -> by (rewrite Hbe; by apply be16_get_snd). done.
Qed.

Lemma holding_ok t k c b : switch_ok t -> conn t k c -> length b = 1500%nat -> switch_ok (holding t k c b).
Proof.
  intros [Hs Hv] (b0 & _ & He & _) Hb. unfold switch_ok. cbn [holding socks set_socks stp]. rewrite length_insert.
  split; [|done]. apply store_insert; [done|]. by split.
Qed.

Lemma received_keeps t k c b h t' e : switch_ok t -> conn t k c -> length b = 1500%nat ->
  rTup_handle_poll_read inet_addr (Some h) t (Received k b) = Ok (t', e) -> switch_ok t'.
Proof.
  intros Ht Hc Hb. rewrite (received_conn t k c) by done. intros ([[t1 r] e1] & Hr & [= <- <-])%ub_bind_ok.
  pose proof (holding_ok t k c b Ht Hc Hb) as Hh. destruct (conn_holding t k c b Hc Hb) as (b1 & _ & _ & Hk).
  destruct (tcp_runs inet_addr h _ k _ Hh Hk) as (t2 & r2 & e2 & Heq & _ & Hok).
  - intros Hcr. destruct (tcp_crashes_spec inet_addr h _ k _ Hh Hk Hcr) as [f Hf]. congruence.
  - congruence.
Qed.

Lemma srv_ok_mono n m s : (n <= m)%nat -> srv_ok n s -> srv_ok m s.
Proof.
  intros Hnm (Hl & Ht & Ho). split; [|done]. intros con. eapply Forall_impl; [apply Hl|]. intros x (H1 & H2). split; [lia|done].
Qed.

Lemma connect_keeps t fd port host t' e : switch_ok t -> rTup_handle_poll_read inet_addr host t (Connect fd port) = Ok (t', e) -> switch_ok t'.
Proof.
  intros [[Hs _] Hv]. cbn [rTup_handle_poll_read]. set (sk := socks t ++ _).
  assert (Hsk : store (S (length (socks t))) sk).
  { split; [apply Forall_app; split; [done|]; constructor; [|done]; split; [apply bytes0_length|done]|]. subst sk. rewrite length_app. simpl. lia. }
  unfold rsSvrTcp_establish. cbn [socks set_socks stp]. unfold sock at 1.
  intros (c & _ & (sk1 & Hp & (w & _ & (s & Hap & [= <- <-])%ub_bind_ok)%ub_bind_ok)%ub_bind_ok)%ub_bind_ok.
  destruct (put_buf_in _ (length (socks t)) (mk_greet 0 0 RS_DISCOVERY 0) sk Hsk) as (sk1' & Hp' & Hs1); [lia|cbn; lia|].
  rewrite Hp in Hp'. injection Hp' as <-.
  destruct (srv_ok_append (S (length (socks t))) (stp t) (length (socks t)) true (sockaddr_bytes (s_addr c))) as (s' & Hap' & Hok);
    [eapply srv_ok_mono, Hv; lia|lia|rewrite sockaddr_length; lia|done|].
  rewrite Hap in Hap'. injection Hap' as <-. split; cbn [socks set_stp set_socks stp]; destruct Hs1 as [H1 H2]; [by split|by rewrite H2].
Qed.

Lemma find_con_last l a k n ip m asn d b : find_switch_con l a = None ->
  find_switch_con (l ++ [MkSwitch k ip n (sockaddr_bytes a ++ b) m asn d true]) a = Some (length l).
Proof. intros Hl. apply find_index_last; [done|]. by apply bool_decide_eq_true. Qed.

Lemma find_ip_last l a s : find_switch_ip l a = None -> sw_name s = rsPkt_ip_op_take a -> find_switch_ip (l ++ [s]) a = Some (length l).
Proof. intros Hl Hn. apply find_index_last; [done|]. by apply String.eqb_eq. Qed.

Lemma lookup_last {A} (l : list A) x : (l ++ [x]) !! length l = Some x.
Proof. by rewrite lookup_app_r, Nat.sub_diag. Qed.

(** C19: A switch that connects to another becomes known to it.  Whatever other switches and
    adaptors the two have: the packets of each, put into the other in turn, are discovery,
    offer, request, acknowledgement and the two places; then each has the other at the end
    of its list with the address that was handed out, both have the same distance, and each
    has it in its map. *)
Theorem greeting tA tB hA hB fd port kB cB op asg :
  switch_ok tA -> switch_ok tB -> conn tB kB cB -> 0 <= asg < 2 ^ 32 ->
  rIpop_assign_ip (t_op (stp tB)) true = (op, ip_of_u32 asg, true) -> dotted_len (ip_of_u32 asg) <> 15%nat ->
  find_switch_ip (t_head (stp tB)) asg = None -> find_switch_con (t_con (stp tA)) (LOCALHOST_ADDRV, port) = None ->
  find_switch_ip (t_head (stp tA)) (put hB) = None ->
  0 <= t_x (stp tA) < 65536 -> 0 <= t_y (stp tA) < 65536 -> 0 <= t_x (stp tB) < 65536 -> 0 <= t_y (stp tB) < 65536 ->
  let kA := length (socks tA) in
  let d := rDst_calc_dist (t_x (stp tA)) (t_x (stp tB)) (t_y (stp tA)) (t_y (stp tB)) in
  exists b1 b2 b3 b4 b5 b6 tA' tB' eA eB sA sB,
    poll_run inet_addr (Some hA) [Connect fd port; Received kA b2; Received kA b4; Received kA b6] tA =
      Ok (tA', [WriteFd fd b1; WriteFd fd b3; WriteFd fd b5] ++ eA) /\
    poll_run inet_addr (Some hB) [Received kB b1; Received kB b3; Received kB b5] tB =
      Ok (tB', [WriteFd (s_fd cB) b2; WriteFd (s_fd cB) b4; WriteFd (s_fd cB) b6] ++ eB) /\
    t_con (stp tA') = t_con (stp tA) ++ [sA] /\ sw_conn sA = kA /\ sw_ip sA = ip_of_u32 asg /\ sw_name sA = rsPkt_ip_op_take asg /\
    (src_ip (sw_assign sA), dest_ip (sw_assign sA), mode (sw_assign sA)) = (put hB, asg, RS_ACKNOWLEDGE) /\ sw_dist sA = d /\
    t_map (stp tA') = rMap_append (t_map (stp tA)) asg (put hB) d /\
    t_head (stp tB') = t_head (stp tB) ++ [sB] /\ sw_conn sB = kB /\ sw_ip sB = ip_of_u32 asg /\ sw_name sB = rsPkt_ip_op_take asg /\ sw_dist sB = d /\
    t_map (stp tB') = rMap_append (t_map (stp tB)) (put hB) asg d.
Proof.
  intros HokA HokB HcB Hasg Hop Hdl HfB HfA HfAh HxA HyA HxB HyB. cbv zeta.
  set (kA := length (socks tA)). set (cA := MkSock fd (LOCALHOST_ADDRV, port) [] None).
  destruct (greet_establish tA fd port (Some hA)) as (tA1 & r1 & E1 & L1 & CA1 & U1 & N1 & S1). fold kA cA in CA1, N1, S1.
  pose proof (connect_keeps _ _ _ _ _ _ HokA E1) as HokA1.
  destruct (greet_discovery tB kB cB r1 hB op asg HcB L1 Hasg Hop Hdl) as (tB1 & r2 & q2 & E2 & L2 & CB1 & UB1 & M2 & NB1 & SB1).
  pose proof (received_keeps _ _ _ _ _ _ _ HokB HcB L1 E2) as HokB1.
  destruct (greet_offer tA1 kA cA r2 (Some hA) (put hB) asg (length (t_con (stp tA))) CA1 L2 Hasg (put_range hB)) as (tA2 & r3 & E3 & L3 & CA2 & U2 & N2 & S2).
  { rewrite S1. by apply find_con_last. }
  pose proof (received_keeps _ _ _ _ _ _ _ HokA1 CA1 L2 E3) as HokA2.
  destruct (greet_request tB1 kB cB r3 q2 (Some hB) (put hB) (put hB) asg (length (t_head (stp tB)))
    (MkSwitch kB (ip_of_u32 asg) (rsPkt_ip_op_take asg) (mk_greet (put hB) asg RS_OFFER asg ++ q2) [] (bytes0 16) 0 false) CB1 L3 Hasg)
    as (tB2 & r4 & E4 & L4 & CB2 & UB2 & NB2 & SB2).
  { rewrite SB1. by apply find_ip_last. } { rewrite SB1. apply lookup_last. } { done. }
  pose proof (received_keeps _ _ _ _ _ _ _ HokB1 CB1 L3 E4) as HokB2.
  rewrite S1 in S2. unfold update_sw in S2. cbn [fst snd t_op t_head t_con switch_n switchcon_n t_name t_x t_y t_map t_tabel] in S2. rewrite alter_snoc in S2.
  rewrite SB1 in SB2. unfold update_sw in SB2. cbn [fst snd t_op t_head t_con switch_n switchcon_n t_name t_x t_y t_map t_tabel] in SB2. rewrite alter_snoc in SB2.
  destruct (greet_acknowledge tA2 kA cA r4 (Some hA) (put hB) asg (length (t_con (stp tA)))
    (MkSwitch kA (ip_of_u32 asg) (rsPkt_ip_op_take asg) (sockaddr_bytes (LOCALHOST_ADDRV, port) ++ drop 16 (bytes0 1500)) [] (bytes0 16) 0 true)
    CA2 L4 Hasg (put_range hB)) as (tA3 & r5 & E5 & L5 & CA3 & U3 & N3 & S3).
  { rewrite S2. exact (find_con_last _ _ _ _ _ _ _ _ _ HfA). } { rewrite S2. apply lookup_last. }
  { cbn [sw_buf]. rewrite length_app, length_drop, bytes0_length, sockaddr_length. lia. }
  pose proof (received_keeps _ _ _ _ _ _ _ HokA2 CA2 L4 E5) as HokA3.
  destruct (greet_place_head tB2 kB cB r5 hB asg (put hB) (t_x (stp tA2)) (t_y (stp tA2)) (length (t_head (stp tB)))
    (MkSwitch kB (ip_of_u32 asg) (rsPkt_ip_op_take asg) (mk_greet (put hB) asg RS_ACKNOWLEDGE asg ++ q2) [] (bytes0 16) 0 false)
    (false, length (t_head (stp tB))) HokB2 CB2 L5 Hasg (put_range hB)) as (tB3 & r6 & eB & E6 & L6 & SB3).
  { by rewrite S2. } { by rewrite S2. } { rewrite SB2. by apply find_ip_last. } { rewrite SB2. apply lookup_last. } { done. } { done. }
  rewrite S2 in S3. unfold update_sw in S3. cbn [fst snd t_op t_head t_con switch_n switchcon_n t_name t_x t_y t_map t_tabel] in S3. rewrite !alter_snoc in S3.
  destruct (greet_place_con tA3 kA cA r6 hA (put hB) asg (t_x (stp tB2)) (t_y (stp tB2)) (true, length (t_con (stp tA)))
    HokA3 CA3 L6 (put_range hB) Hasg) as (tA4 & eA & E7 & S4).
  { by rewrite SB2. } { by rewrite SB2. } { by rewrite S3. }
  { unfold teller. rewrite S3. cbn [t_head t_con]. rewrite HfAh, find_last_snoc; [done|]. apply Z.eqb_eq. apply (mk_pkt_src (put hB) asg), put_range. }
  rewrite S3 in S4. unfold update_sw in S4. cbn [fst snd t_op t_head t_con switch_n switchcon_n t_name t_x t_y t_map t_tabel] in S4. rewrite !alter_snoc in S4.
  rewrite SB2 in SB3. unfold update_sw in SB3. cbn [fst snd t_op t_head t_con switch_n switchcon_n t_name t_x t_y t_map t_tabel] in SB3. rewrite !alter_snoc in SB3.
  do 6 eexists. exists tA4, tB3, eA, eB. do 2 eexists.
  split; [cbn [poll_run]; rewrite E1; cbn [mbind ub_bind]; rewrite E3; cbn [mbind ub_bind]; rewrite E5; cbn [mbind ub_bind]; rewrite E7; cbn [mbind ub_bind]; rewrite app_nil_r; reflexivity|].
  split; [cbn [poll_run]; rewrite E2; cbn [mbind ub_bind]; rewrite E4; cbn [mbind ub_bind]; rewrite E6; cbn [mbind ub_bind]; rewrite app_nil_r; reflexivity|].
  rewrite S4, SB3, SB2, S2. cbn [set_map t_con t_head t_map t_x t_y]. split; [reflexivity|]. do 3 (split; [reflexivity|]).
  split; [cbn; f_equal; f_equal; [apply (mk_pkt_src (put hB) asg), put_range|by apply (mk_pkt_dest (put hB) asg)]|].
  split; [reflexivity|]. split; [reflexivity|]. split; [reflexivity|]. do 3 (split; [reflexivity|]).
  split; [apply calc_dist_sym|by rewrite calc_dist_sym].
Qed.

End Greeting.

(** ** Proofs: the start *)

Lemma str_to_op_ok s i x seg op op' : ip_ok (ip_cur op) -> str_to_op_loop s i x seg op = Ok op' -> ip_ok (ip_cur op').
Proof.
  assert (Hw : forall x v o o', ip_ok (ip_cur o) -> write_box x (u8 v) o = Ok o' -> ip_ok (ip_cur o')).
  { intros x0 v o o' (H1 & H2 & H3 & H4). unfold write_box. case_match; [|done]. intros [= <-]. cbn [ip_cur].
    pose proof (uN_bounds 8 ltac:(lia) v). unfold set_box. repeat case_match; unfold ip_ok; cbn; lia. }
  revert i x seg op. induction s as [|c s IH]; intros i x seg op Ho; cbn [str_to_op_loop]; case_match; try (by intros [= <-]); [by apply Hw|].
  case_match; [|by apply IH]. intros (o1 & H1 & H2)%ub_bind_ok. eapply IH; [|exact H2]. by eapply Hw.
Qed.

Lemma zero_ok : ip_ok ip_zero.
Proof. unfold ip_ok. simpl. lia. Qed.

(** A switch is sound when it starts, and one without a TCP side is as the handler of
    datagrams needs it. *)
Lemma setup_ok a t host : rTup_std_setup a = Ok (t, host) -> switch_ok t /\
  (local_on a = true -> local_ok t) /\ (host = None <-> global_on a = false).
Proof.
  unfold rTup_std_setup. intros (u & Hu & ([tcp hst] & Ht & [= <- <-])%ub_bind_ok)%ub_bind_ok.
  assert (Htcp : t_head tcp = [] /\ t_con tcp = [] /\ t_tabel tcp = [] /\ ip_ok (ip_cur (t_op tcp)) /\ (hst = None <-> global_on a = false)).
  { destruct (global_on a); [|injection Ht as <- <-; split_and!; try done; apply zero_ok].
    apply ub_bind_ok in Ht as ([t0 b] & H0 & (hh & _ & [= <- <-])%ub_bind_ok). unfold rSvrTcp_init in H0.
    case_match; [injection H0 as <- <-; split_and!; try done; apply zero_ok|].
    case_match; [injection H0 as <- <-; split_and!; try done; apply zero_ok|].
    apply ub_bind_ok in H0 as (op & Hop & [= <- <-]). split_and!; try done. cbn [t_op rIpop_justify ip_cur].
    eapply str_to_op_ok; [|exact Hop]. apply zero_ok. }
  destruct Htcp as (Hh & Hc & Htb & Hop & Hhost). split; [|split; [|done]].
  - split.
    + split; [|done]. cbn [socks]. by repeat constructor.
    + cbn [stp]. split; [intros []; cbn; rewrite ?Hh, ?Hc; constructor|]. cbn [t_tabel]. rewrite Htb. by split; [constructor|].
  - intros Hl. rewrite Hl in Hu. apply ub_bind_ok in Hu as ([u0 b] & H0 & (hh & _ & [= <-])%ub_bind_ok). split; cbn [sup stp t_head t_con t_tabel]; try done.
    eexists. split; [reflexivity|]. cbn [u_op u_list]. unfold rSvrUdp_init in H0. cbv beta iota in H0.
    destruct ((_ <? 0) || _); [injection H0 as <- <-; split; [apply zero_ok|constructor]|].
    destruct (negb _); [injection H0 as <- <-; split; [apply zero_ok|constructor]|].
    apply ub_bind_ok in H0 as (op & Hop' & [= <- <-]). split; [|constructor]. cbn [u_op rIpop_justify ip_cur].
    eapply str_to_op_ok; [|exact Hop']. apply zero_ok.
Qed.

(** ** Concrete cases *)

Example args_local : rTUp_arg_check ["local"; "192.168.0.1/24"; "50"; "20"] = Some (Args false "" 0 true "192.168.0.1" 24 50 20).
Proof. reflexivity. Qed.
Example args_both : rTUp_arg_check ["local"; "192.168.0.1/24"; "130.102.72.10/24"; "50"; "20"] = Some (Args true "130.102.72.10" 24 true "192.168.0.1" 24 50 20).
Proof. reflexivity. Qed.
Example args_no_mask : rTUp_arg_check ["global"; "192.168.0.1"; "50"; "20"] = None.
Proof. reflexivity. Qed.

Lemma inet_addr0_reads z : 0 <= z < 2 ^ 32 -> rsPkt_ip_op_put inet_addr0 (rsPkt_ip_op_take z) = z.
Proof.
  intros Hz. unfold rsPkt_ip_op_put, inet_addr0.
  rewrite (str_to_op_dotted (ip_of_u32 z) RIPOP_INIT (ip_of_u32_ok z) : rIpop_str_to_op _ (rsPkt_ip_op_take z) = _).
  cbn [ip_box ip_of_u32 fst_ snd_ thd frt]. rewrite u32_bytes by done. by apply uN_small.
Qed.

(** Two switches, the second with a connection that was accepted. *)
Definition global (a b c d x y : Z) (name : string) (sk : list RSock) : RTUp :=
  MkTUp None (MkTcp (MkOp (MkIP a b c d) (MkIP a b c d) (MkIP a b c 255) 8) [] [] 0 0 name x y [] []) sk.
Definition accepted : RSock := MkSock 7 (LOCALHOST_ADDRV, 40000) (bytes0 1500) None.
Definition switch_a : RTUp := global 10 0 0 1 2 5 "10.0.0.1" [].
Definition switch_b : RTUp := global 44 45 46 1 465 784 "44.45.46.1" [accepted].

Lemma global_ok a b c d x y name sk : Forall sock_ok sk -> ip_ok (MkIP a b c d) -> switch_ok (global a b c d x y name sk).
Proof. intros Hs Hi. split; [by split|]. split; [by intros []; constructor|]. by split; [constructor|]. Qed.

Lemma greeting_witness : let asg := inet_addr0 "44.45.46.2" in let hb := inet_addr0 "44.45.46.1" in
  exists b2 b4 b6 tA' e, poll_run inet_addr0 (Some "10.0.0.1") [Connect 5 50001; Received 0 b2; Received 0 b4; Received 0 b6] switch_a = Ok (tA', e) /\
    sw_dist <$> t_con (stp tA') = [906] /\ sw_name <$> t_con (stp tA') = ["44.45.46.2"] /\
    t_map (stp tA') = [MkElem asg [MkDist hb 906 (Some 1%nat)]; MkElem hb []].
Proof.
  cbv zeta. destruct (greeting inet_addr0 inet_addr0_reads switch_a switch_b "10.0.0.1" "44.45.46.1" 5 50001 0 accepted
    (MkOp (MkIP 44 45 46 1) (MkIP 44 45 46 2) (MkIP 44 45 46 255) 8) (inet_addr0 "44.45.46.2"))
    as (b1 & b2 & b3 & b4 & b5 & b6 & tA' & tB' & eA & eB & sA & sB & HA & _ & Hc & _ & _ & Hn & _ & Hd & Hm & _).
  - apply global_ok; [constructor|unfold ip_ok; simpl; lia].
  - apply global_ok; [constructor; [split; [apply bytes0_length|done]|constructor]|unfold ip_ok; simpl; lia].
  - exists (bytes0 1500). split; [apply bytes0_length|]. split; reflexivity.
  - vm_compute. split; [discriminate|reflexivity].
  - vm_compute. reflexivity.
  - vm_compute. discriminate.
  - reflexivity. - reflexivity. - reflexivity.
  - vm_compute. split; [discriminate|reflexivity]. - vm_compute. split; [discriminate|reflexivity].
  - vm_compute. split; [discriminate|reflexivity]. - vm_compute. split; [discriminate|reflexivity].
  - exists b2, b4, b6, tA'. eexists. split; [exact HA|]. rewrite Hc, Hm. cbn [switch_a global stp t_con t_map fmap list_fmap app]. rewrite Hd, Hn.
    split; [vm_compute; reflexivity|]. split; vm_compute; reflexivity.
Defined.

(** A place from a switch that nobody knows crashes; a query does not. *)
Lemma tcp_handle_runs_witness :
  let b m := mk_pkt 9 8 m ++ bytes0 1488 in
  (exists f, rsSvrTcp_handle inet_addr0 (Some "44.45.46.1") (global 44 45 46 1 465 784 "44.45.46.1" [with_buf (b RS_LOCATION_SEND) accepted]) 0 = UB f) /\
  exists t r e, rsSvrTcp_handle inet_addr0 (Some "44.45.46.1") (global 44 45 46 1 465 784 "44.45.46.1" [with_buf (b RS_QUERY_PACKET) accepted]) 0 = Ok (t, r, e).
Proof.
  cbv zeta. assert (Hok : forall m, switch_ok (global 44 45 46 1 465 784 "44.45.46.1" [with_buf (mk_pkt 9 8 m ++ bytes0 1488) accepted])).
  { intros m. apply global_ok; [|unfold ip_ok; simpl; lia]. constructor; [|constructor]. split; [|done].
    cbn [with_buf s_buf]. rewrite length_app, bytes0_length. simpl. lia. }
  split.
  - apply (tcp_handle_runs inet_addr0 "44.45.46.1" _ 0 (with_buf (mk_pkt 9 8 RS_LOCATION_SEND ++ bytes0 1488) accepted) (Hok _) eq_refl).
    do 2 right. left. split; reflexivity.
  - destruct (proj1 (tcp_handle_runs inet_addr0 "44.45.46.1" _ 0 (with_buf (mk_pkt 9 8 RS_QUERY_PACKET ++ bytes0 1488) accepted) (Hok _) eq_refl))
      as (t & r & e & H & _); [|by exists t, r, e].
    intros [[H _]|[[[H|H] _]|[[H _]|[H _]]]]; discriminate H.
Defined.
