(* ===== verification/Metrics.v ===== *)
(** * The metrics registry of the statistics server (2.libevent-server/src/metrics.c)

    A registry holds metrics, and a metric holds one value for every combination
    of the values of its labels.  The values are nodes that are in a tree, ordered
    by the labels, and, while they have not been updated since the last
    collection, also in the list [old_values].  This file models the nodes with the
    links of the [LIST] macros, the operations on metrics and registries and the
    printing.  The tree is the interface [RBCmp]; the callbacks of the collecting
    modules are parameters, which MetricsMods.v gives for the modules of the
    repository. *)

From S2P Require Import Prelude RBTree.
From stdpp Require Import pretty.
From Stdlib Require Import SpecFloat.

#[local] Open Scope string_scope.
#[local] Open Scope Z_scope.

(** ** Doubles

    A C double is a binary64 number, with the operations of [SpecFloat]. *)

Abbreviation double := spec_float.
Definition dadd : double -> double -> double := SFadd 53 1024.
Definition dsub : double -> double -> double := SFsub 53 1024.
Definition dlt : double -> double -> bool := SFltb.
Definition dle : double -> double -> bool := SFleb.
Definition dzero : double := S754_zero false.
Definition done_ : double := S754_finite false 4503599627370496 (-52).
(** The double nearest to 1e-8. *)
Definition EPSILON : double := S754_finite false 6044629098073146 (-79).

#[export] Instance double_eq_dec : EqDecision double.
Proof. solve_decision. Defined.
#[export] Instance double_countable : Countable double.
Proof.
  refine (inj_countable'
    (fun d => match d with
     | S754_zero s => inl (inl s) | S754_infinity s => inl (inr s)
     | S754_nan => inr (inl ()) | S754_finite s m e => inr (inr (s, m, e)) end
     : (bool + bool) + (unit + (bool * positive * Z)))
    (fun x => match x with
     | inl (inl s) => S754_zero s | inl (inr s) => S754_infinity s
     | inr (inl _) => S754_nan | inr (inr (s, m, e)) => S754_finite s m e end) _).
  by intros [].
Defined.

(** ** Types and values *)

Inductive metric_val_type :=
  METRIC_VAL_STRING | METRIC_VAL_INT64 | METRIC_VAL_UINT64 | METRIC_VAL_DOUBLE.
Inductive metric_type := METRIC_GAUGE | METRIC_COUNTER.

(** The unions of [struct label_val] and [struct metric_val], and the arguments of
    the functions with variable arguments. *)
Inductive value :=
  | val_string (s : string) | val_int64 (z : Z) | val_uint64 (z : Z) | val_double (d : double).

#[export] Instance metric_val_type_eq_dec : EqDecision metric_val_type.
Proof. solve_decision. Defined.
#[export] Instance value_eq_dec : EqDecision value.
Proof. solve_decision. Defined.
#[export] Instance value_countable : Countable value.
Proof.
  refine (inj_countable'
    (fun v => match v with
     | val_string s => inl (inl s) | val_int64 z => inl (inr z)
     | val_uint64 z => inr (inl z) | val_double d => inr (inr d) end
     : (string + Z) + (Z + double))
    (fun x => match x with
     | inl (inl s) => val_string s | inl (inr z) => val_int64 z
     | inr (inl z) => val_uint64 z | inr (inr d) => val_double d end) _).
  by intros [].
Defined.

Definition value_type (v : value) : metric_val_type :=
  match v with
  | val_string _ => METRIC_VAL_STRING | val_int64 _ => METRIC_VAL_INT64
  | val_uint64 _ => METRIC_VAL_UINT64 | val_double _ => METRIC_VAL_DOUBLE
  end.

(** A value of the type, with an integer in its range. *)
Definition has_type (v : value) (t : metric_val_type) : bool :=
  match v, t with
  | val_string _, METRIC_VAL_STRING | val_double _, METRIC_VAL_DOUBLE => true
  | val_int64 z, METRIC_VAL_INT64 => (- 2 ^ 63 <=? z) && (z <? 2 ^ 63)
  | val_uint64 z, METRIC_VAL_UINT64 => (0 <=? z) && (z <? 2 ^ 64)
  | _, _ => false
  end.

(** [struct label]; the identity of a label stands for its address. *)
Record label := Label {
  l_id : positive; l_owner : option positive; l_name : string; l_type : metric_val_type }.

Definition metric_label_new (id : positive) (name : string) (type : metric_val_type) : label :=
  Label id None name type.

Record label_val := LabelVal { lv_label : label; lv_val : value }.

(** The part of [struct metric] that never changes after [metric_new]. *)
Record mdesc := Mdesc {
  d_id : positive; d_name : string; d_help : string; d_type : metric_type;
  d_val_type : metric_val_type; d_labels : list label }.

Abbreviation loc := positive.

(** What [le_prev] points to: the head of the list, or the [le_next] of a node. *)
Inductive lref := at_head | at_next (l : loc).

#[export] Instance lref_eq_dec : EqDecision lref.
Proof. solve_decision. Defined.

(** [struct metric_val]; the union is [None] while it is all zero bytes. *)
Record metric_val := MetricVal {
  le_next : option loc; le_prev : option lref; updated : Z;
  mv_metric : mdesc; mv_labels : list label_val; mv_value : option value }.

Definition set_next (n : option loc) (v : metric_val) : metric_val :=
  MetricVal n (le_prev v) (updated v) (mv_metric v) (mv_labels v) (mv_value v).
Definition set_prev (p : option lref) (v : metric_val) : metric_val :=
  MetricVal (le_next v) p (updated v) (mv_metric v) (mv_labels v) (mv_value v).
Definition set_updated (u : Z) (v : metric_val) : metric_val :=
  MetricVal (le_next v) (le_prev v) u (mv_metric v) (mv_labels v) (mv_value v).
Definition set_value (x : value) (v : metric_val) : metric_val :=
  MetricVal (le_next v) (le_prev v) (updated v) (mv_metric v) (mv_labels v) (Some x).

(** ** Comparison *)

Definition cmp3 (a b : Z) : Z := if a <? b then -1 else if b <? a then 1 else 0.

Definition cmp_double (a b : double) : Z :=
  let delta := dsub a b in
  if dle dzero delta && dlt delta EPSILON then 0
  else if dle delta dzero && dlt (SFopp EPSILON) delta then 0
  else if dlt delta dzero then -1
  else if dlt dzero delta then 1
  else 0.

Definition compare_label_val (a b : label_val) : ub Z :=
  if negb (l_id (lv_label a) =? l_id (lv_label b))%positive then UB exits
  else
    match l_type (lv_label a), lv_val a, lv_val b with
    | METRIC_VAL_STRING, val_string x, val_string y => Ok (strcmp x y)
    | METRIC_VAL_UINT64, val_uint64 x, val_uint64 y => Ok (cmp3 x y)
    | METRIC_VAL_INT64, val_int64 x, val_int64 y => Ok (cmp3 x y)
    | METRIC_VAL_DOUBLE, val_double x, val_double y => Ok (cmp_double x y)
    | _, _, _ => UB wrong_type
    end.

Fixpoint compare_label_vals (a b : list label_val) : ub Z :=
  match a, b with
  | x :: a', y :: b' =>
      res ← compare_label_val x y;
      if negb (res =? 0) then Ok res else compare_label_vals a' b'
  | _, _ => Ok 0
  end.

Definition compare_metric_vals (a b : metric_val) : ub Z :=
  let namecmp :=
    if negb (d_id (mv_metric a) =? d_id (mv_metric b))%positive
    then strcmp (d_name (mv_metric a)) (d_name (mv_metric b)) else 0 in
  if negb (namecmp =? 0) then Ok namecmp
  else compare_label_vals (mv_labels a) (mv_labels b).

(** ** Nodes and the [LIST] macros

    The nodes of a metric are in a store of their own; [malloc] gives an address
    that was never used. *)

Abbreviation store := (gmap loc metric_val).

Definition node (st : store) (l : loc) : ub metric_val :=
  match st !! l with Some v => Ok v | None => UB use_after_free end.

(** A write to fields of a node. *)
Definition poke (f : metric_val -> metric_val) (l : loc) (st : store) : ub store :=
  v ← node st l; Ok (<[l := f v]> st).

(** [LIST_INSERT_HEAD(head, elm, lentry)] *)
Definition LIST_INSERT_HEAD (first : option loc) (elm : loc) (st : store) : ub (store * option loc) :=
  st1 ← poke (set_next first) elm st;
  st2 ← match first with
        | Some f => poke (set_prev (Some (at_next elm))) f st1
        | None => Ok st1
        end;
  st3 ← poke (set_prev (Some at_head)) elm st2;
  Ok (st3, Some elm).

(** [LIST_REMOVE(elm, lentry)], for a node of the list with the given head *)
Definition LIST_REMOVE (first : option loc) (elm : loc) (st : store) : ub (store * option loc) :=
  v ← node st elm;
  st1 ← match le_next v with
        | Some n => poke (set_prev (le_prev v)) n st
        | None => Ok st
        end;
  v1 ← node st1 elm;
  match le_prev v1 with
  | Some at_head => Ok (st1, le_next v1)
  | Some (at_next p) => st2 ← poke (set_next (le_next v1)) p st1; Ok (st2, first)
  | None => UB null_deref
  end.

(** ** Metrics *)

(** [va_arg(va, t)] for the type that goes with a value type. *)
Definition va_arg (t : metric_val_type) (va : list value) : ub (value * list value) :=
  match va with
  | v :: va' => if decide (value_type v = t) then Ok (v, va') else UB wrong_type
  | [] => UB wrong_type
  end.

(** The loop of [vlabels]: the values of the labels, and the arguments left. *)
Fixpoint vlabels (labels : list label) (va : list value) : ub (list label_val * list value) :=
  match labels with
  | [] => Ok ([], va)
  | lbl :: labels' =>
      '(x, va1) ← va_arg (l_type lbl) va;
      '(vs, va2) ← vlabels labels' va1;
      Ok (LabelVal lbl x :: vs, va2)
  end.

Definition EINVAL : Z := 22.
Definition MAX_COUNTER_MASK : Z := 2 ^ 53 - 1.

(** The value that [metric_inc] gives to a new node, and what it makes of an old
    one. *)
Definition inc_new (t : metric_val_type) : option value :=
  match t with
  | METRIC_VAL_INT64 => Some (val_int64 1)
  | METRIC_VAL_UINT64 => Some (val_uint64 1)
  | METRIC_VAL_DOUBLE => Some (val_double done_)
  | METRIC_VAL_STRING => None
  end.

Definition inc_value (v : option value) : ub value :=
  match v with
  | Some (val_int64 z) => if z + 1 <? 2 ^ 63 then Ok (val_int64 (z + 1)) else UB signed_overflow
  | Some (val_uint64 z) => Ok (val_uint64 (u64 (z + 1)))
  | Some (val_double d) => Ok (val_double (dadd d done_))
  | _ => UB wrong_type
  end.

Section Registry.
Context {T P M MO : Type} `{RBCmp loc T}.

(** [struct metric]: [m_old] is the head of [old_values], [m_nodes] and [m_brk] the
    store of its nodes and the next new address. *)
Record metric := Metric {
  m_desc : mdesc; m_values : T; m_old : option loc; m_priv : option P; m_ops : MO;
  m_nodes : store; m_brk : loc }.

Definition with_list (m : metric) (sf : store * option loc) : metric :=
  Metric (m_desc m) (m_values m) sf.2 (m_priv m) (m_ops m) sf.1 (m_brk m).
Definition with_values (m : metric) (t : T) : metric :=
  Metric (m_desc m) t (m_old m) (m_priv m) (m_ops m) (m_nodes m) (m_brk m).
Definition with_nodes (m : metric) (st : store) : metric :=
  Metric (m_desc m) (m_values m) (m_old m) (m_priv m) (m_ops m) st (m_brk m).

(** [calloc] or [malloc] of a node. *)
Definition new_node (v : metric_val) (m : metric) : loc * metric :=
  (m_brk m,
   Metric (m_desc m) (m_values m) (m_old m) (m_priv m) (m_ops m)
     (<[m_brk m := v]> (m_nodes m)) (Pos.succ (m_brk m))).

(** [free_metric_val]; freeing a node twice is a fault. *)
Definition free_metric_val (l : loc) (m : metric) : ub metric :=
  _ ← node (m_nodes m) l; Ok (with_nodes m (delete l (m_nodes m))).

(** The comparison that the tree's macros were generated with. *)
Definition cmp_with (st : store) (v : metric_val) (l : loc) : Z :=
  match st !! l with
  | Some w => match compare_metric_vals v w with Ok z => z | UB _ => 0 end
  | None => 0
  end.
Definition cmp_nodes (st : store) (a b : loc) : Z :=
  match st !! a with Some v => cmp_with st v b | None => 0 end.

(** [LIST_REMOVE(omv, lentry); omv->updated = 1] when it is 0. *)
Definition refresh (omv : loc) (m : metric) : ub metric :=
  v ← node (m_nodes m) omv;
  if updated v =? 0 then
    sf ← LIST_REMOVE (m_old m) omv (m_nodes m);
    st ← poke (set_updated 1) omv sf.1;
    Ok (with_list m (st, sf.2))
  else Ok m.

Definition metric_push (m : metric) (va : list value) : ub (Z * metric) :=
  '(lvs, va1) ← vlabels (d_labels (m_desc m)) va;
  '(x, _) ← va_arg (d_val_type (m_desc m)) va1;
  let '(mv, m1) := new_node (MetricVal None None 1 (m_desc m) lvs (Some x)) m in
  let '(_, t) := rc_insert (cmp_nodes (m_nodes m1)) mv (m_values m1) in
  Ok (0, with_values m1 t).

Definition metric_inc (m : metric) (va : list value) : ub (Z * metric) :=
  '(lvs, va1) ← vlabels (d_labels (m_desc m)) va;
  let v0 := MetricVal None None 1 (m_desc m) lvs (inc_new (d_val_type (m_desc m))) in
  let '(mv, m1) := new_node v0 m in
  match inc_new (d_val_type (m_desc m)) with
  | None => Ok (EINVAL, m1)
  | Some _ =>
      match rc_find (cmp_with (m_nodes m1) v0) (m_values m1) with
      | Some omv =>
          m2 ← refresh omv m1;
          v ← node (m_nodes m2) omv;
          x ← inc_value (mv_value v);
          st ← poke (set_value x) omv (m_nodes m2);
          m3 ← free_metric_val mv (with_nodes m2 st);
          Ok (0, m3)
      | None =>
          let '(_, t) := rc_insert (cmp_nodes (m_nodes m1)) mv (m_values m1) in
          Ok (0, with_values m1 t)
      end
  end.

(** The part of [metric_update] after [mv = r->tmp]: [mv] is the scratch node of
    the registry, whose content is built anew at each call. *)
Definition metric_update (m : metric) (va : list value) : ub (Z * metric) :=
  '(lvs, va1) ← vlabels (d_labels (m_desc m)) va;
  '(x, _) ← va_arg (d_val_type (m_desc m)) va1;
  let v0 := MetricVal None None 1 (m_desc m) lvs (Some x) in
  match rc_find (cmp_with (m_nodes m) v0) (m_values m) with
  | Some omv =>
      m2 ← refresh omv m;
      st ← poke (set_value x) omv (m_nodes m2);
      Ok (0, with_nodes m2 st)
  | None =>
      let '(tmp, m1) := new_node v0 m in
      let '(_, t) := rc_insert (cmp_nodes (m_nodes m1)) tmp (m_values m1) in
      Ok (0, with_values m1 t)
  end.

(** The loop of [metric_clear] over the nodes, first to last. *)
Fixpoint clear_loop (ls : list loc) (m : metric) : ub metric :=
  match ls with
  | [] => Ok m
  | l :: ls' =>
      let m1 := with_values m (rc_remove l (m_values m)) in
      v ← node (m_nodes m1) l;
      m2 ← (if updated v =? 0
            then sf ← LIST_REMOVE (m_old m1) l (m_nodes m1); Ok (with_list m1 sf)
            else Ok m1);
      m3 ← free_metric_val l m2;
      clear_loop ls' m3
  end.

Definition metric_clear (m : metric) : ub metric := clear_loop (rc_elems (m_values m)) m.

(** The loop of [metric_clear_old_values]; the fuel counts its turns. *)
Fixpoint clear_old_loop (fuel : nat) (m : metric) : ub metric :=
  match m_old m with
  | None => Ok m
  | Some mv =>
      match fuel with
      | O => UB no_fuel
      | S fuel' =>
          sf ← LIST_REMOVE (m_old m) mv (m_nodes m);
          let m1 := with_list m sf in
          m2 ← free_metric_val mv (with_values m1 (rc_remove mv (m_values m1)));
          clear_old_loop fuel' m2
      end
  end.

Definition metric_clear_old_values (m : metric) : ub metric :=
  clear_old_loop (S (size (m_nodes m))) m.

(** The first loop of [registry_collect], for one metric: every value is old. *)
Fixpoint mark_loop (ls : list loc) (m : metric) : ub metric :=
  match ls with
  | [] => Ok m
  | mv :: ls' =>
      st ← poke (set_updated 0) mv (m_nodes m);
      sf ← LIST_INSERT_HEAD (m_old m) mv st;
      mark_loop ls' (with_list m sf)
  end.

Definition mark_old (m : metric) : ub metric := mark_loop (rc_elems (m_values m)) m.

(** ** Registries *)

(** [struct registry]: the modules with their private data, newest first, the
    metrics, newest first, whether [tmp] is allocated, and the number that the next
    metric or label gets for its identity. *)
Record registry := Registry {
  r_mods : list (M * option P); r_metrics : list metric; r_tmp : bool; r_ids : positive }.

Definition registry_new_empty : registry := Registry [] [] false 1.

Definition with_metrics (r : registry) (ms : list metric) : registry :=
  Registry (r_mods r) ms (r_tmp r) (r_ids r).

(** Labels get their metric, and are linked in the order of the arguments. *)
Definition own_labels (id : positive) (ls : list label) : list label :=
  (fun l => Label (l_id l) (Some id) (l_name l) (l_type l)) <$> ls.

(** [metric_new]: the new metric is the first of the list; [ops] is read without a
    test for NULL. *)
Definition metric_new (r : registry) (name help : string) (type : metric_type)
    (vtype : metric_val_type) (priv : option P) (ops : option MO) (labels : list label) :
    ub (positive * registry) :=
  o ← deref ops;
  let id := r_ids r in
  let m := Metric (Mdesc id name help type vtype (own_labels id labels))
             rc_empty None priv o ∅ 1 in
  Ok (id, Registry (r_mods r) (m :: r_metrics r) (r_tmp r) (Pos.succ id)).

(** A label with a new identity. *)
Definition new_label (r : registry) (name : string) (type : metric_val_type) : label * registry :=
  (metric_label_new (r_ids r) name type,
   Registry (r_mods r) (r_metrics r) (r_tmp r) (Pos.succ (r_ids r))).

(** An operation on the metric that a pointer leads to. *)
Fixpoint at_metric {A} (id : positive) (f : metric -> ub (A * metric)) (ms : list metric) :
    ub (A * list metric) :=
  match ms with
  | [] => UB use_after_free
  | m :: ms' =>
      if (d_id (m_desc m) =? id)%positive
      then '(a, m') ← f m; Ok (a, m' :: ms')
      else '(a, ms1) ← at_metric id f ms'; Ok (a, m :: ms1)
  end.

Definition on_metric {A} (id : positive) (f : metric -> ub (A * metric)) (r : registry) :
    ub (A * registry) :=
  '(a, ms) ← at_metric id f (r_metrics r); Ok (a, with_metrics r ms).

(** [metric_update], with the scratch node of the registry: it is allocated at the
    first call. *)
Definition registry_update (id : positive) (va : list value) (r : registry) : ub (Z * registry) :=
  on_metric id (fun m => metric_update m va) (Registry (r_mods r) (r_metrics r) true (r_ids r)).

Definition registry_clear_old (id : positive) (r : registry) : ub registry :=
  '(_, r') ← on_metric id (fun m => m' ← metric_clear_old_values m; Ok ((), m')) r; Ok r'.

(** The callbacks: [mm_collect] and [mo_collect] may be NULL, and [mm_collect] gives
    the private data that the module has afterwards; [mo_free] and
    [mm_free] are called when there is private data, and [true] means that they are
    not NULL. *)
Record callbacks := Callbacks {
  mm_register : M -> registry -> ub (option P * registry);
  mm_collect : M -> option (option P -> registry -> ub (Z * option P * registry));
  mm_free : M -> bool;
  mo_collect : MO -> option (positive -> option P -> registry -> ub (Z * registry));
  mo_free : MO -> bool }.

Section Calls.
Context (cb : callbacks) (modops : list M).

Fixpoint build_loop (ops : list M) (r : registry) : ub registry :=
  match ops with
  | [] => Ok r
  | o :: ops' =>
      '(priv, r1) ← mm_register cb o (Registry ((o, None) :: r_mods r) (r_metrics r) (r_tmp r) (r_ids r));
      build_loop ops' (Registry ((o, priv) :: r_mods r) (r_metrics r1) (r_tmp r1) (r_ids r1))
  end.

Definition registry_build : ub registry := build_loop modops registry_new_empty.

(** [m = m->next] over all metrics, marking their values as old. *)
Fixpoint mark_all (ms : list metric) : ub (list metric) :=
  match ms with
  | [] => Ok []
  | m :: ms' => m' ← mark_old m; ms1 ← mark_all ms'; Ok (m' :: ms1)
  end.

Fixpoint collect_mods (mods : list (M * option P)) (r : registry) :
    ub (Z * list (M * option P) * registry) :=
  match mods with
  | [] => Ok (0, [], r)
  | (o, priv) :: mods' =>
      match mm_collect cb o with
      | Some f =>
          '(rc, priv', r1) ← f priv r;
          if nz rc then Ok (rc, (o, priv') :: mods', r1)
          else '(rc', ms, r2) ← collect_mods mods' r1; Ok (rc', (o, priv') :: ms, r2)
      | None => '(rc', ms, r2) ← collect_mods mods' r; Ok (rc', (o, priv) :: ms, r2)
      end
  end.

Fixpoint collect_metrics (ms : list (positive * MO * option P)) (r : registry) : ub (Z * registry) :=
  match ms with
  | [] => Ok (0, r)
  | (id, o, priv) :: ms' =>
      match mo_collect cb o with
      | Some f =>
          '(rc, r1) ← f id priv r;
          if nz rc then Ok (rc, r1) else collect_metrics ms' r1
      | None => collect_metrics ms' r
      end
  end.

Definition registry_collect (r : registry) : ub (Z * registry) :=
  ms ← mark_all (r_metrics r);
  '(rc, mods, r1) ← collect_mods (r_mods r) (with_metrics r ms);
  let r2 := Registry mods (r_metrics r1) (r_tmp r1) (r_ids r1) in
  if nz rc then Ok (rc, r2)
  else collect_metrics ((fun m => (d_id (m_desc m), m_ops m, m_priv m)) <$> r_metrics r2) r2.

(** [free_metric] and [registry_free], with the private data given to the
    callbacks in the order of the calls. *)
Definition free_metric (m : metric) : ub (list P) :=
  ps ← match m_priv m with
       | Some p => if mo_free cb (m_ops m) then Ok [p] else UB null_deref
       | None => Ok []
       end;
  _ ← metric_clear m; Ok ps.

Fixpoint free_metrics (ms : list metric) : ub (list P) :=
  match ms with
  | [] => Ok []
  | m :: ms' => ps ← free_metric m; qs ← free_metrics ms'; Ok (ps ++ qs)%list
  end.

Fixpoint free_mods (mods : list (M * option P)) : ub (list P) :=
  match mods with
  | [] => Ok []
  | (o, priv) :: mods' =>
      ps ← match priv with
           | Some p => if mm_free cb o then Ok [p] else UB null_deref
           | None => Ok []
           end;
      qs ← free_mods mods'; Ok (ps ++ qs)%list
  end.

Definition registry_free (r : registry) : ub (list P) :=
  ps ← free_metrics (r_metrics r); qs ← free_mods (r_mods r); Ok (ps ++ qs)%list.
End Calls.

(** ** Printing *)

Definition nl : string := String (Ascii.ascii_of_nat 10) EmptyString.
Definition tab : string := String (Ascii.ascii_of_nat 9) EmptyString.
Definition dquote : string := String (Ascii.ascii_of_nat 34) EmptyString.

(** [%f] of a finite double [m * 2^e]: six decimals, the exact value rounded to
    nearest, ties to even. *)
Definition round_half_even (n d : Z) : Z :=
  let q := n / d in
  match (2 * (n mod d)) ?= d with
  | Lt => q
  | Gt => q + 1
  | Eq => if Z.even q then q else q + 1
  end.

Definition millionths (m e : Z) : Z :=
  if 0 <=? e then m * 2 ^ e * 10 ^ 6 else round_half_even (m * 10 ^ 6) (2 ^ (- e)).

Definition pad6 (z : Z) : string :=
  let s := pretty z in
  (String.substring 0 (6 - String.length s) "000000" ++ s)%string.

Definition fmt_sign (s : bool) (t : string) : string := if s then ("-" ++ t)%string else t.

Definition fmt_f (d : double) : string :=
  match d with
  | S754_zero s => fmt_sign s "0.000000"
  | S754_infinity s => fmt_sign s "inf"
  | S754_nan => "nan"
  | S754_finite s m e =>
      let u := millionths (Zpos m) e in
      fmt_sign s (pretty (u / 10 ^ 6) ++ "." ++ pad6 (u mod 10 ^ 6))
  end%string.

Definition print_value (v : value) : string :=
  match v with
  | val_string s => s
  | val_int64 z | val_uint64 z => pretty z
  | val_double d => fmt_f d
  end.

Definition print_label_val (lv : label_val) : string :=
  (l_name (lv_label lv) ++ "=" ++ dquote ++ print_value (lv_val lv) ++ dquote)%string.

Fixpoint print_label_vals (lvs : list label_val) : string :=
  match lvs with
  | [] => ""
  | [lv] => print_label_val lv
  | lv :: lvs' => (print_label_val lv ++ ", " ++ print_label_vals lvs')%string
  end.

(** The number that is printed for an unsigned value: counters are masked. *)
Definition shown_uint64 (t : metric_type) (uv : Z) : Z :=
  match t with METRIC_COUNTER => Z.land uv MAX_COUNTER_MASK | METRIC_GAUGE => uv end.

Definition print_metric_val (mv : metric_val) : string :=
  let m := mv_metric mv in
  (d_name m ++
   match mv_labels mv with [] => "" | lvs => "{" ++ print_label_vals lvs ++ "}" end ++
   tab ++
   match mv_value mv with
   | Some (val_uint64 uv) => pretty (shown_uint64 (d_type m) uv)
   | Some v => print_value v
   | None => ""
   end ++ nl)%string.

Definition type_name (t : metric_type) : string :=
  match t with METRIC_GAUGE => "gauge" | METRIC_COUNTER => "counter" end.

Fixpoint print_nodes (st : store) (ls : list loc) : ub string :=
  match ls with
  | [] => Ok ""
  | l :: ls' => v ← node st l; s ← print_nodes st ls'; Ok (print_metric_val v ++ s)%string
  end.

Definition print_metric (m : metric) : ub string :=
  let d := m_desc m in
  s ← print_nodes (m_nodes m) (rc_elems (m_values m));
  Ok ("# HELP " ++ d_name d ++ " " ++ d_help d ++ nl ++
      "# TYPE " ++ d_name d ++ " " ++ type_name (d_type d) ++ nl ++ s)%string.

Fixpoint print_metrics (ms : list metric) : ub string :=
  match ms with
  | [] => Ok ""
  | m :: ms' => s ← print_metric m; t ← print_metrics ms'; Ok (s ++ t)%string
  end.

Definition print_registry (r : registry) : ub string := print_metrics (r_metrics r).
End Registry.

Arguments metric : clear implicits.
Arguments registry : clear implicits.
Arguments callbacks : clear implicits.

(** ** Properties of the numbers *)

(** A counter is printed modulo 2^53, so that Prometheus can hold it in a double
    without loss; a gauge is printed as it is. *)
Theorem counter_shown uv : 0 <= uv < 2 ^ 64 ->
  shown_uint64 METRIC_COUNTER uv = uv mod 2 ^ 53 /\
  0 <= shown_uint64 METRIC_COUNTER uv <= MAX_COUNTER_MASK /\
  (uv <= MAX_COUNTER_MASK -> shown_uint64 METRIC_COUNTER uv = shown_uint64 METRIC_GAUGE uv).
Proof.
  intros Huv. unfold shown_uint64, MAX_COUNTER_MASK.
  change (2 ^ 53 - 1) with (Z.ones 53). rewrite Z.land_ones by lia.
  change (Z.ones 53) with (2 ^ 53 - 1). pose proof (Z.mod_pos_bound uv (2 ^ 53)).
  split_and!; [done|lia|lia|]. intros Hle. apply Z.mod_small. lia.
Qed.

(** The comparison of label values of type double is not an order: with values half
    of [EPSILON] apart the first equals the second and the second the
    third, and yet the first is before the third. *)
Theorem double_labels_not_ordered :
  let x n := val_double (SFmul 53 1024 (binary_normalize 53 1024 n 0 false) (SFmul 53 1024 EPSILON (S754_finite false 4503599627370496 (-53)))) in
  let lv n := LabelVal (Label 1 None "le" METRIC_VAL_DOUBLE) (x n) in
  compare_label_val (lv 0) (lv 1) = Ok 0 /\ compare_label_val (lv 1) (lv 2) = Ok 0 /\
  compare_label_val (lv 0) (lv 2) = Ok (-1).
Proof. vm_compute. done. Qed.

Lemma counter_shown_witness :
  shown_uint64 METRIC_COUNTER (2 ^ 53 + 5) = (2 ^ 53 + 5) mod 2 ^ 53 /\
  0 <= shown_uint64 METRIC_COUNTER (2 ^ 53 + 5) <= MAX_COUNTER_MASK /\
  (2 ^ 53 + 5 <= MAX_COUNTER_MASK ->
   shown_uint64 METRIC_COUNTER (2 ^ 53 + 5) = shown_uint64 METRIC_GAUGE (2 ^ 53 + 5)).
Proof. apply (counter_shown (2 ^ 53 + 5)). lia. Defined.
