(* ===== verification/MetricsProofs.v ===== *)
(** * Theorems about the metrics registry (Metrics.v)

    The list of the old values is a list ([mvallist]), with [LIST_INSERT_HEAD] and
    [LIST_REMOVE] as the operations on it; the order of the labels is a total order when
    no label is a double; every operation keeps a metric well formed ([metric_ok]) and
    does to it what [spec_op] does to a finite map from label values to values. *)

From S2P Require Import Prelude RBTree Metrics.
From Stdlib Require Import SpecFloat.

#[local] Open Scope string_scope.
#[local] Open Scope Z_scope.
#[local] Close Scope string_scope.

(** ** The list [old_values]

    [seg st p l nx]: the nodes [l] are linked in this order, the first one being
    reached from [p] and the last one leading to [nx]. *)

Fixpoint seg (st : store) (p : lref) (l : list loc) (nx : option loc) : Prop :=
  match l with
  | [] => True
  | x :: l' => exists v, st !! x = Some v /\ le_prev v = Some p /\
      le_next v = from_option Some nx (head l') /\ seg st (at_next x) l' nx
  end.

(** The last link of a segment. *)
Definition last_ref (p : lref) (l : list loc) : lref := from_option at_next p (last l).

(** The list with this head has the nodes [l]. *)
Definition mvallist (st : store) (first : option loc) (l : list loc) : Prop :=
  first = head l /\ seg st at_head l None /\ NoDup l.

(** A node but for its links. *)
Definition strip (v : metric_val) : metric_val := set_next None (set_prev None v).
Abbreviation data st := (strip <$> st).

Lemma seg_ne st p l nx x v : x ∉ l -> seg st p l nx -> seg (<[x := v]> st) p l nx.
Proof.
  revert p; induction l as [|y l IH]; intros p Hx; simpl; [done|].
  intros (w & Hw & Hp & Hn & Hl). exists w. rewrite lookup_insert_ne by set_solver.
  split_and!; try done. apply IH; set_solver.
Qed.

Lemma seg_delete st p l nx x : x ∉ l -> seg st p l nx -> seg (delete x st) p l nx.
Proof.
  revert p; induction l as [|y l IH]; intros p Hx; simpl; [done|].
  intros (w & Hw & Hp & Hn & Hl). exists w. rewrite lookup_delete_ne by set_solver.
  split_and!; try done. apply IH; set_solver.
Qed.

Lemma last_ref_cons p x l : last_ref p (x :: l) = last_ref (at_next x) l.
Proof. unfold last_ref. rewrite last_cons. by destruct (last l). Qed.

Lemma seg_app st p l1 l2 nx :
  seg st p (l1 ++ l2) nx <->
  seg st p l1 (from_option Some nx (head l2)) /\ seg st (last_ref p l1) l2 nx.
Proof.
  revert p; induction l1 as [|x l1 IH]; intros p; [naive_solver|].
  rewrite last_ref_cons. simpl. setoid_rewrite IH.
  destruct l1; simpl; naive_solver.
Qed.

Lemma seg_lookup st p l nx x : seg st p l nx -> x ∈ l -> is_Some (st !! x).
Proof.
  revert p; induction l as [|y l IH]; intros p; simpl; [set_solver|].
  intros (v & Hv & _ & _ & Hl) [->|Hx]%elem_of_cons; eauto.
Qed.

Lemma data_insert (st : store) x v w : st !! x = Some v -> strip w = strip v -> data (<[x := w]> st) = data st.
Proof.
  intros Hv Hs. rewrite fmap_insert, Hs. apply insert_id. by rewrite lookup_fmap, Hv.
Qed.

Lemma data_lookup (st st' : store) x v :
  data st' = data st -> st !! x = Some v -> exists v', st' !! x = Some v' /\ strip v' = strip v.
Proof.
  intros Hd Hv. assert (data st' !! x = Some (strip v)) as Hx by (by rewrite Hd, lookup_fmap, Hv).
  rewrite lookup_fmap in Hx. destruct (st' !! x) as [v'|]; [|done].
  exists v'. split; [done|]. by apply (inj Some).
Qed.

Lemma poke_Ok f x st v : st !! x = Some v -> poke f x st = Ok (<[x := f v]> st).
Proof. intros Hv. unfold poke, node. by rewrite Hv. Qed.

(** The head of a segment may be linked from elsewhere. *)
Lemma seg_relink st p q x l nx v :
  st !! x = Some v -> x ∉ l -> seg st p (x :: l) nx ->
  seg (<[x := set_prev (Some q) v]> st) q (x :: l) nx.
Proof.
  intros Hv Hx (v' & Hv' & Hp & Hn & Hl). simplify_eq. exists (set_prev (Some q) v).
  rewrite lookup_insert_eq. split_and!; try done. by apply seg_ne.
Qed.

Lemma seg_relink_last st p l y nx nx' v :
  st !! y = Some v -> y ∉ l -> seg st p (l ++ [y]) nx ->
  seg (<[y := set_next nx' v]> st) p (l ++ [y]) nx'.
Proof.
  rewrite !seg_app. simpl. intros Hv Hy (Hl & v' & Hv' & Hp & Hn & _). simplify_eq.
  split; [by apply seg_ne|]. exists (set_next nx' v). by rewrite lookup_insert_eq.
Qed.

Lemma insert_head_spec st first l x v :
  mvallist st first l -> st !! x = Some v -> x ∉ l ->
  exists st', LIST_INSERT_HEAD first x st = Ok (st', Some x) /\
    mvallist st' (Some x) (x :: l) /\ data st' = data st.
Proof.
  intros (-> & Hs & Hnd) Hv Hx. unfold LIST_INSERT_HEAD.
  rewrite (poke_Ok _ _ _ v) by done. simpl.
  set (st1 := <[x := set_next (head l) v]> st).
  assert (Hs1 : seg st1 at_head l None) by (by apply seg_ne).
  assert (Hx1 : st1 !! x = Some (set_next (head l) v)) by (by apply lookup_insert_eq).
  assert (Hd1 : data st1 = data st) by (by apply (data_insert _ _ v)).
  assert (exists st2, match head l with
      | Some f => poke (set_prev (Some (at_next x))) f st1 | None => Ok st1 end = Ok st2 /\
    seg st2 (at_next x) l None /\ st2 !! x = st1 !! x /\ data st2 = data st1)
    as (st2 & -> & Hs2 & Hx2 & Hd2).
  { destruct l as [|f l]; simpl; [by exists st1|].
    pose proof Hs1 as (w & Hw & _). rewrite (poke_Ok _ _ _ w) by done. eexists. split_and!; [done|..].
    - apply (seg_relink _ at_head); [done| |done]. by apply NoDup_cons in Hnd as [? _].
    - apply lookup_insert_ne. set_solver.
    - by apply (data_insert _ _ w). }
  simpl. rewrite Hx1 in Hx2. rewrite (poke_Ok _ _ _ _ Hx2). simpl. eexists. split_and!; [done|..].
  - split_and!; [done| |by constructor].
    eexists. rewrite lookup_insert_eq. split_and!; try done; [simpl; by destruct l|by apply seg_ne].
  - rewrite (data_insert _ _ _ _ Hx2) by done. congruence.
Qed.

Lemma remove_spec st first l1 x l2 :
  mvallist st first (l1 ++ x :: l2) ->
  exists st' first', LIST_REMOVE first x st = Ok (st', first') /\
    mvallist st' first' (l1 ++ l2) /\ data st' = data st.
Proof.
  intros (-> & Hs & Hnd). apply seg_app in Hs as [Hs1 (v & Hv & Hp & Hn & Hs2)].
  pose proof Hnd as (Hnd1 & Hdis & [Hx2 Hnd2]%NoDup_cons)%NoDup_app.
  assert (Hx1 : x ∉ l1) by (intros ?; eapply Hdis; [done|by left]).
  unfold LIST_REMOVE, node. rewrite Hv. simpl.
  assert (exists st1, match le_next v with
      | Some n => poke (set_prev (le_prev v)) n st | None => Ok st end = Ok st1 /\
    seg st1 at_head l1 (Some x) /\ seg st1 (last_ref at_head l1) l2 None /\
    st1 !! x = Some v /\ data st1 = data st) as (st1 & -> & Hs1' & Hs2' & Hx & Hd1).
  { rewrite Hn, Hp. destruct l2 as [|n l2]; simpl; [by exists st|].
    pose proof Hs2 as (w & Hw & _). rewrite (poke_Ok _ _ _ w) by done. eexists. split_and!; [done|..].
    - apply seg_ne; [|done]. intros ?. eapply (Hdis n); [done|by right; left].
    - apply (seg_relink _ (at_next x)); [done| |done]. by apply NoDup_cons in Hnd2 as [? _].
    - rewrite lookup_insert_ne by set_solver. done.
    - by apply (data_insert _ _ w). }
  simpl. rewrite Hx. simpl. rewrite Hp, Hn.
  assert (Hnd' : NoDup (l1 ++ l2)).
  { apply NoDup_app. split_and!; try done. intros y Hy Hy2. eapply Hdis; [done|by right]. }
  destruct l1 as [|p l0 _] using rev_ind; simpl.
  - eexists _, _. split_and!; [done| |done]. split_and!; [by destruct l2|done|done].
  - unfold last_ref in *. rewrite last_snoc in *. simpl in *.
    assert (is_Some (st1 !! p)) as [w Hw] by (eapply seg_lookup; [exact Hs1'|set_solver]).
    rewrite (poke_Ok _ _ _ w) by done. eexists _, _. split_and!; [done| |].
    + split_and!; [by destruct l0| |done]. apply seg_app. split.
      * eapply seg_relink_last; [done| |done]. apply NoDup_app in Hnd1 as (_ & Hp0 & _). set_solver.
      * unfold last_ref. rewrite last_snoc. apply seg_ne; [|done].
        apply NoDup_app in Hnd' as (_ & Hp0 & _). set_solver.
    + by rewrite (data_insert _ _ w) by done.
Qed.

Lemma filter_ne_id (x : loc) (l : list loc) : x ∉ l -> filter (.≠ x) l = l.
Proof.
  induction l as [|y l IH]; intros Hl; [done|].
  rewrite filter_cons_True by set_solver. f_equal. apply IH. set_solver.
Qed.

Lemma filter_ne_split (l1 : list loc) x l2 :
  NoDup (l1 ++ x :: l2) -> filter (.≠ x) (l1 ++ x :: l2) = l1 ++ l2.
Proof.
  intros Hnd. pose proof Hnd as (_ & Hd & [Hx _]%NoDup_cons)%NoDup_app.
  rewrite filter_app, filter_cons_False by naive_solver.
  rewrite !filter_ne_id; [done|done|]. intros Hx1. eapply Hd; [done|by left].
Qed.

(** [LIST_REMOVE] takes one node out of the list and changes nothing but links. *)
Lemma remove_elem_spec st first l x :
  mvallist st first l -> x ∈ l ->
  exists st' first', LIST_REMOVE first x st = Ok (st', first') /\
    mvallist st' first' (filter (.≠ x) l) /\ data st' = data st.
Proof.
  intros Hl (l1 & l2 & ->)%list_elem_of_split.
  rewrite filter_ne_split by apply Hl. by apply remove_spec.
Qed.

(** ** The order of the labels *)

Definition vcmp (a b : value) : Z :=
  match a, b with
  | val_string x, val_string y => strcmp x y
  | val_int64 x, val_int64 y | val_uint64 x, val_uint64 y => cmp3 x y
  | val_double x, val_double y => cmp_double x y
  | _, _ => 0
  end.

Fixpoint klex (a b : list value) : Z :=
  match a, b with
  | x :: a', y :: b' => if negb (vcmp x y =? 0) then vcmp x y else klex a' b'
  | _, _ => 0
  end.

Definition exact_type (t : metric_val_type) : bool :=
  match t with METRIC_VAL_DOUBLE => false | _ => true end.

(** The values of a key have the types of the labels. *)
Definition key_ok (ts : list metric_val_type) (k : list value) : Prop := Forall2 has_type k ts.

Lemma cmp3_sym a b : cmp3 b a = - cmp3 a b.
Proof. unfold cmp3. repeat case_if; cbool; lia. Qed.
Lemma cmp3_zero a b : cmp3 a b = 0 <-> a = b.
Proof. unfold cmp3. repeat case_if; cbool; lia. Qed.
Lemma cmp3_trans a b c : cmp3 a b < 0 -> cmp3 b c < 0 -> cmp3 a c < 0.
Proof. unfold cmp3. repeat case_if; cbool; lia. Qed.

Section Exact.
Context (t : metric_val_type) (Ht : exact_type t).

Lemma vcmp_sym a b : has_type a t -> has_type b t -> vcmp b a = - vcmp a b.
Proof. destruct t, a, b; simpl; intros; (done || apply strcmp_sym || apply cmp3_sym). Qed.

Lemma vcmp_zero a b : has_type a t -> has_type b t -> vcmp a b = 0 <-> a = b.
Proof.
  destruct t, a, b; simpl; intros; try done;
    rewrite ?strcmp_zero, ?cmp3_zero; naive_solver.
Qed.

Lemma vcmp_trans a b c : has_type a t -> has_type b t -> has_type c t ->
  vcmp a b < 0 -> vcmp b c < 0 -> vcmp a c < 0.
Proof. destruct t, a, b, c; simpl; intros ???; (done || apply strcmp_trans || apply cmp3_trans). Qed.
End Exact.

Section ExactKeys.
Context (ts : list metric_val_type) (Hts : Forall exact_type ts).

Lemma klex_sym a b : key_ok ts a -> key_ok ts b -> klex b a = - klex a b.
Proof using Hts.
  intros Ha. revert b. induction Ha as [|x t a ts' Hx Ha IH]; intros b Hb; inversion Hb; subst; [done|].
  apply Forall_cons in Hts as [Ht Hts']. simpl. rewrite (vcmp_sym t Ht) by done.
  repeat case_if; cbool; try lia. by apply IH.
Qed.

Lemma klex_zero a b : key_ok ts a -> key_ok ts b -> klex a b = 0 <-> a = b.
Proof using Hts.
  intros Ha. revert b. induction Ha as [|x t a ts' Hx Ha IH]; intros b Hb;
    inversion Hb as [|y t1 b' ts1 Hy Hb']; subst; [done|].
  apply Forall_cons in Hts as [Ht Hts']. simpl.
  pose proof (vcmp_zero t Ht x y ltac:(done) ltac:(done)) as Hz.
  case_if; cbool; [naive_solver|]. rewrite IH by done. naive_solver.
Qed.

Lemma klex_trans a b c : key_ok ts a -> key_ok ts b -> key_ok ts c ->
  klex a b < 0 -> klex b c < 0 -> klex a c < 0.
Proof using Hts.
  intros Ha. revert b c. induction Ha as [|x t a ts' Hx Ha IH]; intros b c Hb Hc;
    inversion Hb as [|y t1 b' ts1 Hy Hb']; inversion Hc as [|z t2 c' ts2 Hz Hc']; subst; [simpl; lia|].
  apply Forall_cons in Hts as [Ht Hts']. simpl.
  pose proof (vcmp_zero t Ht x y Hx Hy). pose proof (vcmp_zero t Ht y z Hy Hz).
  pose proof (vcmp_zero t Ht x z Hx Hz). pose proof (vcmp_trans t Ht x y z Hx Hy Hz).
  destruct (decide (x = y)) as [->|]; destruct (decide (y = z)) as [->|];
    repeat case_if; cbool; intros; try (by apply (IH Hts' b' c')); try lia; try naive_solver lia.
Qed.
End ExactKeys.

(** ** Well-formed metrics *)

Definition key (v : metric_val) : list value := lv_val <$> mv_labels v.
Definition label_types (d : mdesc) : list metric_val_type := l_type <$> d_labels d.

(** A node of a metric has the metric's labels, and its label values and its value
    have the types that the metric gives. *)
Record val_ok (d : mdesc) (v : metric_val) : Prop := {
  vo_metric : mv_metric v = d;
  vo_labels : lv_label <$> mv_labels v = d_labels d;
  vo_key : key_ok (label_types d) (key v);
  vo_value : exists x, mv_value v = Some x /\ has_type x (d_val_type d);
  vo_updated : updated v = 0 \/ updated v = 1 }.

(** The nodes [D] (up to links) of a metric with tree [elems] and old values [olds]. *)
Record state_ok (d : mdesc) (D : store) (elems olds : list loc) (brk : loc) : Prop := {
  so_nodup : NoDup elems;
  so_vals l : l ∈ elems -> exists v, D !! l = Some v /\ val_ok d v;
  so_sorted : cmp_sorted (cmp_nodes D) elems;
  so_old l : l ∈ olds <-> l ∈ elems /\ exists v, D !! l = Some v /\ updated v = 0;
  so_brk l : is_Some (D !! l) -> (l < brk)%positive }.

(** What a metric promises: its values by the values of their labels, each with its
    flag [updated]. *)
Definition abs_node (D : store) (l : loc) : option (list value * (value * Z)) :=
  v ← D !! l; x ← mv_value v; Some (key v, (x, updated v)).
Definition abs_of (D : store) (elems : list loc) : gmap (list value) (value * Z) :=
  list_to_map (omap (abs_node D) elems).

Lemma val_ok_strip d v : val_ok d v -> val_ok d (strip v).
Proof. intros []. by constructor. Qed.

Lemma compare_ok d v w : val_ok d v -> val_ok d w ->
  compare_metric_vals v w = Ok (klex (key v) (key w)).
Proof.
  intros [Hm Hl Hk _ _] [Hm' Hl' Hk' _ _]. unfold compare_metric_vals.
  rewrite Hm, Hm', Pos.eqb_refl. simpl.
  unfold key, label_types in *. revert Hk Hk'. rewrite <- Hl in Hl' |- *. clear Hl.
  revert Hl'. generalize (mv_labels w). induction (mv_labels v) as [|[lb x] lvs IH];
    intros [|[lb' y] lvs']; simpl; intros Hl Hk Hk'; try done.
  injection Hl as <- Hl. inversion Hk; inversion Hk'; subst.
  unfold compare_label_val. simpl. rewrite Pos.eqb_refl. simpl.
  assert (match l_type lb', x, y with
    | METRIC_VAL_STRING, val_string x, val_string y => Ok (strcmp x y)
    | METRIC_VAL_INT64, val_int64 x, val_int64 y
    | METRIC_VAL_UINT64, val_uint64 x, val_uint64 y => Ok (cmp3 x y)
    | METRIC_VAL_DOUBLE, val_double x, val_double y => Ok (cmp_double x y)
    | _, _, _ => UB wrong_type end = Ok (vcmp x y)) as ->
    by (destruct (l_type lb'), x, y; simpl in *; done).
  simpl. case_if; [done|]. by apply IH.
Qed.

Section State.
Context (d : mdesc) (Hd : Forall exact_type (label_types d)).

Lemma cmp_with_ok D v l w : val_ok d v -> D !! l = Some w -> val_ok d w ->
  cmp_with D v l = klex (key v) (key w).
Proof using. intros Hv Hl Hw. unfold cmp_with. by rewrite Hl, (compare_ok d). Qed.

Lemma cmp_nodes_ok D a b v w : D !! a = Some v -> D !! b = Some w -> val_ok d v -> val_ok d w ->
  cmp_nodes D a b = klex (key v) (key w).
Proof using. intros Ha Hb Hv Hw. unfold cmp_nodes. rewrite Ha. by apply cmp_with_ok. Qed.

Lemma sorted_ext {A} (R R' : A -> A -> Prop) l :
  (forall x y, x ∈ l -> y ∈ l -> R x y -> R' x y) -> StronglySorted R l -> StronglySorted R' l.
Proof using.
  intros Hr. induction 1 as [|x l Hl IH Hx]; [by constructor|]. constructor.
  - apply IH. intros y z Hy Hz Hyz. apply Hr; [by right|by right|done].
  - apply Forall_forall. intros y Hy. rewrite Forall_forall in Hx.
    apply Hr; [by left|by right|by apply Hx].
Qed.

Lemma klex_refl ts k : key_ok ts k -> Forall exact_type ts -> klex k k = 0.
Proof using. intros Hk Hts. by apply (klex_zero ts). Qed.

Lemma abs_lookup D elems olds brk k x u :
  state_ok d D elems olds brk ->
  abs_of D elems !! k = Some (x, u) <->
  exists l v, l ∈ elems /\ D !! l = Some v /\ key v = k /\ mv_value v = Some x /\ updated v = u.
Proof using Hd.
  intros [_ Hv Hs _ _]. unfold abs_of. clear olds brk. revert Hv Hs.
  induction elems as [|l ls IH]; intros Hv Hs.
  { simpl. rewrite lookup_empty. split; [done|]. intros (l & v & Hl & _). by apply elem_of_nil in Hl. }
  apply StronglySorted_inv in Hs as [Hs Hl]. rewrite Forall_forall in Hl.
  specialize (IH ltac:(set_solver) Hs).
  destruct (Hv l ltac:(by left)) as (v & Hlv & Hok). pose proof Hok as [_ _ Hk (y & Hy & _) _].
  simpl. unfold abs_node at 1. rewrite Hlv. simpl. rewrite Hy. simpl.
  rewrite lookup_insert_Some, IH. split.
  - intros [[<- [= <- <-]]|[Hne (l' & v' & Hl' & H')]]; [exists l, v|exists l', v']; set_solver.
  - intros (l' & v' & [->|Hl']%elem_of_cons & Hlv' & <- & Hx & Hu); [left; naive_solver|right].
    split; [|eauto 10]. intros Heq. destruct (Hv l' ltac:(by right)) as (v2 & Hlv2 & Hok2).
    simplify_eq. specialize (Hl l' Hl'). rewrite (cmp_nodes_ok _ _ _ v v') in Hl by done.
    rewrite Heq, (klex_refl (label_types d)) in Hl; [lia|apply Hok2|done].
Qed.

Lemma cmp_nodes_agree D D' a b : D' !! a = D !! a -> D' !! b = D !! b -> cmp_nodes D' a b = cmp_nodes D a b.
Proof using. intros Ha Hb. unfold cmp_nodes, cmp_with. by rewrite Ha, Hb. Qed.

(** Only the nodes of the tree count. *)
Lemma state_agree D D' elems olds brk brk' :
  state_ok d D elems olds brk -> (forall l, l ∈ elems -> D' !! l = D !! l) ->
  (forall l, is_Some (D' !! l) -> (l < brk')%positive) ->
  state_ok d D' elems olds brk' /\ abs_of D' elems = abs_of D elems.
Proof using Hd.
  intros Hok Ha Hb. pose proof Hok as [Hnd Hv Hs Ho _].
  assert (Hok' : state_ok d D' elems olds brk').
  { split; [done|..|done].
    - intros l Hl. rewrite Ha by done. by apply Hv.
    - apply (sorted_ext (fun x y => cmp_nodes D x y < 0)); [|done]. intros x y Hx Hy.
      by rewrite (cmp_nodes_agree D D') by auto.
    - intros l. rewrite Ho. split; intros (Hl & v & Hlv); (split; [done|]); exists v;
        [rewrite Ha by done|rewrite <- Ha by done]; done. }
  split; [done|]. apply map_eq. intros k. apply option_eq. intros [x u].
  rewrite (abs_lookup D' elems olds brk'), (abs_lookup D elems olds brk) by done.
  split; intros (l & v & Hl & Hlv & ?); exists l, v; split_and!; try done; try apply H;
    [rewrite <- Ha by done|rewrite Ha by done]; naive_solver.
Qed.

(** Two nodes of the tree have different keys. *)
Lemma key_inj D elems olds brk a b v w :
  state_ok d D elems olds brk -> a ∈ elems -> b ∈ elems ->
  D !! a = Some v -> D !! b = Some w -> key v = key w -> a = b.
Proof using Hd.
  intros [_ Hv Hs _ _]. clear olds brk. revert Hv Hs.
  induction elems as [|l ls IH]; intros Hv Hs Ha Hb Hva Hwb Hk; [by apply elem_of_nil in Ha|].
  apply StronglySorted_inv in Hs as [Hs Hl]. rewrite Forall_forall in Hl.
  destruct (Hv a Ha) as (v1 & ? & Hokv), (Hv b Hb) as (w1 & ? & Hokw). simplify_eq.
  assert (Hz : klex (key v) (key w) = 0) by (apply (klex_zero (label_types d)); [done|apply Hokv|apply Hokw|done]).
  assert (Hz' : klex (key w) (key v) = 0) by (apply (klex_zero (label_types d)); [done|apply Hokw|apply Hokv|done]).
  apply elem_of_cons in Ha as [->|Ha], Hb as [->|Hb]; [done|..].
  - specialize (Hl b Hb). rewrite (cmp_nodes_ok _ _ _ v w) in Hl by done. lia.
  - specialize (Hl a Ha). rewrite (cmp_nodes_ok _ _ _ w v) in Hl by done. lia.
  - apply IH; try done. intros y Hy. apply Hv. by right.
Qed.

(** A write to a node of the tree that keeps its labels. *)
Lemma state_touch D elems olds olds' brk l v v' x :
  state_ok d D elems olds brk -> l ∈ elems -> D !! l = Some v -> val_ok d v' -> key v' = key v ->
  mv_value v' = Some x ->
  (forall y, y ∈ olds' <-> (y = l /\ updated v' = 0) \/ (y <> l /\ y ∈ olds)) ->
  state_ok d (<[l := v']> D) elems olds' brk /\
  abs_of (<[l := v']> D) elems = <[key v := (x, updated v')]> (abs_of D elems).
Proof using Hd.
  intros Hok Hl Hlv Hv' Hk Hx Ho'. pose proof Hok as [Hnd Hv Hs Ho Hb].
  destruct (Hv l Hl) as (v0 & ? & Hv0). simplify_eq.
  assert (Hok' : state_ok d (<[l := v']> D) elems olds' brk).
  { split; [done|..].
    - intros y Hy. destruct (decide (y = l)) as [->|Hne].
      + exists v'. by rewrite lookup_insert_eq.
      + rewrite lookup_insert_ne by done. by apply Hv.
    - apply (sorted_ext (fun x y => cmp_nodes D x y < 0)); [|done]. intros y z Hy Hz.
      assert (forall a, a ∈ elems -> exists w w', D !! a = Some w /\ <[l:=v']> D !! a = Some w' /\
        val_ok d w /\ val_ok d w' /\ key w' = key w) as Hw.
      { intros a Ha. destruct (Hv a Ha) as (w & Hw & Hwok). destruct (decide (a = l)) as [->|Hne].
        - exists v, v'. rewrite lookup_insert_eq. by simplify_eq.
        - exists w, w. by rewrite lookup_insert_ne by done. }
      destruct (Hw y Hy) as (a & a' & Ha & Ha' & Ho1 & Ho1' & Hk1), (Hw z Hz) as (b & b' & Hb1 & Hb' & Ho2 & Ho2' & Hk2).
      rewrite (cmp_nodes_ok _ _ _ a b), (cmp_nodes_ok _ _ _ a' b') by done. by rewrite Hk1, Hk2.
    - intros y. rewrite Ho', Ho. destruct (decide (y = l)) as [->|Hne].
      + rewrite lookup_insert_eq. naive_solver.
      + rewrite lookup_insert_ne by done. naive_solver.
    - intros y. rewrite lookup_insert_is_Some. intros [<-|[_ Hy]]; apply Hb; eauto. }
  split; [done|]. apply map_eq. intros k. apply option_eq. intros [y u].
  rewrite (abs_lookup _ elems olds' brk), lookup_insert_Some, (abs_lookup D elems olds brk) by done.
  split.
  - intros (a & w & Ha & Haw & <- & Hy & Hu). destruct (decide (a = l)) as [->|Hne].
    + rewrite lookup_insert_eq in Haw. left. naive_solver.
    + rewrite lookup_insert_ne in Haw by done. right. split; [|by exists a, w].
      intros Heq. apply Hne. by eapply (key_inj D elems olds brk a l w v).
  - intros [[<- [= <- <-]]|[Hne (a & w & Ha & Haw & ?)]].
    + exists l, v'. by rewrite lookup_insert_eq.
    + exists a, w. rewrite lookup_insert_ne; [done|]. naive_solver.
Qed.

(** A node with a new key enters the tree. *)
Lemma state_add D elems olds brk l v x :
  state_ok d D elems olds brk -> l ∉ elems -> D !! l = Some v -> val_ok d v -> updated v = 1 ->
  mv_value v = Some x -> (forall a w, a ∈ elems -> D !! a = Some w -> key w <> key v) ->
  state_ok d D (cmp_insert (cmp_nodes D l) l elems) olds brk /\
  abs_of D (cmp_insert (cmp_nodes D l) l elems) = <[key v := (x, 1)]> (abs_of D elems).
Proof using Hd.
  intros Hok Hl Hlv Hv Hu Hx Hnew. pose proof Hok as [Hnd Hvs Hs Ho Hb].
  set (elems' := cmp_insert _ _ _).
  assert (He : elems' ≡ₚ l :: elems) by apply cmp_insert_perm.
  assert (Hin : forall a, a ∈ elems' <-> a = l \/ a ∈ elems) by (intros a; rewrite He; set_solver).
  assert (Hvs' : forall a, a ∈ elems' -> exists w, D !! a = Some w /\ val_ok d w).
  { intros a [->|Ha]%Hin; [by exists v|by apply Hvs]. }
  assert (Hc : forall a, a ∈ elems -> exists w, D !! a = Some w /\ val_ok d w /\
    cmp_nodes D l a = klex (key v) (key w) /\ cmp_nodes D a l = - klex (key v) (key w) /\
    klex (key v) (key w) <> 0).
  { intros a Ha. destruct (Hvs a Ha) as (w & Hw & Hwok). exists w. split_and!; try done.
    - by apply cmp_nodes_ok.
    - rewrite (cmp_nodes_ok _ _ _ w v) by done. apply (klex_sym (label_types d)); [done|apply Hv|apply Hwok].
    - rewrite (klex_zero (label_types d)); [|done|apply Hv|apply Hwok]. intros Heq. by apply (Hnew a w). }
  assert (Hok' : state_ok d D elems' olds brk).
  { split; [|done|..|done].
    - rewrite He. by constructor.
    - apply cmp_insert_sorted; [done|..].
      + intros a b Ha Hb'. destruct (Hc a Ha) as (w & Hw & Hwok & Hc1 & _ & Hn1), (Hc b Hb') as (w' & Hw' & Hwok' & Hc2 & _).
        rewrite Hc1, Hc2, (cmp_nodes_ok _ _ _ w w') by done. intros Hlt Hle.
        apply (klex_trans (label_types d) Hd _ (key w)); [apply Hv|apply Hwok|apply Hwok'|lia|done].
      + intros a Ha. destruct (Hc a Ha) as (w & _ & _ & -> & -> & _). lia.
      + intros a Ha. destruct (Hc a Ha) as (w & _ & _ & -> & _ & Hz). done.
    - intros a. rewrite Ho, Hin. split; [intros [Ha Hw]; split; [by right|done]|].
      intros ([->|Ha] & w & Hw & Hz); [simplify_eq; lia|]. split; [done|by exists w]. }
  split; [done|]. apply map_eq. intros k. apply option_eq. intros [y u].
  rewrite (abs_lookup _ elems' olds brk), lookup_insert_Some, (abs_lookup D elems olds brk) by done.
  setoid_rewrite Hin. split.
  - intros (a & w & [->|Ha] & Haw & <- & Hy & Hw); [left; split; congruence|right].
    split; [|by exists a, w]. apply not_eq_sym. by eapply Hnew.
  - intros [[<- [= <- <-]]|[Hne (a & w & Ha & ?)]]; [exists l, v|exists a, w]; split; auto.
Qed.

Lemma filter_ne_in (a l : loc) (ls : list loc) : a ∈ filter (.≠ l) ls <-> a ∈ ls /\ a <> l.
Proof using. rewrite list_elem_of_filter. naive_solver. Qed.

Lemma sorted_filter {A} (R : A -> A -> Prop) (Q : A -> Prop) `{forall x, Decision (Q x)} l :
  StronglySorted R l -> StronglySorted R (filter Q l).
Proof using.
  induction 1 as [|x l Hl IH Hx]; [by constructor|]. rewrite Forall_forall in Hx.
  destruct (decide (Q x)); [rewrite filter_cons_True by done|by rewrite filter_cons_False by done].
  constructor; [done|]. apply Forall_forall. intros y [_ Hy]%list_elem_of_filter. by apply Hx.
Qed.

(** A node leaves the tree and is freed. *)
Lemma state_drop D elems olds brk l v :
  state_ok d D elems olds brk -> l ∈ elems -> D !! l = Some v ->
  state_ok d (delete l D) (filter (.≠ l) elems) (filter (.≠ l) olds) brk /\
  abs_of (delete l D) (filter (.≠ l) elems) = delete (key v) (abs_of D elems).
Proof using Hd.
  intros Hok Hl Hlv. pose proof Hok as [Hnd Hv Hs Ho Hb].
  assert (Hok' : state_ok d (delete l D) (filter (.≠ l) elems) (filter (.≠ l) olds) brk).
  { split.
    - by apply NoDup_filter.
    - intros a [Ha Hne]%filter_ne_in. rewrite lookup_delete_ne by done. by apply Hv.
    - apply (sorted_ext (fun x y => cmp_nodes D x y < 0)); [|by apply sorted_filter].
      intros a b [Ha Hne]%filter_ne_in [Hb' Hne']%filter_ne_in.
      by rewrite (cmp_nodes_agree D (delete l D)) by (by apply lookup_delete_ne).
    - intros a. rewrite !filter_ne_in, Ho. split.
      + intros [[Ha Hw] Hne]. by rewrite lookup_delete_ne by done.
      + intros [[Ha Hne] Hw]. by rewrite lookup_delete_ne in Hw by done.
    - intros a. intros [w Hw]. apply lookup_delete_Some in Hw as [_ Hw]. apply Hb. eauto. }
  split; [done|]. apply map_eq. intros k. apply option_eq. intros [y u].
  rewrite (abs_lookup _ _ _ brk _ _ _ Hok'), lookup_delete_Some, (abs_lookup D elems olds brk) by done.
  split.
  - intros (a & w & [Ha Hne]%filter_ne_in & Haw & <- & Hw). rewrite lookup_delete_ne in Haw by done.
    split; [|by exists a, w]. intros Heq. apply Hne. by eapply (key_inj D elems olds brk a l w v).
  - intros [Hne (a & w & Ha & Haw & <- & Hw)]. exists a, w. rewrite filter_ne_in.
    assert (a <> l) by naive_solver. rewrite lookup_delete_ne by done. done.
Qed.

(** What [RB_FIND] finds. *)
Lemma probe_node D elems olds brk v : state_ok d D elems olds brk -> val_ok d v ->
  probe_ok (cmp_nodes D) (cmp_with D v) elems.
Proof using Hd.
  intros [_ Hv _ _ _] Hok a b Ha Hb.
  destruct (Hv a Ha) as (w & Hw & Hwok), (Hv b Hb) as (w' & Hw' & Hwok').
  rewrite (cmp_nodes_ok _ _ _ w w'), !(cmp_with_ok _ v _ w), (cmp_with_ok _ v _ w') by done.
  intros Hlt Hle. destruct (decide (key v = key w)) as [->|Hne]; [done|].
  assert (klex (key v) (key w) <> 0).
  { rewrite (klex_zero (label_types d)); [done|done|apply Hok|apply Hwok]. }
  apply (klex_trans (label_types d) Hd _ (key w)); [apply Hok|apply Hwok|apply Hwok'|lia|done].
Qed.

Lemma find_node D elems olds brk v : state_ok d D elems olds brk -> val_ok d v ->
  match find (fun a => cmp_with D v a =? 0) elems with
  | Some a => a ∈ elems /\ exists w, D !! a = Some w /\ val_ok d w /\ key w = key v
  | None => forall a w, a ∈ elems -> D !! a = Some w -> key w <> key v
  end.
Proof using Hd.
  intros [_ Hv _ _ _] Hok.
  assert (forall a w, a ∈ elems -> D !! a = Some w -> val_ok d w /\ (cmp_with D v a = 0 <-> key w = key v)) as Hz.
  { intros a w Ha Hw. destruct (Hv a Ha) as (w' & ? & Hwok). simplify_eq. split; [done|].
    rewrite (cmp_with_ok _ _ _ w) by done.
    rewrite (klex_zero (label_types d)); [naive_solver|done|apply Hok|apply Hwok]. }
  destruct (find _ _) as [a|] eqn:Hf.
  - apply find_zero_Some in Hf as [Ha Hc]. split; [done|]. destruct (Hv a Ha) as (w & Hw & _).
    exists w. destruct (Hz a w Ha Hw) as [? Hi]. naive_solver.
  - intros a w Ha Hw Hk. pose proof (find_zero_None _ _ Hf a Ha) as Hn. by apply Hn, (Hz a w Ha Hw).
Qed.
End State.

(** ** Operations on nodes keep the list *)

Lemma seg_content st p l nx x v v' :
  st !! x = Some v -> le_next v' = le_next v -> le_prev v' = le_prev v ->
  seg st p l nx -> seg (<[x := v']> st) p l nx.
Proof.
  intros Hx Hn Hp. revert p; induction l as [|y l IH]; intros p; simpl; [done|].
  intros (w & Hw & Hwp & Hwn & Hl). destruct (decide (x = y)) as [->|Hne].
  - exists v'. rewrite lookup_insert_eq. simplify_eq. split_and!; try congruence. by apply IH.
  - exists w. rewrite lookup_insert_ne by done. split_and!; try done. by apply IH.
Qed.

Lemma mvallist_content st first l x v v' :
  st !! x = Some v -> le_next v' = le_next v -> le_prev v' = le_prev v ->
  mvallist st first l -> mvallist (<[x := v']> st) first l.
Proof. intros Hx Hn Hp (-> & Hs & Hnd). split_and!; try done. by eapply seg_content. Qed.

Lemma mvallist_fresh st first l x v : x ∉ l -> mvallist st first l -> mvallist (<[x := v]> st) first l.
Proof. intros Hx (-> & Hs & Hnd). split_and!; try done. by apply seg_ne. Qed.

Lemma mvallist_delete st first l x : x ∉ l -> mvallist st first l -> mvallist (delete x st) first l.
Proof. intros Hx (-> & Hs & Hnd). split_and!; try done. by apply seg_delete. Qed.

Lemma cmp_with_data st v l : cmp_with (data st) v l = cmp_with st v l.
Proof. unfold cmp_with. rewrite lookup_fmap. by destruct (st !! l). Qed.

Lemma cmp_nodes_data st a b : cmp_nodes (data st) a b = cmp_nodes st a b.
Proof. unfold cmp_nodes. rewrite lookup_fmap. destruct (st !! a) as [v|]; [|done]. apply (cmp_with_data st v b). Qed.

Lemma abs_data st elems : abs_of (data st) elems = abs_of st elems.
Proof.
  assert (forall l, abs_node (data st) l = abs_node st l) as Hn.
  { intros l. unfold abs_node. rewrite lookup_fmap. by destruct (st !! l). }
  unfold abs_of. f_equal. induction elems as [|l ls IH]; [done|]. csimpl. by rewrite Hn, IH.
Qed.

(** Arguments of the right types are read as the label values and the value. *)
Lemma vlabels_Ok ls k va :
  key_ok (l_type <$> ls) k ->
  exists lvs, vlabels ls (k ++ va) = Ok (lvs, va) /\ lv_label <$> lvs = ls /\ lv_val <$> lvs = k.
Proof.
  revert k; induction ls as [|lb ls IH]; intros k Hk; inversion Hk as [|x t k' ts Hx Hk']; subst; simpl.
  - by exists [].
  - rewrite decide_True by (destruct x, (l_type lb); simpl in *; done). simpl.
    destruct (IH k' Hk') as (lvs & -> & Hl & Hv). simpl. exists (LabelVal lb x :: lvs).
    split_and!; csimpl; by f_equal.
Qed.

Lemma va_arg_Ok x t va : has_type x t -> va_arg t (x :: va) = Ok (x, va).
Proof. intros Hx. unfold va_arg. by rewrite decide_True by (destruct x, t; simpl in *; done). Qed.

#[local] Arguments va_arg : simpl never.
#[local] Arguments inc_value : simpl never.

(** ** Operations on metrics *)

Section Operations.
Context {T P MO : Type} `{!RBCmp loc T} `{!RBCmpLaws loc T}.

Abbreviation metric := (metric T P MO).

Definition exact (d : mdesc) : Prop := Forall exact_type (label_types d).

(** A metric without labels of type double, whose nodes have the types of the metric,
    with a tree in the order of the labels and a list of the old values. *)
Definition has_olds (m : metric) (olds : list loc) : Prop :=
  mvallist (m_nodes m) (m_old m) olds /\
  state_ok (m_desc m) (data (m_nodes m)) (rc_elems (m_values m)) olds (m_brk m).

Definition metric_ok (m : metric) : Prop := exact (m_desc m) /\ exists olds, has_olds m olds.

Definition abs (m : metric) : gmap (list value) (value * Z) :=
  abs_of (m_nodes m) (rc_elems (m_values m)).

(** A value for the labels [k] is in the tree. *)
Lemma abs_node_in m l v x : metric_ok m -> l ∈ rc_elems (m_values m) -> m_nodes m !! l = Some v ->
  mv_value v = Some x -> abs m !! key v = Some (x, updated v).
Proof.
  intros (He & olds & _ & Hok) Hl Hv Hx. unfold abs. rewrite <- abs_data.
  apply (abs_lookup _ He _ _ _ _ _ _ _ Hok). exists l, (strip v). rewrite lookup_fmap, Hv. done.
Qed.

Lemma node_ok m l : metric_ok m -> l ∈ rc_elems (m_values m) ->
  exists v, m_nodes m !! l = Some v /\ val_ok (m_desc m) v.
Proof.
  intros (He & olds & _ & Hok) Hl. destruct (so_vals _ _ _ _ _ Hok l Hl) as (w & Hw & Hwok).
  rewrite lookup_fmap in Hw. destruct (m_nodes m !! l) as [v|]; [|done].
  apply (inj Some) in Hw as <-. exists v. split; [done|]. destruct Hwok. by constructor.
Qed.

Lemma new_node_ok m v : metric_ok m ->
  metric_ok (new_node v m).2 /\ abs (new_node v m).2 = abs m.
Proof.
  intros (He & olds & Hl & Hok). unfold metric_ok, has_olds, abs, new_node. simpl.
  rewrite <- (abs_data (m_nodes m)), <- (abs_data (<[m_brk m := v]> (m_nodes m))), fmap_insert.
  assert (Hb : m_brk m ∉ rc_elems (m_values m)).
  { intros Hin. destruct (so_vals _ _ _ _ _ Hok _ Hin) as (w & Hw & _).
    pose proof (so_brk _ _ _ _ _ Hok (m_brk m) ltac:(eauto)). lia. }
  destruct (state_agree _ He _ (<[m_brk m := strip v]> (data (m_nodes m))) _ _ _ (Pos.succ (m_brk m)) Hok)
    as [Hok' Habs].
  - intros l Hin. apply lookup_insert_ne. set_solver.
  - intros l. rewrite lookup_insert_is_Some. intros [<-|[_ Hl']]; [lia|].
    pose proof (so_brk _ _ _ _ _ Hok l Hl'). lia.
  - split; [|done]. split; [done|]. exists olds. split; [|done]. apply mvallist_fresh; [|done].
    intros Hin. apply Hb. by apply (so_old _ _ _ _ _ Hok).
Qed.
(** ** The operations, one by one *)

(** [LIST_REMOVE(omv, lentry); omv->updated = 1]: the value counts as updated. *)
Lemma refresh_ok m l v x : metric_ok m -> l ∈ rc_elems (m_values m) -> m_nodes m !! l = Some v ->
  mv_value v = Some x ->
  exists m' v', refresh l m = Ok m' /\ metric_ok m' /\ abs m' = <[key v := (x, 1)]> (abs m) /\
    m_desc m' = m_desc m /\ m_values m' = m_values m /\ m_brk m' = m_brk m /\
    dom (m_nodes m') = dom (m_nodes m) /\
    m_nodes m' !! l = Some v' /\ key v' = key v /\ mv_value v' = Some x /\
    val_ok (m_desc m) v' /\ updated v' = 1.
Proof.
  intros Hm Hl Hv Hx. destruct (node_ok m l Hm Hl) as (v0 & Hv0 & Hvok).
  rewrite Hv in Hv0. injection Hv0 as <-.
  unfold refresh, node. rewrite Hv. simpl. case_if; cbool.
  - destruct Hm as (He & olds & Hlist & Hok).
    assert (Hin : l ∈ olds).
    { apply (so_old _ _ _ _ _ Hok). split; [done|]. exists (strip v). by rewrite lookup_fmap, Hv. }
    destruct (remove_elem_spec _ _ _ _ Hlist Hin) as (st' & first' & -> & Hlist' & Hdata). simpl.
    destruct (data_lookup _ _ _ _ Hdata Hv) as (v1 & Hv1 & Hs1).
    rewrite (poke_Ok _ _ _ v1) by done. simpl.
    assert (Hvok1 : val_ok (m_desc m) (strip (set_updated 1 v1))).
    { destruct Hvok as [H1 H2 H3 H4 H5]. destruct v, v1; unfold strip in Hs1; simpl in *.
      constructor; simpl; naive_solver. }
    assert (Hlv : data (m_nodes m) !! l = Some (strip v)) by (by rewrite lookup_fmap, Hv).
    destruct (state_touch _ He _ _ _ (filter (.≠ l) olds) _ l _ (strip (set_updated 1 v1)) x Hok Hl Hlv Hvok1)
      as [Hok' Habs].
    { destruct v, v1; unfold strip in Hs1; simpl in *. naive_solver. }
    { destruct v, v1; unfold strip in Hs1; simpl in *. naive_solver. }
    { intros y. rewrite filter_ne_in. simpl. naive_solver lia. }
    eexists _, (set_updated 1 v1). split; [done|]. unfold metric_ok, has_olds, abs. simpl.
    rewrite <- (abs_data (m_nodes m)), <- (abs_data (<[l := set_updated 1 v1]> st')),
      fmap_insert, Hdata.
    split_and!; try done.
    + exists (filter (.≠ l) olds). split; [|done].
      by eapply mvallist_content.
    + rewrite dom_insert_L, <- (dom_fmap_L strip st'), Hdata, dom_fmap_L.
      apply elem_of_dom_2 in Hv. set_solver.
    + by rewrite lookup_insert_eq.
    + destruct v, v1; unfold strip in Hs1; simpl in *. naive_solver.
    + destruct v, v1; unfold strip in Hs1; simpl in *. naive_solver.
    + destruct Hvok1; by constructor.
  - assert (Hu : updated v = 1) by (destruct (vo_updated _ _ Hvok); done).
    exists m, v. split_and!; try done.
    rewrite insert_id; [done|]. rewrite (abs_node_in m l v x) by done. by rewrite Hu.
Qed.
(** The value of an updated node is written. *)
Lemma write_ok m l v x y : metric_ok m -> l ∈ rc_elems (m_values m) -> m_nodes m !! l = Some v ->
  mv_value v = Some x -> updated v = 1 -> has_type y (d_val_type (m_desc m)) ->
  let m' := with_nodes m (<[l := set_value y v]> (m_nodes m)) in
  metric_ok m' /\ abs m' = <[key v := (y, 1)]> (abs m).
Proof.
  intros Hm Hl Hv Hx Hu Hy. destruct (node_ok m l Hm Hl) as (v0 & Hv0 & Hvok).
  rewrite Hv in Hv0. injection Hv0 as <-. destruct Hm as (He & olds & Hlist & Hok).
  assert (Hvok1 : val_ok (m_desc m) (strip (set_value y v))) by (destruct Hvok; constructor; eauto).
  assert (Hlv : data (m_nodes m) !! l = Some (strip v)) by (by rewrite lookup_fmap, Hv).
  assert (Hout : l ∉ olds).
  { intros Hin. apply (so_old _ _ _ _ _ Hok) in Hin as (_ & w & Hw & Hu'). rewrite Hlv in Hw.
    injection Hw as <-. simpl in Hu'. lia. }
  destruct (state_touch _ He _ _ _ olds _ l _ (strip (set_value y v)) y Hok Hl Hlv Hvok1) as [Hok' Habs];
    [done|done|intros z; simpl; naive_solver lia|].
  unfold metric_ok, has_olds, abs. simpl.
  rewrite <- (abs_data (m_nodes m)), <- (abs_data (<[l := set_value y v]> (m_nodes m))), fmap_insert, Habs.
  simpl. rewrite Hu. split; [split; [done|]|done]. exists olds. split; [|done]. by eapply mvallist_content.
Qed.

Lemma tree_ok m v : metric_ok m -> val_ok (m_desc m) v ->
  cmp_sorted (cmp_nodes (m_nodes m)) (rc_elems (m_values m)) /\
  probe_ok (cmp_nodes (m_nodes m)) (cmp_with (m_nodes m) v) (rc_elems (m_values m)).
Proof.
  intros (He & olds & _ & Hok) Hv. split.
  - apply (sorted_ext (fun x y => cmp_nodes (data (m_nodes m)) x y < 0)); [|apply Hok].
    intros x y _ _. by rewrite cmp_nodes_data.
  - intros x y Hx Hy. rewrite <- (cmp_nodes_data _ x y), <- !(cmp_with_data (m_nodes m) v).
    by apply (probe_node _ He _ _ _ _ _ Hok Hv).
Qed.

Lemma find_data st v l : find (fun a => cmp_with (data st) v a =? 0) l = find (fun a => cmp_with st v a =? 0) l.
Proof. induction l as [|a l IH]; simpl; [done|]. by rewrite cmp_with_data, IH. Qed.

(** [RB_FIND] finds the node whose labels have these values. *)
Lemma rc_find_ok m v : metric_ok m -> val_ok (m_desc m) v ->
  match find (fun a => cmp_with (m_nodes m) v a =? 0) (rc_elems (m_values m)) with
  | Some l => l ∈ rc_elems (m_values m) /\
      exists w x, m_nodes m !! l = Some w /\ key w = key v /\ mv_value w = Some x /\
      has_type x (d_val_type (m_desc m)) /\ abs m !! key v = Some (x, updated w)
  | None => abs m !! key v = None
  end.
Proof.
  intros Hm Hv. pose proof Hm as (He & olds & _ & Hok).
  pose proof (find_node _ He _ _ _ _ v Hok Hv) as Hf. rewrite find_data in Hf.
  destruct (find _ _) as [l|].
  - destruct Hf as (Hl & w & Hw & _ & Hk). split; [done|].
    destruct (node_ok m l Hm Hl) as (u & Hu & Huok). rewrite lookup_fmap, Hu in Hw.
    injection Hw as <-. destruct (vo_value _ _ Huok) as (x & Hx & Hxt). exists u, x.
    split_and!; try done. rewrite <- Hk. by apply (abs_node_in m l u).
  - apply eq_None_not_Some. intros [[x u] Hx]. unfold abs in Hx. rewrite <- abs_data in Hx.
    apply (abs_lookup _ He _ _ _ _ _ _ _ Hok) in Hx as (l & w & Hl & Hw & Hk & _).
    by apply (Hf l w).
Qed.

(** [RB_INSERT] of a node of the store that is not in the tree. *)
Lemma rc_insert_ok m l v x : metric_ok m -> l ∉ rc_elems (m_values m) -> m_nodes m !! l = Some v ->
  val_ok (m_desc m) v -> updated v = 1 -> mv_value v = Some x ->
  let m' := with_values m (rc_insert (cmp_nodes (m_nodes m)) l (m_values m)).2 in
  metric_ok m' /\
  abs m' = match abs m !! key v with Some _ => abs m | None => <[key v := (x, 1)]> (abs m) end /\
  (abs m !! key v = None -> rc_elems (m_values m') ≡ₚ l :: rc_elems (m_values m)).
Proof.
  intros Hm Hl Hv Hvok Hu Hx m'. destruct (tree_ok m v Hm Hvok) as [Hs Hp].
  pose proof (rc_find_ok m v Hm Hvok) as Hf. pose proof Hm as (He & olds & Hlist & Hok).
  assert (Hc : cmp_nodes (m_nodes m) l = cmp_with (m_nodes m) v) by (unfold cmp_nodes; by rewrite Hv).
  pose proof (rc_insert_elems _ l (m_values m) Hs) as Hi. rewrite Hc in Hi. specialize (Hi Hp).
  destruct (find _ _) as [a|] eqn:Hfa.
  - destruct Hf as (_ & w & y & _ & _ & _ & _ & Ha). rewrite Ha.
    unfold metric_ok, has_olds, abs. subst m'. simpl. rewrite Hi. split_and!; [done|by exists olds|done|done].
  - rewrite Hf. unfold metric_ok, has_olds, abs. subst m'. simpl. rewrite Hi, <- Hc.
    destruct (state_add _ He _ _ _ _ l (strip v) x Hok Hl) as [Hok' Habs]; try done.
    + by rewrite lookup_fmap, Hv.
    + by apply val_ok_strip.
    + intros a w Ha Hw. pose proof (find_node _ He _ _ _ _ v Hok Hvok) as Hn.
      rewrite find_data, Hfa in Hn. by apply (Hn a w).
    + assert (forall c c' (ls : list loc), (forall b, c b = c' b) -> cmp_insert c l ls = cmp_insert c' l ls) as Hext.
      { intros c c' ls Hcc. induction ls as [|b ls IH]; simpl; [done|]. by rewrite Hcc, IH. }
      rewrite (Hext _ (cmp_nodes (m_nodes m) l)) in Hok', Habs by (intros; apply cmp_nodes_data).
      rewrite !abs_data in Habs. split_and!; [done|by exists olds|done|].
      intros _. apply cmp_insert_perm.
Qed.
(** The nodes that are allocated and not in the tree. *)
Definition leaked (m : metric) : gset loc :=
  dom (m_nodes m) ∖ list_to_set (rc_elems (m_values m)).

Lemma brk_fresh m : metric_ok m -> m_nodes m !! m_brk m = None /\ m_brk m ∉ rc_elems (m_values m).
Proof.
  intros (He & olds & _ & Hok). assert (Hn : m_nodes m !! m_brk m = None).
  { apply eq_None_not_Some. intros [v Hv].
    pose proof (so_brk _ _ _ _ _ Hok (m_brk m)) as Hb. rewrite lookup_fmap, Hv in Hb.
    specialize (Hb ltac:(by eexists)). lia. }
  split; [done|]. intros Hin. destruct (so_vals _ _ _ _ _ Hok _ Hin) as (w & Hw & _).
  rewrite lookup_fmap, Hn in Hw. done.
Qed.

(** What [RB_FIND] gives on a well-formed metric. *)
Lemma rc_find_eq m v : metric_ok m -> val_ok (m_desc m) v ->
  rc_find (cmp_with (m_nodes m) v) (m_values m) =
  find (fun a => cmp_with (m_nodes m) v a =? 0) (rc_elems (m_values m)).
Proof. intros Hm Hv. destruct (tree_ok m v Hm Hv) as [Hs Hp]. by apply (rc_find_elems (cmp_nodes (m_nodes m))). Qed.

(** A new node with labels that the tree does not have. *)
Lemma insert_new_ok m v x : metric_ok m -> val_ok (m_desc m) v -> updated v = 1 -> mv_value v = Some x ->
  let m1 := (new_node v m).2 in
  let m' := with_values m1 (rc_insert (cmp_nodes (m_nodes m1)) (m_brk m) (m_values m1)).2 in
  metric_ok m' /\
  abs m' = match abs m !! key v with Some _ => abs m | None => <[key v := (x, 1)]> (abs m) end /\
  leaked m' = match abs m !! key v with Some _ => {[m_brk m]} ∪ leaked m | None => leaked m end.
Proof.
  intros Hm Hv Hu Hx m1 m'. destruct (new_node_ok m v Hm) as [Hm1 Ha1]. fold m1 in Hm1, Ha1.
  destruct (brk_fresh m Hm) as [Hb Hnb].
  assert (Hv1 : m_nodes m1 !! m_brk m = Some v) by (apply lookup_insert_eq).
  destruct (rc_insert_ok m1 (m_brk m) v x Hm1 Hnb Hv1 Hv Hu Hx) as (Hm' & Ha' & He').
  change (m_values m1) with (m_values m) in *. fold m' in Hm', Ha', He'. rewrite Ha1 in Ha', He'.
  split_and!; [done|done|]. unfold leaked. subst m' m1. simpl in *. rewrite dom_insert_L.
  apply not_elem_of_dom in Hb.
  destruct (abs m !! key v) as [p|] eqn:Hk.
  - destruct (tree_ok _ v Hm1 Hv) as [Hs Hp].
    pose proof (rc_find_ok _ v Hm1 Hv) as Hf. rewrite Ha1, Hk in Hf.
    pose proof (rc_insert_elems _ (m_brk m) _ Hs) as Hi. simpl in *.
    assert (Hc : cmp_nodes (<[m_brk m := v]> (m_nodes m)) (m_brk m) = cmp_with (<[m_brk m := v]> (m_nodes m)) v)
      by (unfold cmp_nodes; by rewrite lookup_insert_eq).
    rewrite Hc in Hi. rewrite (Hi Hp). destruct (find _ _); [|done]. set_solver.
  - rewrite (He' eq_refl). set_solver.
Qed.

(** The new node for the arguments of an operation. *)
Lemma fresh_val_ok d lvs k x :
  lv_label <$> lvs = d_labels d -> lv_val <$> lvs = k -> key_ok (label_types d) k ->
  has_type x (d_val_type d) -> val_ok d (MetricVal None None 1 d lvs (Some x)).
Proof. intros Hl Hk Hok Hx. constructor; simpl; try done; unfold key; simpl; [by rewrite Hk|eauto|by right]. Qed.

Lemma update_ok m k x : metric_ok m -> key_ok (label_types (m_desc m)) k ->
  has_type x (d_val_type (m_desc m)) ->
  exists m', metric_update m (k ++ [x]) = Ok (0, m') /\ metric_ok m' /\ m_desc m' = m_desc m /\
    abs m' = <[k := (x, 1)]> (abs m) /\ leaked m' = leaked m.
Proof.
  intros Hm Hk Hx. unfold metric_update.
  destruct (vlabels_Ok _ k [x] Hk) as (lvs & -> & Hl & Hlk). simpl. rewrite va_arg_Ok by done. simpl.
  set (v0 := MetricVal None None 1 (m_desc m) lvs (Some x)).
  assert (Hv0 : val_ok (m_desc m) v0) by (by apply (fresh_val_ok _ _ k)).
  assert (Hk0 : key v0 = k) by done.
  rewrite (rc_find_eq m v0 Hm Hv0). pose proof (rc_find_ok m v0 Hm Hv0) as Hf. rewrite Hk0 in Hf.
  destruct (find _ _) as [omv|].
  - destruct Hf as (Hin & w & y & Hw & Hkw & Hy & _ & Ha).
    destruct (refresh_ok m omv w y Hm Hin Hw Hy)
      as (m2 & v2 & -> & Hm2 & Ha2 & Hd2 & Ht2 & Hb2 & Hdom & Hv2 & Hk2 & Hy2 & Hvok2 & Hu2). simpl.
    rewrite (poke_Ok _ _ _ _ Hv2). simpl.
    destruct (write_ok m2 omv v2 y x Hm2) as [Hm' Ha']; rewrite ?Ht2, ?Hd2; try done.
    eexists. split_and!; [done|done|done|..].
    + rewrite Ha', Ha2, Hk2, Hkw, insert_insert_eq. done.
    + unfold leaked. simpl. rewrite Ht2, dom_insert_L, Hdom. apply elem_of_dom_2 in Hw. set_solver.
  - destruct (insert_new_ok m v0 x Hm Hv0 eq_refl eq_refl) as (Hm' & Ha' & Hleak).
    rewrite Hk0, Hf in Ha', Hleak. simpl in *.
    destruct (rc_insert _ _ _) as [o t]. eexists. split_and!; done.
Qed.
Lemma push_ok m k x : metric_ok m -> key_ok (label_types (m_desc m)) k ->
  has_type x (d_val_type (m_desc m)) ->
  exists m', metric_push m (k ++ [x]) = Ok (0, m') /\ metric_ok m' /\ m_desc m' = m_desc m /\
    abs m' = match abs m !! k with Some _ => abs m | None => <[k := (x, 1)]> (abs m) end /\
    leaked m' = match abs m !! k with Some _ => {[m_brk m]} ∪ leaked m | None => leaked m end.
Proof.
  intros Hm Hk Hx. unfold metric_push.
  destruct (vlabels_Ok _ k [x] Hk) as (lvs & -> & Hl & Hlk). simpl. rewrite va_arg_Ok by done. simpl.
  set (v0 := MetricVal None None 1 (m_desc m) lvs (Some x)).
  assert (Hv0 : val_ok (m_desc m) v0) by (by apply (fresh_val_ok _ _ k)).
  destruct (insert_new_ok m v0 x Hm Hv0 eq_refl eq_refl) as (Hm' & Ha' & Hleak).
  change (key v0) with (lv_val <$> lvs) in *. rewrite Hlk in *. simpl in *.
  destruct (rc_insert _ _ _) as [o t]. eexists. split_and!; done.
Qed.

(** ** Increments *)

Lemma inc_new_type t y : inc_new t = Some y -> has_type y t.
Proof. by destruct t; intros [= <-]. Qed.

Lemma inc_value_type x t y : has_type x t -> inc_value (Some x) = Ok y -> has_type y t.
Proof.
  unfold inc_value. destruct x, t; simpl; try done; intros Hx.
  - case_if; [|done]. intros [= <-]. apply andb_prop_elim in Hx as [?%Is_true_true ?%Is_true_true].
    apply Is_true_true. simpl. cbool. lia.
  - intros [= <-]. apply Is_true_true. simpl. pose proof (uN_bounds 64 ltac:(lia) (z + 1)). cbool. lia.
  - by intros [= <-].
Qed.

(** The node of the arguments is freed again when there is an older one. *)
Lemma free_unlinked_ok m l : metric_ok m -> l ∉ rc_elems (m_values m) ->
  let m' := with_nodes m (delete l (m_nodes m)) in metric_ok m' /\ abs m' = abs m.
Proof.
  intros (He & olds & Hlist & Hok) Hl m'. subst m'. unfold metric_ok, has_olds, abs. simpl.
  rewrite <- (abs_data (m_nodes m)), <- (abs_data (delete l (m_nodes m))), fmap_delete.
  destruct (state_agree _ He _ (delete l (data (m_nodes m))) _ _ _ (m_brk m) Hok) as [Hok' ->].
  - intros a Ha. apply lookup_delete_ne. set_solver.
  - intros a [w Hw]. apply lookup_delete_Some in Hw as [_ Hw]. apply (so_brk _ _ _ _ _ Hok). eauto.
  - split; [|done]. split; [done|]. exists olds. split; [|done]. apply mvallist_delete; [|done].
    intros Hin. apply Hl. by apply (so_old _ _ _ _ _ Hok).
Qed.

Lemma inc_ok m k one : metric_ok m -> key_ok (label_types (m_desc m)) k ->
  inc_new (d_val_type (m_desc m)) = Some one ->
  match abs m !! k with
  | Some (x, _) => forall y, inc_value (Some x) = Ok y ->
      exists m', metric_inc m k = Ok (0, m') /\ metric_ok m' /\ m_desc m' = m_desc m /\
        abs m' = <[k := (y, 1)]> (abs m) /\ leaked m' = leaked m
  | None =>
      exists m', metric_inc m k = Ok (0, m') /\ metric_ok m' /\ m_desc m' = m_desc m /\
        abs m' = <[k := (one, 1)]> (abs m) /\ leaked m' = leaked m
  end.
Proof.
  intros Hm Hk Hone. pose proof (inc_new_type _ _ Hone) as Hot.
  unfold metric_inc. destruct (vlabels_Ok _ k [] Hk) as (lvs & Hvl & Hl & Hlk).
  rewrite app_nil_r in Hvl. rewrite Hvl, Hone. simpl.
  set (v0 := MetricVal None None 1 (m_desc m) lvs (Some one)).
  assert (Hv0 : val_ok (m_desc m) v0) by (by apply (fresh_val_ok _ _ k)).
  assert (Hk0 : key v0 = k) by done.
  destruct (new_node_ok m v0 Hm) as [Hm1 Ha1]. destruct (brk_fresh m Hm) as [Hb Hnb].
  set (m1 := Metric _ _ _ _ _ _ _). change (new_node v0 m).2 with m1 in Hm1, Ha1.
  change (<[m_brk m := v0]> (m_nodes m)) with (m_nodes m1). change (m_values m) with (m_values m1) in Hnb |- *.
  change (m_desc m) with (m_desc m1) in Hv0.
  rewrite (rc_find_eq m1 v0 Hm1 Hv0).
  pose proof (rc_find_ok m1 v0 Hm1 Hv0) as Hf. rewrite Hk0, Ha1 in Hf.
  destruct (find _ _) as [omv|].
  - destruct Hf as (Hin & w & x & Hw & Hkw & Hx & Hxt & Ha). rewrite Ha. intros y Hy.
    destruct (refresh_ok m1 omv w x Hm1 Hin Hw Hx)
      as (m2 & v2 & -> & Hm2 & Ha2 & Hd2 & Ht2 & Hb2 & Hdom & Hv2 & Hk2 & Hx2 & Hvok2 & Hu2).
    cbn [mbind ub_bind]. unfold node at 1. rewrite Hv2. cbn [mbind ub_bind]. rewrite Hx2, Hy.
    cbn [mbind ub_bind]. rewrite (poke_Ok _ _ _ _ Hv2). cbn [mbind ub_bind].
    destruct (write_ok m2 omv v2 x y Hm2) as [Hm3 Ha3]; rewrite ?Ht2, ?Hd2; try done.
    { apply (inc_value_type x); [done|done]. }
    set (m3 := with_nodes m2 _) in *.
    assert (Hne : m_brk m <> omv) by (intros <-; done).
    assert (Hin3 : is_Some (m_nodes m3 !! m_brk m)).
    { apply elem_of_dom. subst m3. simpl. rewrite dom_insert_L, Hdom. subst m1. simpl.
      rewrite dom_insert_L. set_solver. }
    destruct Hin3 as [w3 Hw3]. unfold free_metric_val, node. rewrite Hw3. cbn [mbind ub_bind].
    assert (Hnb3 : m_brk m ∉ rc_elems (m_values m3)) by (subst m3; simpl; by rewrite Ht2).
    destruct (free_unlinked_ok m3 (m_brk m) Hm3 Hnb3) as [Hm4 Ha4].
    eexists. split_and!; [done|done| |..].
    + subst m3 m1. simpl. by rewrite Hd2.
    + rewrite Ha4, Ha3, Ha2, Hk2, Hkw, insert_insert_eq, Ha1. done.
    + unfold leaked. subst m3. simpl. rewrite Ht2, dom_delete_L, dom_insert_L, Hdom. subst m1. simpl.
      rewrite dom_insert_L. apply not_elem_of_dom in Hb. apply elem_of_dom_2 in Hw. simpl in *.
      rewrite dom_insert_L in Hw. set_solver.
  - destruct (insert_new_ok m v0 one Hm Hv0 eq_refl eq_refl) as (Hm' & Ha' & Hleak).
    change (new_node v0 m).2 with m1 in *. rewrite Hk0, Hf in Ha', Hleak.
    rewrite Hf. destruct (rc_insert _ _ _) as [o t]. eexists. split_and!; done.
Qed.
(** ** Clearing *)

(** A node is taken from the list when it is there, from the tree, and freed. *)
Lemma drop_ok m olds l v : exact (m_desc m) -> has_olds m olds -> l ∈ rc_elems (m_values m) ->
  m_nodes m !! l = Some v ->
  exists sf, (if updated v =? 0 then LIST_REMOVE (m_old m) l (m_nodes m)
              else Ok (m_nodes m, m_old m)) = Ok sf /\ is_Some (sf.1 !! l) /\
    let m' := Metric (m_desc m) (rc_remove l (m_values m)) sf.2 (m_priv m) (m_ops m)
                (delete l sf.1) (m_brk m) in
    has_olds m' (filter (.≠ l) olds) /\ abs m' = delete (key v) (abs m) /\
    rc_elems (m_values m') = filter (.≠ l) (rc_elems (m_values m)) /\ leaked m' = leaked m /\
    (size (m_nodes m') < size (m_nodes m))%nat.
Proof.
  intros He [Hlist Hok] Hl Hv.
  assert (Hlv : data (m_nodes m) !! l = Some (strip v)) by (by rewrite lookup_fmap, Hv).
  assert (Hold : l ∈ olds <-> updated v = 0).
  { rewrite (so_old _ _ _ _ _ Hok l), Hlv. split; [intros (_ & w & [= <-] & Hw); done|eauto]. }
  assert (exists sf, (if updated v =? 0 then LIST_REMOVE (m_old m) l (m_nodes m)
      else Ok (m_nodes m, m_old m)) = Ok sf /\ mvallist sf.1 sf.2 (filter (.≠ l) olds) /\
      data sf.1 = data (m_nodes m)) as ([st first] & Heq & Hlist' & Hdata).
  { case_if; cbool.
    - destruct (remove_elem_spec _ _ _ _ Hlist (proj2 Hold E)) as (st & first & -> & ?). by exists (st, first).
    - exists (m_nodes m, m_old m). split_and!; [done| |done]. simpl.
      rewrite filter_ne_id; [done|]. naive_solver. }
  exists (st, first). split; [done|]. simpl in *.
  destruct (data_lookup _ _ _ _ Hdata Hv) as (v1 & Hv1 & _). split; [by exists v1|].
  destruct (state_drop _ He _ _ _ _ l (strip v) Hok Hl Hlv) as [Hok' Habs].
  assert (He' : rc_elems (rc_remove l (m_values m)) = filter (.≠ l) (rc_elems (m_values m)))
    by (apply rc_remove_elems; [apply Hok|done]).
  assert (Hdom : dom st = dom (m_nodes m)) by (by rewrite <- (dom_fmap_L strip st), Hdata, dom_fmap_L).
  unfold has_olds, abs, leaked. simpl. rewrite He'. split_and!.
  - apply mvallist_delete; [|done]. rewrite filter_ne_in. naive_solver.
  - by rewrite fmap_delete, Hdata.
  - rewrite <- (abs_data (m_nodes m)), <- (abs_data (delete l st)), fmap_delete, Hdata. done.
  - done.
  - rewrite dom_delete_L, Hdom. apply set_eq. intros a.
    rewrite !elem_of_difference, !elem_of_list_to_set, filter_ne_in, not_elem_of_singleton.
    destruct (decide (a = l)); naive_solver.
  - rewrite <- !size_dom, dom_delete_L, Hdom. apply subset_size.
    apply elem_of_dom_2 in Hv. set_solver.
Qed.

Lemma clear_loop_ok ls m : rc_elems (m_values m) = ls -> metric_ok m ->
  exists m', clear_loop ls m = Ok m' /\ metric_ok m' /\ m_desc m' = m_desc m /\
    rc_elems (m_values m') = [] /\ leaked m' = leaked m.
Proof.
  revert m; induction ls as [|l ls IH]; intros m Hls Hm; [by exists m|].
  assert (Hl : l ∈ rc_elems (m_values m)) by (rewrite Hls; by left).
  destruct (node_ok m l Hm Hl) as (v & Hv & _). destruct Hm as (He & olds & Ho).
  destruct (drop_ok m olds l v He Ho Hl Hv) as (sf & Hsf & [w Hw] & Ho' & _ & He' & Hleak & _).
  set (m' := Metric _ _ _ _ _ _ _) in *.
  destruct (IH m') as (m2 & Hm2 & Hok2 & Hd2 & He2 & Hl2).
  - rewrite He', Hls, filter_cons_False by naive_solver. apply filter_ne_id.
    pose proof (so_nodup _ _ _ _ _ (proj2 Ho)) as Hnd. rewrite Hls in Hnd. by apply NoDup_cons in Hnd as [? _].
  - split; [done|]. by exists (filter (.≠ l) olds).
  - exists m2. split_and!; [|done|by rewrite Hd2|done|by rewrite Hl2].
    rewrite <- Hm2. simpl. unfold node at 1. rewrite Hv. simpl.
    destruct (updated v =? 0); [rewrite Hsf; simpl|injection Hsf as <-; simpl in *];
      unfold free_metric_val, node; simpl; rewrite Hw; done.
Qed.

Lemma clear_ok m : metric_ok m ->
  exists m', metric_clear m = Ok m' /\ metric_ok m' /\ m_desc m' = m_desc m /\
    abs m' = ∅ /\ leaked m' = leaked m.
Proof.
  intros Hm. destruct (clear_loop_ok _ m eq_refl Hm) as (m' & Hc & Hok & Hd & He & Hl).
  exists m'. split_and!; try done. unfold abs, abs_of. by rewrite He.
Qed.

(** Every old value is flagged 0, and the others 1. *)
Lemma abs_flag m olds k x u : exact (m_desc m) -> has_olds m olds -> abs m !! k = Some (x, u) ->
  (u = 0 <-> exists l v, l ∈ olds /\ m_nodes m !! l = Some v /\ key v = k) /\ (u = 0 \/ u = 1).
Proof.
  intros He [Hlist Hok] Ha. unfold abs in Ha. rewrite <- abs_data in Ha.
  apply (abs_lookup _ He _ _ _ _ _ _ _ Hok) in Ha as (l & w & Hl & Hw & <- & Hx & <-).
  destruct (so_vals _ _ _ _ _ Hok l Hl) as (w' & ? & Hwok). simplify_eq.
  pose proof Hw as Hw2. rewrite lookup_fmap in Hw2. destruct (m_nodes m !! l) as [v|] eqn:Hv; [|done].
  apply (inj Some) in Hw2 as <-. split; [|by destruct (vo_updated _ _ Hwok); [left|right]]. split.
  - intros Hu. exists l, v. split_and!; [|done|done]. apply (so_old _ _ _ _ _ Hok). eauto.
  - intros (a & b & Hin & Hb & Hk). pose proof Hin as Hin'. apply (so_old _ _ _ _ _ Hok) in Hin' as (Hael & c & Hc & Hz).
    assert (a = l) as ->.
    { eapply (key_inj _ He _ _ _ _ a l c (strip v) Hok); try done.
      rewrite lookup_fmap, Hb in Hc. by apply (inj Some) in Hc as <-. }
    by simplify_eq.
Qed.
Abbreviation fresh_only := (filter (fun kv : list value * (value * Z) => kv.2.2 = 1)).

Lemma filter_drop (A : gmap (list value) (value * Z)) k x :
  A !! k = Some (x, 0) -> fresh_only (delete k A) = fresh_only A.
Proof.
  intros Hk. apply map_eq. intros j. apply option_eq. intros y.
  rewrite !map_lookup_filter_Some, lookup_delete_Some. naive_solver.
Qed.

Lemma clear_old_loop_ok fuel m olds : exact (m_desc m) -> has_olds m olds ->
  (size (m_nodes m) < fuel)%nat ->
  exists m', clear_old_loop fuel m = Ok m' /\ metric_ok m' /\ m_desc m' = m_desc m /\
    abs m' = fresh_only (abs m) /\ leaked m' = leaked m.
Proof.
  revert m olds; induction fuel as [|fuel IH]; intros m olds He Ho Hf; [lia|].
  destruct olds as [|l olds].
  - pose proof Ho as [(Hh & _) _]. simpl in *. rewrite Hh. exists m.
    split_and!; try done; [split; [done|by exists []]|].
    apply map_eq. intros k. apply option_eq. intros [x u]. rewrite map_lookup_filter_Some. simpl.
    split; [|naive_solver]. intros Ha. split; [done|].
    destruct (abs_flag m [] k x u He Ho Ha) as [Hz [->|?]]; [|done].
    destruct Hz as [(? & ? & Hin & _) _]; [done|]. by apply elem_of_nil in Hin.
  - pose proof Ho as [(Hh & Hs & Hnd) Hok].
    assert (Hl : l ∈ rc_elems (m_values m)) by (apply (so_old _ _ _ _ _ Hok); by left).
    destruct (node_ok m l ltac:(split; eauto) Hl) as (v & Hv & Hvok).
    assert (Hu : updated v = 0).
    { assert (l ∈ l :: olds) as Hin by (by left). apply (so_old _ _ _ _ _ Hok) in Hin as (_ & w & Hw & Hz).
      rewrite lookup_fmap, Hv in Hw. by apply (inj Some) in Hw as <-. }
    destruct (vo_value _ _ Hvok) as (x & Hx & _).
    pose proof (abs_node_in m l v x ltac:(split; eauto) Hl Hv Hx) as Ha. rewrite Hu in Ha.
    destruct (drop_ok m (l :: olds) l v He Ho Hl Hv) as (sf & Hsf & [w Hw] & Ho' & Habs & He' & Hleak & Hsz).
    rewrite Hu in Hsf. simpl in Hsf. set (m' := Metric _ _ _ _ _ _ _) in *.
    destruct (IH m' (filter (.≠ l) (l :: olds))) as (m2 & Hm2 & Hok2 & Hd2 & Ha2 & Hl2); [done|done|lia|].
    exists m2. split_and!; [|done|by rewrite Hd2| |by rewrite Hl2].
    + rewrite <- Hm2. simpl. simpl in Hh. rewrite Hh in Hsf |- *. rewrite Hsf. simpl.
      unfold free_metric_val, node. simpl. by rewrite Hw.
    + rewrite Ha2, Habs. by apply (filter_drop _ _ x).
Qed.

Lemma clear_old_ok m : metric_ok m ->
  exists m', metric_clear_old_values m = Ok m' /\ metric_ok m' /\ m_desc m' = m_desc m /\
    abs m' = fresh_only (abs m) /\ leaked m' = leaked m.
Proof. intros (He & olds & Ho). apply (clear_old_loop_ok _ _ olds); [done|done|lia]. Qed.

(** ** The start of a collection *)

Lemma mark_step_ok m olds l v x : exact (m_desc m) -> has_olds m olds -> l ∈ rc_elems (m_values m) ->
  l ∉ olds -> m_nodes m !! l = Some v -> mv_value v = Some x ->
  exists sf, LIST_INSERT_HEAD (m_old m) l (<[l := set_updated 0 v]> (m_nodes m)) = Ok sf /\
    has_olds (with_list m sf) (l :: olds) /\ abs (with_list m sf) = <[key v := (x, 0)]> (abs m) /\
    dom sf.1 = dom (m_nodes m).
Proof.
  intros He [Hlist Hok] Hl Hout Hv Hx.
  destruct (node_ok m l ltac:(split; [done|exists olds; done]) Hl) as (v0 & Hv0 & Hvok).
  rewrite Hv in Hv0. injection Hv0 as <-.
  set (st1 := <[l := set_updated 0 v]> (m_nodes m)).
  assert (Hl1 : mvallist st1 (m_old m) olds) by (by apply mvallist_fresh).
  destruct (insert_head_spec st1 (m_old m) olds l (set_updated 0 v) Hl1) as (st' & Heq & Hlist' & Hdata);
    [by apply lookup_insert_eq|done|].
  assert (Hd' : data st' = <[l := strip (set_updated 0 v)]> (data (m_nodes m)))
    by (rewrite Hdata; subst st1; by rewrite fmap_insert).
  assert (Hlv : data (m_nodes m) !! l = Some (strip v)) by (by rewrite lookup_fmap, Hv).
  assert (Hvok1 : val_ok (m_desc m) (strip (set_updated 0 v))).
  { destruct Hvok; constructor; try done. by left. }
  destruct (state_touch _ He _ _ _ (l :: olds) _ l _ (strip (set_updated 0 v)) x Hok Hl Hlv Hvok1)
    as [Hok' Habs]; [done|done|intros y; rewrite elem_of_cons; simpl; naive_solver|].
  eexists. split; [exact Heq|]. unfold has_olds, abs. simpl.
  rewrite <- (abs_data st'), <- (abs_data (m_nodes m)), Hd'. split_and!; try done.
  rewrite <- (dom_fmap_L strip st'), Hd', dom_insert_L, dom_fmap_L.
  apply elem_of_dom_2 in Hv. set_solver.
Qed.

Lemma mark_loop_ok ls m olds : exact (m_desc m) -> has_olds m olds ->
  (forall l, l ∈ ls -> l ∈ rc_elems (m_values m)) -> NoDup (ls ++ olds) ->
  exists m', mark_loop ls m = Ok m' /\ has_olds m' (reverse ls ++ olds) /\ m_desc m' = m_desc m /\
    m_values m' = m_values m /\ fst <$> abs m' = fst <$> abs m /\ dom (m_nodes m') = dom (m_nodes m).
Proof.
  revert m olds; induction ls as [|l ls IH]; intros m olds He Ho Hin Hnd; [by exists m|].
  apply NoDup_cons in Hnd as [Hl Hnd]. rewrite elem_of_app in Hl.
  assert (Hle : l ∈ rc_elems (m_values m)) by (apply Hin; by left).
  destruct (node_ok m l ltac:(split; eauto) Hle) as (v & Hv & Hvok).
  destruct (vo_value _ _ Hvok) as (x & Hx & _).
  destruct (mark_step_ok m olds l v x He Ho Hle ltac:(naive_solver) Hv Hx) as (sf & Hsf & Ho' & Ha' & Hdom).
  destruct (IH (with_list m sf) (l :: olds)) as (m' & Hm' & Ho2 & Hd2 & Ht2 & Ha2 & Hdom2).
  - done.
  - done.
  - intros a Ha. apply Hin. by right.
  - rewrite <- Permutation_middle. constructor; [set_solver|done].
  - exists m'. split_and!; try done.
    + simpl. rewrite (poke_Ok _ _ _ _ Hv). simpl. by rewrite Hsf.
    + rewrite reverse_cons, <- app_assoc. done.
    + rewrite Ha2, Ha', fmap_insert. apply insert_id. rewrite lookup_fmap.
      by rewrite (abs_node_in m l v x ltac:(split; eauto) Hle Hv Hx).
    + by rewrite Hdom2.
Qed.

(** Marking puts every value on the list, provided that none is there already. *)
Lemma mark_ok m : metric_ok m -> (forall k x u, abs m !! k = Some (x, u) -> u = 1) ->
  exists m', mark_old m = Ok m' /\ metric_ok m' /\ m_desc m' = m_desc m /\
    abs m' = (fun xu => (xu.1, 0)) <$> abs m /\ leaked m' = leaked m.
Proof.
  intros Hm Hall. pose proof Hm as (He & olds & Ho). pose proof Ho as [_ Hok].
  assert (olds = []) as ->.
  { destruct olds as [|l olds]; [done|]. assert (l ∈ l :: olds) as Hin by (by left).
    apply (so_old _ _ _ _ _ Hok) in Hin as (Hl & w & Hw & Hz).
    destruct (node_ok m l Hm Hl) as (v & Hv & Hvok). rewrite lookup_fmap, Hv in Hw.
    apply (inj Some) in Hw as <-. destruct (vo_value _ _ Hvok) as (x & Hx & _).
    pose proof (Hall _ _ _ (abs_node_in m l v x Hm Hl Hv Hx)) as Hone. simpl in Hz. lia. }
  destruct (mark_loop_ok (rc_elems (m_values m)) m [] He Ho) as (m' & Hmk & Ho' & Hd & Ht & Ha & Hdom).
  { done. } { rewrite app_nil_r. apply Hok. }
  rewrite app_nil_r in Ho'.
  exists m'. split_and!; [done|split; [by rewrite Hd|by eexists]|done| |unfold leaked; by rewrite Ht, Hdom].
  apply map_eq. intros k. rewrite lookup_fmap.
  assert (fst <$> (abs m' !! k) = fst <$> (abs m !! k)) as Hk by (rewrite <- !lookup_fmap; by rewrite Ha).
  destruct (abs m' !! k) as [[x u]|] eqn:Hk', (abs m !! k) as [[y u']|] eqn:Hk2; try done.
  simpl in *. injection Hk as ->. do 2 f_equal.
  assert (He2 : exact (m_desc m')) by (by rewrite Hd).
  apply (abs_flag m' _ k y u He2 Ho' Hk').
  pose proof Ho' as [_ Hok']. unfold abs in Hk'. rewrite <- abs_data in Hk'.
  apply (abs_lookup _ He2 _ _ _ _ _ _ _ Hok') in Hk' as (l & w & Hl & Hw & Hkw & _).
  rewrite lookup_fmap in Hw. destruct (m_nodes m' !! l) as [v|] eqn:Hv; [|done].
  apply (inj Some) in Hw as <-. exists l, v. split_and!; try done.
  rewrite elem_of_reverse, <- Ht. done.
Qed.
(** ** The contract of a metric

    [spec_op] is what the operations promise: a metric is a finite map from label
    values to a value and a flag.  Pushing onto labels that have a value changes
    nothing; a collection may start only when every value was updated, or cleared,
    since the last one. *)

Inductive mop :=
  | Push (k : list value) (x : value) | Inc (k : list value)
  | Update (k : list value) (x : value) | Clear | ClearOld | Mark.

Definition with_rc {A} (r : ub A) : ub (Z * A) := a ← r; Ok (0, a).

Definition run_op (op : mop) (m : metric) : ub (Z * metric) :=
  match op with
  | Push k x => metric_push m (k ++ [x])
  | Inc k => metric_inc m k
  | Update k x => metric_update m (k ++ [x])
  | Clear => with_rc (metric_clear m)
  | ClearOld => with_rc (metric_clear_old_values m)
  | Mark => with_rc (mark_old m)
  end.

Definition op_typed (d : mdesc) (op : mop) : Prop :=
  match op with
  | Push k x | Update k x => key_ok (label_types d) k /\ has_type x (d_val_type d)
  | Inc k => key_ok (label_types d) k
  | _ => True
  end.

Definition all_fresh (A : gmap (list value) (value * Z)) : bool :=
  bool_decide (map_Forall (fun _ xu => xu.2 = 1) A).

Definition spec_op (t : metric_val_type) (op : mop) (A : gmap (list value) (value * Z)) :
    option (Z * gmap (list value) (value * Z)) :=
  match op with
  | Push k x => Some (0, match A !! k with Some _ => A | None => <[k := (x, 1)]> A end)
  | Inc k =>
      match inc_new t, A !! k with
      | None, _ => Some (EINVAL, A)
      | Some one, None => Some (0, <[k := (one, 1)]> A)
      | Some _, Some (x, _) =>
          match inc_value (Some x) with Ok y => Some (0, <[k := (y, 1)]> A) | UB _ => None end
      end
  | Update k x => Some (0, <[k := (x, 1)]> A)
  | Clear => Some (0, ∅)
  | ClearOld => Some (0, fresh_only A)
  | Mark => if all_fresh A then Some (0, (fun xu => (xu.1, 0)) <$> A) else None
  end.

Lemma step_refines m op rc A' : metric_ok m -> op_typed (m_desc m) op ->
  spec_op (d_val_type (m_desc m)) op (abs m) = Some (rc, A') ->
  exists m', run_op op m = Ok (rc, m') /\ metric_ok m' /\ m_desc m' = m_desc m /\ abs m' = A'.
Proof.
  intros Hm Ht Hs. destruct op as [k x|k|k x| | |]; simpl in *.
  - destruct Ht as [Hk Hx]. injection Hs as <- <-.
    destruct (push_ok m k x Hm Hk Hx) as (m' & ? & ? & ? & ? & _). by exists m'.
  - destruct (inc_new _) as [one|] eqn:Hone.
    + pose proof (inc_ok m k one Hm Ht Hone) as Hi. destruct (abs m !! k) as [[x u]|].
      * destruct (inc_value (Some x)) as [y|] eqn:Hy; [|done]. injection Hs as <- <-.
        destruct (Hi y eq_refl) as (m' & ? & ? & ? & ? & _). by exists m'.
      * injection Hs as <- <-. destruct Hi as (m' & ? & ? & ? & ? & _). by exists m'.
    + injection Hs as <- <-. unfold metric_inc.
      destruct (vlabels_Ok _ k [] Ht) as (lvs & Hvl & _). rewrite app_nil_r in Hvl.
      rewrite Hvl, Hone. simpl. eexists. split; [done|].
      destruct (new_node_ok m (MetricVal None None 1 (m_desc m) lvs None) Hm). done.
  - destruct Ht as [Hk Hx]. injection Hs as <- <-.
    destruct (update_ok m k x Hm Hk Hx) as (m' & ? & ? & ? & ? & _). by exists m'.
  - injection Hs as <- <-. destruct (clear_ok m Hm) as (m' & -> & ? & ? & ? & _). by exists m'.
  - injection Hs as <- <-. destruct (clear_old_ok m Hm) as (m' & -> & ? & ? & ? & _). by exists m'.
  - case_if in Hs; [|done]. injection Hs as <- <-. apply bool_decide_eq_true in E.
    destruct (mark_ok m Hm) as (m' & -> & ? & ? & ? & _); [|by exists m'].
    intros k x u Hk. by apply (E k (x, u)).
Qed.

(** A history of operations, with their results. *)
Fixpoint run_ops (ops : list mop) (m : metric) : ub (list Z * metric) :=
  match ops with
  | [] => Ok ([], m)
  | op :: ops' => '(rc, m1) ← run_op op m; '(rcs, m2) ← run_ops ops' m1; Ok (rc :: rcs, m2)
  end.

Fixpoint spec_ops (t : metric_val_type) (ops : list mop) (A : gmap (list value) (value * Z)) :
    option (list Z * gmap (list value) (value * Z)) :=
  match ops with
  | [] => Some ([], A)
  | op :: ops' =>
      '(rc, A1) ← spec_op t op A; '(rcs, A2) ← spec_ops t ops' A1; Some (rc :: rcs, A2)
  end.

Lemma history_refines ops m rcs A' : metric_ok m -> Forall (op_typed (m_desc m)) ops ->
  spec_ops (d_val_type (m_desc m)) ops (abs m) = Some (rcs, A') ->
  exists m', run_ops ops m = Ok (rcs, m') /\ metric_ok m' /\ m_desc m' = m_desc m /\ abs m' = A'.
Proof.
  revert m rcs; induction ops as [|op ops IH]; intros m rcs Hm Ht Hs; simpl in *.
  { injection Hs as <- <-. by exists m. }
  apply Forall_cons in Ht as [Ht Hts].
  destruct (spec_op _ _ _) as [[rc A1]|] eqn:H1; [|done]. simpl in Hs.
  destruct (step_refines m op rc A1 Hm Ht H1) as (m1 & -> & Hm1 & Hd1 & Ha1).
  destruct (spec_ops _ ops A1) as [[rcs' A2]|] eqn:H2; [|done]. simpl in *. injection Hs as <- <-.
  destruct (IH m1 rcs' Hm1) as (m2 & -> & Hm2 & Hd2 & Ha2); rewrite ?Hd1, ?Ha1; try done.
  exists m2. by rewrite Hd2.
Qed.

(** The metric that [metric_new] makes. *)
Definition new_metric (d : mdesc) (priv : option P) (o : MO) : metric :=
  Metric d rc_empty None priv o ∅ 1.

Lemma new_metric_ok d priv o : exact d -> metric_ok (new_metric d priv o) /\ abs (new_metric d priv o) = ∅.
Proof.
  intros He. unfold metric_ok, has_olds, abs, abs_of, new_metric. simpl. rewrite rc_elems_empty.
  split; [|done]. split; [done|]. exists []. rewrite fmap_empty. split.
  - split_and!; [done|done|constructor].
  - constructor; try done.
    + constructor.
    + intros l Hl. by apply elem_of_nil in Hl.
    + constructor.
    + intros l. split; [intros Hl; by apply elem_of_nil in Hl|intros [Hl _]; by apply elem_of_nil in Hl].
    + intros l [v Hv]. by rewrite lookup_empty in Hv.
Qed.
(** Updates build the map of the last values. *)
Definition updated_map (us : list (list value * value)) : gmap (list value) (value * Z) :=
  foldl (fun A kx => <[kx.1 := (kx.2, 1)]> A) ∅ us.

Lemma updates_spec t us A :
  spec_ops t ((fun kx => Update kx.1 kx.2) <$> us) A =
  Some ((fun _ => 0) <$> us, foldl (fun A kx => <[kx.1 := (kx.2, 1)]> A) A us).
Proof. revert A; induction us as [|[k x] us IH]; intros A; simpl; [done|]. by rewrite IH. Qed.

Lemma spec_ops_app t ops1 ops2 A : spec_ops t (ops1 ++ ops2) A =
  '(rcs1, A1) ← spec_ops t ops1 A; '(rcs2, A2) ← spec_ops t ops2 A1; Some (rcs1 ++ rcs2, A2).
Proof.
  revert A; induction ops1 as [|op ops1 IH]; intros A; simpl.
  - destruct (spec_ops t ops2 A) as [[]|]; done.
  - destruct (spec_op t op A) as [[rc A1]|]; simpl; [|done]. rewrite IH.
    destruct (spec_ops t ops1 A1) as [[rcs1 A2]|]; simpl; [|done].
    destruct (spec_ops t ops2 A2) as [[]|]; done.
Qed.

(** Clearing the old values forgets what was there before the updates. *)
Lemma fresh_updates us A : map_Forall (fun _ xu => xu.2 = 0) A ->
  fresh_only (foldl (fun A kx => <[kx.1 := (kx.2, 1)]> A) A us) = updated_map us.
Proof.
  intros HA. unfold updated_map.
  assert (forall B, map_Forall (fun _ xu => xu.2 = 1) B ->
    fresh_only (foldl (fun A kx => <[kx.1 := (kx.2, 1)]> A) (B ∪ A) us) =
    foldl (fun A kx => <[kx.1 := (kx.2, 1)]> A) B us) as Hg.
  { induction us as [|[k x] us IH]; intros B HB; simpl.
    - apply map_eq. intros k. apply option_eq. intros [x u].
      rewrite map_lookup_filter_Some, lookup_union_Some_raw. simpl. split.
      + intros [[Hb|[_ Ha]] Hu]; [done|]. specialize (HA k _ Ha). simpl in HA. lia.
      + intros Hb. split; [by left|]. by specialize (HB k _ Hb).
    - rewrite <- (IH (<[k := (x, 1)]> B)); [by rewrite insert_union_l|]. by apply map_Forall_insert_2. }
  rewrite <- (Hg ∅); [by rewrite (left_id_L ∅ (∪))|]. apply map_Forall_empty.
Qed.

Lemma updated_map_fresh us : all_fresh (updated_map us).
Proof.
  apply bool_decide_spec. unfold updated_map. apply foldl_inv; [apply map_Forall_empty|].
  intros A [k x] _ HA. by apply map_Forall_insert_2.
Qed.

(** ** Two collections in a row *)

(** The only value of a metric after two collections without an update: it is its
    own successor on the list. *)
Lemma mark_twice m l : metric_ok m -> rc_elems (m_values m) = [l] -> all_fresh (abs m) ->
  exists m1 m2 v, mark_old m = Ok m1 /\ mark_old m1 = Ok m2 /\ rc_elems (m_values m2) = [l] /\
    m_old m2 = Some l /\ m_nodes m2 !! l = Some v /\ le_next v = Some l /\ le_prev v = Some at_head.
Proof.
  intros Hm Hl Hf. apply bool_decide_spec in Hf.
  destruct (node_ok m l Hm) as (v & Hv & Hvok); [rewrite Hl; by left|].
  pose proof Hm as (He & olds & Ho).
  destruct (vo_value _ _ Hvok) as (x & Hx & _).
  pose proof (abs_node_in m l v x Hm ltac:(rewrite Hl; by left) Hv Hx) as Ha.
  pose proof (Hf _ _ Ha) as Hu. simpl in Hu.
  assert (Hno : m_old m = None).
  { destruct Ho as [(Hh & _) Hok]. rewrite Hh. destruct olds as [|a olds]; [done|].
    assert (a ∈ a :: olds) as Hin by (by left).
    apply (so_old _ _ _ _ _ Hok) in Hin as (Hin & w & Hw & Hz). rewrite Hl in Hin.
    apply list_elem_of_singleton in Hin as ->. rewrite lookup_fmap, Hv in Hw.
    apply (inj Some) in Hw as <-. simpl in Hz. lia. }
  unfold mark_old. rewrite Hl. simpl. rewrite (poke_Ok _ _ _ _ Hv). simpl.
  unfold LIST_INSERT_HEAD. rewrite Hno.
  erewrite poke_Ok by apply lookup_insert_eq. simpl. erewrite poke_Ok by apply lookup_insert_eq. simpl.
  eexists. eexists. eexists. split; [done|]. simpl. rewrite Hl. simpl.
  erewrite poke_Ok by apply lookup_insert_eq. simpl. unfold LIST_INSERT_HEAD.
  erewrite poke_Ok by apply lookup_insert_eq. simpl.
  erewrite poke_Ok by apply lookup_insert_eq. simpl.
  erewrite poke_Ok by apply lookup_insert_eq. simpl.
  split; [done|]. split_and!; [done|done|apply lookup_insert_eq|done|done].
Qed.
(** ** Properties *)

(** C3: A metric behaves as a finite map from the values of its labels to a value and
    an [updated] flag: every history of well-typed operations on a new metric whose
    labels are not doubles returns what [spec_ops] says, without a fault, and leaves
    the tree with the contents of that map. *)
Theorem metric_refines d priv o ops rcs A : exact d -> Forall (op_typed d) ops ->
  spec_ops (d_val_type d) ops ∅ = Some (rcs, A) ->
  exists m, run_ops ops (new_metric d priv o) = Ok (rcs, m) /\ abs m = A.
Proof.
  intros He Ht Hs. destruct (new_metric_ok d priv o He) as [Hm Ha].
  destruct (history_refines ops (new_metric d priv o) rcs A Hm Ht) as (m & Hr & _ & _ & Hm');
    [by rewrite Ha|]. by exists m.
Qed.

(** C37: Typing: after any such history every node of the tree has the labels of the
    metric, with label values and a value of the types that the metric gives (the
    integers in their range), a flag that is 0 or 1, and the comparison of any two
    nodes is defined: the [errx] of [compare_label_val] is never reached. *)
Theorem metric_well_typed d priv o ops rcs A : exact d -> Forall (op_typed d) ops ->
  spec_ops (d_val_type d) ops ∅ = Some (rcs, A) ->
  exists m, run_ops ops (new_metric d priv o) = Ok (rcs, m) /\
    (forall l, l ∈ rc_elems (m_values m) -> exists v, m_nodes m !! l = Some v /\ val_ok d v) /\
    (forall l l' v v', l ∈ rc_elems (m_values m) -> l' ∈ rc_elems (m_values m) ->
       m_nodes m !! l = Some v -> m_nodes m !! l' = Some v' ->
       exists z, compare_metric_vals v v' = Ok z /\ (z = 0 <-> l = l')).
Proof.
  intros He Ht Hs. destruct (new_metric_ok d priv o He) as [Hm Ha].
  destruct (history_refines ops (new_metric d priv o) rcs A Hm Ht) as (m & Hr & Hok & Hd & _);
    [by rewrite Ha|]. exists m. split; [done|].
  assert (Hv : forall l, l ∈ rc_elems (m_values m) -> exists v, m_nodes m !! l = Some v /\ val_ok d v).
  { intros l Hl. destruct (node_ok m l Hok Hl) as (v & Hv & Hvok). rewrite Hd in Hvok. by exists v. }
  split; [done|]. intros l l' v v' Hl Hl' Hlv Hlv'.
  destruct (Hv l Hl) as (w & ? & Hw), (Hv l' Hl') as (w' & ? & Hw'). simplify_eq.
  eexists. split; [by apply (compare_ok d)|].
  rewrite (klex_zero (label_types d)); [|done|apply Hw|apply Hw'].
  destruct Hok as (He' & olds & _ & Hso). split; [|naive_solver]. intros Hk.
  apply (key_inj _ He' _ _ _ _ l l' (strip v) (strip v') Hso); try done;
    rewrite lookup_fmap; [by rewrite Hlv|by rewrite Hlv'].
Qed.

(** A whole collection cycle, marking, then any updates, then
    [metric_clear_old_values], never faults and leaves exactly the updated label
    values, each with its last value; the values left are all up to date, so that the
    next cycle may start. *)
Theorem collection_cycle m us : metric_ok m -> all_fresh (abs m) ->
  Forall (fun kx => key_ok (label_types (m_desc m)) kx.1 /\ has_type kx.2 (d_val_type (m_desc m))) us ->
  exists m', run_ops (Mark :: ((fun kx => Update kx.1 kx.2) <$> us) ++ [ClearOld]) m =
      Ok (0 :: ((fun _ => 0) <$> us) ++ [0], m') /\
    metric_ok m' /\ abs m' = updated_map us /\ all_fresh (abs m').
Proof.
  intros Hm Hf Hus.
  destruct (history_refines (Mark :: ((fun kx => Update kx.1 kx.2) <$> us) ++ [ClearOld]) m
    (0 :: ((fun _ => 0) <$> us) ++ [0]) (updated_map us) Hm) as (m' & Hr & Hm' & _ & Ha).
  - constructor; [done|]. apply Forall_app. split; [|by repeat constructor].
    by apply Forall_fmap.
  - simpl. destruct (all_fresh (abs m)); [|done]. simpl.
    rewrite spec_ops_app, updates_spec. simpl. rewrite fresh_updates; [done|].
    intros k [x u]. rewrite lookup_fmap, fmap_Some. naive_solver.
  - exists m'. split_and!; try done. rewrite Ha. apply updated_map_fresh.
Qed.

(** Two collections without an update or a clearing in between corrupt the list of
    the old values: for a metric with one value the node becomes its own successor,
    and [metric_clear_old_values] then uses the node after freeing it. *)
Theorem collect_twice_faults m l : metric_ok m -> rc_elems (m_values m) = [l] -> all_fresh (abs m) ->
  (m1 ← mark_old m; m2 ← mark_old m1; metric_clear_old_values m2) = UB use_after_free.
Proof.
  intros Hm Hl Hf. destruct (mark_twice m l Hm Hl Hf) as (m1 & m2 & v & -> & Hm2 & Hl2 & Ho & Hv & Hn & Hp).
  simpl. rewrite Hm2. simpl. unfold metric_clear_old_values.
  destruct (size (m_nodes m2)) as [|n] eqn:Hsz.
  { apply map_size_empty_inv in Hsz. by rewrite Hsz, lookup_empty in Hv. }
  simpl. rewrite Ho. unfold LIST_REMOVE, node. rewrite Hv. simpl. rewrite Hn.
  rewrite (poke_Ok _ _ _ _ Hv). simpl. rewrite lookup_insert_eq. simpl. rewrite Hp. simpl.
  unfold free_metric_val, node. simpl. rewrite lookup_insert_eq. simpl. rewrite Hn.
  by rewrite lookup_delete_eq.
Qed.

(** [metric_push] of labels that already have a value returns 0, keeps the old
    value, and leaks the new node. *)
Theorem push_collision m k x y : metric_ok m -> key_ok (label_types (m_desc m)) k ->
  has_type x (d_val_type (m_desc m)) -> abs m !! k = Some y ->
  exists m', metric_push m (k ++ [x]) = Ok (0, m') /\ abs m' = abs m /\
    leaked m' = {[m_brk m]} ∪ leaked m /\ m_brk m ∉ leaked m.
Proof.
  intros Hm Hk Hx Hy. destruct (push_ok m k x Hm Hk Hx) as (m' & Hp & _ & _ & Ha & Hl).
  rewrite Hy in Ha, Hl. exists m'. split_and!; try done.
  destruct (brk_fresh m Hm) as [Hb _]. apply not_elem_of_dom in Hb. unfold leaked. set_solver.
Qed.
End Operations.

(** ** Witnesses *)

#[local] Open Scope string_scope.
#[local] Open Scope Z_scope.


Definition sample_desc : mdesc :=
  Mdesc 1 "requests_total" "requests" METRIC_COUNTER METRIC_VAL_UINT64
    [Label 2 (Some 1%positive) "op" METRIC_VAL_STRING].
Definition sample_ops : list mop :=
  [Update [val_string "read"] (val_uint64 7); Inc [val_string "read"]; Mark;
   Push [val_string "open"] (val_uint64 3); ClearOld].
Definition sample_metric : metric (list loc) unit unit := new_metric sample_desc None ().
(** The metric after one update. *)
Definition one_value : metric (list loc) unit unit :=
  match metric_update sample_metric [val_string "read"; val_uint64 7] with
  | Ok (_, m) => m | UB _ => sample_metric end.

Lemma sample_exact : exact sample_desc.
Proof. by repeat constructor. Qed.

Lemma sample_typed : Forall (op_typed sample_desc) sample_ops.
Proof. repeat constructor. Qed.

Definition sample_map : gmap (list value) (value * Z) :=
  {[ [val_string "open"] := (val_uint64 3, 1) ]}.

Lemma sample_spec : spec_ops METRIC_VAL_UINT64 sample_ops ∅ = Some ([0; 0; 0; 0; 0], sample_map).
Proof. apply (bool_decide_unpack _). vm_compute. exact I. Qed.

Lemma one_value_ok : metric_ok one_value.
Proof.
  destruct (new_metric_ok (T := list loc) sample_desc (@None unit) () sample_exact) as [Hm _].
  destruct (update_ok _ [val_string "read"] (val_uint64 7) Hm) as (m' & He & Hok & _);
    [by repeat constructor|done|].
  unfold one_value, sample_metric. simpl app in He. by rewrite He.
Qed.

Lemma metric_refines_witness :
  exists m : metric (list loc) unit unit,
    run_ops sample_ops (new_metric sample_desc None ()) = Ok ([0; 0; 0; 0; 0], m) /\
    abs m = sample_map.
Proof.
  exact (metric_refines sample_desc None () sample_ops _ _ sample_exact sample_typed sample_spec).
Defined.

Lemma metric_well_typed_witness :
  exists m : metric (list loc) unit unit,
    run_ops sample_ops (new_metric sample_desc None ()) = Ok ([0; 0; 0; 0; 0], m) /\
    (forall l, l ∈ rc_elems (m_values m) -> exists v, m_nodes m !! l = Some v /\ val_ok sample_desc v) /\
    (forall l l' v v', l ∈ rc_elems (m_values m) -> l' ∈ rc_elems (m_values m) ->
       m_nodes m !! l = Some v -> m_nodes m !! l' = Some v' ->
       exists z, compare_metric_vals v v' = Ok z /\ (z = 0 <-> l = l')).
Proof.
  exact (metric_well_typed sample_desc None () sample_ops _ _ sample_exact sample_typed sample_spec).
Defined.

Lemma collection_cycle_witness :
  exists m', run_ops [Mark; Update [val_string "open"] (val_uint64 3); ClearOld] one_value =
      Ok ([0; 0; 0], m') /\
    metric_ok m' /\ abs m' = updated_map [([val_string "open"], val_uint64 3)] /\ all_fresh (abs m').
Proof.
  apply (collection_cycle one_value [([val_string "open"], val_uint64 3)] one_value_ok).
  - apply (bool_decide_unpack _). vm_compute. exact I.
  - repeat constructor.
Defined.

Lemma collect_twice_faults_witness :
  (m1 ← mark_old one_value; m2 ← mark_old m1; metric_clear_old_values m2) = UB use_after_free.
Proof.
  apply (collect_twice_faults one_value 1%positive one_value_ok).
  - vm_compute. reflexivity.
  - apply (bool_decide_unpack _). vm_compute. exact I.
Defined.

Lemma push_collision_witness :
  exists m', metric_push one_value ([val_string "read"] ++ [val_uint64 9]) = Ok (0, m') /\
    abs m' = abs one_value /\
    leaked m' = {[m_brk one_value]} ∪ leaked one_value /\ m_brk one_value ∉ leaked one_value.
Proof.
  apply (push_collision one_value [val_string "read"] (val_uint64 9) (val_uint64 7, 1) one_value_ok).
  - by repeat constructor.
  - done.
  - apply (bool_decide_unpack _). vm_compute. exact I.
Defined.
