(* ===== verification/MetricsMods.v ===== *)
(** * The collecting modules of the statistics server (2.libevent-server/src/collect_*.c)

    Each module makes its metrics in [mm_register], and in [mm_collect] asks the
    kernel for numbers, with [sysctl], and updates the metrics with them.  What the
    kernel answers is an input, [kernel]: [None] for a [sysctl] that fails.  The
    structures that the kernel fills are in OpenBSD's headers; their records below
    have the fields that the modules use.  A field is passed as the argument that
    [metric_update] reads as a [uint64_t].

    The theorems are about whole scrapes: any number of complete scrapes runs
    without a fault, and after each one the registry holds the readings of that
    scrape and nothing else; one incomplete scrape breaks this. *)

From S2P Require Import Prelude RBTree Metrics MetricsProofs.

#[local] Open Scope string_scope.
#[local] Open Scope Z_scope.

Inductive mod_id :=
  | collect_pf_ops | collect_cpu_ops | collect_if_ops | collect_uvm_ops
  | collect_pools_ops | collect_procs_ops | collect_disk_ops | collect_ip_ops.

Definition modops : list mod_id :=
  [collect_pf_ops; collect_cpu_ops; collect_if_ops; collect_uvm_ops;
   collect_pools_ops; collect_procs_ops; collect_disk_ops; collect_ip_ops].

(** The private data of a module: its metrics in the order of [mm_register], and the
    size of its buffer ([bsize] of if_modpriv, [zstats] of disk_modpriv). *)
Record modpriv := Modpriv { mp_metrics : list positive; mp_size : Z }.

(** ** What the kernel tells *)

Record pf_status := PfStatus {
  running : Z; states : Z; fcounters : Z * Z * Z (* search, insert, removals *);
  src_nodes : Z; scounters : Z * Z * Z (* search, insert, removals *);
  lcnt_states : Z; lcnt_srcstates : Z; lcnt_srcnodes : Z; lcnt_srcconn : Z;
  lcnt_srcconnrate : Z; lcnt_overload_table : Z; lcnt_overload_flush : Z;
  counters : nat -> Z }.

Record cpustats := Cpustats {
  cp_user : Z; cp_nice : Z; cp_sys : Z; cp_spin : Z; cp_intr : Z; cp_idle : Z }.

(** A [struct sockaddr] as the interface module reads it: family, length of the
    name and the name. *)
Record sockaddr := Sockaddr { sdl_family : Z; sdl_nlen : Z; sdl_data : string }.

(** A routing message: the addresses that follow it are those whose bits are set in
    [ifm_addrs]. *)
Record if_msghdr := IfMsghdr {
  ifm_version : Z; ifm_type : Z; ifm_addrs : Z; ifm_sas : list sockaddr;
  ifi_ipackets : Z; ifi_ibytes : Z; ifi_ierrors : Z; ifi_iqdrops : Z;
  ifi_opackets : Z; ifi_obytes : Z; ifi_oerrors : Z; ifi_oqdrops : Z }.

Record uvmexp := Uvmexp { uvm_free : Z; uvm_active : Z; uvm_inactive : Z; uvm_npages : Z; uvm_pagesize : Z }.

Record kinfo_pool := KinfoPool {
  pr_size : Z; pr_nitems : Z; pr_nout : Z; pr_nget : Z; pr_nput : Z; pr_nfail : Z;
  pr_npagealloc : Z; pr_npagefree : Z; pr_hiwat : Z; pr_nidle : Z }.

Record diskstats := Diskstats {
  ds_name : string; ds_rxfer : Z; ds_wxfer : Z; ds_rbytes : Z; ds_wbytes : Z;
  tv_sec : Z; tv_usec : Z }.

Record kernel := Kernel {
  k_pf : option pf_status;
  k_cpu : option cpustats;
  k_if_need : option Z; k_if_malloc : bool; k_if : option (list if_msghdr);
  k_uvm : option uvmexp;
  k_npools : option nat; k_pool_name : nat -> option string; k_pool : nat -> option kinfo_pool;
  k_nfiles : option Z; k_nprocs : option Z; k_nthreads : option Z;
  k_maxfiles : option Z; k_maxproc : option Z; k_maxthread : option Z;
  k_diskcount : option nat; k_disk_malloc : bool; k_disks : option (list diskstats);
  k_ip : option (string -> Z) (* the fields of struct ipstat by name *) }.

(** What the modules do with the registry. *)
Inductive action :=
  | Upd (m : option positive) (k : list string) (x : Z) | ClearO (m : option positive).

(** From the headers: the names of the reasons for dropped packets (up to NULL), the
    constants of the routing messages, the size of [struct diskstats]; and the type
    [METRIC_VAL_UINT32], which the header metrics.h does not declare. *)
Record headers := Headers {
  PFRES_NAMES : list string; RTM_VERSION : Z; RTM_IFINFO : Z; RTA_IFP : Z; AF_LINK : Z;
  RTAX_MAX : nat; RTAX_IFP : nat; sizeof_diskstats : Z; METRIC_VAL_UINT32 : metric_val_type }.

Section Modules.
Context (h : headers).

Context {T : Type} `{!RBCmp positive T}.

Abbreviation registry := (registry T modpriv mod_id unit).

(** ** Registration *)

(** One call of [metric_new]: name, help, type, value type and labels. *)
Record mspec := Mspec {
  s_name : string; s_help : string; s_type : metric_type; s_vtype : metric_val_type;
  s_labels : list (string * metric_val_type) }.

Fixpoint new_labels (ls : list (string * metric_val_type)) (r : registry) : list label * registry :=
  match ls with
  | [] => ([], r)
  | (name, t) :: ls' =>
      let '(l, r1) := new_label r name t in
      let '(ls1, r2) := new_labels ls' r1 in (l :: ls1, r2)
  end.

(** The calls of a module, all with its [metric_ops], whose callbacks are NULL. *)
Fixpoint new_metrics (ss : list mspec) (r : registry) : ub (list positive * registry) :=
  match ss with
  | [] => Ok ([], r)
  | s :: ss' =>
      let '(ls, r1) := new_labels (s_labels s) r in
      '(id, r2) ← metric_new r1 (s_name s) (s_help s) (s_type s) (s_vtype s) None (Some ()) ls;
      '(ids, r3) ← new_metrics ss' r2;
      Ok (id :: ids, r3)
  end.

Definition gauge64 (name help : string) (ls : list string) : mspec :=
  Mspec name help METRIC_GAUGE METRIC_VAL_UINT64 ((fun l => (l, METRIC_VAL_STRING)) <$> ls).
Definition counter64 (name help : string) (ls : list string) : mspec :=
  Mspec name help METRIC_COUNTER METRIC_VAL_UINT64 ((fun l => (l, METRIC_VAL_STRING)) <$> ls).
Definition gauge32 (name help : string) : mspec :=
  Mspec name help METRIC_GAUGE (METRIC_VAL_UINT32 h) [].

Definition pf_register : list mspec := [
  gauge64 "pf_running" "Indicates whether pf is running" [];
  gauge64 "pf_states" "Number of states currently tracked by pf" [];
  counter64 "pf_state_ops_total" "Number of pf state-related operations executed" ["op"];
  gauge64 "pf_src_nodes" "Number of source count nodes currently tracked by pf" [];
  counter64 "pf_src_node_ops_total" "Number of pf srcnode-related operations executed" ["op"];
  counter64 "pf_state_limit_hits_total" "Number of times the global pf state limit has been hit" [];
  counter64 "pf_src_limit_hits_total"
    "Number of times various kinds of pf src limits have been hit" ["limit"];
  counter64 "pf_overload_adds_total"
    "Number of times entries have been added to overload tables" [];
  counter64 "pf_overload_flushes_total"
    "Number of times entries have been flushed from overload tables" [];
  counter64 "pf_drops_total"
    "Number of times packets have been dropped due to different pf-related reasons" ["reason"]].

Definition cpu_register : list mspec :=
  [counter64 "cpu_time_spent_total" "Time spent in different CPU states" ["state"]].

Definition if_register : list mspec := [
  counter64 "net_packets_in_total" "Number of input packets received" ["interface"];
  counter64 "net_bytes_in_total" "Number of input bytes received" ["interface"];
  counter64 "net_errors_in_total" "Number of input errors encountered" ["interface"];
  counter64 "net_qdrops_in_total" "Number of input queue drops encountered" ["interface"];
  counter64 "net_packets_out_total" "Number of output packets sent" ["interface"];
  counter64 "net_bytes_out_total" "Number of output bytes sent" ["interface"];
  counter64 "net_errors_out_total" "Number of output errors encountered" ["interface"];
  counter64 "net_qdrops_out_total" "Number of output queue drops encountered" ["interface"]].

Definition uvm_register : list mspec := [
  gauge64 "uvm_free_bytes" "Bytes in pages marked 'free' in UVM" [];
  gauge64 "uvm_active_bytes" "Bytes in pages marked 'active' in UVM" [];
  gauge64 "uvm_inactive_bytes" "Bytes in pages marked 'inactive' in UVM" [];
  gauge64 "uvm_total_bytes" "Total bytes in pages managed by uvm" []].

Definition pools_register : list mspec := [
  gauge64 "pool_item_size_bytes" "Size of an item in a particular pool" ["pool"];
  gauge64 "pool_items" "Number of items in a particular pool" ["pool"];
  gauge64 "pool_items_allocated" "Number of items allocated from a particular pool" ["pool"];
  counter64 "pool_gets_total" "Number of times a pool has allocated an item successfully" ["pool"];
  counter64 "pool_puts_total" "Number of times a pool has released an item successfully" ["pool"];
  counter64 "pool_fails_total" "Number of times a pool has failed to allocate an item" ["pool"];
  counter64 "pool_page_allocs_total" "Number of times a pool has allocated a new page" ["pool"];
  counter64 "pool_page_frees_total" "Number of times a pool has released a page" ["pool"];
  gauge64 "pool_pages_max_allocated"
    "Maximum number of pages a pool has allocated at once (high water mark)" ["pool"];
  gauge64 "pool_pages_idle" "Number of idle pages currently in a pool" ["pool"]].

Definition procs_register : list mspec := [
  gauge64 "system_files_open" "Total number of files open on the system" [];
  gauge64 "system_max_files_open" "Maximum number of files which can be open on the system" [];
  gauge64 "system_processes_running" "Total number of processes running on the system" [];
  gauge64 "system_max_processes_running"
    "Maximum number of processes which can be running on the system" [];
  gauge64 "system_threads_running" "Total number of threads running on the system" [];
  gauge64 "system_max_threads_running"
    "Maximum number of threads which can be running on the system" []].

Definition disk_register : list mspec := [
  counter64 "io_device_read_ops_total" "Count of read operations completed by an I/O device" ["device"];
  counter64 "io_device_write_ops_total" "Count of write operations completed by an I/O device" ["device"];
  counter64 "io_device_read_bytes_total" "Count of bytes read from an I/O device" ["device"];
  counter64 "io_device_written_bytes_total" "Count of bytes written to an I/O device" ["device"];
  counter64 "io_device_busy_nsec_total"
    "IO device busy (service) total time in nanoseconds" ["device"]].

Definition ip_register : list mspec := [
  gauge32 "ip_total" "total packets received by ip";
  gauge64 "ip_delivered" "packets sent for this host" [];
  gauge64 "ip_delivered_ops" "total packets sent for this host dropped for various reasons" ["reason"];
  gauge32 "ip_localout" "packets sent to this host";
  gauge64 "ip_localout_ops" "total packets sent to this host dropped for various reasons" ["reason"];
  gauge32 "ip_inswcsum" "input datagram software-checksummed";
  gauge64 "ip_outswcsum" "output datagram software-checksummed" []].

Definition specs (o : mod_id) : list mspec :=
  match o with
  | collect_pf_ops => pf_register | collect_cpu_ops => cpu_register
  | collect_if_ops => if_register | collect_uvm_ops => uvm_register
  | collect_pools_ops => pools_register | collect_procs_ops => procs_register
  | collect_disk_ops => disk_register | collect_ip_ops => ip_register
  end.

(** The buffers that a module allocates; [disk_malloc] is the outcome for the disks,
    the interface module exits when it gets none. *)
Definition buffer_size (disk_malloc : bool) (o : mod_id) : Z :=
  match o with
  | collect_if_ops => 64 * 1024
  | collect_disk_ops => if disk_malloc then 16 * (sizeof_diskstats h) else 0
  | _ => 0
  end.

Definition register (if_malloc disk_malloc : bool) (o : mod_id) (r : registry) :
    ub (option modpriv * registry) :=
  if (match o with collect_if_ops => negb if_malloc | _ => false end) then UB exits
  else '(ids, r1) ← new_metrics (specs o) r; Ok (Some (Modpriv ids (buffer_size disk_malloc o)), r1).

(** ** Collection *)

(** The metric that the [i]-th call of [mm_register] made. *)
Definition mth (p : modpriv) (i : nat) : option positive := nth_error (mp_metrics p) i.

Definition clear_all (p : modpriv) (ixs : list nat) : list action := (fun i => ClearO (mth p i)) <$> ixs.

Definition pf_collect (k : kernel) (p : modpriv) : list action :=
  match k_pf k with
  | None => []
  | Some st =>
      let '(f1, f2, f3) := fcounters st in
      let '(s1, s2, s3) := scounters st in
      [Upd (mth p 0) [] (running st); Upd (mth p 1) [] (states st);
       Upd (mth p 2) ["search"] f1; Upd (mth p 2) ["insert"] f2; Upd (mth p 2) ["remove"] f3;
       Upd (mth p 3) [] (src_nodes st);
       Upd (mth p 4) ["search"] s1; Upd (mth p 4) ["insert"] s2; Upd (mth p 4) ["remove"] s3;
       Upd (mth p 5) [] (lcnt_states st);
       Upd (mth p 6) ["max-src-states"] (lcnt_srcstates st);
       Upd (mth p 6) ["max-src-nodes"] (lcnt_srcnodes st);
       Upd (mth p 6) ["max-src-conn"] (lcnt_srcconn st);
       Upd (mth p 6) ["max-src-conn-rate"] (lcnt_srcconnrate st);
       Upd (mth p 7) [] (lcnt_overload_table st); Upd (mth p 8) [] (lcnt_overload_flush st)] ++
      imap (fun i name => Upd (mth p 9) [name] (counters st i)) (PFRES_NAMES h)
  end%list.

Definition cpu_collect (k : kernel) (p : modpriv) : list action :=
  match k_cpu k with
  | None => []
  | Some st =>
      [Upd (mth p 0) ["user"] (cp_user st); Upd (mth p 0) ["nice"] (cp_nice st);
       Upd (mth p 0) ["sys"] (cp_sys st); Upd (mth p 0) ["spin"] (cp_spin st);
       Upd (mth p 0) ["intr"] (cp_intr st); Upd (mth p 0) ["idle"] (cp_idle st)]
  end.

(** [rt_getaddrinfo]: the addresses by their index; [i] counts down the turns. *)
Fixpoint getaddrinfo_loop (turns i : nat) (addrs : Z) (sas : list sockaddr) : list (option sockaddr) :=
  match turns with
  | O => []
  | S turns' =>
      if Z.testbit addrs (Z.of_nat i)
      then match sas with
           | sa :: sas' => Some sa :: getaddrinfo_loop turns' (S i) addrs sas'
           | [] => None :: getaddrinfo_loop turns' (S i) addrs []
           end
      else None :: getaddrinfo_loop turns' (S i) addrs sas
  end.
Definition rt_getaddrinfo (addrs : Z) (sas : list sockaddr) : list (option sockaddr) :=
  getaddrinfo_loop (RTAX_MAX h) 0 addrs sas.

Definition IFNAMSIZ : Z := 16.

(** One message of the loop of [if_collect]. *)
Definition if_message (p : modpriv) (ifm : if_msghdr) : ub (list action) :=
  if negb (ifm_version ifm =? (RTM_VERSION h)) || negb (ifm_type ifm =? (RTM_IFINFO h))
     || (Z.land (ifm_addrs ifm) (RTA_IFP h) =? 0) then Ok []
  else
    match nth (RTAX_IFP h) (rt_getaddrinfo (ifm_addrs ifm) (ifm_sas ifm)) None with
    | Some sdl =>
        if (sdl_family sdl =? (AF_LINK h)) && (0 <? sdl_nlen sdl) then
          if IFNAMSIZ <=? sdl_nlen sdl then UB out_of_bounds
          else
            let name := String.substring 0 (Z.to_nat (sdl_nlen sdl)) (sdl_data sdl) in
            Ok [Upd (mth p 0) [name] (ifi_ipackets ifm); Upd (mth p 1) [name] (ifi_ibytes ifm);
                Upd (mth p 2) [name] (ifi_ierrors ifm); Upd (mth p 3) [name] (ifi_iqdrops ifm);
                Upd (mth p 4) [name] (ifi_opackets ifm); Upd (mth p 5) [name] (ifi_obytes ifm);
                Upd (mth p 6) [name] (ifi_oerrors ifm); Upd (mth p 7) [name] (ifi_oqdrops ifm)]
        else Ok []
    | None => Ok []
    end.

Fixpoint if_messages (p : modpriv) (ms : list if_msghdr) : ub (list action) :=
  match ms with
  | [] => Ok []
  | ifm :: ms' => a ← if_message p ifm; b ← if_messages p ms'; Ok (a ++ b)%list
  end.

(** [buf] was read from [priv->buf] before the buffer is replaced by a larger one:
    then the second [sysctl] writes to the freed buffer. *)
Definition if_collect (k : kernel) (p : modpriv) : ub (list action) :=
  match k_if_need k with
  | None => Ok []
  | Some need =>
      if mp_size p <? need then if k_if_malloc k then UB use_after_free else Ok []
      else
        match k_if k with
        | None => Ok []
        | Some ms => acts ← if_messages p ms; Ok (acts ++ clear_all p (seq 0 8))%list
        end
  end.

Definition uvm_bytes (pages pagesize : Z) : Z := u64 (u64 pages * u64 pagesize).

Definition uvm_collect (k : kernel) (p : modpriv) : list action :=
  match k_uvm k with
  | None => []
  | Some st =>
      [Upd (mth p 0) [] (uvm_bytes (uvm_free st) (uvm_pagesize st));
       Upd (mth p 1) [] (uvm_bytes (uvm_active st) (uvm_pagesize st));
       Upd (mth p 2) [] (uvm_bytes (uvm_inactive st) (uvm_pagesize st));
       Upd (mth p 3) [] (uvm_bytes (uvm_npages st) (uvm_pagesize st))]
  end.

(** The loop of [pools_collect] from pool [i] on; [false]: a [sysctl] failed. *)
Fixpoint pools_loop (k : kernel) (p : modpriv) (n i : nat) : list action * bool :=
  match n with
  | O => ([], true)
  | S n' =>
      match k_pool_name k i, k_pool k i with
      | Some name, Some st =>
          let '(acts, b) := pools_loop k p n' (S i) in
          ([Upd (mth p 0) [name] (pr_size st); Upd (mth p 1) [name] (pr_nitems st);
            Upd (mth p 2) [name] (pr_nout st); Upd (mth p 3) [name] (pr_nget st);
            Upd (mth p 4) [name] (pr_nput st); Upd (mth p 5) [name] (pr_nfail st);
            Upd (mth p 6) [name] (pr_npagealloc st); Upd (mth p 7) [name] (pr_npagefree st);
            Upd (mth p 8) [name] (pr_hiwat st); Upd (mth p 9) [name] (pr_nidle st)] ++ acts, b)%list
      | _, _ => ([], false)
      end
  end.

Definition pools_collect (k : kernel) (p : modpriv) : list action :=
  match k_npools k with
  | None => []
  | Some npools =>
      let '(acts, b) := pools_loop k p npools 1 in
      if b : bool then (acts ++ clear_all p (seq 0 10))%list else acts
  end.

(** One [sysctl] after the other, up to the first that fails. *)
Fixpoint procs_steps (p : modpriv) (ss : list (nat * option Z)) : list action :=
  match ss with
  | (i, Some v) :: ss' => Upd (mth p i) [] (u64 v) :: procs_steps p ss'
  | _ => []
  end.

Definition procs_collect (k : kernel) (p : modpriv) : list action :=
  procs_steps p [(0%nat, k_nfiles k); (2%nat, k_nprocs k); (4%nat, k_nthreads k);
                 (1%nat, k_maxfiles k); (3%nat, k_maxproc k); (5%nat, k_maxthread k)].

Definition zero_disk : diskstats := Diskstats "" 0 0 0 0 0 0.

Definition disk_one (p : modpriv) (d : diskstats) : list action :=
  let t := u64 (u64 (tv_usec d * 1000) + u64 (tv_sec d * 1000000000)) in
  [Upd (mth p 0) [ds_name d] (ds_rxfer d); Upd (mth p 1) [ds_name d] (ds_wxfer d);
   Upd (mth p 2) [ds_name d] (ds_rbytes d); Upd (mth p 3) [ds_name d] (ds_wbytes d);
   Upd (mth p 4) [ds_name d] t].

Definition disk_collect (k : kernel) (p : modpriv) : list action * modpriv :=
  match k_diskcount k with
  | None => ([], p)
  | Some n =>
      let size := Z.of_nat n * (sizeof_diskstats h) in
      if (mp_size p <? size) && negb (k_disk_malloc k) then ([], Modpriv (mp_metrics p) 0)
      else
        let p' := Modpriv (mp_metrics p) (Z.max (mp_size p) size) in
        match k_disks k with
        | None => ([], p')
        | Some ds =>
            (((seq 0 n) ≫= fun i => disk_one p (nth i ds zero_disk)) ++ clear_all p (seq 0 5), p')%list
        end
  end.

Definition ip_reasons : list (string * string) := [
  ("badsum", "ips_badsum"); ("toosmall", "ips_toosmall"); ("tooshort", "ips_tooshort");
  ("badhlen", "ips_badhlen"); ("badlen", "ips_badlen"); ("badoptions", "ips_badoptions");
  ("badvers", "ips_badvers"); ("fragments", "ips_fragments"); ("fragdropped", "ips_fragdropped");
  ("badfrags", "ips_badfrags"); ("fragtimeout", "ips_fragtimeout");
  ("reassembled", "ips_reassembled"); ("noproto", "ips_noproto"); ("forward", "ips_forward");
  ("cantforward", "ips_cantforward"); ("redirectsent", "ips_redirectsent")].

Definition ip_out_reasons : list (string * string) := [
  ("rawout", "ips_rawout"); ("odropped", "ips_odropped"); ("noroute", "ips_noroute");
  ("fragmented", "ips_fragmented"); ("ofragments", "ips_ofragments"); ("cantfrag", "ips_cantfrag");
  ("rcvmemdrop", "ips_rcvmemdrop"); ("toolong", "ips_toolong"); ("nogif", "ips_nogif");
  ("badaddr", "ips_badaddr"); ("notmember", "ips_notmember"); ("wrongif", "ips_wrongif")].

Definition ip_collect (k : kernel) (p : modpriv) : list action :=
  match k_ip k with
  | None => []
  | Some st =>
      [Upd (mth p 0) [] (st "ips_total"); Upd (mth p 1) [] (st "ips_delivered")] ++
      ((fun kf => Upd (mth p 2) [kf.1] (st kf.2)) <$> ip_reasons) ++
      [Upd (mth p 3) [] (st "ips_localout")] ++
      ((fun kf => Upd (mth p 4) [kf.1] (st kf.2)) <$> ip_out_reasons) ++
      [Upd (mth p 5) [] (st "ips_inswcsum"); Upd (mth p 6) [] (st "ips_outswcsum")] ++
      clear_all p [0; 1; 3; 5; 6]%nat
  end%list.

Definition collect (k : kernel) (o : mod_id) (p : modpriv) : ub (list action * modpriv) :=
  match o with
  | collect_pf_ops => Ok (pf_collect k p, p)
  | collect_cpu_ops => Ok (cpu_collect k p, p)
  | collect_if_ops => acts ← if_collect k p; Ok (acts, p)
  | collect_uvm_ops => Ok (uvm_collect k p, p)
  | collect_pools_ops => Ok (pools_collect k p, p)
  | collect_procs_ops => Ok (procs_collect k p, p)
  | collect_disk_ops => Ok (disk_collect k p)
  | collect_ip_ops => Ok (ip_collect k p, p)
  end.

(** The calls of [metric_update] and [metric_clear_old_values]; every number is read
    as a [uint64_t]. *)
Definition upd_args (k : list string) (x : Z) : list value :=
  (val_string <$> k) ++ [val_uint64 (u64 x)].

Definition run_action (a : action) (r : registry) : ub registry :=
  match a with
  | Upd m k x => id ← deref m; '(_, r') ← registry_update id (upd_args k x) r; Ok r'
  | ClearO m => id ← deref m; registry_clear_old id r
  end.

Fixpoint run_actions (acts : list action) (r : registry) : ub registry :=
  match acts with
  | [] => Ok r
  | a :: acts' => r1 ← run_action a r; run_actions acts' r1
  end.

Definition mm_collect_of (k : kernel) (o : mod_id) (priv : option modpriv) (r : registry) :
    ub (Z * option modpriv * registry) :=
  p ← deref priv; '(acts, p') ← collect k o p; r' ← run_actions acts r; Ok (0, Some p', r').

Definition module_callbacks (if_malloc disk_malloc : bool) (k : kernel) :
    callbacks T modpriv mod_id unit := {|
  mm_register := register if_malloc disk_malloc;
  mm_collect o := Some (mm_collect_of k o);
  mm_free _ := true;
  mo_collect _ := None;
  mo_free _ := false;
|}.

(** ** The server's use of the registry *)

(** The registry that the server starts with, and the requests for it: one collection
    for each of the kernel's answers. *)
Definition server_registry (if_malloc disk_malloc : bool) (k : kernel) : ub registry :=
  registry_build (module_callbacks if_malloc disk_malloc k) modops.

Fixpoint scrapes (ks : list kernel) (r : registry) : ub registry :=
  match ks with
  | [] => Ok r
  | k :: ks' => '(_, r') ← registry_collect (module_callbacks true true k) r; scrapes ks' r'
  end.
End Modules.

(** * Theorems *)

#[local] Close Scope string_scope.

(** ** Registries *)

Abbreviation amap := (gmap (list value) (value * Z)).

Definition mark_entry (dB : mdesc * amap) : mdesc * amap :=
  (dB.1, (fun xu => (xu.1, 0)) <$> dB.2).

Section Registries.
Context {T P M MO : Type} `{!RBCmp positive T} `{!RBCmpLaws positive T}.

Abbreviation metric := (metric T P MO).
Abbreviation registry := (registry T P M MO).

Definition ids (ms : list metric) : list positive := (fun m => d_id (m_desc m)) <$> ms.

Definition metrics_ok (ms : list metric) : Prop := Forall metric_ok ms /\ NoDup (ids ms).

(** The metrics of a registry by their addresses: description and values. *)
Definition contents (ms : list metric) : gmap positive (mdesc * amap) :=
  list_to_map ((fun m => (d_id (m_desc m), (m_desc m, abs m))) <$> ms).

Lemma contents_cons m ms : contents (m :: ms) = <[d_id (m_desc m) := (m_desc m, abs m)]> (contents ms).
Proof. done. Qed.

Lemma ids_cons m ms : ids (m :: ms) = d_id (m_desc m) :: ids ms.
Proof. done. Qed.

Lemma at_metric_ok {A} id (f : metric -> ub (A * metric)) ms d B B' a :
  metrics_ok ms -> contents ms !! id = Some (d, B) ->
  (forall m, metric_ok m -> m_desc m = d -> abs m = B ->
   exists m', f m = Ok (a, m') /\ metric_ok m' /\ m_desc m' = d /\ abs m' = B') ->
  exists ms', at_metric id f ms = Ok (a, ms') /\ metrics_ok ms' /\
    ids ms' = ids ms /\
    contents ms' = <[id := (d, B')]> (contents ms).
Proof.
  intros Hms Hid Hf. induction ms as [|m ms IH]; [done|].
  destruct Hms as [[Hm Hms]%Forall_cons Hnd]. apply NoDup_cons in Hnd as [Hn Hnd].
  rewrite contents_cons in Hid |- *. cbn [at_metric]. destruct (Pos.eqb_spec (d_id (m_desc m)) id) as [<-|Hne].
  - rewrite lookup_insert_eq in Hid. injection Hid as Hd Ha.
    destruct (Hf m Hm Hd Ha) as (m' & -> & Hm' & Hd' & Ha'). simpl. exists (m' :: ms).
    rewrite contents_cons, Hd', Ha', <- Hd, insert_insert_eq. unfold metrics_ok. rewrite !ids_cons, Hd', <- Hd.
    split_and!; try done; by constructor.
  - rewrite lookup_insert_ne in Hid by done.
    destruct (IH (conj Hms Hnd) Hid) as (ms' & -> & [Hok' Hnd'] & Hids & Hc). simpl.
    exists (m :: ms'). rewrite contents_cons, Hc. unfold metrics_ok. rewrite !ids_cons, Hids.
    split_and!; try done; try (by constructor). by rewrite insert_insert_ne.
Qed.

(** Marking all metrics whose values are all up to date. *)
Lemma mark_all_ok ms : metrics_ok ms -> map_Forall (fun _ dB => all_fresh dB.2) (contents ms) ->
  exists ms', mark_all ms = Ok ms' /\ metrics_ok ms' /\
    contents ms' = mark_entry <$> contents ms /\ ids ms' = ids ms.
Proof.
  induction ms as [|m ms IH]; intros Hms Hf.
  { exists []. by split_and!. }
  destruct Hms as [[Hm Hms]%Forall_cons Hnd]. apply NoDup_cons in Hnd as [Hn Hnd].
  rewrite contents_cons in Hf |- *.
  assert (Hnone : contents ms !! d_id (m_desc m) = None).
  { apply not_elem_of_list_to_map_1. by rewrite <- list_fmap_compose. }
  apply map_Forall_insert in Hf as [Hf Hfs]; [|done].
  destruct (IH (conj Hms Hnd) Hfs) as (ms' & Hmk & [Hok' Hnd'] & Hc & Hids).
  cbn [mark_all].
  apply bool_decide_spec in Hf. simpl in Hf.
  destruct (mark_ok m Hm) as (m' & -> & Hm' & Hd' & Ha' & _).
  { intros k x u Hk. by apply (Hf k (x, u)). }
  cbn [mbind ub_bind]. rewrite Hmk. cbn [mbind ub_bind]. exists (m' :: ms'). rewrite contents_cons, Hc, Hd', Ha', fmap_insert. unfold metrics_ok.
  rewrite !ids_cons, Hids, Hd'. split_and!; try done; by constructor.
Qed.
End Registries.

(** ** Actions *)

Abbreviation fresh_only := (filter (fun kv : list value * (value * Z) => kv.2.2 = 1)).

(** An action is for a metric of the registry, with as many labels, all strings, as it
    has, and an unsigned value. *)
Definition act_typed (Ds : gmap positive mdesc) (a : action) : bool :=
  match a with
  | Upd (Some id) k _ =>
      match Ds !! id with
      | Some d => bool_decide (label_types d = replicate (length k) METRIC_VAL_STRING) &&
                  bool_decide (d_val_type d = METRIC_VAL_UINT64)
      | None => false
      end
  | ClearO (Some id) => bool_decide (is_Some (Ds !! id))
  | _ => false
  end.

Definition strs (k : list string) : list value := val_string <$> k.
Definition uval (x : Z) : value := val_uint64 (u64 x).

(** What an action does to the contents of a registry. *)
Definition apply_act (R : gmap positive (mdesc * amap)) (a : action) : gmap positive (mdesc * amap) :=
  match a with
  | Upd (Some id) k x => alter (fun dB => (dB.1, <[strs k := (uval x, 1)]> dB.2)) id R
  | ClearO (Some id) => alter (fun dB => (dB.1, fresh_only dB.2)) id R
  | _ => R
  end.

(** The actions for one metric: [Some] of an update, [None] for a clearing. *)
Definition act_for (id : positive) (a : action) : option (option (list value * value)) :=
  match a with
  | Upd m k x => if decide (m = Some id) then Some (Some (strs k, uval x)) else None
  | ClearO m => if decide (m = Some id) then Some None else None
  end.
Definition proj (id : positive) (acts : list action) : list (option (list value * value)) :=
  omap (act_for id) acts.

Definition apply_one (B : amap) (a : option (list value * value)) : amap :=
  match a with Some (k, x) => <[k := (x, 1)]> B | None => fresh_only B end.

Lemma proj_app id a b : proj id (a ++ b) = proj id a ++ proj id b.
Proof. apply omap_app. Qed.

Lemma apply_act_lookup R a id :
  apply_act R a !! id = (fun dB => (dB.1, match act_for id a with Some o => apply_one dB.2 o | None => dB.2 end)) <$> R !! id.
Proof.
  destruct a as [[i|] k x|[i|]]; simpl; try (by destruct (R !! id) as [[]|]).
  - destruct (decide (i = id)) as [->|Hne].
    + rewrite lookup_alter_eq, decide_True by done. by destruct (R !! id).
    + rewrite lookup_alter_ne, decide_False by naive_solver. by destruct (R !! id) as [[]|].
  - destruct (decide (i = id)) as [->|Hne].
    + rewrite lookup_alter_eq, decide_True by done. by destruct (R !! id).
    + rewrite lookup_alter_ne, decide_False by naive_solver. by destruct (R !! id) as [[]|].
Qed.

(** The values of a metric after some actions depend on the actions for it only. *)
Lemma apply_acts_lookup acts R id :
  foldl apply_act R acts !! id = (fun dB => (dB.1, foldl apply_one dB.2 (proj id acts))) <$> R !! id.
Proof.
  revert R; induction acts as [|a acts IH]; intros R; simpl.
  - by destruct (R !! id) as [[]|].
  - rewrite IH, apply_act_lookup. destruct (R !! id) as [[d B]|]; simpl; [|done].
    unfold proj. simpl. by destruct (act_for id a).
Qed.

Lemma apply_act_fst R a : fst <$> apply_act R a = fst <$> R.
Proof.
  apply map_eq. intros id. rewrite !lookup_fmap, apply_act_lookup. by destruct (R !! id) as [[]|].
Qed.

Lemma apply_acts_fst acts R : fst <$> foldl apply_act R acts = fst <$> R.
Proof. revert R; induction acts as [|a acts IH]; intros R; [done|]. simpl. rewrite IH. apply apply_act_fst. Qed.

Section Running.
Context {T : Type} `{!RBCmp positive T} `{!RBCmpLaws positive T}.

Abbreviation registry := (registry T modpriv mod_id unit).
Abbreviation cont r := (contents (r_metrics r)).

Lemma registry_update_ok id k x (r : registry) d B : metrics_ok (r_metrics r) ->
  cont r !! id = Some (d, B) -> label_types d = replicate (length k) METRIC_VAL_STRING ->
  d_val_type d = METRIC_VAL_UINT64 ->
  exists r', registry_update id (upd_args k x) r = Ok (0, r') /\ metrics_ok (r_metrics r') /\
    cont r' = <[id := (d, <[strs k := (uval x, 1)]> B)]> (cont r) /\ r_mods r' = r_mods r.
Proof.
  intros Hr Hid Hk Ht. unfold registry_update, on_metric. simpl.
  destruct (at_metric_ok id (fun m => metric_update m (upd_args k x)) (r_metrics r) d B
    (<[strs k := (uval x, 1)]> B) 0 Hr Hid) as (ms' & -> & Hms & _ & Hc).
  - intros m Hm <- <-. destruct (update_ok m (strs k) (uval x) Hm) as (m' & Hu & Hm' & Hd & Ha & _).
    + rewrite Hk. unfold key_ok, strs. clear. induction k; simpl; constructor; done.
    + rewrite Ht. apply Is_true_true. simpl. pose proof (uN_bounds 64 ltac:(lia) x). cbool. lia.
    + by exists m'.
  - simpl. eexists. by split_and!.
Qed.

Lemma registry_clear_old_ok id (r : registry) d B : metrics_ok (r_metrics r) ->
  cont r !! id = Some (d, B) ->
  exists r', registry_clear_old id r = Ok r' /\ metrics_ok (r_metrics r') /\
    cont r' = <[id := (d, fresh_only B)]> (cont r) /\ r_mods r' = r_mods r.
Proof.
  intros Hr Hid. unfold registry_clear_old, on_metric.
  destruct (at_metric_ok id (fun m : metric T modpriv unit => m' ← metric_clear_old_values m; Ok ((), m'))
    (r_metrics r) d B (fresh_only B) () Hr Hid) as (ms' & -> & Hms & _ & Hc).
  - intros m Hm <- <-. destruct (clear_old_ok m Hm) as (m' & -> & Hm' & Hd & Ha & _). by exists m'.
  - simpl. eexists. by split_and!.
Qed.

Lemma run_action_ok a (r : registry) : metrics_ok (r_metrics r) -> act_typed (fst <$> cont r) a ->
  exists r', run_action a r = Ok r' /\ metrics_ok (r_metrics r') /\
    cont r' = apply_act (cont r) a /\ r_mods r' = r_mods r.
Proof.
  intros Hr Ha. destruct a as [[id|] k x|[id|]]; simpl in *; try done.
  - rewrite lookup_fmap in Ha. destruct (cont r !! id) as [[d B]|] eqn:Hid; [|done]. simpl in Ha.
    apply andb_prop_elim in Ha as [Hk%bool_decide_unpack Ht%bool_decide_unpack].
    destruct (registry_update_ok id k x r d B Hr Hid Hk Ht) as (r' & Hu & Hr' & Hc & Hm).
    exists r'. unfold mbind, ub_bind in *. rewrite Hu. split_and!; try done.
    rewrite Hc. apply map_eq. intros j. destruct (decide (id = j)) as [<-|Hne].
    + rewrite lookup_insert_eq, lookup_alter_eq, Hid. done.
    + by rewrite lookup_insert_ne, lookup_alter_ne.
  - apply bool_decide_unpack in Ha. rewrite lookup_fmap in Ha.
    destruct (cont r !! id) as [[d B]|] eqn:Hid; [|by destruct Ha].
    destruct (registry_clear_old_ok id r d B Hr Hid) as (r' & Hu & Hr' & Hc & Hm).
    exists r'. split_and!; try done.
    rewrite Hc. apply map_eq. intros j. destruct (decide (id = j)) as [<-|Hne].
    + rewrite lookup_insert_eq, lookup_alter_eq, Hid. done.
    + by rewrite lookup_insert_ne, lookup_alter_ne.
Qed.

Lemma run_actions_ok acts (r : registry) : metrics_ok (r_metrics r) ->
  Forall (act_typed (fst <$> cont r)) acts ->
  exists r', run_actions acts r = Ok r' /\ metrics_ok (r_metrics r') /\
    cont r' = foldl apply_act (cont r) acts /\ r_mods r' = r_mods r.
Proof.
  revert r; induction acts as [|a acts IH]; intros r Hr Ht; [by exists r|].
  apply Forall_cons in Ht as [Ha Ht].
  destruct (run_action_ok a r Hr Ha) as (r1 & Hr1 & Hok1 & Hc1 & Hm1).
  destruct (IH r1 Hok1) as (r2 & Hr2 & Hok2 & Hc2 & Hm2).
  { by rewrite Hc1, apply_act_fst. }
  exists r2. cbn [run_actions]. rewrite Hr1. cbn [mbind ub_bind]. rewrite Hr2.
  split_and!; try done; [by rewrite Hc2, Hc1|by rewrite Hm2].
Qed.
End Running.

(** ** One scrape, metric by metric *)

(** The updates among the actions for a metric. *)
Definition ups (pr : list (option (list value * value))) : list (list value * value) := omap id pr.

Lemma ups_somes us : ups (Some <$> us) = us.
Proof. unfold ups. induction us as [|u us IH]; csimpl; [done|]. by f_equal. Qed.

Lemma apply_somes (us : list (list value * value)) B : foldl apply_one B (Some <$> us) = foldl (fun A kx => <[kx.1 := (kx.2, 1)]> A) B us.
Proof. revert B; induction us as [|[k x] us IH]; intros B; simpl; [done|]. by rewrite IH. Qed.

(** Updates of all the label values that there are. *)
Lemma overwrite (us : list (list value * value)) (B : amap) : (forall k, is_Some (B !! k) -> k ∈ us.*1) ->
  foldl (fun A kx => <[kx.1 := (kx.2, 1)]> A) B us = updated_map us.
Proof.
  unfold updated_map. intros Hk.
  assert (forall C D : amap, (forall k, k ∉ us.*1 -> C !! k = D !! k) ->
    foldl (fun A kx => <[kx.1 := (kx.2, 1)]> A) C us = foldl (fun A kx => <[kx.1 := (kx.2, 1)]> A) D us) as Hg.
  { clear Hk. induction us as [|[k x] us IH]; intros C D Hcd; simpl.
    - apply map_eq. intros k. apply Hcd. apply not_elem_of_nil.
    - apply IH. intros j Hj. destruct (decide (k = j)) as [->|Hne]; [by rewrite !lookup_insert_eq|].
      rewrite !lookup_insert_ne by done. apply Hcd. simpl. set_solver. }
  apply Hg. intros k Hn. rewrite lookup_empty. apply eq_None_not_Some. intros Hs. by apply Hn, Hk.
Qed.

Lemma updated_map_keys (us : list (list value * value)) k : is_Some (updated_map us !! k) -> k ∈ us.*1.
Proof.
  unfold updated_map.
  assert (forall B : amap, is_Some (foldl (fun A kx => <[kx.1 := (kx.2, 1)]> A) B us !! k) ->
    is_Some (B !! k) \/ k ∈ us.*1) as Hg.
  { induction us as [|[j x] us IH]; intros B; simpl; [by left|]. intros [Hs|Hs]%IH.
    - destruct (decide (j = k)) as [->|Hne]; [right; by left|]. rewrite lookup_insert_ne in Hs by done. by left.
    - right. by right. }
  intros [[? Hs]|Hs]%Hg; [|done]. by rewrite lookup_empty in Hs.
Qed.

(** A metric is left with the readings when its old values are cleared at the end, or
    when every label value that it has is updated. *)
Lemma tidy_cleared (us : list (list value * value)) (B : amap) :
  foldl apply_one ((fun xu : value * Z => (xu.1, 0)) <$> B) ((Some <$> us) ++ [None]) = updated_map us.
Proof.
  rewrite foldl_app, apply_somes. simpl. apply fresh_updates.
  intros k [x u]. rewrite lookup_fmap, fmap_Some. naive_solver.
Qed.

Lemma tidy_static (us : list (list value * value)) (B : amap) : (forall k, is_Some (B !! k) -> k ∈ us.*1) ->
  foldl apply_one ((fun xu : value * Z => (xu.1, 0)) <$> B) (Some <$> us) = updated_map us.
Proof. intros Hk. rewrite apply_somes. apply overwrite. intros k. rewrite lookup_fmap, fmap_is_Some. apply Hk. Qed.

(** The metric that an action is for, and the action without its number. *)
Definition act_id (a : action) : option positive := match a with Upd m _ _ | ClearO m => m end.
Definition is_upd (a : action) : bool := match a with Upd _ _ _ => true | ClearO _ => false end.
Definition shape (a : action) : action := match a with Upd m k _ => Upd m k 0 | ClearO m => ClearO m end.

Lemma proj_other id acts : Forall (fun a => act_id a <> Some id) acts -> proj id acts = [].
Proof.
  unfold proj. induction 1 as [|a acts Ha _ IH]; [done|]. csimpl. rewrite IH.
  destruct a as [m k x|m]; simpl in *; by rewrite decide_False.
Qed.

Lemma proj_ups id acts : Forall is_upd acts -> exists us, proj id acts = Some <$> us.
Proof.
  unfold proj. induction 1 as [|a acts Ha _ (us & IH)]; [by exists []|]. csimpl. rewrite IH.
  destruct a as [m k x|m]; [|done]. simpl. case_decide; [by exists ((strs k, uval x) :: us)|by exists us].
Qed.

Lemma proj_clears id ids : NoDup ids -> id ∈ ids -> proj id (ClearO <$> (Some <$> ids)) = [None].
Proof.
  intros Hnd Hin. apply list_elem_of_split in Hin as (l1 & l2 & ->).
  apply NoDup_app in Hnd as (_ & Hd & [Hl2 _]%NoDup_cons).
  rewrite !fmap_app, proj_app, !fmap_cons.
  assert (forall l : list positive, id ∉ l -> proj id (ClearO <$> (Some <$> l)) = []) as Hno.
  { intros l Hl. apply proj_other. apply Forall_forall. intros a (m & -> & (j & -> & Hj)%list_elem_of_fmap)%list_elem_of_fmap.
    simpl. intros [= ->]. done. }
  rewrite (Hno l1); [|intros Hl1; eapply Hd; [done|by left]].
  change (ClearO (Some id) :: (ClearO <$> (Some <$> l2))) with ([ClearO (Some id)] ++ (ClearO <$> (Some <$> l2))).
  rewrite proj_app, (Hno l2) by done. unfold proj. simpl. by rewrite decide_True.
Qed.

(** The label values that are updated depend on the shape of the actions only. *)
Definition keys_of (pr : list (option (list value * value))) : list (option (list value)) :=
  (fun o : option (list value * value) => option_map fst o) <$> pr.

Lemma proj_shape id (acts acts' : list action) : shape <$> acts = shape <$> acts' ->
  keys_of (proj id acts) = keys_of (proj id acts').
Proof.
  unfold keys_of. revert acts'; induction acts as [|a acts IH]; intros [|a' acts'] Hs; try done.
  injection Hs as Ha Hs. specialize (IH _ Hs). unfold proj in *. csimpl.
  destruct a as [m k x|m], a' as [m' k' x'|m']; simplify_eq; simpl; case_decide; csimpl; by rewrite ?IH.
Qed.

Lemma somes_keys (us us' : list (list value * value)) :
  keys_of (Some <$> us) = keys_of (Some <$> us') -> us.*1 = us'.*1.
Proof.
  unfold keys_of. revert us'; induction us as [|u us IH]; intros [|u' us'] Hs; try done. csimpl in *.
  injection Hs as Hu Hs. rewrite Hu. f_equal. by apply IH.
Qed.

(** ** The server's registry *)

Definition no_answers : kernel :=
  Kernel None None None false None None None (fun _ => None) (fun _ => None)
    None None None None None None None false None None.
Definition headers64 : headers := Headers [] 0 0 0 0 0 0 0 METRIC_VAL_UINT64.

(** The metrics of the server, and those of each module. *)
Definition built : registry (list positive) modpriv mod_id unit :=
  match server_registry headers64 true true no_answers with
  | Ok r => r | UB _ => registry_new_empty end.
Definition server_descs : list mdesc := Eval vm_compute in m_desc <$> r_metrics built.
Definition Ds : gmap positive mdesc := list_to_map ((fun d => (d_id d, d)) <$> server_descs).

#[export] Instance mod_id_eq_dec : EqDecision mod_id.
Proof. solve_decision. Defined.

Definition ids_in (o : mod_id) (mods : list (mod_id * option modpriv)) : list positive :=
  match find (fun mp => bool_decide (mp.1 = o)) mods with
  | Some (_, Some p) => mp_metrics p
  | _ => []
  end.
Definition ids_table : list (mod_id * list positive) :=
  Eval vm_compute in (fun o => (o, ids_in o (r_mods built))) <$> modops.
Definition ids_of (o : mod_id) : list positive :=
  match o, ids_table with
  | collect_pf_ops, [(_, l); _; _; _; _; _; _; _] => l
  | collect_cpu_ops, [_; (_, l); _; _; _; _; _; _] => l
  | collect_if_ops, [_; _; (_, l); _; _; _; _; _] => l
  | collect_uvm_ops, [_; _; _; (_, l); _; _; _; _] => l
  | collect_pools_ops, [_; _; _; _; (_, l); _; _; _] => l
  | collect_procs_ops, [_; _; _; _; _; (_, l); _; _] => l
  | collect_disk_ops, [_; _; _; _; _; _; (_, l); _] => l
  | collect_ip_ops, [_; _; _; _; _; _; _; (_, l)] => l
  | _, _ => []
  end.

Definition disjoint_ids : bool :=
  bool_decide (NoDup (modops ≫= ids_of)) && bool_decide ((modops ≫= ids_of) ⊆+ (d_id <$> server_descs)) &&
  bool_decide ((d_id <$> server_descs) ⊆+ (modops ≫= ids_of)) && forallb (fun d => forallb exact_type (label_types d)) server_descs.

Lemma server_ids_ok : disjoint_ids.
Proof. vm_compute. exact I. Qed.

(** A kernel that answers every [sysctl], whose interfaces need no larger buffer than
    the first one and have names of less than [IFNAMSIZ] bytes. *)
Record complete (k : kernel) : Prop := {
  cm_pf : is_Some (k_pf k);
  cm_cpu : is_Some (k_cpu k);
  cm_need : exists need, k_if_need k = Some need /\ need <= 64 * 1024;
  cm_if : exists ms, k_if k = Some ms /\
    forall ifm sa, ifm ∈ ms -> sa ∈ ifm_sas ifm -> sdl_nlen sa < IFNAMSIZ;
  cm_uvm : is_Some (k_uvm k);
  cm_pools : exists n, k_npools k = Some n /\
    forall i, (1 <= i <= n)%nat -> is_Some (k_pool_name k i) /\ is_Some (k_pool k i);
  cm_procs : is_Some (k_nfiles k) /\ is_Some (k_nprocs k) /\ is_Some (k_nthreads k) /\
    is_Some (k_maxfiles k) /\ is_Some (k_maxproc k) /\ is_Some (k_maxthread k);
  cm_disk : is_Some (k_diskcount k) /\ k_disk_malloc k = true /\ is_Some (k_disks k);
  cm_ip : is_Some (k_ip k) }.

Section Server.
Context (h : headers).

Definition acts_of (k : kernel) (o : mod_id) : list action :=
  match collect h k o (Modpriv (ids_of o) (64 * 1024)) with Ok (a, _) => a | UB _ => [] end.

(** All actions of a scrape, in the order of the modules. *)
Definition acts_all (k : kernel) : list action := reverse modops ≫= acts_of k.

(** What a scrape reads for a metric. *)
Definition readings (id : positive) (k : kernel) : amap := updated_map (ups (proj id (acts_all k))).

Lemma getaddrinfo_in turns i addrs sas j sa :
  nth j (getaddrinfo_loop turns i addrs sas) None = Some sa -> sa ∈ sas.
Proof.
  revert i sas j; induction turns as [|turns IH]; intros i sas j; simpl; [by destruct j|].
  destruct (Z.testbit _ _).
  - destruct sas as [|s sas]; destruct j; simpl; try done.
    + intros Hs. by apply IH in Hs.
    + intros [= ->]. by left.
    + intros Hs. right. by eapply IH.
  - destruct j; simpl; [done|]. apply IH.
Qed.

Lemma if_messages_ok p ms :
  (forall ifm sa, ifm ∈ ms -> sa ∈ ifm_sas ifm -> sdl_nlen sa < IFNAMSIZ) ->
  exists acts, if_messages h p ms = Ok acts /\
  (forall Q : action -> Prop, (forall name x, Q (Upd (mth p 0) [name] x)) -> (forall name x, Q (Upd (mth p 1) [name] x)) ->
   (forall name x, Q (Upd (mth p 2) [name] x)) -> (forall name x, Q (Upd (mth p 3) [name] x)) ->
   (forall name x, Q (Upd (mth p 4) [name] x)) -> (forall name x, Q (Upd (mth p 5) [name] x)) ->
   (forall name x, Q (Upd (mth p 6) [name] x)) -> (forall name x, Q (Upd (mth p 7) [name] x)) ->
   Forall Q acts).
Proof.
  induction ms as [|ifm ms IH]; intros Hn; [by exists []|].
  destruct IH as (acts & Ha & Hq); [intros; eapply Hn; [by right|done]|].
  cbn [if_messages]. rewrite Ha.
  assert (exists a, if_message h p ifm = Ok a /\ (a = [] \/ exists name, a =
     [Upd (mth p 0) [name] (ifi_ipackets ifm); Upd (mth p 1) [name] (ifi_ibytes ifm);
      Upd (mth p 2) [name] (ifi_ierrors ifm); Upd (mth p 3) [name] (ifi_iqdrops ifm);
      Upd (mth p 4) [name] (ifi_opackets ifm); Upd (mth p 5) [name] (ifi_obytes ifm);
      Upd (mth p 6) [name] (ifi_oerrors ifm); Upd (mth p 7) [name] (ifi_oqdrops ifm)])) as (a & -> & Hc).
  { unfold if_message. case_if; [by exists []; eauto|].
    destruct (nth _ _ _) as [sdl|] eqn:Hsdl; [|by exists []; eauto].
    case_if; [|by exists []; eauto].
    apply getaddrinfo_in in Hsdl. specialize (Hn ifm sdl ltac:(by left) Hsdl).
    case_if; [cbool; lia|]. eexists. split; [done|]. right. by eexists. }
  simpl. eexists. split; [done|]. intros Q H0 H1 H2 H3 H4 H5 H6 H7. apply Forall_app. split; [|by apply Hq].
  destruct Hc as [->|[name ->]]; [done|]. repeat constructor; done.
Qed.

Lemma pools_loop_ok k p n i :
  (forall j, (i <= j < i + n)%nat -> is_Some (k_pool_name k j) /\ is_Some (k_pool k j)) ->
  (pools_loop k p n i).2 = true /\
  (forall Q : action -> Prop, (forall j name x, (j < 10)%nat -> Q (Upd (mth p j) [name] x)) ->
   Forall Q (pools_loop k p n i).1).
Proof.
  revert i; induction n as [|n IH]; intros i Hi; simpl; [done|].
  destruct (Hi i ltac:(lia)) as [[name ->] [st ->]].
  destruct (IH (S i)) as [Hb Hq]; [intros j Hj; apply Hi; lia|].
  destruct (pools_loop k p n (S i)) as [acts b]. simpl in *. split; [done|].
  intros Q HQ. repeat (constructor; [apply HQ; lia|]). by apply Hq.
Qed.

Lemma pools_loop_size k l a b n i :
  pools_loop k (Modpriv l a) n i = pools_loop k (Modpriv l b) n i.
Proof.
  revert i; induction n as [|n IH]; intros i; simpl; [done|].
  destruct (k_pool_name k i), (k_pool k i); try done. by rewrite IH.
Qed.

(** The metrics whose old values a module clears: all of them for the modules whose
    label values come from the kernel. *)
Definition dynamic (o : mod_id) : bool :=
  match o with collect_if_ops | collect_pools_ops | collect_disk_ops => true | _ => false end.
Definition cleared (o : mod_id) : list positive :=
  if dynamic o then ids_of o
  else match o with
       | collect_ip_ops => omap (nth_error (ids_of o)) [0; 1; 3; 5; 6]%nat
       | _ => []
       end.

(** An update of a metric of the module, with the labels that it has. *)
Definition checked (o : mod_id) (a : action) : bool :=
  is_upd a && act_typed Ds a && bool_decide (act_id a ∈ Some <$> ids_of o).

(** The actions of a module on a complete kernel: updates, then clearings. *)
Lemma collect_ok k o : complete k ->
  exists us, acts_of k o = us ++ (ClearO <$> (Some <$> cleared o)) /\ Forall (checked o) us /\
  (forall sz, (o = collect_if_ops -> sz = 64 * 1024) ->
   exists sz', collect h k o (Modpriv (ids_of o) sz) = Ok (acts_of k o, Modpriv (ids_of o) sz') /\
     (o = collect_if_ops -> sz' = 64 * 1024)).
Proof.
  intros Hk. destruct o; unfold acts_of; cbn [collect].
  - destruct (cm_pf _ Hk) as [st Hst]. unfold pf_collect. rewrite Hst.
    destruct (fcounters st) as [[f1 f2] f3], (scounters st) as [[s1 s2] s3].
    eexists. split_and!; [by rewrite app_nil_r| |by eauto].
    apply Forall_app. split; [by repeat (constructor; [vm_compute; exact I|])|].
    apply Forall_lookup. intros i a. rewrite list_lookup_imap, fmap_Some. intros (name & _ & ->). vm_compute. exact I.
  - destruct (cm_cpu _ Hk) as [st Hst]. unfold cpu_collect. rewrite Hst.
    eexists. split_and!; [by rewrite app_nil_r| |by eauto]. by repeat (constructor; [vm_compute; exact I|]).
  - destruct (cm_need _ Hk) as (need & Hneed & Hle), (cm_if _ Hk) as (ms & Hms & Hn).
    unfold if_collect. rewrite Hneed, Hms. cbn [mp_size].
    destruct (if_messages_ok (Modpriv (ids_of collect_if_ops) (64 * 1024)) ms Hn) as (acts & Ha & Hq).
    case_if; [cbool; lia|]. rewrite Ha. cbn [mbind ub_bind]. exists acts. split_and!.
    + done.
    + apply Hq; intros name x; vm_compute; exact I.
    + intros sz Hsz. rewrite Hsz by done. rewrite E, Ha. by eexists.
  - destruct (cm_uvm _ Hk) as [st Hst]. unfold uvm_collect. rewrite Hst.
    eexists. split_and!; [by rewrite app_nil_r| |by eauto]. by repeat (constructor; [vm_compute; exact I|]).
  - destruct (cm_pools _ Hk) as (n & Hnp & Hn). unfold pools_collect. rewrite Hnp.
    pose proof (fun p => pools_loop_ok k p n 1 ltac:(intros; apply Hn; lia)) as Hp.
    destruct (Hp (Modpriv (ids_of collect_pools_ops) (64 * 1024))) as [Hb Hq].
    destruct (pools_loop k _ n 1) as [acts b] eqn:Hl. simpl in Hb, Hq. subst b. exists acts. split_and!.
    + done.
    + apply Hq. intros j name x Hj. do 10 (destruct j as [|j]; [vm_compute; exact I|]). lia.
    + intros sz _. exists sz. split; [|done]. f_equal.
      assert (pools_loop k (Modpriv (ids_of collect_pools_ops) sz) n 1 = (acts, true)) as ->; [|done].
      rewrite <- Hl. apply pools_loop_size.
  - destruct (cm_procs _ Hk) as ([v1 H1] & [v2 H2] & [v3 H3] & [v4 H4] & [v5 H5] & [v6 H6]).
    unfold procs_collect. rewrite H1, H2, H3, H4, H5, H6.
    eexists. split_and!; [by rewrite app_nil_r| |by eauto]. by repeat (constructor; [vm_compute; exact I|]).
  - destruct (cm_disk _ Hk) as ([n Hn] & Hm & [ds Hds]). unfold disk_collect. rewrite Hn, Hm, Hds.
    rewrite !andb_false_r. eexists. split_and!.
    + done.
    + apply Forall_bind. apply Forall_forall. intros i _. by repeat (constructor; [vm_compute; exact I|]).
    + intros sz _. rewrite andb_false_r. eexists. done.
  - destruct (cm_ip _ Hk) as [st Hst]. unfold ip_collect. rewrite Hst.
    eexists. split_and!; [|..|by eauto].
    + rewrite !app_assoc. f_equal.
    + rewrite !Forall_app. split_and!; by repeat (constructor; [vm_compute; exact I|]).
Qed.

(** Where the label values are fixed, the kernel's numbers are all that changes. *)
Lemma static_shape k k' o : complete k -> complete k' -> dynamic o = false ->
  shape <$> acts_of k o = shape <$> acts_of k' o.
Proof.
  intros Hk Hk' Ho. destruct o; try done; unfold acts_of; cbn [collect].
  - destruct (cm_pf _ Hk) as [st Hst], (cm_pf _ Hk') as [st' Hst']. unfold pf_collect. rewrite Hst, Hst'.
    destruct (fcounters st) as [[f1 f2] f3], (scounters st) as [[s1 s2] s3].
    destruct (fcounters st') as [[f1' f2'] f3'], (scounters st') as [[s1' s2'] s3'].
    rewrite !fmap_app. f_equal. rewrite !fmap_imap. apply imap_ext. done.
  - destruct (cm_cpu _ Hk) as [st Hst], (cm_cpu _ Hk') as [st' Hst']. unfold cpu_collect. by rewrite Hst, Hst'.
  - destruct (cm_uvm _ Hk) as [st Hst], (cm_uvm _ Hk') as [st' Hst']. unfold uvm_collect. by rewrite Hst, Hst'.
  - destruct (cm_procs _ Hk) as ([v1 H1] & [v2 H2] & [v3 H3] & [v4 H4] & [v5 H5] & [v6 H6]).
    destruct (cm_procs _ Hk') as ([w1 I1] & [w2 I2] & [w3 I3] & [w4 I4] & [w5 I5] & [w6 I6]).
    unfold procs_collect. by rewrite H1, H2, H3, H4, H5, H6, I1, I2, I3, I4, I5, I6.
  - destruct (cm_ip _ Hk) as [st Hst], (cm_ip _ Hk') as [st' Hst']. unfold ip_collect. by rewrite Hst, Hst'.
Qed.

Definition tables_ok : bool :=
  forallb (fun o => forallb (fun o' => bool_decide (o = o') ||
    forallb (fun i => negb (bool_decide (i ∈ ids_of o'))) (ids_of o)) modops) modops &&
  forallb (fun o => bool_decide (NoDup (cleared o)) && forallb (fun i => bool_decide (i ∈ ids_of o)) (cleared o) &&
    forallb (fun a => act_typed Ds a) (ClearO <$> (Some <$> cleared o))) modops &&
  forallb (fun d => existsb (fun o => bool_decide (d_id d ∈ ids_of o)) modops) server_descs.

Lemma tables_are_ok : tables_ok = true.
Proof. vm_compute. reflexivity. Qed.

Lemma in_modops o : In o modops.
Proof. destruct o; simpl; tauto. Qed.

Lemma ids_disjoint o o' id : id ∈ ids_of o -> id ∈ ids_of o' -> o = o'.
Proof.
  intros Hi Hi'. pose proof tables_are_ok as Ht. unfold tables_ok in Ht. rewrite !andb_true_iff in Ht.
  destruct Ht as [[Ht _] _]. rewrite forallb_forall in Ht. specialize (Ht o (in_modops o)).
  rewrite forallb_forall in Ht. specialize (Ht o' (in_modops o')). apply orb_true_iff in Ht as [Ht|Ht].
  - by apply bool_decide_eq_true in Ht.
  - rewrite forallb_forall in Ht. apply list_elem_of_In in Hi. specialize (Ht id Hi).
    apply negb_true_iff, bool_decide_eq_false in Ht. done.
Qed.

Lemma cleared_ok o : NoDup (cleared o) /\ (forall i, i ∈ cleared o -> i ∈ ids_of o) /\
  Forall (act_typed Ds) (ClearO <$> (Some <$> cleared o)).
Proof.
  pose proof tables_are_ok as Ht. unfold tables_ok in Ht. rewrite !andb_true_iff in Ht.
  destruct Ht as [[_ Ht] _]. rewrite forallb_forall in Ht. specialize (Ht o (in_modops o)).
  rewrite !andb_true_iff in Ht. destruct Ht as [[H1 H2] H3]. split_and!.
  - by apply bool_decide_eq_true in H1.
  - intros i Hi. rewrite forallb_forall in H2. apply list_elem_of_In in Hi.
    specialize (H2 i Hi). by apply bool_decide_eq_true in H2.
  - rewrite forallb_forall in H3. apply Forall_forall. intros a Ha. apply Is_true_true.
    apply H3. by apply list_elem_of_In.
Qed.

Lemma ids_cover d : d ∈ server_descs -> exists o, d_id d ∈ ids_of o.
Proof.
  intros Hd. pose proof tables_are_ok as Ht. unfold tables_ok in Ht. rewrite !andb_true_iff in Ht.
  destruct Ht as [_ Ht]. rewrite forallb_forall in Ht. apply list_elem_of_In in Hd.
  specialize (Ht d Hd). apply existsb_exists in Ht as (o & _ & Ho). exists o. by apply bool_decide_eq_true in Ho.
Qed.

Lemma acts_of_ok k o : complete k ->
  Forall (fun a => act_typed Ds a /\ act_id a ∈ Some <$> ids_of o) (acts_of k o).
Proof.
  intros Hk. destruct (collect_ok k o Hk) as (us & -> & Hus & _).
  destruct (cleared_ok o) as (_ & Hin & Hc). apply Forall_app. split.
  - eapply Forall_impl; [exact Hus|]. intros a. unfold checked.
    intros [[_ Ht]%andb_prop_elim Hi%bool_decide_unpack]%andb_prop_elim. done.
  - rewrite Forall_forall in Hc |- *. intros a Ha. split; [by apply Hc|].
    apply list_elem_of_fmap in Ha as (m & -> & Hm). simpl.
    apply list_elem_of_fmap in Hm as (i & -> & Hi). apply list_elem_of_fmap. eauto.
Qed.

(** The actions of a scrape for a metric are those of its module. *)
Lemma proj_mods k l o id : complete k -> id ∈ ids_of o -> NoDup l ->
  proj id (l ≫= acts_of k) = if decide (o ∈ l) then proj id (acts_of k o) else [].
Proof.
  intros Hk Hid. induction l as [|o' l IH]; intros Hnd; [done|].
  apply NoDup_cons in Hnd as [Hn Hnd]. csimpl. rewrite proj_app, IH by done.
  destruct (decide (o' = o)) as [->|Hne].
  - rewrite (decide_False (P := o ∈ l)), decide_True, app_nil_r by (done || by left). done.
  - rewrite (proj_other id (acts_of k o')).
    + simpl. destruct (decide (o ∈ l)); [rewrite decide_True by (by right)|rewrite decide_False by set_solver]; done.
    + eapply Forall_impl; [by apply acts_of_ok|]. intros a [_ Ha] Heq. rewrite Heq in Ha.
      apply list_elem_of_fmap in Ha as (i & [= <-] & Hi). by apply Hne, (ids_disjoint o' o id).
Qed.

Lemma proj_all k o id : complete k -> id ∈ ids_of o -> proj id (acts_all k) = proj id (acts_of k o).
Proof.
  intros Hk Hid. unfold acts_all. rewrite (proj_mods k _ o id) by (done || apply (bool_decide_unpack _); by vm_compute).
  apply decide_True. by destruct o; apply (bool_decide_unpack _); vm_compute.
Qed.

(** After a scrape a metric holds the readings, if its label values are cleared, or were
    those of an earlier scrape. *)
Lemma scraped_metric (k : kernel) (o : mod_id) (i : positive) (B : amap) : complete k -> i ∈ ids_of o ->
  (B = ∅ \/ exists k', complete k' /\ B = readings i k') ->
  foldl apply_one ((fun xu : value * Z => (xu.1, 0)) <$> B) (proj i (acts_all k)) = readings i k.
Proof.
  intros Hk Hid HB. unfold readings. rewrite (proj_all k o i Hk Hid).
  destruct (collect_ok k o Hk) as (us & Ha & Hus & _). rewrite Ha, proj_app.
  destruct (proj_ups i us) as (vs & Hvs).
  { eapply Forall_impl; [exact Hus|]. intros a. unfold checked.
    by intros [[Hu _]%andb_prop_elim _]%andb_prop_elim. }
  rewrite Hvs. destruct (cleared_ok o) as (Hnd & Hin & _).
  destruct (decide (i ∈ cleared o)) as [Hc|Hc].
  - rewrite (proj_clears i (cleared o)) by done. rewrite tidy_cleared.
    f_equal. unfold ups. rewrite omap_app. change (omap id (Some <$> vs)) with (ups (Some <$> vs)).
    rewrite ups_somes. simpl. by rewrite app_nil_r.
  - assert (Hpc : forall cs : list positive, i ∉ cs -> proj i (ClearO <$> (Some <$> cs)) = []).
    { intros cs Hcs. apply proj_other. apply Forall_forall.
      intros a (m & -> & (j & -> & Hj)%list_elem_of_fmap)%list_elem_of_fmap. simpl. intros [= ->]. done. }
    rewrite Hpc, app_nil_r, ups_somes by done. apply tidy_static. intros key Hkey.
    destruct HB as [->|(k' & Hk' & ->)]; [rewrite lookup_empty in Hkey; by destruct Hkey|].
    unfold readings in Hkey. rewrite (proj_all k' o i Hk' Hid) in Hkey.
    assert (Hdyn : dynamic o = false).
    { destruct (dynamic o) eqn:Hd; [|done]. exfalso. apply Hc. unfold cleared. by rewrite Hd. }
    destruct (collect_ok k' o Hk') as (us' & Ha' & Hus' & _).
    destruct (proj_ups i us') as (vs' & Hvs').
    { eapply Forall_impl; [exact Hus'|]. intros a. unfold checked.
      by intros [[Hu _]%andb_prop_elim _]%andb_prop_elim. }
    rewrite Ha', proj_app, Hvs', Hpc, app_nil_r, ups_somes in Hkey by done.
    apply updated_map_keys in Hkey.
    pose proof (proj_shape i _ _ (static_shape k k' o Hk Hk' Hdyn)) as Hs.
    rewrite Ha, Ha', !proj_app, Hvs, Hvs', !Hpc, !app_nil_r in Hs by done.
    by rewrite (somes_keys _ _ Hs).
Qed.

(** ** Scrapes *)

Section Scrapes.
Context {T : Type} `{!RBCmp positive T} `{!RBCmpLaws positive T}.

Abbreviation registry := (registry T modpriv mod_id unit).
Abbreviation cont r := (contents (r_metrics r)).

(** The modules of a registry with their private data. *)
Definition mods_for (l : list mod_id) (mods : list (mod_id * option modpriv)) : Prop :=
  Forall2 (fun o mp => exists z, mp = (o, Some (Modpriv (ids_of o) z)) /\
    (o = collect_if_ops -> z = 64 * 1024)) l mods.

Lemma collect_mods_ok k l mods (r : registry) : complete k -> mods_for l mods ->
  metrics_ok (r_metrics r) -> fst <$> cont r = Ds ->
  exists mods' r', collect_mods (module_callbacks h true true k) mods r = Ok (0, mods', r') /\
    mods_for l mods' /\ metrics_ok (r_metrics r') /\
    cont r' = foldl apply_act (cont r) (l ≫= acts_of k) /\ fst <$> cont r' = Ds.
Proof.
  intros Hk Hm. revert r. induction Hm as [|o mp l mods (z & -> & Hz) Hm IH]; intros r Hr Hd.
  { exists [], r. split_and!; try done. constructor. }
  destruct (collect_ok k o Hk) as (us & _ & _ & Hc). destruct (Hc z Hz) as (z' & Hcol & Hz').
  destruct (run_actions_ok (acts_of k o) r Hr) as (r1 & Hr1 & Hok1 & Hc1 & _).
  { rewrite Hd. eapply Forall_impl; [by apply acts_of_ok|]. by intros a [? _]. }
  assert (Hd1 : fst <$> cont r1 = Ds) by (rewrite Hc1, <- Hd; apply apply_acts_fst).
  destruct (IH r1 Hok1 Hd1) as (mods' & r2 & H2 & Hm2 & Hok2 & Hc2 & Hd2).
  exists ((o, Some (Modpriv (ids_of o) z')) :: mods'), r2. split_and!; try done.
  - cbn [collect_mods mm_collect module_callbacks]. unfold mm_collect_of.
    cbn [deref mbind ub_bind]. rewrite Hcol. cbn [mbind ub_bind]. rewrite Hr1. cbn [mbind ub_bind].
    change (nz 0) with false. cbn match. by rewrite H2.
  - constructor; [by exists z'|done].
  - by rewrite Hc2, Hc1, <- foldl_app.
Qed.

Lemma collect_metrics_none k ms (r : registry) :
  collect_metrics (module_callbacks h true true k) ms r = Ok (0, r).
Proof. induction ms as [|[[id o] p] ms IH]; [done|]. apply IH. Qed.

(** The registry of the server after a complete scrape, or none. *)
Record server_ok (r : registry) (last : option kernel) : Prop := {
  sv_metrics : metrics_ok (r_metrics r);
  sv_descs : fst <$> cont r = Ds;
  sv_mods : mods_for (reverse modops) (r_mods r);
  sv_values id d B : cont r !! id = Some (d, B) ->
    B = match last with Some k => readings id k | None => ∅ end }.

Lemma Ds_lookup id d : Ds !! id = Some d -> exists o, id ∈ ids_of o.
Proof.
  intros Hd. unfold Ds in Hd. apply elem_of_list_to_map_2 in Hd.
  apply list_elem_of_fmap in Hd as (d' & [= -> ->] & Hd). by apply ids_cover.
Qed.

Lemma mark_fst (R : gmap positive (mdesc * amap)) : fst <$> (mark_entry <$> R) = fst <$> R.
Proof. rewrite <- map_fmap_compose. by apply map_fmap_ext. Qed.

Lemma scrape_ok k last (r : registry) : complete k ->
  match last with Some k' => complete k' | None => True end -> server_ok r last ->
  exists r', registry_collect (module_callbacks h true true k) r = Ok (0, r') /\ server_ok r' (Some k).
Proof.
  intros Hk Hl [Hms Hd Hmods Hv].
  assert (Hfresh : map_Forall (fun _ dB => all_fresh dB.2) (cont r)).
  { intros id [d B] Hid. simpl. rewrite (Hv id d B Hid). destruct last as [k'|]; [apply updated_map_fresh|].
    apply bool_decide_spec, map_Forall_empty. }
  destruct (mark_all_ok (r_metrics r) Hms Hfresh) as (ms' & Hmk & Hms' & Hc & _).
  unfold registry_collect. rewrite Hmk. cbn [mbind ub_bind].
  destruct (collect_mods_ok k _ _ (with_metrics r ms') Hk Hmods) as (mods' & r1 & -> & Hm1 & Hok1 & Hc1 & Hd1).
  { done. } { simpl. by rewrite Hc, mark_fst. }
  cbn [mbind ub_bind]. change (nz 0) with false. cbn match. rewrite collect_metrics_none.
  eexists. split; [done|]. constructor; simpl; try done.
  intros id d B Hid. rewrite Hc1, apply_acts_lookup in Hid. simpl in Hid. rewrite Hc, lookup_fmap in Hid.
  destruct (cont r !! id) as [[d0 B0]|] eqn:H0; [|done]. simpl in Hid. injection Hid as <- <-.
  assert (exists o, id ∈ ids_of o) as [o Ho].
  { apply (Ds_lookup id d0). by rewrite <- Hd, lookup_fmap, H0. }
  change (reverse modops ≫= acts_of k) with (acts_all k). apply (scraped_metric k o); [done|done|].
  rewrite (Hv id d0 B0 H0). destruct last as [k'|]; [right; by exists k'|by left].
Qed.

Lemma scrapes_ok ks last (r : registry) : Forall complete ks ->
  match last with Some k' => complete k' | None => True end -> server_ok r last ->
  exists r', scrapes h ks r = Ok r' /\
    server_ok r' (match List.last (Some <$> ks) None with Some k => Some k | None => last end).
Proof.
  revert last r; induction ks as [|k ks IH]; intros last r Hks Hl Hr; [by exists r|].
  apply Forall_cons in Hks as [Hk Hks].
  destruct (scrape_ok k last r Hk Hl Hr) as (r1 & Hr1 & Hok1).
  destruct (IH (Some k) r1 Hks Hk Hok1) as (r2 & Hr2 & Hok2).
  exists r2. cbn [scrapes]. rewrite Hr1. cbn [mbind ub_bind]. split; [done|].
  destruct ks as [|k2 ks]; [done|]. change (List.last (Some <$> k :: k2 :: ks) None) with (List.last (Some <$> k2 :: ks) None).
  assert (exists k3, List.last (Some <$> k2 :: ks) None = Some k3) as [k3 Hk3].
  { clear. revert k2. induction ks as [|k3 ks IH]; intros k2; [by exists k2|]. apply (IH k3). }
  by rewrite Hk3 in *.
Qed.

(** The registry that [registry_build] makes. *)
Definition fresh_registry : registry :=
  Registry ((fun o => (o, Some (Modpriv (ids_of o)
      (match o with collect_if_ops => 64 * 1024 | collect_disk_ops => 16 * sizeof_diskstats h | _ => 0 end))))
      <$> reverse modops)
    ((fun d => new_metric d None ()) <$> server_descs) false (r_ids built).

Lemma build_ok k : METRIC_VAL_UINT32 h = METRIC_VAL_UINT64 ->
  server_registry h true true k = Ok fresh_registry.
Proof.
  intros Ht. unfold server_registry, registry_build, module_callbacks, register, specs, ip_register, gauge32.
  rewrite Ht. vm_compute. reflexivity.
Qed.

Lemma contents_new ds id d B :
  contents ((fun d => new_metric (T := T) (P := modpriv) d None ()) <$> ds) !! id = Some (d, B) -> B = ∅.
Proof.
  intros Hid. apply elem_of_list_to_map_2 in Hid. apply list_elem_of_fmap in Hid as (m & [= -> -> ->] & Hm).
  apply list_elem_of_fmap in Hm as (d' & -> & _). unfold abs, abs_of, new_metric. simpl.
  by rewrite rc_elems_empty.
Qed.

Lemma fresh_ok : server_ok fresh_registry None.
Proof.
  pose proof server_ids_ok as Hs. unfold disjoint_ids in Hs.
  apply andb_prop_elim in Hs as [[[H1 H2]%andb_prop_elim H3]%andb_prop_elim H4].
  constructor.
  - split.
    + apply Forall_fmap, Forall_forall. intros d Hd. apply new_metric_ok.
      apply Is_true_true in H4. rewrite forallb_forall in H4. apply list_elem_of_In in Hd.
      specialize (H4 d Hd). rewrite forallb_forall in H4. apply Forall_forall. intros t Ht.
      apply Is_true_true, H4. by apply list_elem_of_In.
    + unfold ids, fresh_registry. cbn [r_metrics]. rewrite <- list_fmap_compose.
      change (NoDup (d_id <$> server_descs)). apply bool_decide_unpack in H1, H2, H3.
      assert (Hp : (d_id <$> server_descs) ≡ₚ (modops ≫= ids_of)) by (by apply (anti_symm submseteq)).
      by rewrite Hp.
  - unfold contents, Ds, fresh_registry. cbn [r_metrics]. rewrite <- list_to_map_fmap, <- !list_fmap_compose. done.
  - unfold mods_for, fresh_registry. cbn [r_mods]. apply Forall2_fmap_r, Forall_Forall2_diag, Forall_forall.
    intros o _. eexists. split; [reflexivity|]. by intros ->.
  - intros id d B Hid. exact (contents_new server_descs id d B Hid).
Qed.
End Scrapes.
End Server.

(** ** A sample kernel *)

#[local] Open Scope string_scope.
Definition sample_kernel : kernel :=
  Kernel (Some (PfStatus 1 2 (3, 4, 5) 6 (7, 8, 9) 10 11 12 13 14 15 16 Z.of_nat))
    (Some (Cpustats 1 2 3 4 5 6)) (Some 100) true (Some []) (Some (Uvmexp 1 2 3 4 4096))
    (Some 1%nat) (fun _ => Some "mbufpl") (fun _ => Some (KinfoPool 1 2 3 4 5 6 7 8 9 10))
    (Some 1) (Some 2) (Some 3) (Some 4) (Some 5) (Some 6)
    (Some 1%nat) true (Some [Diskstats "sd0" 1 2 3 4 5 6]) (Some (fun _ => 7)).
Definition no_npools (k : kernel) : kernel :=
  Kernel (k_pf k) (k_cpu k) (k_if_need k) (k_if_malloc k) (k_if k) (k_uvm k) None (k_pool_name k)
    (k_pool k) (k_nfiles k) (k_nprocs k) (k_nthreads k) (k_maxfiles k) (k_maxproc k) (k_maxthread k)
    (k_diskcount k) (k_disk_malloc k) (k_disks k) (k_ip k).
Definition sample_headers : headers :=
  Headers ["match"; "bad-offset"] 5 14 16 18 15 4 200 METRIC_VAL_UINT64.

#[local] Close Scope string_scope.

(** ** Properties *)

(** C17: The statistics server holds what the kernel said last: if the kernel answers
    every [sysctl] (with [METRIC_VAL_UINT32] read as the 64-bit type), then after any
    number of requests the registry was collected without a fault, and every metric of
    the eight modules has exactly the readings of the last request, with no label value
    left from an earlier one. *)
Theorem scrapes_hold_readings (h : headers) {T : Type} `{!RBCmp positive T} `{!RBCmpLaws positive T} ks k :
  METRIC_VAL_UINT32 h = METRIC_VAL_UINT64 -> Forall complete ks -> complete k ->
  exists (r0 r : registry T modpriv mod_id unit),
    server_registry h true true k = Ok r0 /\ scrapes h (ks ++ [k]) r0 = Ok r /\
    (fst <$> contents (r_metrics r) = Ds) /\
    (forall id d B, contents (r_metrics r) !! id = Some (d, B) -> B = readings h id k).
Proof.
  intros Ht Hks Hk. exists (fresh_registry h).
  destruct (scrapes_ok h (ks ++ [k]) None (fresh_registry h)) as (r & Hr & Hok).
  - apply Forall_app. split; [done|by constructor].
  - done.
  - exact (fresh_ok h).
  - exists r. split_and!; [by apply build_ok|done|apply Hok|].
    rewrite fmap_app in Hok. simpl in Hok. rewrite last_last in Hok. apply Hok.
Qed.

(** One [sysctl] that fails is enough to break the server: when the number of the
    pools cannot be read once, that request succeeds, and the next one uses memory
    after freeing it. *)
Theorem failed_sysctl_breaks :
  (match r0 ← server_registry (T := list positive) sample_headers true true sample_kernel;
         scrapes sample_headers [sample_kernel; no_npools sample_kernel] r0
   with Ok _ => true | UB _ => false end) = true /\
  (r0 ← server_registry (T := list positive) sample_headers true true sample_kernel;
   scrapes sample_headers [sample_kernel; no_npools sample_kernel; sample_kernel] r0) =
  UB use_after_free.
Proof. split; vm_compute; reflexivity. Qed.

(** ** Witnesses *)

Lemma sample_complete : complete sample_kernel.
Proof.
  constructor; simpl; try (by eexists); try (by repeat split; eexists).
  exists []. split; [done|]. intros ifm sa Hi. by apply elem_of_nil in Hi.
Qed.

Lemma scrapes_hold_readings_witness :
  exists (r0 r : registry (list positive) modpriv mod_id unit),
    server_registry sample_headers true true sample_kernel = Ok r0 /\
    scrapes sample_headers ([sample_kernel; sample_kernel] ++ [sample_kernel]) r0 = Ok r /\
    (fst <$> contents (r_metrics r) = Ds) /\
    (forall id d B, contents (r_metrics r) !! id = Some (d, B) ->
       B = readings sample_headers id sample_kernel).
Proof.
  apply (scrapes_hold_readings sample_headers [sample_kernel; sample_kernel] sample_kernel).
  - reflexivity.
  - repeat constructor; apply sample_complete.
  - apply sample_complete.
Defined.
