(* ===== verification/HttpSrv.v ===== *)
(** * The statistics server over HTTP (2.libevent-server/src/main.c)

    The server is a set of handlers that libevent calls: [event_accept] for a new
    connection, [event_read] and [event_write] when a socket is ready, [event_free]
    when a connection is 30 seconds old.  A connection is a [req]; its events are
    flags.  The HTTP parser (the vendored directory http-parser) is a parameter: what
    it makes of the bytes is the list of the callbacks that it calls, how many bytes it
    used, and whether it saw an upgrade.  The registry is an interface, [Stats], which
    the registry of Metrics.v implements. *)

From S2P Require Import Prelude RBTree Metrics MetricsMods.
From stdpp Require Import pretty.

#[local] Open Scope string_scope.
#[local] Open Scope Z_scope.

(** What the server needs of a registry [R], with the answers [K] of the kernel. *)
Class Stats (R K : Type) := {
  stats_collect : K -> R -> ub (Z * R);   (* registry_collect *)
  stats_print : R -> ub string;           (* print_registry *)
}.

#[export] Instance registry_stats {T} `{!RBCmp positive T} (h : headers) :
  Stats (registry T modpriv mod_id unit) kernel := {
  stats_collect k r := registry_collect (module_callbacks h true true k) r;
  stats_print r := print_registry r;
}.

Definition BUF_SIZE : Z := 2048.
Definition stats_buf_sz : Z := 256 * 1024.
Definition EAGAIN : Z := 35.

Inductive response_type := RESP_NOT_FOUND | RESP_METRICS.

#[export] Instance response_type_eq_dec : EqDecision response_type.
Proof. solve_decision. Defined.

(** The callbacks that do something: [on_url] with the method being GET or not,
    [on_message_complete] with the version of the request. *)
Inductive callback :=
  | Url (get : bool) (url : string)
  | Message_complete (http_major http_minor : Z).

Definition http_status_str (status : Z) : string :=
  if status =? 200 then "OK" else if status =? 404 then "Not Found"
  else if status =? 500 then "Internal Server Error" else "<unknown>".

Definition crlf : string := String (Ascii.ascii_of_nat 13) (String (Ascii.ascii_of_nat 10) EmptyString).

Section Server.
Context {R K P : Type} `{Stats R K}.

(** [http_parser_init] and [http_parser_execute]; [fmem s] is what [fmemopen] keeps of
    the text [s] in the buffer of [stats_buf_sz] bytes; [usable n] is how many bytes may be
    written to the block that [malloc(n)] gives: [n] by the C standard, more with an
    allocator that rounds sizes up. *)
Context (http_parser_init : P)
  (http_parser_execute : P -> string -> P * list callback * Z * bool)
  (fmem : string -> string) (usable : Z -> Z).

(** [struct req]: the buffers are their contents; [read], [write] and [time] tell whether
    the event is there. *)
Record req := Req {
  id : Z; done : Z; resp : response_type; parser : P;
  header : string; header_size : Z; header_sent : Z;
  body : option string; body_size : Z; body_sent : Z;
  read : bool; write : bool; time : bool }.

Definition set_response (q : req) (h : string) (hs : Z) : req :=
  Req (id q) (done q) (resp q) (parser q) h hs (header_sent q)
    (body q) (body_size q) (body_sent q) (read q) (write q) (time q).
Definition set_body (q : req) (b : string) : req :=
  Req (id q) (done q) (resp q) (parser q) (header q) (header_size q) (header_sent q)
    (Some b) (strlen b) (body_sent q) (read q) (write q) (time q).
Definition set_done (q : req) : req :=
  Req (id q) 1 (resp q) (parser q) (header q) (header_size q) (header_sent q)
    (body q) (body_size q) (body_sent q) (read q) (write q) (time q).
Definition set_resp (q : req) (r : response_type) : req :=
  Req (id q) (done q) r (parser q) (header q) (header_size q) (header_sent q)
    (body q) (body_size q) (body_sent q) (read q) (write q) (time q).
Definition set_parser (q : req) (p : P) : req :=
  Req (id q) (done q) (resp q) p (header q) (header_size q) (header_sent q)
    (body q) (body_size q) (body_sent q) (read q) (write q) (time q).
Definition set_events (q : req) (r w t : bool) : req :=
  Req (id q) (done q) (resp q) (parser q) (header q) (header_size q) (header_sent q)
    (body q) (body_size q) (body_sent q) r w t.
Definition set_sent (q : req) (hs bs : Z) : req :=
  Req (id q) (done q) (resp q) (parser q) (header q) (header_size q) hs
    (body q) (body_size q) bs (read q) (write q) (time q).

(** [printd += sprintf(header + printd, ...)] of one line. *)
Definition sprintf_header (s : string) (q : req) : ub req :=
  if header_size q + strlen s + 1 <=? BUF_SIZE
  then Ok (set_response q (header q ++ s)%string (header_size q + strlen s))
  else UB out_of_bounds.

Fixpoint sprintf_lines (ss : list string) (q : req) : ub req :=
  match ss with
  | [] => Ok q
  | s :: ss' => q1 ← sprintf_header s q; sprintf_lines ss' q1
  end.

Definition status_line (major minor status : Z) : string :=
  ("HTTP/" ++ pretty major ++ "." ++ pretty minor ++ " " ++ pretty status ++ " " ++
   http_status_str status ++ crlf)%string.

Definition send_err (major minor status : Z) (q : req) : ub req :=
  q1 ← sprintf_lines [status_line major minor status;
         ("Server: obsd-prom-exporter" ++ crlf)%string;
         ("Connection: close" ++ crlf)%string; crlf] q;
  Ok (set_done q1).

(** The prefix tests of [on_url]; asking for /stopme ends the server. *)
Definition on_url (get : bool) (url : string) (q : req) : ub req :=
  let q1 := if get && String.prefix "/metrics" url then set_resp q RESP_METRICS else q in
  if get && String.prefix "/stopme" url then UB exits else Ok q1.

(** [on_message_complete], when the buffer for the text could be allocated.  The body
    is a block allocated for as many bytes as the text has, and the string that [sprintf]
    writes to it has one byte more, its terminator: a write behind the end unless the
    allocator gives more than it is asked for. *)
Definition on_message_complete (k : K) (major minor : Z) (r : R) (q : req) : ub (R * req) :=
  match resp q with
  | RESP_NOT_FOUND => q1 ← send_err major minor 404 q; Ok (r, q1)
  | RESP_METRICS =>
      '(rc, r1) ← stats_collect k r;
      if nz rc then q1 ← send_err major minor 500 q; Ok (r1, q1)
      else
        text ← stats_print r1;
        let stats_buf := fmem text in
        let off := strlen stats_buf in
        q1 ← sprintf_lines [status_line major minor 200;
               ("Server: obsd-prom-exporter" ++ crlf)%string;
               ("Content-Type: text/plain; version=0.0.4; charset=utf-8" ++ crlf)%string;
               ("Content-Length: " ++ pretty off ++ crlf)%string;
               ("Connection: close" ++ crlf)%string; crlf] q;
        if strlen stats_buf + 1 <=? usable off
        then Ok (r1, set_done (set_body q1 stats_buf)) else UB out_of_bounds
  end.

Fixpoint run_callbacks (k : K) (cs : list callback) (r : R) (q : req) : ub (R * req) :=
  match cs with
  | [] => Ok (r, q)
  | Url get url :: cs' => q1 ← on_url get url q; run_callbacks k cs' r q1
  | Message_complete major minor :: cs' =>
      '(r1, q1) ← on_message_complete k major minor r q; run_callbacks k cs' r1 q1
  end.

(** ** The handlers *)

(** What a handler leaves: a request that goes on, or one that was freed, with its
    events as they were left. *)
Inductive outcome := Keep (q : req) | Freed (q : req).

Inductive ev_name := Ev_write | Ev_time.

(** [free_req(req, ev)]: the timer is deleted unless it is [ev] itself, and then [ev]. *)
Definition free_req (ev : ev_name) (q : req) : outcome :=
  let q1 := match ev with Ev_time => q | Ev_write => set_events q (read q) (write q) false end in
  Freed (match ev with
         | Ev_time => set_events q1 (read q1) (write q1) false
         | Ev_write => set_events q1 (read q1) false (time q1)
         end).

(** [event_free], the timer: [event_del(req->read)] needs the event. *)
Definition event_free (q : req) : ub outcome :=
  if read q then Ok (free_req Ev_time (set_events q false (write q) (time q))) else UB null_deref.

(** [send] from a buffer of [size] bytes of which [sent] are counted as sent: it reads
    from [sent] on, and returns [sendd]. *)
Definition send_from (buf : string) (sent sendd : Z) : ub string :=
  if sent <? 0 then UB out_of_bounds
  else Ok (String.substring (Z.to_nat sent) (Z.to_nat sendd) buf).

(** [event_write] with the result of its [send]: the bytes that go out, and the request
    unless it is freed. *)
Definition event_write (sendd : Z) (q0 : req) : ub (string * outcome) :=
  let q := set_events q0 (read q0) (write q0) false in
  if 0 <? header_size q - header_sent q then
    s ← send_from (header q) (header_sent q) sendd;
    Ok (s, Keep (set_sent q (header_sent q + sendd) (body_sent q)))
  else if 0 <? body_size q - body_sent q then
    b ← deref (body q);
    s ← send_from b (body_sent q) sendd;
    Ok (s, Keep (set_sent q (header_sent q) (body_sent q + sendd)))
  else if (done q =? 1) && (body_size q - body_sent q + header_size q - header_sent q <=? 0)
  then Ok ("", free_req Ev_write q)
  else Ok ("", Keep q).

(** The bytes up to the first NUL, in a buffer of [BUF_SIZE] bytes that was zeroed. *)
Fixpoint c_strlen (s : string) : option Z :=
  match s with
  | EmptyString => None
  | String c s' => if (Ascii.nat_of_ascii c =? 0)%nat then Some 0
                   else match c_strlen s' with Some n => Some (n + 1) | None => None end
  end.
Definition buf_strlen (data : string) : ub Z :=
  match c_strlen data with
  | Some n => Ok n
  | None => if strlen data <? BUF_SIZE then Ok (strlen data) else UB out_of_bounds
  end.

(** [event_read] with what [recv] returned, the bytes it wrote and the value of [errno]
    afterwards (an older one, when [recv] did not fail). *)
Definition event_read (k : K) (recvd : Z) (data : string) (errno : Z) (r : R) (q : req) : ub (R * req) :=
  len ← (if errno =? EAGAIN then buf_strlen data else Ok 0);
  if (errno =? EAGAIN) && (len =? 0) && nz recvd then Ok (r, q)
  else
    '(r1, q1, destroy) ←
      (if (recvd =? -1) && negb (errno =? EAGAIN) then Ok (r, q, true)
       else
         let '(p, cs, plen, upgrade) := http_parser_execute (parser q) data in
         '(r1, q1) ← run_callbacks k cs r (set_parser q p);
         Ok (r1, q1, (upgrade : bool) || negb (plen =? recvd)));
    if (done q1 =? 1) || (destroy : bool)
    then Ok (r1, set_done (set_events q1 false true (time q1)))
    else Ok (r1, q1).

(** The request that [event_accept] makes; a connection that [accept4] could not give
    ends the server, since [fcntl] then fails (the two errors that are only logged
    included). *)
Definition new_req (reqids : Z) : req :=
  Req reqids 0 RESP_NOT_FOUND http_parser_init "" 0 0 None 0 0 true false true.

Definition event_accept (cfd : Z) (reqids : Z) : ub (Z * req) :=
  if cfd <? 0 then UB exits else Ok (s32 (reqids + 1), new_req (s32 (reqids + 1))).

(** ** The event loop *)

Record server := Server {
  sv_reqids : Z; sv_registry : R; sv_reqs : gmap Z req; sv_sent : list (Z * string) }.

Inductive event :=
  | Accept (cfd : Z)
  | Readable (cfd : Z) (k : K) (recvd : Z) (data : string) (errno : Z)
  | Writable (cfd : Z) (sendd : Z)
  | Timeout (cfd : Z).

(** The requests after a handler: an event that is left for a freed request will be
    called with memory that is no longer there. *)
Definition settle (cfd : Z) (o : outcome) (reqs : gmap Z req) : ub (gmap Z req) :=
  match o with
  | Keep q => Ok (<[cfd := q]> reqs)
  | Freed q => if read q || write q || time q then UB use_after_free else Ok (delete cfd reqs)
  end.

(** libevent calls a handler only for an event that is there. *)
Definition dispatch (e : event) (s : server) : ub server :=
  match e with
  | Accept cfd =>
      '(n, q) ← event_accept cfd (sv_reqids s);
      Ok (Server n (sv_registry s) (<[cfd := q]> (sv_reqs s)) (sv_sent s))
  | Readable cfd k recvd data errno =>
      match sv_reqs s !! cfd with
      | Some q =>
          if read q then
            '(r1, q1) ← event_read k recvd data errno (sv_registry s) q;
            Ok (Server (sv_reqids s) r1 (<[cfd := q1]> (sv_reqs s)) (sv_sent s))
          else Ok s
      | None => Ok s
      end
  | Writable cfd sendd =>
      match sv_reqs s !! cfd with
      | Some q =>
          if write q then
            '(bytes, o) ← event_write sendd q;
            reqs ← settle cfd o (sv_reqs s);
            Ok (Server (sv_reqids s) (sv_registry s) reqs (sv_sent s ++ [(cfd, bytes)])%list)
          else Ok s
      | None => Ok s
      end
  | Timeout cfd =>
      match sv_reqs s !! cfd with
      | Some q =>
          if time q then
            o ← event_free q;
            reqs ← settle cfd o (sv_reqs s);
            Ok (Server (sv_reqids s) (sv_registry s) reqs (sv_sent s))
          else Ok s
      | None => Ok s
      end
  end.

Fixpoint reactor_loop (es : list event) (s : server) : ub server :=
  match es with
  | [] => Ok s
  | e :: es' => s1 ← dispatch e s; reactor_loop es' s1
  end.
End Server.

(** * Theorems *)

(** ** Sending a response *)

(** The rest of a string from a position, and its parts. *)
Definition from (n : Z) (s : string) : string :=
  String.substring (Z.to_nat n) (String.length s - Z.to_nat n) s.

Lemma substring_tail (s : string) (a n m : nat) : (a + n + m = String.length s)%nat ->
  (String.substring a n s ++ String.substring (a + n) m s)%string = String.substring a (n + m) s.
Proof.
  revert a n m; induction s as [|c s IH]; intros a n m Hl; simpl in Hl.
  - assert (a = 0 /\ n = 0 /\ m = 0)%nat as (-> & -> & ->) by lia. done.
  - destruct a as [|a]; simpl.
    + destruct n as [|n]; simpl; [done|].
      change (String c (String.substring 0 n s ++ String.substring n m s)%string = String c (String.substring 0 (n + m) s)).
      f_equal. apply (IH 0%nat). lia.
    + apply IH. lia.
Qed.

Lemma from_split s a n : 0 <= a -> 0 <= n -> a + n <= strlen s ->
  (String.substring (Z.to_nat a) (Z.to_nat n) s ++ from (a + n) s)%string = from a s.
Proof.
  intros Ha Hn Hl. unfold from, strlen in *.
  replace (Z.to_nat (a + n)) with (Z.to_nat a + Z.to_nat n)%nat by lia.
  rewrite substring_tail by lia. f_equal. lia.
Qed.

Lemma from_end s : from (strlen s) s = "".
Proof.
  unfold from, strlen. rewrite Nat2Z.id, Nat.sub_diag. clear.
  induction s as [|c s IH]; [done|]. simpl. done.
Qed.

Lemma from_start s : from 0 s = s.
Proof. unfold from. simpl. rewrite Nat.sub_0_r. by apply substring_all. Qed.

(** A decimal has no more digits than its number says. *)
Lemma pretty_N_go_length (n : nat) (x : N) (s : string) :
  (x < 10 ^ N.of_nat n)%N -> (String.length (pretty_N_go x s) <= n + String.length s)%nat.
Proof.
  revert x s; induction n as [|n IH]; intros x s Hx.
  - assert (x = 0)%N as -> by (simpl in Hx; lia). simpl. rewrite pretty_N_go_0. lia.
  - destruct (decide (x = 0)%N) as [->|Hne]; [rewrite pretty_N_go_0; lia|].
    rewrite pretty_N_go_step by lia.
    pose proof (IH (x / 10)%N (String (pretty_N_char (x mod 10)) s)) as Hl. simpl in Hl.
    assert (x / 10 < 10 ^ N.of_nat n)%N.
    { apply N.Div0.div_lt_upper_bound. rewrite <- N.pow_succ_r'. by rewrite <- Nat2N.inj_succ. }
    specialize (Hl ltac:(done)). lia.
Qed.

Lemma pretty_length (n : nat) z : 0 <= z < 10 ^ Z.of_nat n -> (0 < n)%nat -> strlen (pretty z) <= Z.of_nat n.
Proof.
  intros Hz Hn. unfold strlen. destruct z as [|x|x]; simpl; [lia| |lia].
  unfold pretty, pretty_Z, pretty, pretty_positive, pretty, pretty_N. rewrite decide_False by done.
  pose proof (pretty_N_go_length n (N.pos x) "") as Hl. simpl in Hl. rewrite Nat.add_0_r in Hl.
  assert (N.pos x < 10 ^ N.of_nat n)%N as Hx; [|specialize (Hl Hx); lia].
  apply N2Z.inj_lt. rewrite N2Z.inj_pow, nat_N_Z. simpl. lia.
Qed.

(** What the kernel may take, with [h] bytes of the header and [b] of the body left:
    at each turn at least one byte, and no more than there are; in the end all. *)
Fixpoint takes (h b : Z) (ns : list Z) : Prop :=
  match ns with
  | [] => h = 0 /\ b = 0
  | n :: ns' =>
      if 0 <? h then 0 < n <= h /\ takes (h - n) b ns'
      else 0 < n <= b /\ takes h (b - n) ns'
  end.

Section Theorems.
Context {R K P : Type} `{Stats R K} (init : P) (exec : P -> string -> P * list callback * Z * bool)
  (fmem : string -> string) (usable : Z -> Z).

Abbreviation req := (req (P := P)).
Abbreviation server := (server (R := R) (P := P)).
Abbreviation loop := (reactor_loop (K := K) init exec fmem usable).
Abbreviation step := (dispatch (K := K) init exec fmem usable).

(** The text of the body. *)
Definition body_text (q : req) : string := match body q with Some b => b | None => "" end.

(** A request whose answer is complete: it waits for the socket to take it. *)
Record answering (q : req) : Prop := {
  an_write : write q = true;
  an_read : read q = false;
  an_done : done q = 1;
  an_header : header_size q = strlen (header q);
  an_body : body_size q = strlen (body_text q);
  an_hsent : 0 <= header_sent q <= header_size q;
  an_bsent : 0 <= body_sent q <= body_size q }.

Definition sent_to (cfd : Z) (s : server) : string :=
  foldr (fun p acc => (p.2 ++ acc)%string) "" (filter (fun p => p.1 = cfd) (sv_sent s)).

Lemma sent_snoc cfd s n r qs b :
  sent_to cfd (Server n r qs (sv_sent s ++ [(cfd, b)])%list) = (sent_to cfd s ++ b)%string.
Proof.
  unfold sent_to. cbn [sv_sent]. rewrite filter_app, filter_cons_True by done. rewrite filter_nil.
  induction (filter _ (sv_sent s)) as [|p l IH]; cbn [foldr app]; [by rewrite string_app_nil_r|].
  rewrite IH. by rewrite string_app_assoc.
Qed.

(** One turn of [event_write] of an answer. *)
Lemma write_step (s : server) cfd q n ns : sv_reqs s !! cfd = Some q -> answering q ->
  takes (header_size q - header_sent q) (body_size q - body_sent q) (n :: ns) ->
  exists q' b, step (Writable cfd n) s =
      Ok (Server (sv_reqids s) (sv_registry s) (<[cfd := q']> (sv_reqs s)) (sv_sent s ++ [(cfd, b)])%list) /\
    answering q' /\ takes (header_size q' - header_sent q') (body_size q' - body_sent q') ns /\
    (b ++ from (header_sent q') (header q') ++ from (body_sent q') (body_text q'))%string =
      (from (header_sent q) (header q) ++ from (body_sent q) (body_text q))%string.
Proof.
  intros Hq [Hw Hr Hd Hh Hb Hhs Hbs] Ht. unfold dispatch. rewrite Hq, Hw. unfold event_write. simpl in *.
  case_if; cbool.
  - destruct Ht as [Hn Ht]. unfold send_from. rewrite (proj2 (Z.ltb_ge _ _)) by lia. simpl.
    eexists _, _. split; [done|]. split; [constructor; simpl; try done; lia|]. simpl.
    split; [by replace (header_size q - (header_sent q + n)) with (header_size q - header_sent q - n) by lia|].
    change (body_text (set_sent _ _ _)) with (body_text q).
    rewrite <- string_app_assoc, from_split by lia. done.
  - destruct Ht as [Hn Ht]. rewrite (proj2 (Z.ltb_lt _ _)) by lia. unfold body_text in *.
    destruct (body q) as [bd|] eqn:Hbd; [|unfold strlen in *; simpl in *; lia]. simpl.
    unfold send_from. rewrite (proj2 (Z.ltb_ge _ _)) by lia. simpl.
    eexists _, _. split; [done|]. split.
    { constructor; simpl; try done; unfold body_text; simpl; rewrite ?Hbd; try done; lia. }
    simpl. split; [by replace (body_size q - (body_sent q + n)) with (body_size q - body_sent q - n) by lia|].
    rewrite Hbd. replace (header_sent q) with (strlen (header q)) by lia. rewrite from_end. simpl.
    apply from_split; lia.
Qed.

(** The last turn frees the request and its events. *)
Lemma write_last (s : server) cfd q n : sv_reqs s !! cfd = Some q -> answering q ->
  takes (header_size q - header_sent q) (body_size q - body_sent q) [] ->
  step (Writable cfd n) s =
    Ok (Server (sv_reqids s) (sv_registry s) (delete cfd (sv_reqs s)) (sv_sent s ++ [(cfd, "")])%list).
Proof.
  intros Hq [Hw Hr Hd Hh Hb Hhs Hbs] [H1 H2]. unfold dispatch. rewrite Hq, Hw. unfold event_write. simpl.
  rewrite !(proj2 (Z.ltb_ge _ _)) by lia. rewrite Hd. simpl.
  rewrite (proj2 (Z.leb_le _ _)) by lia. simpl. by rewrite Hr.
Qed.

Lemma write_all ns (s : server) cfd q m : sv_reqs s !! cfd = Some q -> answering q ->
  takes (header_size q - header_sent q) (body_size q - body_sent q) ns ->
  exists s', loop ((Writable cfd <$> ns) ++ [Writable cfd m]) s = Ok s' /\
    sv_registry s' = sv_registry s /\ sv_reqs s' = delete cfd (sv_reqs s) /\
    sent_to cfd s' = (sent_to cfd s ++ from (header_sent q) (header q) ++ from (body_sent q) (body_text q))%string.
Proof.
  revert s q; induction ns as [|n ns IH]; intros s q Hq Ha Ht.
  - cbn [fmap list_fmap app reactor_loop]. rewrite (write_last s cfd q m Hq Ha Ht). cbn [mbind ub_bind]. eexists. split; [done|]. split; [done|]. split; [done|].
    rewrite sent_snoc. destruct Ha as [_ _ _ Hh Hb _ _]. destruct Ht as [H1 H2].
    replace (header_sent q) with (strlen (header q)) by lia.
    replace (body_sent q) with (strlen (body_text q)) by lia. by rewrite !from_end.
  - destruct (write_step s cfd q n ns Hq Ha Ht) as (q' & b & Hs & Ha' & Ht' & Hb). 
    cbn [fmap list_fmap app reactor_loop]. rewrite Hs. cbn [mbind ub_bind].
    destruct (IH (Server (sv_reqids s) (sv_registry s) (<[cfd:=q']> (sv_reqs s)) (sv_sent s ++ [(cfd, b)])%list)
      q' ltac:(apply lookup_insert_eq) Ha' Ht') as (s' & Hs' & Hreg & Hd & Hsent).
    exists s'. split; [done|]. split; [done|]. split.
    + rewrite Hd. simpl. apply delete_insert_eq.
    + rewrite Hsent, sent_snoc, <- Hb. by rewrite !string_app_assoc.
Qed.

(** ** The states of a request *)

(** A request that is being read, with the answers that its messages have had. *)
Record reading (q : req) : Prop := {
  rd_read : read q = true;
  rd_write : write q = false;
  rd_header : header_size q = strlen (header q);
  rd_body : body_size q = strlen (body_text q);
  rd_sent : header_sent q = 0 /\ body_sent q = 0;
  rd_done : done q = 0 \/ done q = 1 }.

(** A request between two events: it waits for bytes to come, or to be taken. *)
Definition request_ok (q : req) : Prop := (reading q /\ done q = 0) \/ answering q.

Lemma sprintf_lines_inv ss (q q' : req) : sprintf_lines ss q = Ok q' ->
  q' = set_response q (header q') (header_size q') /\
  (header_size q = strlen (header q) -> header_size q' = strlen (header q')).
Proof.
  revert q; induction ss as [|l ss IH]; intros q; cbn [sprintf_lines].
  - intros [= <-]. by destruct q.
  - unfold sprintf_header. case_if; [|done]. simpl. intros Hs. apply IH in Hs as [Heq Hh].
    rewrite Heq at 1. split; [done|]. simpl in Hh. intros Hq. apply Hh.
    unfold strlen in *. rewrite string_length_app. lia.
Qed.

#[local] Arguments sprintf_lines : simpl never.

Lemma send_err_reading major minor st (q q' : req) : reading q -> send_err major minor st q = Ok q' -> reading q'.
Proof.
  intros Hq Hs. unfold send_err in Hs. destruct (sprintf_lines _ q) as [q1|] eqn:H1; [|done].
  simpl in Hs. injection Hs as <-. apply sprintf_lines_inv in H1 as [-> Hh].
  destruct Hq as [? ? Hq ? ? ?]. constructor; simpl; try done; [by apply Hh|by right].
Qed.

Lemma message_reading k major minor (r r' : R) (q q' : req) : reading q ->
  on_message_complete fmem usable k major minor r q = Ok (r', q') -> reading q'.
Proof.
  intros Hq Hs. unfold on_message_complete in Hs. destruct (resp q).
  - destruct (send_err _ _ _ q) eqn:He; [|done]. simpl in Hs. injection Hs as <- <-.
    by eapply send_err_reading.
  - destruct (stats_collect k r) as [[rc r1]|]; [|done]. simpl in Hs. case_if in Hs.
    + destruct (send_err _ _ _ q) eqn:He; [|done]. simpl in Hs. injection Hs as <- <-.
      by eapply send_err_reading.
    + destruct (stats_print r1) as [text|]; [|done]. simpl in Hs.
      destruct (sprintf_lines _ q) as [q1|] eqn:H1; [|done]. simpl in Hs. case_if in Hs; [|done]. injection Hs as <- <-.
      apply sprintf_lines_inv in H1 as [-> Hh]. destruct Hq as [? ? Hq ? ? ?].
      constructor; simpl; try done; [by apply Hh|by right].
Qed.

Lemma callbacks_reading k cs (r r' : R) (q q' : req) : reading q ->
  run_callbacks fmem usable k cs r q = Ok (r', q') -> reading q'.
Proof.
  revert r q; induction cs as [|c cs IH]; intros r q Hq Hs; simpl in Hs; [by injection Hs as <- <-|].
  destruct c as [get url|major minor].
  - unfold on_url in Hs. case_if in Hs; [done|]. simpl in Hs. eapply IH; [|exact Hs].
    destruct Hq. by case_if; constructor.
  - destruct (on_message_complete _ _ _ _ _ _) as [[r1 q1]|] eqn:Hm; [|done]. simpl in Hs.
    eapply IH; [|exact Hs]. by eapply message_reading.
Qed.

Lemma read_ok k recvd data errno (r r' : R) (q q' : req) : reading q -> done q = 0 ->
  event_read exec fmem usable k recvd data errno r q = Ok (r', q') -> request_ok q'.
Proof.
  intros Hq Hd. unfold event_read. rewrite ub_bind_ok. intros (len & _ & Hs).
  case_if in Hs; [injection Hs as <- <-; by left|].
  apply ub_bind_ok in Hs as ([[r1 q1] destroy] & Hs1 & Hs).
  assert (Hq1 : reading q1 /\ (done q1 = 0 \/ done q1 = 1)).
  { case_if in Hs1; [injection Hs1 as <- <- <-; auto|].
    destruct (exec (parser q) data) as [[[p cs] plen] upgrade].
    apply ub_bind_ok in Hs1 as ([r2 q2] & Hc & [= <- <- <-]).
    assert (reading q2) as Hq2.
    { eapply (callbacks_reading k cs r r2 (set_parser q p) q2); [|exact Hc]. by destruct Hq. }
    split; [done|apply Hq2]. }
  destruct Hq1 as [[H1 H2 H3 H4 [H5 H6] H7] Hd1]. case_if in Hs; injection Hs as <- <-.
  - right. constructor; simpl; try done; unfold strlen in *; simpl; lia.
  - left. split; [by constructor|]. cbool. destruct Hd1; [done|]. lia.
Qed.

(** The results of [send] that an operating system gives: [-1] excluded. *)
Definition send_ok (s : server) (e : event (K := K)) : Prop :=
  match e with
  | Writable cfd n => forall q, sv_reqs s !! cfd = Some q -> write q = true ->
      if 0 <? header_size q - header_sent q then 0 <= n <= header_size q - header_sent q
      else 0 < body_size q - body_sent q -> 0 <= n <= body_size q - body_sent q
  | _ => True
  end.

(** The states that the server reaches from one without requests. *)
Inductive reachable : server -> Prop :=
  | reach_start n r : reachable (Server n r ∅ [])
  | reach_step s e s' : reachable s -> send_ok s e -> step e s = Ok s' -> reachable s'.

Lemma reachable_ok s : reachable s -> map_Forall (fun _ q => request_ok q) (sv_reqs s).
Proof.
  induction 1 as [n r|s e s' Hr IH Hsend Hs]; [apply map_Forall_empty|].
  destruct e as [cfd|cfd k recvd data errno|cfd n|cfd]; simpl in Hs.
  - unfold event_accept in Hs. case_if in Hs; [done|]. simpl in Hs. injection Hs as <-. simpl.
    apply map_Forall_insert_2; [|done]. left. split; [|done]. constructor; simpl; try done. by left.
  - destruct (sv_reqs s !! cfd) as [q|] eqn:Hq; [|by injection Hs as <-].
    case_if in Hs; [|by injection Hs as <-].
    apply ub_bind_ok in Hs as ([r1 q1] & He & [= <-]). simpl. apply map_Forall_insert_2; [|done].
    destruct (IH _ _ Hq) as [[Hrd Hd]|[_ Hrd _ _ _ _ _]]; [|congruence]. by eapply read_ok.
  - destruct (sv_reqs s !! cfd) as [q|] eqn:Hq; [|by injection Hs as <-].
    case_if in Hs; [|by injection Hs as <-].
    apply ub_bind_ok in Hs as ([bytes o] & Hw & Hs). apply ub_bind_ok in Hs as (reqs & Hset & [= <-]). simpl.
    destruct (IH _ _ Hq) as [[Hrd Hd]|Ha]; [destruct Hrd; congruence|]. destruct Ha as [H1 H2 H3 H4 H5 H6 H7].
    specialize (Hsend q Hq H1). unfold event_write in Hw. simpl in Hw. case_if in Hw.
    + apply ub_bind_ok in Hw as (b & _ & [= <- <-]). injection Hset as <-. apply map_Forall_insert_2; [|done].
      right. constructor; simpl; try done. lia.
    + case_if in Hw.
      * destruct (body q) as [bd|] eqn:Hbd; [|done]. simpl in Hw.
        apply ub_bind_ok in Hw as (b & _ & [= <- <-]). injection Hset as <-. apply map_Forall_insert_2; [|done].
        cbool. specialize (Hsend ltac:(lia)). right. constructor; simpl; try done. lia.
      * case_if in Hw; injection Hw as <- <-; simpl in Hset.
        -- rewrite H2 in Hset. simpl in Hset. injection Hset as <-. by apply map_Forall_delete.
        -- injection Hset as <-. apply map_Forall_insert_2; [|done]. right. by constructor.
  - destruct (sv_reqs s !! cfd) as [q|] eqn:Hq; [|by injection Hs as <-].
    case_if in Hs; [|by injection Hs as <-].
    apply ub_bind_ok in Hs as (o & Hf & Hs). apply ub_bind_ok in Hs as (reqs & Hset & [= <-]). simpl.
    unfold event_free in Hf. case_if in Hf; [|done]. injection Hf as <-. simpl in Hset.
    case_if in Hset; [done|]. injection Hset as <-. by apply map_Forall_delete.
Qed.

(** ** Properties *)

(** C28: The states of a request: in every state that the server reaches, with any
    requests and any parser, and results of [send] that are not errors ([send_ok]: from 0
    to the number of bytes that are left), a request either waits to be read, with
    nothing sent, or answers, its sizes those of its buffers and what was sent within
    them; writing to it never faults; and the 30-second timer, when it is still there,
    frees a request that waits to be read, but on one that answers it dereferences NULL
    (the first write to it deletes the timer). *)
Theorem requests_consistent s cfd q : reachable s -> sv_reqs s !! cfd = Some q ->
  ((reading q /\ done q = 0) \/ answering q) /\
  (forall n, send_ok s (Writable cfd n) -> exists s', step (Writable cfd n) s = Ok s') /\
  (time q = true -> read q = true -> exists s', step (Timeout cfd) s = Ok s' /\
     sv_reqs s' = delete cfd (sv_reqs s)) /\
  (time q = true -> answering q -> step (Timeout cfd) s = UB null_deref).
Proof.
  intros Hr Hq. pose proof (reachable_ok s Hr cfd q Hq) as Hok. split; [done|]. split; [|split].
  - intros n Hsend. simpl. rewrite Hq. destruct (write q) eqn:Hw; [|by eexists].
    destruct Hok as [[Hrd _]|Ha]; [destruct Hrd; congruence|]. destruct Ha as [H1 H2 H3 H4 H5 H6 H7].
    unfold event_write. simpl. case_if.
    + unfold send_from. rewrite (proj2 (Z.ltb_ge _ _)) by lia. by eexists.
    + case_if.
      * destruct (body q) as [bd|] eqn:Hbd; [|unfold body_text in H5; rewrite Hbd in H5; cbool; unfold strlen in *; simpl in *; lia].
        simpl. unfold send_from. rewrite (proj2 (Z.ltb_ge _ _)) by lia. by eexists.
      * case_if; simpl; [rewrite H2|]; by eexists.
  - intros Ht Hrq. simpl. rewrite Hq, Ht. unfold event_free. rewrite Hrq. simpl.
    destruct Hok as [[Hrd _]|Ha]; [|destruct Ha; congruence]. rewrite (rd_write _ Hrd). simpl. by eexists.
  - intros Ht Ha. simpl. rewrite Hq, Ht. unfold event_free. by rewrite (an_read _ Ha).
Qed.

(** A peer that goes away: when [send] fails, its -1 is added to the number of bytes
    sent, and the next [event_write] sends from before the start of the buffer. *)
Theorem send_error_underflow s cfd q n : sv_reqs s !! cfd = Some q -> write q = true ->
  header_sent q = 0 -> 0 < header_size q ->
  reactor_loop (K := K) init exec fmem usable [Writable cfd (-1); Writable cfd n] s = UB out_of_bounds.
Proof.
  intros Hq Hw H0 Hs.
  assert (H1 : event_write (-1) q = Ok (String.substring 0 0 (header q),
    Keep (set_sent (set_events q (read q) (write q) false) (-1) (body_sent q)))).
  { unfold event_write. simpl. rewrite (proj2 (Z.ltb_lt _ _)) by lia. unfold send_from. by rewrite H0. }
  simpl. rewrite Hq, Hw, H1. simpl. rewrite lookup_insert_eq. simpl. rewrite Hw.
  unfold event_write. simpl. by rewrite (proj2 (Z.ltb_lt _ _)) by lia.
Qed.

(** The buffer for the headers holds the answers to 28 requests for an unknown page;
    a connection that sends 29 requests in one piece (a piece has room for more than
    100) makes the server write past its end. *)
Theorem pipelined_overflow (k : K) (r : R) n :
  (exists q, run_callbacks fmem usable k (replicate 28 (Message_complete 1 1)) r (new_req init n) = Ok (r, q)) /\
  run_callbacks fmem usable k (replicate 29 (Message_complete 1 1)) r (new_req init n) = UB out_of_bounds.
Proof. split; [eexists; vm_compute; reflexivity|vm_compute; reflexivity]. Qed.

Lemma set_response_twice (q : req) a b c d : set_response (set_response q a b) c d = set_response q c d.
Proof. done. Qed.

(** The answer to a request for the metrics. *)
Definition metrics_header (text : string) : string :=
  (status_line 1 1 200 ++ "Server: obsd-prom-exporter" ++ crlf ++
   "Content-Type: text/plain; version=0.0.4; charset=utf-8" ++ crlf ++
   "Content-Length: " ++ pretty (strlen text) ++ crlf ++ "Connection: close" ++ crlf ++ crlf)%string.

Lemma metrics_lines (q : req) text : header q = "" -> header_size q = 0 -> strlen text < stats_buf_sz ->
  sprintf_lines [status_line 1 1 200;
     ("Server: obsd-prom-exporter" ++ crlf)%string;
     ("Content-Type: text/plain; version=0.0.4; charset=utf-8" ++ crlf)%string;
     ("Content-Length: " ++ pretty (strlen text) ++ crlf)%string;
     ("Connection: close" ++ crlf)%string; crlf] q =
  Ok (set_response q (metrics_header text) (strlen (metrics_header text))).
Proof.
  intros Hh Hz Ht.
  assert (Hd : strlen (pretty (strlen text)) <= 6).
  { apply (pretty_length 6); [|lia]. unfold stats_buf_sz in Ht. split; [unfold strlen; lia|].
    change (10 ^ Z.of_nat 6) with 1000000. lia. }
  assert (Hc : strlen ("Content-Length: " ++ pretty (strlen text) ++ crlf)%string <= 24).
  { unfold strlen in *. rewrite !string_length_app. simpl. lia. }
  assert (H1 : strlen (status_line 1 1 200) = 17) by done.
  assert (H2 : strlen ("Server: obsd-prom-exporter" ++ crlf)%string = 28) by done.
  assert (H3 : strlen ("Content-Type: text/plain; version=0.0.4; charset=utf-8" ++ crlf)%string = 56) by done.
  assert (H4 : strlen ("Connection: close" ++ crlf)%string = 19) by done.
  assert (H5 : strlen crlf = 2) by done.
  unfold sprintf_lines, sprintf_header, BUF_SIZE. rewrite Hh, Hz.
  repeat (rewrite (proj2 (Z.leb_le _ _)); [cbn [mbind ub_bind]; cbn [header header_size set_response]|]);
    try (rewrite ?H1, ?H2, ?H3, ?H4, ?H5; lia).
  clear H1 H2 H3 H4 H5.
  rewrite !set_response_twice. unfold metrics_header.
  assert (Happ : forall a b : string, strlen (a ++ b)%string = strlen a + strlen b)
    by (intros; unfold strlen; rewrite string_length_app; lia).
  assert (He : forall a : string, ("" ++ a)%string = a) by done.
  do 2 f_equal; [by rewrite He, !string_app_assoc|]. rewrite !Happ. lia.
Qed.

(** The request for the metrics is read: its answer is ready, or its body does not fit. *)
Lemma metrics_read k cfd recvd data errno p n r r1 text reqs :
  0 <= recvd -> errno <> EAGAIN -> exec init data = (p, [Url true "/metrics"; Message_complete 1 1], recvd, false) ->
  stats_collect k r = Ok (0, r1) -> stats_print r1 = Ok text -> fmem text = text ->
  strlen text < stats_buf_sz ->
  step (Readable cfd k recvd data errno) (Server n r (<[cfd := new_req init n]> reqs) []) =
  if strlen text + 1 <=? usable (strlen text) then
    Ok (Server n r1 (<[cfd := Req n 1 RESP_METRICS p (metrics_header text) (strlen (metrics_header text)) 0
      (Some text) (strlen text) 0 false true true]> reqs) [])
  else UB out_of_bounds.
Proof.
  intros Hrv Her Hex Hcol Hpr Hfm Hlen.
  unfold dispatch. cbn [sv_reqs]. rewrite lookup_insert_eq. cbn [read new_req].
  unfold event_read. rewrite (proj2 (Z.eqb_neq errno EAGAIN)) by done. cbn [mbind ub_bind andb].
  rewrite (proj2 (Z.eqb_neq recvd (-1))) by lia. cbn [andb]. cbn [parser new_req]. rewrite Hex. cbn [run_callbacks].
  unfold on_url. cbn -[sprintf_lines metrics_header status_line crlf].
  rewrite Hcol. cbn -[sprintf_lines metrics_header status_line crlf].
  rewrite Hpr. cbn -[sprintf_lines metrics_header status_line crlf]. rewrite Hfm.
  rewrite metrics_lines by done. cbn -[metrics_header strlen]. case_if; [|done].
  cbn -[metrics_header strlen]. by rewrite insert_insert_eq.
Qed.

(** C35: A request for /metrics from beginning to end.  The whole request
    [GET /metrics HTTP/1.1] comes in one [recv] and the parser finds it there, [errno] is
    not EAGAIN, the registry is collected without an error and printed, and its text has
    no NUL byte and is shorter than the buffer of 256 KiB ([fmem text = text]).  When the
    block that [malloc] gives for the text has a byte more than was asked for, and each
    [send] takes at least one byte, then in whatever pieces the kernel takes the answer
    the peer gets the status line, the header lines with the length of the text, and the
    whole text, and the connection is closed with its events deleted; when the block has
    no such byte, reading the request is a write out of bounds. *)
Theorem metrics_answered k cfd recvd data errno p n r r1 text ns m reqs :
  0 <= recvd -> errno <> EAGAIN -> exec init data = (p, [Url true "/metrics"; Message_complete 1 1], recvd, false) ->
  stats_collect k r = Ok (0, r1) -> stats_print r1 = Ok text -> fmem text = text ->
  strlen text < stats_buf_sz ->
  takes (strlen (metrics_header text)) (strlen text) ns ->
  let run := reactor_loop (K := K) init exec fmem usable
    (Readable cfd k recvd data errno :: (Writable cfd <$> ns) ++ [Writable cfd m])
    (Server n r (<[cfd := new_req init n]> reqs) []) in
  if strlen text + 1 <=? usable (strlen text) then
    exists s', run = Ok s' /\ sv_registry s' = r1 /\ sv_reqs s' = delete cfd reqs /\
      sent_to cfd s' = (metrics_header text ++ text)%string
  else run = UB out_of_bounds.
Proof.
  intros Hrv Her Hex Hcol Hpr Hfm Hlen Ht run. unfold run. cbn [reactor_loop].
  rewrite (metrics_read k cfd recvd data errno p n r r1 text reqs) by done.
  case_if; [|done]. cbn [mbind ub_bind].
  set (q1 := Req n 1 RESP_METRICS p (metrics_header text) (strlen (metrics_header text)) 0
    (Some text) (strlen text) 0 false true true).
  assert (Ha : answering q1) by (constructor; try done; cbn -[metrics_header strlen]; unfold strlen; lia).
  destruct (write_all ns (Server n r1 (<[cfd := q1]> reqs) []) cfd q1 m) as (s' & Hs & Hreg & Hd & Hsent).
  - apply lookup_insert_eq.
  - done.
  - simpl. by rewrite !Z.sub_0_r.
  - exists s'. split_and!; [done|done| |].
    + rewrite Hd. simpl. by rewrite delete_insert_eq.
    + rewrite Hsent. simpl. by rewrite !from_start.
Qed.
End Theorems.

(** ** Witnesses *)

(** A parser that finds one request in every piece, and a registry with one text. *)
Definition sample_exec (p : unit) (data : string) : unit * list callback * Z * bool :=
  (p, [Url true "/metrics"; Message_complete 1 1], strlen data, false).
Definition sample_text : string := "up 1".
(** An allocator that gives blocks of multiples of 16 bytes. *)
Definition rounded (n : Z) : Z := (n + 15) / 16 * 16.
#[local] Instance sample_stats : Stats unit unit := {
  stats_collect _ r := Ok (0, r);
  stats_print _ := Ok sample_text;
}.
Definition sample_server : server (R := unit) (P := unit) :=
  Server 1 () {[ 5 := new_req () 1 ]} [].
Definition sample_get : event (K := unit) := Readable 5 () 3 "GET" 0.
(** The server when the answer is ready. *)
Definition answered : server (R := unit) (P := unit) :=
  match dispatch () sample_exec (fun s => s) rounded sample_get sample_server with
  | Ok s => s | UB _ => sample_server end.
Definition answered_req : req (P := unit) :=
  match sv_reqs answered !! 5 with Some q => q | None => new_req () 1 end.

Lemma answered_reachable : reachable () sample_exec (fun s => s) rounded answered.
Proof.
  apply (reach_step _ _ _ _ sample_server sample_get); [|done|vm_compute; reflexivity].
  apply (reach_step _ _ _ _ (Server 0 () ∅ []) (Accept 5)); [constructor|done|vm_compute; reflexivity].
Qed.

Lemma requests_consistent_witness :
  ((reading answered_req /\ done answered_req = 0) \/ answering answered_req) /\
  (forall n, send_ok answered (Writable (K := unit) 5 n) ->
     exists s', dispatch () sample_exec (fun s => s) rounded (Writable 5 n) answered = Ok s') /\
  (time answered_req = true -> read answered_req = true -> exists s',
     dispatch () sample_exec (fun s => s) rounded (Timeout 5) answered = Ok s' /\
     sv_reqs s' = delete 5 (sv_reqs answered)) /\
  (time answered_req = true -> answering answered_req ->
     dispatch () sample_exec (fun s => s) rounded (Timeout 5) answered = UB null_deref).
Proof.
  apply (requests_consistent () sample_exec (fun s => s) rounded answered 5 answered_req answered_reachable).
  vm_compute. reflexivity.
Defined.

Lemma send_error_underflow_witness :
  reactor_loop () sample_exec (fun s => s) rounded [Writable 5 (-1); Writable 5 10] answered = UB out_of_bounds.
Proof.
  apply (send_error_underflow () sample_exec (fun s => s) rounded answered 5 answered_req); vm_compute; reflexivity.
Defined.

(** Once with an allocator that rounds up, and once with one that gives just what it is
    asked for. *)
Lemma metrics_answered_witness :
  let run usable := reactor_loop () sample_exec (fun s => s) usable
      (Readable 5 () 3 "GET" 0 :: (Writable 5 <$> [100; 41; 1; 3]) ++ [Writable 5 0]) sample_server in
  (exists s', run rounded = Ok s' /\
    sv_registry s' = () /\ sv_reqs s' = delete 5 ∅ /\
    sent_to 5 s' = (metrics_header sample_text ++ sample_text)%string) /\
  run (fun n => n) = UB out_of_bounds.
Proof.
  split.
  - apply (metrics_answered () sample_exec (fun s => s) rounded () 5 3 "GET" 0 () 1 () () sample_text [100; 41; 1; 3] 0 ∅);
      try reflexivity; try done; vm_compute; repeat split; try discriminate; lia.
  - apply (metrics_answered () sample_exec (fun s => s) (fun n => n) () 5 3 "GET" 0 () 1 () () sample_text [100; 41; 1; 3] 0 ∅);
      try reflexivity; try done; vm_compute; repeat split; try discriminate; lia.
Defined.
