(* ===== verification/HttpMain.v ===== *)
(** * The start and the log of the statistics server
    (2.libevent-server/src/main.c, [main]; log.c)

    [main] reads the options, goes to the background, opens the listening socket and starts the
    loop of [HttpSrv].  What the system calls answer is a [world].  [vtslog] writes a line into a
    buffer that grows until the line fits; what [snprintf] makes of the time, the message and the
    error are its inputs. *)

From stdpp Require Import pretty.
From S2P Require Import Prelude CText HttpSrv.

(** ** log.c *)

(** The loop of [vtslog] behind [again]: [len] is the size of the buffer, [stamp i] the time in
    turn [i], and [used] whether [vsnprintf] has taken the arguments out of [ap], which leaves
    [ap] without a value.  The result is the line and the size. *)
Fixpoint vtslog_loop (fuel : nat) (stamp : nat -> string) (msg err : string) (i : nat) (used : bool) (len : Z) : ub (string * Z) :=
  match fuel with
  | O => UB no_fuel
  | S fuel =>
      let rem := len - 1 in
      if rem <=? strlen (stamp i) then vtslog_loop fuel stamp msg err (S i) used (len * 2) else
      let rem := rem - strlen (stamp i) in
      if used then UB uninitialized else
      if rem <=? strlen msg then vtslog_loop fuel stamp msg err (S i) true (len * 2) else
      let rem := rem - strlen msg in
      if negb (String.eqb err "") && (rem <=? strlen err) then vtslog_loop fuel stamp msg err (S i) true (len * 2) else
      Ok ((stamp i ++ msg ++ err)%string, len)
  end.

(** [vtslog]: [len] is static, 0 before the first call, and [fmt] the length of the format.  A
    buffer of 2^63 bytes cannot be had. *)
Definition vtslog (stamp : nat -> string) (fmt : Z) (msg err : string) (len : Z) : ub (string * Z) :=
  vtslog_loop 64 stamp msg err 0 false (if len =? 0 then fmt * 2 + 64 else len).

(** The lines of a sequence of calls, each with its time, format, message and error. *)
Fixpoint log_lines (calls : list ((nat -> string) * Z * string * string)) (len : Z) : ub (list string) :=
  match calls with
  | [] => Ok []
  | (stamp, fmt, msg, err) :: calls =>
      '(l, len) ← vtslog stamp fmt msg err len; ls ← log_lines calls len; Ok (l :: ls)
  end.

(** ** main.c *)

Definition EXIT_USAGE := 1.
Definition EXIT_SOCKERR := 2.
Definition EXIT_ERROR := 4.
Definition UINT16_MAX := 65535.

(** The digits of [strtoul] in a base. *)
Definition digit_of (base : Z) (c : ascii) : option Z :=
  let d := if isdigit c then code c - 48 else
           if (97 <=? code c) && (code c <=? 122) then code c - 87 else
           if (65 <=? code c) && (code c <=? 90) then code c - 55 else 36 in
  if d <? base then Some d else None.

Fixpoint scan_base (base : Z) (s : string) (acc : Z) : Z * string :=
  match s with
  | EmptyString => (acc, "")
  | String c s' => match digit_of base c with Some d => scan_base base s' (acc * base + d) | None => (acc, s) end
  end.

(** The base that a number has by its prefix, and its digits. *)
Definition base_of (s : string) : Z * string :=
  match s with
  | String z (String x ((String d _) as r)) =>
      if Ascii.eqb z "0" then
        if (Ascii.eqb x "x" || Ascii.eqb x "X") && match digit_of 16 d with Some _ => true | None => false end
        then (16, r) else (8, s)
      else (10, s)
  | String z _ => if Ascii.eqb z "0" then (8, s) else (10, s)
  | EmptyString => (10, s)
  end.

(** [strtoul(s, &p, 0)]: the value, [p], and whether [errno] is set. *)
Definition strtoul (s : string) : Z * string * bool :=
  let '(sign, s1) := scan_sign (skip_white s) in
  let '(base, s2) := base_of s1 in
  match s2 with
  | String c _ =>
      match digit_of base c with
      | Some _ =>
          let '(v, p) := scan_base base s2 0 in
          if 2 ^ 64 <=? v then (2 ^ 64 - 1, p, true) else (u64 (sign * v), p, false)
      | None => (0, s, false)
      end
  | EmptyString => (0, s, false)
  end.

(** The option [-p]. *)
Definition port_arg (optarg : string) : option Z :=
  let '(parsed, p, errno) := strtoul optarg in
  if errno || negb (String.eqb p "") then None else
  if UINT16_MAX <=? parsed then None else Some (u16 parsed).

(** [getopt(argc, argv, "p:fl:")]; [OptBad] is an option that is unknown or has no argument. *)
Inductive opt := OptP (optarg : string) | OptF | OptL (optarg : string) | OptBad.

Fixpoint opt_word (w : string) (next : option string) : list opt * bool :=
  match w with
  | EmptyString => ([], false)
  | String c w =>
      if Ascii.eqb c "p" || Ascii.eqb c "l" then
        let o := if Ascii.eqb c "p" then OptP else OptL in
        if String.eqb w "" then (match next with Some a => ([o a], true) | None => ([OptBad], false) end) else ([o w], false)
      else
        let '(os, used) := opt_word w next in ((if Ascii.eqb c "f" then OptF else OptBad) :: os, used)
  end.

(** Words are taken up to the first that is not an option; [skip] is a word that was an argument. *)
Fixpoint getopt (skip : bool) (args : list string) : list opt :=
  match args with
  | [] => []
  | w :: rest =>
      if skip then getopt false rest else
      match w with
      | String c (String c2 w2) =>
          if Ascii.eqb c "-" && negb (Ascii.eqb c2 "-" && String.eqb w2 "") then
            let '(os, used) := opt_word (String c2 w2) (head rest) in os ++ getopt used rest
          else []
      | _ => []
      end
  end.

Record options := Options { o_port : Z; o_daemon : bool; o_logfile : option string }.

Fixpoint options_loop (fopen : string -> bool) (os : list opt) (o : options) : option options :=
  match os with
  | [] => Some o
  | OptP a :: os => match port_arg a with Some n => options_loop fopen os (Options n (o_daemon o) (o_logfile o)) | None => None end
  | OptF :: os => options_loop fopen os (Options (o_port o) false (o_logfile o))
  | OptL a :: os => if fopen a then options_loop fopen os (Options (o_port o) (o_daemon o) (Some a)) else None
  | OptBad :: _ => None
  end.

(** What the system calls return; [w_bind] is asked for a port. *)
Record world := World {
  w_fopen : string -> bool; w_fork : Z; w_setsid : bool;
  w_socket : Z; w_setsockopt : bool; w_fcntl : bool; w_bind : Z -> bool; w_listen : bool }.

(** How [main] ends, or that the loop runs on a socket with a port, with the log file. *)
Inductive ended (S : Type) :=
  | Exited (status : Z) | Parent | Loop (lsock port : Z) (logfile : option string) (s : S).
Arguments Exited {S}.
Arguments Parent {S}.
Arguments Loop {S}.

(** [main] up to [reactor_loop]; [args] is [argv] from 1 on. *)
Definition main {R P} (w : world) (args : list string) (registry : R) : ended (server (R := R) (P := P)) :=
  match options_loop (w_fopen w) (getopt false args) (Options 27600 true None) with
  | None => Exited EXIT_USAGE
  | Some o =>
      if o_daemon o && (w_fork w <? 0) then Exited EXIT_ERROR else
      if o_daemon o && (0 <? w_fork w) then Parent else
      if o_daemon o && negb (w_setsid w) then Exited EXIT_ERROR else
      if w_socket w <? 0 then Exited EXIT_SOCKERR else
      if negb (w_setsockopt w) then Exited EXIT_SOCKERR else
      if negb (w_fcntl w) then Exited EXIT_SOCKERR else
      if negb (w_bind w (o_port o)) then Exited EXIT_SOCKERR else
      if negb (w_listen w) then Exited EXIT_SOCKERR else
      Loop (w_socket w) (o_port o) (o_logfile o) (Server 0 registry ∅ [])
  end.

(** ** A line of the log *)

(** [vtslog] writes the time, the message and the error, when they fit into the buffer of the first
    call.  When they do not, it makes the buffer larger and formats the message again, with
    arguments that are used up.  (A time has at most 40 characters.) *)
Theorem vtslog_line stamp fmt msg err len :
  (forall i, strlen (stamp i) <= 40) -> 0 <= fmt -> len = 0 \/ 64 <= len ->
  let size := if len =? 0 then fmt * 2 + 64 else len in
  vtslog stamp fmt msg err len =
  if strlen (stamp O) + strlen msg + strlen err <? size - 1
  then Ok ((stamp O ++ msg ++ err)%string, size) else UB uninitialized.
Proof.
  intros Hst Hf Hlen size. unfold vtslog. fold size.
  assert (Hsz : 64 <= size). { unfold size. case_if; cbool; lia. }
  pose proof (Hst 0%nat) as H0. pose proof (Hst 1%nat) as H1.
  assert (0 <= strlen msg /\ 0 <= strlen err) as [Hm0 He0] by (unfold strlen; lia).
  assert (He : String.eqb err "" = false -> 0 < strlen err) by (destruct err; [done|unfold strlen; cbn [String.length]; lia]).
  cbn [vtslog_loop]. rewrite (proj2 (Z.leb_gt _ _)) by lia. rewrite !(proj2 (Z.leb_gt (size * 2 - 1) _)) by lia.
  destruct (size - 1 - strlen (stamp O) <=? strlen msg) eqn:Em.
  { apply Z.leb_le in Em. by rewrite (proj2 (Z.ltb_ge _ _)) by lia. }
  apply Z.leb_gt in Em. destruct (String.eqb err "") eqn:Ee; cbn [negb andb].
  - apply String.eqb_eq in Ee as ->. change (strlen "") with 0. by rewrite (proj2 (Z.ltb_lt _ _)) by lia.
  - destruct (Z.leb_spec (size - 1 - strlen (stamp O) - strlen msg) (strlen err)).
    + by rewrite (proj2 (Z.ltb_ge _ _)) by lia.
    + by rewrite (proj2 (Z.ltb_lt _ _)) by lia.
Qed.

(** The first line of a server sets the size.  The line for a connection that was aborted does not
    fit. *)
Definition stamp0 : nat -> string := fun _ => "[2021-05-01T12:34:56.789Z] "%string.
Definition listening_call := (stamp0, 20, "listening on port 27600", "")%string.
Definition aborted_call :=
  (stamp0, 46, "failed to accept connection from 192.168.100.200: 53 (Software caused connection abort)", "")%string.

Example aborted_connection_log : log_lines [listening_call; aborted_call] 0 = UB uninitialized.
Proof. reflexivity. Qed.

(** ** The port *)

Lemma digit_of_10 c : digit_of 10 c = if isdigit c then Some (code c - 48) else None.
Proof. destruct c as [[] [] [] [] [] [] [] []]; reflexivity. Qed.

Lemma scan_base_10 s acc : scan_base 10 s acc = scan_digits s acc.
Proof.
  revert acc; induction s as [|c s IH]; intros acc; [done|]. cbn [scan_base scan_digits]. rewrite digit_of_10.
  destruct (isdigit c); [apply IH|done].
Qed.

Lemma base_of_10 c t : isdigit c = true -> code c <> 48 -> base_of (String c t) = (10, String c t).
Proof.
  intros Hd Hc. assert (Ascii.eqb c "0" = false) as Hz. { apply Ascii.eqb_neq. intros ->. by apply Hc. }
  unfold base_of. rewrite Hz. destruct t as [|x [|d t]]; reflexivity.
Qed.

Lemma strtoul_pretty n : 0 <= n < 2 ^ 64 -> strtoul (pretty n) = (n, "", false).
Proof.
  intros Hn. destruct n as [|p|p]; [done| |lia].
  change (pretty (Z.pos p)) with (pretty (Npos p)). unfold pretty, pretty_N. rewrite decide_False by done.
  destruct (pretty_N_go_first (Npos p) "") as (c & t & He & Hd & Hc); [lia|]. rewrite He. unfold strtoul.
  destruct (digit_plain c Hd) as (Hw & Hs1 & Hs2). cbn [skip_white scan_sign]. rewrite Hw. cbn [scan_sign]. rewrite Hs1, Hs2.
  rewrite (base_of_10 c t Hd Hc), digit_of_10, Hd, scan_base_10, <- He, (scan_digits_pretty (Npos p) "").
  cbn [scan_digits Z.of_N]. rewrite (proj2 (Z.leb_gt _ _)) by lia. rewrite Z.mul_1_l, uN_small by lia. done.
Qed.

(** The ports that [-p] takes are those below 65535, which is one less than fit. *)
Theorem port_arg_pretty n : 0 <= n < 2 ^ 64 -> port_arg (pretty n) = if n <? 65535 then Some n else None.
Proof.
  intros Hn. unfold port_arg. rewrite strtoul_pretty by done. cbn [orb negb String.eqb].
  unfold UINT16_MAX. destruct (Z.ltb_spec n 65535).
  - rewrite (proj2 (Z.leb_gt _ _)) by lia. by rewrite uN_small by lia.
  - by rewrite (proj2 (Z.leb_le _ _)) by lia.
Qed.

(** Anything that is not all a number is refused; an empty argument is port 0. *)
Example port_args : port_arg "80x" = None /\ port_arg "x" = None /\ port_arg "0x50" = Some 80 /\
  port_arg "0120" = Some 80 /\ port_arg "" = Some 0 /\ port_arg "65535" = None /\ port_arg "-1" = None.
Proof. done. Qed.

(** ** The start *)

(** When the loop runs it runs on a socket that is bound to the port of the options, as the child of
    a fork unless there is [-f], and no request has been made. *)
Theorem main_loops {R P} w args (registry : R) lsock port logfile (s : server (R := R) (P := P)) :
  main w args registry = Loop lsock port logfile s ->
  exists o, options_loop (w_fopen w) (getopt false args) (Options 27600 true None) = Some o /\
    port = o_port o /\ logfile = o_logfile o /\ lsock = w_socket w /\ 0 <= lsock /\ w_bind w port = true /\
    (o_daemon o = true -> w_fork w = 0 /\ w_setsid w = true) /\ s = Server 0 registry ∅ [].
Proof.
  unfold main. destruct (options_loop _ _ _) as [o|]; [|done].
  destruct (o_daemon o && (w_fork w <? 0)) eqn:E1; [done|]. destruct (o_daemon o && (0 <? w_fork w)) eqn:E2; [done|].
  destruct (o_daemon o && negb (w_setsid w)) eqn:E3; [done|]. case_if; [done|]. case_if; [done|]. case_if; [done|].
  destruct (negb (w_bind w (o_port o))) eqn:Eb; [done|]. case_if; [done|]. intros [= <- <- <- <-].
  exists o. cbool. split_and!; try done. intros Hd.
  destruct E1 as [?|E1], E2 as [?|E2], E3 as [?|E3]; try congruence. split; [lia|done].
Qed.

(** The port of the last [-p] that the command line has. *)
Theorem main_port {R P} w n (registry : R) :
  0 <= n < 65535 -> 0 <= w_socket w -> w_setsockopt w = true -> w_fcntl w = true -> w_bind w n = true -> w_listen w = true ->
  main (P := P) w ["-fp"; pretty n] registry = Loop (w_socket w) n None (Server 0 registry ∅ []).
Proof.
  intros Hn Hs H1 H2 H3 H4. unfold main. cbn [getopt opt_word Ascii.eqb Bool.eqb andb orb negb String.eqb head app options_loop].
  rewrite port_arg_pretty by lia. rewrite (proj2 (Z.ltb_lt _ _)) by lia. cbn [options_loop o_daemon o_port o_logfile andb].
  rewrite (proj2 (Z.ltb_ge _ _)) by lia. by rewrite H1, H2, H3, H4.
Qed.

Lemma vtslog_line_witness : vtslog stamp0 20 "upgrade? 1" "" 104 = Ok ("[2021-05-01T12:34:56.789Z] upgrade? 1"%string, 104).
Proof. etransitivity; [apply (vtslog_line stamp0 20 "upgrade? 1" "" 104); [intros; by compute|lia|right; lia]|reflexivity]. Defined.

Definition world0 : world := World (fun _ => true) 0 true 3 true true (fun _ => true) true.

Lemma port_arg_pretty_witness : port_arg "27600" = Some 27600.
Proof. apply (port_arg_pretty 27600). lia. Defined.

Lemma main_loops_witness : exists o, options_loop (w_fopen world0) (getopt false ["-p80"; "-l"; "x"]) (Options 27600 true None) = Some o /\ o_port o = 80.
Proof.
  destruct (main_loops (P := unit) world0 ["-p80"; "-l"; "x"]%string tt 3 80 (Some "x"%string) (Server 0 tt ∅ []) eq_refl) as (o & Ho & Hp & _).
  by exists o.
Defined.

Lemma main_port_witness : main (P := unit) world0 ["-fp"; "8080"] tt = Loop 3 8080 None (Server 0 tt ∅ []).
Proof. apply (main_port world0 8080 tt); try lia; done. Defined.
