(* ===== verification/RecDescent.v ===== *)
(** * A recursive-descent parser ([src/B.lex_yacc/src/recursive-descent])

    [recursive_descent.c] parses its argument with one function for each production
    of a grammar of sums and products, and one that tries the productions of a
    nonterminal in turn.  The global [next] is an index into the argument that the
    functions take and give back. *)

From S2P Require Import Prelude.

#[local] Open Scope char_scope.

Definition PLUS (t : ascii) : bool := Ascii.eqb t "+".
Definition TIMES (t : ascii) : bool := Ascii.eqb t "*".
Definition OPEN (t : ascii) : bool := Ascii.eqb t "(".
Definition CLOSE (t : ascii) : bool := Ascii.eqb t ")".
Definition INT (t : ascii) : bool := Ascii.leb "0" t && Ascii.leb t "9".

(** The result of a function and the [next] that it leaves. *)
Definition parse : Type := ub (bool * nat).

(** [a && b] and [a || b] of calls that move [next]; the second alternative starts
    again at [save]. *)
Definition and_then (a : parse) (b : nat -> parse) : parse :=
  '(r, next) ← a; if r : bool then b next else Ok (false, next).
Definition or_else (a b : parse) : parse :=
  '(r, next) ← a; if r : bool then Ok (true, next) else b.

(** A test of [*next++], and of [*next == '\0']. *)
Definition eat (p : ascii -> bool) (s : string) (next : nat) : parse :=
  c ← char_at s next; Ok (p c, S next).
Definition at_end (s : string) (next : nat) : parse :=
  c ← char_at s next; Ok (Ascii.eqb c NUL, next).

Definition E_1 (T : nat -> parse) (next : nat) : parse := T next.
Definition E_2 (T E : nat -> parse) (s : string) (next : nat) : parse :=
  and_then (T next) (fun n => and_then (eat PLUS s n) E).
Definition T_1 (s : string) (next : nat) : parse := eat INT s next.
Definition T_2 (T : nat -> parse) (s : string) (next : nat) : parse :=
  and_then (eat INT s next) (fun n => and_then (eat TIMES s n) T).
Definition T_3 (E : nat -> parse) (s : string) (next : nat) : parse :=
  and_then (eat OPEN s next) (fun n => and_then (E n) (eat CLOSE s)).

(** The fuel counts the nested calls. *)
Fixpoint E (fuel : nat) (s : string) (next : nat) : parse :=
  match fuel with
  | O => UB no_fuel
  | S f =>
      or_else (and_then (E_1 (T f s) next) (at_end s))
              (and_then (E_2 (T f s) (E f s) s next) (at_end s))
  end
with T (fuel : nat) (s : string) (next : nat) : parse :=
  match fuel with
  | O => UB no_fuel
  | S f => or_else (T_1 s next) (or_else (T_2 (T f s) s next) (T_3 (E f s) s next))
  end.

(** The answer of [main] to its argument: true for [success]. *)
Definition parser_main (s : string) : ub bool :=
  '(r, _) ← and_then (E (2 * String.length s + 2) s 0) (at_end s); Ok r.

(** ** The grammar of the comments *)

#[local] Open Scope string_scope.

Inductive derives_E : string -> Prop :=
  | derives_E_1 t : derives_T t -> derives_E t
  | derives_E_2 t e : derives_T t -> derives_E e -> derives_E (t ++ "+" ++ e)
with derives_T : string -> Prop :=
  | derives_T_1 c : INT c = true -> derives_T (String c "")
  | derives_T_2 c t : INT c = true -> derives_T t -> derives_T (String c ("*" ++ t))
  | derives_T_3 e : derives_E e -> derives_T ("(" ++ e ++ ")").

(** Sums of digits, the strings that the parser accepts. *)
Fixpoint sum_of_digits (s : string) : bool :=
  match s with
  | "" => false
  | String d "" => INT d
  | String d (String c s') => INT d && PLUS c && sum_of_digits s'
  end.

(** ** Proofs *)

Section Parse.
Context (s : string) (Hs : no_nul s = true).

(** [s] from position [n] on is [r]. *)
Definition rest (n : nat) (r : string) : Prop :=
  exists p, s = p ++ r /\ String.length p = n.

Lemma rest_0 : rest 0 s.
Proof. by exists "". Qed.

Lemma rest_S n c r : rest n (String c r) -> rest (S n) r.
Proof.
  intros (p & -> & <-). exists (p ++ String c ""). split.
  - by rewrite string_app_assoc.
  - rewrite string_length_app. simpl. lia.
Qed.

Lemma rest_length n r : rest n r -> String.length s = (n + String.length r)%nat.
Proof. intros (p & -> & <-). apply string_length_app. Qed.

Lemma char_rest n r : rest n r ->
  char_at s n = Ok (match r with "" => NUL | String c _ => c end).
Proof. clear Hs. intros (p & -> & <-). apply char_at_app. Qed.

Lemma rest_not_nul n c r : rest n (String c r) -> Ascii.eqb c NUL = false.
Proof.
  intros (p & Hp & _). rewrite Hp, no_nul_app in Hs. simpl in Hs.
  by destruct (Ascii.eqb c NUL); rewrite ?andb_false_r in Hs.
Qed.

(** What [T] and [E] do at a position that [r] starts at. *)
Definition T_ok (n : nat) (r : string) (p : parse) : Prop :=
  match r with
  | String c _ => if INT c then p = Ok (true, S n) else exists j, p = Ok (false, j)
  | "" => exists j, p = Ok (false, j)
  end.
Definition E_ok (r : string) (p : parse) : Prop :=
  exists j, p = Ok (sum_of_digits r, j) /\ (sum_of_digits r = true -> j = String.length s).

Lemma T_not_int n r f : rest n r -> (match r with String c _ => INT c | "" => false end) = false ->
  (forall r', rest (S n) r' -> (String.length r' < String.length r)%nat -> E_ok r' (E f s (S n))) ->
  exists j, or_else (T_1 s n) (or_else (T_2 (T f s) s n) (T_3 (E f s) s n)) = Ok (false, j).
Proof.
  intros Hr Hi HE. unfold T_1, T_2, T_3, eat. rewrite !(char_rest _ _ Hr). cbn [mbind ub_bind].
  destruct r as [|c r']; simpl; [by eexists|]. rewrite Hi. simpl.
  destruct (OPEN c) eqn:Ho; simpl; [|by eexists].
  destruct (HE r') as (j & -> & Hj); [by eapply rest_S|simpl; lia|]. simpl.
  destruct (sum_of_digits r'); [|by eexists]. rewrite (Hj eq_refl).
  assert (He : rest (String.length s) "") by (exists s; by rewrite string_app_nil_r).
  rewrite (char_rest _ _ He). by eexists.
Qed.

Lemma T_spec n r f : rest n r ->
  (forall r', rest (S n) r' -> (String.length r' < String.length r)%nat -> E_ok r' (E f s (S n))) ->
  T_ok n r (T (S f) s n).
Proof.
  intros Hr HE. cbn [T]. destruct r as [|c r']; [by apply (T_not_int _ "")|]. simpl.
  destruct (INT c) eqn:Hc; [|by eapply T_not_int].
  unfold T_1, eat. rewrite (char_rest _ _ Hr). simpl. by rewrite Hc.
Qed.

Lemma E_fails n r (T' E' : nat -> parse) : (exists j, T' n = Ok (false, j)) -> sum_of_digits r = false ->
  E_ok r (or_else (and_then (E_1 T' n) (at_end s)) (and_then (E_2 T' E' s n) (at_end s))).
Proof. intros [j Hj] Hd. unfold E_1, E_2. rewrite !Hj. simpl. exists j. by rewrite Hd. Qed.

Lemma E_spec n r f : rest n r -> T_ok n r (T f s n) ->
  (forall r', rest (S (S n)) r' -> (String.length r' < String.length r)%nat -> E_ok r' (E f s (S (S n)))) ->
  E_ok r (E (S f) s n).
Proof.
  intros Hr HT HE. cbn [E]. destruct r as [|c r']; [by apply E_fails|]. simpl in HT.
  destruct (INT c) eqn:Hc; [|by apply E_fails; [done|destruct r'; simpl; by rewrite Hc]].
  pose proof (rest_S _ _ _ Hr) as Hr'. unfold E_1, E_2, at_end, eat. rewrite !HT. simpl.
  rewrite (char_rest _ _ Hr'). destruct r' as [|c' r'']; simpl.
  - exists (S n). simpl. rewrite Hc. split; [done|]. intros _. rewrite (rest_length _ _ Hr). simpl. lia.
  - rewrite (rest_not_nul _ _ _ Hr'). unfold E_ok. simpl. rewrite Hc.
    destruct (PLUS c') eqn:Hp; simpl; [|by eexists].
    destruct (HE r'') as (j & -> & Hj); [by eapply rest_S|simpl; lia|]. simpl.
    destruct (sum_of_digits r''); [|by eexists]. rewrite (Hj eq_refl).
    assert (He : rest (String.length s) "") by (exists s; by rewrite string_app_nil_r).
    rewrite (char_rest _ _ He). by eexists.
Qed.

Lemma parse_spec f n r : rest n r ->
  ((2 * String.length r + 1 <= f)%nat -> T_ok n r (T f s n)) /\
  ((2 * String.length r + 2 <= f)%nat -> E_ok r (E f s n)).
Proof.
  revert n r. induction f as [|f IH]; intros n r Hr; [split; lia|]. split; intros Hf.
  - apply T_spec; [done|]. intros r' Hr' Hl. apply (IH _ _ Hr'). lia.
  - apply E_spec; [done| |].
    + apply (IH _ _ Hr). lia.
    + intros r' Hr' Hl. apply (IH _ _ Hr'). lia.
Qed.
End Parse.

Lemma parser_main_spec s : no_nul s = true -> parser_main s = Ok (sum_of_digits s).
Proof.
  intros Hs. unfold parser_main.
  destruct (parse_spec s Hs (2 * String.length s + 2) 0 s (rest_0 s)) as [_ HE].
  destruct HE as (j & -> & Hj); [lia|]. simpl.
  destruct (sum_of_digits s); [|done]. rewrite (Hj eq_refl).
  unfold at_end. rewrite (char_rest s (String.length s) "" (ex_intro _ s (conj (eq_sym (string_app_nil_r s)) eq_refl))).
  done.
Qed.

(** A text without products and parentheses. *)
Fixpoint plain (s : string) : bool :=
  match s with
  | "" => true
  | String c s' => negb (TIMES c) && negb (OPEN c) && plain s'
  end.

Lemma plain_app s1 s2 : plain (s1 ++ s2) = plain s1 && plain s2.
Proof. induction s1 as [|c s1 IH]; [done|]. simpl. by rewrite IH, !andb_assoc. Qed.

Lemma int_plain c : INT c = true -> negb (TIMES c) && negb (OPEN c) = true.
Proof. destruct c as [[] [] [] [] [] [] [] []]; vm_compute; congruence. Qed.

Lemma sum_derives : forall s, sum_of_digits s = true -> derives_E s /\ plain s = true.
Proof.
  fix IH 1. intros [|d [|c s]] H; simpl in H; [done| |].
  - split; [by apply derives_E_1, derives_T_1|]. simpl. by rewrite int_plain.
  - cbool. destruct H as [[Hd Hc] H]. destruct (IH s H) as [He Hp].
    unfold PLUS in Hc. apply Ascii.eqb_eq in Hc as ->.
    split; [apply (derives_E_2 (String d "")); [by apply derives_T_1|done]|].
    simpl. by rewrite int_plain, Hp.
Qed.

(** A sentence without products and parentheses is a sum of digits. *)
Lemma T_plain t : derives_T t -> plain t = true -> exists c, t = String c "" /\ INT c = true.
Proof.
  intros [c Hc|c t' _ _|e _]; simpl; [by eexists|by rewrite !andb_false_r|done].
Qed.

Lemma E_plain e : derives_E e -> plain e = true -> sum_of_digits e = true.
Proof.
  induction 1 as [t Ht|t e Ht He IH]; intros Hp.
  - by destruct (T_plain t Ht Hp) as (c & -> & Hc).
  - rewrite !plain_app in Hp. cbool. destruct (T_plain t Ht) as (c & -> & Hc); [apply Hp|].
    change (INT c && true && sum_of_digits e = true). rewrite Hc. apply IH, Hp.
Qed.

(** C38: On every argument the parser returns and reads nothing behind its end (the fuel,
    twice the length, is enough).  It accepts the sums of single digits and nothing else;
    these are just the sentences of the grammar in its comments that have no product and no
    parenthesis: every sentence with one of them is refused, contrary to that grammar, and
    so is what the grammar does not derive. *)
Theorem parser_accepts s : no_nul s = true ->
  parser_main s = Ok (sum_of_digits s) /\
  (parser_main s = Ok true <-> derives_E s /\ plain s = true) /\
  (derives_E s -> plain s = false -> parser_main s = Ok false).
Proof.
  intros Hs. rewrite parser_main_spec by done. split; [done|]. split.
  - split; [intros [= H]; by apply sum_derives|]. intros [He Hp]. by rewrite E_plain.
  - intros He Hp. destruct (sum_of_digits s) eqn:H; [|done].
    apply sum_derives in H as [_ H]. congruence.
Qed.

(** What the parser accepts is a sentence of the grammar of its comments, which
    has sentences that it does not accept: every product, and every sentence that
    ends in a parenthesis. *)
Theorem parser_sound_incomplete :
  (forall s, parser_main s = Ok true -> no_nul s = true -> derives_E s) /\
  derives_E "2*3" /\ parser_main "2*3" = Ok false /\
  (forall e, derives_E e -> no_nul e = true ->
     derives_E ("(" ++ e ++ ")") /\ parser_main ("(" ++ e ++ ")") = Ok false).
Proof.
  split; [|split; [|split]].
  - intros s Hp Hs. rewrite parser_main_spec in Hp by done. injection Hp as Hp.
    by apply sum_derives.
  - apply derives_E_1, (derives_T_2 "2" "3"); [done|by apply derives_T_1].
  - done.
  - intros e He Hn. split; [by apply derives_E_1, derives_T_3|].
    rewrite parser_main_spec; [by destruct e|]. by rewrite !no_nul_app, Hn.
Qed.

(** A sum, and a product, which the grammar derives. *)
Lemma parser_accepts_witness :
  parser_main "1+2+3" = Ok true /\ derives_E "2*3" /\ parser_main "2*3" = Ok false.
Proof.
  assert (H : derives_E "2*3") by (apply derives_E_1, (derives_T_2 "2" "3"); [done|by apply derives_T_1]).
  split; [|split].
  - exact (proj1 (parser_accepts "1+2+3" eq_refl)).
  - exact H.
  - exact (proj2 (proj2 (parser_accepts "2*3" eq_refl)) H eq_refl).
Defined.
