(* ===== verification/Sudoku.v ===== *)
(** * The sudoku checker ([src/9.sudoku])

    [sudoku.c] checks the rows and columns of a board; [main.c] starts a thread for
    each row and each column and puts their answers together.  The model of [main]
    has a step for what the main thread does next and one for each thread, which may
    be taken in any order. *)

From stdpp Require Import list_numbers.
From S2P Require Import Prelude.

Definition GRID_SIZE : nat := 9.

(** A board is shared by everything that checks it; [None] is a field that was not
    written. *)
Definition sudoku : Type := list (list Z).

Record grid := Grid { row : Z; column : Z; board : sudoku; res : option bool }.

Definition grid_set_col (data : grid) (col : Z) : grid := Grid (row data) col (board data) (res data).
Definition grid_set_row (data : grid) (r : Z) : grid := Grid r (column data) (board data) (res data).

Definition make_grid (b : sudoku) : grid := Grid (Z.of_nat GRID_SIZE) (Z.of_nat GRID_SIZE) b None.

(** [a[i]] for an array. *)
Definition at_ {A} (i : Z) (a : list A) : ub A :=
  if i <? 0 then UB out_of_bounds
  else match a !! Z.to_nat i with Some x => Ok x | None => UB out_of_bounds end.

Definition check_elem (val : Z) : bool := (1 <=? val) && (val <=? 9).

(** The loop of [_check] from [i], for [n] turns. *)
Fixpoint check_loop (b : sudoku) (row_on : bool) (row_col : Z) (n : nat) (i : Z) (total : list Z) : ub bool :=
  match n with
  | O => Ok true
  | S n' =>
      val ← (if row_on then l ← at_ row_col b; at_ i l else l ← at_ i b; at_ row_col l);
      if check_elem val then
        t ← at_ (val - 1) total;
        if t =? 0 then
          total' ← array_set (val - 1) val total;
          check_loop b row_on row_col n' (i + 1) total'
        else Ok false
      else Ok false
  end.

Definition check_ (data : grid) (row_on : bool) (row_col : Z) : ub bool :=
  check_loop (board data) row_on row_col GRID_SIZE 0 (replicate GRID_SIZE 0).

Definition check_row (data : grid) : ub bool :=
  if row data =? -1 then Ok true else check_ data true (row data).
Definition check_column (data : grid) : ub bool :=
  if column data =? -1 then Ok true else check_ data false (column data).

(** [check_column (data) && check_row (data)]. *)
Definition check_both (data : grid) : ub bool :=
  c ← check_column data; if c : bool then check_row data else Ok false.

(** The loop of [check_grid] from [i], for at most [n] turns: [b] and [i] at its end. *)
Fixpoint grid_loop (n : nat) (data : grid) (b : bool) (i : Z) : ub (bool * Z) :=
  match n with
  | O => Ok (b, i)
  | S n' =>
      if b then
        b' ← check_both (grid_set_col (grid_set_row data i) i);
        grid_loop n' data b' (i + 1)
      else Ok (b, i)
  end.

Definition check_grid (data : grid) : ub bool :=
  '(b, i) ← grid_loop GRID_SIZE data true 0; Ok (b && (i =? Z.of_nat GRID_SIZE)).

(** ** [solve.c] *)

Definition board_set (i j : Z) (v : Z) (b : sudoku) : ub sudoku :=
  l ← at_ i b; l' ← array_set j v l; array_set i l' b.

Definition solution : sudoku :=
  [[8; 6; 1; 7; 9; 4; 3; 5; 2];
   [3; 5; 2; 1; 6; 8; 7; 4; 9];
   [4; 9; 7; 2; 5; 3; 1; 8; 6];
   [2; 1; 8; 9; 7; 5; 6; 3; 4];
   [6; 7; 5; 3; 4; 1; 9; 2; 8];
   [9; 3; 4; 6; 8; 2; 5; 1; 7];
   [5; 2; 6; 8; 1; 9; 4; 7; 3];
   [7; 4; 3; 5; 2; 6; 8; 9; 1];
   [1; 8; 9; 4; 3; 7; 2; 6; 5]].

(** The assignments of [solve], in their order. *)
Fixpoint solve_line (i j : Z) (vs : list Z) (b : sudoku) : ub sudoku :=
  match vs with
  | [] => Ok b
  | v :: vs' => b' ← board_set i j v b; solve_line i (j + 1) vs' b'
  end.
Fixpoint solve_lines (i : Z) (ls : list (list Z)) (b : sudoku) : ub sudoku :=
  match ls with
  | [] => Ok b
  | l :: ls' => b' ← solve_line i 0 l b; solve_lines (i + 1) ls' b'
  end.
Definition solve (b : sudoku) : ub sudoku := solve_lines 0 solution b.

(** ** [main.c] *)

(** The thread of [data]; its answer is there once it has ended. *)
Definition routine (data : grid) : ub grid :=
  r ← check_both data; Ok (Grid (row data) (column data) (board data) (Some r)).

Definition THREADS : nat := 2 * GRID_SIZE.

(** Thread [k] of [main]: an even one checks a row, an odd one a column. *)
Definition thread_data (b : sudoku) (k : nat) : grid :=
  let i := Z.of_nat (Nat.div2 k) in
  if Nat.even k then grid_set_col (grid_set_row (make_grid b) i) (-1)
  else grid_set_col (grid_set_row (make_grid b) (-1)) i.

(** The threads that were created, how many were joined, and [fine]. *)
Record process := Process { data : list grid; joined : nat; fine : bool }.

Inductive step (b : sudoku) : process -> process -> Prop :=
  | step_create p : (length (data p) < THREADS)%nat ->
      step b p (Process (data p ++ [thread_data b (length (data p))]) (joined p) (fine p))
  | step_thread p k g g' : data p !! k = Some g -> res g = None -> routine g = Ok g' ->
      step b p (Process (<[k := g']> (data p)) (joined p) (fine p))
  | step_join p g r : length (data p) = THREADS -> data p !! joined p = Some g ->
      res g = Some r ->
      step b p (Process (data p) (S (joined p)) (if r then fine p else false)).

Definition start : process := Process [] 0 true.

(** [main] has joined all threads and prints [fine]. *)
Definition ended (p : process) : Prop := joined p = THREADS.

(** ** What the checks mean *)

(** Nine lines of nine numbers. *)
Definition is_board (b : sudoku) : Prop := length b = GRID_SIZE /\ Forall (fun l => length l = GRID_SIZE) b.

Definition column_of (b : sudoku) (j : nat) : list Z := (fun l => l !!! j) <$> b.

(** Each of 1 to 9 is in the line once. *)
Definition line_ok (l : list Z) : Prop := l ≡ₚ seqZ 1 9.

Definition latin (b : sudoku) : Prop :=
  Forall line_ok b /\ forall j, (j < GRID_SIZE)%nat -> line_ok (column_of b j).

(** What thread [k] checks. *)
Definition thread_line (b : sudoku) (k : nat) : list Z :=
  if Nat.even k then b !!! Nat.div2 k else column_of b (Nat.div2 k).
Definition digits (l : list Z) : bool := bool_decide (NoDup l) && forallb check_elem l.

(** ** Proofs *)

Lemma at_lookup {A} i (a : list A) x : 0 <= i -> a !! Z.to_nat i = Some x -> at_ i a = Ok x.
Proof. intros Hi Ha. unfold at_. rewrite (proj2 (Z.ltb_ge _ _)) by lia. by rewrite Ha. Qed.

Lemma check_elem_spec v : check_elem v = true <-> 1 <= v <= 9.
Proof. unfold check_elem. cbool. lia. Qed.

(** The array [total] after the values [seen]. *)
Definition total_ok (seen total : list Z) : Prop :=
  length total = GRID_SIZE /\
  forall v, 1 <= v <= 9 -> total !! Z.to_nat (v - 1) = Some (if decide (v ∈ seen) then v else 0).

Lemma total_ok_set seen total v : total_ok seen total -> 1 <= v <= 9 ->
  array_set (v - 1) v total = Ok (<[Z.to_nat (v - 1) := v]> total) /\
  total_ok (v :: seen) (<[Z.to_nat (v - 1) := v]> total).
Proof.
  intros [Hl Ht] Hv. assert (0 <= v - 1 < Z.of_nat (length total)) by (rewrite Hl; unfold GRID_SIZE; lia).
  split; [by apply array_set_in|]. split; [by rewrite length_insert|].
  intros w Hw. destruct (decide (w = v)) as [->|Hn].
  - rewrite list_lookup_insert_eq by lia. by rewrite decide_True by (by left).
  - rewrite list_lookup_insert_ne by lia. rewrite Ht by done. f_equal.
    destruct (decide (w ∈ seen)), (decide (w ∈ v :: seen)); try done; set_solver.
Qed.

(** The value that turn [i] reads. *)
Definition read_at (b : sudoku) (row_on : bool) (row_col i : Z) : ub Z :=
  if row_on then l ← at_ row_col b; at_ i l else l ← at_ i b; at_ row_col l.

Lemma check_loop_spec b row_on rc vs i seen total : total_ok seen total ->
  (forall k v, vs !! k = Some v -> read_at b row_on rc (i + Z.of_nat k) = Ok v) ->
  check_loop b row_on rc (length vs) i total =
  Ok (digits vs && forallb (fun v => negb (bool_decide (v ∈ seen))) vs).
Proof.
  revert i seen total. induction vs as [|v vs IH]; intros i seen total Ht Hr; [done|].
  cbn [length check_loop]. fold (read_at b row_on rc i).
  pose proof (Hr 0%nat v eq_refl) as H0. rewrite Z.add_0_r in H0. rewrite H0. cbn [mbind ub_bind].
  unfold digits. cbn [forallb]. destruct (check_elem v) eqn:Hv; [|by rewrite !andb_false_r].
  apply check_elem_spec in Hv as Hv'.
  rewrite (at_lookup (v - 1) _ _ ltac:(lia) (proj2 Ht v Hv')). cbn [mbind ub_bind].
  destruct (decide (v ∈ seen)) as [Hs|Hs].
  { rewrite (proj2 (Z.eqb_neq v 0)) by lia. rewrite (bool_decide_true _ Hs). simpl. by rewrite andb_false_r. }
  destruct (total_ok_set seen total v Ht Hv') as [-> Ht']. cbn [Z.eqb mbind ub_bind].
  rewrite (IH _ _ _ Ht') by (intros k w Hk; rewrite <- (Hr (S k) w Hk); f_equal; lia).
  rewrite (bool_decide_false _ Hs). f_equal. unfold digits. simpl. apply eq_iff_eq_true.
  rewrite !andb_true_iff, !forallb_forall, !bool_decide_eq_true, NoDup_cons.
  setoid_rewrite negb_true_iff. setoid_rewrite bool_decide_eq_false.
  setoid_rewrite <- list_elem_of_In. setoid_rewrite not_elem_of_cons. naive_solver.
Qed.

Lemma total_ok_start : total_ok [] (replicate GRID_SIZE 0).
Proof.
  split; [done|]. intros v Hv. rewrite decide_False by (by apply not_elem_of_nil).
  apply lookup_replicate. unfold GRID_SIZE. lia.
Qed.

Lemma check_line b row_on rc vs : length vs = GRID_SIZE ->
  (forall k v, vs !! k = Some v -> read_at b row_on rc (Z.of_nat k) = Ok v) ->
  check_loop b row_on rc GRID_SIZE 0 (replicate GRID_SIZE 0) = Ok (digits vs).
Proof.
  intros Hl Hr. rewrite <- Hl at 1. rewrite (check_loop_spec b row_on rc vs 0 [] _ total_ok_start Hr).
  f_equal. rewrite <- (andb_true_r (digits vs)) at 2. f_equal. apply forallb_forall. intros v _.
  rewrite bool_decide_false; [done|]. apply not_elem_of_nil.
Qed.

Lemma digits_line l : length l = GRID_SIZE -> digits l = true <-> line_ok l.
Proof.
  intros Hl. unfold digits, line_ok. rewrite andb_true_iff, bool_decide_eq_true, forallb_forall.
  setoid_rewrite <- list_elem_of_In. setoid_rewrite check_elem_spec. split.
  - intros [Hn Hr]. apply submseteq_length_Permutation; [|by rewrite Hl].
    apply NoDup_submseteq; [done|]. intros v Hv. apply elem_of_seqZ. specialize (Hr v Hv). lia.
  - intros Hp. split; [rewrite Hp; apply NoDup_seqZ|]. intros v Hv.
    rewrite Hp in Hv. apply elem_of_seqZ in Hv. lia.
Qed.

Lemma div2_thread k : (k < THREADS)%nat -> (Nat.div2 k < GRID_SIZE)%nat.
Proof. unfold THREADS. intros. pose proof (Nat.div2_odd k). unfold Nat.b2n in *; destruct (Nat.odd k); lia. Qed.

Section Board.
Context (b : sudoku) (Hb : is_board b).

Lemma board_line i l : b !! i = Some l -> length l = GRID_SIZE.
Proof. intros Hl. destruct Hb as [_ Hf]. rewrite Forall_lookup in Hf. by eapply Hf. Qed.

Lemma board_lookup i : (i < GRID_SIZE)%nat -> b !! i = Some (b !!! i).
Proof. intros Hi. destruct Hb as [Hl _]. apply list_lookup_lookup_total_lt. lia. Qed.

Lemma thread_line_length k : (k < THREADS)%nat -> length (thread_line b k) = GRID_SIZE.
Proof.
  intros Hk. unfold thread_line. case_if.
  - eapply board_line, board_lookup. by apply div2_thread.
  - unfold column_of. rewrite length_fmap. apply Hb.
Qed.

Lemma check_row_of r : (r < GRID_SIZE)%nat ->
  check_loop b true (Z.of_nat r) GRID_SIZE 0 (replicate GRID_SIZE 0) = Ok (digits (b !!! r)).
Proof.
  intros Hr. pose proof (board_lookup r Hr) as Hl. apply check_line; [by eapply board_line|].
  intros k v Hv. unfold read_at. rewrite (at_lookup (Z.of_nat r) b (b !!! r)) by (rewrite ?Nat2Z.id; (lia || done)).
  cbn [mbind ub_bind]. apply at_lookup; [lia|]. by rewrite Nat2Z.id.
Qed.

Lemma check_column_of j : (j < GRID_SIZE)%nat ->
  check_loop b false (Z.of_nat j) GRID_SIZE 0 (replicate GRID_SIZE 0) = Ok (digits (column_of b j)).
Proof.
  intros Hj. apply check_line; [unfold column_of; rewrite length_fmap; apply Hb|].
  intros k v Hv. unfold column_of in Hv. rewrite list_lookup_fmap in Hv.
  apply fmap_Some in Hv as (l & Hl & ->). unfold read_at.
  rewrite (at_lookup (Z.of_nat k) b l) by (rewrite ?Nat2Z.id; (lia || done)). cbn [mbind ub_bind].
  apply at_lookup; [lia|]. rewrite Nat2Z.id. apply list_lookup_lookup_total_lt.
  by rewrite (board_line _ _ Hl).
Qed.

Lemma check_both_of r c rs : (r < GRID_SIZE)%nat -> (c < GRID_SIZE)%nat ->
  check_both (Grid (Z.of_nat r) (Z.of_nat c) b rs) = Ok (digits (column_of b c) && digits (b !!! r)).
Proof.
  intros Hr Hc. unfold check_both, check_column, check_row, check_. cbn [row column board].
  rewrite !(proj2 (Z.eqb_neq _ _)) by lia. rewrite check_row_of, check_column_of by done.
  cbn [mbind ub_bind]. by destruct (digits (column_of b c)).
Qed.

Lemma thread_check k rs : (k < THREADS)%nat ->
  check_both (Grid (row (thread_data b k)) (column (thread_data b k)) b rs) = Ok (digits (thread_line b k)).
Proof.
  intros Hk. assert (Nat.div2 k < GRID_SIZE)%nat by (by apply div2_thread).
  unfold thread_data, thread_line, check_both, check_column, check_row, check_.
  generalize dependent (Nat.div2 k). intros h Hh. destruct (Nat.even k); cbn [row column board grid_set_col grid_set_row make_grid];
    change (-1 =? -1) with true; cbn [mbind ub_bind];
    rewrite (proj2 (Z.eqb_neq (Z.of_nat h) (-1))) by lia.
  - by rewrite check_row_of.
  - rewrite check_column_of by done. cbn [mbind ub_bind]. by destruct (digits _).
Qed.

(** Whether row [i] and column [i] are right. *)
Definition both_ok (i : nat) : bool := digits (column_of b i) && digits (b !!! i).

Lemma grid_loop_spec n data b0 i : board data = b -> (i + n = GRID_SIZE)%nat ->
  exists b' j, grid_loop n data b0 (Z.of_nat i) = Ok (b', j) /\
    b' = b0 && forallb both_ok (seq i n) /\ (b' = true -> j = Z.of_nat GRID_SIZE).
Proof.
  intros Hd. revert b0 i. induction n as [|n IH]; intros b0 i Hi; simpl.
  { exists b0, (Z.of_nat i). rewrite andb_true_r. split; [done|]. split; [done|]. intros _. f_equal. lia. }
  destruct b0; [|by exists false, (Z.of_nat i)].
  unfold grid_set_col, grid_set_row. cbn [row column board res]. rewrite Hd.
  rewrite check_both_of by lia. cbn [mbind ub_bind]. fold (both_ok i).
  replace (Z.of_nat i + 1) with (Z.of_nat (S i)) by lia. apply IH. lia.
Qed.

Lemma lines_ok : forallb both_ok (seq 0 GRID_SIZE) = true <-> latin b.
Proof.
  rewrite forallb_forall. unfold latin, both_ok.
  assert (Hc : forall j, length (column_of b j) = GRID_SIZE)
    by (intros; unfold column_of; rewrite length_fmap; apply Hb).
  split.
  - intros H. split.
    + apply Forall_lookup. intros i l Hl. apply digits_line; [by eapply board_line|].
      pose proof (lookup_lt_Some _ _ _ Hl) as Hi. rewrite (proj1 Hb) in Hi.
      specialize (H i). rewrite in_seq, andb_true_iff, (list_lookup_total_correct _ _ _ Hl) in H. apply H. lia.
    + intros j Hj. apply digits_line; [done|]. specialize (H j). rewrite in_seq, andb_true_iff in H. apply H. lia.
  - intros [Hr Hj] i Hi. apply in_seq in Hi. rewrite andb_true_iff, !digits_line; [..|done].
    + split; [apply Hj; lia|]. rewrite Forall_lookup in Hr. eapply Hr, board_lookup. lia.
    + eapply board_line, board_lookup. lia.
Qed.

Lemma check_grid_spec data : board data = b ->
  check_grid data = Ok (forallb both_ok (seq 0 GRID_SIZE)).
Proof.
  intros Hd. unfold check_grid. change 0 with (Z.of_nat 0).
  destruct (grid_loop_spec GRID_SIZE data true 0 Hd eq_refl) as (b' & j & -> & Hb' & Hj).
  cbn [mbind ub_bind andb] in *. rewrite <- Hb'. destruct b'; [|done]. by rewrite Hj.
Qed.
End Board.

(** On a board of nine lines of nine numbers the check accepts exactly the boards
    in which each row and each column has the numbers 1 to 9, and reads nothing else. *)
Theorem check_grid_latin b : is_board b ->
  exists r, check_grid (make_grid b) = Ok r /\ (r = true <-> latin b).
Proof.
  intros Hb. eexists. split; [by apply check_grid_spec|]. by apply lines_ok.
Qed.

(** The squares of three by three are not checked: a board that repeats numbers in
    its first square is accepted, by the check of the board and by the threads. *)
Theorem boxes_not_checked :
  let b := (fun i => (fun j => Z.of_nat ((i + j) mod 9 + 1)) <$> seq 0 9) <$> seq 0 9 in
  check_grid (make_grid b) = Ok true /\
  (forall k, (k < THREADS)%nat -> exists g, routine (thread_data b k) = Ok g /\ res g = Some true) /\
  b !!! 0%nat !!! 1%nat = b !!! 1%nat !!! 0%nat.
Proof.
  split; [by vm_compute|]. split; [|by vm_compute].
  intros k Hk. unfold THREADS, GRID_SIZE in Hk.
  do 18 (destruct k as [|k]; [eexists; by vm_compute|]). lia.
Qed.

(** ** The threads *)

(** Threads that have ended. *)
Definition finished (ds : list grid) : nat := length (filter (fun g => is_Some (res g)) ds).

Definition answer (b : sudoku) (k : nat) : bool := digits (thread_line b k).

Record process_ok (b : sudoku) (p : process) : Prop := {
  po_length : (length (data p) <= THREADS)%nat;
  po_joined : (joined p <= length (data p))%nat;
  po_data : forall k g, data p !! k = Some g -> exists r,
    g = Grid (row (thread_data b k)) (column (thread_data b k)) b r /\
    (r = None \/ r = Some (answer b k)) /\ ((k < joined p)%nat -> r = Some (answer b k));
  po_fine : fine p = forallb (answer b) (seq 0 (joined p));
  po_main : (0 < joined p)%nat -> length (data p) = THREADS;
}.

Definition progress (p : process) : nat := length (data p) + finished (data p) + joined p.

Lemma thread_data_eq b k :
  thread_data b k = Grid (row (thread_data b k)) (column (thread_data b k)) b None.
Proof. unfold thread_data. by destruct (Nat.even k). Qed.

Lemma finished_run ds k g g' : ds !! k = Some g -> res g = None -> is_Some (res g') ->
  finished (<[k := g']> ds) = S (finished ds).
Proof.
  intros Hk Hn Hs. unfold finished. rewrite (insert_take_drop ds k g') by (by eapply lookup_lt_Some).
  rewrite <- (take_drop_middle ds k g Hk) at 3. rewrite !filter_app, !filter_cons.
  rewrite decide_True by done. rewrite (decide_False (P := is_Some (res g))).
  - rewrite !length_app. simpl. lia.
  - rewrite Hn. by intros [? [=]].
Qed.

Lemma finished_snoc ds g : res g = None -> finished (ds ++ [g]) = finished ds.
Proof.
  intros Hn. unfold finished. rewrite filter_app, filter_cons_False by (rewrite Hn; by intros [? [=]]).
  by rewrite filter_nil, app_nil_r.
Qed.

Lemma answer_joined b n : forallb (answer b) (seq 0 (S n)) = forallb (answer b) (seq 0 n) && answer b n.
Proof. rewrite seq_S, forallb_app. simpl. by rewrite andb_true_r. Qed.

Lemma routine_ok b k r : is_board b -> (k < THREADS)%nat ->
  routine (Grid (row (thread_data b k)) (column (thread_data b k)) b r) =
  Ok (Grid (row (thread_data b k)) (column (thread_data b k)) b (Some (answer b k))).
Proof. intros Hb Hk. unfold routine. by rewrite thread_check. Qed.

Lemma create_ok b p : process_ok b p -> (length (data p) < THREADS)%nat ->
  process_ok b (Process (data p ++ [thread_data b (length (data p))]) (joined p) (fine p)).
Proof.
  intros [Hl Hj Hd Hf Hm] Hlt.
  assert (joined p = 0)%nat as H0 by (destruct (joined p); [done|]; lia).
  split; cbn [data joined fine]; rewrite ?length_app; simpl; try lia; [|done].
  intros k g Hg. apply lookup_snoc_Some in Hg as [[_ Hg]|[-> <-]]; [by apply Hd|].
  exists None. rewrite H0. split; [apply thread_data_eq|]. split; [by left|lia].
Qed.

Lemma sudoku_thread_ok b p k g g' : is_board b -> process_ok b p ->
  data p !! k = Some g -> res g = None -> routine g = Ok g' ->
  process_ok b (Process (<[k := g']> (data p)) (joined p) (fine p)) /\ is_Some (res g').
Proof.
  intros Hb [Hl Hj Hd Hf Hm] Hk Hn Hr. pose proof (lookup_lt_Some _ _ _ Hk) as Hlt.
  destruct (Hd k g Hk) as (r & -> & _ & _). rewrite routine_ok in Hr by (done || lia). injection Hr as <-.
  split; [|by eexists]. split; cbn [data joined fine]; rewrite ?length_insert; try done.
  intros i h Hi. destruct (decide (i = k)) as [->|Hne].
  - rewrite list_lookup_insert_eq in Hi by done. injection Hi as <-. exists (Some (answer b k)).
    split; [done|]. split; [by right|done].
  - rewrite list_lookup_insert_ne in Hi by done. by apply Hd.
Qed.

Lemma join_ok b p g r : process_ok b p -> length (data p) = THREADS ->
  data p !! joined p = Some g -> res g = Some r ->
  process_ok b (Process (data p) (S (joined p)) (if r then fine p else false)).
Proof.
  intros [Hl Hj Hd Hf Hm] Hlen Hg Hr. pose proof (lookup_lt_Some _ _ _ Hg) as Hlt.
  destruct (Hd _ _ Hg) as (r' & -> & Hor & _). cbn [res] in Hr. subst r'.
  assert (r = answer b (joined p)) as -> by (destruct Hor; congruence).
  split; cbn [data joined fine]; try done; try lia.
  - intros k h Hk. destruct (Hd _ _ Hk) as (r' & -> & Hor' & Hfin). exists r'. split; [done|].
    split; [done|]. intros Hkj. destruct (decide (k = joined p)) as [->|]; [|apply Hfin; lia].
    rewrite Hg in Hk. congruence.
  - rewrite answer_joined, Hf. destruct (answer b (joined p)); [by rewrite andb_true_r|by rewrite andb_false_r].
Qed.

Lemma step_ok b p p' : is_board b -> process_ok b p -> step b p p' ->
  process_ok b p' /\ progress p' = S (progress p).
Proof.
  intros Hb Hp Hs. unfold progress. destruct Hs as [p Hlt|p k g g' Hk Hn Hr|p g r Hlen Hg Hr]; cbn [data joined].
  - split; [by apply create_ok|]. rewrite length_app, finished_snoc; [simpl; lia|].
    by rewrite thread_data_eq.
  - destruct (sudoku_thread_ok b p k g g' Hb Hp Hk Hn Hr) as [Hok Hsome]. split; [done|].
    rewrite length_insert, (finished_run _ _ _ _ Hk Hn Hsome). lia.
  - split; [by eapply join_ok|lia].
Qed.

Lemma start_ok b : process_ok b start.
Proof. split; try done; simpl; lia. Qed.

Lemma steps_ok b n p p' : is_board b -> process_ok b p -> nsteps (step b) n p p' ->
  process_ok b p' /\ progress p' = (n + progress p)%nat.
Proof.
  intros Hb Hp Hn. induction Hn as [p|n p q p' Hs _ IH]; [done|].
  destruct (step_ok b p q Hb Hp Hs) as [Hq Hm]. destruct (IH Hq) as [H1 H2]. split; [done|lia].
Qed.

Lemma answers_latin b : is_board b -> forallb (answer b) (seq 0 THREADS) = true <-> latin b.
Proof.
  intros Hb. rewrite <- (lines_ok b Hb), !forallb_forall. unfold answer, both_ok, thread_line. split.
  - intros H i Hi. apply in_seq in Hi. rewrite andb_true_iff.
    pose proof (H (2 * i)%nat) as H0. pose proof (H (S (2 * i))) as H1. rewrite in_seq in H0, H1.
    rewrite Nat.even_even in H0. rewrite Nat.even_succ, Nat.odd_even in H1.
    rewrite Nat.div2_double in H0. rewrite Nat.div2_succ_double in H1.
    unfold THREADS in *. split; [apply H1|apply H0]; lia.
  - intros H k Hk. apply in_seq in Hk as [_ Hk]. pose proof (div2_thread k Hk).
    specialize (H (Nat.div2 k)). rewrite in_seq, andb_true_iff in H.
    destruct (Nat.even k); apply H; auto with arith.
Qed.

Lemma run_ok b n p : is_board b -> nsteps (step b) n start p ->
  (n <= 54)%nat /\ (~ ended p -> exists p', step b p p') /\ (ended p -> fine p = true <-> latin b).
Proof.
  intros Hb Hn. destruct (steps_ok b n start p Hb (start_ok b) Hn) as [[Hl Hj Hd Hf Hm] Hpr].
  split; [|split].
  - assert (finished (data p) <= length (data p))%nat by apply length_filter.
    unfold progress in Hpr. simpl in Hpr. unfold THREADS, GRID_SIZE in *. lia.
  - intros He. unfold ended in He. destruct (decide (length (data p) < THREADS)%nat) as [Hlt|Hge].
    { eexists. by apply step_create. }
    assert (length (data p) = THREADS) as Hlen by lia.
    destruct (lookup_lt_is_Some_2 (data p) (joined p)) as [g Hg]; [lia|].
    destruct (Hd _ _ Hg) as (r & -> & Hr & _). destruct r as [r|].
    + eexists. by eapply step_join.
    + eexists. eapply step_thread; [done..|]. apply routine_ok; [done|lia].
  - intros He. rewrite Hf, He. by apply answers_latin.
Qed.

Lemma main_ends b : is_board b -> exists n p, nsteps (step b) n start p /\ ended p.
Proof.
  intros Hb. cut (forall m n p, (n + m = 55)%nat -> nsteps (step b) n start p ->
    exists n' p', nsteps (step b) n' start p' /\ ended p').
  { intros H. apply (H 55%nat 0%nat start); [done|apply nsteps_O]. }
  induction m as [|m IH]; intros n p Hm Hn; destruct (run_ok b n p Hb Hn) as (Hle & Hgo & _); [lia|].
  destruct (decide (joined p = THREADS)) as [He|He]; [by exists n, p|].
  destruct (Hgo He) as [p' Hs]. apply (IH (S n) p'); [lia|]. by eapply nsteps_r.
Qed.

(** C36: Whatever the order in which the threads run, [main] can go on until it has
    joined all of them, does so in at most 54 steps, and then prints whether every
    row and every column of the board is right. *)
Theorem main_any_schedule b n p : is_board b -> nsteps (step b) n start p ->
  (n <= 54)%nat /\ (~ ended p -> exists p', step b p p') /\ (ended p -> fine p = true <-> latin b).
Proof. apply run_ok. Qed.

(** [solve] fills any board with a right one, so that [main] answers 1. *)
Theorem solve_latin b : is_board b -> solve b = Ok solution /\ latin solution.
Proof.
  intros [Hl Hf]. split.
  - unfold GRID_SIZE in *. do 9 (destruct b as [|[|? [|? [|? [|? [|? [|? [|? [|? [|? [|]]]]]]]]]] b];
      [done|..]; try (apply Forall_cons in Hf as [? Hf]; done); apply Forall_cons in Hf as [_ Hf]).
    destruct b; [by vm_compute|done].
  - apply lines_ok; [|by vm_compute]. apply (bool_decide_unpack _). vm_compute. exact I.
Qed.

(** *** Witnesses *)

Lemma solution_board : is_board solution.
Proof. apply (bool_decide_unpack _). vm_compute. exact I. Qed.

Lemma check_grid_latin_witness :
  is_board solution /\ exists r, check_grid (make_grid solution) = Ok r /\ (r = true <-> latin solution).
Proof. split; [exact solution_board|exact (check_grid_latin solution solution_board)]. Defined.

Lemma main_any_schedule_witness : exists n p,
  nsteps (step solution) n start p /\ ended p /\ fine p = true.
Proof.
  destruct (main_ends solution solution_board) as (n & p & Hn & He). exists n, p.
  split; [exact Hn|]. split; [exact He|].
  apply (proj2 (proj2 (main_any_schedule solution n p solution_board Hn)) He).
  apply lines_ok; [exact solution_board|]. vm_compute. reflexivity.
Defined.

Lemma solve_latin_witness : is_board solution /\ solve solution = Ok solution /\ latin solution.
Proof. split; [exact solution_board|exact (solve_latin solution solution_board)]. Defined.
