(* ===== verification/GThing.v ===== *)
(** * Strings of the game programs ([thing.h] of [src/5.Game-Management] and
      [src/6.BattleShip])

    A [Thing] is a NUL-terminated string of its own allocation, [None] for NULL. *)

From S2P Require Import Prelude CText.

Definition thing : Type := option string.

Definition space : ascii := Ascii.ascii_of_nat 32.
Definition is_space (c : ascii) : bool := Ascii.eqb c space.

(** A block of [malloc]: [None] is a byte that was not written. *)
Abbreviation buffer := (list (option ascii)).

Definition buf_get (b : buffer) (i : Z) : ub (option ascii) :=
  if i <? 0 then UB out_of_bounds
  else match b !! Z.to_nat i with Some x => Ok x | None => UB out_of_bounds end.

(** The value of a byte that is tested. *)
Definition buf_char (b : buffer) (i : Z) : ub ascii :=
  x ← buf_get b i; match x with Some c => Ok c | None => UB uninitialized end.

Definition thing_size (t : string) : Z := strlen t + 1.

(** The loop of [thing_clean] over the spaces from [j] on. *)
Fixpoint skip_loop (fuel : nat) (t : string) (j : nat) : ub nat :=
  match fuel with
  | O => UB no_fuel
  | S fuel' =>
      c ← char_at t j;
      if is_space c && (Z.of_nat j <? thing_size t) then skip_loop fuel' t (S j) else Ok j
  end.

(** The loop that copies: [t_c] and [f] at its end. *)
Fixpoint copy_loop (fuel : nat) (t : string) (i : nat) (t_c : buffer) (f : Z) : ub (buffer * Z) :=
  match fuel with
  | O => UB no_fuel
  | S fuel' =>
      if Z.of_nat i <? thing_size t then
        c ← char_at t i;
        if is_space c then
          j ← skip_loop fuel t (S i);
          t_c1 ← array_set f (Some c) t_c;
          if negb (Nat.eqb i (j - 1)) then
            d ← char_at t j;
            t_c2 ← array_set (f + 1) (Some d) t_c1;
            copy_loop fuel' t (S j) t_c2 (f + 2)
          else copy_loop fuel' t (S i) t_c1 (f + 1)
        else t_c1 ← array_set f (Some c) t_c; copy_loop fuel' t (S i) t_c1 (f + 1)
      else Ok (t_c, f)
  end.

(** The loop that moves the bytes before [f] by one, from [t] on, for [n] turns. *)
Fixpoint shift_loop (n : nat) (t : Z) (t_c : buffer) : ub buffer :=
  match n with
  | O => Ok t_c
  | S n' => x ← buf_get t_c (t + 1); t_c' ← array_set t x t_c; shift_loop n' (t + 1) t_c'
  end.

(** The string in a block: its bytes up to the first NUL. *)
Fixpoint buf_string (b : buffer) : ub string :=
  match b with
  | [] => UB out_of_bounds
  | None :: _ => UB uninitialized
  | Some c :: b' => if Ascii.eqb c NUL then Ok "" else s ← buf_string b'; Ok (String c s)
  end.

Definition thing_clean (t : thing) : ub thing :=
  match t with
  | None => Ok None
  | Some s =>
      '(t_c, f) ← copy_loop (2 + String.length s) s 0 (replicate (Z.to_nat (thing_size s)) None) 0;
      e ← buf_char t_c (f - 2);
      let f1 := if is_space e then f - 1 else f in
      t_c1 ← array_set (f1 - 1) (Some NUL) t_c;
      c ← buf_char t_c1 0;
      t_c2 ← (if is_space c then shift_loop (Z.to_nat f1) 0 t_c1 else Ok t_c1);
      r ← buf_string t_c2; Ok (Some r)
  end.

Definition thing_copy (t : thing) : ub thing := thing_clean t.

(** [strcat] onto a string in a block of [size] bytes. *)
Definition strcat (size : Z) (dst src : string) : ub string :=
  if thing_size (dst ++ src) <=? size then Ok (dst ++ src)%string else UB out_of_bounds.

(** The string [s] of one byte; NUL makes it empty. *)
Definition char_string (c : ascii) : string :=
  if Ascii.eqb c NUL then "" else String c "".

Definition thing_add (src addon : thing) (delem : ascii) : ub thing :=
  s ← deref src; a ← deref addon;
  let done := thing_size s + thing_size a in
  s1 ← strcat done s (char_string delem);
  s2 ← strcat done s1 a;
  Ok (Some s2).

(** [thing_replace], on the bytes of a string: a NUL that is written ends it. *)
Fixpoint thing_replace (s : string) (from to : ascii) : string :=
  match s with
  | EmptyString => ""
  | String c s' => String (if Ascii.eqb c from then to else c) (thing_replace s' from to)
  end.

(** What a NUL in the bytes leaves of a string. *)
Fixpoint c_str (s : string) : string :=
  match s with
  | EmptyString => ""
  | String c s' => if Ascii.eqb c NUL then "" else String c (c_str s')
  end.

(** ** What [thing_clean] means *)

(** [s] with each run of spaces reduced to one; [sp] says that a space came before. *)
Fixpoint squeeze (sp : bool) (s : string) : string :=
  match s with
  | EmptyString => ""
  | String c s' =>
      if is_space c then (if sp then squeeze true s' else String c (squeeze true s'))
      else String c (squeeze false s')
  end.

(** Without the last byte, or the first, when that is a space. *)
Fixpoint trim_end (s : string) : string :=
  match s with
  | EmptyString => ""
  | String c EmptyString => if is_space c then "" else s
  | String c s' => String c (trim_end s')
  end.
Definition starts_space (s : string) : bool :=
  match s with String c _ => is_space c | EmptyString => false end.
Definition trim_start (s : string) : string :=
  match s with String c s' => if is_space c then s' else s | EmptyString => "" end.

Definition clean (s : string) : string := trim_start (trim_end (squeeze false s)).

(** ** Proofs *)

Section Clean.

(** The bytes of a string, and a block that starts with [w]. *)
Definition filled (w : list ascii) (m : nat) : buffer := (Some <$> w) ++ replicate m None.

Lemma length_filled w m : length (filled w m) = (length w + m)%nat.
Proof. unfold filled. by rewrite length_app, length_fmap, length_replicate. Qed.

Lemma filled_write w m c : array_set (Z.of_nat (length w)) (Some c) (filled w (S m)) = Ok (filled (w ++ [c]) m).
Proof.
  rewrite array_set_in by (rewrite length_filled; lia). f_equal. unfold filled.
  rewrite Nat2Z.id, fmap_app, insert_app_r_alt by (by rewrite length_fmap).
  rewrite length_fmap, Nat.sub_diag. simpl. by rewrite <- app_assoc.
Qed.

Lemma snoc_app p c r : ((p ++ String c "") ++ r = p ++ String c r)%string.
Proof. by rewrite string_app_assoc. Qed.
Lemma snoc_length p c : String.length (p ++ String c "") = S (String.length p).
Proof. rewrite string_length_app. simpl. lia. Qed.

(** The number of spaces at the start. *)
Fixpoint lead (s : string) : nat :=
  match s with String c s' => if is_space c then S (lead s') else O | EmptyString => O end.
Fixpoint drop_spaces (s : string) : string :=
  match s with String c s' => if is_space c then drop_spaces s' else s | EmptyString => "" end.
Fixpoint spaces (n : nat) : string := match n with O => "" | S n' => String space (spaces n') end.

Lemma lead_split s : s = (spaces (lead s) ++ drop_spaces s)%string.
Proof.
  induction s as [|c s IH]; [done|]. simpl. destruct (is_space c) eqn:E; [|done]. simpl.
  unfold is_space in E. apply Ascii.eqb_eq in E as ->. by rewrite IH at 1.
Qed.

Lemma spaces_length n : String.length (spaces n) = n.
Proof. induction n; simpl; auto. Qed.

Lemma drop_spaces_start s : starts_space (drop_spaces s) = false.
Proof. induction s as [|c s IH]; [done|]. simpl. destruct (is_space c) eqn:E; [done|]. simpl. done. Qed.

Lemma drop_spaces_length s : (String.length (drop_spaces s) + lead s = String.length s)%nat.
Proof. rewrite (lead_split s) at 3. rewrite string_length_app, spaces_length. lia. Qed.

Lemma squeeze_true s : squeeze true s = squeeze false (drop_spaces s).
Proof. induction s as [|c s IH]; [done|]. simpl. destruct (is_space c) eqn:E; [done|]. simpl. by rewrite E. Qed.

Lemma skip_loop_spec fuel p r : (lead r < fuel)%nat ->
  skip_loop fuel (p ++ r) (String.length p) = Ok (String.length p + lead r)%nat.
Proof.
  revert p r. induction fuel as [|fuel IH]; intros p r Hf; [lia|]. cbn [skip_loop].
  rewrite char_at_app. destruct r as [|c r]; cbn [mbind ub_bind lead] in *; [by rewrite Nat.add_0_r|].
  destruct (is_space c) eqn:E; cbn [andb]; [|by rewrite Nat.add_0_r].
  rewrite (proj2 (Z.ltb_lt _ _)) by (unfold thing_size, strlen; rewrite string_length_app; simpl; lia).
  specialize (IH (p ++ String c "")%string r ltac:(lia)). rewrite snoc_app, snoc_length in IH.
  rewrite IH. f_equal. lia.
Qed.

(** One turn of the copy over a byte that is no space, over one space, over more. *)
Lemma copy_loop_end fuel t i t_c f : thing_size t <= Z.of_nat i -> copy_loop (S fuel) t i t_c f = Ok (t_c, f).
Proof. intros H. cbn [copy_loop]. by rewrite (proj2 (Z.ltb_ge _ _)). Qed.

(** What the loop does from the start of [r] on, with [fuel] turns. *)
Definition copies (fuel : nat) (r : string) : Prop := forall p w m,
  (String.length r + 2 <= fuel)%nat -> (String.length r + 1 <= m)%nat ->
  copy_loop fuel (p ++ r) (String.length p) (filled w m) (Z.of_nat (length w)) =
  Ok (filled (w ++ bytes (squeeze false r) ++ [NUL]) (m - S (String.length (squeeze false r))),
      Z.of_nat (length w + S (String.length (squeeze false r)))).

(** After one byte was copied. *)
Lemma copies_next fuel p c r w m : copies fuel r -> (String.length r + 2 <= fuel)%nat ->
  (String.length r + 1 <= m)%nat ->
  copy_loop fuel (p ++ String c r) (S (String.length p)) (filled (w ++ [c]) m) (Z.of_nat (length w) + 1) =
  Ok (filled (w ++ bytes (String c (squeeze false r)) ++ [NUL]) (m - S (String.length (squeeze false r))),
      Z.of_nat (length w + S (S (String.length (squeeze false r))))).
Proof.
  intros IH Hf Hm. specialize (IH (p ++ String c "")%string (w ++ [c]) m Hf Hm).
  rewrite snoc_app, snoc_length, length_app in IH. simpl in IH.
  replace (Z.of_nat (length w) + 1) with (Z.of_nat (length w + 1)) by lia. rewrite IH.
  rewrite <- app_assoc. do 2 f_equal. lia.
Qed.

(** After more than one space, the first of which was copied, what follows is copied. *)
Lemma copies_run fuel p c k d w m : (forall d', (String.length d' < String.length d)%nat ->
    no_nul d' = true -> copies fuel d') ->
  no_nul d = true -> starts_space d = false -> (String.length d + k + 4 <= fuel + 1)%nat ->
  (String.length d + 1 <= S m)%nat ->
  (d' ← char_at ((p ++ String c (spaces (S k))) ++ d) (String.length (p ++ String c (spaces (S k))));
   t_c ← array_set (Z.of_nat (length w) + 1) (Some d') (filled (w ++ [c]) (S m));
   copy_loop fuel ((p ++ String c (spaces (S k))) ++ d) (S (String.length (p ++ String c (spaces (S k))))) t_c
     (Z.of_nat (length w) + 2)) =
  Ok (filled (w ++ bytes (String c (squeeze false d)) ++ [NUL]) (S m - S (String.length (squeeze false d))),
      Z.of_nat (length w + S (S (String.length (squeeze false d))))).
Proof.
  intros IH Hn Hds Hf Hm. set (q := (p ++ String c (spaces (S k)))%string).
  rewrite char_at_app. cbn [mbind ub_bind].
  replace (Z.of_nat (length w) + 1) with (Z.of_nat (length (w ++ [c]))) by (rewrite length_app; simpl; lia).
  rewrite filled_write. cbn [mbind ub_bind]. destruct d as [|c0 d].
  { destruct fuel as [|fuel]; [simpl in Hf; lia|]. rewrite copy_loop_end
      by (unfold thing_size, strlen; rewrite string_app_nil_r; lia).
    simpl. rewrite <- app_assoc, Nat.sub_0_r. do 2 f_equal. lia. }
  simpl in Hds, Hn, Hf, Hm. apply andb_true_iff in Hn as [Hc0 Hn].
  specialize (IH d ltac:(simpl; lia) Hn (q ++ String c0 "")%string ((w ++ [c]) ++ [c0]) m
    ltac:(lia) ltac:(lia)).
  rewrite snoc_app, snoc_length, !length_app in IH. simpl in IH.
  replace (Z.of_nat (length w) + 2) with (Z.of_nat (length w + 1 + 1)) by lia. rewrite IH.
  simpl. rewrite Hds. simpl. rewrite <- !app_assoc. do 2 f_equal. lia.
Qed.

(** One turn of the loop over a byte. *)
Lemma copy_loop_turn fuel p c r w m :
  copy_loop (S fuel) (p ++ String c r) (String.length p) (filled w (S m)) (Z.of_nat (length w)) =
  if is_space c then
    j ← skip_loop (S fuel) (p ++ String c r) (S (String.length p));
    if negb (Nat.eqb (String.length p) (j - 1)) then
      d ← char_at (p ++ String c r) j;
      t_c2 ← array_set (Z.of_nat (length w) + 1) (Some d) (filled (w ++ [c]) m);
      copy_loop fuel (p ++ String c r) (S j) t_c2 (Z.of_nat (length w) + 2)
    else copy_loop fuel (p ++ String c r) (S (String.length p)) (filled (w ++ [c]) m) (Z.of_nat (length w) + 1)
  else copy_loop fuel (p ++ String c r) (S (String.length p)) (filled (w ++ [c]) m) (Z.of_nat (length w) + 1).
Proof.
  cbn [copy_loop]. rewrite (proj2 (Z.ltb_lt _ _))
    by (unfold thing_size, strlen; rewrite string_length_app; lia).
  rewrite char_at_app. cbn [mbind ub_bind]. rewrite filled_write. cbn [mbind ub_bind]. done.
Qed.

Lemma copy_loop_spec fuel r : no_nul r = true -> copies fuel r.
Proof.
  revert r. induction fuel as [|fuel IH]; intros r Hn p w m Hf Hm; [lia|]. destruct m as [|m]; [lia|].
  destruct r as [|c r].
  { cbn [copy_loop]. rewrite (proj2 (Z.ltb_lt _ _))
      by (unfold thing_size, strlen; rewrite string_length_app; lia).
    rewrite char_at_app. cbn [mbind ub_bind]. replace (is_space NUL) with false by done.
    rewrite filled_write. cbn [mbind ub_bind]. destruct fuel as [|fuel]; [simpl in *; lia|].
    rewrite copy_loop_end by (unfold thing_size, strlen; rewrite string_app_nil_r; lia).
    simpl. rewrite Nat.sub_0_r, Nat.add_1_r. do 2 f_equal. lia. }
  simpl in Hn, Hf, Hm. apply andb_true_iff in Hn as [Hc Hn]. rewrite copy_loop_turn.
  destruct (is_space c) eqn:Ec;
    [|rewrite copies_next by (auto; lia); simpl; rewrite Ec; simpl; done].
  pose proof (skip_loop_spec (S fuel) (p ++ String c "") r) as Hskip. rewrite snoc_app, snoc_length in Hskip.
  pose proof (drop_spaces_length r) as Hdl. rewrite Hskip by lia. cbn [mbind ub_bind].
  pose proof (lead_split r) as Hr. simpl. rewrite Ec, squeeze_true. destruct (lead r) as [|k].
  { replace (Nat.eqb _ _) with true by (symmetry; apply Nat.eqb_eq; lia). cbn [negb].
    rewrite copies_next by (auto; lia). simpl in Hr. replace (drop_spaces r) with r by done. done. }
  replace (Nat.eqb _ _) with false by (symmetry; apply Nat.eqb_neq; lia). cbn [negb].
  assert (Hp : (p ++ String c r)%string = ((p ++ String c (spaces (S k))) ++ drop_spaces r)%string)
    by (rewrite string_app_assoc; rewrite Hr at 1; done).
  replace (S (String.length p + S k)) with (String.length (p ++ String c (spaces (S k))))
    by (rewrite string_length_app; cbn [String.length]; rewrite spaces_length; lia).
  rewrite Hp. destruct m as [|m]; [lia|]. apply copies_run; [|..|lia|lia].
  - intros d' _. by apply IH.
  - rewrite Hr, no_nul_app in Hn. by apply andb_true_iff in Hn as [_ Hn].
  - apply drop_spaces_start.
Qed.

(** *** The end of [thing_clean] *)

Lemma filled_get w m i c : w !! i = Some c -> buf_char (filled w m) (Z.of_nat i) = Ok c.
Proof.
  intros Hi. unfold buf_char, buf_get, filled. rewrite (proj2 (Z.ltb_ge _ _)) by lia. rewrite Nat2Z.id.
  rewrite lookup_app_l by (rewrite length_fmap; by eapply lookup_lt_Some).
  by rewrite list_lookup_fmap, Hi.
Qed.

Lemma filled_set w m i c : (i < length w)%nat ->
  array_set (Z.of_nat i) (Some c) (filled w m) = Ok (filled (<[i := c]> w) m).
Proof.
  intros Hi. rewrite array_set_in by (rewrite length_filled; lia). rewrite Nat2Z.id. f_equal. unfold filled.
  rewrite insert_app_l by (by rewrite length_fmap). by rewrite list_fmap_insert.
Qed.

Lemma buf_string_bytes r b : no_nul r = true -> buf_string ((Some <$> bytes r) ++ Some NUL :: b) = Ok r.
Proof.
  induction r as [|c r IH]; intros Hn; [done|]. simpl in Hn. apply andb_true_iff in Hn as [Hc Hn].
  apply negb_true_iff in Hc. change (Some <$> bytes (String c r)) with (Some c :: (Some <$> bytes r)).
  cbn [app buf_string]. by rewrite Hc, (IH Hn).
Qed.

Lemma shift_turn n pre (x y : option ascii) b :
  shift_loop (S n) (Z.of_nat (length pre)) (pre ++ x :: y :: b) =
  shift_loop n (Z.of_nat (length (pre ++ [y]))) ((pre ++ [y]) ++ y :: b).
Proof.
  cbn [shift_loop]. assert (Hget : buf_get (pre ++ x :: y :: b) (Z.of_nat (length pre) + 1) = Ok y).
  { unfold buf_get. rewrite (proj2 (Z.ltb_ge _ _)) by lia.
    replace (Z.to_nat (Z.of_nat (length pre) + 1)) with (S (length pre)) by lia.
    rewrite (cons_middle x pre), app_assoc, lookup_app_r by (rewrite length_app; simpl; lia).
    rewrite length_app. simpl. by replace (_ - _)%nat with 0%nat by lia. }
  rewrite Hget. cbn [mbind ub_bind]. rewrite array_set_in by (rewrite length_app; simpl; lia).
  cbn [mbind ub_bind]. rewrite Nat2Z.id, insert_app_r_alt, Nat.sub_diag by done.
  rewrite <- app_assoc, length_app. simpl. do 2 f_equal. lia.
Qed.

(** Moving the bytes [ys] one to the left, onto the byte before them. *)
Lemma shift_loop_spec ys pre (x : option ascii) b :
  shift_loop (length ys) (Z.of_nat (length pre)) (pre ++ x :: ys ++ b) =
  Ok (pre ++ ys ++ from_option id x (last ys) :: b).
Proof.
  revert pre x. induction ys as [|y ys IH]; intros pre x; [done|]. cbn [length app].
  rewrite shift_turn, IH, <- app_assoc, last_cons. simpl. by destruct (last ys).
Qed.

(** Moving the last byte of the block needs one behind it. *)
Lemma shift_loop_out ys pre (x : option ascii) :
  shift_loop (S (length ys)) (Z.of_nat (length pre)) (pre ++ x :: ys) = UB out_of_bounds.
Proof.
  revert pre x. induction ys as [|y ys IH]; intros pre x; [|cbn [length]; by rewrite shift_turn, IH].
  cbn [length shift_loop]. unfold buf_get. rewrite (proj2 (Z.ltb_ge _ _)) by lia.
  rewrite lookup_ge_None_2; [done|]. rewrite length_app. simpl. lia.
Qed.

(** The last lines of [thing_clean], on a block of [n + 1] bytes that holds [q]. *)
Definition finish (f1 : Z) (t_c1 : buffer) : ub thing :=
  c ← buf_char t_c1 0;
  t_c2 ← (if is_space c then shift_loop (Z.to_nat f1) 0 t_c1 else Ok t_c1);
  r ← buf_string t_c2; Ok (Some r).

Lemma finish_spec q w m : no_nul q = true ->
  finish (strlen q + 1) (filled (bytes q ++ NUL :: w) m) =
  if starts_space q && Nat.eqb (length w + m) 0 then UB out_of_bounds else Ok (Some (trim_start q)).
Proof.
  intros Hn. unfold finish.
  rewrite (filled_get _ _ 0 (match q with String c _ => c | EmptyString => NUL end)) by (by destruct q).
  cbn [mbind ub_bind]. set (rest := (Some <$> w) ++ replicate m None).
  assert (Hb : filled (bytes q ++ NUL :: w) m = (Some <$> bytes q) ++ Some NUL :: rest)
    by (unfold filled, rest; by rewrite fmap_app, <- app_assoc).
  rewrite Hb. destruct q as [|c q]; [done|]. cbn [starts_space trim_start].
  destruct (is_space c) eqn:Ec; cbn [andb];
    [|cbn [mbind ub_bind]; rewrite buf_string_bytes by done; done].
  change (Some <$> bytes (String c q)) with (Some c :: (Some <$> bytes q)). cbn [app].
  replace (Z.to_nat (strlen (String c q) + 1)) with (S (length ((Some <$> bytes q) ++ [Some NUL])))
    by (unfold strlen; rewrite length_app, length_fmap, bytes_length; simpl; lia).
  assert (Hrest : length rest = (length w + m)%nat)
    by (unfold rest; by rewrite length_app, length_fmap, length_replicate).
  clearbody rest. clear Hb. destruct rest as [|x rest]; simpl in Hrest; rewrite <- Hrest.
  - pose proof (shift_loop_out ((Some <$> bytes q) ++ [Some NUL]) [] (Some c)) as H.
    change (Z.of_nat (length [])) with 0 in H. cbn [app] in H.
    by rewrite H.
  - pose proof (shift_loop_spec (((Some <$> bytes q) ++ [Some NUL]) ++ [x]) [] (Some c) rest) as H.
    rewrite length_app, Nat.add_1_r in H. change (Z.of_nat (length [])) with 0 in H.
    rewrite <- !app_assoc in H. cbn [app] in H.
    cbn [Nat.eqb]. rewrite H. cbn [mbind ub_bind]. simpl in Hn. apply andb_true_iff in Hn as [_ Hn].
    by rewrite buf_string_bytes.
Qed.

Lemma string_snoc q : q = "" \/ exists q0 c, q = (q0 ++ String c "")%string.
Proof.
  induction q as [|a q IH]; [by left|]. right. destruct IH as [->|(q0 & c & ->)].
  - by exists "", a.
  - by exists (String a q0), c.
Qed.

Lemma trim_end_snoc q c : trim_end (q ++ String c "") = if is_space c then q else (q ++ String c "")%string.
Proof.
  induction q as [|a q IH]; [done|]. change (String a q ++ ?r)%string with (String a (q ++ r)).
  simpl. rewrite IH. destruct q as [|b q]; [simpl; by destruct (is_space c)|].
  change ((String b q ++ String c "")%string) with (String b (q ++ String c "")). by destruct (is_space c).
Qed.

Lemma squeeze_length sp s : (String.length (squeeze sp s) <= String.length s)%nat.
Proof.
  revert sp; induction s as [|c s IH]; intros sp; simpl; [lia|].
  pose proof (IH true). pose proof (IH false). destruct (is_space c), sp; simpl; lia.
Qed.

Lemma squeeze_same sp s : String.length (squeeze sp s) = String.length s -> squeeze sp s = s.
Proof.
  revert sp; induction s as [|c s IH]; intros sp; simpl; [done|].
  pose proof (squeeze_length true s). destruct (is_space c), sp; simpl; intros; [lia|f_equal; apply IH; lia..].
Qed.

Lemma trim_end_length q : (String.length (trim_end q) <= String.length q)%nat.
Proof.
  destruct (string_snoc q) as [->|(q0 & c & ->)]; [done|]. rewrite trim_end_snoc, string_length_app.
  case_if; rewrite ?string_length_app; lia.
Qed.

Lemma trim_end_same q : String.length (trim_end q) = String.length q -> trim_end q = q.
Proof.
  destruct (string_snoc q) as [->|(q0 & c & ->)]; [done|]. rewrite trim_end_snoc.
  case_if; [|done]. rewrite string_length_app. simpl. lia.
Qed.

Lemma no_nul_squeeze sp s : no_nul s = true -> no_nul (squeeze sp s) = true.
Proof.
  revert sp; induction s as [|c s IH]; intros sp; simpl; [done|]. rewrite andb_true_iff. intros [Hc Hn].
  destruct (is_space c), sp; simpl; rewrite ?andb_true_iff; auto.
Qed.

Lemma squeeze_nonempty s : s <> "" -> squeeze false s <> "".
Proof. destruct s; [done|]. simpl. by case_if. Qed.

Lemma thing_clean_finish s : no_nul s = true -> s <> "" ->
  exists q w m, trim_end (squeeze false s) = q /\ no_nul q = true /\
    (String.length q + length w + m = String.length s)%nat /\
    thing_clean (Some s) = finish (strlen q + 1) (filled (bytes q ++ NUL :: w) m).
Proof.
  intros Hn Hs. pose proof (squeeze_length false s) as Hle. pose proof (squeeze_nonempty s Hs) as Hq.
  pose proof (no_nul_squeeze false s Hn) as Hqn.
  pose proof (copy_loop_spec (2 + String.length s) s Hn "" [] (S (String.length s)) ltac:(lia) ltac:(lia)) as Hc.
  change ("" ++ s)%string with s in Hc.
  unfold thing_clean. replace (Z.to_nat (thing_size s)) with (S (String.length s)) by (unfold thing_size, strlen; lia).
  match goal with |- context [copy_loop ?a ?b ?c ?d ?e] => change (copy_loop a b c d e) with
    (copy_loop (2 + String.length s) s (String.length "") (filled [] (S (String.length s))) (Z.of_nat (length (@nil ascii)))) end.
  rewrite Hc. clear Hc.
  cbn [mbind ub_bind]. destruct (string_snoc (squeeze false s)) as [|(q0 & c & Hq0)]; [done|].
  rewrite Hq0 in Hle, Hqn |- *. rewrite trim_end_snoc, string_length_app in *. rewrite bytes_app, <- app_assoc.
  cbn [String.length bytes String.list_ascii_of_string app] in *. change (length (@nil ascii)) with 0%nat.
  replace (Z.of_nat (0 + S (String.length q0 + 1)) - 2) with (Z.of_nat (String.length q0)) by lia.
  rewrite (filled_get _ _ _ c) by (by rewrite lookup_app_r, bytes_length, Nat.sub_diag by (by rewrite bytes_length)).
  cbn [mbind ub_bind]. rewrite no_nul_app in Hqn. apply andb_true_iff in Hqn as [Hn0 Hnc].
  destruct (is_space c) eqn:Ec.
  - exists q0, [NUL], (String.length s - (String.length q0 + 1))%nat. split; [done|]. split; [done|].
    split; [simpl; lia|].
    replace (Z.of_nat (0 + S (String.length q0 + 1)) - 1 - 1) with (Z.of_nat (String.length q0)) by lia.
    rewrite filled_set by (rewrite length_app, bytes_length; simpl; lia).
    rewrite <- bytes_length at 1. rewrite insert_app_r_alt, Nat.sub_diag by done. cbn [mbind ub_bind list_insert].
    unfold finish, strlen. replace (Z.of_nat (0 + S (String.length q0 + 1)) - 1) with (Z.of_nat (String.length q0) + 1) by lia.
    done.
  - exists (q0 ++ String c "")%string, [], (String.length s - (String.length q0 + 1))%nat. split; [done|].
    split; [by rewrite no_nul_app, Hn0|]. rewrite string_length_app. split; [simpl; lia|].
    replace (Z.of_nat (0 + S (String.length q0 + 1)) - 1) with (Z.of_nat (S (String.length q0))) by lia.
    rewrite filled_set by (rewrite length_app, bytes_length; simpl; lia).
    replace (<[S (String.length q0) := NUL]> (bytes q0 ++ [c; NUL])) with (bytes (q0 ++ String c "") ++ [NUL]).
    2:{ rewrite bytes_app, <- app_assoc. rewrite insert_app_r_alt, bytes_length by (rewrite bytes_length; lia).
        by replace (S (String.length q0) - String.length q0)%nat with 1%nat by lia. }
    cbn [mbind ub_bind]. unfold finish, strlen. rewrite string_length_app.
    replace (Z.of_nat (String.length q0 + String.length (String c "")) + 1)
      with (Z.of_nat (0 + S (String.length q0 + 1))) by (simpl; lia). done.
Qed.

(** When [thing_clean] works: not on the empty string, and not on a string that starts with
    a space and has no other space to remove. *)
Definition cleanable (s : string) : bool :=
  negb (String.eqb s "") && negb (starts_space s && String.eqb (trim_end (squeeze false s)) s).

Lemma thing_clean_eq s : no_nul s = true ->
  thing_clean (Some s) = if cleanable s then Ok (Some (clean s)) else UB out_of_bounds.
Proof.
  intros Hn. unfold cleanable. destruct (String.eqb_spec s "") as [->|Hs]; [done|].
  destruct (thing_clean_finish s Hn Hs) as (q & w & m & Hq & Hnq & Hl & ->).
  rewrite finish_spec by done. cbn [negb andb]. rewrite Hq. unfold clean. rewrite Hq.
  assert (Hsame : Nat.eqb (length w + m) 0 = String.eqb q s).
  { apply eq_true_iff_eq. rewrite Nat.eqb_eq, String.eqb_eq. split; [|intros ->; lia]. intros H0.
    pose proof (trim_end_length (squeeze false s)) as H1. pose proof (squeeze_length false s) as H2.
    rewrite Hq in H1. rewrite <- Hq, trim_end_same by (rewrite Hq; lia). apply squeeze_same. lia. }
  rewrite Hsame. destruct (String.eqb_spec q s) as [->|_]; [|by rewrite !andb_false_r].
  by destruct (starts_space s).
Qed.
End Clean.

(** *** Clean strings are left as they are *)

(** No two spaces in a row; [sp] says that a space came before. *)
Fixpoint tidy (sp : bool) (s : string) : bool :=
  match s with
  | EmptyString => true
  | String c s' => if is_space c then negb sp && tidy true s' else tidy false s'
  end.

Lemma tidy_squeeze sp s : tidy sp (squeeze sp s) = true.
Proof.
  revert sp; induction s as [|c s IH]; intros sp; simpl; [done|].
  destruct (is_space c) eqn:E, sp; simpl; rewrite ?E; auto.
Qed.

Lemma squeeze_tidy sp s : tidy sp s = true -> squeeze sp s = s.
Proof.
  revert sp; induction s as [|c s IH]; intros sp; simpl; [done|].
  destruct (is_space c), sp; simpl; intros H; f_equal; auto; done.
Qed.

Lemma tidy_snoc sp q c : tidy sp (q ++ String c "") = true -> tidy sp q = true.
Proof.
  revert sp; induction q as [|a q IH]; intros sp; [done|].
  change (String a q ++ ?r)%string with (String a (q ++ r)). simpl.
  destruct (is_space a); [|apply IH]. rewrite !andb_true_iff. intros [? ?]. auto.
Qed.

Lemma tidy_two sp q c d : is_space c = true -> is_space d = true ->
  tidy sp ((q ++ String c "") ++ String d "") = false.
Proof.
  intros Hc Hd. revert sp. induction q as [|a q IH]; intros sp.
  - change (tidy sp (String c (String d "")) = false). cbn [tidy]. rewrite Hc, Hd. cbn [negb andb].
    by rewrite andb_false_r.
  - change ((String a q ++ ?r) ++ ?t)%string with (String a ((q ++ r) ++ t)). simpl.
    destruct (is_space a); rewrite IH; [by rewrite andb_false_r|done].
Qed.

Lemma trim_end_idem sp q : tidy sp q = true -> trim_end (trim_end q) = trim_end q.
Proof.
  destruct (string_snoc q) as [->|(q0 & d & ->)]; [done|]. intros Ht. rewrite trim_end_snoc.
  destruct (is_space d) eqn:Ed; [|by rewrite trim_end_snoc, Ed].
  destruct (string_snoc q0) as [->|(q1 & c & ->)]; [done|]. rewrite trim_end_snoc.
  destruct (is_space c) eqn:Ec; [|done]. by rewrite tidy_two in Ht.
Qed.

Lemma tidy_trim_end sp q : tidy sp q = true -> tidy sp (trim_end q) = true.
Proof.
  destruct (string_snoc q) as [->|(q0 & d & ->)]; [done|]. rewrite trim_end_snoc.
  case_if; [apply tidy_snoc|done].
Qed.

Lemma tidy_trim_start q : tidy false q = true -> tidy true (trim_start q) = true.
Proof. destruct q as [|c q]; [done|]. simpl. destruct (is_space c) eqn:E; [done|]. simpl. by rewrite E. Qed.

Lemma trim_end_start q : trim_end q = q -> trim_end (trim_start q) = trim_start q.
Proof.
  destruct q as [|c q]; [done|]. unfold trim_start. destruct (is_space c); [|done].
  destruct q as [|d q]; [done|]. cbn [trim_end]. intros H. by injection H.
Qed.

(** What [thing_clean] gives back, when it is not empty, is cleaned to itself. *)
Definition is_clean (s : string) : bool :=
  negb (String.eqb s "") && tidy true s && String.eqb (trim_end s) s && no_nul s.

Lemma clean_is_clean s : no_nul s = true -> clean s <> "" -> is_clean (clean s) = true.
Proof.
  intros Hn Hs. unfold is_clean. rewrite (proj2 (String.eqb_neq _ _) Hs). unfold clean in *.
  pose proof (tidy_squeeze false s) as Ht. set (q := squeeze false s) in *.
  rewrite tidy_trim_start by (by apply tidy_trim_end).
  rewrite trim_end_start by (by eapply trim_end_idem). rewrite String.eqb_refl. cbn [negb andb].
  assert (Hq : no_nul q = true) by (by apply no_nul_squeeze).
  assert (He : no_nul (trim_end q) = true).
  { destruct (string_snoc q) as [->|(q0 & d & Heq)]; [done|]. rewrite Heq, trim_end_snoc.
    rewrite Heq, no_nul_app in Hq. apply andb_true_iff in Hq as [H0 H1].
    case_if; [done|]. by rewrite no_nul_app, H0. }
  destruct (trim_end q) as [|c r]; [done|]. simpl in He |- *. case_if; [|done].
  by apply andb_true_iff in He as [_ He].
Qed.

Lemma thing_clean_id s : is_clean s = true -> thing_clean (Some s) = Ok (Some s).
Proof.
  unfold is_clean. rewrite !andb_true_iff, negb_true_iff. intros [[[Hs Ht] He] Hn].
  apply String.eqb_eq in He. assert (Hst : starts_space s = false).
  { destruct s as [|c s]; [done|]. simpl in *. by destruct (is_space c). }
  assert (Hsq : squeeze false s = s).
  { apply squeeze_tidy. destruct s as [|c s]; [done|]. simpl in *. by destruct (is_space c). }
  rewrite thing_clean_eq by done. unfold cleanable, clean. rewrite Hs, Hst, Hsq, He. simpl.
  do 2 f_equal. destruct s as [|c s]; [done|]. simpl in *. by rewrite Hst.
Qed.

(** [thing_clean] reduces each run of spaces to one and removes those at the start and
    the end; it reads outside of its memory exactly for the empty string and for a
    string whose only superfluous space is one at its start. *)
Theorem thing_clean_spec s : no_nul s = true ->
  thing_clean (Some s) =
  if String.eqb s "" || (starts_space s && String.eqb (trim_end (squeeze false s)) s)
  then UB out_of_bounds else Ok (Some (trim_start (trim_end (squeeze false s)))).
Proof.
  intros Hn. rewrite thing_clean_eq by done. unfold cleanable. rewrite <- negb_orb.
  by destruct (_ || _).
Qed.

Lemma thing_clean_spec_witness :
  thing_clean (Some "  A  1 ") = Ok (Some "A 1") /\ thing_clean (Some " A") = UB out_of_bounds.
Proof. split; [exact (thing_clean_spec "  A  1 " eq_refl)|exact (thing_clean_spec " A" eq_refl)]. Defined.
