(* ===== verification/GList.v ===== *)
(** * Lists, queues and stacks of the game programs ([node.c], [list.c], [queue.c],
      [stack.c] of [src/5.Game-Management] and [src/6.BattleShip])

    A list is doubly linked, with the nodes in a heap that all lists share; queues and
    stacks are made of lists. *)

From S2P Require Import Prelude CText GThing.

Abbreviation loc := positive.

(** ** [node.c] *)

Record node := Node { data : thing; prev : option loc; next : option loc }.

(** The nodes that are allocated, and the next address of [malloc]. *)
Record heap := Heap { h_nodes : gmap loc node; h_brk : loc }.

(** [assert (p != NULL)], and the node behind [p]. *)
Definition assert_ {A} (p : option A) : ub A :=
  match p with Some a => Ok a | None => UB exits end.

Definition node_at (h : heap) (n : option loc) : ub (loc * node) :=
  l ← assert_ n;
  match h_nodes h !! l with Some v => Ok (l, v) | None => UB use_after_free end.

Definition node_put (h : heap) (l : loc) (v : node) : heap := Heap (<[l := v]> (h_nodes h)) (h_brk h).

Definition node_set_thing (h : heap) (n : option loc) (t : thing) : ub heap :=
  '(l, v) ← node_at h n; c ← thing_copy t; Ok (node_put h l (Node c (prev v) (next v))).
Definition node_set_prev (h : heap) (n m : option loc) : ub heap :=
  '(l, v) ← node_at h n; Ok (node_put h l (Node (data v) m (next v))).
Definition node_set_next (h : heap) (n m : option loc) : ub heap :=
  '(l, v) ← node_at h n; Ok (node_put h l (Node (data v) (prev v) m)).

Definition node_get_thing (h : heap) (n : option loc) : ub thing := '(_, v) ← node_at h n; Ok (data v).
Definition node_get_prev (h : heap) (n : option loc) : ub (option loc) := '(_, v) ← node_at h n; Ok (prev v).
Definition node_get_next (h : heap) (n : option loc) : ub (option loc) := '(_, v) ← node_at h n; Ok (next v).

Definition node_new (h : heap) : ub (option loc * heap) :=
  let n := Some (h_brk h) in
  let h0 := Heap (<[h_brk h := Node None None None]> (h_nodes h)) (Pos.succ (h_brk h)) in
  h1 ← node_set_thing h0 n None;
  h2 ← node_set_prev h1 n None;
  h3 ← node_set_next h2 n None;
  Ok (n, h3).

Definition node_make (h : heap) (t : thing) : ub (option loc * heap) :=
  '(n, h1) ← node_new h; h2 ← node_set_thing h1 n t; Ok (n, h2).

Definition node_destroy (h : heap) (n : option loc) : ub heap :=
  '(l, _) ← node_at h n; Ok (Heap (delete l (h_nodes h)) (h_brk h)).

(** ** [list.c] *)

Record list_ := List_ { head_ : option loc; tail_ : option loc; size_ : Z }.

Definition list_new : list_ := List_ None None 0.

Definition list_append (h : heap) (l : list_) (t : thing) : ub (heap * list_) :=
  '(n, h1) ← node_make h t;
  match head_ l with
  | None => Ok (h1, List_ n n (u64 (size_ l + 1)))
  | Some _ =>
      h2 ← node_set_next h1 (tail_ l) n;
      h3 ← node_set_prev h2 n (tail_ l);
      Ok (h3, List_ (head_ l) n (u64 (size_ l + 1)))
  end.

Definition list_prepend (h : heap) (l : list_) (t : thing) : ub (heap * list_) :=
  '(n, h1) ← node_make h t;
  match head_ l with
  | None => Ok (h1, List_ n n (u64 (size_ l + 1)))
  | Some _ =>
      h2 ← node_set_prev h1 (head_ l) n;
      h3 ← node_set_next h2 n (head_ l);
      Ok (h3, List_ n (tail_ l) (u64 (size_ l + 1)))
  end.

Definition list_top (h : heap) (l : list_) : ub (thing * heap * list_) :=
  if size_ l =? 0 then Ok (None, h, l) else
  t0 ← node_get_thing h (head_ l);
  t ← thing_copy t0;
  let f := head_ l in
  nx ← node_get_next h (head_ l);
  '(h1, l1) ← (match nx with
               | Some _ => h1 ← node_set_prev h nx None; Ok (h1, l)
               | None => Ok (h, List_ None None (size_ l))
               end);
  nf ← node_get_next h1 f;
  h2 ← node_destroy h1 f;
  Ok (t, h2, List_ nf (tail_ l1) (u64 (size_ l1 - 1))).

Definition list_bottom (h : heap) (l : list_) : ub (thing * heap * list_) :=
  if size_ l =? 0 then Ok (None, h, l) else
  t0 ← node_get_thing h (tail_ l);
  t ← thing_copy t0;
  let f := tail_ l in
  pv ← node_get_prev h (tail_ l);
  '(h1, l1) ← (match pv with
               | Some _ => h1 ← node_set_next h pv None; Ok (h1, l)
               | None => Ok (h, List_ None None (size_ l))
               end);
  pf ← node_get_prev h1 f;
  h2 ← node_destroy h1 f;
  Ok (t, h2, List_ (head_ l1) pf (u64 (size_ l1 - 1))).

Definition list_size (l : list_) : Z := size_ l.

(** The fuel counts the nested calls, one for each node. *)
Fixpoint list_destroy_h (fuel : nat) (h : heap) (n : option loc) : ub heap :=
  match n with
  | None => Ok h
  | Some _ =>
      match fuel with
      | O => UB no_fuel
      | S fuel' => nx ← node_get_next h n; h1 ← list_destroy_h fuel' h nx; node_destroy h1 n
      end
  end.

Definition list_destroy (h : heap) (l : list_) : ub heap :=
  list_destroy_h (size (h_nodes h)) h (head_ l).

(** ** [queue.c] and [stack.c] *)

Record queue := Queue { q_l : list_ }.

Definition queue_init : queue := Queue list_new.
Definition queue_destroy (h : heap) (q : queue) : ub heap := list_destroy h (q_l q).
Definition queue_dequeue (h : heap) (q : queue) : ub (thing * heap * queue) :=
  '(t, h', l) ← list_top h (q_l q); Ok (t, h', Queue l).
Definition queue_enqueue (h : heap) (q : queue) (t : thing) : ub (heap * queue) :=
  '(h', l) ← list_append h (q_l q) t; Ok (h', Queue l).
Definition queue_size (q : queue) : Z := list_size (q_l q).

Record stack := Stack { s_l : list_ }.

Definition stack_init : stack := Stack list_new.
Definition stack_destroy (h : heap) (s : stack) : ub heap := list_destroy h (s_l s).
Definition stack_pop (h : heap) (s : stack) : ub (thing * heap * stack) :=
  '(t, h', l) ← list_bottom h (s_l s); Ok (t, h', Stack l).
Definition stack_push (h : heap) (s : stack) (t : thing) : ub (heap * stack) :=
  '(h', l) ← list_append h (s_l s) t; Ok (h', Stack l).
Definition stack_size (s : stack) : Z := list_size (s_l s).

(** The loop of [queue_to_string]; it ends because each turn takes an element. *)
Fixpoint to_string_loop (fuel : nat) (h : heap) (q : queue) (t : thing) (delem : ascii) :
    ub (thing * heap * queue) :=
  if queue_size q <=? 0 then Ok (t, h, q) else
  match fuel with
  | O => UB no_fuel
  | S fuel' =>
      '(a, h1, q1) ← queue_dequeue h q;
      t' ← thing_add t a delem;
      to_string_loop fuel' h1 q1 t' delem
  end.

Definition queue_to_string (h : heap) (q : queue) (delem : ascii) : ub (thing * heap * queue) :=
  if queue_size q <? 0 then Ok (None, h, q) else
  '(t, h1, q1) ← queue_dequeue h q;
  to_string_loop (Z.to_nat (queue_size q1)) h1 q1 t delem.

(** [queue_to_queue] works in the block of its argument: [str] is an index into it.  The loop
    from [i] for [n] turns, with [j] before its increment. *)
Fixpoint to_queue_loop (n : nat) (h : heap) (q : queue) (b : list ascii) (delem : ascii) (str i j : Z) :
    ub (heap * queue * list ascii) :=
  match n with
  | O => Ok (h, q, b)
  | S n' =>
      let j := j + 1 in
      c ← mem_get b (str + j);
      if Ascii.eqb c delem || Ascii.eqb c NUL then
        b' ← array_set (str + j) NUL b;
        s ← mem_string (drop (Z.to_nat str) b');
        '(h', q') ← (if 0 <? strlen s then queue_enqueue h q (Some s) else Ok (h, q));
        to_queue_loop n' h' q' b' delem (i + 1) (i + 1) (-1)
      else to_queue_loop n' h q b delem str (i + 1) j
  end.

Definition queue_to_queue (h : heap) (b : list ascii) (delem : ascii) : ub (heap * queue * list ascii) :=
  s ← mem_string b;
  let len := strlen s + 1 in
  to_queue_loop (Z.to_nat (len + 1)) h queue_init b delem 0 0 (-1).

(** ** What a list is in the heap *)

Definition lhead (ls : list loc) (nx : option loc) : option loc :=
  match ls with [] => nx | l :: _ => Some l end.
Definition llast (p : option loc) (ls : list loc) : option loc :=
  match last ls with Some l => Some l | None => p end.

(** The nodes [ls] hold [xs] and are linked, between [p] and [nx]. *)
Fixpoint dseg (m : gmap loc node) (p : option loc) (ls : list loc) (xs : list thing) (nx : option loc) : Prop :=
  match ls, xs with
  | [], [] => True
  | l :: ls', x :: xs' => m !! l = Some (Node x p (lhead ls' nx)) /\ dseg m (Some l) ls' xs' nx
  | _, _ => False
  end.

Definition heap_ok (h : heap) : Prop := forall l, is_Some (h_nodes h !! l) -> (l < h_brk h)%positive.

(** The list at [l] has the nodes [ls] with [xs] in them. *)
Record rep (h : heap) (l : list_) (ls : list loc) (xs : list thing) : Prop := {
  rep_seg : dseg (h_nodes h) None ls xs None;
  rep_head : head_ l = lhead ls None;
  rep_tail : tail_ l = llast None ls;
  rep_size : size_ l = u64 (Z.of_nat (length xs));
  rep_nodup : NoDup ls;
  rep_heap : heap_ok h;
}.

(** [h'] differs from [h] in the nodes [ls] and in a new one only. *)
Definition frame (ls : list loc) (h h' : heap) : Prop :=
  forall k, k ∉ ls -> k <> h_brk h -> h_nodes h' !! k = h_nodes h !! k.

(** ** Proofs *)

Lemma dseg_length m p ls xs nx : dseg m p ls xs nx -> length ls = length xs.
Proof. revert p xs. induction ls; intros p [|x xs]; simpl; naive_solver. Qed.

Lemma dseg_ext m m' p ls xs nx : (forall k, k ∈ ls -> m' !! k = m !! k) ->
  dseg m p ls xs nx -> dseg m' p ls xs nx.
Proof.
  revert p xs. induction ls as [|l ls IH]; intros p [|x xs] Hm; simpl; try done.
  intros [Hl Hs]. split; [rewrite Hm by left; done|]. apply IH; [|done]. intros k Hk. apply Hm. by right.
Qed.

Lemma dseg_snoc m p ls l xs x nx :
  dseg m p (ls ++ [l]) (xs ++ [x]) nx <->
  dseg m p ls xs (Some l) /\ m !! l = Some (Node x (llast p ls) nx).
Proof.
  revert p xs. induction ls as [|k ls IH]; intros p [|y xs]; simpl.
  - unfold llast. simpl. naive_solver.
  - split; [intros [_ H]; by destruct xs|naive_solver].
  - split; [intros [_ H]; by destruct ls|naive_solver].
  - rewrite IH. replace (lhead (ls ++ [l]) nx) with (lhead ls (Some l)) by (by destruct ls).
    replace (llast p (k :: ls)) with (llast (Some k) ls); [naive_solver|].
    unfold llast. rewrite last_cons. by destruct (last ls).
Qed.

Lemma dseg_elem m p ls xs nx l : dseg m p ls xs nx -> l ∈ ls -> is_Some (m !! l).
Proof.
  revert p xs. induction ls as [|k ls IH]; intros p [|x xs]; simpl; try done; [by intros _ ?%not_elem_of_nil|].
  intros [Hk Hs] [->|Hl]%elem_of_cons; [by eexists|by eapply IH].
Qed.

(** Changing the link at the start, and that at the end. *)
Lemma dseg_prev m p p' l ls x xs nx : NoDup (l :: ls) -> dseg m p (l :: ls) (x :: xs) nx ->
  dseg (<[l := Node x p' (lhead ls nx)]> m) p' (l :: ls) (x :: xs) nx.
Proof.
  intros [Hn _]%NoDup_cons [Hl Hs]. split; [apply lookup_insert_eq|].
  eapply dseg_ext; [|done]. intros k Hk. apply lookup_insert_ne. naive_solver.
Qed.

Lemma dseg_next m p ls l xs x nx nx' : NoDup (ls ++ [l]) -> dseg m p (ls ++ [l]) (xs ++ [x]) nx ->
  dseg (<[l := Node x (llast p ls) nx']> m) p (ls ++ [l]) (xs ++ [x]) nx'.
Proof.
  rewrite !dseg_snoc. intros (_ & Hn & _)%NoDup_app [Hs Hl]. split; [|apply lookup_insert_eq].
  eapply dseg_ext; [|done]. intros k Hk. apply lookup_insert_ne. intros ->. apply (Hn k Hk). by left.
Qed.

Lemma rep_fresh h l ls xs : rep h l ls xs -> h_brk h ∉ ls.
Proof.
  intros [Hs _ _ _ _ Hh] Hin. destruct (dseg_elem _ _ _ _ _ _ Hs Hin) as [v Hv].
  specialize (Hh _ (ex_intro _ v Hv)). lia.
Qed.

Lemma rep_new h : heap_ok h -> rep h list_new [] [].
Proof. intros Hh. split; try done. constructor. Qed.

Lemma node_at_Some h l v : h_nodes h !! l = Some v -> node_at h (Some l) = Ok (l, v).
Proof. intros H. unfold node_at. simpl. by rewrite H. Qed.

Lemma node_make_ok h t c : thing_copy t = Ok c ->
  node_make h t = Ok (Some (h_brk h), Heap (<[h_brk h := Node c None None]> (h_nodes h)) (Pos.succ (h_brk h))).
Proof.
  intros Hc. unfold node_make, node_new, node_set_thing, node_set_prev, node_set_next, node_put.
  change (thing_copy None) with (@Ok thing None).
  repeat (erewrite node_at_Some by apply lookup_insert_eq; cbn [mbind ub_bind data prev next h_nodes h_brk]).
  rewrite Hc. cbn [mbind ub_bind]. by rewrite !insert_insert_eq.
Qed.

Lemma heap_ok_insert h l v : heap_ok h -> (l <= h_brk h)%positive ->
  heap_ok (Heap (<[l := v]> (h_nodes h)) (Pos.succ (h_brk h))).
Proof.
  intros Hh Hl k. simpl. destruct (decide (k = l)) as [->|Hn]; [lia|].
  rewrite lookup_insert_ne by done. intros Hk%Hh. lia.
Qed.

Lemma heap_ok_alter h l v : heap_ok h -> is_Some (h_nodes h !! l) -> heap_ok (node_put h l v).
Proof.
  intros Hh Hl k. simpl. destruct (decide (k = l)) as [->|Hn]; [auto|].
  rewrite lookup_insert_ne by done. apply Hh.
Qed.

Lemma heap_ok_delete h l : heap_ok h -> heap_ok (Heap (delete l (h_nodes h)) (h_brk h)).
Proof.
  intros Hh k. simpl. destruct (decide (k = l)) as [->|Hn]; [rewrite lookup_delete_eq; by intros [? ?]|].
  rewrite lookup_delete_ne by done. apply Hh.
Qed.

Lemma lsnoc {A} (l : list A) : l = [] \/ exists l0 x, l = l0 ++ [x].
Proof. destruct l as [|x l] using rev_ind; [by left|right; eauto]. Qed.

Lemma llast_snoc p ls l : llast p (ls ++ [l]) = Some l.
Proof. unfold llast. by rewrite last_snoc. Qed.

Lemma lhead_snoc ls l nx : exists k, lhead (ls ++ [l]) nx = Some k.
Proof. destruct ls; simpl; eauto. Qed.

Lemma u64_S n : u64 (u64 (Z.of_nat n) + 1) = u64 (Z.of_nat (S n)).
Proof. rewrite uN_add_l. f_equal. lia. Qed.

Lemma u64_P n : u64 (u64 (Z.of_nat (S n)) - 1) = u64 (Z.of_nat n).
Proof. rewrite uN_sub_l. f_equal. lia. Qed.

Lemma append_ok h l ls xs t c : rep h l ls xs -> thing_copy t = Ok c ->
  exists h' l', list_append h l t = Ok (h', l') /\ rep h' l' (ls ++ [h_brk h]) (xs ++ [c]) /\
    frame ls h h' /\ h_brk h' = Pos.succ (h_brk h).
Proof.
  intros Hr Hc. pose proof (rep_fresh _ _ _ _ Hr) as Hf. destruct Hr as [Hs Hh Ht Hz Hn Hok].
  unfold list_append. rewrite (node_make_ok _ _ _ Hc), Hh, Hz. cbn [mbind ub_bind].
  set (b := h_brk h) in *. set (m1 := <[b := Node c None None]> (h_nodes h)).
  assert (Hs1 : dseg m1 None ls xs None)
    by (eapply dseg_ext; [|exact Hs]; intros k Hk; apply lookup_insert_ne; naive_solver).
  assert (Hlen : u64 (u64 (Z.of_nat (length xs)) + 1) = u64 (Z.of_nat (length (xs ++ [c]))))
    by (rewrite u64_S, length_app; f_equal; simpl; lia).
  assert (Hnd : NoDup (ls ++ [b])) by (apply NoDup_app; split; [done|split; [|apply NoDup_singleton]];
    intros k Hk ->%list_elem_of_singleton; done).
  destruct (lsnoc ls) as [->|(ls0 & k & ->)].
  - destruct xs; [|done]. cbn [lhead app]. do 2 eexists. split; [done|]. split; [|split; [|done]].
    + split; try done; cbn [h_nodes]; [|by apply heap_ok_insert].
      split; [apply lookup_insert_eq|done].
    + intros i _ Hi. apply lookup_insert_ne. lia.
  - destruct (lsnoc xs) as [->|(xs0 & x & ->)]; [apply dseg_length in Hs; rewrite length_app in Hs; simpl in Hs; lia|].
    pose proof (dseg_next _ _ _ _ _ _ _ (Some b) Hn Hs1) as Hs2.
    apply dseg_snoc in Hs1 as [_ Hk]. rewrite Ht, llast_snoc.
    destruct (lhead_snoc ls0 k None) as [k0 Hk0]. rewrite Hk0. cbv iota.
    assert (k <> b) by (intros ->; apply Hf, elem_of_app; right; by left).
    unfold node_set_next, node_set_prev, node_put. erewrite node_at_Some by exact Hk.
    cbn [mbind ub_bind data prev next h_nodes h_brk].
    erewrite node_at_Some by (cbn [h_nodes]; rewrite lookup_insert_ne by done; apply lookup_insert_eq).
    cbn [mbind ub_bind data prev next h_nodes h_brk]. do 2 eexists. split; [done|]. split; [|split; [|done]].
    + split; cbn [h_nodes head_ tail_ size_]; [|rewrite <- Hk0; by destruct ls0|by rewrite llast_snoc|done|done|].
      * apply dseg_snoc. rewrite llast_snoc. split; [|apply lookup_insert_eq].
        eapply dseg_ext; [|exact Hs2]. intros i Hi. apply lookup_insert_ne. intros ->. done.
      * intros i. cbn [h_nodes h_brk]. rewrite !lookup_insert_is_Some.
        assert (is_Some (h_nodes h !! k)) as Hks%Hok by (by eapply dseg_elem; [exact Hs|]; apply elem_of_app; right; left).
        fold b in Hks. intros [Hi|[_ [Hi|[_ H2]]]]; [lia|lia|].
        apply lookup_insert_is_Some in H2 as [Hi|[_ H2%Hok]]; unfold b in *; lia.
    + intros i Hi Hlt. cbn [h_nodes]. unfold m1. rewrite !lookup_insert_ne; [done|lia| |lia]. intros ->. apply Hi, elem_of_app. right. by left.
Qed.

Lemma prepend_ok h l ls xs t c : rep h l ls xs -> thing_copy t = Ok c ->
  exists h' l', list_prepend h l t = Ok (h', l') /\ rep h' l' (h_brk h :: ls) (c :: xs) /\
    frame ls h h' /\ h_brk h' = Pos.succ (h_brk h).
Proof.
  intros Hr Hc. pose proof (rep_fresh _ _ _ _ Hr) as Hf. destruct Hr as [Hs Hh Ht Hz Hn Hok].
  unfold list_prepend. rewrite (node_make_ok _ _ _ Hc), Hh, Hz. cbn [mbind ub_bind].
  set (b := h_brk h) in *. set (m1 := <[b := Node c None None]> (h_nodes h)).
  assert (Hs1 : dseg m1 None ls xs None)
    by (eapply dseg_ext; [|exact Hs]; intros k Hk; apply lookup_insert_ne; naive_solver).
  assert (Hok1 : heap_ok (Heap m1 (Pos.succ b))) by (by apply heap_ok_insert).
  assert (Hnd : NoDup (b :: ls)) by (by constructor).
  destruct ls as [|k ls], xs as [|x xs]; try done; cbn [lhead].
  - do 2 eexists. split; [done|]. split; [|split; [|done]].
    + split; try done. split; [apply lookup_insert_eq|done].
    + intros i _ Hi. apply lookup_insert_ne. lia.
  - pose proof (dseg_prev _ _ (Some b) _ _ _ _ _ Hn Hs1) as [_ Hs2]. destruct Hs1 as [Hk _].
    assert (k <> b) by (intros ->; apply Hf; by left).
    unfold node_set_prev, node_set_next. erewrite node_at_Some by exact Hk.
    cbn [mbind ub_bind data prev next].
    erewrite node_at_Some by (unfold node_put; cbn [h_nodes]; rewrite lookup_insert_ne by done; apply lookup_insert_eq).
    cbn [mbind ub_bind data prev next]. do 2 eexists. split; [done|]. split; [|split; [|done]].
    + split; cbn [head_ tail_ size_ lhead]; try done.
      * unfold node_put. cbn [h_nodes dseg lhead]. split; [apply lookup_insert_eq|].
        assert (b ∉ k :: ls) by done. split; [rewrite lookup_insert_ne by done; apply lookup_insert_eq|].
        eapply dseg_ext; [|exact Hs2]. intros i Hi. apply lookup_insert_ne. set_solver.
      * by rewrite u64_S.
      * apply heap_ok_alter; [apply heap_ok_alter; [done|by eexists]|]. unfold node_put. cbn [h_nodes].
        rewrite lookup_insert_ne by done. eexists. apply lookup_insert_eq.
    + intros i Hi Hlt. unfold node_put. cbn [h_nodes]. unfold m1. rewrite !lookup_insert_ne; [done|lia|set_solver|lia].
Qed.

Lemma size_pos (xs : list thing) : 0 < Z.of_nat (length xs) < 2 ^ 64 -> (u64 (Z.of_nat (length xs)) =? 0) = false.
Proof. intros. rewrite uN_small by lia. apply Z.eqb_neq. lia. Qed.

Lemma top_ok h l ls k x xs : rep h l (k :: ls) (x :: xs) -> thing_copy x = Ok x ->
  Z.of_nat (length (x :: xs)) < 2 ^ 64 ->
  exists h' l', list_top h l = Ok (x, h', l') /\ rep h' l' ls xs /\
    frame (k :: ls) h h' /\ h_brk h' = h_brk h /\ h_nodes h' !! k = None.
Proof.
  intros [Hs Hh Ht Hz Hn Hok] Hc Hlen. unfold list_top. rewrite Hz, size_pos by (simpl in *; lia). rewrite Hh.
  destruct Hs as [Hk Hs]. cbn [lhead]. unfold node_get_thing, node_get_next.
  rewrite (node_at_Some _ _ _ Hk). cbn [mbind ub_bind data next]. rewrite Hc. cbn [mbind ub_bind].
  apply NoDup_cons in Hn as Hn'. destruct Hn' as [Hkl Hnl].
  assert (Hsz : u64 (u64 (Z.of_nat (length (x :: xs))) - 1) = u64 (Z.of_nat (length xs))) by apply u64_P.
  destruct ls as [|k2 ls], xs as [|x2 xs]; try done; cbn [lhead].
  - cbn [mbind ub_bind]. rewrite (node_at_Some _ _ _ Hk). cbn [mbind ub_bind next].
    unfold node_destroy. rewrite (node_at_Some _ _ _ Hk). cbn [mbind ub_bind lhead tail_ size_].
    do 2 eexists. split; [done|]. split; [|split; [|split; [done|apply lookup_delete_eq]]].
    + split; try done; by apply heap_ok_delete.
    + intros i Hi _. apply lookup_delete_ne. set_solver.
  - pose proof (dseg_prev _ _ None _ _ _ _ _ Hnl Hs) as Hs2. destruct Hs as [Hk2 _].
    assert (k <> k2) by (intros ->; apply Hkl; by left).
    unfold node_set_prev. rewrite (node_at_Some _ _ _ Hk2). cbn [mbind ub_bind data next].
    assert (Hk' : h_nodes (node_put h k2 (Node x2 None (lhead ls None))) !! k = Some (Node x None (Some k2)))
      by (unfold node_put; cbn [h_nodes]; by rewrite lookup_insert_ne).
    rewrite (node_at_Some _ _ _ Hk'). cbn [mbind ub_bind next]. unfold node_destroy.
    rewrite (node_at_Some _ _ _ Hk'). cbn [mbind ub_bind tail_ size_].
    do 2 eexists. split; [done|]. split; [|split; [|split; [done|apply lookup_delete_eq]]].
    + split; cbn [head_ tail_ size_]; try done.
      * eapply dseg_ext; [|exact Hs2]. intros i Hi. cbn [h_nodes]. rewrite lookup_delete_ne by set_solver. done.
      * by rewrite Hz.
      * apply heap_ok_delete, heap_ok_alter; [done|by eexists].
    + intros i Hi _. cbn [h_nodes]. rewrite lookup_delete_ne by set_solver. unfold node_put. cbn [h_nodes].
      apply lookup_insert_ne. set_solver.
Qed.

Lemma bottom_ok h l ls k x xs : rep h l (ls ++ [k]) (xs ++ [x]) -> thing_copy x = Ok x ->
  Z.of_nat (length (xs ++ [x])) < 2 ^ 64 ->
  exists h' l', list_bottom h l = Ok (x, h', l') /\ rep h' l' ls xs /\
    frame (ls ++ [k]) h h' /\ h_brk h' = h_brk h /\ h_nodes h' !! k = None.
Proof.
  intros [Hs Hh Ht Hz Hn Hok] Hc Hlen. pose proof Hlen as Hlen'. rewrite length_app in Hlen'. simpl in Hlen'.
  unfold list_bottom. rewrite Hz, size_pos by (rewrite length_app; simpl; lia). rewrite Ht, llast_snoc.
  pose proof Hs as Hsk. apply dseg_snoc in Hsk as [Hs0 Hk]. unfold node_get_thing, node_get_prev.
  rewrite (node_at_Some _ _ _ Hk). cbn [mbind ub_bind data prev]. rewrite Hc. cbn [mbind ub_bind].
  pose proof Hn as Hn'. apply NoDup_app in Hn' as (Hnl & Hkl & _).
  assert (Hsz : u64 (u64 (Z.of_nat (length (xs ++ [x]))) - 1) = u64 (Z.of_nat (length xs)))
    by (rewrite length_app, Nat.add_1_r; apply u64_P).
  destruct (lsnoc ls) as [->|(ls0 & k2 & ->)].
  - destruct xs; [|done]. unfold llast at 1. cbn [last mbind ub_bind]. rewrite (node_at_Some _ _ _ Hk).
    cbn [mbind ub_bind prev]. unfold node_destroy. rewrite (node_at_Some _ _ _ Hk). cbn [mbind ub_bind head_ size_].
    do 2 eexists. split; [done|]. split; [|split; [|split; [done|apply lookup_delete_eq]]].
    + split; try done; by apply heap_ok_delete.
    + intros i Hi _. apply lookup_delete_ne. set_solver.
  - destruct (lsnoc xs) as [->|(xs0 & x2 & ->)];
      [apply dseg_length in Hs0; rewrite length_app in Hs0; simpl in Hs0; lia|].
    pose proof (dseg_next _ _ _ _ _ _ _ None Hnl Hs0) as Hs2. apply dseg_snoc in Hs0 as [_ Hk2].
    assert (k <> k2) by (intros ->; apply (Hkl k2); [apply elem_of_app; right|]; by left).
    rewrite llast_snoc in Hk |- *. cbv iota. unfold node_set_next. rewrite (node_at_Some _ _ _ Hk2).
    cbn [mbind ub_bind data prev].
    assert (Hk' : h_nodes (node_put h k2 (Node x2 (llast None ls0) None)) !! k = Some (Node x (Some k2) None))
      by (unfold node_put; cbn [h_nodes]; by rewrite lookup_insert_ne).
    rewrite (node_at_Some _ _ _ Hk'). cbn [mbind ub_bind prev]. unfold node_destroy.
    rewrite (node_at_Some _ _ _ Hk'). cbn [mbind ub_bind head_ size_].
    do 2 eexists. split; [done|]. split; [|split; [|split; [done|apply lookup_delete_eq]]].
    + split; cbn [head_ tail_ size_]; try done.
      * eapply dseg_ext; [|exact Hs2]. intros i Hi. cbn [h_nodes]. rewrite lookup_delete_ne; [done|].
        intros ->. apply (Hkl i Hi). by left.
      * rewrite Hh. by destruct ls0.
      * by rewrite llast_snoc.
      * by rewrite Hz.
      * apply heap_ok_delete, heap_ok_alter; [done|by eexists].
    + intros i Hi _. cbn [h_nodes]. rewrite lookup_delete_ne by set_solver. unfold node_put. cbn [h_nodes].
      apply lookup_insert_ne. set_solver.
Qed.

Lemma empty_ok h l : rep h l [] [] -> list_top h l = Ok (None, h, l) /\ list_bottom h l = Ok (None, h, l).
Proof. intros [_ _ _ Hz _ _]. unfold list_top, list_bottom. by rewrite Hz. Qed.

(** Destroying a list removes its nodes and no other. *)
Lemma destroy_loop_ok fuel h p ls xs : dseg (h_nodes h) p ls xs None -> NoDup ls -> (length ls <= fuel)%nat ->
  exists h', list_destroy_h fuel h (lhead ls None) = Ok h' /\ h_brk h' = h_brk h /\
    (forall k, k ∈ ls -> h_nodes h' !! k = None) /\ (forall k, k ∉ ls -> h_nodes h' !! k = h_nodes h !! k).
Proof.
  revert fuel p xs. induction ls as [|l ls IH]; intros fuel p [|x xs] Hs Hn Hf; try done.
  - exists h. split; [by destruct fuel|]. split; [done|]. split; [by intros k ?%not_elem_of_nil|done].
  - destruct fuel as [|fuel]; [simpl in Hf; lia|]. simpl in Hf, Hs. destruct Hs as [Hl Hs].
    apply NoDup_cons in Hn as [Hnl Hn]. destruct (IH fuel _ _ Hs Hn ltac:(lia)) as (h1 & H1 & Hb & Hin & Hout).
    cbn [list_destroy_h lhead]. unfold node_get_next. rewrite (node_at_Some _ _ _ Hl). cbn [mbind ub_bind next].
    rewrite H1. cbn [mbind ub_bind]. unfold node_destroy.
    rewrite (node_at_Some _ _ _ (eq_trans (Hout l Hnl) Hl)). cbn [mbind ub_bind]. eexists. split; [done|].
    split; [done|]. cbn [h_nodes]. split.
    + intros k Hk. destruct (decide (k = l)) as [->|Hne]; [apply lookup_delete_eq|].
      rewrite lookup_delete_ne by done. apply Hin. set_solver.
    + intros k Hk. rewrite lookup_delete_ne by set_solver. apply Hout. set_solver.
Qed.

(** ** The abstract list *)

Inductive lop := Append (s : string) | Prepend (s : string) | Top | Bottom.

Definition run_op (op : lop) (h : heap) (l : list_) : ub (thing * heap * list_) :=
  match op with
  | Append s => '(h', l') ← list_append h l (Some s); Ok (None, h', l')
  | Prepend s => '(h', l') ← list_prepend h l (Some s); Ok (None, h', l')
  | Top => list_top h l
  | Bottom => list_bottom h l
  end.

Fixpoint run_ops (ops : list lop) (h : heap) (l : list_) : ub (list thing * heap * list_) :=
  match ops with
  | [] => Ok ([], h, l)
  | op :: ops' =>
      '(t, h1, l1) ← run_op op h l;
      '(ts, h2, l2) ← run_ops ops' h1 l1;
      Ok (t :: ts, h2, l2)
  end.

Definition spec_op (op : lop) (xs : list string) : thing * list string :=
  match op with
  | Append s => (None, xs ++ [clean s])
  | Prepend s => (None, clean s :: xs)
  | Top => (head xs, tail xs)
  | Bottom => (last xs, removelast xs)
  end.

Fixpoint spec_ops (ops : list lop) (xs : list string) : list thing * list string :=
  match ops with
  | [] => ([], xs)
  | op :: ops' => let '(t, xs1) := spec_op op xs in let '(ts, xs2) := spec_ops ops' xs1 in (t :: ts, xs2)
  end.

(** A string that [thing_clean] works on and leaves something of. *)
Definition storable (s : string) : bool := no_nul s && cleanable s && negb (String.eqb (clean s) "").

Definition op_ok (op : lop) : bool :=
  match op with Append s | Prepend s => storable s | Top | Bottom => true end.

Lemma storable_copy s : storable s = true ->
  thing_copy (Some s) = Ok (Some (clean s)) /\ is_clean (clean s) = true.
Proof.
  unfold storable. rewrite !andb_true_iff, negb_true_iff, String.eqb_neq. intros [[Hn Hc] He].
  unfold thing_copy. rewrite thing_clean_eq, Hc by done. split; [done|by apply clean_is_clean].
Qed.

(** The list holds [xs], and the heap is [h0] and its nodes. *)
Record holds (h0 h : heap) (l : list_) (xs : list string) : Prop := Holds {
  holds_ls : list loc;
  holds_rep : rep h l holds_ls (Some <$> xs);
  holds_clean : Forall (fun s => is_clean s = true) xs;
  holds_rest : forall k, k ∉ holds_ls -> h_nodes h !! k = h_nodes h0 !! k;
  holds_new : forall k, k ∈ holds_ls -> (h_brk h0 <= k)%positive;
  holds_brk : (h_brk h0 <= h_brk h)%positive;
  holds_h0 : heap_ok h0;
}.

Lemma holds_start h : heap_ok h -> holds h h list_new [].
Proof.
  intros Hh. apply (Holds _ _ _ _ []); try done; [by apply rep_new|by intros ? ?%not_elem_of_nil].
Qed.

Lemma heap_ok_None h k : heap_ok h -> (h_brk h <= k)%positive -> h_nodes h !! k = None.
Proof.
  intros Hh Hk. destruct (h_nodes h !! k) eqn:E; [|done].
  specialize (Hh k (ex_intro _ _ E)). lia.
Qed.

(** What an operation that takes the node [k] out does. *)
Lemma holds_taken h0 h h' l' ls ls' k xs xs' :
  (forall i, i ∉ ls -> h_nodes h !! i = h_nodes h0 !! i) -> (forall i, i ∈ ls -> (h_brk h0 <= i)%positive) ->
  (h_brk h0 <= h_brk h)%positive -> heap_ok h0 -> heap_ok h ->
  rep h' l' ls' (Some <$> xs') -> frame ls h h' -> h_brk h' = h_brk h -> h_nodes h' !! k = None ->
  (forall i, i ∈ ls <-> i = k \/ i ∈ ls') -> Forall (fun s => is_clean s = true) xs ->
  (forall s, s ∈ xs' -> s ∈ xs) -> holds h0 h' l' xs'.
Proof.
  intros Hrest Hnew Hb H0 Hh Hr Hf Hb' Hk Hls Hc Hxs. apply (Holds _ _ _ _ ls'); [done|..|done].
  - rewrite Forall_forall in Hc |- *. intros s Hs. by apply Hc, Hxs.
  - intros i Hi. destruct (decide (i = k)) as [->|Hne].
    + rewrite Hk. symmetry. apply heap_ok_None; [done|]. apply Hnew, Hls. by left.
    + assert (i ∉ ls) as Hil by (rewrite Hls; naive_solver). rewrite <- Hrest by done.
      destruct (decide (i = h_brk h)) as [->|]; [|by apply Hf].
      rewrite (heap_ok_None h) by (done || lia). apply heap_ok_None; [apply Hr|lia].
  - intros i Hi. apply Hnew, Hls. by right.
  - lia.
Qed.

(** What an operation that puts a new node in does. *)
Lemma holds_put h0 h h' l' ls ls' xs xs' :
  (forall i, i ∉ ls -> h_nodes h !! i = h_nodes h0 !! i) -> (forall i, i ∈ ls -> (h_brk h0 <= i)%positive) ->
  (h_brk h0 <= h_brk h)%positive -> heap_ok h0 ->
  rep h' l' ls' (Some <$> xs') -> frame ls h h' -> h_brk h' = Pos.succ (h_brk h) ->
  (forall i, i ∈ ls' <-> i = h_brk h \/ i ∈ ls) -> Forall (fun s => is_clean s = true) xs ->
  (forall s, s ∈ xs' -> s ∈ xs \/ is_clean s = true) -> holds h0 h' l' xs'.
Proof.
  intros Hrest Hnew Hb H0 Hr Hf Hb' Hls Hc Hxs. apply (Holds _ _ _ _ ls'); [done|..|done].
  - rewrite Forall_forall in Hc |- *. intros s Hs. destruct (Hxs s Hs); auto.
  - intros i Hi. rewrite Hls in Hi. rewrite <- Hrest by naive_solver. apply Hf; naive_solver.
  - intros i [->|Hi]%Hls; [done|by apply Hnew].
  - lia.
Qed.

Lemma elem_snoc {A} (i x : A) l : i ∈ l ++ [x] <-> i = x \/ i ∈ l.
Proof. rewrite elem_of_app, list_elem_of_singleton. tauto. Qed.

Lemma op_holds h0 h l xs op : holds h0 h l xs -> op_ok op = true -> Z.of_nat (length xs) < 2 ^ 64 ->
  exists h' l', run_op op h l = Ok ((spec_op op xs).1, h', l') /\ holds h0 h' l' (spec_op op xs).2.
Proof.
  intros [ls Hr Hc Hrest Hnew Hb H0] Hop Hlen. destruct op as [s|s| |]; cbn [run_op spec_op op_ok fst snd] in *.
  - destruct (storable_copy s Hop) as [Hs Hcl].
    destruct (append_ok _ _ _ _ _ _ Hr Hs) as (h' & l' & -> & Hr' & Hf & Hb'). cbn [mbind ub_bind].
    do 2 eexists. split; [done|]. eapply (holds_put h0 h h' l' ls (ls ++ [h_brk h]) xs); try done.
    + rewrite fmap_app. exact Hr'.
    + intros i. by rewrite elem_snoc.
    + intros s' [->|Hs']%elem_snoc; auto.
  - destruct (storable_copy s Hop) as [Hs Hcl].
    destruct (prepend_ok _ _ _ _ _ _ Hr Hs) as (h' & l' & -> & Hr' & Hf & Hb'). cbn [mbind ub_bind].
    do 2 eexists. split; [done|]. eapply (holds_put h0 h h' l' ls (h_brk h :: ls) xs); try done.
    + intros i. by rewrite elem_of_cons.
    + intros s' [->|Hs']%elem_of_cons; auto.
  - destruct xs as [|x xs].
    { pose proof (dseg_length _ _ _ _ _ (rep_seg _ _ _ _ Hr)) as Hl. destruct ls; [|done].
      destruct (empty_ok _ _ Hr) as [-> _]. do 2 eexists. split; [done|]. by apply (Holds _ _ _ _ []). }
    pose proof (dseg_length _ _ _ _ _ (rep_seg _ _ _ _ Hr)) as Hl. destruct ls as [|k ls]; [done|].
    apply Forall_cons in Hc as Hc'. destruct Hc' as [Hx _].
    destruct (top_ok _ _ _ _ _ _ Hr (thing_clean_id x Hx)) as (h' & l' & -> & Hr' & Hf & Hb' & Hk);
      [rewrite <- (length_fmap Some (x :: xs)) in Hlen; exact Hlen|].
    do 2 eexists. split; [done|]. eapply (holds_taken h0 h h' l' (k :: ls) ls k (x :: xs)); try done.
    + apply Hr.
    + intros i. by rewrite elem_of_cons.
    + intros s Hs. by right.
  - destruct (lsnoc xs) as [->|(xs0 & x & ->)].
    { pose proof (dseg_length _ _ _ _ _ (rep_seg _ _ _ _ Hr)) as Hl. destruct ls; [|done].
      destruct (empty_ok _ _ Hr) as [_ ->]. do 2 eexists. split; [done|]. by apply (Holds _ _ _ _ []). }
    pose proof (dseg_length _ _ _ _ _ (rep_seg _ _ _ _ Hr)) as Hl. rewrite fmap_app in Hr, Hl.
    destruct (lsnoc ls) as [->|(ls0 & k & ->)]; [rewrite length_app in Hl; simpl in Hl; lia|].
    pose proof Hc as Hc'. apply Forall_app in Hc' as [_ Hx]. apply Forall_cons in Hx as [Hx _].
    rewrite last_snoc, removelast_last.
    destruct (bottom_ok _ _ _ _ _ _ Hr (thing_clean_id x Hx)) as (h' & l' & -> & Hr' & Hf & Hb' & Hk);
      [rewrite <- (length_fmap Some (xs0 ++ [x])), fmap_app in Hlen; exact Hlen|].
    do 2 eexists. split; [done|]. eapply (holds_taken h0 h h' l' (ls0 ++ [k]) ls0 k (xs0 ++ [x])); try done.
    + apply Hr.
    + intros i. by rewrite elem_snoc.
    + intros s Hs. apply elem_snoc. by right.
Qed.

Lemma spec_op_length op xs : (length (spec_op op xs).2 <= S (length xs))%nat.
Proof.
  destruct op; simpl; rewrite ?length_app; simpl; try lia; [destruct xs; simpl; lia|].
  destruct (lsnoc xs) as [->|(xs0 & x & ->)]; [simpl; lia|]. rewrite removelast_last, length_app. lia.
Qed.

Lemma ops_hold h0 ops h l xs : holds h0 h l xs -> forallb op_ok ops = true ->
  Z.of_nat (length xs + length ops) < 2 ^ 64 ->
  exists h' l', run_ops ops h l = Ok ((spec_ops ops xs).1, h', l') /\ holds h0 h' l' (spec_ops ops xs).2.
Proof.
  revert h l xs. induction ops as [|op ops IH]; intros h l xs Hh Ho Hlen; simpl in *; [by exists h, l|].
  apply andb_true_iff in Ho as [Hop Ho].
  destruct (op_holds h0 h l xs op Hh Hop) as (h1 & l1 & -> & Hh1); [lia|].
  pose proof (spec_op_length op xs) as Hle. destruct (spec_op op xs) as [t xs1]. cbn [mbind ub_bind fst snd] in *.
  destruct (IH h1 l1 xs1 Hh1 Ho) as (h2 & l2 & -> & Hh2); [lia|].
  destruct (spec_ops ops xs1) as [ts xs2]. cbn [mbind ub_bind fst snd] in *. by exists h2, l2.
Qed.

Lemma destroy_holds h0 h l xs : holds h0 h l xs ->
  exists h', list_destroy h l = Ok h' /\ h_nodes h' = h_nodes h0.
Proof.
  intros [ls Hr Hc Hrest Hnew Hb H0]. unfold list_destroy. rewrite (rep_head _ _ _ _ Hr).
  assert (Hsize : (length ls <= size (h_nodes h))%nat).
  { rewrite <- size_dom, <- (size_list_to_set (C := gset loc)) by apply Hr. apply subseteq_size.
    intros k Hk%elem_of_list_to_set. apply elem_of_dom. eapply dseg_elem; [apply Hr|done]. }
  destruct (destroy_loop_ok (size (h_nodes h)) h None ls _ (rep_seg _ _ _ _ Hr) (rep_nodup _ _ _ _ Hr) Hsize)
    as (h' & -> & _ & Hin & Hout). exists h'. split; [done|]. apply map_eq. intros k.
  destruct (decide (k ∈ ls)) as [Hk|Hk]; [|by rewrite Hout, Hrest].
  rewrite Hin by done. symmetry. apply heap_ok_None; [done|by apply Hnew].
Qed.

(** C13: Any sequence of the operations of a list gives what it gives on a sequence of
    strings (what is stored is cleaned, what is taken out is not changed), whatever
    else the heap has; and destroying the list then leaves exactly what the heap had. *)
Theorem list_refines h ops : heap_ok h -> forallb op_ok ops = true -> Z.of_nat (length ops) < 2 ^ 64 ->
  exists h1 l h2, run_ops ops h list_new = Ok ((spec_ops ops []).1, h1, l) /\
    list_size l = Z.of_nat (length (spec_ops ops []).2) /\
    list_destroy h1 l = Ok h2 /\ h_nodes h2 = h_nodes h.
Proof.
  intros Hh Ho Hlen. destruct (ops_hold h ops h list_new [] (holds_start h Hh) Ho Hlen) as (h1 & l & Hrun & Hholds).
  destruct (destroy_holds _ _ _ _ Hholds) as (h2 & Hd & Heq). exists h1, l, h2.
  split; [done|]. split; [|done]. destruct Hholds as [ls Hr _ _ _ _ _]. unfold list_size.
  rewrite (rep_size _ _ _ _ Hr), length_fmap. apply uN_small. split; [lia|].
  cut (length (spec_ops ops []).2 <= length ops)%nat; [lia|].
  change (length ops) with (length (@nil string) + length ops)%nat. generalize (@nil string). clear.
  induction ops as [|op ops IH]; intros xs; simpl; [lia|]. pose proof (spec_op_length op xs) as H.
  destruct (spec_op op xs) as [t xs1]. specialize (IH xs1). destruct (spec_ops ops xs1). simpl in *. lia.
Qed.

Lemma list_refines_witness :
  let h := Heap {[1%positive := Node None None None]} 2 in
  let ops := [Append "a  b"; Prepend "c"; Append " d  "; Bottom; Top; Top; Top]%string in
  forallb op_ok ops = true /\
  exists h1 l h2, run_ops ops h list_new =
      Ok ([None; None; None; Some "d"; Some "c"; Some "a b"; None]%string, h1, l) /\
    list_size l = 0 /\ list_destroy h1 l = Ok h2 /\ h_nodes h2 = h_nodes h.
Proof.
  intros h ops. split; [vm_compute; reflexivity|]. refine (list_refines h ops _ _ _).
  - intros k [v Hk]. unfold h in Hk. cbn [h_nodes] in Hk. apply lookup_singleton_Some in Hk as [<- _]. vm_compute. reflexivity.
  - vm_compute. reflexivity.
  - vm_compute. reflexivity.
Defined.

(** ** Queues as text *)

Fixpoint join (d : ascii) (xs : list string) : string :=
  match xs with [] => "" | [x] => x | x :: xs' => (x ++ String d (join d xs'))%string end.

(** The pieces of a text between the bytes [d], the first of which starts with [f]. *)
Fixpoint fields_from (d : ascii) (f s : string) : list string :=
  match s with
  | EmptyString => [f]
  | String c s' => if Ascii.eqb c d then f :: fields_from d "" s' else fields_from d (f ++ String c "") s'
  end.
Definition nonempty (s : string) : bool := 0 <? strlen s.
Definition fields (d : ascii) (s : string) : list string := List.filter nonempty (fields_from d "" s).

Fixpoint enqueue_all (h : heap) (q : queue) (xs : list string) : ub (heap * queue) :=
  match xs with
  | [] => Ok (h, q)
  | x :: xs' => '(h', q') ← queue_enqueue h q (Some x); enqueue_all h' q' xs'
  end.

(** A turn that ends the piece [f]. *)
Lemma to_queue_cut n h q pre f c b d i : no_nul f = true -> (Ascii.eqb c d || Ascii.eqb c NUL) = true ->
  i = Z.of_nat (length pre + String.length f) ->
  to_queue_loop (S n) h q (pre ++ bytes f ++ c :: b) d (Z.of_nat (length pre)) i (Z.of_nat (String.length f) - 1) =
  ('(h', q') ← enqueue_all h q (List.filter nonempty [f]);
   to_queue_loop n h' q' ((pre ++ bytes f ++ [NUL]) ++ b) d (i + 1) (i + 1) (-1)).
Proof.
  intros Hn Hc ->. cbn [to_queue_loop].
  replace (Z.of_nat (length pre) + (Z.of_nat (String.length f) - 1 + 1)) with (Z.of_nat (length (pre ++ bytes f)))
    by (rewrite length_app, bytes_length; lia).
  rewrite !(app_assoc pre), mem_get_app. cbn [mbind ub_bind]. rewrite Hc, array_set_app. cbn [mbind ub_bind].
  rewrite Nat2Z.id, <- app_assoc, drop_app_length, mem_string_bytes by done. cbn [mbind ub_bind List.filter].
  fold (nonempty f). rewrite <- !app_assoc. cbn [app]. destruct (nonempty f); cbn [enqueue_all]; [|done].
  by destruct (queue_enqueue h q (Some f)) as [[h1 q1]|].
Qed.

(** The loop from the position of [r] on: the last turn looks at the byte behind the
    terminator. *)
Lemma to_queue_loop_spec d tl r pre f : no_nul f = true -> no_nul r = true ->
  exists b', forall h q,
    to_queue_loop (String.length r + 2) h q (pre ++ bytes f ++ bytes r ++ NUL :: tl) d
      (Z.of_nat (length pre)) (Z.of_nat (length pre + String.length f)) (Z.of_nat (String.length f) - 1) =
    ('(h', q') ← enqueue_all h q (List.filter nonempty (fields_from d f r));
     match tl with [] => UB out_of_bounds | _ => Ok (h', q', b') end).
Proof.
  revert pre f. induction r as [|c r IH]; intros pre f Hf Hr.
  - cbn [String.length Nat.add bytes String.list_ascii_of_string app fields_from].
    set (pre' := pre ++ bytes f ++ [NUL]).
    exists (match tl with [] => [] | c0 :: tl =>
              pre' ++ (if Ascii.eqb c0 d || Ascii.eqb c0 NUL then NUL else c0) :: tl end). intros h q.
    rewrite to_queue_cut by (done || by rewrite orb_true_r). fold pre'.
    destruct (enqueue_all h q _) as [[h' q']|]; cbn [mbind ub_bind]; [|done]. cbn [to_queue_loop].
    replace (Z.of_nat (length pre + String.length f) + 1 + (-1 + 1)) with (Z.of_nat (length pre'))
      by (unfold pre'; rewrite !length_app, bytes_length; simpl; lia).
    destruct tl as [|c0 tl]; [unfold mem_get; rewrite (proj2 (Z.ltb_ge _ _)), Nat2Z.id, app_nil_r,
      lookup_ge_None_2 by lia; done|].
    rewrite mem_get_app. cbn [mbind ub_bind]. case_if; [|done]. rewrite array_set_app. cbn [mbind ub_bind].
    replace (Z.to_nat (Z.of_nat (length pre + String.length f) + 1)) with (length pre')
      by (unfold pre'; rewrite !length_app, bytes_length; simpl; lia).
    rewrite drop_app_length. done.
  - simpl in Hr. apply andb_true_iff in Hr as [Hc Hr]. apply negb_true_iff in Hc.
    change (bytes (String c r)) with (c :: bytes r). cbn [app fields_from String.length Nat.add].
    destruct (Ascii.eqb c d) eqn:Ecd.
    + destruct (IH (pre ++ bytes f ++ [NUL]) "" eq_refl Hr) as [b' Hb']. exists b'. intros h q.
      rewrite to_queue_cut by (done || by rewrite Ecd). cbn [List.filter].
      destruct (nonempty f); cbn [enqueue_all mbind ub_bind].
      1: destruct (queue_enqueue h q (Some f)) as [[h1 q1]|]; cbn [mbind ub_bind]; [|done].
      all: rewrite <- Hb'; f_equal; rewrite !length_app, bytes_length; simpl; lia.
    + destruct (IH pre (f ++ String c "")%string) as [b' Hb'];
        [by rewrite no_nul_app, Hf; simpl; rewrite Hc|done|]. exists b'. intros h q. rewrite <- Hb'.
      cbn [to_queue_loop].
      replace (Z.of_nat (length pre) + (Z.of_nat (String.length f) - 1 + 1)) with (Z.of_nat (length (pre ++ bytes f)))
        by (rewrite length_app, bytes_length; lia).
      rewrite (app_assoc pre), mem_get_app. cbn [mbind ub_bind]. rewrite Ecd, Hc. cbn [orb].
      rewrite bytes_app, string_length_app, <- !app_assoc. cbn [bytes String.list_ascii_of_string app String.length].
      f_equal; lia.
Qed.

Lemma queue_to_queue_eq d tl s : no_nul s = true -> exists b', forall h,
  queue_to_queue h (bytes s ++ NUL :: tl) d =
  ('(h', q') ← enqueue_all h queue_init (fields d s);
   match tl with [] => UB out_of_bounds | _ => Ok (h', q', b') end).
Proof.
  intros Hs. destruct (to_queue_loop_spec d tl s [] "" eq_refl Hs) as [b' Hb']. exists b'. intros h.
  unfold queue_to_queue. rewrite mem_string_bytes by done. cbn [mbind ub_bind].
  replace (Z.to_nat (strlen s + 1 + 1)) with (String.length s + 2)%nat by (unfold strlen; lia).
  apply Hb'.
Qed.

Lemma enqueue_all_holds h0 h q ys xs : holds h0 h (q_l q) ys -> forallb storable xs = true ->
  Z.of_nat (length ys + length xs) < 2 ^ 64 ->
  exists h' q', enqueue_all h q xs = Ok (h', q') /\ holds h0 h' (q_l q') (ys ++ (clean <$> xs)).
Proof.
  revert h q ys. induction xs as [|x xs IH]; intros h q ys Hh Hx Hlen.
  { exists h, q. split; [done|]. by rewrite app_nil_r. }
  simpl in Hx, Hlen. apply andb_true_iff in Hx as [Hx Hxs].
  destruct (op_holds h0 h (q_l q) ys (Append x) Hh Hx) as (h1 & l1 & Hop & Hh1); [lia|].
  cbn [run_op] in Hop. cbn [enqueue_all]. unfold queue_enqueue.
  destruct (list_append h (q_l q) (Some x)) as [[h2 l2]|]; [|done]. cbn [mbind ub_bind] in *.
  injection Hop as -> ->. cbn [spec_op snd] in Hh1.
  destruct (IH h1 (Queue l1) (ys ++ [clean x]) Hh1 Hxs) as (h' & q' & -> & Hh'); [rewrite length_app; simpl; lia|].
  exists h', q'. split; [done|]. rewrite <- app_assoc in Hh'. exact Hh'.
Qed.

Lemma dequeue_holds h0 h q x xs : holds h0 h (q_l q) (x :: xs) -> Z.of_nat (length (x :: xs)) < 2 ^ 64 ->
  exists h' q', queue_dequeue h q = Ok (Some x, h', q') /\ holds h0 h' (q_l q') xs.
Proof.
  intros Hh Hlen. destruct (op_holds h0 h (q_l q) _ Top Hh eq_refl Hlen) as (h1 & l1 & Hop & Hh1).
  cbn [run_op spec_op fst snd] in *. unfold queue_dequeue. rewrite Hop. by exists h1, (Queue l1).
Qed.

Lemma queue_size_holds h0 h q xs : holds h0 h (q_l q) xs -> Z.of_nat (length xs) < 2 ^ 64 ->
  queue_size q = Z.of_nat (length xs).
Proof.
  intros [ls Hr _ _ _ _ _] Hlen. unfold queue_size, list_size. rewrite (rep_size _ _ _ _ Hr), length_fmap.
  apply uN_small. lia.
Qed.

Lemma thing_add_ok s a d : d <> NUL -> thing_add (Some s) (Some a) d = Ok (Some (s ++ String d a)%string).
Proof.
  intros Hd. unfold thing_add. cbn [deref mbind ub_bind]. unfold char_string.
  rewrite (proj2 (Ascii.eqb_neq _ _) Hd). unfold strcat, thing_size, strlen.
  rewrite !string_length_app. cbn [String.length].
  rewrite (proj2 (Z.leb_le _ _)) by lia. cbn [mbind ub_bind]. rewrite !string_length_app. cbn [String.length].
  rewrite (proj2 (Z.leb_le _ _)) by lia. cbn [mbind ub_bind]. by rewrite string_app_assoc.
Qed.

Lemma to_string_loop_ok h0 d xs h q s fuel : d <> NUL -> holds h0 h (q_l q) xs ->
  Z.of_nat (length xs) < 2 ^ 64 -> (length xs <= fuel)%nat ->
  exists h' q', to_string_loop fuel h q (Some s) d = Ok (Some (join d (s :: xs)), h', q') /\
    holds h0 h' (q_l q') [].
Proof.
  intros Hd. revert h q s fuel. induction xs as [|x xs IH]; intros h q s fuel Hh Hlen Hf;
    pose proof (queue_size_holds _ _ _ _ Hh Hlen) as Hz.
  - exists h, q. split; [|done]. destruct fuel; cbn [to_string_loop]; by rewrite Hz.
  - destruct fuel as [|fuel]; [simpl in Hf; lia|]. cbn [to_string_loop].
    rewrite (proj2 (Z.leb_gt _ _)) by (rewrite Hz; simpl; lia).
    destruct (dequeue_holds _ _ _ _ _ Hh Hlen) as (h1 & q1 & -> & Hh1). cbn [mbind ub_bind].
    rewrite thing_add_ok by done. cbn [mbind ub_bind]. simpl in Hlen, Hf.
    destruct (IH h1 q1 (s ++ String d x)%string fuel Hh1) as (h' & q' & -> & Hh'); [lia..|].
    exists h', q'. split; [|done]. do 3 f_equal. cbn [join]. destruct xs; [done|].
    by rewrite string_app_assoc.
Qed.

Lemma fields_from_app d f x s : (forall c, c ∈ bytes x -> c <> d) ->
  fields_from d f (x ++ String d s) = (f ++ x)%string :: fields_from d "" s /\ fields_from d f x = [(f ++ x)%string].
Proof.
  revert f. induction x as [|c x IH]; intros f Hx.
  - rewrite string_app_nil_r. change ("" ++ String d s)%string with (String d s). cbn [fields_from].
    by rewrite Ascii.eqb_refl.
  - change (String c x ++ ?r)%string with (String c (x ++ r)). cbn [fields_from].
    rewrite (proj2 (Ascii.eqb_neq c d)) by (apply Hx; left).
    destruct (IH (f ++ String c "")%string) as [-> ->]; [intros e He; apply Hx; by right|].
    by rewrite string_app_assoc.
Qed.

Lemma fields_join d xs : xs <> [] -> Forall (fun x => nonempty x = true /\ forall c, c ∈ bytes x -> c <> d) xs ->
  fields d (join d xs) = xs.
Proof.
  unfold fields. intros Hne Hx. induction Hx as [|x xs [Hx Hxd] Hxs IH]; [done|].
  destruct xs as [|y xs].
  - cbn [join]. rewrite (proj2 (fields_from_app d "" x "" Hxd)). cbn [List.filter].
    change ("" ++ x)%string with x. by rewrite Hx.
  - cbn [join]. rewrite (proj1 (fields_from_app d "" x _ Hxd)). cbn [List.filter].
    change ("" ++ x)%string with x. rewrite Hx. f_equal. by apply IH.
Qed.

Lemma is_clean_storable x : is_clean x = true -> storable x = true /\ clean x = x /\ nonempty x = true /\ no_nul x = true.
Proof.
  intros Hx. pose proof (thing_clean_id x Hx) as H. unfold is_clean in Hx. rewrite !andb_true_iff in Hx.
  destruct Hx as [[[He _] _] Hn]. rewrite thing_clean_eq in H by done. unfold storable.
  destruct (cleanable x) eqn:E; [|done]. injection H as H. rewrite H, Hn, He. split; [done|]. split; [done|].
  split; [|done]. destruct x; [done|]. unfold nonempty, strlen. apply Z.ltb_lt. simpl. lia.
Qed.

Lemma no_nul_join d xs : d <> NUL -> Forall (fun x => is_clean x = true) xs -> no_nul (join d xs) = true.
Proof.
  intros Hd Hx. induction Hx as [|x xs Hx Hxs IH]; [done|].
  destruct (is_clean_storable x Hx) as (_ & _ & _ & Hn). destruct xs as [|y xs]; [done|].
  change (join d (x :: y :: xs)) with (x ++ String d (join d (y :: xs)))%string.
  rewrite no_nul_app, Hn. simpl. by rewrite (proj2 (Ascii.eqb_neq _ _) Hd).
Qed.

Lemma clean_all xs : Forall (fun x => is_clean x = true) xs -> forallb storable xs = true /\ clean <$> xs = xs.
Proof.
  induction 1 as [|x xs Hx Hxs [IH1 IH2]]; [done|]. destruct (is_clean_storable x Hx) as (H1 & H2 & _).
  simpl. rewrite H1, H2. split; [done|]. by f_equal.
Qed.

Lemma to_queue_holds h d c tl xs : heap_ok h -> d <> NUL -> xs <> [] ->
  Forall (fun x => is_clean x = true /\ forall e, e ∈ bytes x -> e <> d) xs -> Z.of_nat (length xs) < 2 ^ 64 ->
  (exists h' q b, queue_to_queue h (bytes (join d xs) ++ NUL :: c :: tl) d = Ok (h', q, b) /\ holds h h' (q_l q) xs) /\
  queue_to_queue h (bytes (join d xs) ++ [NUL]) d = UB out_of_bounds.
Proof.
  intros Hh Hd Hne Hxs Hlen.
  assert (Hcl : Forall (fun x => is_clean x = true) xs) by (eapply Forall_impl; [exact Hxs|]; by intros ? []).
  pose proof (no_nul_join d xs Hd Hcl) as Hn. destruct (clean_all xs Hcl) as [Hst Hc].
  assert (Hf : fields d (join d xs) = xs).
  { apply fields_join; [done|]. eapply Forall_impl; [exact Hxs|]. intros x [Hx Hdx].
    by destruct (is_clean_storable x Hx) as (_ & _ & ? & _). }
  destruct (enqueue_all_holds h h queue_init [] xs (holds_start h Hh) Hst Hlen) as (h' & q' & He & Hq').
  rewrite Hc in Hq'. split.
  - destruct (queue_to_queue_eq d (c :: tl) _ Hn) as [b' Hb']. exists h', q', b'. rewrite Hb', Hf, He. done.
  - destruct (queue_to_queue_eq d [] _ Hn) as [b' Hb']. rewrite Hb', Hf, He. done.
Qed.

Lemma holds_heap_ok h0 h l xs : holds h0 h l xs -> heap_ok h.
Proof. intros [ls Hr _ _ _ _ _]. apply Hr. Qed.

(** A queue of clean strings that is made a text with a separator and taken apart again
    is the same queue, when there is a byte behind the text's terminator; in a block
    that ends with the terminator taking it apart reads outside of the block. *)
Theorem queue_text_roundtrip h d xs c tl : heap_ok h -> d <> NUL -> xs <> [] ->
  Forall (fun x => is_clean x = true /\ forall e, e ∈ bytes x -> e <> d) xs -> Z.of_nat (length xs) < 2 ^ 64 ->
  exists h1 q1 t h2 q2, enqueue_all h queue_init xs = Ok (h1, q1) /\
    queue_to_string h1 q1 d = Ok (Some t, h2, q2) /\ queue_size q2 = 0 /\
    (exists h3 q3 b, queue_to_queue h2 (bytes t ++ NUL :: c :: tl) d = Ok (h3, q3, b) /\ holds h2 h3 (q_l q3) xs) /\
    queue_to_queue h2 (bytes t ++ [NUL]) d = UB out_of_bounds.
Proof.
  intros Hh Hd Hne Hxs Hlen.
  assert (Hcl : Forall (fun x => is_clean x = true) xs) by (eapply Forall_impl; [exact Hxs|]; by intros ? []).
  destruct (clean_all xs Hcl) as [Hst Hc].
  destruct (enqueue_all_holds h h queue_init [] xs (holds_start h Hh) Hst Hlen) as (h1 & q1 & He & Hq1).
  rewrite Hc in Hq1. cbn [app] in Hq1. destruct xs as [|x xs]; [done|].
  destruct (dequeue_holds _ _ _ _ _ Hq1 Hlen) as (h1' & q1' & Hdq & Hq1').
  assert (Hlen' : Z.of_nat (length xs) < 2 ^ 64) by (simpl in Hlen; lia).
  pose proof (queue_size_holds _ _ _ _ Hq1' Hlen') as Hz.
  destruct (to_string_loop_ok h d xs h1' q1' x (Z.to_nat (queue_size q1')) Hd Hq1' Hlen') as (h2 & q2 & Hs & Hq2);
    [rewrite Hz; lia|].
  exists h1, q1, (join d (x :: xs)), h2, q2. split; [done|]. split; [|split].
  - unfold queue_to_string. rewrite (queue_size_holds _ _ _ _ Hq1 Hlen).
    rewrite (proj2 (Z.ltb_ge _ _)) by lia. rewrite Hdq. exact Hs.
  - by rewrite (queue_size_holds _ _ _ _ Hq2).
  - apply to_queue_holds; try done. by eapply holds_heap_ok.
Qed.

Definition empty_heap : heap := Heap ∅ 1.

Lemma empty_heap_ok : heap_ok empty_heap.
Proof. intros k [v Hk]. unfold empty_heap in Hk. cbn [h_nodes] in Hk. by rewrite lookup_empty in Hk. Qed.

Lemma queue_text_roundtrip_witness :
  let xs := ["8 8"; "2"; "5"; "4"]%string in
  exists h1 q1 t h2 q2, enqueue_all empty_heap queue_init xs = Ok (h1, q1) /\
    queue_to_string h1 q1 "," = Ok (Some t, h2, q2) /\ queue_size q2 = 0 /\
    (exists h3 q3 b, queue_to_queue h2 (bytes t ++ [NUL; NUL]) "," = Ok (h3, q3, b) /\ holds h2 h3 (q_l q3) xs) /\
    queue_to_queue h2 (bytes t ++ [NUL]) "," = UB out_of_bounds.
Proof.
  intros xs. refine (queue_text_roundtrip empty_heap "," xs NUL [] empty_heap_ok _ _ _ _); try done.
  repeat (apply Forall_cons; split; [split; [vm_compute; reflexivity|]|]); try constructor;
    intros e He; cbv in He; repeat (apply elem_of_cons in He as [->|He]; [discriminate|]);
    by apply not_elem_of_nil in He.
Defined.
