(* ===== verification/GGrid.v ===== *)
(** * The grid of the game programs ([grid.c] of [src/5.Game-Management] and
      [src/6.BattleShip])

    An element is the [Z] of its character.  The rows of [plain] hold the cells; the
    terminator behind each row, which nothing reads, is left out. *)

From stdpp Require Import pretty.
From S2P Require Import Prelude CText.

Definition GRID_MAX_X : Z := 26.
Definition GRID_MAX_Y : Z := 26.
Definition GRID_BOUND_ERROR : Z := 0.
Definition DRAW_BOUND_ERROR : Z := -1.
Definition DRAW_OVERLAP_ERROR : Z := -2.
Definition DRAW_DIRECTION_INVALID : Z := -6.

(** ['.'], ['9'] and ['A']. *)
Definition DEFAULT_ELEMENT : Z := 46.
Definition char_9 : Z := 57.
Definition char_A : Z := 65.

Definition DIRECTION_NORTH : Z := 78.
Definition DIRECTION_SOUTH : Z := 83.
Definition DIRECTION_EAST : Z := 69.
Definition DIRECTION_WEST : Z := 87.

Record grid := Grid { plain : list (list Z); size_x : Z; size_y : Z }.

Definition position_resolve (p : Z) : Z := p - 1.

Definition check_inside (x max_x y max_y : Z) : bool :=
  (0 <=? x) && (x <? max_x) && (0 <=? y) && (y <? max_y).
Definition check_inside_max (x y : Z) : bool := check_inside (x - 1) GRID_MAX_X (y - 1) GRID_MAX_Y.
Definition check_inside_this (g : grid) (x y : Z) : bool := check_inside x (size_x g) y (size_y g).

(** [g->plain[y][x]], and its assignment. *)
Definition cell (g : grid) (x y : Z) : ub Z :=
  if (x <? 0) || (y <? 0) then UB out_of_bounds
  else match plain g !! Z.to_nat y ≫= lookup (Z.to_nat x) with Some e => Ok e | None => UB out_of_bounds end.
Definition cell_set (g : grid) (x y e : Z) : ub grid :=
  _ ← cell g x y;
  Ok (Grid (alter (fun r => <[Z.to_nat x := e]> r) (Z.to_nat y) (plain g)) (size_x g) (size_y g)).

Definition grid_clear (g : grid) : grid :=
  Grid (replicate (Z.to_nat (size_y g)) (replicate (Z.to_nat (size_x g)) DEFAULT_ELEMENT)) (size_x g) (size_y g).

Definition grid_init (x y : Z) : option grid :=
  if negb (check_inside_max x y) then None else Some (grid_clear (Grid [] x y)).

Definition grid_set (g : grid) (x y e : Z) : ub (Z * grid) :=
  let x := position_resolve x in
  let y := position_resolve y in
  if negb (check_inside_this g x y) then Ok (GRID_BOUND_ERROR, g) else
  g' ← cell_set g x y e; Ok (0, g').

Definition grid_get (g : grid) (x y : Z) : ub Z :=
  let x := position_resolve x in
  let y := position_resolve y in
  if negb (check_inside_this g x y) then Ok GRID_BOUND_ERROR else cell g x y.

Definition resolve_cord_x (x d : Z) : Z :=
  if d =? DIRECTION_EAST then x + 1 else if d =? DIRECTION_WEST then x - 1 else x.
Definition resolve_cord_y (y d : Z) : Z :=
  if d =? DIRECTION_NORTH then y - 1 else if d =? DIRECTION_SOUTH then y + 1 else y.

(** [draw] with a magnitude of [m]; the calls are nested, and each writes its cell when
    the ones inside of it have written theirs. *)
Fixpoint draw (g : grid) (x y e : Z) (m : nat) (d : Z) : ub (Z * grid) :=
  match m with
  | O => Ok (0, g)
  | S m' =>
      let r_x := resolve_cord_x x d in
      let r_y := resolve_cord_y y d in
      if negb (check_inside_this g x y) then Ok (DRAW_BOUND_ERROR, g) else
      c ← cell g x y;
      if negb (c =? DEFAULT_ELEMENT) then Ok (DRAW_OVERLAP_ERROR, g) else
      '(res, g1) ← draw g r_x r_y e m' d;
      if res =? 0 then g2 ← cell_set g1 x y e; Ok (res, g2) else Ok (res, g1)
  end.

(** The character of a ship: letters after ['9']. *)
Definition draw_element (e : Z) : Z :=
  if char_9 <? e then s8 (s8 (s8 (e - char_9) - 1) + char_A) else e.

Definition is_direction (d : Z) : bool :=
  (d =? DIRECTION_EAST) || (d =? DIRECTION_NORTH) || (d =? DIRECTION_SOUTH) || (d =? DIRECTION_WEST).

Definition grid_draw (g : grid) (x y e m d : Z) : ub (Z * grid) :=
  let e := draw_element e in
  if negb (is_direction d) then Ok (DRAW_DIRECTION_INVALID, g) else
  draw g (position_resolve x) (position_resolve y) e (Z.to_nat m) d.

(** ** [grid_show] *)

Fixpoint length_int_loop (fuel : nat) (i s : Z) : Z :=
  match fuel with
  | O => s
  | S f => if 0 <? i then length_int_loop f (i / 10) (s + 1) else s
  end.
Definition length_int (i : Z) : Z := length_int_loop (Z.to_nat i) i 0.

Definition create_white_space (size : Z) : string :=
  String.concat "" (replicate (Z.to_nat size) " "%string).

Definition discrete_check (e : Z) (show : list Z) : Z :=
  if bool_decide (e ∈ show) then e else DEFAULT_ELEMENT.

Definition show_row (w : Z) (discrete : bool) (show : list Z) (y : Z) (r : list Z) : string :=
  let off := if w =? 1 then length_int (y + 1) - 1 else length_int (y + 1) in
  (String.substring (Z.to_nat off) (Z.to_nat (w - off)) (create_white_space w)
   ++ pretty (y + 1) ++ " "
   ++ String.concat "" ((fun e => chr (if discrete then discrete_check e show else e)) <$> r)
   ++ chr 10)%string.

Fixpoint show_rows (w : Z) (discrete : bool) (show : list Z) (y : Z) (rs : list (list Z)) : string :=
  match rs with
  | [] => ""
  | r :: rs' => (show_row w discrete show y r ++ show_rows w discrete show (y + 1) rs')%string
  end.

Definition grid_show_general (g : grid) (discrete : bool) (show : list Z) : string :=
  let w := length_int (size_y g) in
  (" " ++ create_white_space (if (w =? 2)%Z then 1 else w) ++ " "
   ++ String.concat "" ((fun i => chr (char_A + Z.of_nat i)) <$> seq 0 (Z.to_nat (size_x g))) ++ chr 10
   ++ show_rows w discrete show 0 (plain g))%string.

Definition grid_show (g : grid) : string := grid_show_general g false [].

(** ** What drawing does *)

(** The cells of a ship of [m] cells from ([x], [y]). *)
Fixpoint line (x y : Z) (m : nat) (d : Z) : list (Z * Z) :=
  match m with
  | O => []
  | S m' => (x, y) :: line (resolve_cord_x x d) (resolve_cord_y y d) m' d
  end.

(** The error for the first cell that is outside or taken; 0 when all are free. *)
Fixpoint first_bad (g : grid) (l : list (Z * Z)) : Z :=
  match l with
  | [] => 0
  | (x, y) :: l' =>
      if negb (check_inside_this g x y) then DRAW_BOUND_ERROR
      else match cell g x y with
           | Ok c => if negb (c =? DEFAULT_ELEMENT) then DRAW_OVERLAP_ERROR else first_bad g l'
           | UB _ => DRAW_BOUND_ERROR
           end
  end.

Record grid_ok (g : grid) : Prop := {
  go_x : 1 <= size_x g <= GRID_MAX_X;
  go_y : 1 <= size_y g <= GRID_MAX_Y;
  go_rows : length (plain g) = Z.to_nat (size_y g);
  go_row : Forall (fun r => length r = Z.to_nat (size_x g)) (plain g);
}.

(** How many cells have the element [v]. *)
Definition count (g : grid) (v : Z) : Z := Z.of_nat (length (filter (fun e => e = v) (concat (plain g)))).

(** ** Proofs *)

Lemma check_inside_spec g x y :
  check_inside_this g x y = true <-> 0 <= x < size_x g /\ 0 <= y < size_y g.
Proof. unfold check_inside_this, check_inside. cbool. lia. Qed.

Lemma cell_inside g x y : grid_ok g -> check_inside_this g x y = true -> exists c, cell g x y = Ok c.
Proof.
  intros [_ _ Hr Hf] [Hx Hy]%check_inside_spec. unfold cell.
  replace ((x <? 0) || (y <? 0)) with false by (symmetry; apply orb_false_iff; split; apply Z.ltb_ge; lia).
  destruct (lookup_lt_is_Some_2 (plain g) (Z.to_nat y)) as [r Hy']; [lia|]. rewrite Hy'. cbn [mbind option_bind].
  rewrite Forall_lookup in Hf. specialize (Hf _ _ Hy').
  destruct (lookup_lt_is_Some_2 r (Z.to_nat x)) as [c ->]; [lia|]. by exists c.
Qed.

Lemma cell_pos g x y c : cell g x y = Ok c ->
  0 <= x /\ 0 <= y /\ exists r, plain g !! Z.to_nat y = Some r /\ r !! Z.to_nat x = Some c.
Proof.
  unfold cell. case_if; [done|]. cbool. destruct (plain g !! Z.to_nat y) as [r|] eqn:Hr; [|done].
  cbn [mbind option_bind]. destruct (r !! Z.to_nat x) eqn:Hc; [|done]. intros [= ->].
  split; [lia|]. split; [lia|]. by exists r.
Qed.

Lemma alter_middle {A} (f : A -> A) i l x : l !! i = Some x -> alter f i l = take i l ++ f x :: drop (S i) l.
Proof.
  intros Hi. rewrite <- (take_drop_middle _ _ _ Hi) at 1. pose proof (lookup_lt_Some _ _ _ Hi).
  rewrite alter_app_r_alt by (rewrite length_take; lia). rewrite length_take, Nat.min_l, Nat.sub_diag by lia. done.
Qed.

(** Writing a cell that is there. *)
Lemma cell_set_spec g x y e c : grid_ok g -> cell g x y = Ok c ->
  exists g', cell_set g x y e = Ok g' /\ grid_ok g' /\ size_x g' = size_x g /\ size_y g' = size_y g /\
    (forall i j, cell g' i j = if bool_decide ((i, j) = (x, y)) then Ok e else cell g i j) /\
    exists a b, concat (plain g) = a ++ c :: b /\ concat (plain g') = a ++ e :: b.
Proof.
  intros Hg Hc. unfold cell_set. rewrite Hc. cbn [mbind ub_bind]. eexists. split; [done|].
  apply cell_pos in Hc as (Hx & Hy & r & Hr & Hrc). split; [|split; [done|split; [done|split]]].
  - destruct Hg as [H1 H2 H3 H4]. split; cbn [plain size_x size_y]; try done; [by rewrite length_alter|].
    rewrite Forall_lookup in H4 |- *. intros k q. destruct (decide (k = Z.to_nat y)) as [->|Hn].
    + rewrite list_lookup_alter_eq, Hr. intros [= <-]. rewrite length_insert. by eapply H4.
    + rewrite list_lookup_alter_ne by done. apply H4.
  - intros i j. unfold cell. cbn [plain]. case_bool_decide as Hij.
    + injection Hij as -> ->.
      replace ((x <? 0) || (y <? 0)) with false by (symmetry; apply orb_false_iff; split; apply Z.ltb_ge; lia).
      rewrite list_lookup_alter_eq, Hr. cbn [fmap option_fmap option_map mbind option_bind].
      rewrite list_lookup_insert_eq; [done|]. by eapply lookup_lt_Some.
    + case_if; [done|]. cbool. destruct (decide (j = y)) as [->|Hn].
      * rewrite list_lookup_alter_eq, Hr. cbn [fmap option_fmap option_map mbind option_bind].
        rewrite list_lookup_insert_ne; [done|]. intros Heq. apply Hij. f_equal. lia.
      * rewrite list_lookup_alter_ne; [done|]. lia.
  - exists (concat (take (Z.to_nat y) (plain g)) ++ take (Z.to_nat x) r),
      (drop (S (Z.to_nat x)) r ++ concat (drop (S (Z.to_nat y)) (plain g))). cbn [plain].
    rewrite <- (take_drop_middle _ _ _ Hr) at 1. rewrite concat_app. cbn [concat].
    rewrite <- (take_drop_middle _ _ _ Hrc) at 1. rewrite <- !app_assoc. split; [done|].
    rewrite (alter_middle _ _ _ _ Hr), concat_app. cbn [concat].
    rewrite (insert_take_drop r) by (by eapply lookup_lt_Some). by rewrite <- !app_assoc.
Qed.

(** The cells of a line are different ones. *)
Lemma line_away x y m d i j : is_direction d = true -> (i, j) ∈ line x y m d ->
  exists k, 0 <= k < Z.of_nat m /\
    i = (if d =? DIRECTION_EAST then x + k else if d =? DIRECTION_WEST then x - k else x) /\
    j = (if d =? DIRECTION_NORTH then y - k else if d =? DIRECTION_SOUTH then y + k else y).
Proof.
  intros Hd. revert x y. induction m as [|m IH]; intros x y; cbn [line]; [by intros ?%not_elem_of_nil|].
  intros [[= -> ->]|Hin]%elem_of_cons.
  - exists 0. split; [lia|]. split; repeat case_if; lia.
  - apply IH in Hin as (k & Hk & -> & ->). exists (k + 1). split; [lia|].
    unfold resolve_cord_x, resolve_cord_y. split; repeat case_if; lia.
Qed.

Lemma line_start x y m d : is_direction d = true ->
  (x, y) ∉ line (resolve_cord_x x d) (resolve_cord_y y d) m d.
Proof.
  intros Hd (k & Hk & Hx & Hy)%line_away; [|done]. unfold is_direction in Hd.
  unfold resolve_cord_x, resolve_cord_y in *. repeat case_if in Hd; cbool;
    unfold DIRECTION_EAST, DIRECTION_WEST, DIRECTION_NORTH, DIRECTION_SOUTH in *.
  destruct Hd as [[[-> | ->] | ->] | ->]; simpl in *; lia.
Qed.

(** What [g'] is after [m] cells [l] of [g] were made [e]. *)
Record drawn (g g' : grid) (l : list (Z * Z)) (e : Z) : Prop := {
  dr_ok : grid_ok g';
  dr_x : size_x g' = size_x g;
  dr_y : size_y g' = size_y g;
  dr_cell : forall i j, cell g' i j = if bool_decide ((i, j) ∈ l) then Ok e else cell g i j;
  dr_count : forall v, v <> DEFAULT_ELEMENT -> e <> DEFAULT_ELEMENT ->
    count g' v = count g v + (if v =? e then Z.of_nat (length l) else 0);
}.

Lemma drawn_nil g e : grid_ok g -> drawn g g [] e.
Proof. intros Hg. split; try done. intros v _ _. simpl. case_if; lia. Qed.

Lemma count_set a b c e v : Z.of_nat (length (filter (fun x => x = v) (a ++ e :: b))) =
  Z.of_nat (length (filter (fun x => x = v) (a ++ c :: b))) + (if v =? e then 1 else 0) - (if v =? c then 1 else 0).
Proof.
  rewrite !filter_app, !filter_cons, !length_app.
  destruct (decide (e = v)), (decide (c = v)), (v =? e) eqn:E1, (v =? c) eqn:E2; cbool; subst; simpl; try lia; done.
Qed.

Lemma drawn_cons g g1 x y l e : drawn g g1 l e -> (x, y) ∉ l -> cell g x y = Ok DEFAULT_ELEMENT ->
  exists g2, cell_set g1 x y e = Ok g2 /\ drawn g g2 ((x, y) :: l) e.
Proof.
  intros [Hok Hx Hy Hc Hn] Hl Hxy. assert (Hg1 : cell g1 x y = Ok DEFAULT_ELEMENT)
    by (rewrite Hc; by rewrite bool_decide_eq_false_2).
  destruct (cell_set_spec g1 x y e _ Hok Hg1) as (g2 & Hs & Hok2 & Hx2 & Hy2 & Hc2 & a & b & Ha & Hb).
  exists g2. split; [done|]. split; [done|congruence..| |].
  - intros i j. rewrite Hc2, Hc. repeat case_bool_decide; try done; set_solver.
  - intros v Hv He. unfold count in *. rewrite Hb, (count_set a b DEFAULT_ELEMENT e v), <- Ha, Hn by done.
    rewrite (proj2 (Z.eqb_neq v DEFAULT_ELEMENT)) by done. cbn [length]. case_if; lia.
Qed.

(** A ship is drawn as a whole, on free cells, or nothing is, with the error of its first
    cell that is outside or taken. *)
Lemma draw_spec g x y e m d : grid_ok g -> is_direction d = true ->
  exists g', draw g x y e m d = Ok (first_bad g (line x y m d), g') /\
    (if first_bad g (line x y m d) =? 0 then drawn g g' (line x y m d) e else g' = g).
Proof.
  intros Hg Hd. revert x y. induction m as [|m IH]; intros x y; cbn [draw line first_bad].
  { exists g. split; [done|]. by apply drawn_nil. }
  destruct (check_inside_this g x y) eqn:Hin; cbn [negb]; [|by exists g].
  destruct (cell_inside g x y Hg Hin) as [c Hc]. rewrite Hc. cbn [mbind ub_bind].
  destruct (c =? DEFAULT_ELEMENT) eqn:Ec; cbn [negb]; [|by exists g].
  apply Z.eqb_eq in Ec as ->. set (l := line _ _ m d).
  destruct (IH (resolve_cord_x x d) (resolve_cord_y y d)) as (g1 & H1 & Hg1). fold l in H1, Hg1.
  rewrite H1. cbn [mbind ub_bind]. destruct (first_bad g l =? 0); [|by exists g1].
  destruct (drawn_cons g g1 x y l e Hg1 (line_start x y m d Hd) Hc) as (g2 & -> & H2). by exists g2.
Qed.

Lemma line_length x y m d : length (line x y m d) = m.
Proof. revert x y; induction m as [|m IH]; intros x y; simpl; auto. Qed.

Lemma first_bad_0 g l : first_bad g l = 0 ->
  Forall (fun p => check_inside_this g p.1 p.2 = true /\ cell g p.1 p.2 = Ok DEFAULT_ELEMENT) l.
Proof.
  induction l as [|[x y] l IH]; cbn [first_bad]; [constructor|]. case_if; [done|]. cbool.
  destruct (cell g x y) as [c|] eqn:Hc; [|done]. case_if; [done|]. cbool. subst c.
  intros H. constructor; [done|auto].
Qed.

Lemma grid_init_ok x y g : grid_init x y = Some g ->
  grid_ok g /\ size_x g = x /\ size_y g = y /\ forall v, v <> DEFAULT_ELEMENT -> count g v = 0.
Proof.
  unfold grid_init. case_if; [done|]. intros [= <-]. unfold check_inside_max, check_inside in E. cbool.
  unfold GRID_MAX_X, GRID_MAX_Y in *. split; [|split; [done|split; [done|]]].
  - split; cbn [grid_clear size_x size_y plain]; unfold GRID_MAX_X, GRID_MAX_Y; try lia; [apply length_replicate|].
    apply Forall_replicate, length_replicate.
  - intros v Hv. unfold count. cbn [grid_clear plain size_x size_y].
    destruct (filter _ _) as [|e l] eqn:Hf; [done|]. exfalso.
    assert (He : e ∈ e :: l) by left. rewrite <- Hf in He. apply list_elem_of_filter in He as [-> He].
    apply list_elem_of_In, in_concat in He as (r & Hr & He).
    apply list_elem_of_In, elem_of_replicate in Hr as [-> _].
    by apply list_elem_of_In, elem_of_replicate in He as [-> _].
Qed.

(** Drawing a ship on a grid puts it on all of its cells, which were free and inside, and
    changes no other cell; or it changes nothing, and the result is the error of the
    first cell, from the given one on, that is outside or taken. *)
Theorem grid_draw_all_or_nothing g x y e m d : grid_ok g -> is_direction d = true ->
  let l := line (x - 1) (y - 1) (Z.to_nat m) d in
  exists g', grid_draw g x y e m d = Ok (first_bad g l, g') /\ grid_ok g' /\
    (first_bad g l = 0 -> forall i j,
       cell g' i j = (if bool_decide ((i, j) ∈ l) then Ok (draw_element e) else cell g i j) /\
       ((i, j) ∈ l -> check_inside_this g i j = true /\ cell g i j = Ok DEFAULT_ELEMENT)) /\
    (first_bad g l <> 0 -> g' = g).
Proof.
  intros Hg Hd l. unfold grid_draw. rewrite Hd. cbn [negb]. unfold position_resolve.
  destruct (draw_spec g (x - 1) (y - 1) (draw_element e) (Z.to_nat m) d Hg Hd) as (g' & -> & H). fold l in H |- *.
  exists g'. split; [done|]. destruct (Z.eqb_spec (first_bad g l) 0) as [H0|H0].
  - destruct H as [Hok Hx Hy Hc _]. split; [done|]. split; [|done]. intros _ i j. split; [apply Hc|].
    intros Hij. pose proof (first_bad_0 g l H0) as Hf. rewrite Forall_forall in Hf. by apply (Hf (i, j)).
  - subst g'. split; [done|]. split; [done|]. done.
Qed.

Definition sample_grid : grid := grid_clear (Grid [] 8 8).

Lemma sample_grid_ok : grid_ok sample_grid.
Proof. apply (grid_init_ok 8 8). done. Qed.

Lemma grid_draw_all_or_nothing_witness :
  let l := line 2 0 3 DIRECTION_SOUTH in
  exists g', grid_draw sample_grid 3 1 49 3 DIRECTION_SOUTH = Ok (0, g') /\ grid_ok g' /\
    (0 = 0 -> forall i j,
       cell g' i j = (if bool_decide ((i, j) ∈ l) then Ok 49 else cell sample_grid i j) /\
       ((i, j) ∈ l -> check_inside_this sample_grid i j = true /\ cell sample_grid i j = Ok DEFAULT_ELEMENT)) /\
    (0 <> 0 -> g' = sample_grid).
Proof. exact (grid_draw_all_or_nothing sample_grid 3 1 49 3 DIRECTION_SOUTH sample_grid_ok eq_refl). Defined.
