(* ===== verification/GGame.v ===== *)
(** * The game ([move.c] and [game.c] of [src/5.Game-Management])

    The game reads its rules and maps from queues, which it uses through the interface
    [QueueI]; queues of [GList] are an instance, each with a heap of its own. *)

From S2P Require Import Prelude CText GThing GList GGrid.

(** ** Queues *)

Class QueueI (Q : Type) := {
  qi_dequeue : Q -> ub (thing * Q);
  qi_size : Q -> Z;
}.

(** What a queue promises: it holds a list of strings, which come out in their order. *)
Class QueueLaws (Q : Type) `{QueueI Q} := {
  qi_holds : Q -> list string -> Prop;
  qi_take q x xs : qi_holds q (x :: xs) -> exists q', qi_dequeue q = Ok (Some x, q') /\ qi_holds q' xs;
  qi_empty q : qi_holds q [] -> qi_dequeue q = Ok (None, q);
  qi_count q xs : qi_holds q xs -> qi_size q = Z.of_nat (length xs);
}.

#[export] Instance heap_queue : QueueI (heap * queue) := {
  qi_dequeue hq := '(t, h, q) ← queue_dequeue hq.1 hq.2; Ok (t, (h, q));
  qi_size hq := queue_size hq.2;
}.

#[export] Instance heap_queue_laws : QueueLaws (heap * queue).
Proof.
  refine {| qi_holds hq xs := (exists h0, holds h0 hq.1 (q_l hq.2) xs) /\ Z.of_nat (length xs) < 2 ^ 64 |}.
  - intros [h q] x xs [[h0 Hh] Hl]. destruct (dequeue_holds _ _ _ _ _ Hh Hl) as (h' & q' & Hd & Hh').
    exists (h', q'). simpl in *. rewrite Hd. split; [done|]. split; [by exists h0|lia].
  - intros [h q] [[h0 Hh] Hl]. simpl in *. destruct Hh as [ls Hr _ _ _ _ _].
    pose proof (dseg_length _ _ _ _ _ (rep_seg _ _ _ _ Hr)) as Hn. destruct ls; [|done].
    unfold queue_dequeue. destruct (empty_ok _ _ Hr) as [-> _]. cbn [mbind ub_bind]. by destruct q.
  - intros [h q] xs [[h0 Hh] Hl]. simpl in *. by eapply queue_size_holds.
Defined.

(** ** [sscanf] *)

(** [sscanf(s, "%c%d %c\n", &x, &y, &direction)]. *)
Definition sscanf_cdc (s : string) : ub (Z * (Z * Z * Z)) :=
  match s with
  | EmptyString => Ok (-1, (0, 0, 0))
  | String x s1 =>
      r ← scan_d s1;
      Ok (match r with
          | None => (1, (char_of x, 0, 0))
          | Some (y, s2) =>
              match skip_white s2 with
              | EmptyString => (2, (char_of x, y, 0))
              | String d _ => (3, (char_of x, y, char_of d))
              end
          end)
  end.

(** [sscanf(s, "%c%d\n", &x, &y)]. *)
Definition sscanf_cd (s : string) : ub (Z * (Z * Z)) :=
  match s with
  | EmptyString => Ok (-1, (0, 0))
  | String x s1 =>
      r ← scan_d s1; Ok (match r with None => (1, (char_of x, 0)) | Some (y, _) => (2, (char_of x, y)) end)
  end.

(** ** [move.c] *)

Definition MISS : Z := 0.
Definition HIT : Z := 1.
Definition DOWN : Z := 2.
Definition WIN_PLAYER : Z := 3.
Definition WIN_CPU : Z := 4.
Definition GAME_ON : Z := 5.
Definition REPEAT : Z := -1.
Definition BAD : Z := -2.
Definition EXHAUST_MOVES_CPU : Z := -3.
Definition ILLEGAL_M : Z := -4.

Definition move_check_eof (m : thing) : bool := match m with None => true | Some _ => false end.

(** [strcat (m, m+2)] copies between overlapping strings. *)
Definition move_check (m : thing) : ub bool :=
  match m with
  | None => Ok false
  | Some s =>
      if String.eqb s "" then Ok false else
      m1 ← char_at s 1;
      if is_space m1 then UB overlap else
      '(c, (x, y)) ← sscanf_cd s;
      let c := if 4 <? strlen s then 0 else c in
      Ok (negb (negb (c =? 2) || (x <? 65) || (90 <? x) || (y <? 1) || (26 <? y)))
  end.

(** [m[i]] as a number, and the row of a move. *)
Definition move_char (m : string) (i : nat) : ub Z := c ← char_at m i; Ok (char_of c).
Definition move_row (m : string) : ub Z :=
  m1 ← move_char m 1;
  c2 ← char_at m 2;
  Ok (if isdigit c2 then (char_of c2 - 48) + (m1 - 48) * 10 else m1 - 48).
Definition move_column (m : string) : ub Z := m0 ← move_char m 0; Ok (m0 - 64).

(** ** [game.c] *)

Definition GAME_DATA_QUEUE_ERROR : Z := -13.
Definition GAME_SHIPS_MAX_ERROR : Z := -14.
Definition GAME_QUEUE_ERROR : Z := -16.
Definition GAME_BOUND_ERROR : Z := -11.
Definition GAME_OVERLAP_ERROR : Z := -12.
Definition GAME_RULES_PROCESS_ERROR : Z := 50.
Definition OVERLAP_PLAYER_MAP_ERR : Z := 60.
Definition OVERLAP_CPU_MAP_ERR : Z := 70.
Definition OUT_BOUND_PLAYER_MAP_ERR : Z := 80.
Definition OUT_BOUND_CPU_MAP_ERR : Z := 90.
Definition PROCESS_PLAYER_MAP_ERR : Z := 100.
Definition PROCESS_CPU_MAP_ERR : Z := 110.
Definition GAME_ERRORS_OFFSET (e : Z) : Z := e - 10.

Definition CHAR_OFFSET : Z := 64.
Definition INT_OFFSET : Z := 48.

(** One player's side: how many ships are left, the grid, and for each ship how many
    of its cells were not hit. *)
Record side := Side { total : Z; field : grid; ships : list Z }.
Record game := Game { player : side; cpu : side }.

Section Game.
Context {Q : Type} `{QueueI Q}.

(** The loop of [game_init] from ship [i], for [n] turns: the sizes of the ships, which
    both players get. *)
Fixpoint init_loop (n : nat) (q : Q) (sizes : list Z) (area : Z) : ub (Z * list Z * Z * Q) :=
  match n with
  | O => Ok (0, sizes, area, q)
  | S n' =>
      '(t, q1) ← qi_dequeue q;
      s ← deref t;
      '(check, m) ← sscanf_d s;
      if negb (check =? 1) || (m <=? 0) then Ok (GAME_DATA_QUEUE_ERROR, sizes, area, q1) else
      area' ← add_int area m;
      init_loop n' q1 (sizes ++ [m]) area'
  end.

(** The game is freed when the result is [GAME_RULES_PROCESS_ERROR]. *)
Definition game_init (max_x max_y max_s : Z) (q : Q) : ub (Z * option game * Q) :=
  match grid_init max_x max_y, grid_init max_x max_y with
  | Some p, Some c =>
      '(e, sizes, area, q1) ← init_loop (Z.to_nat max_s) q [] 0;
      let g := Game (Side max_s p sizes) (Side max_s c sizes) in
      if negb (e =? 0) then Ok (e, Some g, q1)
      else if max_x * max_y <? area then Ok (GAME_SHIPS_MAX_ERROR, Some g, q1)
      else Ok (0, Some g, q1)
  | _, _ => Ok (GAME_RULES_PROCESS_ERROR, None, q)
  end.

(** The loop of [game_draw] from ship [s]. *)
Fixpoint draw_loop (sizes : list Z) (s : Z) (g : grid) (q : Q) : ub (Z * grid * Q) :=
  match sizes with
  | [] => Ok (0, g, q)
  | ship_size :: sizes' =>
      '(t, q1) ← qi_dequeue q;
      match t with
      | None => Ok (GAME_QUEUE_ERROR, g, q1)
      | Some str =>
          '(check, (x, y, direction)) ← sscanf_cdc str;
          let check := if 6 <? thing_size str then 0 else check in
          if negb (check =? 3) then Ok (GAME_QUEUE_ERROR, g, q1) else
          '(r, g1) ← grid_draw g (x - CHAR_OFFSET) y (s + INT_OFFSET + 1) ship_size direction;
          if negb (r =? 0) then Ok (GAME_ERRORS_OFFSET r, g1, q1) else draw_loop sizes' (s + 1) g1 q1
      end
  end.

Definition game_draw (sd : side) (q : option Q) : ub (Z * side * option Q) :=
  match q with
  | None => Ok (0, sd, None)
  | Some q0 =>
      '(r, g, q1) ← draw_loop (ships sd) 0 (field sd) q0;
      Ok (r, Side (total sd) g (ships sd), Some q1)
  end.

(** The data of a game: the rules, and the map of each side ([None] for NULL). *)
Record game_data := Data { d_game : Q; d_player_map : option Q; d_cpu_map : option Q }.

Definition game_set (d : game_data) : ub (Z * option game * game_data) :=
  '(t, q) ← qi_dequeue (d_game d);
  s ← deref t; '(c1, max_x) ← sscanf_d s;
  '(t, q) ← qi_dequeue q;
  s ← deref t; '(c2, max_y) ← sscanf_d s;
  if negb (c1 + c2 =? 2) then Ok (GAME_DATA_QUEUE_ERROR, None, Data q (d_player_map d) (d_cpu_map d)) else
  '(t, q) ← qi_dequeue q;
  s ← deref t; '(check, total_ships) ← sscanf_d s;
  let check := if negb (u64 total_ships =? qi_size q) || (total_ships <? 1) || (15 <? total_ships)
               then -1 else check in
  if negb (check =? 1) then Ok (GAME_DATA_QUEUE_ERROR, None, Data q (d_player_map d) (d_cpu_map d)) else
  '(e, og, q) ← game_init max_x max_y total_ships q;
  match og with
  | None => Ok (e, None, Data q (d_player_map d) (d_cpu_map d))
  | Some g =>
      if negb (e =? 0) then Ok (e, Some g, Data q (d_player_map d) (d_cpu_map d)) else
      '(c, p, qp) ← game_draw (player g) (d_player_map d);
      '(cc, cp, qc) ← game_draw (cpu g) (d_cpu_map d);
      let d' := Data q qp qc in
      if negb (c =? 0) then
        if c =? GAME_QUEUE_ERROR then Ok (PROCESS_PLAYER_MAP_ERR, None, d')
        else if c =? GAME_BOUND_ERROR then Ok (OUT_BOUND_PLAYER_MAP_ERR, None, d')
        else if c =? GAME_OVERLAP_ERROR then Ok (OVERLAP_PLAYER_MAP_ERR, None, d')
        else Ok (0, None, d')
      else if negb (cc =? 0) then
        if cc =? GAME_QUEUE_ERROR then Ok (PROCESS_CPU_MAP_ERR, None, d')
        else if cc =? GAME_BOUND_ERROR then Ok (OUT_BOUND_CPU_MAP_ERR, None, d')
        else if cc =? GAME_OVERLAP_ERROR then Ok (OVERLAP_CPU_MAP_ERR, None, d')
        else Ok (0, None, d')
      else Ok (0, Some (Game p cp), d')
  end.
End Game.

Arguments game_data Q : clear implicits.
Arguments Data {Q} _ _ _.

Definition game_play_ (sd : side) (m : thing) : ub (Z * side) :=
  ok ← move_check m;
  if negb ok then Ok (ILLEGAL_M, sd) else
  s ← deref m;
  x ← move_column s; y ← move_row s;
  e ← grid_get (field sd) x y;
  if e =? 0 then Ok (BAD, sd)
  else if e =? DEFAULT_ELEMENT then
    '(_, g) ← grid_set (field sd) x y 47; Ok (MISS, Side (total sd) g (ships sd))
  else if (e =? 47) || (e =? 42) then Ok (REPEAT, sd)
  else if (49 <=? e) && (e <=? 57) then
    let k := e - INT_OFFSET - 1 in
    n ← (if k <? 0 then UB out_of_bounds
         else match ships sd !! Z.to_nat k with Some n => Ok n | None => UB out_of_bounds end);
    sh ← array_set k (n - 1) (ships sd);
    '(_, g) ← grid_set (field sd) x y 42;
    Ok (if n - 1 =? 0 then DOWN else HIT, Side (total sd) g sh)
  else Ok (MISS, sd).

(** The part that [game_play_cpu] and [game_play_player] share: a move on the side [sd],
    whose player has lost when [won] is the result. *)
Definition play_on (won : Z) (sd : side) (m : thing) : ub (Z * side) :=
  if total sd =? 0 then Ok (won, sd) else
  '(res, sd') ← game_play_ sd m;
  Ok (res, if res =? DOWN then Side (total sd' - 1) (field sd') (ships sd') else sd').

Definition game_play_cpu (g : game) (m : thing) : ub (Z * game) :=
  '(res, p) ← play_on WIN_CPU (player g) m; Ok (res, Game p (cpu g)).
Definition game_play_player (g : game) (m : thing) : ub (Z * game) :=
  '(res, c) ← play_on WIN_PLAYER (cpu g) m; Ok (res, Game (player g) c).

Definition game_status (g : game) : Z :=
  if total (cpu g) =? 0 then WIN_PLAYER else if total (player g) =? 0 then WIN_CPU else GAME_ON.

Definition game_show (g : game) : string :=
  (grid_show (field (player g)) ++ "===" ++ chr 10 ++ grid_show (field (cpu g)))%string.

(** ** What a side is *)

(** The element of ship [k]. *)
Definition elem (k : nat) : Z := draw_element (49 + Z.of_nat k).

(** The ships' counters are the cells that have their elements, and the total the ships
    that have one. *)
Record side_ok (n : nat) (sd : side) : Prop := {
  so_grid : grid_ok (field sd);
  so_n : (n <= 15)%nat;
  so_length : length (ships sd) = n;
  so_ships : forall k, (k < n)%nat -> ships sd !! k = Some (count (field sd) (elem k));
  so_total : total sd = Z.of_nat (length (filter (fun c => 0 < c) (ships sd)));
  so_cells : forall v, 0 < count (field sd) v -> v ∈ [46; 47; 42] \/ exists k, (k < n)%nat /\ v = elem k;
}.

(** Cells that were guessed. *)
Definition marked (sd : side) : Z := count (field sd) 47 + count (field sd) 42.

(** ** Proofs *)

Lemma elem_table k : (k < 15)%nat -> elem k = if (k <? 9)%nat then 49 + Z.of_nat k else 56 + Z.of_nat k.
Proof. intros Hk. do 15 (destruct k as [|k]; [done|]). lia. Qed.

Lemma elem_inj j k : (j < 15)%nat -> (k < 15)%nat -> elem j = elem k -> j = k.
Proof.
  intros Hj Hk. rewrite !elem_table by done.
  destruct (Nat.ltb_spec j 9), (Nat.ltb_spec k 9); lia.
Qed.

Lemma elem_not_mark k : (k < 15)%nat -> elem k <> 46 /\ elem k <> 47 /\ elem k <> 42 /\ elem k <> 0.
Proof. intros Hk. rewrite elem_table by done. destruct (Nat.ltb_spec k 9); lia. Qed.

Lemma count_nonneg g v : 0 <= count g v.
Proof. unfold count. lia. Qed.

(** Writing [e] over [c] in a cell of the grid, by its position from 1. *)
Lemma grid_set_count g x y c e : grid_ok g -> grid_get g x y = Ok c -> c <> 0 ->
  exists g', grid_set g x y e = Ok (0, g') /\ grid_ok g' /\ 0 < count g c /\
    (forall i j, cell g' i j = if bool_decide ((i, j) = (x - 1, y - 1)) then Ok e else cell g i j) /\
    forall v, count g' v = count g v + (if v =? e then 1 else 0) - (if v =? c then 1 else 0).
Proof.
  intros Hg Hc H0. unfold grid_get, position_resolve in Hc. unfold grid_set, position_resolve.
  destruct (check_inside_this g (x - 1) (y - 1)); cbn [negb] in *; [|by injection Hc as <-].
  destruct (cell_set_spec g (x - 1) (y - 1) e c Hg Hc) as (g' & -> & Hg' & Hx & Hy & Hcell & a & b & Ha & Hb).
  exists g'. split; [done|]. split; [done|]. split; [|split; [done|]].
  - unfold count. rewrite Ha, filter_app, filter_cons_True, length_app by done. simpl. lia.
  - intros v. unfold count. rewrite Hb, (count_set a b c e v), <- Ha. done.
Qed.

Lemma alive_insert l k n m : l !! k = Some n -> 0 < n -> 0 <= m ->
  Z.of_nat (length (filter (fun c => 0 < c) (<[k := m]> l))) =
  Z.of_nat (length (filter (fun c => 0 < c) l)) - (if m =? 0 then 1 else 0).
Proof.
  intros Hk Hn Hm. rewrite (insert_take_drop l k m) by (by eapply lookup_lt_Some).
  rewrite <- (take_drop_middle l k n Hk) at 3. rewrite !filter_app, !filter_cons, !length_app.
  rewrite (decide_True (P := 0 < n)) by done. destruct (Z.eqb_spec m 0) as [->|].
  - rewrite decide_False by lia. simpl. lia.
  - rewrite decide_True by lia. simpl. lia.
Qed.

Lemma move_parts m : move_check (Some m) = Ok true ->
  exists x y, move_column m = Ok x /\ move_row m = Ok y /\ 1 <= x <= 26.
Proof.
  unfold move_check. case_if; [done|]. destruct m as [|c0 m]; [done|].
  destruct (char_at (String c0 m) 1) as [c1|] eqn:H1; [|done]. cbn [mbind ub_bind]. case_if; [done|].
  unfold sscanf_cd. destruct m as [|c1' m]; [done|]. destruct (scan_d _) as [[[y r]|]|]; cbn [mbind ub_bind]; try done.
  2:{ destruct (4 <? _); done. }
  intros [= Hb]. cbool. destruct Hb as [[[[Hc Hx1] Hx2] _] _]. unfold move_column, move_row, move_char.
  rewrite H1. replace (char_at (String c0 (String c1' m)) 0) with (@Ok ascii c0) by done. cbn [mbind ub_bind].
  assert (exists c2, char_at (String c0 (String c1' m)) 2 = Ok c2) as [c2 ->] by (destruct m; by eexists).
  cbn [mbind ub_bind]. do 2 eexists. split; [done|]. split; [done|]. lia.
Qed.

Lemma grid_get_Ok g x y : grid_ok g -> exists c, grid_get g x y = Ok c.
Proof.
  intros Hg. unfold grid_get. case_if; [by eexists|]. apply negb_false_iff in E.
  by apply cell_inside.
Qed.

(** A cell that is made a mark, [e], when the counters follow. *)
Lemma side_marked n sd g' c e sh : side_ok n sd -> grid_ok g' -> e ∈ [47; 42] ->
  (forall v, count g' v = count (field sd) v + (if v =? e then 1 else 0) - (if v =? c then 1 else 0)) ->
  length sh = n -> (forall k, (k < n)%nat -> sh !! k = Some (count g' (elem k))) ->
  side_ok n (Side (Z.of_nat (length (filter (fun c => 0 < c) sh))) g' sh).
Proof.
  intros [Hg Hn Hl Hs Ht Hc] Hg' He Hv Hsh Hk. split; cbn [total field ships]; try done.
  intros v. rewrite Hv. destruct (Z.eqb_spec v e) as [->|Hne].
  - intros _. left. set_solver.
  - intros H0. apply Hc. revert H0. case_if; lia.
Qed.

Lemma side_eta sd : Side (total sd) (field sd) (ships sd) = sd.
Proof. by destruct sd. Qed.

(** What a move on the cell with [c] does, by the four kinds of cells. *)
Definition played (n : nat) (sd sd' : side) (x y c res : Z) : Prop :=
  if c =? 0 then res = BAD /\ sd' = sd
  else if (c =? 47) || (c =? 42) then res = REPEAT /\ sd' = sd
  else if c =? DEFAULT_ELEMENT then
    res = MISS /\ ships sd' = ships sd /\ total sd' = total sd /\ marked sd' = marked sd + 1 /\
    forall i j, cell (field sd') i j = if bool_decide ((i, j) = (x - 1, y - 1)) then Ok 47 else cell (field sd) i j
  else exists k, (k < n)%nat /\ c = elem k /\
    if (k <? 9)%nat then
      res = (if count (field sd) c =? 1 then DOWN else HIT) /\ marked sd' = marked sd + 1 /\
      total sd' = total sd - (if count (field sd) c =? 1 then 1 else 0) /\
      forall i j, cell (field sd') i j = if bool_decide ((i, j) = (x - 1, y - 1)) then Ok 42 else cell (field sd) i j
    else res = MISS /\ sd' = sd.

Lemma play_miss n sd x y : side_ok n sd -> grid_get (field sd) x y = Ok DEFAULT_ELEMENT ->
  exists g', grid_set (field sd) x y 47 = Ok (0, g') /\ side_ok n (Side (total sd) g' (ships sd)) /\
    played n sd (Side (total sd) g' (ships sd)) x y DEFAULT_ELEMENT MISS /\
    forall v, v <> DEFAULT_ELEMENT -> v <> 47 -> count g' v = count (field sd) v.
Proof.
  intros Hs Hc. destruct (grid_set_count _ _ _ _ 47 (so_grid _ _ Hs) Hc ltac:(done)) as (g' & Hset & Hg' & _ & Hcell & Hv).
  exists g'. split; [done|]. split; [|split].
  3:{ intros v H1 H2. rewrite Hv, !(proj2 (Z.eqb_neq _ _)) by done. lia. }
  - rewrite (so_total _ _ Hs). eapply side_marked; [exact Hs|done|by left|exact Hv|apply Hs|].
    intros k Hk. rewrite (so_ships _ _ Hs k Hk), Hv. f_equal. pose proof (so_n _ _ Hs).
    destruct (elem_not_mark k) as (H1 & H2 & H3 & H4); [lia|].
    rewrite (proj2 (Z.eqb_neq (elem k) 47)) by done. unfold DEFAULT_ELEMENT.
    rewrite (proj2 (Z.eqb_neq (elem k) 46)) by done. lia.
  - unfold played. cbn [Z.eqb orb DEFAULT_ELEMENT Pos.eqb]. cbn [ships total field].
    split; [done|]. split; [done|]. split; [done|]. split; [|done]. unfold marked. cbn [field].
    rewrite !Hv. simpl. lia.
Qed.

Lemma play_hit n sd x y k : side_ok n sd -> (k < n)%nat -> (k < 9)%nat -> grid_get (field sd) x y = Ok (elem k) ->
  let m := count (field sd) (elem k) in
  ships sd !! k = Some m /\ 0 < m /\
  exists g', grid_set (field sd) x y 42 = Ok (0, g') /\
    let sd' := Side (total sd - if m - 1 =? 0 then 1 else 0) g' (<[k := m - 1]> (ships sd)) in
    side_ok n sd' /\ played n sd sd' x y (elem k) (if m - 1 =? 0 then DOWN else HIT) /\
    forall v, v <> elem k -> v <> 42 -> count g' v = count (field sd) v.
Proof.
  intros Hs Hk Hk9 Hc m. pose proof (so_n _ _ Hs) as Hn.
  destruct (elem_not_mark k ltac:(lia)) as (H1 & H2 & H3 & H4).
  destruct (grid_set_count _ _ _ _ 42 (so_grid _ _ Hs) Hc H4) as (g' & Hset & Hg' & Hm & Hcell & Hv). fold m in Hm.
  pose proof (so_ships _ _ Hs k Hk) as Hsk. fold m in Hsk. split; [done|]. split; [done|].
  exists g'. split; [done|]. intros sd'. split; [|split].
  3:{ intros v V1 V2. rewrite Hv, !(proj2 (Z.eqb_neq _ _)) by done. lia. }
  - unfold sd'. rewrite (so_total _ _ Hs). rewrite <- (alive_insert _ _ m (m - 1) Hsk) by lia.
    eapply side_marked; [exact Hs|done|by right; left|exact Hv|rewrite length_insert; apply Hs|].
    intros j Hj. rewrite Hv. destruct (elem_not_mark j ltac:(lia)) as (J1 & J2 & J3 & J4).
    rewrite (proj2 (Z.eqb_neq (elem j) 42)) by done. destruct (decide (j = k)) as [->|Hne].
    + rewrite list_lookup_insert_eq by (by eapply lookup_lt_Some). rewrite Z.eqb_refl. f_equal. fold m. lia.
    + rewrite list_lookup_insert_ne by done. rewrite (so_ships _ _ Hs j Hj).
      rewrite (proj2 (Z.eqb_neq _ _)); [f_equal; lia|]. intros Heq. apply Hne, (elem_inj j k); [lia..|done].
  - unfold played. rewrite (proj2 (Z.eqb_neq _ 0) H4), (proj2 (Z.eqb_neq _ 47) H2), (proj2 (Z.eqb_neq _ 42) H3).
    cbn [orb]. unfold DEFAULT_ELEMENT. rewrite (proj2 (Z.eqb_neq _ 46) H1).
    exists k. split; [done|]. split; [done|]. rewrite (proj2 (Nat.ltb_lt _ _) Hk9). fold m.
    replace (m =? 1) with (m - 1 =? 0) by (destruct (Z.eqb_spec m 1), (Z.eqb_spec (m - 1) 0); lia || done).
    split; [done|]. split; [|split; [done|done]]. unfold marked. cbn [sd' field]. rewrite !Hv.
    rewrite (proj2 (Z.eqb_neq 47 (elem k))), (proj2 (Z.eqb_neq 42 (elem k))) by congruence. simpl. lia.
Qed.

Lemma play_on_ok n won sd m x y : side_ok n sd -> total sd <> 0 -> move_check (Some m) = Ok true ->
  move_column m = Ok x -> move_row m = Ok y ->
  exists c res sd', grid_get (field sd) x y = Ok c /\ play_on won sd (Some m) = Ok (res, sd') /\
    side_ok n sd' /\ played n sd sd' x y c res /\
    forall v, v <> c -> v <> 47 -> v <> 42 -> count (field sd') v = count (field sd) v.
Proof.
  intros Hs Ht Hm Hx Hy. destruct (grid_get_Ok (field sd) x y (so_grid _ _ Hs)) as [c Hc].
  unfold play_on, game_play_. rewrite (proj2 (Z.eqb_neq _ _) Ht), Hm. cbn [mbind ub_bind negb deref].
  rewrite Hx, Hy. cbn [mbind ub_bind]. rewrite Hc. cbn [mbind ub_bind]. exists c.
  destruct (Z.eqb_spec c 0) as [->|H0]; [exists BAD, sd; cbn; by rewrite ?side_eta|].
  destruct (Z.eqb_spec c DEFAULT_ELEMENT) as [->|Hd].
  { destruct (play_miss n sd x y Hs Hc) as (g' & -> & Hs' & Hp & Hv). cbn [mbind ub_bind].
    do 2 eexists. split; [done|]. split; [done|]. split; [done|]. split; [done|]. auto. }
  destruct ((c =? 47) || (c =? 42)) eqn:Emark.
  { exists REPEAT, sd. unfold played. rewrite (proj2 (Z.eqb_neq _ _) H0), Emark. done. }
  destruct (grid_set_count _ _ _ _ 42 (so_grid _ _ Hs) Hc H0) as (g0 & _ & _ & Hpos & _).
  destruct (so_cells _ _ Hs c Hpos) as [Hin|(k & Hk & ->)].
  { cbool. unfold DEFAULT_ELEMENT in Hd. repeat (apply elem_of_cons in Hin as [->|Hin]; [lia|]). by apply not_elem_of_nil in Hin. }
  pose proof (so_n _ _ Hs) as Hn. destruct (decide (k < 9)%nat) as [Hk9|Hk9].
  - destruct (play_hit n sd x y k Hs Hk Hk9 Hc) as (Hsk & Hm0 & g' & Hset & Hs' & Hp & Hv).
    assert (He : elem k = 49 + Z.of_nat k) by (rewrite elem_table by lia; by rewrite (proj2 (Nat.ltb_lt _ _) Hk9)).
    replace ((49 <=? elem k) && (elem k <=? 57)) with true by (symmetry; apply andb_true_iff; split; apply Z.leb_le; lia).
    cbv zeta. replace (elem k - INT_OFFSET - 1) with (Z.of_nat k) by (unfold INT_OFFSET; lia).
    rewrite (proj2 (Z.ltb_ge _ _)) by lia.
    rewrite Nat2Z.id, Hsk. cbn [mbind ub_bind].
    rewrite array_set_in by (pose proof (lookup_lt_Some _ _ _ Hsk); lia). cbn [mbind ub_bind]. rewrite Nat2Z.id.
    rewrite Hset. cbn [mbind ub_bind]. do 2 eexists. split; [done|]. split; [done|].
    destruct (count (field sd) (elem k) - 1 =? 0); cbn [Z.eqb HIT DOWN Pos.eqb];
      rewrite ?Z.sub_0_r in Hs', Hp; split_and!; auto.
  - replace ((49 <=? elem k) && (elem k <=? 57)) with false.
    2:{ rewrite elem_table by lia. rewrite (proj2 (Nat.ltb_ge _ _)) by lia. symmetry. apply andb_false_iff. right. apply Z.leb_gt. lia. }
    exists MISS, sd. split; [done|]. split; [done|]. split; [done|]. unfold played.
    rewrite (proj2 (Z.eqb_neq _ _) H0), Emark, (proj2 (Z.eqb_neq _ _) Hd). split; [exists k|done].
    by rewrite (proj2 (Nat.ltb_ge k 9)) by lia.
Qed.

(** ** Setting up *)

(** The grid has ships of the sizes [pre] and nothing else. *)
Record counted (g : grid) (pre : list Z) : Prop := {
  ct_ok : grid_ok g;
  ct_ships : forall k c, pre !! k = Some c -> count g (elem k) = c;
  ct_rest : forall v, v <> DEFAULT_ELEMENT -> (forall k, (k < length pre)%nat -> v <> elem k) -> count g v = 0;
}.

Lemma first_bad_cases g l : first_bad g l = 0 \/ first_bad g l = DRAW_BOUND_ERROR \/ first_bad g l = DRAW_OVERLAP_ERROR.
Proof.
  induction l as [|[x y] l IH]; [by left|]. cbn [first_bad]. case_if; [by right; left|].
  destruct (cell g x y); [|by right; left]. case_if; [by right; right|done].
Qed.

(** Drawing the next ship. *)
Lemma grid_draw_counted g pre x y m d r g' : counted g pre -> (length pre < 15)%nat -> 0 < m ->
  grid_draw g x y (49 + Z.of_nat (length pre)) m d = Ok (r, g') ->
  (r = 0 /\ counted g' (pre ++ [m])) \/ r = DRAW_BOUND_ERROR \/ r = DRAW_OVERLAP_ERROR \/ r = DRAW_DIRECTION_INVALID.
Proof.
  intros [Hok Hs Hr] Hl Hm. unfold grid_draw. destruct (is_direction d) eqn:Hd; cbn [negb];
    [|intros [= <- _]; by right; right; right].
  fold (elem (length pre)). unfold position_resolve. set (l := line (x - 1) (y - 1) (Z.to_nat m) d).
  destruct (draw_spec g (x - 1) (y - 1) (elem (length pre)) (Z.to_nat m) d Hok Hd) as (g1 & H1 & Hg1).
  fold l in H1, Hg1. rewrite H1. intros [= <- <-]. destruct (first_bad_cases g l) as [H0|[H0|H0]]; rewrite H0 in *;
    [left|by right; left|by right; right; left]. split; [done|]. destruct Hg1 as [Hok1 _ _ _ Hc].
  destruct (elem_not_mark (length pre) Hl) as (E1 & _). unfold l in Hc.
  assert (Hcount : forall v, v <> DEFAULT_ELEMENT -> count g1 v = count g v + (if v =? elem (length pre) then m else 0)).
  { intros v Hv. rewrite Hc by done. rewrite line_length, Z2Nat.id by lia. done. }
  split; [done| |].
  - intros k c Hk. apply lookup_snoc_Some in Hk as [[Hk Hc']|[-> <-]].
    + rewrite Hcount by (apply elem_not_mark; lia). rewrite (Hs _ _ Hc').
      rewrite (proj2 (Z.eqb_neq _ _)); [lia|]. intros Heq. apply elem_inj in Heq; lia.
    + rewrite Hcount by done. rewrite Z.eqb_refl, Hr; [lia|done|]. intros j Hj Heq. apply elem_inj in Heq; lia.
  - intros v Hv Hk. rewrite length_app, Nat.add_1_r in Hk. rewrite Hcount by done.
    rewrite (proj2 (Z.eqb_neq _ _)) by (apply Hk; lia). rewrite Hr; [done|done|]. intros k Hlt. apply Hk. lia.
Qed.

Section Setup.
Context {Q : Type} `{QueueI Q}.

Lemma draw_loop_ok sizes pre g q r g' q' : counted g pre -> (length pre + length sizes <= 15)%nat ->
  Forall (fun c => 0 < c) sizes ->
  draw_loop sizes (Z.of_nat (length pre)) g q = Ok (r, g', q') ->
  (r = 0 /\ counted g' (pre ++ sizes)) \/ r ∈ [GAME_QUEUE_ERROR; GAME_BOUND_ERROR; GAME_OVERLAP_ERROR].
Proof.
  revert pre g q. induction sizes as [|m sizes IH]; intros pre g q Hc Hl Hp; cbn [draw_loop].
  { intros [= <- <- _]. left. by rewrite app_nil_r. }
  apply Forall_cons in Hp as [Hm Hp]. simpl in Hl.
  destruct (qi_dequeue q) as [[t q1]|]; cbn [mbind ub_bind]; [|done].
  destruct t as [str|]; [|intros [= <- _ _]; right; by left].
  destruct (sscanf_cdc str) as [[check [[x y] d]]|]; cbn [mbind ub_bind]; [|done].
  destruct (negb _); [intros [= <- _ _]; right; by left|]. unfold INT_OFFSET.
  replace (Z.of_nat (length pre) + 48 + 1) with (49 + Z.of_nat (length pre)) by lia.
  destruct (grid_draw g _ y _ m d) as [[r1 g1]|] eqn:Hd; cbn [mbind ub_bind]; [|done].
  destruct (grid_draw_counted _ _ _ _ _ _ _ _ Hc ltac:(lia) Hm Hd) as [[-> Hc1]|[-> | [-> | ->]]].
  - cbn [Z.eqb negb]. replace (Z.of_nat (length pre) + 1) with (Z.of_nat (length (pre ++ [m])))
      by (rewrite length_app; simpl; lia). intros Hloop.
    apply IH in Hloop; [|done|rewrite length_app; simpl; lia|done]. by rewrite <- app_assoc in Hloop.
  - intros [= <- _ _]. right. right. by left.
  - intros [= <- _ _]. right. right. right. by left.
  - intros [= <- _ _]. right. by left.
Qed.

Lemma init_loop_ok n q sizes area r sizes' area' q' : Forall (fun c => 0 < c) sizes ->
  init_loop n q sizes area = Ok (r, sizes', area', q') ->
  Forall (fun c => 0 < c) sizes' /\ (r = 0 -> length sizes' = (length sizes + n)%nat).
Proof.
  revert q sizes area. induction n as [|n IH]; intros q sizes area Hs; cbn [init_loop].
  { intros [= <- <- _ _]. split; [done|lia]. }
  destruct (qi_dequeue q) as [[t q1]|]; cbn [mbind ub_bind]; [|done].
  destruct t as [s|]; cbn [deref mbind ub_bind]; [|done].
  destruct (sscanf_d s) as [[check m]|]; cbn [mbind ub_bind]; [|done].
  case_if; [intros [= <- <- _ _]; done|]. cbool. destruct (add_int area m); cbn [mbind ub_bind]; [|done].
  intros Hloop. assert (Hs' : Forall (fun c => 0 < c) (sizes ++ [m])) by (apply Forall_app; split; [done|]; apply Forall_cons; split; [lia|done]).
  apply (IH _ _ _ Hs') in Hloop as [H1 H2].
  split; [done|]. intros Hr. rewrite (H2 Hr), length_app. simpl. lia.
Qed.

Lemma game_init_ok x y s q e og q' : game_init x y s q = Ok (e, og, q') -> 0 <= s ->
  match og with
  | None => e = GAME_RULES_PROCESS_ERROR
  | Some g => e = 0 -> exists sizes gr, g = Game (Side s gr sizes) (Side s gr sizes) /\ counted gr [] /\
      length sizes = Z.to_nat s /\ Forall (fun c => 0 < c) sizes
  end.
Proof.
  unfold game_init. destruct (grid_init x y) as [gr|] eqn:Hg; [|by intros [= <- <- _]].
  destruct (init_loop _ _ _ _) as [[[[r sizes] area] q1]|] eqn:Hi; cbn [mbind ub_bind]; [|done].
  apply init_loop_ok in Hi as [Hp Hlen]; [|constructor]. intros Hres Hs.
  apply grid_init_ok in Hg as (Hok & _ & _ & Hz). destruct (Z.eqb_spec r 0) as [->|Hr]; cbn [negb] in Hres.
  - case_if in Hres; injection Hres as <- <- _; [done|]. intros _. exists sizes, gr. split; [done|].
    split; [split; [done|done|by auto]|]. split; [by apply Hlen|done].
  - by injection Hres as <- <- _.
Qed.

Lemma counted_side sizes gr s : counted gr sizes -> Forall (fun c => 0 < c) sizes -> (length sizes <= 15)%nat ->
  s = Z.of_nat (length sizes) -> side_ok (length sizes) (Side s gr sizes).
Proof.
  intros [Hok Hs Hr] Hp Hl ->. split; cbn [field ships total]; try done.
  - intros k Hk. destruct (lookup_lt_is_Some_2 sizes k Hk) as [c Hc]. by rewrite Hc, (Hs _ _ Hc).
  - f_equal. clear -Hp. induction Hp as [|c l Hc Hl IH]; [done|]. rewrite filter_cons_True by done. cbn [length]. by f_equal.
  - intros v Hv. destruct (decide (v = DEFAULT_ELEMENT)) as [->|Hne]; [left; by left|]. right.
    destruct (decide (v ∈ elem <$> seq 0 (length sizes))) as [Hin|Hno].
    + apply list_elem_of_fmap in Hin as (k & -> & Hk). apply elem_of_seq in Hk. exists k. split; [lia|done].
    + rewrite Hr in Hv; [lia|done|]. intros k Hk ->. apply Hno, list_elem_of_fmap_2, elem_of_seq. lia.
Qed.

Lemma game_draw_ok s gr sizes q c sd q' : counted gr [] -> (length sizes <= 15)%nat ->
  Forall (fun c => 0 < c) sizes -> game_draw (Side s gr sizes) (Some q) = Ok (c, sd, q') ->
  (c = 0 /\ exists gr', sd = Side s gr' sizes /\ counted gr' sizes) \/
  c ∈ [GAME_QUEUE_ERROR; GAME_BOUND_ERROR; GAME_OVERLAP_ERROR].
Proof.
  intros Hc Hl Hp. unfold game_draw. cbn [ships field total].
  destruct (draw_loop sizes 0 gr q) as [[[r g'] q1]|] eqn:Hd; cbn [mbind ub_bind]; [|done].
  intros [= <- <- _]. change 0 with (Z.of_nat (length (@nil Z))) in Hd.
  apply draw_loop_ok in Hd as [[-> Hc']|Hin]; try done; [|by right].
  left. split; [done|]. by exists g'.
Qed.

(** What [game_set] does once the counts are read. *)
Definition set_tail (d : game_data Q) (max_x max_y total_ships : Z) (q : Q) : ub (Z * option game * game_data Q) :=
  '(e, og, q) ← game_init max_x max_y total_ships q;
  match og with
  | None => Ok (e, None, Data q (d_player_map d) (d_cpu_map d))
  | Some g =>
      if negb (e =? 0) then Ok (e, Some g, Data q (d_player_map d) (d_cpu_map d)) else
      '(c, p, qp) ← game_draw (player g) (d_player_map d);
      '(cc, cp, qc) ← game_draw (cpu g) (d_cpu_map d);
      let d' := Data q qp qc in
      if negb (c =? 0) then
        if c =? GAME_QUEUE_ERROR then Ok (PROCESS_PLAYER_MAP_ERR, None, d')
        else if c =? GAME_BOUND_ERROR then Ok (OUT_BOUND_PLAYER_MAP_ERR, None, d')
        else if c =? GAME_OVERLAP_ERROR then Ok (OVERLAP_PLAYER_MAP_ERR, None, d')
        else Ok (0, None, d')
      else if negb (cc =? 0) then
        if cc =? GAME_QUEUE_ERROR then Ok (PROCESS_CPU_MAP_ERR, None, d')
        else if cc =? GAME_BOUND_ERROR then Ok (OUT_BOUND_CPU_MAP_ERR, None, d')
        else if cc =? GAME_OVERLAP_ERROR then Ok (OVERLAP_CPU_MAP_ERR, None, d')
        else Ok (0, None, d')
      else Ok (0, Some (Game p cp), d')
  end.

Lemma set_tail_ok d x y s q og d' qp qc : 1 <= s <= 15 -> d_player_map d = Some qp -> d_cpu_map d = Some qc ->
  set_tail d x y s q = Ok (0, og, d') ->
  exists g sizes grp grc, og = Some g /\ length sizes = Z.to_nat s /\ Forall (fun c => 0 < c) sizes /\
    g = Game (Side s grp sizes) (Side s grc sizes) /\ counted grp sizes /\ counted grc sizes.
Proof.
  intros Hs Hqp Hqc. unfold set_tail. rewrite Hqp, Hqc.
  destruct (game_init x y s q) as [[[e og1] q1]|] eqn:Hi; cbn [mbind ub_bind]; [|done].
  apply game_init_ok in Hi; [|lia]. destruct og1 as [g|]; [|subst e; done].
  destruct (Z.eqb_spec e 0) as [->|He]; cbn [negb]; [|by intros [= ? _ _]].
  destruct (Hi eq_refl) as (sizes & gr & -> & Hc & Hl & Hp). cbn [player cpu].
  destruct (game_draw (Side s gr sizes) (Some qp)) as [[[c p] qp']|] eqn:Hdp; cbn [mbind ub_bind]; [|done].
  destruct (game_draw (Side s gr sizes) (Some qc)) as [[[cc cp] qc']|] eqn:Hdc; cbn [mbind ub_bind]; [|done].
  apply game_draw_ok in Hdp; [|done|lia|done]. apply game_draw_ok in Hdc; [|done|lia|done].
  destruct (Z.eqb_spec c 0) as [->|Hc0]; cbn [negb].
  2:{ destruct Hdp as [[? _]|Hin]; [done|].
      repeat (apply elem_of_cons in Hin as [->|Hin]; [done|]). by apply not_elem_of_nil in Hin. }
  destruct (Z.eqb_spec cc 0) as [->|Hcc0]; cbn [negb].
  2:{ destruct Hdc as [[? _]|Hin]; [done|].
      repeat (apply elem_of_cons in Hin as [->|Hin]; [done|]). by apply not_elem_of_nil in Hin. }
  destruct Hdp as [(_ & grp & -> & Hcp)|Hin];
    [|exfalso; repeat (apply elem_of_cons in Hin as [Hin|Hin]; [done|]); by apply not_elem_of_nil in Hin].
  destruct Hdc as [(_ & grc & -> & Hcc)|Hin];
    [|exfalso; repeat (apply elem_of_cons in Hin as [Hin|Hin]; [done|]); by apply not_elem_of_nil in Hin].
  intros [= <- _]. by eexists _, sizes, grp, grc.
Qed.

Lemma game_set_tail d r : game_set d = Ok r -> r.1.1 = 0 ->
  exists x y s q, 1 <= s <= 15 /\ set_tail d x y s q = Ok r.
Proof.
  unfold game_set. intros Hg H0.
  destruct (qi_dequeue (d_game d)) as [[t1 q1]|]; cbn [mbind ub_bind] in Hg; [|done].
  destruct (deref t1) as [s1|]; cbn [mbind ub_bind] in Hg; [|done].
  destruct (sscanf_d s1) as [[c1 x]|]; cbn [mbind ub_bind] in Hg; [|done].
  destruct (qi_dequeue q1) as [[t2 q2]|]; cbn [mbind ub_bind] in Hg; [|done].
  destruct (deref t2) as [s2|]; cbn [mbind ub_bind] in Hg; [|done].
  destruct (sscanf_d s2) as [[c2 y]|]; cbn [mbind ub_bind] in Hg; [|done].
  destruct (negb _); [injection Hg as <-; done|].
  destruct (qi_dequeue q2) as [[t3 q3]|]; cbn [mbind ub_bind] in Hg; [|done].
  destruct (deref t3) as [s3|]; cbn [mbind ub_bind] in Hg; [|done].
  destruct (sscanf_d s3) as [[c3 n]|]; cbn [mbind ub_bind] in Hg; [|done].
  destruct (negb (u64 n =? qi_size q3) || (n <? 1) || (15 <? n)) eqn:E; [injection Hg as <-; done|].
  destruct (negb (c3 =? 1)); [injection Hg as <-; done|]. cbool. exists x, y, n, q3. split; [lia|exact Hg].
Qed.
End Setup.

Lemma set_ready {Q} `{QueueI Q} (d : game_data Q) og d' qp qc :
  d_player_map d = Some qp -> d_cpu_map d = Some qc -> game_set d = Ok (0, og, d') ->
  exists g n, og = Some g /\ (1 <= n <= 15)%nat /\ side_ok n (player g) /\ side_ok n (cpu g) /\
    ships (player g) = ships (cpu g) /\ total (player g) = Z.of_nat n /\ total (cpu g) = Z.of_nat n /\
    marked (player g) = 0 /\ marked (cpu g) = 0 /\ game_status g = GAME_ON.
Proof.
  intros Hp Hc Hg. apply game_set_tail in Hg as (x & y & s & q & Hs & Ht); [|done].
  destruct (set_tail_ok _ _ _ _ _ _ _ _ _ Hs Hp Hc Ht) as (g & sizes & grp & grc & -> & Hl & Hpos & -> & Hcp & Hcc).
  exists (Game (Side s grp sizes) (Side s grc sizes)), (length sizes). cbn [player cpu ships total].
  assert (Hn : s = Z.of_nat (length sizes)) by lia.
  assert (Hm : forall gr, counted gr sizes -> marked (Side s gr sizes) = 0).
  { intros gr [_ _ Hr]. unfold marked. cbn [field].
    rewrite !Hr; try done; intros k Hk; destruct (elem_not_mark k); [lia|naive_solver|lia|naive_solver]. }
  repeat split; try lia; try (by apply counted_side; (done || lia)); try (by apply Hm).
  unfold game_status. cbn [cpu player total]. by rewrite !(proj2 (Z.eqb_neq s 0)) by lia.
Qed.

(** A game that [game_set] reports as ready has both maps drawn: as many ships as the
    rules say, from 1 to 15, each with as many cells as its size, and every counter is
    the number of the cells of its ship; and it is not ready when there is no game. *)
Theorem game_set_ready {Q} `{QueueI Q} (d : game_data Q) og d' qp qc :
  d_player_map d = Some qp -> d_cpu_map d = Some qc -> game_set d = Ok (0, og, d') ->
  exists g n, og = Some g /\ (1 <= n <= 15)%nat /\ side_ok n (player g) /\ side_ok n (cpu g) /\
    ships (player g) = ships (cpu g) /\ total (player g) = Z.of_nat n /\ total (cpu g) = Z.of_nat n /\
    marked (player g) = 0 /\ marked (cpu g) = 0 /\ game_status g = GAME_ON.
Proof. apply set_ready. Qed.

(** ** Moves *)

(** A move that passes the check is answered by what its cell is: nothing there and a
    mark, a hit and a mark, the last cell of a ship and a mark (and one ship less), or a
    cell that was guessed already or is outside, which changes nothing.  The ship's
    counters stay the numbers of its cells.  A ship from the tenth on is never hit. *)
Theorem move_answered n won sd m : side_ok n sd -> total sd <> 0 -> move_check (Some m) = Ok true ->
  exists x y c res sd', move_column m = Ok x /\ move_row m = Ok y /\ grid_get (field sd) x y = Ok c /\
    play_on won sd (Some m) = Ok (res, sd') /\ side_ok n sd' /\ played n sd sd' x y c res.
Proof.
  intros Hs Ht Hm. destruct (move_parts m Hm) as (x & y & Hx & Hy & _).
  destruct (play_on_ok n won sd m x y Hs Ht Hm Hx Hy) as (c & res & sd' & Hc & Hp & Hs' & Hpl & _).
  by exists x, y, c, res, sd'.
Qed.

Fixpoint play_all (won : Z) (sd : side) (ms : list thing) : ub (list Z * side) :=
  match ms with
  | [] => Ok ([], sd)
  | m :: ms' => '(r, sd1) ← play_on won sd m; '(rs, sd2) ← play_all won sd1 ms'; Ok (r :: rs, sd2)
  end.

(** A result that ends the turn of a player. *)
Definition counts (r : Z) : bool := (r =? MISS) || (r =? HIT) || (r =? DOWN).

(** What a move keeps or counts. *)
Record stepped (n : nat) (sd sd' : side) (r : Z) : Prop := {
  st_ok : side_ok n sd';
  st_total : total sd' = total sd - (if r =? DOWN then 1 else 0);
  st_marked : (n <= 9)%nat -> marked sd' = marked sd + (if counts r then 1 else 0);
  st_tenth : forall k, (9 <= k < n)%nat -> count (field sd') (elem k) = count (field sd) (elem k);
}.

Lemma stepped_same n sd r : side_ok n sd -> counts r = false -> stepped n sd sd r.
Proof.
  intros Hs Hr. split; try done; [|by rewrite Hr, Z.add_0_r]. unfold counts in Hr. cbool.
  destruct Hr as [_ Hr]. rewrite (proj2 (Z.eqb_neq _ _)) by done. lia.
Qed.

Lemma played_stepped n sd sd' x y c r : side_ok n sd -> side_ok n sd' -> played n sd sd' x y c r ->
  (forall v, v <> c -> v <> 47 -> v <> 42 -> count (field sd') v = count (field sd) v) -> stepped n sd sd' r.
Proof.
  intros Hs Hs' Hp Hv. unfold played in Hp. pose proof (so_n _ _ Hs) as Hn.
  destruct (c =? 0); [destruct Hp as [-> ->]; by apply stepped_same|].
  destruct ((c =? 47) || (c =? 42)); [destruct Hp as [-> ->]; by apply stepped_same|].
  destruct (Z.eqb_spec c DEFAULT_ELEMENT) as [->|_].
  - destruct Hp as (-> & Hsh & Ht & Hm & _). split; [done|rewrite Ht; simpl; lia|done|].
    intros k Hk. destruct (elem_not_mark k) as (H1 & H2 & H3 & _); [lia|]. by apply Hv.
  - destruct Hp as (k & Hk & -> & Hp). destruct (Nat.ltb_spec k 9) as [Hk9|Hk9].
    + destruct Hp as (-> & Hm & Ht & _). split; [done|rewrite Ht|intros _; rewrite Hm|]; [by destruct (count _ _ =? 1)..|].
      intros j Hj. destruct (elem_not_mark j) as (H1 & H2 & H3 & _); [lia|]. apply Hv; [|done..].
      intros Heq. apply elem_inj in Heq; lia.
    + destruct Hp as [-> ->]. split; [done|simpl; lia|lia|done].
Qed.

Lemma play_on_step n won sd m r sd' : side_ok n sd -> won = WIN_CPU \/ won = WIN_PLAYER ->
  play_on won sd m = Ok (r, sd') -> stepped n sd sd' r.
Proof.
  intros Hs Hw Hp. destruct (Z.eqb_spec (total sd) 0) as [Ht|Ht].
  { unfold play_on in Hp. rewrite Ht in Hp. injection Hp as <- <-. apply stepped_same; [done|].
    by destruct Hw as [-> | ->]. }
  destruct (move_check m) as [[]|] eqn:Hm; [|by unfold play_on, game_play_ in Hp;
    rewrite (proj2 (Z.eqb_neq _ _) Ht), Hm in Hp; injection Hp as <- <-; apply stepped_same|by
    unfold play_on, game_play_ in Hp; rewrite (proj2 (Z.eqb_neq _ _) Ht), Hm in Hp].
  destruct m as [m|]; [|done]. destruct (move_parts m Hm) as (x & y & Hx & Hy & _).
  destruct (play_on_ok n won sd m x y Hs Ht Hm Hx Hy) as (c & res & sd2 & Hc & Hp2 & Hs' & Hpl & Hv).
  rewrite Hp in Hp2. injection Hp2 as <- <-. by eapply played_stepped.
Qed.

Definition n_counted (rs : list Z) : Z := Z.of_nat (length (List.filter counts rs)).
Definition n_down (rs : list Z) : Z := Z.of_nat (length (List.filter (fun r => r =? DOWN) rs)).

Lemma play_all_steps n won sd ms rs sd' : side_ok n sd -> won = WIN_CPU \/ won = WIN_PLAYER ->
  play_all won sd ms = Ok (rs, sd') ->
  side_ok n sd' /\ total sd' = total sd - n_down rs /\
  ((n <= 9)%nat -> marked sd' = marked sd + n_counted rs) /\
  (forall k, (9 <= k < n)%nat -> count (field sd') (elem k) = count (field sd) (elem k)).
Proof.
  intros Hs Hw. revert sd rs Hs. induction ms as [|m ms IH]; intros sd rs Hs; cbn [play_all].
  { intros [= <- <-]. unfold n_down, n_counted. simpl. split_and!; try done; lia. }
  destruct (play_on won sd m) as [[r sd1]|] eqn:Hp; cbn [mbind ub_bind]; [|done].
  destruct (play_on_step n won sd m r sd1 Hs Hw Hp) as [Hs1 Ht1 Hm1 Hk1].
  destruct (play_all won sd1 ms) as [[rs2 sd2]|] eqn:Hp2; cbn [mbind ub_bind]; [|done]. intros [= <- <-].
  destruct (IH sd1 rs2 Hs1 Hp2) as (Hs2 & Ht2 & Hm2 & Hk2). unfold n_down, n_counted in *. cbn [List.filter].
  split_and!; [done| | |].
  - rewrite Ht2, Ht1. destruct (r =? DOWN); simpl; lia.
  - intros Hn. rewrite (Hm2 Hn), (Hm1 Hn). destruct (counts r); simpl; lia.
  - intros k Hk. by rewrite (Hk2 k Hk), (Hk1 k Hk).
Qed.

Lemma count_two (l : list Z) a b : a <> b ->
  (length (filter (fun e => e = a) l) + length (filter (fun e => e = b) l) <= length l)%nat.
Proof.
  intros Hab. induction l as [|x l IH]; [done|]. rewrite !filter_cons.
  destruct (decide (x = a)), (decide (x = b)); simpl; lia.
Qed.

Lemma concat_length (l : list (list Z)) w : Forall (fun r => length r = w) l -> length (concat l) = (length l * w)%nat.
Proof. induction 1 as [|r l Hr Hl IH]; [done|]. cbn [concat length]. rewrite length_app. lia. Qed.

Lemma marked_bound sd n : side_ok n sd -> 0 <= marked sd <= size_x (field sd) * size_y (field sd).
Proof.
  intros [[Hx Hy Hr Hf] _ _ _ _ _]. unfold marked, count.
  pose proof (count_two (concat (plain (field sd))) 47 42 ltac:(done)) as H.
  rewrite (concat_length _ _ Hf), Hr in H. nia.
Qed.

(** The side has lost exactly when no cell of a ship is left. *)
Lemma lost_iff n sd : side_ok n sd -> total sd = 0 <-> forall k, (k < n)%nat -> count (field sd) (elem k) = 0.
Proof.
  intros [_ _ Hl Hs Ht _]. rewrite Ht. split.
  - intros H0 k Hk. pose proof (Hs k Hk) as Hsk. pose proof (count_nonneg (field sd) (elem k)).
    destruct (decide (0 < count (field sd) (elem k))) as [Hpos|]; [|lia]. exfalso.
    assert (count (field sd) (elem k) ∈ filter (fun c => 0 < c) (ships sd)) as Hin
      by (apply list_elem_of_filter; split; [done|by eapply list_elem_of_lookup_2]).
    destruct (filter _ (ships sd)); [by apply not_elem_of_nil in Hin|simpl in H0; lia].
  - intros H0. destruct (filter _ (ships sd)) as [|c l] eqn:Hf; [done|]. exfalso.
    assert (Hin : c ∈ c :: l) by left. rewrite <- Hf in Hin. apply list_elem_of_filter in Hin as [Hc Hin].
    apply list_elem_of_lookup in Hin as [k Hk]. pose proof (lookup_lt_Some _ _ _ Hk) as Hlt. rewrite Hl in Hlt.
    rewrite (Hs k Hlt) in Hk. injection Hk as <-. rewrite (H0 k Hlt) in Hc. lia.
Qed.

Lemma grid_set_sizes g x y e c g' : grid_set g x y e = Ok (c, g') -> size_x g' = size_x g /\ size_y g' = size_y g.
Proof.
  unfold grid_set, cell_set. case_if; [by intros [= _ <-]|]. intros Hg.
  apply ub_bind_ok in Hg as (g1 & Hg & [= _ <-]). by apply ub_bind_ok in Hg as (v & _ & [= <-]).
Qed.

Lemma play_on_sizes won sd m r sd' : play_on won sd m = Ok (r, sd') ->
  size_x (field sd') = size_x (field sd) /\ size_y (field sd') = size_y (field sd).
Proof.
  unfold play_on. case_if; [by intros [= _ <-]|]. rewrite ub_bind_ok. intros ([res sd1] & Hp & [= _ <-]).
  enough (size_x (field sd1) = size_x (field sd) /\ size_y (field sd1) = size_y (field sd)) by (by case_if).
  revert Hp. unfold game_play_. rewrite ub_bind_ok. intros (ok & _ & Hp). case_if in Hp; [by injection Hp as _ <-|].
  apply ub_bind_ok in Hp as (s & _ & Hp). apply ub_bind_ok in Hp as (x & _ & Hp).
  apply ub_bind_ok in Hp as (y & _ & Hp). apply ub_bind_ok in Hp as (e & _ & Hp).
  repeat case_if in Hp; try (injection Hp as _ <-; done); [|by rewrite ub_bind_ok in Hp; destruct Hp as (? & [=] & _)|].
  - apply ub_bind_ok in Hp as ([c g] & Hg & [= _ <-]). by eapply grid_set_sizes.
  - apply ub_bind_ok in Hp as (k & _ & Hp). apply ub_bind_ok in Hp as (sh & _ & Hp).
    apply ub_bind_ok in Hp as ([c g] & Hg & [= _ <-]). by eapply grid_set_sizes.
Qed.

Lemma play_all_sizes won ms sd rs sd' : play_all won sd ms = Ok (rs, sd') ->
  size_x (field sd') = size_x (field sd) /\ size_y (field sd') = size_y (field sd).
Proof.
  revert sd rs; induction ms as [|m ms IH]; intros sd rs; cbn [play_all]; [by intros [= _ <-]|].
  rewrite ub_bind_ok. intros ([r sd1] & H1 & Hp). apply ub_bind_ok in Hp as ([rs2 sd2] & H2 & [= _ <-]).
  apply play_on_sizes in H1 as [<- <-]. by apply IH in H2.
Qed.

(** A side that has lost answers every move with its loss. *)
Lemma play_all_lost won sd ms : total sd = 0 -> play_all won sd ms = Ok (replicate (length ms) won, sd).
Proof.
  intros H0. induction ms as [|m ms IH]; [done|]. cbn [play_all length replicate].
  unfold play_on at 1. rewrite H0. cbn [Z.eqb mbind ub_bind]. rewrite IH. done.
Qed.

(** C30: In a game with at most nine ships any sequence of moves keeps the counters right:
    each move that is answered with a miss, a hit or a sunk ship marks a cell that was not
    marked, so there are at most as many as the board has cells; the side has as many ships
    less as moves were answered with a sunk ship, it has lost exactly when no cell of a ship
    is left, and then every further move, whatever it is, is answered with the winner and
    changes nothing. *)
Theorem moves_finish n won sd ms rs sd' : side_ok n sd -> (n <= 9)%nat -> won = WIN_CPU \/ won = WIN_PLAYER ->
  play_all won sd ms = Ok (rs, sd') ->
  side_ok n sd' /\ (total sd' = 0 <-> forall k, (k < n)%nat -> count (field sd') (elem k) = 0) /\
  total sd' = total sd - n_down rs /\ marked sd' = marked sd + n_counted rs /\
  n_counted rs <= size_x (field sd) * size_y (field sd) /\
  (total sd' = 0 -> forall ms', play_all won sd' ms' = Ok (replicate (length ms') won, sd')).
Proof.
  intros Hs Hn Hw Hp. destruct (play_all_steps n won sd ms rs sd' Hs Hw Hp) as (Hs' & Ht & Hm & _).
  specialize (Hm Hn). split_and!; [done|by apply lost_iff|done|done| |intros H0 ms'; by apply play_all_lost].
  pose proof (marked_bound _ _ Hs') as Hb. pose proof (marked_bound _ _ Hs) as Hb0.
  destruct (play_all_sizes won ms sd rs sd' Hp) as [Hx Hy]. rewrite Hx, Hy in Hb. lia.
Qed.

(** A player with ten ships or more never loses: the tenth ship, drawn as a letter, is
    not hit by any move. *)
Theorem tenth_ship_never_sinks n won sd ms rs sd' : side_ok n sd -> (9 < n)%nat -> won = WIN_CPU \/ won = WIN_PLAYER ->
  0 < count (field sd) (elem 9) -> play_all won sd ms = Ok (rs, sd') -> 0 < total sd'.
Proof.
  intros Hs Hn Hw Hc Hp. destruct (play_all_steps n won sd ms rs sd' Hs Hw Hp) as (Hs' & _ & _ & Hk).
  specialize (Hk 9%nat ltac:(lia)). pose proof (lost_iff n sd' Hs') as Hl.
  rewrite (so_total _ _ Hs') in *. destruct (decide (length (filter (fun c => 0 < c) (ships sd')) = 0%nat)) as [H0|]; [|lia].
  apply Hl with (k := 9%nat) in Hn; [|by rewrite H0]. lia.
Qed.

(** *** Witnesses *)

(** A queue of its own heap with [xs] in it. *)
Definition queue_of (xs : list string) : heap * queue :=
  match enqueue_all empty_heap queue_init xs with Ok hq => hq | UB _ => (empty_heap, queue_init) end.

Definition sample_data : game_data (heap * queue) :=
  Data (queue_of ["8"; "8"; "2"; "3"; "2"]%string)
    (Some (queue_of ["C1 S"; "E2 E"]%string)) (Some (queue_of ["H8 W"; "A4 N"]%string)).

Definition sample_result : Z * option game * game_data (heap * queue) := Eval vm_compute in
  match game_set sample_data with Ok r => r | UB _ => (1, None, sample_data) end.

Lemma sample_set : game_set sample_data = Ok (0, sample_result.1.2, sample_result.2).
Proof. vm_compute. reflexivity. Qed.

Lemma game_set_ready_witness : exists g n, sample_result.1.2 = Some g /\ (1 <= n <= 15)%nat /\
  side_ok n (player g) /\ side_ok n (cpu g) /\ ships (player g) = ships (cpu g) /\
  total (player g) = Z.of_nat n /\ total (cpu g) = Z.of_nat n /\
  marked (player g) = 0 /\ marked (cpu g) = 0 /\ game_status g = GAME_ON.
Proof.
  exact (game_set_ready sample_data sample_result.1.2 sample_result.2 _ _ eq_refl eq_refl sample_set).
Defined.

Definition sample_game : game := match sample_result.1.2 with Some g => g | None => Game (Side 0 sample_grid []) (Side 0 sample_grid []) end.

Lemma sample_sides : side_ok 2 (player sample_game) /\ side_ok 2 (cpu sample_game).
Proof.
  destruct (set_ready sample_data sample_result.1.2 sample_result.2 _ _ eq_refl eq_refl sample_set)
    as (g & n & Hg & _ & Hp & Hc & _ & Ht & _).
  assert (g = sample_game) as -> by (cbv in Hg; injection Hg as <-; reflexivity).
  assert (n = 2%nat) as -> by (change (total (player sample_game)) with 2 in Ht; lia). done.
Qed.

Lemma move_answered_witness : exists x y c res sd',
  move_column "C3" = Ok x /\ move_row "C3" = Ok y /\ grid_get (field (player sample_game)) x y = Ok c /\
  play_on WIN_CPU (player sample_game) (Some "C3"%string) = Ok (res, sd') /\ side_ok 2 sd' /\
  played 2 (player sample_game) sd' x y c res.
Proof. exact (move_answered 2 WIN_CPU (player sample_game) "C3" (proj1 sample_sides) ltac:(done) eq_refl). Defined.

Definition sample_moves : list thing := Some <$> ["C1"; "C2"; "C2"; "H8"; "C3"; "E2"; "F2"; "A1"]%string.

Definition sample_end : list Z * side := Eval vm_compute in
  match play_all WIN_CPU (player sample_game) sample_moves with Ok r => r | UB _ => ([], player sample_game) end.

Lemma moves_finish_witness : sample_end.1 = [HIT; HIT; REPEAT; MISS; DOWN; HIT; DOWN; WIN_CPU] /\
  side_ok 2 sample_end.2 /\ (total sample_end.2 = 0 <-> forall k, (k < 2)%nat -> count (field sample_end.2) (elem k) = 0) /\
  total sample_end.2 = total (player sample_game) - n_down sample_end.1 /\
  marked sample_end.2 = marked (player sample_game) + n_counted sample_end.1 /\
  n_counted sample_end.1 <= size_x (field (player sample_game)) * size_y (field (player sample_game)) /\
  (total sample_end.2 = 0 -> forall ms', play_all WIN_CPU sample_end.2 ms' = Ok (replicate (length ms') WIN_CPU, sample_end.2)).
Proof.
  split; [reflexivity|].
  refine (moves_finish 2 WIN_CPU (player sample_game) sample_moves sample_end.1 sample_end.2
    (proj1 sample_sides) _ _ _); [lia|by left|vm_compute; reflexivity].
Defined.

(** Ten ships of one cell each. *)
Definition ten_data : game_data (heap * queue) :=
  let m := Some (queue_of ["A1 S"; "B1 S"; "C1 S"; "D1 S"; "E1 S"; "F1 S"; "G1 S"; "H1 S"; "A2 S"; "B2 S"]%string) in
  Data (queue_of ["8"; "8"; "10"; "1"; "1"; "1"; "1"; "1"; "1"; "1"; "1"; "1"; "1"]%string) m m.
Definition ten_result : Z * option game * game_data (heap * queue) := Eval vm_compute in
  match game_set ten_data with Ok r => r | UB _ => (1, None, ten_data) end.
Definition ten_side : side := match ten_result.1.2 with Some g => cpu g | None => Side 0 sample_grid [] end.

Lemma ten_side_ok : side_ok 10 ten_side.
Proof.
  assert (Hset : game_set ten_data = Ok (0, ten_result.1.2, ten_result.2)) by (vm_compute; reflexivity).
  destruct (set_ready ten_data ten_result.1.2 ten_result.2 _ _ eq_refl eq_refl Hset)
    as (g & n & Hg & _ & _ & Hc & _ & _ & Ht & _).
  assert (Hcg : cpu g = ten_side) by (cbv in Hg; injection Hg as <-; reflexivity).
  rewrite Hcg in Hc, Ht.
  assert (n = 10%nat) as -> by (change (total ten_side) with 10 in Ht; lia). done.
Qed.

Definition ten_moves : list thing :=
  Some <$> ["A1"; "B1"; "C1"; "D1"; "E1"; "F1"; "G1"; "H1"; "A2"; "B2"; "B2"]%string.
Definition ten_end : list Z * side := Eval vm_compute in
  match play_all WIN_PLAYER ten_side ten_moves with Ok r => r | UB _ => ([], ten_side) end.

Lemma tenth_ship_never_sinks_witness : ten_end.1 = replicate 9 DOWN ++ [MISS; MISS] /\ 0 < total ten_end.2.
Proof.
  split; [reflexivity|].
  refine (tenth_ship_never_sinks 10 WIN_PLAYER ten_side ten_moves ten_end.1 ten_end.2 ten_side_ok _ _ _ _);
    [lia|by right|vm_compute; reflexivity|vm_compute; reflexivity].
Defined.
