(* ===== verification/GHub.v ===== *)
(** * The hub of the game ([2310hub.c] and [display.h] of [src/5.Game-Management])

    The hub asks the two agents in turn for a move until one is accepted, tells both what
    became of it, and stops when one of them has lost.  What an agent answers is a list of
    the contents that [fgets] gives the buffer; when the list is used up the hub waits. *)

From S2P Require Import Prelude CText GThing GList GGrid GGame.

#[local] Open Scope string_scope.
#[local] Open Scope list_scope.
#[local] Open Scope Z_scope.

Inductive output := To (agent : Z) (bytes : string) | Stdout (text : string).

Definition newline : string := chr 10.
(** [write(fd, "\n", 2)] sends the terminator too. *)
Definition newline_2 : string := (newline ++ chr 0)%string.

Definition display_selector (r : Z) : string :=
  if r =? MISS then "MISS" else if r =? HIT then "HIT" else if r =? DOWN then "SHIP SUNK"
  else if r =? BAD then "BAD GUESS" else if r =? REPEAT then "REPEATED GUESS"
  else if r =? EXHAUST_MOVES_CPU then "CPU gives up" else if r =? ILLEGAL_M then "BAD GUESS"
  else if r =? GAME_ON then "" else ("Unknown" ++ newline)%string.

Definition display_result (r : Z) : string :=
  if r =? WIN_PLAYER then ("GAME OVER - player 1 wins" ++ newline)%string
  else if r =? WIN_CPU then ("GAME OVER - player 2 wins" ++ newline)%string
  else display_selector r.

(** [m1 = thing_copy(buffer); m1 = m1 + 6]. *)
Definition answer_move (buffer : string) : ub thing :=
  t ← thing_copy (Some buffer); s ← deref t;
  if strlen s <? 6 then UB out_of_bounds
  else Ok (Some (String.substring 6 (String.length s - 6) s)).

(** The loop that asks agent [a] until its move is accepted: the code, the move, the game
    and the answers that are left. *)
Fixpoint ask (a : Z) (play : game -> thing -> ub (Z * game)) (g : game) (answers : list string) :
    ub (list output * game * option (Z * thing) * list string) :=
  let out := [To a "YT"; To a newline] in
  match answers with
  | [] => Ok (out, g, None, [])
  | b :: rest =>
      m ← answer_move b;
      '(c, g1) ← play g m;
      if c <? 0 then '(out', g2, r, rest') ← ask a play g1 rest; Ok (out ++ out', g2, r, rest')
      else Ok (out, g1, Some (c, m), rest)
  end.

(** The message about a move of agent [a]. *)
Definition message (a c : Z) (m : thing) : ub thing :=
  t ← thing_copy (Some (display_selector c));
  t1 ← thing_add t (Some (if a =? 1 then "1" else "2")) space;
  t2 ← thing_add t1 m (Ascii.ascii_of_nat 44);
  thing_add t2 (Some "") NUL.

(** The turn of agent [a]: [None] when the hub waits for it. *)
Definition turn (a : Z) (g : game) (answers : list string) :
    ub (list output * game * bool * list string) :=
  '(out, g1, r, rest) ← ask a (if a =? 1 then game_play_player else game_play_cpu) g answers;
  match r with
  | None => Ok (out, g1, false, rest)
  | Some (c, m) =>
      msg ← message a c m; s ← deref msg;
      mv ← deref m;
      let b := 3 - a in
      Ok (out ++ [To a "OK"; To a (if a =? 1 then newline_2 else newline);
                  Stdout (display_result c);
                  Stdout ((if (a =? 1)%Z then " player 1 guessed " else " player 2 guessed ") ++ mv)%string;
                  To a s; To a newline; To b s; To b newline], g1, true, rest)
  end.

Inductive result := Over (status : Z) (g : game) | Waiting (agent : Z) (g : game).

Definition finish (g : game) : list output :=
  [Stdout (display_result (game_status g)); To 1 "DONE"; To 1 newline; To 2 "DONE"; To 2 newline].

(** The head of a round. *)
Definition announce (g : game) : list output :=
  [Stdout ("**********" ++ newline)%string; Stdout ("ROUND " ++ "0" ++ newline)%string; Stdout (game_show g)].

(** The loop of [main]; each round takes an answer of agent 1. *)
Fixpoint hub_loop (fuel : nat) (g : game) (a1 a2 : list string) : ub (list output * result) :=
  if negb (game_status g =? GAME_ON) then Ok (finish g, Over (game_status g) g) else
  match fuel with
  | O => UB no_fuel
  | S fuel' =>
      '(out1, g1, done1, r1) ← turn 1 g a1;
      if negb done1 then Ok (announce g ++ out1, Waiting 1 g1) else
      if negb (game_status g1 =? GAME_ON)
      then Ok (announce g ++ out1 ++ finish g1, Over (game_status g1) g1) else
      '(out2, g2, done2, r2) ← turn 2 g1 a2;
      if negb done2 then Ok (announce g ++ out1 ++ out2, Waiting 2 g2) else
      '(out, r) ← hub_loop fuel' g2 r1 r2;
      Ok (announce g ++ out1 ++ out2 ++ out, r)
  end.

Definition hub (g : game) (a1 a2 : list string) : ub (list output * result) :=
  hub_loop (S (length a1)) g a1 a2.

(** ** What an answer guesses *)

(** An answer that is long enough and whose move can be checked. *)
Definition good_answer (b : string) : bool :=
  match answer_move b with
  | Ok m => match move_check m with Ok _ => true | UB _ => false end
  | UB _ => false
  end.

(** The cell that a legal answer names, counted from 0. *)
Definition guess (b : string) : option (Z * Z) :=
  match answer_move b with
  | Ok (Some m) =>
      match move_check (Some m), move_column m, move_row m with
      | Ok true, Ok x, Ok y => Some (x - 1, y - 1)
      | _, _, _ => None
      end
  | _ => None
  end.

(** Each cell of the side was guessed, or is in one of the answers. *)
Definition pending (sd : side) (answers : list string) : Prop := forall i j c,
  cell (field sd) i j = Ok c -> c = 47 \/ c = 42 \/ exists b, b ∈ answers /\ guess b = Some (i, j).

(** The side that agent [a] shoots at, and its own. *)
Definition target (a : Z) (g : game) : side := if a =? 1 then cpu g else player g.
Definition own (a : Z) (g : game) : side := if a =? 1 then player g else cpu g.

Definition game_ok (n : nat) (g : game) : Prop := side_ok n (player g) /\ side_ok n (cpu g).

(** ** Proofs *)

Lemma cell_count g i j c : grid_ok g -> cell g i j = Ok c -> 0 < count g c.
Proof.
  intros Hg Hc. destruct (cell_set_spec g i j 0 c Hg Hc) as (g' & _ & _ & _ & _ & _ & a & b & Ha & _).
  unfold count. rewrite Ha, filter_app, filter_cons_True, length_app by done. simpl. lia.
Qed.

Lemma count_cell g v : 0 < count g v -> exists i j, cell g i j = Ok v.
Proof.
  unfold count. intros Hc. destruct (filter _ _) as [|e l] eqn:Hf; [simpl in Hc; lia|].
  assert (He : e ∈ e :: l) by left. rewrite <- Hf in He. apply list_elem_of_filter in He as [-> He].
  apply list_elem_of_In, in_concat in He as (r & Hr & He). apply list_elem_of_In in Hr, He.
  apply list_elem_of_lookup in Hr as [j Hr]. apply list_elem_of_lookup in He as [i He].
  exists (Z.of_nat i), (Z.of_nat j). unfold cell.
  replace ((Z.of_nat i <? 0) || (Z.of_nat j <? 0)) with false by (symmetry; apply orb_false_iff; split; apply Z.ltb_ge; lia).
  rewrite !Nat2Z.id, Hr. cbn [mbind option_bind]. by rewrite He.
Qed.

(** A cell that is there can be had by its position from 1, and is no NUL. *)
Lemma cell_get n sd i j c : side_ok n sd -> cell (field sd) i j = Ok c ->
  grid_get (field sd) (i + 1) (j + 1) = Ok c /\ c <> 0.
Proof.
  intros Hs Hc. pose proof (so_grid _ _ Hs) as Hg. split.
  - unfold grid_get, position_resolve. rewrite !Z.add_simpl_r.
    destruct (cell_pos _ _ _ _ Hc) as (Hx & Hy & r & Hr & Hrc). destruct Hg as [_ _ Hl Hf].
    apply lookup_lt_Some in Hr as Hr'. apply lookup_lt_Some in Hrc. rewrite Forall_lookup in Hf.
    rewrite (Hf _ _ Hr) in Hrc. rewrite (proj2 (check_inside_spec _ _ _)) by lia. done.
  - intros ->. pose proof (cell_count _ _ _ _ Hg Hc) as H0.
    destruct (so_cells _ _ Hs 0 H0) as [Hin|(k & Hk & He)].
    + repeat (apply elem_of_cons in Hin as [Hin|Hin]; [done|]). by apply not_elem_of_nil in Hin.
    + pose proof (so_n _ _ Hs) as Hn15. destruct (elem_not_mark k ltac:(lia)) as (_ & _ & _ & H). congruence.
Qed.

Lemma all_marked_lost n sd : side_ok n sd -> pending sd [] -> total sd = 0.
Proof.
  intros Hs Hp. apply (lost_iff n sd Hs). intros k Hk. pose proof (so_n _ _ Hs) as Hn.
  destruct (elem_not_mark k ltac:(lia)) as (_ & H1 & H2 & _). pose proof (count_nonneg (field sd) (elem k)) as Hc.
  destruct (decide (0 < count (field sd) (elem k))) as [Hpos|]; [|lia]. exfalso.
  apply count_cell in Hpos as (i & j & Hij). destruct (Hp i j _ Hij) as [?|[?|(b & Hb & _)]]; try done.
  by apply not_elem_of_nil in Hb.
Qed.

(** A move on a side: it is accepted exactly when it ends the turn, and an answer that was
    played is not pending any more. *)
Lemma played_pending n sd sd' x y c r b rest : side_ok n sd -> (n <= 9)%nat -> guess b = Some (x - 1, y - 1) ->
  grid_get (field sd) x y = Ok c -> played n sd sd' x y c r ->
  (r <? 0) = negb (counts r) /\ (pending sd (b :: rest) -> pending sd' rest).
Proof.
  intros Hs Hn Hb Hc Hp. unfold played in Hp.
  assert (Hmark : forall e, e = 47 \/ e = 42 -> (forall i j, cell (field sd') i j =
      if bool_decide ((i, j) = (x - 1, y - 1)) then Ok e else cell (field sd) i j) ->
    pending sd (b :: rest) -> pending sd' rest).
  { intros e He Hcell Hpend i j d. rewrite Hcell. case_bool_decide as Hij; [intros [= <-]; tauto|].
    intros Hd. destruct (Hpend i j d Hd) as [?|[?|(b' & Hb' & Hg)]]; [tauto|tauto|].
    apply elem_of_cons in Hb' as [->|Hb']; [congruence|]. right. right. by exists b'. }
  assert (Hsame : (c = 0 \/ c = 47 \/ c = 42) -> pending sd (b :: rest) -> pending sd rest).
  { intros Hcm Hpend i j d Hd. destruct (Hpend i j d Hd) as [?|[?|(b' & Hb' & Hg)]]; [tauto|tauto|].
    apply elem_of_cons in Hb' as [->|Hb']; [|right; right; by exists b'].
    rewrite Hb in Hg. injection Hg as <- <-. destruct (cell_get n sd _ _ d Hs Hd) as [Hget Hd0].
    rewrite !Z.sub_add in Hget. rewrite Hget in Hc. injection Hc as <-. tauto. }
  destruct (Z.eqb_spec c 0) as [->|_]; [destruct Hp as [-> ->]; auto|].
  destruct ((c =? 47) || (c =? 42)) eqn:Em; [destruct Hp as [-> ->]; cbool; split; [done|apply Hsame; tauto]|].
  destruct (c =? DEFAULT_ELEMENT).
  - destruct Hp as (-> & _ & _ & _ & Hcell). split; [done|]. eapply Hmark; [by left|done].
  - destruct Hp as (k & Hk & -> & Hp). rewrite (proj2 (Nat.ltb_lt _ _)) in Hp by lia.
    destruct Hp as (-> & _ & _ & Hcell). split; [by case_if|]. eapply Hmark; [by right|done].
Qed.

(** One answer played on a side. *)
Lemma answer_ok n won sd b rest : side_ok n sd -> (n <= 9)%nat -> total sd <> 0 -> good_answer b = true ->
  exists m r sd', answer_move b = Ok (Some m) /\ play_on won sd (Some m) = Ok (r, sd') /\ side_ok n sd' /\
    (r <? 0) = negb (counts r) /\ total sd' = total sd - (if r =? DOWN then 1 else 0) /\
    (pending sd (b :: rest) -> pending sd' rest).
Proof.
  intros Hs Hn Ht Hb. unfold good_answer in Hb. destruct (answer_move b) as [t|] eqn:Ha; [|done].
  destruct t as [m|].
  2:{ unfold answer_move in Ha. destruct (thing_copy _) as [t|]; [|done]. cbn [mbind ub_bind] in Ha.
      destruct (deref t); [|done]. cbn [mbind ub_bind] in Ha. by destruct (_ <? 6). }
  exists m. destruct (move_check (Some m)) as [[]|] eqn:Hm; [| |done].
  - destruct (move_parts m Hm) as (x & y & Hx & Hy & _).
    assert (Hg : guess b = Some (x - 1, y - 1)) by (unfold guess; by rewrite Ha, Hm, Hx, Hy).
    destruct (play_on_ok n won sd m x y Hs Ht Hm Hx Hy) as (c & r & sd' & Hc & Hp & Hs' & Hpl & Hv).
    destruct (played_pending n sd sd' x y c r b rest Hs Hn Hg Hc Hpl) as [Hr Hpend].
    exists r, sd'. split_and!; try done. by eapply played_stepped.
  - exists ILLEGAL_M, sd. unfold play_on, game_play_. rewrite (proj2 (Z.eqb_neq _ _) Ht), Hm.
    cbn [mbind ub_bind negb]. split_and!; try done; [simpl; lia|].
    intros Hp i j c Hc. destruct (Hp i j c Hc) as [?|[?|(b' & Hb' & Hg)]]; [tauto|tauto|].
    apply elem_of_cons in Hb' as [->|Hb']; [|right; right; by exists b'].
    unfold guess in Hg. by rewrite Ha, Hm in Hg.
Qed.

Definition play_of (a : Z) : game -> thing -> ub (Z * game) := if a =? 1 then game_play_player else game_play_cpu.

(** The side that [a] does not shoot at stays as it is. *)
Definition with_target (a : Z) (g : game) (sd : side) : game :=
  if a =? 1 then Game (player g) sd else Game sd (cpu g).

Lemma play_of_eq a g m r sd : play_on (if a =? 1 then WIN_PLAYER else WIN_CPU) (target a g) m = Ok (r, sd) ->
  play_of a g m = Ok (r, with_target a g sd).
Proof.
  unfold play_of, target, with_target, game_play_player, game_play_cpu. destruct (a =? 1); intros ->; done.
Qed.

Lemma target_with a g sd : target a (with_target a g sd) = sd /\ own a (with_target a g sd) = own a g /\
  forall sd', with_target a (with_target a g sd) sd' = with_target a g sd'.
Proof. unfold target, own, with_target. by destruct (a =? 1). Qed.

(** Asking ends with an accepted move, or has used up all answers. *)
Lemma ask_ok n a g answers : side_ok n (target a g) -> (n <= 9)%nat -> total (target a g) <> 0 ->
  forallb good_answer answers = true ->
  exists out sd r rest, ask a (play_of a) g answers = Ok (out, with_target a g sd, r, rest) /\
    side_ok n sd /\ forallb good_answer rest = true /\ (pending (target a g) answers -> pending sd rest) /\
    match r with
    | None => rest = [] /\ total sd <> 0
    | Some (c, m) => counts c = true /\ (exists s, m = Some s) /\ (length rest < length answers)%nat
    end.
Proof.
  revert g. induction answers as [|b rest IH]; intros g Hs Hn Ht Hgood; cbn [ask].
  { exists [To a "YT"; To a newline], (target a g), None, []. split_and!; try done.
    do 2 f_equal. unfold with_target, target. destruct g. by destruct (a =? 1). }
  simpl in Hgood. apply andb_true_iff in Hgood as [Hb Hrest].
  destruct (answer_ok n (if a =? 1 then WIN_PLAYER else WIN_CPU) (target a g) b rest Hs Hn Ht Hb)
    as (m & r & sd & -> & Hp & Hs' & Hr & Ht' & Hpend). cbn [mbind ub_bind].
  rewrite (play_of_eq _ _ _ _ _ Hp). cbn [mbind ub_bind]. rewrite Hr.
  destruct (target_with a g sd) as (Htg & _ & Hww). destruct (counts r) eqn:Hcr; cbn [negb].
  - exists [To a "YT"; To a newline], sd, (Some (r, Some m)), rest. split_and!; try done; [by exists m|simpl; lia].
  - destruct (IH (with_target a g sd)) as (out & sd2 & r2 & rest2 & -> & Hs2 & Hg2 & Hpend2 & Hr2);
      rewrite ?Htg; try done.
    { rewrite Ht'. unfold counts in Hcr. cbool. destruct Hcr as [_ Hd]. rewrite (proj2 (Z.eqb_neq _ _)) by done. lia. }
    cbn [mbind ub_bind]. rewrite Hww. do 4 eexists. split; [done|]. split_and!; try done.
    + intros Hpe. apply Hpend2. rewrite Htg. auto.
    + destruct r2 as [[c2 m2]|]; [|done]. destruct Hr2 as (? & ? & ?). split_and!; try done. simpl. lia.
Qed.

Lemma message_text a c s : counts c = true ->
  message a c (Some s) = Ok (Some (display_selector c ++ " " ++ (if (a =? 1)%Z then "1" else "2") ++ "," ++ s)%string).
Proof.
  intros Hc. unfold message.
  replace (thing_copy (Some (display_selector c))) with (Ok (A := thing) (Some (display_selector c)))
    by (unfold counts in Hc; cbool; destruct Hc as [[-> | ->] | ->]; by vm_compute).
  cbn [mbind ub_bind]. rewrite thing_add_ok by done. cbn [mbind ub_bind]. rewrite thing_add_ok by done.
  cbn [mbind ub_bind]. unfold thing_add. cbn [deref mbind ub_bind char_string].
  change (char_string NUL) with ""%string. unfold strcat. rewrite !string_app_nil_r.
  rewrite (proj2 (Z.leb_le _ _)) by (unfold thing_size, strlen; lia). cbn [mbind ub_bind].
  rewrite string_app_nil_r, (proj2 (Z.leb_le _ _)) by (unfold thing_size, strlen; lia).
  do 2 f_equal. rewrite string_app_assoc. by destruct (a =? 1).
Qed.

Lemma message_ok a c s : counts c = true -> exists t, message a c (Some s) = Ok (Some t).
Proof. intros Hc. eexists. by apply message_text. Qed.

Lemma turn_ok n a g answers : side_ok n (target a g) -> (n <= 9)%nat -> total (target a g) <> 0 ->
  forallb good_answer answers = true ->
  exists out sd done rest, turn a g answers = Ok (out, with_target a g sd, done, rest) /\
    side_ok n sd /\ forallb good_answer rest = true /\ (pending (target a g) answers -> pending sd rest) /\
    if done : bool then (length rest < length answers)%nat else rest = [] /\ total sd <> 0.
Proof.
  intros Hs Hn Ht Hg. destruct (ask_ok n a g answers Hs Hn Ht Hg) as (out & sd & r & rest & Ha & Hs' & Hg' & Hp & Hr).
  unfold turn. fold (play_of a). rewrite Ha. cbn [mbind ub_bind]. destruct r as [[c m]|].
  - destruct Hr as (Hc & [s ->] & Hl). destruct (message_ok a c s Hc) as [t ->]. cbn [deref mbind ub_bind].
    do 4 eexists. split; [done|]. split_and!; try done.
  - do 4 eexists. split; [done|]. split_and!; try done; by apply Hr.
Qed.

Lemma status_cases n g : game_ok n g ->
  (game_status g = WIN_PLAYER /\ total (cpu g) = 0) \/
  (game_status g = WIN_CPU /\ total (cpu g) <> 0 /\ total (player g) = 0) \/
  (game_status g = GAME_ON /\ total (cpu g) <> 0 /\ total (player g) <> 0).
Proof.
  intros _. unfold game_status. destruct (Z.eqb_spec (total (cpu g)) 0); [by left|].
  destruct (Z.eqb_spec (total (player g)) 0); auto.
Qed.

(** How the hub ends. *)
Definition ended (n : nat) (r : result) : Prop :=
  match r with
  | Over st g => game_ok n g /\
      ((st = WIN_PLAYER /\ (forall k, (k < n)%nat -> count (field (cpu g)) (elem k) = 0) /\ total (player g) <> 0) \/
       (st = WIN_CPU /\ (forall k, (k < n)%nat -> count (field (player g)) (elem k) = 0) /\ total (cpu g) <> 0))
  | Waiting _ g => game_ok n g
  end.

Lemma hub_loop_ok fuel n g a1 a2 : game_ok n g -> (n <= 9)%nat -> total (player g) <> 0 -> total (cpu g) <> 0 ->
  forallb good_answer a1 = true -> forallb good_answer a2 = true -> (length a1 < fuel)%nat ->
  exists out r, hub_loop fuel g a1 a2 = Ok (out, r) /\ ended n r /\
    (pending (cpu g) a1 -> pending (player g) a2 -> exists st g', r = Over st g').
Proof.
  revert g a1 a2. induction fuel as [|fuel IH]; intros g a1 a2 [Hp Hc] Hn Htp Htc H1 H2 Hf; [lia|].
  cbn [hub_loop]. replace (game_status g) with GAME_ON
    by (destruct (status_cases n g (conj Hp Hc)) as [[_ ?]|[(_ & _ & ?)|[-> _]]]; done).
  cbn [negb]. change (negb (GAME_ON =? GAME_ON)) with false. cbv iota.
  destruct (turn_ok n 1 g a1 Hc Hn Htc H1) as (out1 & c1 & d1 & r1 & -> & Hc1 & Hr1 & Hpe1 & Hd1).
  cbn [mbind ub_bind]. change (with_target 1 g c1) with (Game (player g) c1). change (target 1 g) with (cpu g) in Hpe1.
  destruct d1; cbn [negb].
  2:{ do 2 eexists. split; [done|]. split; [done|]. intros Hpc _. destruct Hd1 as [-> Hd1].
      destruct Hd1. eapply all_marked_lost; [done|auto]. }
  destruct (status_cases n (Game (player g) c1) (conj Hp Hc1)) as [[Hst Ht0]|[(_ & _ & Ht0)|(Hst & Ht1 & _)]]; [|done|].
  { rewrite Hst. change (negb (WIN_PLAYER =? GAME_ON)) with true. cbv iota. do 2 eexists. split; [done|].
    split; [|by do 2 eexists]. split; [done|]. left. split; [done|]. split; [by apply lost_iff|done]. }
  rewrite Hst. change (negb (GAME_ON =? GAME_ON)) with false. cbv iota.
  destruct (turn_ok n 2 (Game (player g) c1) a2 Hp Hn Htp H2) as (out2 & p1 & d2 & r2 & -> & Hp1 & Hr2 & Hpe2 & Hd2).
  cbn [mbind ub_bind]. change (with_target 2 _ p1) with (Game p1 c1). change (target 2 _) with (player g) in Hpe2.
  destruct d2; cbn [negb].
  2:{ do 2 eexists. split; [done|]. split; [done|]. intros _ Hpp. destruct Hd2 as [-> Hd2].
      destruct Hd2. eapply all_marked_lost; [done|auto]. }
  destruct (Z.eqb_spec (total p1) 0) as [Hz|Hz].
  - destruct fuel as [|fuel]; cbn [hub_loop]; [simpl in *; lia|].
    assert (game_status (Game p1 c1) = WIN_CPU) as ->
      by (unfold game_status; cbn [cpu player] in *; rewrite (proj2 (Z.eqb_neq _ _) Ht1), Hz; done).
    change (negb (WIN_CPU =? GAME_ON)) with true. cbv iota. cbn [mbind ub_bind]. do 2 eexists. split; [done|].
    split; [|by do 2 eexists]. split; [done|]. right. split; [done|]. split; [by apply lost_iff|done].
  - destruct (IH (Game p1 c1) r1 r2 (conj Hp1 Hc1) Hn Hz Ht1 Hr1 Hr2 ltac:(simpl in *; lia)) as (out & r & -> & He & Hl).
    cbn [mbind ub_bind]. do 2 eexists. split; [done|]. split; [done|]. auto.
Qed.

(** C25: The hub never reads or writes outside of what it has when the answers are long enough
    to be moves; it waits for an agent or ends with one winner, whose opponent has no cell of
    a ship left while it has ships itself; and it ends when each agent's answers name
    every cell of the other's grid at some time, whatever else they are. *)
Theorem hub_ends n g a1 a2 : game_ok n g -> (n <= 9)%nat -> total (player g) <> 0 -> total (cpu g) <> 0 ->
  forallb good_answer a1 = true -> forallb good_answer a2 = true ->
  exists out r, hub g a1 a2 = Ok (out, r) /\ ended n r /\
    (pending (cpu g) a1 -> pending (player g) a2 -> exists st g', r = Over st g').
Proof. intros. apply hub_loop_ok; try done. lia. Qed.

(** *** A game that is played to its end *)

(** [pending] by looking at all cells. *)
Definition pendingb (sd : side) (answers : list string) : bool :=
  let gs := guess <$> answers in
  forallb (fun j => forallb (fun i => bool_decide (Some (i, j) ∈ gs)) (seqZ 0 (size_x (field sd))))
    (seqZ 0 (size_y (field sd))).

Lemma pendingb_spec n sd answers : side_ok n sd -> pendingb sd answers = true -> pending sd answers.
Proof.
  intros Hs Hp i j c Hc. right. right. unfold pendingb in Hp. rewrite forallb_forall in Hp.
  destruct (cell_pos _ _ _ _ Hc) as (Hx & Hy & r & Hr & Hrc). destruct (so_grid _ _ Hs) as [_ _ Hl Hf].
  apply lookup_lt_Some in Hr as Hr'. apply lookup_lt_Some in Hrc. rewrite Forall_lookup in Hf.
  rewrite (Hf _ _ Hr) in Hrc.
  assert (Hj : In j (seqZ 0 (size_y (field sd)))) by (apply list_elem_of_In, elem_of_seqZ; lia).
  specialize (Hp j Hj). rewrite forallb_forall in Hp.
  assert (Hi : In i (seqZ 0 (size_x (field sd)))) by (apply list_elem_of_In, elem_of_seqZ; lia).
  specialize (Hp i Hi). apply bool_decide_eq_true in Hp. apply list_elem_of_fmap in Hp as (b & Hb & Hin). by exists b.
Qed.

(** A guess for each cell, by columns, and one that is no move. *)
Definition all_guesses : list string :=
  ("GUESS 77" ++ newline)%string :: (seq 0 8 ≫= fun i => (fun j => ("GUESS " ++ chr (65 + Z.of_nat i) ++ chr (49 + Z.of_nat j) ++ newline)%string) <$> seq 0 8).

Lemma sample_pending : pending (cpu sample_game) all_guesses /\ pending (player sample_game) all_guesses.
Proof.
  split; (eapply pendingb_spec; [apply sample_sides|vm_compute; reflexivity]).
Qed.

Lemma hub_ends_witness : length all_guesses = 65%nat /\
  exists out st g, hub sample_game all_guesses all_guesses = Ok (out, Over st g) /\ ended 2 (Over st g).
Proof.
  split; [vm_compute; reflexivity|].
  destruct (hub_ends 2 sample_game all_guesses all_guesses sample_sides ltac:(lia) ltac:(done) ltac:(done)
    ltac:(vm_compute; reflexivity) ltac:(vm_compute; reflexivity)) as (out & r & H & He & Hl).
  destruct (Hl (proj1 sample_pending) (proj2 sample_pending)) as (st & g & ->).
  exists out, st, g. split; [exact H|exact He].
Defined.
