(* ===== verification/GAgent.v ===== *)
(** * The players ([agent.c], and [game_play_agent] of [game.c], of
      [src/5.Game-Management])

    What a player guesses, and how it keeps its copies of the grids up to the messages of
    the hub.  A buffer is the list of its bytes. *)

From stdpp Require Import list_numbers.
From S2P Require Import Prelude CText GThing GList GGrid GGame.

(** ** Guessing ship by ship: [fighter_guess] *)

(** The globals of agent.c. *)
Record fighter := Fighter {
  mode_fight : Z; f_move_r : Z; f_move_c : Z; f_d_i : Z; f_height : Z; f_width : Z;
}.

Definition fighter_init (height width : Z) : fighter := Fighter 0 0 0 0 height width.

(** [f_directions]. *)
Definition f_directions : list Z := [DIRECTION_NORTH; DIRECTION_EAST; DIRECTION_SOUTH; DIRECTION_WEST].

Definition direction_at (i : Z) : ub Z :=
  if i <? 0 then UB out_of_bounds
  else match f_directions !! Z.to_nat i with Some d => Ok d | None => UB out_of_bounds end.

Definition set_mode (m : Z) (f : fighter) : fighter :=
  Fighter m (f_move_r f) (f_move_c f) (f_d_i f) (f_height f) (f_width f).
Definition set_d (d : Z) (f : fighter) : fighter :=
  Fighter (mode_fight f) (f_move_r f) (f_move_c f) d (f_height f) (f_width f).
Definition set_move (r c : Z) (f : fighter) : fighter :=
  Fighter (mode_fight f) r c (f_d_i f) (f_height f) (f_width f).

(** The remainder of C, for a divisor that is not 0. *)
Definition rem_int (a b : Z) : ub Z := if b =? 0 then UB wrong_type else Ok (Z.rem a b).

(** [fighter_guess (result, move_i)], when [rand] returns [r1] and then [r2]: the column
    and the row. *)
Definition fighter_guess (result r1 r2 : Z) (f0 : fighter) : ub (Z * Z * fighter) :=
  let f := if 4 <=? f_d_i f0 then set_mode 0 (set_d 0 f0) else f0 in
  let f := if result =? 1 then set_mode 1 f
           else if result =? 2 then set_mode 0 f
           else if (result =? 0) && (mode_fight f =? 1) && (f_d_i f =? 4) then set_mode 0 (set_d 0 f)
           else f in
  if mode_fight f =? 0 then
    row ← rem_int r1 (f_height f);
    column ← rem_int r2 (f_width f);
    Ok (column, row, set_move row column f)
  else
    let f := if result =? 0 then set_d (f_d_i f + 1) f else f in
    d ← direction_at (f_d_i f);
    if d =? DIRECTION_NORTH then
      let row := f_move_r f - 1 in
      if row <? 0 then Ok (f_move_c f + 1, 0, set_d (f_d_i f + 1) f) else Ok (f_move_c f, row, f)
    else if d =? DIRECTION_EAST then
      let column := f_move_c f + 1 in
      if f_width f <=? column then Ok (f_width f - 1, f_move_r f + 1, set_d (f_d_i f + 1) f)
      else Ok (column, f_move_r f, f)
    else if d =? DIRECTION_SOUTH then
      let row := f_move_r f + 1 in
      if f_height f <=? row then Ok (f_move_c f - 1, f_height f - 1, set_d (f_d_i f + 1) f)
      else Ok (f_move_c f, row, f)
    else
      let column := f_move_c f - 1 in
      if column <? 0 then
        row ← rem_int r1 (f_height f);
        column ← rem_int r2 (f_width f);
        Ok (column, row, set_mode 0 (set_d 0 f))
      else Ok (column, f_move_r f, f).

(** ** Guessing row by row: [agent_move] *)

(** [*row], the two numbers of [coln], and the move. *)
Definition agent_move (row c0 c1 : Z) (move : Z * Z) (max_c : Z) : Z * Z * Z * (Z * Z) :=
  let '(row, c0, c1) := if c1 <? c0 then (row + 1, 0, max_c - 1) else (row, c0, c1) in
  if Z.rem row 2 =? 0 then
    if c0 <=? c1 then (row, c0 + 1, c1, (c0, row)) else (row, c0, c1, move)
  else
    if c0 <=? c1 then (row, c0, c1 - 1, (c1, row)) else (row, c0, c1, move).

Fixpoint agent_moves (n : nat) (row c0 c1 : Z) (move : Z * Z) (max_c : Z) : list (Z * Z) :=
  match n with
  | O => []
  | S n' => let '(row, c0, c1, mv) := agent_move row c0 c1 move max_c in
            mv :: agent_moves n' row c0 c1 mv max_c
  end.

(** ** Buffers *)

(** The loop of [parser_changer] over the first [len] bytes: the [which]-th byte that is
    neither a letter nor a digit becomes [what]. *)
Fixpoint parser_changer (b : list ascii) (len : nat) (which count : Z) (what : ascii) : ub (list ascii) :=
  match len with
  | O => Ok b
  | S len' =>
      match b with
      | [] => UB out_of_bounds
      | c :: b' =>
          if negb (isalpha c || isdigit c) then
            if count =? which then Ok (what :: b')
            else r ← parser_changer b' len' which (count + 1) what; Ok (c :: r)
          else r ← parser_changer b' len' which count what; Ok (c :: r)
      end
  end.

(** The position of the first comma of the string, [None] for the result 0. *)
Fixpoint comma_at (s : string) (i : nat) : option nat :=
  match s with
  | EmptyString => None
  | String c s' => if code c =? 44 then Some i else comma_at s' (S i)
  end.
Definition agent_id_extract (s : string) : option Z := i ← comma_at s 0; Some (Z.of_nat i - 1).
Definition agent_move_extract (s : string) : option Z := i ← comma_at s 0; Some (Z.of_nat i + 1).

(** ** [game_play_agent] *)

(** [thing_replace(m, ' ', '\0')] on a buffer, up to its first NUL. *)
Fixpoint buffer_replace (b : list ascii) (from to : ascii) : list ascii :=
  match b with
  | [] => []
  | c :: b' => if Ascii.eqb c NUL then b else (if Ascii.eqb c from then to else c) :: buffer_replace b' from to
  end.

(** The row of the move at [i] of a buffer. *)
Definition buffer_row (b : list ascii) (i : Z) : ub Z :=
  m1 ← mem_get b (i + 1); c2 ← mem_get b (i + 2);
  Ok (if isdigit c2 then (char_of c2 - 48) + (char_of m1 - 48) * 10 else char_of m1 - 48).

Definition game_play_agent_ (g : game) (pl : ascii) (what : Z) (b : list ascii) (i id : Z) : ub game :=
  m0 ← mem_get b i;
  row ← buffer_row b i;
  if ((code pl =? 50) && (id =? 1)) || ((code pl =? 49) && (id =? 2)) then
    '(_, gr) ← grid_set (field (player g)) (char_of m0 - CHAR_OFFSET) row what;
    Ok (Game (Side (total (player g)) gr (ships (player g))) (cpu g))
  else
    '(_, gr) ← grid_set (field (cpu g)) (char_of m0 - CHAR_OFFSET) row what;
    Ok (Game (player g) (Side (total (cpu g)) gr (ships (cpu g)))).

(** The result of the message, the mark, and where the player's number is. *)
Definition message_kind (s : string) : ub (Z * Z * Z) :=
  if String.eqb s "MISS" then Ok (MISS, 47, 5)
  else if String.eqb s "HIT" then Ok (HIT, 42, 4)
  else if String.eqb s "SUNK" then Ok (DOWN, 42, 5)
  else UB uninitialized.

Definition take_ship (sd : side) : side := Side (total sd - 1) (field sd) (ships sd).

(** The result, the game, and the buffer, in which the spaces were replaced. *)
Definition game_play_agent (g : game) (m : list ascii) (id : Z) : ub (Z * game * list ascii) :=
  let b := buffer_replace m space NUL in
  s ← mem_string b;
  '(res, draw, l) ← message_kind s;
  pl ← mem_get b l;
  let g1 := if res =? DOWN
            then if ((code pl =? 50) && (id =? 1)) || ((code pl =? 49) && (id =? 2))
                 then Game (take_ship (player g)) (cpu g) else Game (player g) (take_ship (cpu g))
            else g in
  g2 ← game_play_agent_ g1 pl draw b (l + 2) id;
  Ok (res, g2, b).

(** ** The rows that [agent_move] goes through *)

(** The cells of a row, from the left in an even row, from the right in an odd one. *)
Definition sweep_row (w row : Z) : list (Z * Z) :=
  (fun c => (c, row)) <$> (if Z.rem row 2 =? 0 then seqZ 0 w else reverse (seqZ 0 w)).

(** Where [agent_move] starts the next row. *)
Lemma agent_moves_next k row c0 c1 mv w : c1 < c0 -> 0 < w ->
  agent_moves k row c0 c1 mv w = agent_moves k (row + 1) 0 (w - 1) mv w.
Proof.
  intros Hc Hw. destruct k as [|k]; [done|]. cbn [agent_moves]. unfold agent_move.
  rewrite (proj2 (Z.ltb_lt _ _)) by lia. by rewrite (proj2 (Z.ltb_ge _ _)) by lia.
Qed.

(** A turn in a row that is not at its end. *)
Lemma agent_move_in row c0 c1 mv w : c0 <= c1 ->
  agent_move row c0 c1 mv w = if Z.rem row 2 =? 0 then (row, c0 + 1, c1, (c0, row)) else (row, c0, c1 - 1, (c1, row)).
Proof. intros Hc. unfold agent_move. by rewrite (proj2 (Z.ltb_ge _ _)), (proj2 (Z.leb_le _ _)) by lia. Qed.

(** The rest of a row of [m] cells, and then the next one. *)
Lemma agent_moves_row m k row c0 mv w : 0 < w ->
  exists mv', agent_moves (m + k) row c0 (c0 + Z.of_nat m - 1) mv w =
    ((fun c => (c, row)) <$> (if Z.rem row 2 =? 0 then seqZ c0 (Z.of_nat m) else reverse (seqZ c0 (Z.of_nat m)))) ++
    agent_moves k (row + 1) 0 (w - 1) mv' w.
Proof.
  intros Hw. revert c0 mv. induction m as [|m IH]; intros c0 mv.
  { exists mv. rewrite agent_moves_next by lia. by case_match. }
  cbn [Nat.add agent_moves]. rewrite agent_move_in by lia. destruct (Z.rem row 2 =? 0) eqn:Er.
  - destruct (IH (c0 + 1) (c0, row)) as [mv' Hm]. exists mv'.
    rewrite seqZ_cons, fmap_cons by lia. cbn [app]. f_equal.
    replace (Z.pred (Z.of_nat (S m))) with (Z.of_nat m) by lia. rewrite <- Z.add_1_r.
    replace (c0 + Z.of_nat (S m) - 1) with (c0 + 1 + Z.of_nat m - 1) by lia. exact Hm.
  - destruct (IH c0 (c0 + Z.of_nat (S m) - 1, row)) as [mv' Hm]. exists mv'.
    replace (c0 + Z.of_nat (S m) - 1 - 1) with (c0 + Z.of_nat m - 1) by lia. rewrite Hm.
    rewrite seqZ_S, reverse_snoc, fmap_cons. cbn [app]. do 2 f_equal. lia.
Qed.

Lemma sweep_rows h row mv w : 0 < w ->
  agent_moves (Z.to_nat w * h) row 0 (w - 1) mv w = mjoin (sweep_row w <$> seqZ row (Z.of_nat h)).
Proof.
  intros Hw. revert row mv. induction h as [|h IH]; intros row mv; [by rewrite Nat.mul_0_r|].
  destruct (agent_moves_row (Z.to_nat w) (Z.to_nat w * h) row 0 mv w Hw) as [mv' Hm].
  rewrite Z2Nat.id, Z.add_0_l in Hm by lia. rewrite seqZ_cons, fmap_cons by lia. cbn [mjoin list_join].
  replace (Z.pred (Z.of_nat (S h))) with (Z.of_nat h) by lia. rewrite <- Z.add_1_r.
  rewrite Nat.mul_succ_r, Nat.add_comm, Hm, IH. done.
Qed.

Lemma sweep_from w0 h mv w : 0 <= w0 -> 0 < w ->
  agent_moves (Z.to_nat w0 + Z.to_nat w * h) 0 0 (w0 - 1) mv w =
  sweep_row w0 0 ++ mjoin (sweep_row w <$> seqZ 1 (Z.of_nat h)).
Proof.
  intros H0 Hw. destruct (agent_moves_row (Z.to_nat w0) (Z.to_nat w * h) 0 0 mv w Hw) as [mv' Hm].
  rewrite Z2Nat.id, Z.add_0_l in Hm by lia. rewrite Hm, sweep_rows by done. done.
Qed.

Lemma elem_sweep_row w row x y : (x, y) ∈ sweep_row w row <-> y = row /\ 0 <= x < w.
Proof.
  unfold sweep_row. rewrite list_elem_of_fmap. split.
  - intros (c & [= -> ->] & Hc). split; [done|]. case_match; rewrite ?elem_of_reverse, elem_of_seqZ in Hc; lia.
  - intros [-> Hx]. exists x. split; [done|]. case_match; rewrite ?elem_of_reverse, elem_of_seqZ; lia.
Qed.

Lemma elem_sweep_rows w row h x y :
  (x, y) ∈ mjoin (sweep_row w <$> seqZ row h) <-> row <= y < row + h /\ 0 <= x < w.
Proof.
  rewrite list_elem_of_join. split.
  - intros (l & Hxy & Hl). apply list_elem_of_fmap in Hl as (r & -> & Hr%elem_of_seqZ).
    apply elem_sweep_row in Hxy. lia.
  - intros [Hy Hx]. exists (sweep_row w y). split; [by apply elem_sweep_row|].
    apply list_elem_of_fmap. exists y. split; [done|]. apply elem_of_seqZ. lia.
Qed.

Lemma NoDup_sweep_row w row : NoDup (sweep_row w row).
Proof.
  unfold sweep_row. apply NoDup_fmap_2; [by intros ?? [= ->]|].
  case_match; [apply NoDup_seqZ|]. rewrite reverse_Permutation. apply NoDup_seqZ.
Qed.

Lemma NoDup_sweep_rows w row h : NoDup (mjoin (sweep_row w <$> seqZ row (Z.of_nat h))).
Proof.
  revert row. induction h as [|h IH]; intros row; [constructor|].
  rewrite seqZ_cons, fmap_cons by lia. cbn [mjoin list_join]. apply NoDup_app. split; [apply NoDup_sweep_row|].
  replace (Z.pred (Z.of_nat (S h))) with (Z.of_nat h) by lia. split; [|apply IH].
  intros [x y] H1%elem_sweep_row H2%elem_sweep_rows. lia.
Qed.

(** An agent that guesses row by row, from [guessed = {0, 7}], takes the first eight cells of the
    first row and then every cell of the other rows, each once: the even rows from the
    left, the odd ones from the right. *)
Theorem agent_sweeps h mv w : 0 < w ->
  let moves := agent_moves (8 + Z.to_nat w * h) 0 0 7 mv w in
  moves = sweep_row 8 0 ++ mjoin (sweep_row w <$> seqZ 1 (Z.of_nat h)) /\ NoDup moves /\
  forall x y, (x, y) ∈ moves <-> 0 <= y <= Z.of_nat h /\ 0 <= x < (if y =? 0 then 8 else w).
Proof.
  intros Hw. cbv zeta. assert (Hm := sweep_from 8 h mv w ltac:(lia) Hw).
  change (Z.to_nat 8) with 8%nat in Hm. change (8 - 1) with 7 in Hm. rewrite Hm. split; [done|]. split.
  - apply NoDup_app. split; [apply NoDup_sweep_row|]. split; [|apply NoDup_sweep_rows].
    intros [x y] H1%elem_sweep_row H2%elem_sweep_rows. lia.
  - intros x y. rewrite elem_of_app, elem_sweep_row, elem_sweep_rows. destruct (Z.eqb_spec y 0); lia.
Qed.

Lemma agent_sweeps_witness : agent_moves (8 + 2 * 2) 0 0 7 (0, 0) 2 =
  [(0, 0); (1, 0); (2, 0); (3, 0); (4, 0); (5, 0); (6, 0); (7, 0); (1, 1); (0, 1); (0, 2); (1, 2)].
Proof. exact (proj1 (agent_sweeps 2 (0, 0) 2 ltac:(lia))). Defined.

(** ** What [fighter_guess] does with the last result *)

Lemma direction_0 : direction_at 0 = Ok DIRECTION_NORTH. Proof. done. Qed.
Lemma direction_1 : direction_at 1 = Ok DIRECTION_EAST. Proof. done. Qed.
Lemma direction_2 : direction_at 2 = Ok DIRECTION_SOUTH. Proof. done. Qed.
Lemma direction_3 : direction_at 3 = Ok DIRECTION_WEST. Proof. done. Qed.
Lemma direction_4 : direction_at 4 = UB out_of_bounds. Proof. done. Qed.

(** [fighter_guess] reads [f_directions] at 4, behind its end, exactly when it is told of a
    miss while it looks to the west of a hit, and otherwise keeps [f_d_i] from 0 to 3. *)
Theorem fighter_guess_overrun result r1 r2 f : 0 < f_height f -> 0 < f_width f -> 0 <= f_d_i f <= 3 ->
  mode_fight f = 0 \/ mode_fight f = 1 ->
  if (result =? 0) && (mode_fight f =? 1) && (f_d_i f =? 3)
  then fighter_guess result r1 r2 f = UB out_of_bounds
  else exists x y f', fighter_guess result r1 r2 f = Ok (x, y, f') /\ 0 <= f_d_i f' <= 3 /\
    (mode_fight f' = 0 \/ mode_fight f' = 1) /\ f_height f' = f_height f /\ f_width f' = f_width f.
Proof.
  destruct f as [m r c d fh fw]; cbn [f_height f_width f_d_i mode_fight]. intros Hh Hw Hd Hm.
  assert (Hrh : rem_int r1 fh = Ok (Z.rem r1 fh)) by (unfold rem_int; by rewrite (proj2 (Z.eqb_neq fh 0)) by lia).
  assert (Hrw : rem_int r2 fw = Ok (Z.rem r2 fw)) by (unfold rem_int; by rewrite (proj2 (Z.eqb_neq fw 0)) by lia).
  assert (Hd4 : (4 <=? d) = false) by lia. assert (d = 0 \/ d = 1 \/ d = 2 \/ d = 3) as Hdi by lia.
  unfold fighter_guess. cbn [f_d_i]. rewrite Hd4.
  destruct (Z.eqb_spec result 0) as [->|H0]; [|destruct (Z.eqb_spec result 1) as [->|H1];
    [|destruct (Z.eqb_spec result 2) as [->|H2]]];
    destruct Hm as [-> | ->]; destruct Hdi as [-> |[-> |[-> | ->]]];
    lazy -[rem_int Z.leb Z.ltb direction_at Z.sub Z.le];
    rewrite ?direction_0, ?direction_1, ?direction_2, ?direction_3, ?direction_4, ?Hrh, ?Hrw;
    lazy -[rem_int Z.leb Z.ltb Z.sub Z.le Z.rem]; try done; rewrite ?Hrh, ?Hrw; lazy -[Z.leb Z.ltb Z.sub Z.le Z.rem]; try done;
    repeat case_match; (do 3 eexists; split; [reflexivity|]; cbn; lia).
Qed.

Lemma fighter_guess_overrun_witness : fighter_guess 0 5 6 (Fighter 1 3 3 3 8 8) = UB out_of_bounds.
Proof. exact (fighter_guess_overrun 0 5 6 (Fighter 1 3 3 3 8 8) ltac:(done) ltac:(done) ltac:(done) (or_intror eq_refl)). Defined.
