(* ===== verification/GPlayers.v ===== *)
(** * The agents at the pipe ([agent1] and [agent2] of [agent.c], with [2310hub.c])

    An agent is a program that waits in one of its calls of [Fgets], with what it keeps
    then; a line that arrives makes it run to the next of these calls or to its end.
    What the hub sends to an agent is a stream of bytes, which [fgets] cuts into lines. *)

From stdpp Require Import list_numbers.
From S2P Require Import Prelude CText GThing GList GGrid GGame GHub GAgent.

#[local] Open Scope string_scope.
#[local] Open Scope list_scope.
#[local] Open Scope Z_scope.

(** ** Lines *)

(** [fgets(buff, n + 1, stream)]: at most [n] bytes, up to a newline; [None] when it waits
    for more. *)
Fixpoint fgets (n : nat) (s : string) : option (string * string) :=
  match n with
  | O => Some ("", s)
  | S n' =>
      match s with
      | EmptyString => None
      | String c s' =>
          if code c =? 10 then Some (String c "", s')
          else '(l, r) ← fgets n' s'; Some (String c l, r)
      end
  end.

Definition BUFF : nat := 50.

(** The lines of a stream, in calls with a buffer of [BUFF] bytes. *)
Fixpoint stream_lines (fuel : nat) (s : string) : list string :=
  match fuel with
  | O => []
  | S fuel' => match fgets (BUFF - 1) s with Some (l, r) => l :: stream_lines fuel' r | None => [] end
  end.
Definition lines_of (s : string) : list string := stream_lines (S (String.length s)) s.

(** ** What an agent keeps *)

(** The call of [Fgets] that waits. *)
Inductive place := Top | Heard | Turn | Told | Again.

(** The numbers of [agent_move]: [roww], [guessed] and [move_i]. *)
Record sweep := Sweep { s_row : Z; s_c0 : Z; s_c1 : Z; s_move : Z * Z }.

(** [agent] is the argument of that name, and [width] too; [c1] the last result; [rnd] how
    many numbers were taken from [rand]. *)
Record agent := Agent {
  at_ : place; kind : Z; width : Z; a_game : game; buff : list ascii;
  c1 : Z; a_fighter : fighter; a_sweep : sweep; rnd : nat;
}.

Inductive status := Running (a : agent) | Exited (code : Z) (g : game).

(** Before the first call of [Fgets]; [agent_eof] is its exit at the end of the stream. *)
Definition agent_start (kind height width : Z) (g : game) : status :=
  if game_status g =? GAME_ON
  then Running (Agent Top kind width g (replicate BUFF NUL) 0 (fighter_init height width) (Sweep 0 0 7 (0, 0)) 0)
  else Exited 0 g.
Definition agent_eof (a : agent) : status := Exited 5 (a_game a).

Definition goto (p : place) (a : agent) : agent :=
  Agent p (kind a) (width a) (a_game a) (buff a) (c1 a) (a_fighter a) (a_sweep a) (rnd a).
Definition set_buff (b : list ascii) (a : agent) : agent :=
  Agent (at_ a) (kind a) (width a) (a_game a) b (c1 a) (a_fighter a) (a_sweep a) (rnd a).
Definition set_game (g : game) (a : agent) : agent :=
  Agent (at_ a) (kind a) (width a) g (buff a) (c1 a) (a_fighter a) (a_sweep a) (rnd a).
Definition set_c1 (c : Z) (a : agent) : agent :=
  Agent (at_ a) (kind a) (width a) (a_game a) (buff a) c (a_fighter a) (a_sweep a) (rnd a).

(** [memset], [Fgets] and the first [parser_changer], with [buff_len]. *)
Definition hear_buff (clear : bool) (l : string) (b : list ascii) : ub (list ascii * nat) :=
  let b := read_into l (if clear then replicate BUFF NUL else b) in
  s ← mem_string b;
  b' ← parser_changer b (String.length s) 1 1 NUL;
  Ok (b', String.length s).
Definition hear (clear : bool) (l : string) (a : agent) : ub (agent * nat) :=
  '(b, len) ← hear_buff clear l (buff a); Ok (set_buff b a, len).

(** The two calls of [parser_changer] that make the message whole and cut it after the
    move, and the indices of its player and its move. *)
Definition whole_buff (len : nat) (b : list ascii) : ub (list ascii * Z * Z) :=
  b1 ← parser_changer b len 1 1 space;
  b2 ← parser_changer b1 len 3 1 NUL;
  s ← mem_string b2;
  iid ← deref (agent_id_extract s);
  mm ← deref (agent_move_extract s);
  Ok (b2, iid, mm).
Definition whole (len : nat) (a : agent) : ub (agent * Z * Z) :=
  '(b, iid, mm) ← whole_buff len (buff a); Ok (set_buff b a, iid, mm).

Definition buff_is (m : string) (a : agent) : ub bool := s ← mem_string (buff a); Ok (String.eqb s m).

(** [MISS_M], [SUNK_M] or [HIT_M]. *)
Definition is_told (a : agent) : ub bool :=
  s ← mem_string (buff a); Ok (String.eqb s "MISS" || String.eqb s "SUNK" || String.eqb s "HIT").

Section Agents.
(** What [rand] returns, in its order. *)
Context (rand : nat -> Z).

(** A guess: the text that is written. *)
Definition guess_move (a : agent) : ub (string * agent) :=
  '(mi, f, sw, k) ← (if kind a =? 2 then
      '(column, row, f) ← fighter_guess (c1 a) (rand (rnd a)) (rand (S (rnd a))) (a_fighter a);
      Ok ((column, row), f, a_sweep a, (rnd a + 2)%nat)
    else
      let w := a_sweep a in
      let '(r, x, y, mv) := agent_move (s_row w) (s_c0 w) (s_c1 w) (s_move w) (width a) in
      Ok (mv, a_fighter a, Sweep r x y mv, rnd a));
  let move := (chr (mi.1 + 65) ++ chr (mi.2 + 49))%string in
  t ← thing_copy (Some "GUESS");
  msg ← thing_add t (Some move) space;
  s ← deref msg;
  Ok ((s ++ newline)%string,
      Agent (at_ a) (kind a) (width a) (a_game a) (buff a) (c1 a) f sw k).

(** What follows the tests for [OK_M]. *)
Definition rest_of_loop (a : agent) : ub (list string * status) :=
  early ← buff_is "EARLY" a;
  if early : bool then Ok ([], Exited 1 (a_game a)) else
  done ← buff_is "DONE" a;
  if done : bool then Ok ([], Exited 0 (a_game a)) else
  if game_status (a_game a) =? GAME_ON then Ok ([], Running (goto Top a)) else Ok ([], Exited 0 (a_game a)).

(** The loop for [YT_M] and the test for [OK_M]. *)
Definition yt_or_ok (a : agent) : ub (list string * status) :=
  yt ← buff_is "YT" a;
  if yt : bool then '(s, a') ← guess_move a; Ok ([s], Running (goto Turn a')) else
  ok ← buff_is "OK" a;
  if ok : bool then Ok ([], Running (goto Told a)) else rest_of_loop a.

(** The loop of [agent1] over the messages. *)
Definition told1 (len : nat) (a : agent) : ub (list string * status) :=
  told ← is_told a;
  if told : bool then
    '(a1, iid, mm) ← whole len a;
    ms ← mem_string (drop (Z.to_nat mm) (buff a1));
    bm ← parser_changer (drop (Z.to_nat mm) (buff a1)) (String.length ms) 1 1 NUL;
    let a2 := set_buff (take (Z.to_nat mm) (buff a1) ++ bm) a1 in
    i ← mem_get (buff a2) iid;
    '(res, g, b) ← game_play_agent (a_game a2) (buff a2) 1;
    let a3 := set_buff b (set_game g a2) in
    if code i =? 49 then Ok ([], Running (goto Again (set_c1 res a3)))
    else rest_of_loop a3
  else rest_of_loop a.

Definition agent1 (l : string) (a : agent) : ub (list string * status) :=
  match at_ a with
  | Top | Turn => '(a1, _) ← hear true l a; yt_or_ok a1
  | Heard => UB wrong_type
  | Told | Again => '(a1, len) ← hear false l a; told1 len a1
  end.

Definition agent2 (l : string) (a : agent) : ub (list string * status) :=
  match at_ a with
  | Top =>
      '(a1, len) ← hear true l a;
      told ← is_told a1;
      if told : bool then
        '(a2, iid, _) ← whole len a1;
        i ← mem_get (buff a2) iid;
        if code i =? 49 then
          '(res, g, b) ← game_play_agent (a_game a2) (buff a2) 2;
          Ok ([], Running (goto Heard (set_c1 res (set_buff b (set_game g a2)))))
        else yt_or_ok a2
      else yt_or_ok a1
  | Heard => '(a1, _) ← hear false l a; yt_or_ok a1
  | Turn => '(a1, _) ← hear true l a; yt_or_ok a1
  | Told =>
      '(a1, _) ← hear true l a;
      told ← is_told a1;
      if told : bool then
        '(_, g, b) ← game_play_agent (a_game a1) (buff a1) 2;
        rest_of_loop (set_buff b (set_game g a1))
      else rest_of_loop a1
  | Again => UB wrong_type
  end.

(** An agent that gets lines until it ends. *)
Fixpoint agent_run (step : string -> agent -> ub (list string * status)) (ls : list string) (a : agent) :
    ub (list string * status) :=
  match ls with
  | [] => Ok ([], Running a)
  | l :: ls' =>
      '(out, st) ← step l a;
      match st with
      | Running a' => '(out', st') ← agent_run step ls' a'; Ok (out ++ out', st')
      | Exited c g => Ok (out, Exited c g)
      end
  end.

End Agents.
