(* ===== verification/GMatch.v ===== *)
(** * A whole match: the hub and its two agents

    What the hub writes to an agent is what the agent reads, and what the agents write are
    the answers of the hub.  The theorems here are about the three programs together, when
    the agents guess row by row. *)

From stdpp Require Import list_numbers.
From S2P Require Import Prelude CText GThing GList GGrid GGame GHub GAgent GPlayers.

#[local] Open Scope string_scope.
#[local] Open Scope list_scope.
#[local] Open Scope Z_scope.

(** ** The streams *)

(** What is written to agent [a]. *)
Fixpoint stream (a : Z) (out : list output) : string :=
  match out with
  | [] => ""
  | To b s :: out' => if a =? b then (s ++ stream a out')%string else stream a out'
  | Stdout _ :: out' => stream a out'
  end.

(** What an agent writes, and how it is then, when it gets the stream [s]. *)
Definition plays (step : string -> agent -> ub (list string * status)) (st : status) (s : string) :
    ub (list string * status) :=
  match st with Running a => agent_run step (lines_of s) a | Exited c g => Ok ([], Exited c g) end.

Lemma stream_app a o1 o2 : stream a (o1 ++ o2) = (stream a o1 ++ stream a o2)%string.
Proof.
  induction o1 as [|[b s|s] o1 IH]; [done| |exact IH]. cbn [app stream]. case_match; [|done].
  by rewrite IH, string_app_assoc.
Qed.

Lemma fgets_app n l s : fgets n l = Some (l, "") -> fgets n (l ++ s)%string = Some (l, s).
Proof.
  revert n. induction l as [|c l IH]; intros [|n] Hl; try done.
  change (String c l ++ s)%string with (String c (l ++ s)). cbn [fgets] in *.
  destruct (code c =? 10); [by simplify_eq|].
  destruct (fgets n l) as [[l' r]|] eqn:Hf; [|done]. cbn in Hl. injection Hl as -> ->.
  by rewrite (IH n Hf).
Qed.

Lemma fgets_length n s l r : fgets (S n) s = Some (l, r) -> (String.length r < String.length s)%nat.
Proof.
  revert n l. induction s as [|c s IH]; intros n l; [done|]. cbn [fgets String.length].
  destruct (code c =? 10); [intros [= <- <-]; lia|]. destruct n as [|n]; [intros [= <- <-]; lia|].
  destruct (fgets (S n) s) as [[l' r']|] eqn:Hf; [|done]. intros [= <- <-]. apply IH in Hf. lia.
Qed.

Lemma stream_lines_fuel f1 f2 s : (String.length s < f1)%nat -> (String.length s < f2)%nat ->
  stream_lines f1 s = stream_lines f2 s.
Proof.
  revert f2 s. induction f1 as [|f1 IH]; intros [|f2] s H1 H2; [lia..|]. cbn [stream_lines].
  destruct (fgets (BUFF - 1) s) as [[l r]|] eqn:Hf; [|done]. apply (fgets_length 48) in Hf. f_equal. apply IH; lia.
Qed.

(** A text that [fgets] takes as one line. *)
Definition one_line (l : string) : Prop := fgets (BUFF - 1) l = Some (l, "").

Lemma lines_of_cons l s : one_line l -> lines_of (l ++ s) = l :: lines_of s.
Proof.
  intros Hl. pose proof (fgets_length 48 _ _ _ (fgets_app _ _ s Hl)) as Hlt. unfold lines_of at 1.
  cbn [stream_lines]. rewrite (fgets_app _ _ s Hl). f_equal. apply stream_lines_fuel; lia.
Qed.

(** ** Feeding an agent *)

Section Feed.
Context (step : string -> agent -> ub (list string * status)).

(** The agent takes [s], writes [o] and goes on as [a']. *)
Definition feeds (a : agent) (s : string) (o : list string) (a' : agent) : Prop :=
  forall s', plays step (Running a) (s ++ s')%string =
    ('(o', st) ← plays step (Running a') s'; Ok (o ++ o', st)).

Lemma feeds_line a l o a' : one_line l -> step l a = Ok (o, Running a') -> feeds a l o a'.
Proof. intros Hl Hs s'. cbn [plays]. rewrite lines_of_cons by done. cbn [agent_run]. by rewrite Hs. Qed.

Lemma feeds_trans a1 s1 o1 a2 s2 o2 a3 : feeds a1 s1 o1 a2 -> feeds a2 s2 o2 a3 ->
  feeds a1 (s1 ++ s2)%string (o1 ++ o2) a3.
Proof.
  intros H1 H2 s'. rewrite string_app_assoc, H1, H2.
  destruct (plays step (Running a3) s') as [[o' st]|]; [|done]. cbn. by rewrite app_assoc.
Qed.

Lemma feeds_nil a : feeds a "" [] a.
Proof. intros s'. change ("" ++ s')%string with s'. by destruct (plays _ _ _) as [[]|]. Qed.

Lemma plays_feeds a s o a' s' o' st : feeds a s o a' -> plays step (Running a') s' = Ok (o', st) ->
  plays step (Running a) (s ++ s')%string = Ok (o ++ o', st).
Proof. intros H1 H2. by rewrite H1, H2. Qed.

Lemma plays_end a l o c g : one_line l -> step l a = Ok (o, Exited c g) -> plays step (Running a) l = Ok (o, Exited c g).
Proof.
  intros Hl Hs. rewrite <- (string_app_nil_r l) at 1. cbn [plays]. rewrite lines_of_cons by done.
  cbn [agent_run]. by rewrite Hs.
Qed.

End Feed.

(** ** Texts *)

Definition move_text (i j : Z) : string := (chr (i + 65) ++ chr (j + 49) ++ newline)%string.
Definition guess_text (m : Z * Z) : string := ("GUESS " ++ move_text m.1 m.2)%string.

(** The message about a move of player [p], and the line that holds it. *)
Definition told_line (c : Z) (p : Z) (i j : Z) : string :=
  (display_selector c ++ " " ++ chr (p + 48) ++ "," ++ move_text i j)%string.

(** The cells that can be named: a letter and one digit. *)
Definition in_reach (m : Z * Z) : Prop := 0 <= m.1 < 8 /\ 0 <= m.2 < 9.

#[local] Instance fault_eq_dec : EqDecision fault.
Proof. solve_decision. Defined.
#[local] Instance ub_eq_dec {A} `{EqDecision A} : EqDecision (ub A).
Proof. solve_decision. Defined.

Definition all_reach (P : Z -> Z -> bool) : bool := forallb (fun i => forallb (P i) (seqZ 0 9)) (seqZ 0 8).

Lemma all_reach_spec P i j : all_reach P = true -> in_reach (i, j) -> P i j = true.
Proof.
  intros HP [Hi Hj]. cbn in *. unfold all_reach in HP. rewrite forallb_forall in HP.
  specialize (HP i ltac:(apply list_elem_of_In, elem_of_seqZ; lia)). rewrite forallb_forall in HP.
  apply HP. apply list_elem_of_In, elem_of_seqZ. lia.
Qed.

Definition taken_ok (i j : Z) : bool :=
  bool_decide (answer_move (guess_text (i, j)) = Ok (Some (move_text i j))) &&
  bool_decide (move_check (Some (move_text i j)) = Ok true) &&
  bool_decide (move_column (move_text i j) = Ok (i + 1)) &&
  bool_decide (move_row (move_text i j) = Ok (j + 1)).

(** A guess is taken as the cell that it names. *)
Lemma guess_taken i j : in_reach (i, j) ->
  answer_move (guess_text (i, j)) = Ok (Some (move_text i j)) /\ move_check (Some (move_text i j)) = Ok true /\
  move_column (move_text i j) = Ok (i + 1) /\ move_row (move_text i j) = Ok (j + 1).
Proof.
  intros Hr. assert (H : taken_ok i j = true) by (apply (all_reach_spec taken_ok); [vm_compute; reflexivity|done]).
  unfold taken_ok in H. rewrite !andb_true_iff, !bool_decide_eq_true in H. tauto.
Qed.

(** The mark that a message stands for. *)
Definition mark_of (c : Z) : Z := if c =? MISS then 47 else 42.

(** What [game_play_agent] takes from a buffer: the result, the mark, the player, the
    column and the row, and the buffer afterwards. *)
Definition agent_reads (m : list ascii) : ub (Z * Z * ascii * Z * Z * list ascii) :=
  let b := buffer_replace m space NUL in
  s ← mem_string b;
  '(res, draw, l) ← message_kind s;
  pl ← mem_get b l;
  m0 ← mem_get b (l + 2);
  row ← buffer_row b (l + 2);
  Ok (res, draw, pl, char_of m0 - CHAR_OFFSET, row, b).

Definition token (c : Z) : string := if c =? MISS then "MISS" else if c =? HIT then "HIT" else "SHIP".

(** The line of a message as a buffer: cut after its first word; made whole; and read. *)
Definition told_ok (c p i j : Z) : bool :=
  bool_decide (fgets (BUFF - 1) (told_line c p i j) = Some (told_line c p i j, "")) &&
  bool_decide (fgets (BUFF - 1) (chr 0 ++ told_line c p i j)%string = Some ((chr 0 ++ told_line c p i j)%string, "")) &&
  match hear_buff true (told_line c p i j) [] with
  | Ok (b, len) =>
      bool_decide (mem_string b = Ok (token c)) &&
      if c =? DOWN then true else
      match agent_reads b, whole_buff len b with
      | Ok (res, draw, pl, x, y, b'), Ok (b2, iid, _) =>
          bool_decide ((res, draw, pl, x, y) = (c, mark_of c, Ascii.ascii_of_N (Z.to_N (p + 48)), i + 1, j + 1)) &&
          bool_decide (mem_string b' = Ok (token c)) &&
          bool_decide (mem_get b2 iid = Ok pl) &&
          match agent_reads b2 with
          | Ok (res, draw, pl, x, y, b3) =>
              bool_decide ((res, draw, pl, x, y) = (c, mark_of c, Ascii.ascii_of_N (Z.to_N (p + 48)), i + 1, j + 1)) &&
              bool_decide (mem_string b3 = Ok (token c))
          | UB _ => false
          end
      | _, _ => false
      end
  | UB _ => false
  end.

Lemma told_reach c p i j : counts c = true -> p = 1 \/ p = 2 -> in_reach (i, j) -> told_ok c p i j = true.
Proof.
  intros Hc Hp Hr. apply (all_reach_spec (told_ok c p)); [|done].
  unfold counts in Hc. cbool. destruct Hc as [[-> | ->] | ->]; destruct Hp as [-> | ->]; vm_compute; reflexivity.
Qed.

(** ** What an agent does with a line *)

Lemma cmd_heard w : w ∈ ["YT"; "OK"; "DONE"; ""] ->
  one_line (w ++ newline)%string /\ exists b len, hear_buff true (w ++ newline) [] = Ok (b, len) /\ mem_string b = Ok w.
Proof.
  intros Hw. repeat (apply elem_of_cons in Hw as [->|Hw]; [split; [by vm_compute|do 2 eexists; by split; vm_compute]|]).
  by apply not_elem_of_nil in Hw.
Qed.

Lemma hear_true l a b len : hear_buff true l [] = Ok (b, len) -> hear true l a = Ok (set_buff b a, len).
Proof. unfold hear. intros Hb. change (hear_buff true l (buff a)) with (hear_buff true l []). by rewrite Hb. Qed.

(** A word that the agents have no use for. *)
Definition other (s : string) : bool := negb (existsb (String.eqb s) ["YT"; "OK"; "EARLY"; "DONE"]).

Lemma rest_other a s : mem_string (buff a) = Ok s -> other s = true -> game_status (a_game a) = GAME_ON ->
  rest_of_loop a = Ok ([], Running (goto Top a)).
Proof.
  intros Hb Ho Hs. unfold rest_of_loop, buff_is. rewrite Hb. cbn [mbind ub_bind]. unfold other in Ho. cbn in Ho.
  rewrite !negb_orb, !andb_true_iff, !negb_true_iff in Ho. destruct Ho as (_ & _ & -> & -> & _). by rewrite Hs.
Qed.

Lemma rest_done a : mem_string (buff a) = Ok "DONE" -> rest_of_loop a = Ok ([], Exited 0 (a_game a)).
Proof. intros Hb. unfold rest_of_loop, buff_is. by rewrite Hb. Qed.

Section Steps.
Context (rand : nat -> Z).

Lemma loop_other a s : mem_string (buff a) = Ok s -> other s = true -> game_status (a_game a) = GAME_ON ->
  yt_or_ok rand a = Ok ([], Running (goto Top a)).
Proof.
  intros Hb Ho Hs. rewrite <- (rest_other a s Hb Ho Hs). unfold yt_or_ok, buff_is. rewrite Hb. cbn [mbind ub_bind].
  unfold other in Ho. cbn in Ho. rewrite !negb_orb, !andb_true_iff, !negb_true_iff in Ho. by destruct Ho as (-> & -> & _).
Qed.

Lemma loop_ok a : mem_string (buff a) = Ok "OK" -> yt_or_ok rand a = Ok ([], Running (goto Told a)).
Proof. intros Hb. unfold yt_or_ok, buff_is. by rewrite Hb. Qed.

Lemma loop_done a : mem_string (buff a) = Ok "DONE" -> yt_or_ok rand a = Ok ([], Exited 0 (a_game a)).
Proof. intros Hb. rewrite <- rest_done by done. unfold yt_or_ok, buff_is. by rewrite Hb. Qed.

(** The sweep after the next guess, which is its move. *)
Definition sweep_next (w : Z) (s : sweep) : sweep :=
  let '(r, x, y, mv) := agent_move (s_row s) (s_c0 s) (s_c1 s) (s_move s) w in Sweep r x y mv.

(** The guesses to come. *)
Definition answers (n : nat) (w : Z) (s : sweep) : list (Z * Z) := agent_moves n (s_row s) (s_c0 s) (s_c1 s) (s_move s) w.

Lemma answers_S n w s : answers (S n) w s = s_move (sweep_next w s) :: answers n w (sweep_next w s).
Proof.
  unfold answers, sweep_next. cbn [agent_moves]. by destruct (agent_move _ _ _ _ _) as [[[r x] y] mv].
Qed.

Definition set_sweep (s : sweep) (a : agent) : agent :=
  Agent (at_ a) (kind a) (width a) (a_game a) (buff a) (c1 a) (a_fighter a) s (rnd a).

Lemma guess_sweep a : kind a <> 2 ->
  guess_move rand a = Ok (guess_text (s_move (sweep_next (width a) (a_sweep a))), set_sweep (sweep_next (width a) (a_sweep a)) a).
Proof.
  intros Hk. unfold guess_move, sweep_next. rewrite (proj2 (Z.eqb_neq _ _) Hk).
  destruct (agent_move _ _ _ _ _) as [[[r x] y] mv]. cbn [mbind ub_bind fst snd s_move].
  change (thing_copy (Some "GUESS")) with (Ok (A := thing) (Some "GUESS")). cbn [mbind ub_bind].
  rewrite thing_add_ok by done. cbn [mbind ub_bind deref]. do 2 f_equal.
Qed.

Lemma loop_yt a : mem_string (buff a) = Ok "YT" -> kind a <> 2 ->
  yt_or_ok rand a = Ok ([guess_text (s_move (sweep_next (width a) (a_sweep a)))],
    Running (goto Turn (set_sweep (sweep_next (width a) (a_sweep a)) a))).
Proof. intros Hb Hk. unfold yt_or_ok, buff_is. rewrite Hb. cbn [mbind ub_bind]. cbn [String.eqb]. by rewrite guess_sweep. Qed.


End Steps.

(** What of an agent matters while it guesses row by row. *)
Definition shape (a : agent) : place * Z * Z * sweep * game := (at_ a, kind a, width a, a_sweep a, a_game a).

Definition told_word (s : string) : bool := String.eqb s "MISS" || String.eqb s "SUNK" || String.eqb s "HIT".

(** An agent at the places where a turn can begin takes a line that is no message about
    a move in [yt_or_ok]. *)
Class Plain (rand : nat -> Z) (step : string -> agent -> ub (list string * status)) := plain :
  forall l a b len s, at_ a = Top \/ at_ a = Turn -> hear_buff true l [] = Ok (b, len) -> mem_string b = Ok s ->
  told_word s = false -> step l a = yt_or_ok rand (set_buff b a).

#[export] Instance plain_agent1 rand : Plain rand (agent1 rand).
Proof. intros l a b len s [Ha|Ha] Hb _ _; unfold agent1; by rewrite Ha, (hear_true _ _ _ _ Hb). Qed.

#[export] Instance plain_agent2 rand : Plain rand (agent2 rand).
Proof.
  intros l a b len s [Ha|Ha] Hb Hs Ht; unfold agent2; rewrite Ha, (hear_true _ _ _ _ Hb); [|done].
  cbn [mbind ub_bind]. unfold is_told. cbn [buff set_buff]. rewrite Hs. cbn [mbind ub_bind].
  unfold told_word in Ht. by rewrite Ht.
Qed.

(** [n] questions of the hub. *)
Fixpoint yt_lines (n : nat) : string := match n with O => "" | S n' => (("YT" ++ newline) ++ yt_lines n')%string end.

Section PlainAgent.
Context (rand : nat -> Z) (step : string -> agent -> ub (list string * status)) `{!Plain rand step}.

Lemma feeds_plain a l b len s : at_ a = Top \/ at_ a = Turn -> one_line l -> hear_buff true l [] = Ok (b, len) ->
  mem_string b = Ok s -> told_word s = false -> other s = true -> game_status (a_game a) = GAME_ON ->
  exists a', feeds step a l [] a' /\ shape a' = (Top, kind a, width a, a_sweep a, a_game a).
Proof.
  intros Ha Hl Hb Hs Ht Ho Hg. exists (goto Top (set_buff b a)). split; [|done].
  apply feeds_line; [done|]. rewrite (plain l a b len s) by done. by apply (loop_other rand _ s).
Qed.

Lemma feeds_empty a : at_ a = Top \/ at_ a = Turn -> game_status (a_game a) = GAME_ON ->
  exists a', feeds step a newline [] a' /\ shape a' = (Top, kind a, width a, a_sweep a, a_game a).
Proof.
  intros Ha Hg. destruct (cmd_heard "" ltac:(set_solver)) as (Hl & b & len & Hb & Hs).
  by apply (feeds_plain a newline b len "").
Qed.

Lemma feeds_yt a : at_ a = Top \/ at_ a = Turn -> kind a <> 2 ->
  exists a', feeds step a ("YT" ++ newline) [guess_text (s_move (sweep_next (width a) (a_sweep a)))] a' /\
    shape a' = (Turn, kind a, width a, sweep_next (width a) (a_sweep a), a_game a).
Proof.
  intros Ha Hk. destruct (cmd_heard "YT" ltac:(set_solver)) as (Hl & b & len & Hb & Hs).
  eexists. split; [apply feeds_line; [done|]; rewrite (plain _ a b len "YT") by done; exact (loop_yt rand (set_buff b a) Hs Hk)|done].
Qed.

Lemma feeds_ok a : at_ a = Top \/ at_ a = Turn ->
  exists a', feeds step a ("OK" ++ newline) [] a' /\ shape a' = (Told, kind a, width a, a_sweep a, a_game a).
Proof.
  intros Ha. destruct (cmd_heard "OK" ltac:(set_solver)) as (Hl & b & len & Hb & Hs).
  eexists. split; [apply feeds_line; [done|]; rewrite (plain _ a b len "OK") by done; exact (loop_ok rand (set_buff b a) Hs)|done].
Qed.

Lemma plays_done a : at_ a = Top \/ at_ a = Turn ->
  plays step (Running a) ("DONE" ++ newline) = Ok ([], Exited 0 (a_game a)).
Proof.
  intros Ha. destruct (cmd_heard "DONE" ltac:(set_solver)) as (Hl & b & len & Hb & Hs).
  apply plays_end; [done|]. rewrite (plain _ a b len "DONE") by done. exact (loop_done rand (set_buff b a) Hs).
Qed.

Fixpoint sweep_after (n : nat) (w : Z) (s : sweep) : sweep :=
  match n with O => s | S n' => sweep_after n' w (sweep_next w s) end.

(** A turn of the agent, to its last guess. *)
Lemma feeds_yts n a : at_ a = Top \/ at_ a = Turn -> kind a <> 2 ->
  exists a', feeds step a (yt_lines n) (guess_text <$> answers n (width a) (a_sweep a)) a' /\
    (at_ a' = Top \/ at_ a' = Turn) /\
    shape a' = (at_ a', kind a, width a, sweep_after n (width a) (a_sweep a), a_game a).
Proof.
  revert a. induction n as [|n IH]; intros a Ha Hk; [exists a; split; [apply feeds_nil|by split]|].
  destruct (feeds_yt a Ha Hk) as (a1 & Hf1 & [= Ha1 Hk1 Hw1 Hs1 Hg1]).
  destruct (IH a1 ltac:(by right) ltac:(by rewrite Hk1)) as (a2 & Hf2 & Ha2 & Hsh).
  exists a2. split; [|split; [done|by rewrite Hsh, Hk1, Hw1, Hs1, Hg1]].
  rewrite answers_S, fmap_cons. cbn [yt_lines]. rewrite Hw1, Hs1 in Hf2. by apply (feeds_trans step a _ [_] a1).
Qed.

Lemma feeds_turn n a : at_ a = Top \/ at_ a = Turn -> kind a <> 2 ->
  exists a', feeds step a (yt_lines n ++ ("OK" ++ newline))%string (guess_text <$> answers n (width a) (a_sweep a)) a' /\
    shape a' = (Told, kind a, width a, sweep_after n (width a) (a_sweep a), a_game a).
Proof.
  intros Ha Hk. destruct (feeds_yts n a Ha Hk) as (a1 & Hf1 & Ha1 & [= Hk1 Hw1 Hs1 Hg1]).
  destruct (feeds_ok a1 Ha1) as (a2 & Hf2 & [= Ha2 Hk2 Hw2 Hs2 Hg2]). exists a2. split; [|unfold shape; congruence].
  rewrite <- (app_nil_r (guess_text <$> _)). by eapply feeds_trans.
Qed.

End PlainAgent.

(** ** The messages about moves *)

Definition grids_ok (g : game) : Prop := grid_ok (field (player g)) /\ grid_ok (field (cpu g)).

Definition mark_grid (gr : grid) (x y e : Z) : grid := match grid_set gr x y e with Ok (_, gr') => gr' | UB _ => gr end.
Definition mark_side (sd : side) (i j c : Z) : side :=
  Side (total sd) (mark_grid (field sd) (i + 1) (j + 1) (mark_of c)) (ships sd).

(** What a message about a move of player [p] does to the game of agent 2. *)
Definition told_game (c p i j : Z) (g : game) : game :=
  if c =? DOWN then g else if p =? 1 then Game (mark_side (player g) i j c) (cpu g)
  else Game (player g) (mark_side (cpu g) i j c).

Lemma mark_grid_ok gr x y e : grid_ok gr -> exists r, grid_set gr x y e = Ok (r, mark_grid gr x y e) /\
  grid_ok (mark_grid gr x y e) /\ size_x (mark_grid gr x y e) = size_x gr /\ size_y (mark_grid gr x y e) = size_y gr /\
  forall i j, cell (mark_grid gr x y e) i j =
    if bool_decide ((i, j) = (x - 1, y - 1)) && check_inside_this gr (x - 1) (y - 1) then Ok e else cell gr i j.
Proof.
  intros Hg. unfold mark_grid, grid_set, position_resolve. destruct (check_inside_this gr (x - 1) (y - 1)) eqn:Hin; cbn [negb].
  - destruct (cell_inside _ _ _ Hg Hin) as [c Hc].
    destruct (cell_set_spec gr (x - 1) (y - 1) e c Hg Hc) as (g' & -> & Hg' & Hx & Hy & Hcell & _).
    exists 0. cbn [mbind ub_bind]. split_and!; try done. intros i j. by rewrite andb_true_r, Hcell.
  - exists GRID_BOUND_ERROR. split_and!; try done. intros i j. by rewrite andb_false_r.
Qed.

Lemma told_game_ok c p i j g : grids_ok g -> grids_ok (told_game c p i j g) /\ game_status (told_game c p i j g) = game_status g.
Proof.
  intros [Hp Hc]. unfold told_game. destruct (c =? DOWN); [done|].
  destruct (mark_grid_ok _ (i + 1) (j + 1) (mark_of c) Hp) as (_ & _ & Hp' & _).
  destruct (mark_grid_ok _ (i + 1) (j + 1) (mark_of c) Hc) as (_ & _ & Hc' & _). by destruct (p =? 1).
Qed.

(** [game_play_agent] of agent 2 on a buffer that reads as a message. *)
Lemma play_reads g m c p i j b : grids_ok g -> c <> DOWN -> p = 1 \/ p = 2 ->
  agent_reads m = Ok (c, mark_of c, Ascii.ascii_of_N (Z.to_N (p + 48)), i + 1, j + 1, b) ->
  game_play_agent g m 2 = Ok (c, told_game c p i j g, b).
Proof.
  intros [Hgp Hgc] Hc Hp. unfold agent_reads, game_play_agent. set (bm := buffer_replace m space NUL).
  destruct (mem_string bm) as [s|]; [|done]. cbn [mbind ub_bind].
  destruct (message_kind s) as [[[res draw] l]|]; [|done]. cbn [mbind ub_bind].
  destruct (mem_get bm l) as [pl|]; [|done]. cbn [mbind ub_bind].
  destruct (mem_get bm (l + 2)) as [m0|] eqn:Hm0; [|done]. cbn [mbind ub_bind].
  destruct (buffer_row bm (l + 2)) as [row|] eqn:Hrow; [|done]. cbn [mbind ub_bind].
  intros [= -> -> -> Hx -> <-]. rewrite (proj2 (Z.eqb_neq _ _) Hc). unfold game_play_agent_.
  rewrite Hm0, Hrow. cbn [mbind ub_bind]. rewrite Hx. unfold told_game, mark_side. rewrite (proj2 (Z.eqb_neq _ _) Hc).
  destruct (mark_grid_ok _ (i + 1) (j + 1) (mark_of c) Hgp) as (? & Hs1 & _).
  destruct (mark_grid_ok _ (i + 1) (j + 1) (mark_of c) Hgc) as (? & Hs2 & _).
  destruct Hp as [-> | ->]; cbn [andb orb Z.eqb Pos.eqb];
    [change (code (Ascii.ascii_of_N (Z.to_N (1 + 48)))) with 49|change (code (Ascii.ascii_of_N (Z.to_N (2 + 48)))) with 50];
    cbn [andb orb Z.eqb Pos.eqb]; rewrite ?Hs1, ?Hs2; done.
Qed.

Lemma token_other c : counts c = true -> other (token c) = true /\ told_word (token c) = negb (c =? DOWN).
Proof. unfold counts. intros Hc. cbool. by destruct Hc as [[-> | ->] | ->]. Qed.

(** What [told_ok] says, as a proposition. *)
Lemma told_facts c p i j : counts c = true -> p = 1 \/ p = 2 -> in_reach (i, j) ->
  one_line (told_line c p i j) /\ one_line (chr 0 ++ told_line c p i j) /\
  exists b len, hear_buff true (told_line c p i j) [] = Ok (b, len) /\ mem_string b = Ok (token c) /\
    (c <> DOWN -> exists b1 b2 b3 iid mm,
      let told := (c, mark_of c, Ascii.ascii_of_N (Z.to_N (p + 48)), i + 1, j + 1) in
      agent_reads b = Ok (told, b1) /\ mem_string b1 = Ok (token c) /\
      whole_buff len b = Ok (b2, iid, mm) /\ mem_get b2 iid = Ok (Ascii.ascii_of_N (Z.to_N (p + 48))) /\
      agent_reads b2 = Ok (told, b3) /\ mem_string b3 = Ok (token c)).
Proof.
  intros Hc Hp Hr. pose proof (told_reach c p i j Hc Hp Hr) as H. unfold told_ok in H.
  apply andb_true_iff in H as [H H1]. apply andb_true_iff in H as [H2 H3]. apply bool_decide_eq_true in H2, H3.
  split; [done|]. split; [done|].
  destruct (hear_buff true _ []) as [[b len]|]; [|done]. exists b, len. split; [done|].
  apply andb_true_iff in H1 as [Hm H1]. apply bool_decide_eq_true in Hm. split; [done|]. intros Hd.
  rewrite (proj2 (Z.eqb_neq _ _) Hd) in H1.
  destruct (agent_reads b) as [[[[[[res draw] pl] x] y] b1]|] eqn:Ha1; [|done].
  destruct (whole_buff len b) as [[[b2 iid] mm]|] eqn:Hw; [|done].
  apply andb_true_iff in H1 as [H1 H4]. rewrite !andb_true_iff, !bool_decide_eq_true in H1.
  destruct H1 as [[Heq Hm1] Hi]. injection Heq as -> -> -> -> ->.
  destruct (agent_reads b2) as [[[[[[res draw] pl] x] y] b3]|] eqn:Ha2; [|done].
  rewrite andb_true_iff, !bool_decide_eq_true in H4. destruct H4 as [Heq Hm3]. injection Heq as -> -> -> -> ->.
  by exists b1, b2, b3, iid, mm.
Qed.

Section Messages.
Context (rand : nat -> Z).

(** Agent 1 does not see the message about its own move: the terminator that the hub sends
    after [OK] is its first byte. *)
Lemma agent1_told a s : at_ a = Told -> game_status (a_game a) = GAME_ON -> one_line (chr 0 ++ s) ->
  exists a', feeds (agent1 rand) a (chr 0 ++ s) [] a' /\ shape a' = (Top, kind a, width a, a_sweep a, a_game a).
Proof.
  intros Ha Hg Hl. eexists. split; [apply feeds_line; [done|]|].
  - unfold agent1. rewrite Ha. unfold hear, hear_buff, read_into. cbn [bytes String.list_ascii_of_string app chr].
    change (chr 0 ++ s)%string with (String NUL s). cbn [bytes String.list_ascii_of_string app mem_string].
    rewrite Ascii.eqb_refl. cbn [mbind ub_bind String.length parser_changer].
    unfold told1, is_told. cbn [buff set_buff mem_string]. rewrite Ascii.eqb_refl. cbn [mbind ub_bind].
    cbn [String.eqb orb]. apply (rest_other _ ""); [cbn [buff set_buff mem_string]; by rewrite Ascii.eqb_refl|done|done].
  - done.
Qed.

(** It sees the one about the other's move where it looks for nothing of the kind. *)
Lemma agent1_top a c p i j : at_ a = Top -> game_status (a_game a) = GAME_ON -> counts c = true ->
  p = 1 \/ p = 2 -> in_reach (i, j) ->
  exists a', feeds (agent1 rand) a (told_line c p i j) [] a' /\ shape a' = (Top, kind a, width a, a_sweep a, a_game a).
Proof.
  intros Ha Hg Hc Hp Hr. destruct (told_facts c p i j Hc Hp Hr) as (Hl & _ & b & len & Hb & Hs & _).
  exists (goto Top (set_buff b a)). split; [|done]. apply feeds_line; [done|].
  unfold agent1. rewrite Ha, (hear_true _ _ _ _ Hb). cbn [mbind ub_bind].
  apply (loop_other rand (set_buff b a) (token c)); [done|by apply token_other|done].
Qed.

Lemma heard_empty a : at_ a = Heard -> game_status (a_game a) = GAME_ON ->
  exists a', feeds (agent2 rand) a newline [] a' /\ shape a' = (Top, kind a, width a, a_sweep a, a_game a).
Proof.
  intros Ha Hg. eexists. split; [apply feeds_line; [by vm_compute|]|].
  - unfold agent2. rewrite Ha. unfold hear, hear_buff. set (b := read_into newline _).
    change (mem_string b) with (Ok newline). cbn [mbind ub_bind String.length newline chr].
    change (parser_changer b 1 1 1 NUL) with (Ok (NUL :: tail b)). cbn [mbind ub_bind].
    by apply (loop_other rand _ "").
  - done.
Qed.

(** Agent 2 sees a move of agent 1 before its turn... *)
Lemma agent2_top a c i j : at_ a = Top -> game_status (a_game a) = GAME_ON -> grids_ok (a_game a) ->
  counts c = true -> in_reach (i, j) ->
  exists a', feeds (agent2 rand) a (told_line c 1 i j ++ newline) [] a' /\
    shape a' = (Top, kind a, width a, a_sweep a, told_game c 1 i j (a_game a)).
Proof.
  intros Ha Hg Hok Hc Hr. destruct (told_facts c 1 i j Hc ltac:(by left) Hr) as (Hl & _ & b & len & Hb & Hs & Hm).
  destruct (token_other c Hc) as [Hto Htw]. destruct (told_game_ok c 1 i j _ Hok) as [_ Hst].
  assert (exists a1, feeds (agent2 rand) a (told_line c 1 i j) [] a1 /\ (at_ a1 = Top \/ at_ a1 = Heard) /\
      shape a1 = (at_ a1, kind a, width a, a_sweep a, told_game c 1 i j (a_game a))) as (a1 & Hf1 & Ha1 & [= Hk1 Hw1 Hs1 Hg1]).
  { destruct (Z.eqb_spec c DOWN) as [->|Hd].
    - destruct (feeds_plain rand (agent2 rand) a _ b len _ ltac:(by left) Hl Hb Hs Htw Hto Hg) as (a1 & Hf & Hsh).
      exists a1. split; [done|]. injection Hsh as Ha1 Hk Hw Hsw Hga. unfold shape. rewrite Ha1, Hk, Hw, Hsw, Hga. split; [by left|done].
    - destruct (Hm Hd) as (b1 & b2 & b3 & iid & mm & _ & _ & Hw & Hi & Hr2 & _).
      eexists (goto Heard _). split; [apply feeds_line; [done|]|split; [by right|]].
      + unfold agent2. rewrite Ha, (hear_true _ _ _ _ Hb). cbn [mbind ub_bind]. unfold is_told. cbn [buff set_buff].
        rewrite Hs. cbn [mbind ub_bind]. fold (told_word (token c)). rewrite Htw. cbn [negb].
        unfold whole. cbn [buff set_buff]. rewrite Hw. cbn [mbind ub_bind buff set_buff]. rewrite Hi. cbn [mbind ub_bind].
        change (code _ =? 49) with true. cbn [a_game set_buff].
        rewrite (play_reads _ _ c 1 i j b3 Hok Hd ltac:(by left) Hr2). reflexivity.
      + done. }
  assert (exists a2, feeds (agent2 rand) a1 newline [] a2 /\ shape a2 = (Top, kind a1, width a1, a_sweep a1, a_game a1))
    as (a2 & Hf2 & Hsh2).
  { destruct Ha1 as [Ha1|Ha1]; [apply (feeds_empty rand)|by apply heard_empty; [|rewrite Hg1, Hst]]; [apply _|by left|by rewrite Hg1, Hst]. }
  exists a2. split; [by apply (feeds_trans _ a _ [] a1)|]. by rewrite Hsh2, Hk1, Hw1, Hs1, Hg1.
Qed.

(** ... and its own after it. *)
Lemma agent2_told a c i j : at_ a = Told -> game_status (a_game a) = GAME_ON -> grids_ok (a_game a) ->
  counts c = true -> in_reach (i, j) ->
  exists a', feeds (agent2 rand) a (told_line c 2 i j ++ newline) [] a' /\
    shape a' = (Top, kind a, width a, a_sweep a, told_game c 2 i j (a_game a)).
Proof.
  intros Ha Hg Hok Hc Hr. destruct (told_facts c 2 i j Hc ltac:(by right) Hr) as (Hl & _ & b & len & Hb & Hs & Hm).
  destruct (token_other c Hc) as [Hto Htw]. destruct (told_game_ok c 2 i j _ Hok) as [_ Hst].
  assert (exists a1, feeds (agent2 rand) a (told_line c 2 i j) [] a1 /\
      shape a1 = (Top, kind a, width a, a_sweep a, told_game c 2 i j (a_game a))) as (a1 & Hf1 & [= Ha1 Hk1 Hw1 Hs1 Hg1]).
  { assert (Hstep : exists b', agent2 rand (told_line c 2 i j) a =
        Ok ([], Running (goto Top (set_buff b' (set_game (told_game c 2 i j (a_game a)) a))))).
    - unfold agent2. rewrite Ha, (hear_true _ _ _ _ Hb). cbn [mbind ub_bind]. unfold is_told. cbn [buff set_buff].
      rewrite Hs. cbn [mbind ub_bind]. fold (told_word (token c)). rewrite Htw.
      destruct (Z.eqb_spec c DOWN) as [->|Hd]; cbn [negb].
      + exists b. rewrite (rest_other _ (token DOWN)) by done. by destruct a.
      + destruct (Hm Hd) as (b1 & b2 & b3 & iid & mm & Hr1 & Hb1 & _). exists b1. cbn [a_game set_buff].
        rewrite (play_reads _ _ c 2 i j b1 Hok Hd ltac:(by right) Hr1). cbn [mbind ub_bind].
        rewrite (rest_other _ (token c)) by (try done; cbn [a_game set_buff set_game]; by rewrite Hst). reflexivity.
    - destruct Hstep as [b' Hstep]. eexists. split; [by apply feeds_line|done]. }
  destruct (feeds_empty rand (agent2 rand) a1 ltac:(by left) ltac:(by rewrite Hg1, Hst)) as (a2 & Hf2 & Hsh2).
  exists a2. split; [by apply (feeds_trans _ a _ [] a1)|]. by rewrite Hsh2, Hk1, Hw1, Hs1, Hg1.
Qed.

End Messages.

(** ** What the hub writes in a turn *)

Fixpoint yts (a : Z) (n : nat) : list output :=
  match n with O => [] | S n' => [To a "YT"; To a newline] ++ yts a n' end.

Lemma stream_yts a b n : stream b (yts a n) = if b =? a then yt_lines n else "".
Proof.
  induction n as [|n IH]; [by case_match|]. cbn [yts app stream]. rewrite IH. case_match; [|done].
  cbn [yt_lines]. by rewrite string_app_assoc.
Qed.

Lemma grid_set_size gr x y e r gr' : grid_set gr x y e = Ok (r, gr') -> size_x gr' = size_x gr /\ size_y gr' = size_y gr.
Proof.
  unfold grid_set, cell_set. case_match; [by intros [= _ <-]|].
  destruct (cell gr _ _); [|done]. cbn [mbind ub_bind]. by intros [= _ <-].
Qed.

Definition same_size (g g' : grid) : Prop := size_x g' = size_x g /\ size_y g' = size_y g.

(** A move is refused, and changes nothing, or counts. *)
Lemma game_play_cases sd m r sd' : game_play_ sd m = Ok (r, sd') ->
  same_size (field sd) (field sd') /\ (r < 0 /\ sd' = sd \/ counts r = true).
Proof.
  unfold game_play_. destruct (move_check m) as [[]|]; cbn [mbind ub_bind negb]; [|by intros [= <- <-]; split; [|left]|done].
  destruct (deref m) as [s|]; [|done]. cbn [mbind ub_bind].
  destruct (move_column s) as [x|]; [|done]. cbn [mbind ub_bind]. destruct (move_row s) as [y|]; [|done]. cbn [mbind ub_bind].
  destruct (grid_get (field sd) x y) as [e|]; [|done]. cbn [mbind ub_bind].
  destruct (e =? 0); [by intros [= <- <-]; split; [|left]|]. destruct (e =? DEFAULT_ELEMENT).
  { destruct (grid_set _ _ _ _) as [[]|] eqn:Hs; [|done]. intros [= <- <-]. split; [by eapply grid_set_size|by right]. }
  destruct ((e =? 47) || (e =? 42)); [by intros [= <- <-]; split; [|left]|].
  destruct ((49 <=? e) && (e <=? 57)); [|by intros [= <- <-]; split; [|right]].
  destruct (if _ <? 0 then _ else _) as [k|]; [|done]. cbn [mbind ub_bind].
  destruct (array_set _ _ _); [|done]. cbn [mbind ub_bind]. destruct (grid_set _ _ _ _) as [[]|] eqn:Hs; [|done].
  cbn [mbind ub_bind]. intros [= <- <-]. split; [by eapply grid_set_size|right; by destruct (k - 1 =? 0)].
Qed.

Lemma play_on_cases won sd m r sd' : play_on won sd m = Ok (r, sd') ->
  same_size (field sd) (field sd') /\
  (r = won /\ total sd = 0 /\ sd' = sd \/ r < 0 /\ sd' = sd \/ counts r = true).
Proof.
  unfold play_on. destruct (Z.eqb_spec (total sd) 0); [by intros [= <- <-]; split; [|left]|].
  destruct (game_play_ sd m) as [[res s1]|] eqn:Hp; [|done]. intros [= -> <-].
  destruct (game_play_cases _ _ _ _ Hp) as [Hs [[Hr ->]|Hc]].
  - rewrite (proj2 (Z.eqb_neq r DOWN)) by (unfold DOWN; lia). split; [done|]. by right; left.
  - split; [by destruct (r =? DOWN)|]. by right; right.
Qed.

Lemma play_of_refused a g m c g' : play_of a g m = Ok (c, g') -> c < 0 -> g' = g.
Proof.
  unfold play_of, game_play_player, game_play_cpu. destruct (a =? 1), g as [p q]; cbn [player cpu].
  - destruct (play_on WIN_PLAYER q m) as [[r sd]|] eqn:Hp; [|done]. intros [= -> <-] Hc. f_equal.
    destruct (play_on_cases _ _ _ _ _ Hp) as [_ [(-> & _)|[[_ ->]|Hcnt]]]; try done. by destruct c.
  - destruct (play_on WIN_CPU p m) as [[r sd]|] eqn:Hp; [|done]. intros [= -> <-] Hc. f_equal.
    destruct (play_on_cases _ _ _ _ _ Hp) as [_ [(-> & _)|[[_ ->]|Hcnt]]]; try done. by destruct c.
Qed.

(** The answers that are used up, the last of which was accepted. *)
Lemma ask_accepts a g ans out g1 c m rest : ask a (play_of a) g ans = Ok (out, g1, Some (c, m), rest) ->
  exists w b, ans = w ++ b :: rest /\ out = yts a (S (length w)) /\
    (forall r, ask a (play_of a) g (w ++ b :: r) = Ok (out, g1, Some (c, m), r)) /\
    answer_move b = Ok m /\ play_of a g m = Ok (c, g1) /\ 0 <= c.
Proof.
  revert out. induction ans as [|b ans IH]; intros out; [done|]. cbn [ask].
  destruct (answer_move b) as [m0|] eqn:Hm; [|done]. cbn [mbind ub_bind].
  destruct (play_of a g m0) as [[c0 g0]|] eqn:Hp; [|done]. cbn [mbind ub_bind]. destruct (Z.ltb_spec c0 0) as [Hc|Hc].
  - pose proof (play_of_refused a g m0 c0 g0 Hp Hc) as ->.
    destruct (ask a (play_of a) g ans) as [[[[out' g2] r] rest']|] eqn:Ha; [|done]. intros [= <- -> -> ->].
    destruct (IH out' eq_refl) as (w & b' & -> & -> & Hall & Hm' & Hp' & Hc'). exists (b :: w), b'.
    split_and!; try done. intros r. cbn [app ask]. rewrite Hm. cbn [mbind ub_bind]. rewrite Hp. cbn [mbind ub_bind].
    rewrite (proj2 (Z.ltb_lt _ _) Hc), Hall. done.
  - intros [= <- -> -> -> ->]. exists [], b. split_and!; try done. intros r. cbn [app ask]. rewrite Hm. cbn [mbind ub_bind].
    rewrite Hp. cbn [mbind ub_bind]. by rewrite (proj2 (Z.ltb_ge _ _) Hc).
Qed.

(** The text of the message about a move, and a turn that was finished. *)
Definition told_text (c p : Z) (s : string) : string := (display_selector c ++ " " ++ chr (p + 48) ++ "," ++ s)%string.

Lemma turn_accepts a g ans out g1 rest : a = 1 \/ a = 2 ->
  (forall c s, play_of a g (Some s) = Ok (c, g1) -> 0 <= c -> counts c = true) ->
  turn a g ans = Ok (out, g1, true, rest) ->
  exists w b c s, ans = w ++ b :: rest /\ answer_move b = Ok (Some s) /\ play_of a g (Some s) = Ok (c, g1) /\
    counts c = true /\ (forall r, turn a g (w ++ b :: r) = Ok (out, g1, true, r)) /\
    stream a out = (yt_lines (S (length w)) ++ ("OK" ++ newline) ++ (if (a =? 1)%Z then chr 0 else "") ++ told_text c a s ++ newline)%string /\
    stream (3 - a) out = (told_text c a s ++ newline)%string.
Proof.
  intros Ha Hcnt. unfold turn. fold (play_of a).
  destruct (ask a (play_of a) g ans) as [[[[o g0] r0] rest0]|] eqn:Hask; [|done]. cbn [mbind ub_bind].
  destruct r0 as [[c m]|]; [|done]. intros Ht.
  destruct m as [s|]; [|by destruct (message a c None) as [[|]|]].
  assert (g0 = g1) as -> by (destruct (message a c (Some s)) as [[t|]|]; cbn in Ht; congruence).
  destruct (ask_accepts _ _ _ _ _ _ _ _ Hask) as (w & b & -> & -> & Hall & Hm & Hp & Hc).
  specialize (Hcnt c s Hp Hc). revert Ht. rewrite (message_text a c s Hcnt). cbn [mbind ub_bind deref].
  intros [= <- ->]. exists w, b, c, s. split_and!; try done.
  - intros r. fold (play_of a). rewrite Hall. cbn [mbind ub_bind]. rewrite (message_text a c s Hcnt). done.
  - change (To a "YT" :: To a newline :: yts a (length w) ++ ?l) with (yts a (S (length w)) ++ l).
    rewrite stream_app, stream_yts, Z.eqb_refl. f_equal. unfold told_text.
    destruct Ha as [-> | ->]; cbn [stream Z.eqb Pos.eqb Z.sub Z.add Z.opp Z.pos_sub];
      rewrite ?string_app_assoc, ?string_app_nil_r; done.
  - change (To a "YT" :: To a newline :: yts a (length w) ++ ?l) with (yts a (S (length w)) ++ l).
    rewrite stream_app, stream_yts. unfold told_text.
    destruct Ha as [-> | ->]; cbn [stream Z.eqb Pos.eqb Z.sub Z.add Z.opp Z.pos_sub Pos.add Pos.pred_double];
      rewrite ?string_app_nil_r; done.
Qed.

(** ** A copy of a grid that follows the messages *)

(** The copy has no other misses and no other hits than the grid, and with [all] it has
    all the misses. *)
Definition hears (all : bool) (gr copy : grid) : Prop := size_x copy = size_x gr /\ size_y copy = size_y gr /\
  forall i j, (cell copy i j = Ok 47 -> cell gr i j = Ok 47) /\ (cell copy i j = Ok 42 -> cell gr i j = Ok 42) /\
    (all = true -> cell gr i j = Ok 47 -> cell copy i j = Ok 47).

(** Agent 2 has its own grid in [player] and that of the other in [cpu]. *)
Definition copies (all : bool) (g c : game) : Prop :=
  hears all (field (cpu g)) (field (player c)) /\ hears all (field (player g)) (field (cpu c)).

(** The cell that an accepted move changes, with at most nine ships. *)
Lemma played_cells n sd sd' x y c0 c : side_ok n sd -> (n <= 9)%nat -> grid_get (field sd) x y = Ok c0 -> played n sd sd' x y c0 c ->
  counts c = true -> check_inside_this (field sd) (x - 1) (y - 1) = true /\
  cell (field sd) (x - 1) (y - 1) <> Ok 47 /\ cell (field sd) (x - 1) (y - 1) <> Ok 42 /\
  forall i j, cell (field sd') i j = if bool_decide ((i, j) = (x - 1, y - 1)) then Ok (mark_of c) else cell (field sd) i j.
Proof.
  intros Hs Hn Hget Hp Hc. unfold played in Hp. destruct (Z.eqb_spec c0 0) as [->|H0]; [by destruct Hp as [-> _]|].
  destruct ((c0 =? 47) || (c0 =? 42)) eqn:Em; [by destruct Hp as [-> _]|].
  unfold grid_get, position_resolve in Hget. destruct (check_inside_this (field sd) (x - 1) (y - 1)); cbn [negb] in Hget; [|by injection Hget as <-].
  rewrite Hget. split; [done|]. apply orb_false_iff in Em as [E47%Z.eqb_neq E42%Z.eqb_neq]. split; [congruence|]. split; [congruence|].
  destruct (c0 =? DEFAULT_ELEMENT); [by destruct Hp as (-> & _ & _ & _ & Hcell)|].
  destruct Hp as (k & Hk & -> & Hp). rewrite (proj2 (Nat.ltb_lt _ _)) in Hp by lia. destruct Hp as (-> & _ & _ & Hcell).
  intros i j. rewrite Hcell. by destruct (count _ _ =? 1).
Qed.

Lemma hears_played all n sd sd' c0 c i j copy : side_ok n sd -> (n <= 9)%nat -> grid_get (field sd) (i + 1) (j + 1) = Ok c0 ->
  played n sd sd' (i + 1) (j + 1) c0 c -> counts c = true ->
  same_size (field sd) (field sd') -> grid_ok copy -> hears all (field sd) copy ->
  hears all (field sd') (if c =? DOWN then copy else mark_grid copy (i + 1) (j + 1) (mark_of c)).
Proof.
  intros Hs Hn Hget Hp Hc [Hsx Hsy] Hok (Hx & Hy & Hcells).
  destruct (played_cells n sd sd' (i + 1) (j + 1) c0 c Hs Hn Hget Hp Hc) as (Hin & H47 & H42 & Hcell).
  destruct (Z.eqb_spec c DOWN) as [->|Hd].
  - split; [congruence|split; [congruence|]]. intros i' j'. rewrite Hcell. destruct (Hcells i' j') as (Hm & Hh & Ha).
    case_bool_decide as Hij; [|done]. injection Hij as -> ->. change (mark_of DOWN) with 42. split; [|done].
    by intros H%Hm.
  - destruct (mark_grid_ok copy (i + 1) (j + 1) (mark_of c) Hok) as (r & _ & _ & Hx' & Hy' & Hcell').
    split; [congruence|split; [congruence|]]. intros i' j'. rewrite Hcell, Hcell'. destruct (Hcells i' j') as (Hm & Hh & Ha).
    replace (check_inside_this copy (i + 1 - 1) (j + 1 - 1)) with true
      by (symmetry; revert Hin; unfold check_inside_this; by rewrite Hx, Hy).
    rewrite andb_true_r. by case_bool_decide.
Qed.

(** A copy that misses a message lacks a mark. *)
Lemma hears_lost n sd sd' c0 c i j copy : side_ok n sd -> (n <= 9)%nat -> grid_get (field sd) (i + 1) (j + 1) = Ok c0 ->
  played n sd sd' (i + 1) (j + 1) c0 c -> counts c = true ->
  same_size (field sd) (field sd') -> hears false (field sd) copy -> hears false (field sd') copy.
Proof.
  intros Hs Hn Hget Hp Hc [Hsx Hsy] (Hx & Hy & Hcells).
  destruct (played_cells n sd sd' (i + 1) (j + 1) c0 c Hs Hn Hget Hp Hc) as (Hin & H47 & H42 & Hcell).
  split; [congruence|split; [congruence|]]. intros i' j'. rewrite Hcell. destruct (Hcells i' j') as (Hm & Hh & _).
  case_bool_decide as Hij; [|done]. injection Hij as -> ->.
  split; [by intros H%Hm|split; [by intros H%Hh|done]].
Qed.

(** ** A round *)

Lemma answers_app j k w s : answers (j + k) w s = answers j w s ++ answers k w (sweep_after j w s).
Proof. revert s. induction j as [|j IH]; intros s; [done|]. cbn [Nat.add]. by rewrite !answers_S, IH. Qed.

Lemma answers_length n w s : length (answers n w s) = n.
Proof. revert s. induction n as [|n IH]; intros s; [done|]. rewrite answers_S. cbn [length]. by rewrite IH. Qed.

(** The guesses that are used up are the first ones. *)
Lemma answers_used k w sw ws b rest : guess_text <$> answers k w sw = ws ++ b :: rest ->
  exists m, b = guess_text m /\ m ∈ answers k w sw /\ (S (length ws) <= k)%nat /\
    ws ++ [b] = guess_text <$> answers (S (length ws)) w sw /\
    rest = guess_text <$> answers (k - S (length ws)) w (sweep_after (S (length ws)) w sw).
Proof.
  intros Heq. pose proof (f_equal length Heq) as Hl.
  rewrite length_fmap, answers_length, length_app in Hl. cbn [length] in Hl.
  replace k with (S (length ws) + (k - S (length ws)))%nat in Heq at 1 by lia.
  rewrite answers_app, fmap_app, cons_middle, app_assoc in Heq.
  apply app_inj_1 in Heq as [H1 H2].
  2:{ rewrite length_fmap, answers_length, length_app. cbn [length]. lia. }
  assert (Hb : b ∈ guess_text <$> answers (S (length ws)) w sw) by (rewrite H1; set_solver).
  apply list_elem_of_fmap in Hb as (m & -> & Hm). exists m. split_and!; try done; [|lia].
  replace k with (S (length ws) + (k - S (length ws)))%nat by lia. rewrite answers_app. set_solver.
Qed.

(** A turn of player [a] whose guesses are in reach, on a side that can be shot at. *)
Lemma turn_round n a g k w sw out g1 rest : a = 1 \/ a = 2 -> side_ok n (target a g) -> (n <= 9)%nat -> total (target a g) <> 0 ->
  Forall in_reach (answers k w sw) -> turn a g (guess_text <$> answers k w sw) = Ok (out, g1, true, rest) ->
  exists j i l c sd', (0 < j <= k)%nat /\ in_reach (i, l) /\ counts c = true /\ g1 = with_target a g sd' /\ side_ok n sd' /\
    rest = guess_text <$> answers (k - j) w (sweep_after j w sw) /\
    (forall r, turn a g ((guess_text <$> answers j w sw) ++ r) = Ok (out, g1, true, r)) /\
    stream a out = (yt_lines j ++ ("OK" ++ newline) ++ (if (a =? 1)%Z then chr 0 else "") ++ told_line c a i l ++ newline)%string /\
    stream (3 - a) out = (told_line c a i l ++ newline)%string /\
    (forall all copy, grid_ok copy -> hears all (field (target a g)) copy ->
      hears all (field sd') (if c =? DOWN then copy else mark_grid copy (i + 1) (l + 1) (mark_of c))) /\
    (forall copy, hears false (field (target a g)) copy -> hears false (field sd') copy).
Proof.
  intros Ha Hs Hn Ht Hreach Htn.
  assert (Hcnt : forall c s, play_of a g (Some s) = Ok (c, g1) -> 0 <= c -> counts c = true).
  { intros c s Hp Hc. unfold play_of, game_play_player, game_play_cpu in Hp. unfold target in Ht. destruct (a =? 1);
      (destruct (play_on _ _ _) as [[r sd]|] eqn:Hpo; [|done]); injection Hp as -> _;
      destruct (play_on_cases _ _ _ _ _ Hpo) as [_ [(_ & ? & _)|[[? _]|?]]]; done || lia. }
  destruct (turn_accepts a g _ _ _ _ Ha Hcnt Htn) as (ws & b & c & s & Heq & Hm & Hp & Hc & Hall & Hs1 & Hs2).
  destruct (answers_used _ _ _ _ _ _ Heq) as ([i l] & -> & Hin & Hk & Hfirst & Hrest).
  rewrite Forall_forall in Hreach. specialize (Hreach _ Hin). destruct (guess_taken i l Hreach) as (Hat & Hmc & Hx & Hy).
  rewrite Hat in Hm. injection Hm as <-.
  destruct (play_on_ok n (if a =? 1 then WIN_PLAYER else WIN_CPU) (target a g) _ _ _ Hs Ht Hmc Hx Hy)
    as (c0 & r & sd' & Hc0 & Hpo & Hs' & Hpl & _).
  rewrite (play_of_eq _ _ _ _ _ Hpo) in Hp. injection Hp as -> <-.
  exists (S (length ws)), i, l, c, sd'. split_and!; try done; try lia.
  - intros r. rewrite <- Hfirst, <- app_assoc. apply Hall.
  - intros all copy Hok Hh. apply (hears_played all n (target a g) sd' c0 c i l copy); try done. by apply (play_on_cases _ _ _ _ _ Hpo).
  - intros copy Hh. apply (hears_lost n (target a g) sd' c0 c i l copy); try done. by apply (play_on_cases _ _ _ _ _ Hpo).
Qed.

(** ** The whole match *)

(** Agent [a] is about to read, and has the game [c]. *)
Record sweeping (a : agent) (c : game) : Prop := {
  sw_top : at_ a = Top;
  sw_kind : kind a <> 2;
  sw_game : a_game a = c;
  sw_on : game_status c = GAME_ON;
}.

Lemma sweeping_shape a a' sw c c' : shape a' = (Top, kind a, width a, sw, c') -> sweeping a c -> game_status c' = GAME_ON ->
  sweeping a' c' /\ width a' = width a /\ a_sweep a' = sw.
Proof. intros [= H1 H2 H3 H4 H5] [_ Hk _ _] Hs. split; [|done]. split; congruence. Qed.

(** Agent 2 does not recognise a line behind a terminator. *)
Lemma agent2_deaf rand a s : at_ a = Top -> game_status (a_game a) = GAME_ON -> one_line (chr 0 ++ s) ->
  exists a', feeds (agent2 rand) a (chr 0 ++ s ++ newline) [] a' /\ shape a' = (Top, kind a, width a, a_sweep a, a_game a).
Proof.
  intros Ha Hg Hl.
  assert (exists a1, feeds (agent2 rand) a (chr 0 ++ s) [] a1 /\ shape a1 = (Top, kind a, width a, a_sweep a, a_game a))
    as (a1 & Hf1 & [= Hp1 Hk1 Hw1 Hs1 Hg1]).
  { eexists. split; [apply feeds_line; [done|]|].
    - unfold agent2. rewrite Ha. unfold hear, hear_buff, read_into. cbn [bytes String.list_ascii_of_string app chr].
      change (chr 0 ++ s)%string with (String NUL s). cbn [bytes String.list_ascii_of_string app mem_string].
      rewrite Ascii.eqb_refl. cbn [mbind ub_bind String.length parser_changer].
      unfold is_told. cbn [buff set_buff mem_string]. rewrite Ascii.eqb_refl. cbn [mbind ub_bind].
      cbn [String.eqb orb]. unfold yt_or_ok, buff_is. cbn [buff set_buff mem_string]. rewrite Ascii.eqb_refl.
      cbn [mbind ub_bind String.eqb].
      apply (rest_other _ ""); [cbn [buff set_buff mem_string]; by rewrite Ascii.eqb_refl|done|done].
    - done. }
  destruct (feeds_empty rand (agent2 rand) a1 ltac:(by left) ltac:(by rewrite Hg1)) as (a2 & Hf2 & Hsh2).
  exists a2. split; [|congruence]. rewrite <- string_app_assoc. by apply (feeds_trans _ a _ [] a1).
Qed.

Section Match.
Context (rand : nat -> Z).
Abbreviation run1 a s := (plays (agent1 rand) (Running a) s).
Abbreviation run2 a s := (plays (agent2 rand) (Running a) s).
Abbreviation texts j a := (guess_text <$> answers j (width a) (a_sweep a)).

(** A turn of player 1, as both agents see it. *)
Lemma round_1 A B c1 c2 j i l c : sweeping A c1 -> sweeping B c2 -> grids_ok c2 -> in_reach (i, l) -> counts c = true ->
  exists A' B', sweeping A' c1 /\ width A' = width A /\ a_sweep A' = sweep_after j (width A) (a_sweep A) /\
    sweeping B' (told_game c 1 i l c2) /\ width B' = width B /\ a_sweep B' = a_sweep B /\
    feeds (agent1 rand) A (yt_lines j ++ ("OK" ++ newline) ++ chr 0 ++ told_line c 1 i l ++ newline) (texts j A) A' /\
    feeds (agent2 rand) B (told_line c 1 i l ++ newline) [] B'.
Proof.
  intros HA HB Hok Hr Hc. pose proof HA as [Ha1 Ha2 Ha3 Ha4]. pose proof HB as [Hb1 Hb2 Hb3 Hb4].
  destruct (feeds_turn rand (agent1 rand) j A ltac:(by left) Ha2) as (A1 & Hf1 & [= Hp1 Hk1 Hw1 Hs1 Hg1]).
  destruct (told_facts c 1 i l Hc ltac:(by left) Hr) as (_ & Hl & _).
  destruct (agent1_told rand A1 (told_line c 1 i l) Hp1 ltac:(congruence) Hl) as (A2 & Hf2 & [= Hp2 Hk2 Hw2 Hs2 Hg2]).
  destruct (feeds_empty rand (agent1 rand) A2 ltac:(by left) ltac:(congruence)) as (A3 & Hf3 & [= Hp3 Hk3 Hw3 Hs3 Hg3]).
  destruct (agent2_top rand B c i l Hb1 ltac:(congruence) ltac:(by rewrite Hb3) Hc Hr) as (B1 & Hf4 & HB1).
  rewrite Hb3 in HB1. destruct (told_game_ok c 1 i l c2 Hok) as [_ Hst].
  destruct (sweeping_shape B B1 _ _ _ HB1 HB ltac:(congruence)) as (HsB & HwB & HswB).
  exists A3, B1. split_and!; try done; [by split; congruence|congruence|congruence|].
  pose proof (feeds_trans _ _ _ _ _ _ _ _ Hf1 (feeds_trans _ _ _ _ _ _ _ _ Hf2 Hf3)) as Hf.
  rewrite !app_nil_r, !string_app_assoc in Hf. rewrite !string_app_assoc. exact Hf.
Qed.

(** A turn of player 2. *)
Lemma round_2 A B c1 c2 j i l c : sweeping A c1 -> sweeping B c2 -> grids_ok c2 -> in_reach (i, l) -> counts c = true ->
  exists A' B', sweeping A' c1 /\ width A' = width A /\ a_sweep A' = a_sweep A /\
    sweeping B' (told_game c 2 i l c2) /\ width B' = width B /\ a_sweep B' = sweep_after j (width B) (a_sweep B) /\
    feeds (agent1 rand) A (told_line c 2 i l ++ newline) [] A' /\
    feeds (agent2 rand) B (yt_lines j ++ ("OK" ++ newline) ++ told_line c 2 i l ++ newline) (texts j B) B'.
Proof.
  intros HA HB Hok Hr Hc. pose proof HA as [Ha1 Ha2 Ha3 Ha4]. pose proof HB as [Hb1 Hb2 Hb3 Hb4].
  destruct (feeds_turn rand (agent2 rand) j B ltac:(by left) Hb2) as (B1 & Hf1 & [= Hp1 Hk1 Hw1 Hs1 Hg1]).
  destruct (agent2_told rand B1 c i l Hp1 ltac:(congruence) ltac:(by rewrite Hg1, Hb3) Hc Hr) as (B2 & Hf2 & [= Hp2 Hk2 Hw2 Hs2 Hg2]).
  destruct (agent1_top rand A c 2 i l Ha1 ltac:(congruence) Hc ltac:(by right) Hr) as (A1 & Hf3 & [= Hp3 Hk3 Hw3 Hs3 Hg3]).
  destruct (feeds_empty rand (agent1 rand) A1 ltac:(by left) ltac:(congruence)) as (A2 & Hf4 & [= Hp4 Hk4 Hw4 Hs4 Hg4]).
  destruct (told_game_ok c 2 i l c2 Hok) as [_ Hst].
  exists A2, B2. split_and!; try congruence; [by split; congruence|split; congruence| |].
  - by apply (feeds_trans _ _ _ [] _ _ []) with (1 := Hf3).
  - pose proof (feeds_trans _ _ _ _ _ _ _ _ Hf1 Hf2) as Hf. rewrite app_nil_r, !string_app_assoc in Hf. rewrite !string_app_assoc. exact Hf.
Qed.

Lemma plays_finish A c step `{!Plain rand step} g a : a = 1 \/ a = 2 -> sweeping A c ->
  plays step (Running A) (stream a (finish g)) = Ok ([], Exited 0 c).
Proof.
  intros Ha [H1 _ <- _]. rewrite <- (plays_done rand step A ltac:(by left)). by destruct Ha as [-> | ->].
Qed.

Lemma stream_announce a g out : stream a (announce g ++ out) = stream a out.
Proof. done. Qed.

Lemma copies_1 all g c2 c i l sd' : copies all g c2 -> grids_ok c2 ->
  (forall all copy, grid_ok copy -> hears all (field (target 1 g)) copy ->
    hears all (field sd') (if c =? DOWN then copy else mark_grid copy (i + 1) (l + 1) (mark_of c))) ->
  copies all (with_target 1 g sd') (told_game c 1 i l c2).
Proof.
  intros [H1 H2] [Hg1 Hg2] Hh. specialize (Hh all _ Hg1 H1). unfold told_game, copies. by destruct (c =? DOWN).
Qed.

Lemma copies_2 all g c2 c i l sd' : copies all g c2 -> grids_ok c2 ->
  (forall all copy, grid_ok copy -> hears all (field (target 2 g)) copy ->
    hears all (field sd') (if c =? DOWN then copy else mark_grid copy (i + 1) (l + 1) (mark_of c))) ->
  copies all (with_target 2 g sd') (told_game c 2 i l c2).
Proof.
  intros [H1 H2] [Hg1 Hg2] Hh. specialize (Hh all _ Hg2 H2). unfold told_game, copies. by destruct (c =? DOWN).
Qed.

Lemma reach_rest j k w s : (j <= k)%nat -> Forall in_reach (answers k w s) -> Forall in_reach (answers (k - j) w (sweep_after j w s)).
Proof.
  intros Hj. replace k with (j + (k - j))%nat at 1 by lia. rewrite answers_app, Forall_app. by intros [_ ?].
Qed.

Lemma over_inj (o o' : list output) s s' g g' : Ok (o, Over s g) = Ok (o', Over s' g') -> o' = o /\ s' = s /\ g' = g.
Proof. by intros [= -> -> ->]. Qed.

(** A turn of player 1 whose message agent 2 misses. *)
Lemma round_1_lost B c2 i l c : sweeping B c2 -> in_reach (i, l) -> counts c = true ->
  exists B', sweeping B' c2 /\ width B' = width B /\ a_sweep B' = a_sweep B /\
    feeds (agent2 rand) B (chr 0 ++ told_line c 1 i l ++ newline) [] B'.
Proof.
  intros HB Hr Hc. pose proof HB as [Hb1 Hb2 Hb3 Hb4].
  destruct (told_facts c 1 i l Hc ltac:(by left) Hr) as (_ & Hl & _).
  destruct (agent2_deaf rand B (told_line c 1 i l) Hb1 ltac:(congruence) Hl) as (B1 & Hf & Hsh).
  rewrite Hb3 in Hsh. destruct (sweeping_shape B B1 _ _ _ Hsh HB ltac:(congruence)) as (HsB & HwB & HswB).
  by exists B1.
Qed.

(** What comes to agent 2 before the first message of the game. *)
Definition lead_text (lead : bool) : string := if lead then chr 0 else "".

(** How a match ends: with the first guesses of both. *)
Definition played_out (all lead : bool) (g : game) (A B : agent) (c1 : game) (k1 k2 : nat) (out : list output) (st : Z) (g' : game) : Prop :=
  exists j1 j2 c2', (j1 <= k1)%nat /\ (j2 <= k2)%nat /\
    (forall f, (j1 < f)%nat -> hub_loop f g (texts j1 A) (texts j2 B) = Ok (out, Over st g')) /\
    run1 A (stream 1 out) = Ok (texts j1 A, Exited 0 c1) /\ run2 B (lead_text lead ++ stream 2 out) = Ok (texts j2 B, Exited 0 c2') /\ copies all g' c2'.

Lemma match_over all fuel g A B c1 c2 k1 k2 a1 a2 out st g' : (game_status g =? GAME_ON) = false -> sweeping A c1 -> sweeping B c2 -> copies all g c2 ->
  hub_loop fuel g a1 a2 = Ok (out, Over st g') -> played_out all false g A B c1 k1 k2 out st g'.
Proof.
  intros Hon HA HB Hcp.
  assert (Heq : forall f b1 b2, hub_loop f g b1 b2 = Ok (finish g, Over (game_status g) g))
    by (intros f b1 b2; destruct f; cbn [hub_loop]; by rewrite Hon).
  rewrite Heq. intros [= <- <- <-]. exists 0%nat, 0%nat, c2. split_and!; try done; [lia|lia|..].
  - by apply (plays_finish A c1); [apply _|left|].
  - by apply (plays_finish B c2); [apply _|right|].
Qed.

(** Both agents give the hub the answers with which it comes to its end. *)
Lemma match_ok all lead fuel n g A B c1 c2 k1 k2 out st g' : (lead = true -> all = false /\ game_status g = GAME_ON) -> game_ok n g -> (n <= 9)%nat -> sweeping A c1 -> sweeping B c2 ->
  grids_ok c2 -> copies all g c2 -> Forall in_reach (answers k1 (width A) (a_sweep A)) -> Forall in_reach (answers k2 (width B) (a_sweep B)) ->
  hub_loop fuel g (texts k1 A) (texts k2 B) = Ok (out, Over st g') -> played_out all lead g A B c1 k1 k2 out st g'.
Proof.
  revert lead g A B c2 k1 k2 out. induction fuel as [|fuel IH]; intros lead g A B c2 k1 k2 out Hlead [Hp Hc] Hn HA HB Hok Hcp HR1 HR2;
    (destruct (game_status g =? GAME_ON) eqn:Hon;
      [|destruct lead; [destruct (Hlead eq_refl) as [_ Heq]; by rewrite Heq in Hon|by apply match_over with (c2 := c2)]]); cbn [hub_loop]; rewrite Hon; [done|]; cbn [negb].
  assert (total (player g) <> 0 /\ total (cpu g) <> 0) as [Htp Htc]
    by (destruct (status_cases n g (conj Hp Hc)) as [[Heq _]|[(Heq & _)|(_ & ? & ?)]]; [by rewrite Heq in Hon..|done]).
  destruct (turn 1 g (texts k1 A)) as [[[[out1 g1] dn1] r1]|] eqn:Ht1; [|done]. cbn [mbind ub_bind].
  destruct dn1; cbn [negb]; [|done].
  destruct (turn_round n 1 g k1 (width A) (a_sweep A) out1 g1 r1 ltac:(by left) Hc Hn Htc HR1 Ht1)
    as (j & i & l & c & sd & Hj & Hr & Hcnt & -> & Hsd & -> & Hall1 & Hs1 & Hs2 & Hh & Hlost).
  destruct (round_1 A B c1 c2 j i l c HA HB Hok Hr Hcnt) as (A1 & B0 & HA1 & HwA & HsA & HB0 & HwB0 & HsB0 & Hf1 & Hf0).
  assert (exists B1 d1, sweeping B1 d1 /\ width B1 = width B /\ a_sweep B1 = a_sweep B /\ grids_ok d1 /\
    copies all (with_target 1 g sd) d1 /\ feeds (agent2 rand) B (lead_text lead ++ told_line c 1 i l ++ newline) [] B1)
    as (B1 & d1 & HB1 & HwB & HsB & Hok1 & Hcp1 & Hf2).
  { destruct lead.
    - destruct (Hlead eq_refl) as [-> _].
      destruct (round_1_lost B c2 i l c HB Hr Hcnt) as (B1 & ? & ? & ? & ?).
      exists B1, c2. split_and!; try done. destruct Hcp as [Hcpu Hpl]. split; [by apply Hlost|done].
    - exists B0, (told_game c 1 i l c2). split_and!; try done; [by apply told_game_ok|by apply copies_1]. }
  change (with_target 1 g sd) with (Game (player g) sd) in *. change (3 - 1) with 2 in Hs2.
  destruct (game_status (Game (player g) sd) =? GAME_ON) eqn:Hon1; cbn [negb].
  2:{ intros (-> & -> & ->)%over_inj. exists j, 0%nat, d1. split_and!; try done; try lia.
      - intros [|f] Hf; [lia|]. cbn [hub_loop]. rewrite Hon. cbn [negb]. rewrite <- (app_nil_r (texts j A)), Hall1.
        cbn [mbind ub_bind negb]. by rewrite Hon1.
      - rewrite stream_announce, stream_app, Hs1, <- (app_nil_r (texts j A)).
        eapply plays_feeds; [exact Hf1|]. by apply (plays_finish A1 c1); [apply _|left|].
      - rewrite stream_announce, stream_app, Hs2, <- string_app_assoc.
        change (texts 0 B) with ([] ++ [] : list string). eapply plays_feeds; [exact Hf2|].
        by apply (plays_finish B1); [apply _|right|]. }
  destruct (turn 2 (Game (player g) sd) (texts k2 B)) as [[[[out2 g2] d2] r2]|] eqn:Ht2; [|done]. cbn [mbind ub_bind].
  destruct d2; cbn [negb]; [|done]. rewrite <- HwB, <- HsB in HR2, Ht2.
  assert (Htp1 : total (target 2 (Game (player g) sd)) <> 0) by done.
  destruct (turn_round n 2 (Game (player g) sd) k2 _ _ out2 g2 r2 ltac:(by right) Hp Hn Htp1 HR2 Ht2)
    as (j2 & i2 & l2 & d & sd2 & Hj2 & Hr2 & Hcnt2 & -> & Hsd2 & -> & Hall2 & Hs3 & Hs4 & Hh2 & _).
  destruct (round_2 A1 B1 c1 _ j2 i2 l2 d HA1 HB1 Hok1 Hr2 Hcnt2) as (A2 & B2 & HA2 & HwA2 & HsA2 & HB2 & HwB2 & HsB2 & Hf3 & Hf4).
  pose proof (copies_2 _ _ _ d i2 l2 sd2 Hcp1 Hok1 Hh2) as Hcp2. destruct (told_game_ok d 2 i2 l2 _ Hok1) as [Hok2 _].
  change (with_target 2 (Game (player g) sd) sd2) with (Game sd2 sd) in *. change (3 - 2) with 1 in Hs4.
  assert (HanA : forall m, answers m (width A) (sweep_after j (width A) (a_sweep A)) = answers m (width A2) (a_sweep A2))
    by (intros m; by rewrite HwA2, HsA2, HwA, HsA).
  assert (HanB : forall m, answers m (width B1) (sweep_after j2 (width B1) (a_sweep B1)) = answers m (width B2) (a_sweep B2))
    by (intros m; by rewrite HwB2, HsB2).
  rewrite HanA, HanB. destruct (hub_loop fuel (Game sd2 sd) _ _) as [[o r]|] eqn:Hloop; [|done]. cbn [mbind ub_bind].
  intros Heq. destruct r as [st' h|]; [|done]. apply over_inj in Heq as (-> & -> & ->).
  assert (HR1' : Forall in_reach (answers (k1 - j) (width A2) (a_sweep A2))) by (rewrite <- HanA; apply reach_rest; [lia|done]).
  assert (HR2' : Forall in_reach (answers (k2 - j2) (width B2) (a_sweep B2))) by (rewrite <- HanB; apply reach_rest; [lia|done]).
  destruct (IH false (Game sd2 sd) A2 B2 _ _ _ o ltac:(done) (conj Hsd2 Hsd) Hn HA2 HB2 Hok2 Hcp2 HR1' HR2' Hloop)
    as (m1 & m2 & c3 & Hm1 & Hm2 & Hf & HrA & HrB & Hcp3).
  assert (HtA : texts (j + m1) A = texts j A ++ texts m1 A2) by (by rewrite answers_app, fmap_app, HanA).
  assert (HtB : texts (j2 + m2) B = texts j2 B1 ++ texts m2 B2) by (by rewrite <- HwB, <- HsB, answers_app, fmap_app, HanB).
  exists (j + m1)%nat, (j2 + m2)%nat, c3. rewrite HtA, HtB. split_and!; try done; try lia.
  - intros [|f] Hlt; [lia|]. cbn [hub_loop]. rewrite Hon. cbn [negb]. rewrite Hall1. cbn [mbind ub_bind negb].
    rewrite Hon1. cbn [negb]. rewrite Hall2. cbn [mbind ub_bind negb]. rewrite Hf by lia. done.
  - rewrite stream_announce, !stream_app, Hs1, Hs4. eapply plays_feeds; [exact Hf1|]. by apply (plays_feeds _ _ _ [] A2).
  - rewrite stream_announce, !stream_app, Hs2, Hs3, <- string_app_assoc. apply (plays_feeds _ _ _ [] B1); [exact Hf2|]. by eapply plays_feeds.
Qed.

End Match.

(** ** Matches that end *)

Lemma answer_good i l : in_reach (i, l) -> good_answer (guess_text (i, l)) = true /\ guess (guess_text (i, l)) = Some (i, l).
Proof.
  intros Hr. destruct (guess_taken i l Hr) as (Ha & Hm & Hx & Hy). unfold good_answer, guess.
  rewrite Ha. cbn [mbind ub_bind]. rewrite Hm, Hx, Hy. split; [done|]. do 2 f_equal; lia.
Qed.

(** Without marks in both. *)
Lemma hears_fresh gr copy : grid_ok gr -> grid_ok copy -> size_x copy = size_x gr -> size_y copy = size_y gr ->
  count gr 47 = 0 -> count copy 47 = 0 -> count copy 42 = 0 -> forall all, hears all gr copy.
Proof.
  intros Hg Hc Hx Hy H1 H2 H3 all. split; [done|]. split; [done|]. intros i j.
  assert (Hno : forall gr' v, grid_ok gr' -> count gr' v = 0 -> cell gr' i j <> Ok v)
    by (intros gr' v Hgr Hv Hcell; apply cell_count in Hcell; [lia|done]).
  split; [|split; [|intros _]]; intros Hcell; exfalso; by eapply Hno; [| |exact Hcell].
Qed.

(** The guesses of an agent on a grid of [w] by [h] cells. *)
Definition all_moves (w h : Z) : list (Z * Z) := agent_moves (8 + Z.to_nat w * Z.to_nat (h - 1)) 0 0 7 (0, 0) w.

Lemma all_moves_spec w h x y : 0 < w -> 1 <= h ->
  (x, y) ∈ all_moves w h <-> 0 <= y < h /\ 0 <= x < (if y =? 0 then 8 else w).
Proof.
  intros Hw Hh. unfold all_moves. pose proof (sweep_from 8 (Z.to_nat (h - 1)) (0, 0) w ltac:(lia) Hw) as Hm.
  change (Z.to_nat 8) with 8%nat in Hm. change (8 - 1) with 7 in Hm.
  rewrite Hm, elem_of_app, elem_sweep_row, elem_sweep_rows, Z2Nat.id by lia. destruct (Z.eqb_spec y 0); lia.
Qed.

Lemma all_moves_reach w h : 0 < w <= 8 -> 1 <= h <= 9 -> Forall in_reach (all_moves w h).
Proof.
  intros Hw Hh. apply Forall_forall. intros [x y] Hin. apply all_moves_spec in Hin; [|lia..].
  destruct (y =? 0); unfold in_reach; cbn [fst snd]; lia.
Qed.

Lemma all_moves_pending n sd w h : side_ok n sd -> 0 < w <= 8 -> 1 <= h <= 9 -> size_x (field sd) = w -> size_y (field sd) = h ->
  pending sd (guess_text <$> all_moves w h).
Proof.
  intros Hs Hw Hh Hx Hy i j c Hc. right. right. exists (guess_text (i, j)).
  assert (Hin : (i, j) ∈ all_moves w h).
  { destruct (cell_get n sd i j c Hs Hc) as [Hget H0]. apply all_moves_spec; [lia..|].
    unfold grid_get, position_resolve in Hget. rewrite !Z.add_simpl_r in Hget.
    destruct (check_inside_this (field sd) i j) eqn:Hins; cbn [negb] in Hget; [|by injection Hget as <-].
    apply check_inside_spec in Hins. rewrite Hx, Hy in Hins. destruct (j =? 0); lia. }
  split; [by apply list_elem_of_fmap; exists (i, j)|]. apply answer_good.
  pose proof (all_moves_reach w h Hw Hh) as Hr. rewrite Forall_forall in Hr. by apply Hr.
Qed.

Lemma all_moves_good w h : 0 < w <= 8 -> 1 <= h <= 9 -> forallb good_answer (guess_text <$> all_moves w h) = true.
Proof.
  intros Hw Hh. apply forallb_forall. intros b Hb. apply list_elem_of_In, list_elem_of_fmap in Hb as ([x y] & -> & Hin).
  apply answer_good. pose proof (all_moves_reach w h Hw Hh) as Hr. rewrite Forall_forall in Hr. by apply Hr.
Qed.

(** Both agents and the hub come to an end together, also when a terminator comes to agent
    2 before the first message, so that its copies may lack the first mark. *)
Lemma plays_to_end all lead rand n g w h gA gB : (lead = true -> all = false) -> game_ok n g -> (n <= 9)%nat -> total (player g) <> 0 -> total (cpu g) <> 0 ->
  1 <= w <= 8 -> 1 <= h <= 9 ->
  Forall (fun sd => size_x (field sd) = w /\ size_y (field sd) = h) [player g; cpu g] ->
  game_status gA = GAME_ON -> game_status gB = GAME_ON -> grids_ok gB -> copies all g gB ->
  exists w1 w2 out st g' gB', hub g w1 w2 = Ok (out, Over st g') /\ ended n (Over st g') /\
    plays (agent1 rand) (agent_start 1 h w gA) (stream 1 out) = Ok (w1, Exited 0 gA) /\
    plays (agent2 rand) (agent_start 1 h w gB) (lead_text lead ++ stream 2 out)%string = Ok (w2, Exited 0 gB') /\ copies all g' gB' /\
    (length w1 <= 8 + Z.to_nat w * Z.to_nat (h - 1))%nat.
Proof.
  intros Hlead [Hp Hc] Hn Htp Htc Hw Hh Hsize HonA HonB Hok Hcp.
  apply Forall_cons in Hsize as [[Hx1 Hy1] Hsize]. apply Forall_cons in Hsize as [[Hx2 Hy2] _].
  assert (game_status g = GAME_ON) as Hong.
  { unfold game_status. by rewrite !(proj2 (Z.eqb_neq _ _)). }
  set (as1 := guess_text <$> all_moves w h).
  destruct (hub_loop_ok (S (length as1)) n g as1 as1) as (out & r & Hhub & Hend & Hover); try done.
  1,2: by apply all_moves_good; lia. { lia. }
  destruct Hover as (st & g' & ->); [apply (all_moves_pending n (cpu g) w h); done || lia|apply (all_moves_pending n (player g) w h); done || lia|].
  unfold agent_start. rewrite HonA, HonB. change (GAME_ON =? GAME_ON) with true. cbv iota.
  set (A := Agent Top 1 w gA _ _ _ _ _). set (B := Agent Top 1 w gB _ _ _ _ _).
  destruct (match_ok rand all lead (S (length as1)) n g A B gA gB (8 + Z.to_nat w * Z.to_nat (h - 1)) (8 + Z.to_nat w * Z.to_nat (h - 1))
    out st g') as (j1 & j2 & c2' & Hj1 & Hj2 & Hf & HA & HB & Hcp'); try done; [by intros Hl; split; [apply Hlead|]|apply (all_moves_reach w h); lia..|].
  do 6 eexists. split_and!; [|exact Hend|exact HA|exact HB|exact Hcp'|].
  - unfold hub. apply Hf. rewrite length_fmap, answers_length. lia.
  - rewrite length_fmap, answers_length. done.
Qed.

(** Two agents that guess row by row and the hub come to an end together, on grids of at most 8
    by 9 cells with at most nine ships: what the hub writes makes the agents write exactly
    the answers with which the hub writes this, the hub ends with a winner, and both agents
    exit at its [DONE].  Agent 2's copies then have all misses, and no hits that are not; the
    game of agent 1 is as it was at the start, because it never sees a message about its
    own moves. *)
Theorem match_plays_out rand n g w h gA gB : game_ok n g -> (n <= 9)%nat -> total (player g) <> 0 -> total (cpu g) <> 0 ->
  1 <= w <= 8 -> 1 <= h <= 9 ->
  Forall (fun sd => size_x (field sd) = w /\ size_y (field sd) = h) [player g; cpu g] ->
  game_status gA = GAME_ON -> game_status gB = GAME_ON -> grids_ok gB -> copies true g gB ->
  exists w1 w2 out st g' gB', hub g w1 w2 = Ok (out, Over st g') /\ ended n (Over st g') /\
    plays (agent1 rand) (agent_start 1 h w gA) (stream 1 out) = Ok (w1, Exited 0 gA) /\
    plays (agent2 rand) (agent_start 1 h w gB) (stream 2 out) = Ok (w2, Exited 0 gB') /\ copies true g' gB' /\
    (length w1 <= 8 + Z.to_nat w * Z.to_nat (h - 1))%nat.
Proof. exact (plays_to_end true false rand n g w h gA gB ltac:(done)). Qed.

(** ** The fighter at a hit *)

(** The agent chases a hit at [r + 1], [c], and looks to the north of it. *)
Record chasing (a : agent) (c r : Z) : Prop := {
  ch_at : at_ a = Top \/ at_ a = Turn;
  ch_kind : kind a = 2;
  ch_hit : c1 a = HIT;
  ch_north : f_d_i (a_fighter a) = 0;
  ch_cell : f_move_c (a_fighter a) = c /\ f_move_r (a_fighter a) = r + 1;
}.

Lemma fighter_north r1 r2 f : f_d_i f = 0 -> 1 <= f_move_r f ->
  fighter_guess HIT r1 r2 f = Ok (f_move_c f, f_move_r f - 1, set_mode 1 f).
Proof.
  destruct f as [m r c d h w]. cbn [f_d_i f_move_r f_move_c]. intros -> Hr. unfold fighter_guess.
  lazy -[rem_int Z.leb Z.ltb direction_at Z.sub Z.le]. change (4 <=? 0) with false. cbv iota. rewrite direction_0.
  cbn -[Z.sub Z.ltb rem_int]. destruct (Z.ltb_spec (r - 1) 0); [lia|done].
Qed.

Lemma feeds_chase rand a c r : chasing a c r -> 0 <= r ->
  exists a', feeds (agent2 rand) a ("YT" ++ newline) [guess_text (c, r)] a' /\ chasing a' c r.
Proof.
  intros [Ha Hk H1 Hd [Hc Hr]] H0. destruct (cmd_heard "YT" ltac:(set_solver)) as (Hl & b & len & Hb & Hs).
  assert (Hg : guess_move rand (set_buff b a) = Ok (guess_text (c, r),
      Agent (at_ a) (kind a) (width a) (a_game a) b (c1 a) (set_mode 1 (a_fighter a)) (a_sweep a) (rnd a + 2))).
  { unfold guess_move. cbn [kind set_buff c1 rnd a_fighter a_sweep]. rewrite Hk, H1, fighter_north by lia. rewrite Hc, Hr, Z.add_simpl_r.
    cbn [mbind ub_bind Z.eqb Pos.eqb fst snd]. change (thing_copy (Some "GUESS")) with (Ok (A := thing) (Some "GUESS")).
    cbn [mbind ub_bind]. rewrite thing_add_ok by done. done. }
  eexists. split.
  - apply feeds_line; [done|]. rewrite (plain _ a b len "YT") by done. unfold yt_or_ok, buff_is. cbn [buff set_buff].
    rewrite Hs. cbn [mbind ub_bind String.eqb]. rewrite Hg. reflexivity.
  - split; cbn; try done. by right.
Qed.

(** A fighter that hears of a hit asks for the cell to the north of its last guess, and does
    not move on: if this cell was guessed before, the hub refuses it and asks again, the
    fighter answers the same, and so on for any number of questions. *)
Theorem fighter_livelock rand n g a c r : chasing a c r -> in_reach (c, r) -> side_ok n (player g) -> total (player g) <> 0 ->
  cell (field (player g)) c r = Ok 47 \/ cell (field (player g)) c r = Ok 42 -> forall k,
  (exists a', plays (agent2 rand) (Running a) (yt_lines k) = Ok (replicate k (guess_text (c, r)), Running a')) /\
  ask 2 game_play_cpu g (replicate k (guess_text (c, r))) = Ok (yts 2 (S k), g, None, []).
Proof.
  intros Hch Hr Hs Ht Hcell k. assert (H0 : 0 <= r) by apply Hr. split.
  - assert (exists a', feeds (agent2 rand) a (yt_lines k) (replicate k (guess_text (c, r))) a') as [a' Hf].
    { clear Hcell. revert a Hch. induction k as [|k IH]; intros a Hch; [exists a; apply feeds_nil|].
      destruct (feeds_chase rand a c r Hch H0) as (a1 & Hf1 & Hch1). destruct (IH a1 Hch1) as [a2 Hf2]. exists a2.
      by apply (feeds_trans _ a _ [_] a1). }
    exists a'. rewrite <- (string_app_nil_r (yt_lines k)), Hf. cbn. by rewrite app_nil_r.
  - destruct (guess_taken c r Hr) as (Ha & Hm & Hx & Hy).
    assert (Hp : game_play_cpu g (Some (move_text c r)) = Ok (REPEAT, g)).
    { assert (exists e, cell (field (player g)) c r = Ok e /\ (e = 47 \/ e = 42)) as (e & He & He') by naive_solver.
      unfold game_play_cpu, play_on. rewrite (proj2 (Z.eqb_neq _ _) Ht). unfold game_play_. rewrite Hm. cbn [mbind ub_bind negb deref].
      rewrite Hx, Hy. cbn [mbind ub_bind]. rewrite (proj1 (cell_get n _ _ _ _ Hs He)). cbn [mbind ub_bind].
      destruct g. by destruct He' as [-> | ->]. }
    induction k as [|k IH]; [done|]. cbn [replicate ask]. rewrite Ha. cbn [mbind ub_bind]. rewrite Hp. cbn [mbind ub_bind].
    change (REPEAT <? 0) with true. cbv iota. by rewrite IH.
Qed.

(** *** Witnesses *)

Definition copy_1 : game := Game (player sample_game) (Side 2 sample_grid []).
Definition copy_2 : game := Game (cpu sample_game) (Side 2 sample_grid []).

Lemma copy_2_ok : grids_ok copy_2 /\ forall all, copies all sample_game copy_2.
Proof.
  destruct sample_sides as [Hp Hc]. split; [split; [apply (so_grid _ _ Hc)|apply sample_grid_ok]|].
  intros all. split; (apply hears_fresh; [apply (so_grid _ _ Hp) || apply (so_grid _ _ Hc)|apply (so_grid _ _ Hc) || apply sample_grid_ok|by vm_compute..]).
Qed.

Lemma match_plays_out_witness : exists w1 w2 out st g' gB', hub sample_game w1 w2 = Ok (out, Over st g') /\ ended 2 (Over st g') /\
  plays (agent1 (fun _ => 0)) (agent_start 1 8 8 copy_1) (stream 1 out) = Ok (w1, Exited 0 copy_1) /\
  plays (agent2 (fun _ => 0)) (agent_start 1 8 8 copy_2) (stream 2 out) = Ok (w2, Exited 0 gB') /\ copies true g' gB' /\
  (length w1 <= 64)%nat.
Proof.
  refine (match_plays_out (fun _ => 0) 2 sample_game 8 8 copy_1 copy_2 sample_sides ltac:(lia) ltac:(done) ltac:(done)
    ltac:(lia) ltac:(lia) _ eq_refl eq_refl (proj1 copy_2_ok) (proj2 copy_2_ok true)).
  apply Forall_cons. split; [by vm_compute|]. apply Forall_cons. split; [by vm_compute|constructor].
Defined.

(** A fighter that guessed C4, heard that player 1 hit, guessed C3, and hears it again. *)
Definition chase_lines : list string :=
  (fun s => (s ++ newline)%string) <$> ["MISS 1,A1"; ""; "YT"; "OK"; "MISS 2,C4"; ""; "HIT 1,B1"; ""; "YT"; "OK"; "HIT 2,C3"; ""; "HIT 1,C1"; ""]%string.

(** [rand] gives 3 for the row and 2 for the column. *)
Definition chase_rand (k : nat) : Z := if Nat.even k then 3 else 2.

Definition chase_run : ub (list string * status) := Eval vm_compute in
  match agent_start 2 8 8 copy_2 with Running a => agent_run (agent2 chase_rand) chase_lines a | Exited c g => Ok ([], Exited c g) end.
Definition chase_agent : agent := Eval vm_compute in
  match chase_run with Ok (_, Running a) => a | _ => Agent Top 2 8 copy_2 [] 0 (fighter_init 8 8) (Sweep 0 0 7 (0, 0)) 0 end.

Definition chase_moves : ub (list Z * side) := Eval vm_compute in
  play_all WIN_CPU (player sample_game) (Some <$> ["C4"; "C3"]%string).
Definition chase_game : game := Game (match chase_moves with Ok (_, sd) => sd | UB _ => player sample_game end) (cpu sample_game).

Lemma chase_game_ok : side_ok 2 (player chase_game) /\ total (player chase_game) <> 0.
Proof.
  split; [|by vm_compute].
  destruct (play_all_steps 2 WIN_CPU (player sample_game) (Some <$> ["C4"; "C3"]%string) [MISS; HIT] (player chase_game)
    (proj1 sample_sides) ltac:(by left)) as (Hs & _); [by vm_compute|exact Hs].
Qed.

Lemma fighter_livelock_witness : match agent_start 2 8 8 copy_2 with
    | Running a => agent_run (agent2 chase_rand) chase_lines a
    | Exited c g => Ok ([], Exited c g) end = Ok (guess_text <$> [(2, 3); (2, 2)], Running chase_agent) /\ forall k,
  (exists a', plays (agent2 chase_rand) (Running chase_agent) (yt_lines k) = Ok (replicate k (guess_text (2, 2)), Running a')) /\
  ask 2 game_play_cpu chase_game (replicate k (guess_text (2, 2))) = Ok (yts 2 (S k), chase_game, None, []).
Proof.
  split; [vm_compute; reflexivity|].
  refine (fighter_livelock chase_rand 2 chase_game chase_agent 2 2 _ ltac:(by split) (proj1 chase_game_ok) (proj2 chase_game_ok) _).
  - split; [left; reflexivity|reflexivity..|split; reflexivity].
  - right. vm_compute. reflexivity.
Defined.
