(* ===== verification/GSetup.v ===== *)
(** * The start of a match ([read.c], and [main] of [2310hub.c], [2310A.c] and [2310B.c]
      of [src/5.Game-Management])

    The hub reads the rules and the names of the agents' files, sends the rules, gets the
    maps and makes the game; each agent reads its map, gets the rules, makes its own game
    and sends the map.  Files are their contents, [None] when they cannot be opened; each
    queue has a heap of its own. *)

From stdpp Require Import list_numbers.
From S2P Require Import Prelude CText GThing GList GGrid GGame GHub GAgent GPlayers GMatch.

#[local] Open Scope string_scope.
#[local] Open Scope list_scope.
#[local] Open Scope Z_scope.

(** ** Reading a file *)

Definition MAX_LINE_SIZE : nat := 4096.
Definition LF : ascii := Ascii.ascii_of_nat 10.
Definition HASH : ascii := Ascii.ascii_of_nat 35.
Definition COMMA : ascii := Ascii.ascii_of_nat 44.
Definition COLON : ascii := Ascii.ascii_of_nat 58.

(** [%4096[^\n]]: at most [n] characters in front of a newline, and the rest. *)
Fixpoint scan_line (n : nat) (s : string) : string * string :=
  match n, s with
  | S n', String c s' =>
      if Ascii.eqb c LF then ("", s) else let '(l, r) := scan_line n' s' in (String c l, r)
  | _, _ => ("", s)
  end.

(** The loop of [simple_read] over the rest [inp] of the file, with the string in [s]; a
    turn without a match leaves both. *)
Fixpoint simple_read_loop (fuel : nat) (inp s : string) (h : heap) (q : queue) : ub (heap * queue) :=
  match inp with
  | EmptyString => Ok (h, q)
  | _ =>
      match fuel with
      | O => UB no_fuel
      | S fuel' =>
          let '(l, rest) := scan_line MAX_LINE_SIZE inp in
          if Nat.eqb (String.length l) MAX_LINE_SIZE then UB out_of_bounds else
          let '(inp, s) := if String.eqb l "" then (inp, s) else (skip_white rest, c_str l) in
          if match s with String c _ => Ascii.eqb c HASH | EmptyString => false end
          then simple_read_loop fuel' inp s h q
          else '(h, q) ← queue_enqueue h q (Some s); simple_read_loop fuel' inp s h q
      end
  end.

Definition simple_read (f : option string) : ub (heap * queue) :=
  content ← deref f;
  simple_read_loop (S (String.length content)) content "" empty_heap queue_init.

(** ** Messages as data

    What lies behind the end of a block of the heap is [slack]: nothing, or bytes that can
    be read. *)
Definition block (slack : list ascii) (t : string) : list ascii := bytes t ++ NUL :: slack.

Definition read_string_rules (b : list ascii) : ub (heap * queue) :=
  '(h, q, _) ← queue_to_queue empty_heap (drop 6 b) COMMA; Ok (h, q).

Definition read_string_map (b : list ascii) : ub (heap * queue) :=
  let b := drop 4 b in
  s ← mem_string b;
  '(h, q, _) ← queue_to_queue empty_heap (bytes (thing_replace s COMMA space) ++ drop (String.length s) b) COLON;
  Ok (h, q).

(** ** The hub *)

(** [sscanf(s, "%d %d %d\n", ...)], the number of conversions. *)
Definition sscanf_3 (s : string) : ub Z :=
  if String.eqb (skip_white s) "" then Ok (-1) else
  r ← scan_d s;
  match r with
  | None => Ok 0
  | Some (_, s) =>
      r ← scan_d s;
      match r with
      | None => Ok 1
      | Some (_, s) => r ← scan_d s; Ok (match r with None => 2 | Some _ => 3 end)
      end
  end.

(** The names in the first line of the configuration. *)
Record launch := Launch { l_prog1 : thing; l_map1 : thing; l_prog2 : thing; l_map2 : thing }.

Definition hub_config (slack : list ascii) (config : option string) : ub launch :=
  q ← simple_read config;
  '(t, h, _) ← queue_dequeue q.1 q.2;
  t ← deref t;
  '(h, sep, _) ← queue_to_queue h (block slack t) COMMA;
  '(prog1, h, sep) ← queue_dequeue h sep;
  '(map1, h, sep) ← queue_dequeue h sep;
  '(prog2, h, sep) ← queue_dequeue h sep;
  '(map2, h, sep) ← queue_dequeue h sep;
  Ok (Launch prog1 map1 prog2 map2).

(** The rules as they are sent, or the status of [main]. *)
Definition hub_rules (rules : option string) : ub (Z + string) :=
  q ← simple_read rules;
  '(t, _, _) ← queue_to_string q.1 q.2 COMMA;
  rules_s ← deref t;
  check ← sscanf_3 rules_s;
  if negb (check =? 2) then Ok (inl GAME_DATA_QUEUE_ERROR) else
  t ← thing_copy (Some "RULES ");
  t ← thing_add t (Some (thing_replace rules_s space COMMA)) space;
  s ← deref t; Ok (inr s).

(** What is written before the maps come: the newline for agent 2 with its terminator. *)
Definition hub_sends (rules_s : string) : list output :=
  [To 1 rules_s; To 1 newline; To 2 rules_s; To 2 newline_2].

(** [char map1_s[50]] after [fgets]; [None] at the end of the stream. *)
Definition map_array (line : option string) : list ascii :=
  match line with Some l => read_into l (replicate BUFF NUL) | None => replicate BUFF NUL end.

(** The game, or the status of [handle_exit]. *)
Definition hub_game (slack : list ascii) (rules_s : string) (map1 map2 : option string) : ub (Z + option game) :=
  d0 ← read_string_rules (block slack rules_s);
  d1 ← read_string_map (map_array map1);
  d2 ← read_string_map (map_array map2);
  '(check_set, g, _) ← game_set (Data d0 (Some d1) (Some d2));
  Ok (if negb (check_set =? 0) then inl (if check_set =? -13 then 50 else check_set) else inr g).

(** ** The agents *)

(** [sscanf(rules_s, "RULES %d,%d", &height, &width)]: what is assigned. *)
Definition scan_rules (s : string) : ub (option Z * option Z) :=
  if String.prefix "RULES" s then
    r ← scan_d (skip_white (String.substring 5 (String.length s - 5) s));
    match r with
    | None => Ok (None, None)
    | Some (height, String c s) =>
        if Ascii.eqb c COMMA then
          r ← scan_d s; Ok (Some height, match r with None => None | Some (width, _) => Some width end)
        else Ok (Some height, None)
    | Some (height, EmptyString) => Ok (Some height, None)
    end
  else Ok (None, None).

Definition assigned (x : option Z) : ub Z := match x with Some z => Ok z | None => UB uninitialized end.

(** [main] of [2310A.c] ([kind] 1) and [2310B.c] ([kind] 2): the status of the process, or
    what it writes and the agent that it becomes.  [rules_s] has 50 bytes of [junk]
    before the line comes. *)
Definition agent_main (slack junk : list ascii) (kind : Z) (map : option string) (line : option string) :
    ub (Z + list string * status) :=
  q ← simple_read map;
  '(t, _, _) ← queue_to_string q.1 q.2 COLON;
  map_s ← deref t;
  t ← thing_copy (Some "MAP");
  t ← thing_add t (Some (thing_replace map_s space COMMA)) space;
  map_s ← deref t;
  mmap ← thing_copy (Some map_s);
  mmap ← deref mmap;
  line ← (match line with Some l => Ok l | None => UB uninitialized end);
  let rules_a := read_into line junk in
  rules_s ← mem_string rules_a;
  '(height, width) ← scan_rules rules_s;
  d0 ← read_string_rules rules_a;
  d1 ← read_string_map (block slack map_s);
  '(check_set, g, _) ← game_set (Data d0 (Some d1) None);
  if negb (check_set =? 0) then Ok (inl 3) else
  g ← deref g; height ← assigned height; width ← assigned width;
  Ok (inr ([mmap; newline], agent_start kind height width g)).

(** ** The three processes

    The hub with the agents that it starts: what [hub_sends] writes to each is a stream,
    of which the agent takes a line for the rules, and the hub takes a line of what the
    agent writes for its map; an agent that exits writes nothing. *)

Definition line_from (s : string) : option string := fst <$> fgets (BUFF - 1) s.
Definition rest_of (s : string) : string := match fgets (BUFF - 1) s with Some (_, r) => r | None => s end.

Definition map_line (r : Z + list string * status) : option string :=
  match r with inl _ => None | inr (out, _) => line_from (String.concat "" out) end.
Definition agent_of (r : Z + list string * status) : option status :=
  match r with inl _ => None | inr (_, st) => Some st end.

(** ** Arguments and errors ([check.c], [handle.h])

    [argv] ends with the null pointer. *)
Definition SUCCESS : Z := 0.
Definition PARAMETER_ERR : Z := 10.
Definition UNKNOWN_ERR : Z := 150.
Definition ARGUMENT_COUNT_HUB : Z := 2.
Definition ARGUMENT_COUNT_AGENT : Z := 4.
Definition FILE_COUNT (x : Z) : Z := x - 1.

Definition what_error_file (i : Z) : Z :=
  if i =? 0 then 20 else if i =? 1 then 30 else if i =? 2 then 31 else if i =? 3 then 40 else UNKNOWN_ERR.

(** What is written to [stderr]; the process exits with [e]. *)
Definition handle_exit (e : Z) : string :=
  let show :=
    if e =? PARAMETER_ERR then "Usage: naval rules playermap cpumap turns"
    else if e =? 20 then "Missing rules file"
    else if e =? 30 then "Missing player map file"
    else if e =? 31 then "Missing CPU map file"
    else if e =? 40 then "Missing CPU turns file"
    else if e =? GAME_RULES_PROCESS_ERROR then "Error in rules file"
    else if e =? OVERLAP_PLAYER_MAP_ERR then "Overlap in player map file"
    else if e =? OVERLAP_CPU_MAP_ERR then "Overlap in CPU map file"
    else if e =? OUT_BOUND_PLAYER_MAP_ERR then "Out of bounds in player map file"
    else if e =? OUT_BOUND_CPU_MAP_ERR then "Out of bounds in CPU map file"
    else if e =? PROCESS_PLAYER_MAP_ERR then "Error in player map file"
    else if e =? PROCESS_CPU_MAP_ERR then "Error in CPU map file"
    else if e =? 120 then "Error in turns file"
    else if e =? 130 then "Bad guess"
    else if e =? 140 then "CPU player gives up"
    else "Unknown" in
  (show ++ newline)%string.

Definition okay_args (count check : Z) : Z := if check <=? count then SUCCESS else PARAMETER_ERR.

Section Access.
(** [access(filename, R_OK)] gives 0. *)
Context (access : string -> bool).

Definition okay_file (filename : thing) : bool := match filename with Some f => access f | None => false end.

Fixpoint okay_files_loop (n : nat) (i : Z) (files : list thing) : ub Z :=
  match n with
  | O => Ok SUCCESS
  | S n' =>
      match files with
      | [] => UB out_of_bounds
      | f :: files => if okay_file f then okay_files_loop n' (i + 1) files else Ok (what_error_file i)
      end
  end.

Definition okay_files (argv : list thing) (count : Z) : ub Z :=
  okay_files_loop (Z.to_nat (FILE_COUNT count)) 0 (drop 1 argv).

Definition argc (argv : list thing) : Z := Z.of_nat (length argv) - 1.

(** The start of [main] of the hub: 0, or the status with which it exits. *)
Definition hub_check (argv : list thing) : ub Z :=
  let ok_check := okay_args (argc argv) ARGUMENT_COUNT_HUB in
  if negb (ok_check =? SUCCESS) then Ok ok_check else okay_files argv ARGUMENT_COUNT_HUB.
(** And of the agents, which count no files. *)
Definition agent_check (argv : list thing) : ub Z :=
  let ok_check := okay_args (argc argv) ARGUMENT_COUNT_AGENT in
  if negb (ok_check =? SUCCESS) then Ok ok_check else okay_files (drop 1 argv) 1.

(** The hub looks at the file of the rules only: the configuration may be missing. *)
Lemma hub_check_rules prog rules more : hub_check (Some prog :: Some rules :: more ++ [None]) =
  Ok (if access rules then SUCCESS else what_error_file 0).
Proof.
  unfold hub_check, okay_args, argc, ARGUMENT_COUNT_HUB. cbn [length]. rewrite length_app.
  rewrite (proj2 (Z.leb_le _ _)) by (cbn [length]; lia). change (negb (SUCCESS =? SUCCESS)) with false. cbv iota. unfold okay_files. change (Z.to_nat (FILE_COUNT 2)) with 1%nat. change (drop 1 (?a :: ?l)) with l. cbn [okay_files_loop okay_file]. by destruct (access rules).
Qed.

(** The files that are looked at are there, up to the one whose error is given. *)
Lemma okay_files_ok names more : okay_files (None :: (Some <$> names) ++ more) (Z.of_nat (length names) + 1) =
  Ok (match filter (fun x => negb (access x.2)) (zip (seqZ 0 (Z.of_nat (length names))) names) with
      | [] => SUCCESS | x :: _ => what_error_file x.1 end).
Proof.
  unfold okay_files, FILE_COUNT. rewrite Z.add_simpl_r, Nat2Z.id. change (drop 1 (?a :: ?l)) with l. generalize 0 as i.
  induction names as [|f names IH]; intros i; [done|]. cbn [length].
  rewrite Nat2Z.inj_succ, seqZ_cons by lia. rewrite Z.pred_succ. rewrite fmap_cons. cbn [zip zip_with app].
  cbn [okay_files_loop okay_file]. destruct (access f) eqn:E.
  - rewrite filter_cons_False; [apply IH|]. cbn. rewrite E. by intros [].
  - rewrite filter_cons_True; [done|]. cbn. by rewrite E.
Qed.
End Access.

(** ** The start of a match

    What the processes see of the system: the text of a file that can be read, and the program that a
    name runs, 1 for [2310A] and 2 for [2310B]. *)
Record system := System { file_text : string -> option string; program : string -> option Z }.

(** The child of the hub that becomes agent [id]: the null pointer of a name that is missing ends its
    arguments.  [None] when the name runs nothing: the child then goes on as a second hub, which is
    left out. *)
Definition agent_run (slack junk : list ascii) (sys : system) (id : string) (prog map : thing) (line : option string) :
    ub (option (Z + list string * status)) :=
  match prog ≫= program sys with
  | None => Ok None
  | Some kind =>
      check ← agent_check (fun f => bool_decide (is_Some (file_text sys f)))
        (prog :: Some id :: match map with Some m => [Some m; Some "1"; None] | None => [None] end);
      if nz check then Ok (Some (inl check)) else
      map ← deref map;
      r ← agent_main slack junk kind (file_text sys map) line;
      Ok (Some r)
  end.

(** The names that are run, the game of the hub or its status, and of each agent
    what it has become and what is left in its stream. *)
Record start := Start {
  st_launch : launch; st_hub : Z + option game;
  st_agent1 : option status; st_rest1 : string; st_agent2 : option status; st_rest2 : string }.

(** The status of the hub when it refuses the rules; a name that runs nothing; a start. *)
Inductive beginning := Refused (status : Z) | NotRun | Begun (s : start).

(** [main] of the hub up to its loop, with the agents that it starts. *)
Definition start_match (slack junk : list ascii) (sys : system) (rules config : option string) : ub beginning :=
  r ← hub_rules rules;
  match r with
  | inl e => Ok (Refused e)
  | inr rules_s =>
      l ← hub_config slack config;
      let s1 := stream 1 (hub_sends rules_s) in
      let s2 := stream 2 (hub_sends rules_s) in
      r1 ← agent_run slack junk sys "1" (l_prog1 l) (l_map1 l) (line_from s1);
      r2 ← agent_run slack junk sys "2" (l_prog2 l) (l_map2 l) (line_from s2);
      match r1, r2 with
      | Some r1, Some r2 =>
          g ← hub_game slack rules_s (map_line r1) (map_line r2);
          Ok (Begun (Start l g (agent_of r1) (rest_of s1) (agent_of r2) (rest_of s2)))
      | _, _ => Ok NotRun
      end
  end.

(** ** The game depends on what the queues hold only *)

(** The abstract queue. *)
#[export] Instance list_queue : QueueI (list string) := {
  qi_dequeue xs := match xs with [] => Ok (None, []) | x :: xs => Ok (Some x, xs) end;
  qi_size xs := Z.of_nat (length xs);
}.

(** Texts of the rules, and of a map, that the game cannot tell apart. *)
Definition same_number (y x : string) : Prop := sscanf_d y = sscanf_d x.
Definition same_ship (y x : string) : Prop :=
  sscanf_cdc y = sscanf_cdc x /\ (6 <? thing_size y) = (6 <? thing_size x).

Section Sim.
Context {Q : Type} `{QueueLaws Q}.

Definition holds_like (R : string -> string -> Prop) (q : Q) (xs : list string) : Prop :=
  exists ys, qi_holds q ys /\ Forall2 R ys xs.

Lemma dequeue_like R q xs : holds_like R q xs ->
  match xs with
  | [] => qi_dequeue q = Ok (None, q)
  | x :: xs => exists y q', qi_dequeue q = Ok (Some y, q') /\ R y x /\ holds_like R q' xs
  end.
Proof.
  intros (ys & Hq & HR). destruct HR as [|y x ys xs Hyx HR]; [by apply qi_empty|].
  destruct (qi_take q y ys Hq) as (q' & Hd & Hq'). exists y, q'. split; [done|]. split; [done|]. by exists ys.
Qed.

Lemma size_like R q xs : holds_like R q xs -> qi_size q = Z.of_nat (length xs).
Proof. intros (ys & Hq & HR). rewrite (qi_count q ys Hq). by rewrite (Forall2_length _ _ _ HR). Qed.

Lemma init_loop_like n q xs sizes area : holds_like same_number q xs ->
  match init_loop n xs sizes area with
  | Ok (e, s, a, xs') => exists q', init_loop n q sizes area = Ok (e, s, a, q') /\ holds_like same_number q' xs'
  | UB f => init_loop n q sizes area = UB f
  end.
Proof.
  revert q xs sizes area. induction n as [|n IH]; intros q xs sizes area Hq; cbn [init_loop]; [by exists q|].
  pose proof (dequeue_like _ _ _ Hq) as Hd. destruct xs as [|x xs]; cbn [qi_dequeue list_queue].
  { rewrite Hd. done. }
  destruct Hd as (y & q' & -> & Hyx & Hq'). cbn [mbind ub_bind deref]. rewrite Hyx.
  destruct (sscanf_d x) as [[check m]|]; cbn [mbind ub_bind]; [|done].
  case_if; [by exists q'|]. destruct (add_int area m); cbn [mbind ub_bind]; [|done]. by apply IH.
Qed.

Lemma game_init_like x y s q xs : holds_like same_number q xs ->
  match game_init x y s xs with
  | Ok (e, og, xs') => exists q', game_init x y s q = Ok (e, og, q') /\ holds_like same_number q' xs'
  | UB f => game_init x y s q = UB f
  end.
Proof.
  intros Hq. unfold game_init. destruct (grid_init x y); [|by exists q].
  pose proof (init_loop_like (Z.to_nat s) q xs [] 0 Hq) as Hi.
  destruct (init_loop _ xs _ _) as [[[[e sz] ar] xs']|]; [|by rewrite Hi].
  destruct Hi as (q' & -> & Hq'). cbn [mbind ub_bind]. repeat case_if; by exists q'.
Qed.

Lemma draw_loop_like sizes s g q xs : holds_like same_ship q xs ->
  match draw_loop sizes s g xs with
  | Ok (r, g', xs') => exists q', draw_loop sizes s g q = Ok (r, g', q') /\ holds_like same_ship q' xs'
  | UB f => draw_loop sizes s g q = UB f
  end.
Proof.
  revert s g q xs. induction sizes as [|m sizes IH]; intros s g q xs Hq; cbn [draw_loop]; [by exists q|].
  pose proof (dequeue_like _ _ _ Hq) as Hd. destruct xs as [|x xs]; cbn [qi_dequeue list_queue].
  { rewrite Hd. by exists q. }
  destruct Hd as (y & q' & -> & [Hyx Hsz] & Hq'). cbn [mbind ub_bind]. rewrite Hyx, Hsz.
  destruct (sscanf_cdc x) as [[check [[a b] d]]|]; cbn [mbind ub_bind]; [|done].
  case_if; [by exists q'|]. destruct (grid_draw g _ _ _ _ _) as [[r g']|]; cbn [mbind ub_bind]; [|done].
  case_if; [by exists q'|]. by apply IH.
Qed.

Definition like_map (q : option Q) (xs : option (list string)) : Prop :=
  match q, xs with None, None => True | Some q, Some xs => holds_like same_ship q xs | _, _ => False end.

Lemma game_draw_like sd q xs : like_map q xs ->
  match game_draw sd xs with
  | Ok (r, sd', _) => exists q', game_draw sd q = Ok (r, sd', q')
  | UB f => game_draw sd q = UB f
  end.
Proof.
  unfold game_draw. destruct q as [q|], xs as [xs|]; try done; intros Hq; [|by exists None].
  pose proof (draw_loop_like (ships sd) 0 (field sd) q xs Hq) as Hd.
  destruct (draw_loop _ _ _ xs) as [[[r g] xs']|]; [|by rewrite Hd].
  destruct Hd as (q' & -> & _). by exists (Some q').
Qed.

Lemma set_tail_like d dl x y s q xs : holds_like same_number q xs ->
  like_map (d_player_map d) (d_player_map dl) -> like_map (d_cpu_map d) (d_cpu_map dl) ->
  match set_tail dl x y s xs with
  | Ok (e, og, _) => exists d', set_tail d x y s q = Ok (e, og, d')
  | UB f => set_tail d x y s q = UB f
  end.
Proof.
  intros Hq Hp Hc. unfold set_tail. pose proof (game_init_like x y s q xs Hq) as Hi.
  destruct (game_init _ _ _ xs) as [[[e og] xs']|]; [|by rewrite Hi].
  destruct Hi as (q' & -> & _). cbn [mbind ub_bind]. destruct og as [g|]; [|by eexists].
  case_if; [by eexists|].
  pose proof (game_draw_like (player g) _ _ Hp) as H1. pose proof (game_draw_like (cpu g) _ _ Hc) as H2.
  destruct (game_draw (player g) (d_player_map dl)) as [[[c p] qp]|]; cbn [mbind ub_bind]; [|by rewrite H1].
  destruct H1 as [qp' ->]. cbn [mbind ub_bind].
  destruct (game_draw (cpu g) (d_cpu_map dl)) as [[[cc cp] qc]|]; cbn [mbind ub_bind]; [|by rewrite H2].
  destruct H2 as [qc' ->]. cbn [mbind ub_bind]. repeat case_if; by eexists.
Qed.

Lemma game_set_like d dl : holds_like same_number (d_game d) (d_game dl) ->
  like_map (d_player_map d) (d_player_map dl) -> like_map (d_cpu_map d) (d_cpu_map dl) ->
  match game_set dl with
  | Ok (e, og, _) => exists d', game_set d = Ok (e, og, d')
  | UB f => game_set d = UB f
  end.
Proof.
  intros Hg Hp Hc. unfold game_set.
  pose proof (dequeue_like _ _ _ Hg) as Hd. destruct (d_game dl) as [|x1 xs1]; cbn [qi_dequeue list_queue]; [by rewrite Hd|].
  destruct Hd as (y1 & q1 & -> & E1 & Hq1). cbn [mbind ub_bind deref]. rewrite E1.
  destruct (sscanf_d x1) as [[c1 max_x]|]; cbn [mbind ub_bind]; [|done].
  pose proof (dequeue_like _ _ _ Hq1) as Hd. destruct xs1 as [|x2 xs2]; cbn [qi_dequeue list_queue]; [by rewrite Hd|].
  destruct Hd as (y2 & q2 & -> & E2 & Hq2). cbn [mbind ub_bind deref]. rewrite E2.
  destruct (sscanf_d x2) as [[c2 max_y]|]; cbn [mbind ub_bind]; [|done]. case_if; [by eexists|].
  pose proof (dequeue_like _ _ _ Hq2) as Hd. destruct xs2 as [|x3 xs3]; cbn [qi_dequeue list_queue]; [by rewrite Hd|].
  destruct Hd as (y3 & q3 & -> & E3 & Hq3). cbn [mbind ub_bind deref]. rewrite E3.
  destruct (sscanf_d x3) as [[c3 n]|]; cbn [mbind ub_bind]; [|done].
  rewrite (size_like _ _ _ Hq3). change (qi_size xs3) with (Z.of_nat (length xs3)).
  destruct (_ || (15 <? n)); cbn [mbind ub_bind].
  - change (negb (-1 =? 1)) with true. by eexists.
  - destruct (negb (c3 =? 1)); [by eexists|]. exact (set_tail_like d dl max_x max_y n q3 xs3 Hq3 Hp Hc).
Qed.
End Sim.

(** ** The games of the agents are halves of the hub's *)

Lemma draw_size m : forall g x y e d r g', draw g x y e m d = Ok (r, g') -> same_size g g'.
Proof.
  induction m as [|m IH]; intros g x y e d r g'; cbn [draw]; [by intros [= _ <-]|].
  destruct (negb _); [by intros [= _ <-]|].
  destruct (cell g x y) as [c|]; cbn [mbind ub_bind]; [|done].
  destruct (negb _); [by intros [= _ <-]|].
  destruct (draw g _ _ e m d) as [[r1 g1]|] eqn:Hd; cbn [mbind ub_bind]; [|done]. apply IH in Hd.
  destruct (r1 =? 0); [|by intros [= _ <-]].
  unfold cell_set. destruct (cell g1 x y); cbn [mbind ub_bind]; [|done]. by intros [= _ <-].
Qed.

Lemma same_size_trans g1 g2 g3 : same_size g1 g2 -> same_size g2 g3 -> same_size g1 g3.
Proof. unfold same_size. intros [-> ->] [-> ->]. done. Qed.

Section Halves.
Context {Q : Type} `{QueueI Q}.

Lemma draw_loop_size sizes s g q r g' q' : draw_loop sizes s g q = Ok (r, g', q') -> same_size g g'.
Proof.
  revert s g q. induction sizes as [|m sizes IH]; intros s g q; cbn [draw_loop]; [by intros [= _ <- _]|].
  destruct (qi_dequeue q) as [[[str|] q1]|]; cbn [mbind ub_bind]; [|by intros [= _ <- _]|done].
  destruct (sscanf_cdc str) as [[check [[x y] d]]|]; cbn [mbind ub_bind]; [|done].
  destruct (negb _); [by intros [= _ <- _]|].
  destruct (grid_draw g _ y _ m d) as [[r1 g1]|] eqn:Hd; cbn [mbind ub_bind]; [|done].
  assert (same_size g g1) as Hs.
  { unfold grid_draw in Hd. destruct (negb _); [by injection Hd as _ <-|]. by eapply draw_size. }
  destruct (negb _); [by intros [= _ <- _]|]. intros Hl. eapply same_size_trans; [done|by eapply IH].
Qed.

(** The side of a player, drawn with the map of the agent, whichever side the hub draws it
    on. *)
Lemma game_set_halves (q : Q) m1 m2 g d' : game_set (Data q (Some m1) (Some m2)) = Ok (0, Some g, d') ->
  exists fresh, grid_ok (field fresh) /\ same_size (field (player g)) (field fresh) /\
    same_size (field (cpu g)) (field fresh) /\ count (field fresh) 47 = 0 /\ count (field fresh) 42 = 0 /\ 0 < total fresh /\
    (exists d1, game_set (Data q (Some m1) None) = Ok (0, Some (Game (player g) fresh), d1)) /\
    (exists d2, game_set (Data q (Some m2) None) = Ok (0, Some (Game (cpu g) fresh), d2)).
Proof.
  intros Hset.
  assert (exists x y s q3, 1 <= s <= 15 /\ forall p c, game_set (Data q p c) = set_tail (Data q p c) x y s q3)
    as (x & y & s & q3 & Hs & Heq).
  { unfold game_set in Hset |- *. cbn [d_game d_player_map d_cpu_map] in *.
    destruct (qi_dequeue q) as [[t1 q1]|]; cbn [mbind ub_bind] in *; [|done].
    destruct (deref t1) as [s1|]; cbn [mbind ub_bind] in *; [|done].
    destruct (sscanf_d s1) as [[c1 x]|]; cbn [mbind ub_bind] in *; [|done].
    destruct (qi_dequeue q1) as [[t2 q2]|]; cbn [mbind ub_bind] in *; [|done].
    destruct (deref t2) as [s2|]; cbn [mbind ub_bind] in *; [|done].
    destruct (sscanf_d s2) as [[c2 y]|]; cbn [mbind ub_bind] in *; [|done].
    destruct (negb _); [done|].
    destruct (qi_dequeue q2) as [[t3 q3]|]; cbn [mbind ub_bind] in *; [|done].
    destruct (deref t3) as [s3|]; cbn [mbind ub_bind] in *; [|done].
    destruct (sscanf_d s3) as [[c3 n]|]; cbn [mbind ub_bind] in *; [|done].
    destruct (negb (u64 n =? qi_size q3) || (n <? 1) || (15 <? n)) eqn:E; [done|].
    destruct (negb (c3 =? 1)); [done|]. cbool. exists x, y, n, q3. split; [lia|]. done. }
  rewrite Heq in Hset. rewrite !Heq. unfold set_tail in *. cbn [d_game d_player_map d_cpu_map] in *.
  destruct (game_init x y s q3) as [[[e og1] q4]|] eqn:Hi; cbn [mbind ub_bind] in *; [|done].
  assert (Hi' := Hi). apply game_init_ok in Hi; [|lia]. destruct og1 as [g0|]; [|done].
  destruct (Z.eqb_spec e 0) as [->|He]; cbn [negb] in *; [|by injection Hset as ? _ _].
  destruct (Hi eq_refl) as (sizes & gr & -> & Hc & Hl & Hp). cbn [player cpu] in *.
  set (f0 := Side s gr sizes) in *.
  destruct (game_draw f0 (Some m1)) as [[[c p] qp]|] eqn:Hdp; cbn [mbind ub_bind] in *; [|done].
  destruct (game_draw f0 (Some m2)) as [[[cc cp] qc]|] eqn:Hdc; cbn [mbind ub_bind] in *; [|done].
  destruct (c =? 0) eqn:Ec; cbn [negb] in *; [|revert Hset; by repeat case_if].
  destruct (cc =? 0) eqn:Ecc; cbn [negb] in *; [|revert Hset; by repeat case_if].
  injection Hset as <- _. cbn [player cpu].
  assert (forall m c p q, game_draw f0 (Some m) = Ok (c, p, q) -> same_size (field p) (field f0)) as Hsz.
  { intros m c' p' q' Hd. unfold game_draw in Hd.
    destruct (draw_loop _ _ _ m) as [[[r g'] qq]|] eqn:Hdl; cbn [mbind ub_bind] in Hd; [|done].
    injection Hd as _ <- _. apply draw_loop_size in Hdl as [Hx Hy]. by split. }
  exists f0. split; [apply Hc|]. split; [by eapply Hsz|]. split; [by eapply Hsz|].
  destruct Hc as [_ _ Hr]. split; [by apply Hr; [|intros k Hk; simpl in Hk; lia]|].
  split; [by apply Hr; [|intros k Hk; simpl in Hk; lia]|]. split; [simpl; lia|].
  split; by eexists.
Qed.
End Halves.

(** ** What [simple_read] reads *)

Fixpoint unlines (ls : list string) : string :=
  match ls with [] => "" | l :: ls => (l ++ String LF (unlines ls))%string end.

Definition is_comment (l : string) : bool :=
  match l with String c _ => Ascii.eqb c HASH | EmptyString => false end.
(** The lines that are no comments, as the queue has them. *)
Definition data_lines (ls : list string) : list string :=
  clean <$> List.filter (fun l => negb (is_comment l)) ls.

Fixpoint no_lf (s : string) : bool :=
  match s with EmptyString => true | String c s => negb (Ascii.eqb c LF) && no_lf s end.
(** A line that does not start with white space, fits, and if it is no comment can be
    stored. *)
Definition line_ok (l : string) : bool :=
  match l with String c _ => negb (is_white c) | EmptyString => false end &&
  no_lf l && no_nul l && (Nat.ltb (String.length l) MAX_LINE_SIZE) && (is_comment l || storable l).

Lemma scan_line_app n l rest : no_lf l = true -> (String.length l < n)%nat ->
  scan_line n (l ++ String LF rest) = (l, String LF rest).
Proof.
  revert l. induction n as [|n IH]; intros l Hl Hn; [lia|]. destruct l as [|c l]; [done|].
  cbn in Hl, Hn. apply andb_true_iff in Hl as [Hc Hl]. apply negb_true_iff in Hc.
  change (String c l ++ String LF rest)%string with (String c (l ++ String LF rest)).
  cbn [scan_line]. rewrite Hc, IH by (done || lia). done.
Qed.

Lemma skip_unlines ls : forallb line_ok ls = true -> skip_white (String LF (unlines ls)) = unlines ls.
Proof.
  destruct ls as [|[|c l] ls]; [done|done|]. cbn [forallb]. unfold line_ok at 1.
  rewrite !andb_true_iff, negb_true_iff. intros [[[[[Hc _] _] _] _] _]. change (is_white LF) with true.
  change (unlines (String c l :: ls)) with (String c (l ++ String LF (unlines ls))).
  cbn [skip_white]. change (is_white LF) with true. cbv iota. by rewrite Hc.
Qed.

Lemma c_str_id s : no_nul s = true -> c_str s = s.
Proof.
  induction s as [|c s IH]; [done|]. cbn. rewrite andb_true_iff, negb_true_iff. intros [-> Hs]. by rewrite IH.
Qed.

Lemma simple_read_loop_ok h0 ls fuel s h q xs : holds h0 h (q_l q) xs -> forallb line_ok ls = true ->
  (String.length (unlines ls) < fuel)%nat -> Z.of_nat (length xs + length ls) < 2 ^ 64 ->
  exists h' q', simple_read_loop fuel (unlines ls) s h q = Ok (h', q') /\ holds h0 h' (q_l q') (xs ++ data_lines ls).
Proof.
  revert fuel s h q xs. induction ls as [|l ls IH]; intros fuel s h q xs Hh Hls Hf Hlen.
  { exists h, q. destruct fuel; [simpl in Hf; lia|]. split; [done|]. by rewrite app_nil_r. }
  cbn [forallb] in Hls. apply andb_true_iff in Hls as [Hl Hls]. pose proof (skip_unlines ls Hls) as Hskip.
  assert (Hl' := Hl). unfold line_ok in Hl'. rewrite !andb_true_iff in Hl'. destruct Hl' as [[[[Hw Hlf] Hn] Hsz] Hst].
  apply Nat.ltb_lt in Hsz. destruct fuel as [|fuel]; [lia|].
  destruct l as [|c l]; [done|]. cbn [unlines] in *.
  rewrite string_length_app in Hf. cbn [String.length length] in Hf, Hlen.
  change (simple_read_loop (S fuel) (String c l ++ String LF (unlines ls)) s h q) with
    (let '(l', rest) := scan_line MAX_LINE_SIZE (String c l ++ String LF (unlines ls)) in
     if Nat.eqb (String.length l') MAX_LINE_SIZE then UB out_of_bounds else
     let '(inp, s) := if String.eqb l' "" then ((String c l ++ String LF (unlines ls))%string, s) else (skip_white rest, c_str l') in
     if match s with String c _ => Ascii.eqb c HASH | EmptyString => false end
     then simple_read_loop fuel inp s h q
     else '(h, q) ← queue_enqueue h q (Some s); simple_read_loop fuel inp s h q).
  rewrite scan_line_app by done. rewrite (proj2 (Nat.eqb_neq _ _)) by lia.
  rewrite Hskip, (c_str_id _ Hn). cbv zeta iota. change (String.eqb (String c l) "") with false. cbv iota.
  unfold data_lines. cbn [List.filter].
  destruct (is_comment (String c l)) eqn:Ec; cbn [negb orb] in *; cbn [is_comment] in Ec; rewrite Ec.
  - apply IH; try done; lia.
  - destruct (enqueue_all_holds h0 h q xs [String c l] Hh) as (h1 & q1 & He & Hh1);
      [cbn [forallb]; by rewrite Hst|simpl; lia|].
    cbn [enqueue_all] in He. destruct (queue_enqueue h q (Some (String c l))) as [[h2 q2]|]; [|done].
    cbn [mbind ub_bind] in *. injection He as -> ->.
    destruct (IH fuel (String c l) h1 q1 _ Hh1 Hls) as (h' & q' & -> & Hh'); [lia|rewrite length_app; simpl; lia|].
    exists h', q'. split; [done|]. rewrite <- app_assoc in Hh'. exact Hh'.
Qed.

Lemma simple_read_ok ls : forallb line_ok ls = true -> Z.of_nat (length ls) < 2 ^ 64 ->
  exists h q, simple_read (Some (unlines ls)) = Ok (h, q) /\ holds empty_heap h (q_l q) (data_lines ls).
Proof.
  intros Hls Hlen. apply (simple_read_loop_ok empty_heap ls _ "" empty_heap queue_init []); [|done|lia|done].
  apply holds_start, empty_heap_ok.
Qed.

(** ** Texts of rules and maps *)

Lemma queue_to_string_ok h0 h q d x xs : d <> NUL -> holds h0 h (q_l q) (x :: xs) ->
  Z.of_nat (length (x :: xs)) < 2 ^ 64 ->
  exists h' q', queue_to_string h q d = Ok (Some (join d (x :: xs)), h', q').
Proof.
  intros Hd Hh Hlen. unfold queue_to_string. rewrite (queue_size_holds _ _ _ _ Hh Hlen).
  rewrite (proj2 (Z.ltb_ge _ _)) by lia.
  destruct (dequeue_holds _ _ _ _ _ Hh Hlen) as (h1 & q1 & -> & Hh1). cbn [mbind ub_bind].
  assert (Hlen1 : Z.of_nat (length xs) < 2 ^ 64) by (simpl in Hlen; lia).
  rewrite (queue_size_holds _ _ _ _ Hh1 Hlen1).
  destruct (to_string_loop_ok h0 d xs h1 q1 x (Z.to_nat (Z.of_nat (length xs))) Hd Hh1 Hlen1) as (h' & q' & -> & _);
    [lia|]. by exists h', q'.
Qed.

(** Joining with a text behind the last element. *)
Fixpoint add_last (xs : list string) (s : string) : list string :=
  match xs with [] => [] | [x] => [(x ++ s)%string] | x :: xs => x :: add_last xs s end.

Lemma join_last d xs s : xs <> [] -> (join d xs ++ s)%string = join d (add_last xs s).
Proof.
  intros Hxs. induction xs as [|x xs IH]; [done|]. destruct xs as [|y xs]; [done|].
  change (join d (x :: y :: xs)) with (x ++ String d (join d (y :: xs)))%string.
  change (add_last (x :: y :: xs) s) with (x :: add_last (y :: xs) s).
  assert (exists z zs, add_last (y :: xs) s = z :: zs) as (z & zs & Hz) by (destruct xs; by do 2 eexists).
  rewrite string_app_assoc. change (String d (join d (y :: xs)) ++ s)%string with (String d (join d (y :: xs) ++ s)).
  rewrite IH, Hz by done. done.
Qed.

Lemma add_last_Forall (P : string -> Prop) xs s : Forall P xs -> (forall x, x ∈ xs -> P (x ++ s)%string) -> Forall P (add_last xs s).
Proof.
  intros Hx Hs. induction xs as [|x xs IH]; [done|]. apply Forall_cons in Hx as [Hx Hxs].
  destruct xs as [|y xs]; [constructor; [apply Hs; left|done]|].
  change (add_last (x :: y :: xs) s) with (x :: add_last (y :: xs) s). constructor; [done|].
  apply IH; [done|]. intros z Hz. apply Hs. by right.
Qed.

Lemma add_last_like (R : string -> string -> Prop) xs s : (forall x, x ∈ xs -> R x x) -> (forall x, x ∈ xs -> R (x ++ s)%string x) ->
  Forall2 R (add_last xs s) xs.
Proof.
  intros Hr Hs. induction xs as [|x xs IH]; [constructor|].
  destruct xs as [|y xs]; [constructor; [apply Hs; left|constructor]|].
  change (add_last (x :: y :: xs) s) with (x :: add_last (y :: xs) s). constructor; [apply Hr; left|].
  apply IH; intros z Hz; [apply Hr|apply Hs]; by right.
Qed.

(** *** Replacing *)

Lemma replace_app a b c d : thing_replace (a ++ b) c d = (thing_replace a c d ++ thing_replace b c d)%string.
Proof.
  induction a as [|x a IH]; [done|].
  change (String x a ++ b)%string with (String x (a ++ b)). cbn [thing_replace]. by rewrite IH.
Qed.

Lemma replace_none a c d : (forall x, x ∈ bytes a -> x <> c) -> thing_replace a c d = a.
Proof.
  induction a as [|x a IH]; [done|]. cbn [thing_replace bytes String.list_ascii_of_string]. intros Ha.
  rewrite (proj2 (Ascii.eqb_neq _ _)) by (apply Ha; left). f_equal. apply IH. intros y Hy. apply Ha. by right.
Qed.

Lemma replace_join e xs c d : c <> e -> thing_replace (join e xs) c d = join e ((fun x => thing_replace x c d) <$> xs).
Proof.
  intros Hne. induction xs as [|x xs IH]; [done|]. destruct xs as [|y xs]; [done|].
  change (join e (x :: y :: xs)) with (x ++ String e (join e (y :: xs)))%string.
  rewrite replace_app. cbn [thing_replace]. rewrite (proj2 (Ascii.eqb_neq e c)) by done. rewrite IH.
  by rewrite !fmap_cons.
Qed.

(** *** Numbers *)

(** A number as it is written in the rules: at most nine digits. *)
Fixpoint all_digits (s : string) : bool :=
  match s with EmptyString => true | String c s => isdigit c && all_digits s end.
Definition number (s : string) : bool := negb (String.eqb s "") && all_digits s && (Nat.leb (String.length s) 9).
Definition num (s : string) : Z := fst (scan_digits s 0).

Definition no_digit (s : string) : bool := match s with String c _ => negb (isdigit c) | EmptyString => true end.

Lemma scan_digits_app s r acc : all_digits s = true -> no_digit r = true ->
  scan_digits (s ++ r) acc = (fst (scan_digits s acc), r).
Proof.
  intros Hs Hr. revert acc. induction s as [|c s IH]; intros acc.
  - change ("" ++ r)%string with r. destruct r as [|c r]; [done|]. cbn in Hr |- *. by destruct (isdigit c).
  - cbn in Hs. apply andb_true_iff in Hs as [Hc Hs].
    change (String c s ++ r)%string with (String c (s ++ r)). cbn [scan_digits]. rewrite Hc. by apply IH.
Qed.

Lemma digit_facts c : isdigit c = true ->
  is_white c = false /\ code c <> 45 /\ code c <> 43 /\ c <> space /\ c <> COMMA /\ c <> COLON /\ c <> NUL /\ c <> LF /\ c <> HASH.
Proof. destruct c as [[] [] [] [] [] [] [] []]; intros Hc; vm_compute in Hc; try discriminate Hc; by split_and!. Qed.

Lemma scan_digits_bounds s acc : all_digits s = true -> 0 <= acc ->
  0 <= fst (scan_digits s acc) < (acc + 1) * 10 ^ Z.of_nat (String.length s).
Proof.
  revert acc. induction s as [|c s IH]; intros acc Hs Ha; [simpl; lia|]. cbn in Hs. apply andb_true_iff in Hs as [Hc Hs].
  cbn [scan_digits String.length]. rewrite Hc. assert (0 <= code c - 48 <= 9) as Hd.
  { unfold isdigit in Hc. cbool. lia. }
  specialize (IH (acc * 10 + (code c - 48)) Hs ltac:(lia)).
  replace (Z.of_nat (S (String.length s))) with (Z.of_nat (String.length s) + 1) by lia.
  rewrite Z.pow_add_r by lia. set (p := 10 ^ Z.of_nat (String.length s)) in *. nia.
Qed.

(** [%d] reads a number up to the first character that is no digit. *)
Lemma scan_d_number s r : number s = true -> no_digit r = true -> scan_d (s ++ r) = Ok (Some (num s, r)).
Proof.
  unfold number. rewrite !andb_true_iff, negb_true_iff. intros [[Hne Hs] Hl] Hr. apply Nat.leb_le in Hl.
  pose proof (scan_digits_bounds s 0 Hs ltac:(lia)) as Hb.
  assert (10 ^ Z.of_nat (String.length s) <= 10 ^ 9) as Hp by (apply Z.pow_le_mono_r; lia).
  pose proof (scan_digits_app s r 0 Hs Hr) as Hd. unfold scan_d, num. destruct s as [|c s]; [done|].
  cbn in Hs. apply andb_true_iff in Hs as [Hc _]. destruct (digit_facts c Hc) as (Hw & H45 & H43 & _).
  change (String c s ++ r)%string with (String c (s ++ r)) in *. cbn [skip_white]. rewrite Hw. cbn [scan_sign].
  rewrite (proj2 (Z.eqb_neq _ _) H45), (proj2 (Z.eqb_neq _ _) H43), Hc, Hd. cbv iota zeta.
  rewrite Z.mul_1_l. rewrite (proj2 (Z.leb_le _ _)), (proj2 (Z.ltb_lt _ _)) by lia. done.
Qed.

Lemma number_start s r : number s = true -> skip_white (s ++ r) = (s ++ r)%string /\ (s ++ r)%string <> "".
Proof.
  unfold number. rewrite !andb_true_iff, negb_true_iff. intros [[Hne Hs] _]. destruct s as [|c s]; [done|].
  cbn in Hs. apply andb_true_iff in Hs as [Hc _]. destruct (digit_facts c Hc) as (Hw & _).
  change (String c s ++ r)%string with (String c (s ++ r)). cbn [skip_white]. by rewrite Hw.
Qed.

Lemma number_same s r : number s = true -> no_digit r = true -> same_number (s ++ r) s.
Proof.
  intros Hs Hr. unfold same_number, sscanf_d. destruct (number_start s r Hs) as [-> Hn].
  destruct (number_start s "" Hs) as [Hw Hn0]. rewrite string_app_nil_r in Hw, Hn0. rewrite Hw.
  rewrite (proj2 (String.eqb_neq _ _) Hn), (proj2 (String.eqb_neq _ _) Hn0), (scan_d_number s r Hs Hr).
  pose proof (scan_d_number s "" Hs eq_refl) as H0. rewrite string_app_nil_r in H0. by rewrite H0.
Qed.

Lemma bytes_digits s c : all_digits s = true -> c ∈ bytes s -> isdigit c = true.
Proof.
  induction s as [|d s IH]; [by intros _ ?%not_elem_of_nil|]. cbn. rewrite andb_true_iff.
  intros [Hd Hs] [->|Hin]%elem_of_cons; [done|by apply IH].
Qed.

Lemma plain_facts s : (forall c, c ∈ bytes s -> c <> space /\ c <> NUL) ->
  forall sp, tidy sp s = true /\ trim_end s = s /\ no_nul s = true.
Proof.
  induction s as [|c s IH]; intros Hs sp; [done|].
  destruct (Hs c) as [Hsp Hn]; [left|]. assert (is_space c = false) as Hc by by apply Ascii.eqb_neq.
  destruct (IH ltac:(intros d Hd; apply Hs; by right) false) as (H1 & H2 & H3).
  cbn [tidy trim_end no_nul]. rewrite Hc, H1, H3, (proj2 (Ascii.eqb_neq _ _) Hn). cbn [andb negb].
  split; [done|]. split; [|done]. destruct s as [|d s]; [done|]. f_equal. exact H2.
Qed.

(** Texts without spaces are clean. *)
Lemma clean_plain s : s <> "" -> (forall c, c ∈ bytes s -> c <> space /\ c <> NUL) -> is_clean s = true.
Proof.
  intros Hne Hs. unfold is_clean. rewrite (proj2 (String.eqb_neq _ _) Hne). cbn [negb andb].
  destruct (plain_facts s Hs true) as (-> & -> & ->). by rewrite String.eqb_refl.
Qed.

Definition LF_text : string := String LF "".

Lemma number_clean x : number x = true ->
  (is_clean x = true /\ forall e, e ∈ bytes x -> e <> COMMA) /\
  (is_clean (x ++ LF_text)%string = true /\ forall e, e ∈ bytes (x ++ LF_text) -> e <> COMMA).
Proof.
  unfold number. rewrite !andb_true_iff, negb_true_iff. intros [[Hne Hs] _]. apply String.eqb_neq in Hne.
  assert (forall c, c ∈ bytes x -> c <> space /\ c <> NUL /\ c <> COMMA) as Hc.
  { intros c Hc. pose proof (bytes_digits x c Hs Hc) as Hd. by destruct (digit_facts c Hd) as (_ & _ & _ & ? & ? & _ & ? & _). }
  assert (forall c, c ∈ bytes (x ++ LF_text) -> c <> space /\ c <> NUL /\ c <> COMMA) as Hc'.
  { intros c. rewrite bytes_app. intros [Hin|Hin]%elem_of_app; [by apply Hc|].
    apply elem_of_cons in Hin as [->|Hin]; [done|by apply not_elem_of_nil in Hin]. }
  split; (split; [apply clean_plain; [|naive_solver]|naive_solver]); [done|].
  destruct x; [done|]. change (String a x ++ LF_text)%string with (String a (x ++ LF_text)). done.
Qed.

(** *** The rules of the hub *)

Definition rules_text (toks : list string) : string := ("RULES" ++ String space (join COMMA toks))%string.

Lemma join_cons2 d x y xs : join d (x :: y :: xs) = (x ++ String d (join d (y :: xs)))%string.
Proof. done. Qed.

Lemma hub_rules_ok rl a b rest : forallb line_ok rl = true -> Z.of_nat (length rl) < 2 ^ 64 ->
  data_lines rl = (a ++ String space b)%string :: rest -> rest <> [] ->
  Forall (fun t => number t = true) (a :: b :: rest) ->
  hub_rules (Some (unlines rl)) = Ok (inr (rules_text (a :: b :: rest))).
Proof.
  intros Hrl Hlen Hd Hne Hnum. apply Forall_cons in Hnum as [Ha Hnum]. apply Forall_cons in Hnum as [Hb Hrest].
  destruct rest as [|c rest]; [done|]. clear Hne.
  destruct (simple_read_ok rl Hrl Hlen) as (h & q & Hr & Hq). rewrite Hd in Hq.
  assert (Z.of_nat (length ((a ++ String space b)%string :: c :: rest)) < 2 ^ 64) as Hl2.
  { rewrite <- Hd. unfold data_lines. rewrite length_fmap. pose proof (List.filter_length_le (fun l => negb (is_comment l)) rl). lia. }
  destruct (queue_to_string_ok _ h q COMMA _ _ ltac:(done) Hq Hl2) as (h' & q' & Hs).
  unfold hub_rules. rewrite Hr. cbn [mbind ub_bind fst snd]. rewrite Hs. cbn [mbind ub_bind deref].
  rewrite join_cons2. set (tl := String COMMA (join COMMA (c :: rest))).
  assert (((a ++ String space b) ++ tl)%string = (a ++ String space (b ++ tl))%string) as Hassoc by (by rewrite string_app_assoc).
  assert (sscanf_3 ((a ++ String space b) ++ tl) = Ok 2) as ->.
  { rewrite Hassoc. unfold sscanf_3. destruct (number_start a (String space (b ++ tl)) Ha) as [-> Hn].
    rewrite (proj2 (String.eqb_neq _ _) Hn), scan_d_number by done. cbn [mbind ub_bind].
    change (scan_d (String space (b ++ tl))) with (scan_d (b ++ tl)). rewrite scan_d_number by done. done. }
  cbn [mbind ub_bind]. change (negb (2 =? 2)) with false. cbv iota.
  change (thing_copy (Some "RULES ")) with (@Ok thing (Some "RULES")). cbn [mbind ub_bind].
  assert (forall x, number x = true -> thing_replace x space COMMA = x) as Hsame.
  { intros x Hx. apply replace_none. intros d Hin. unfold number in Hx. rewrite !andb_true_iff in Hx.
    destruct Hx as [[_ Hx] _]. pose proof (bytes_digits x d Hx Hin) as Hd'. by destruct (digit_facts d Hd') as (_ & _ & _ & ? & _). }
  assert (thing_replace ((a ++ String space b) ++ tl) space COMMA = join COMMA (a :: b :: c :: rest)) as ->.
  { unfold tl. rewrite !replace_app. cbn [thing_replace]. rewrite !Hsame, replace_join by done.
    change (if Ascii.eqb space space then COMMA else space) with COMMA.
    change (if Ascii.eqb COMMA space then COMMA else COMMA) with COMMA.
    assert (((fun x => thing_replace x space COMMA) <$> c :: rest) = c :: rest) as ->.
    { rewrite <- (list_fmap_id (c :: rest)) at 2. apply list_fmap_ext. intros i x Hx.
      apply Hsame. rewrite Forall_forall in Hrest. apply Hrest. by eapply list_elem_of_lookup_2. }
    by rewrite !join_cons2, string_app_assoc. }
  by rewrite thing_add_ok.
Qed.

(** *** The rules as data *)

Definition queue_holds (hq : heap * queue) (xs : list string) : Prop := qi_holds hq xs.

Lemma read_fields d c tl xs : d <> NUL -> xs <> [] -> Z.of_nat (length xs) < 2 ^ 64 ->
  Forall (fun x => is_clean x = true /\ forall e, e ∈ bytes x -> e <> d) xs ->
  exists h q b, queue_to_queue empty_heap (bytes (join d xs) ++ NUL :: c :: tl) d = Ok (h, q, b) /\ queue_holds (h, q) xs.
Proof.
  intros Hd Hne Hlen Hxs. destruct (to_queue_holds empty_heap d c tl xs empty_heap_ok Hd Hne Hxs Hlen) as [(h & q & b & Hq & Hh) _].
  exists h, q, b. split; [done|]. split; [by exists empty_heap|done].
Qed.

Lemma toks_clean toks : Forall (fun t => number t = true) toks ->
  Forall (fun x => is_clean x = true /\ forall e, e ∈ bytes x -> e <> COMMA) toks /\
  Forall (fun x => is_clean x = true /\ forall e, e ∈ bytes x -> e <> COMMA) (add_last toks LF_text).
Proof.
  intros Ht. rewrite Forall_forall in Ht. split.
  - apply Forall_forall. intros x Hx. by apply number_clean, Ht.
  - apply add_last_Forall; [apply Forall_forall|]; intros x Hx; by apply number_clean, Ht.
Qed.

Lemma add_last_length xs s : length (add_last xs s) = length xs.
Proof.
  induction xs as [|x [|y xs] IH]; [done|done|].
  change (add_last (x :: y :: xs) s) with (x :: add_last (y :: xs) s). cbn [length]. by rewrite IH.
Qed.

Lemma add_last_nil xs s : xs <> [] -> add_last xs s <> [].
Proof. by destruct xs as [|x [|y xs]]. Qed.

Lemma read_rules_block c tl toks : Forall (fun t => number t = true) toks -> toks <> [] -> Z.of_nat (length toks) < 2 ^ 64 ->
  exists hq, read_string_rules (block (c :: tl) (rules_text toks)) = Ok hq /\ queue_holds hq toks.
Proof.
  intros Ht Hne Hlen. destruct (toks_clean toks Ht) as [Hc _].
  destruct (read_fields COMMA c tl toks ltac:(done) Hne Hlen Hc) as (h & q & b & Hq & Hh).
  exists (h, q). split; [|done]. unfold read_string_rules, block, rules_text.
  change (drop 6 (bytes ("RULES" ++ String space (join COMMA toks)) ++ NUL :: c :: tl))
    with (bytes (join COMMA toks) ++ NUL :: c :: tl). by rewrite Hq.
Qed.

Lemma array_rest l junk : length junk = BUFF -> (String.length l <= 48)%nat ->
  exists c tl, read_into l junk = bytes l ++ NUL :: c :: tl.
Proof.
  intros Hj Hl. unfold read_into. destruct (drop (String.length l + 1) junk) as [|c tl] eqn:E; [|by exists c, tl].
  apply (f_equal length) in E. rewrite length_drop, Hj in E. unfold BUFF in E. simpl in E. lia.
Qed.

Lemma read_rules_array toks junk : length junk = BUFF -> Forall (fun t => number t = true) toks -> toks <> [] ->
  Z.of_nat (length toks) < 2 ^ 64 -> (String.length (rules_text toks ++ LF_text) <= 48)%nat ->
  exists hq, read_string_rules (read_into (rules_text toks ++ LF_text) junk) = Ok hq /\ queue_holds hq (add_last toks LF_text).
Proof.
  intros Hj Ht Hne Hlen Hl. destruct (toks_clean toks Ht) as [_ Hc].
  destruct (array_rest _ _ Hj Hl) as (c & tl & ->).
  destruct (read_fields COMMA c tl (add_last toks LF_text)) as (h & q & b & Hq & Hh);
    [done|by apply add_last_nil|by rewrite add_last_length|done|].
  exists (h, q). split; [|done]. unfold read_string_rules, rules_text.
  change ((("RULES" ++ String space (join COMMA toks)) ++ LF_text)%string) with ("RULES" ++ String space (join COMMA toks ++ LF_text))%string.
  rewrite join_last by done.
  change (drop 6 (bytes ("RULES" ++ String space (join COMMA (add_last toks LF_text))) ++ NUL :: c :: tl))
    with (bytes (join COMMA (add_last toks LF_text)) ++ NUL :: c :: tl). by rewrite Hq.
Qed.

Lemma substring_drop a b : String.substring (String.length a) (String.length (a ++ b) - String.length a) (a ++ b) = b.
Proof.
  induction a as [|c a IH].
  - change ("" ++ b)%string with b. rewrite Nat.sub_0_r. apply substring_all. lia.
  - exact IH.
Qed.

Lemma scan_rules_ok a b c rest tl : Forall (fun t => number t = true) (a :: b :: c :: rest) ->
  scan_rules (rules_text (a :: b :: c :: rest) ++ tl) = Ok (Some (num a), Some (num b)).
Proof.
  intros Hn. apply Forall_cons in Hn as [Ha Hn]. apply Forall_cons in Hn as [Hb _].
  unfold rules_text. set (j := join COMMA (a :: b :: c :: rest)).
  assert (exists r, (j ++ tl)%string = (a ++ String COMMA (b ++ String COMMA r))%string) as [r Hr].
  { unfold j. rewrite !join_cons2. exists (join COMMA (c :: rest) ++ tl)%string.
    rewrite string_app_assoc. f_equal.
    change (String COMMA ((b ++ String COMMA (join COMMA (c :: rest))) ++ tl) = String COMMA (b ++ String COMMA (join COMMA (c :: rest) ++ tl))).
    f_equal. by rewrite string_app_assoc. }
  assert ((("RULES" ++ String space j) ++ tl)%string = ("RULES" ++ String space (j ++ tl))%string) as ->
    by reflexivity.
  rewrite Hr. unfold scan_rules. change (String.prefix "RULES" ("RULES" ++ String space (a ++ String COMMA (b ++ String COMMA r)))) with
    (String.prefix "" (String space (a ++ String COMMA (b ++ String COMMA r)))).
  cbn [String.prefix]. set (s := ("RULES" ++ String space _)%string).
  assert (String.substring 5 (String.length s - 5) s = String space (a ++ String COMMA (b ++ String COMMA r))) as ->
    by exact (substring_drop "RULES" _).
  change (skip_white (String space (a ++ String COMMA (b ++ String COMMA r)))) with (skip_white (a ++ String COMMA (b ++ String COMMA r))).
  destruct (number_start a (String COMMA (b ++ String COMMA r)) Ha) as [-> _].
  rewrite scan_d_number by done. cbn [mbind ub_bind]. change (Ascii.eqb COMMA COMMA) with true. cbv iota.
  by rewrite scan_d_number.
Qed.

(** *** Maps *)

(** A ship in a map: its column, its row of one digit and its direction. *)
Record ship := Ship { sh_column : ascii; sh_row : ascii; sh_direction : ascii }.
Definition ship_text (s : ship) : string :=
  String (sh_column s) (String (sh_row s) (String space (String (sh_direction s) ""))).

Definition ship_char (c : ascii) : bool :=
  negb (is_white c) && negb (Ascii.eqb c COMMA) && negb (Ascii.eqb c COLON) && negb (Ascii.eqb c NUL).
Definition ship_ok (s : ship) : bool :=
  ship_char (sh_column s) && isdigit (sh_row s) && ship_char (sh_direction s).

Definition map_text (ss : list ship) : string :=
  ("MAP" ++ String space (thing_replace (join COLON (ship_text <$> ss)) space COMMA))%string.

Lemma ship_char_facts c : ship_char c = true -> is_white c = false /\ is_space c = false /\ c <> COMMA /\ c <> COLON /\ c <> NUL /\ c <> LF.
Proof. destruct c as [[] [] [] [] [] [] [] []]; intros Hc; vm_compute in Hc; try discriminate Hc; by split_and!. Qed.

Lemma digit_ship_char c : isdigit c = true -> ship_char c = true.
Proof. destruct c as [[] [] [] [] [] [] [] []]; intros Hc; vm_compute in Hc; by try discriminate Hc. Qed.

Lemma ship_bytes s x : ship_ok s = true -> x ∈ bytes (ship_text s ++ LF_text) -> x <> COMMA /\ x <> COLON /\ x <> NUL.
Proof.
  unfold ship_ok. rewrite !andb_true_iff. intros [[Hl Hd] Ho]. apply digit_ship_char in Hd.
  apply ship_char_facts in Hl as (_ & _ & ? & ? & ? & _), Hd as (_ & _ & ? & ? & ? & _), Ho as (_ & _ & ? & ? & ? & _).
  intros Hx. cbn in Hx. repeat (apply elem_of_cons in Hx as [->|Hx]; [done|]). by apply not_elem_of_nil in Hx.
Qed.

Lemma ship_clean s : ship_ok s = true -> is_clean (ship_text s) = true /\ is_clean (ship_text s ++ LF_text) = true.
Proof.
  unfold ship_ok. rewrite !andb_true_iff. intros [[Hl Hd] Ho]. apply digit_ship_char in Hd.
  apply ship_char_facts in Hl as (_ & Hl & _ & _ & Hl0 & _), Hd as (_ & Hd & _ & _ & Hd0 & _), Ho as (_ & Ho & _ & _ & Ho0 & _).
  destruct s as [l d o]. cbn [sh_column sh_row sh_direction] in *.
  unfold ship_text, LF_text. cbn [sh_column sh_row sh_direction].
  change (String l (String d (String space (String o ""))) ++ String LF "")%string
    with (String l (String d (String space (String o (String LF ""))))).
  unfold is_clean. cbn [tidy trim_end no_nul String.eqb]. rewrite Hl, Hd, Ho.
  rewrite !(proj2 (Ascii.eqb_neq _ NUL)) by done.
  change (is_space space) with true. change (is_space LF) with false. cbn [tidy trim_end negb andb String.eqb].
  rewrite !Ascii.eqb_refl. done.
Qed.

Lemma ship_same s : ship_ok s = true -> same_ship (ship_text s) (ship_text s) /\ same_ship (ship_text s ++ LF_text) (ship_text s).
Proof.
  intros Hs. split; [done|]. unfold ship_ok in Hs. rewrite !andb_true_iff in Hs. destruct Hs as [[_ Hd] Ho].
  apply ship_char_facts in Ho as (Ho & _). destruct s as [l d o]. cbn [sh_column sh_row sh_direction] in *.
  assert (number (String d "") = true) as Hn by (unfold number; cbn; by rewrite Hd).
  pose proof (scan_d_number (String d "") (String space (String o (String LF ""))) Hn eq_refl) as H1.
  pose proof (scan_d_number (String d "") (String space (String o "")) Hn eq_refl) as H2.
  split; [|done]. unfold ship_text. cbn [sh_column sh_row sh_direction].
  change (sscanf_cdc (String l (String d "" ++ String space (String o (String LF "")))) =
          sscanf_cdc (String l (String d "" ++ String space (String o "")))).
  cbn [sscanf_cdc]. rewrite H1, H2. cbn [mbind ub_bind skip_white]. change (is_white space) with true. cbv iota.
  by rewrite Ho.
Qed.

Lemma replace_back s a b : (forall c, c ∈ bytes s -> c <> b) -> thing_replace (thing_replace s a b) b a = s.
Proof.
  induction s as [|c s IH]; intros Hs; [done|]. cbn [thing_replace].
  rewrite IH by (intros d Hd; apply Hs; by right). f_equal.
  destruct (Ascii.eqb c a) eqn:E; [apply Ascii.eqb_eq in E as ->; by rewrite Ascii.eqb_refl|].
  by rewrite (proj2 (Ascii.eqb_neq c b)) by (apply Hs; left).
Qed.

Lemma bytes_join d xs c : c ∈ bytes (join d xs) -> c = d \/ exists x, x ∈ xs /\ c ∈ bytes x.
Proof.
  induction xs as [|x xs IH]; [by intros ?%not_elem_of_nil|]. destruct xs as [|y xs].
  - intros Hc. right. exists x. split; [left|done].
  - rewrite join_cons2, bytes_app. intros [Hc|Hc]%elem_of_app; [right; exists x; split; [left|done]|].
    apply elem_of_cons in Hc as [->|Hc]; [by left|]. destruct (IH Hc) as [?|(z & Hz & ?)]; [by left|].
    right. exists z. split; [by right|done].
Qed.

Lemma map_back ss tl : Forall (fun s => ship_ok s = true) ss -> tl = "" \/ tl = LF_text ->
  thing_replace (thing_replace (join COLON (ship_text <$> ss)) space COMMA ++ tl) COMMA space
  = (join COLON (ship_text <$> ss) ++ tl)%string.
Proof.
  intros Hss Htl. rewrite replace_app, replace_back.
  - f_equal. by destruct Htl as [-> | ->].
  - intros c Hc. apply bytes_join in Hc as [->|(x & Hx & Hc)]; [done|].
    apply list_elem_of_fmap in Hx as (s & -> & Hs). rewrite Forall_forall in Hss.
    apply (ship_bytes s c (Hss s Hs)). rewrite bytes_app. apply elem_of_app. by left.
Qed.

Lemma no_nul_bytes s : (forall c, c ∈ bytes s -> c <> NUL) -> no_nul s = true.
Proof.
  induction s as [|c s IH]; [done|]. intros Hs. cbn [no_nul]. rewrite (proj2 (Ascii.eqb_neq _ _)) by (apply Hs; left).
  apply IH. intros d Hd. apply Hs. by right.
Qed.

Lemma bytes_replace s a b c : c ∈ bytes (thing_replace s a b) -> c = b \/ c ∈ bytes s.
Proof.
  induction s as [|d s IH]; [by intros ?%not_elem_of_nil|]. cbn. intros [->|Hc]%elem_of_cons.
  - destruct (Ascii.eqb d a); [by left|]. right. left.
  - destruct (IH Hc); [by left|]. right. by right.
Qed.

(** A map that comes with its newline, or is in its block. *)
Lemma read_map ss b c tl e : Forall (fun s => ship_ok s = true) ss -> ss <> [] -> Z.of_nat (length ss) < 2 ^ 64 ->
  e = "" \/ e = LF_text -> b = bytes (map_text ss ++ e) ++ NUL :: c :: tl ->
  exists hq, read_string_map b = Ok hq /\
    queue_holds hq (if String.eqb e "" then ship_text <$> ss else add_last (ship_text <$> ss) LF_text).
Proof.
  intros Hss Hne Hlen He ->. unfold read_string_map, map_text.
  set (m := thing_replace (join COLON (ship_text <$> ss)) space COMMA).
  change (drop 4 (bytes (("MAP" ++ String space m) ++ e) ++ NUL :: c :: tl)) with (bytes (m ++ e) ++ NUL :: c :: tl).
  assert (no_nul (m ++ e) = true) as Hn.
  { apply no_nul_bytes. intros d. rewrite bytes_app. intros [Hd|Hd]%elem_of_app.
    - apply bytes_replace in Hd as [->|Hd]; [done|]. apply bytes_join in Hd as [->|(x & Hx & Hd)]; [done|].
      apply list_elem_of_fmap in Hx as (s & -> & Hs). rewrite Forall_forall in Hss.
      apply (ship_bytes s d (Hss s Hs)). rewrite bytes_app. apply elem_of_app. by left.
    - destruct He as [-> | ->]; [by apply not_elem_of_nil in Hd|].
      apply elem_of_cons in Hd as [->|Hd]; [done|by apply not_elem_of_nil in Hd]. }
  rewrite mem_string_bytes by done. cbn [mbind ub_bind].
  rewrite <- (bytes_length (m ++ e)), drop_app_length. unfold m. rewrite map_back by done.
  set (xs := if String.eqb e "" then ship_text <$> ss else add_last (ship_text <$> ss) LF_text).
  assert (ship_text <$> ss <> []) as Hne' by by destruct ss.
  assert (join COLON (ship_text <$> ss) ++ e = join COLON xs)%string as ->.
  { unfold xs. destruct He as [-> | ->]; [by rewrite string_app_nil_r|]. by apply join_last. }
  destruct (read_fields COLON c tl xs) as (h & q & b & Hq & Hh).
  - done.
  - unfold xs. destruct (String.eqb e ""); [done|by apply add_last_nil].
  - unfold xs. destruct (String.eqb e ""); rewrite ?add_last_length, length_fmap; done.
  - rewrite Forall_forall in Hss.
    assert (Forall (fun x => is_clean x = true /\ forall d, d ∈ bytes x -> d <> COLON) (ship_text <$> ss)) as H1.
    { apply Forall_fmap, Forall_forall. intros s Hs. split; [by apply ship_clean, Hss|].
      intros d Hd. apply (ship_bytes s d (Hss s Hs)). rewrite bytes_app. apply elem_of_app. by left. }
    unfold xs. destruct (String.eqb e ""); [done|]. apply add_last_Forall; [done|].
    intros x Hx. apply list_elem_of_fmap in Hx as (s & -> & Hs). split; [by apply ship_clean, Hss|].
    intros d Hd. by apply (ship_bytes s d (Hss s Hs)).
  - exists (h, q). rewrite Hq. done.
Qed.

(** ** The start *)

Lemma bytes_replaced s a b c : a <> b -> c ∈ bytes (thing_replace s a b) -> c <> a.
Proof.
  intros Hab. induction s as [|d s IH]; [by intros ?%not_elem_of_nil|]. cbn. intros [->|Hc]%elem_of_cons; [|by apply IH].
  destruct (Ascii.eqb d a) eqn:E; [congruence|]. by apply Ascii.eqb_neq.
Qed.

Lemma map_text_clean ss : Forall (fun s => ship_ok s = true) ss -> ss <> [] -> is_clean (map_text ss) = true.
Proof.
  intros Hss Hne. unfold map_text. set (m := thing_replace _ _ _).
  assert (m <> "") as Hm.
  { unfold m. destruct ss as [|[l d o] [|s2 ss]]; [done|done|]. rewrite !fmap_cons, join_cons2.
    unfold ship_text at 1. cbn [sh_column sh_row sh_direction]. by rewrite replace_app. }
  assert (forall sp, tidy sp m = true /\ trim_end m = m /\ no_nul m = true) as Hf.
  { apply plain_facts. intros c Hc. split; [by apply (bytes_replaced (join COLON (ship_text <$> ss)) space COMMA)|].
    apply bytes_replace in Hc as [->|Hc]; [done|]. apply bytes_join in Hc as [->|(x & Hx & Hc)]; [done|].
    apply list_elem_of_fmap in Hx as (s & -> & Hs). rewrite Forall_forall in Hss.
    apply (ship_bytes s c (Hss s Hs)). rewrite bytes_app. apply elem_of_app. by left. }
  destruct (Hf true) as (Ht & He & Hn). unfold is_clean.
  change (tidy true ("MAP" ++ String space m)) with (tidy true m).
  change (no_nul ("MAP" ++ String space m)) with (no_nul m). rewrite Ht, Hn.
  assert (trim_end ("MAP" ++ String space m) = "MAP" ++ String space m)%string as ->.
  { destruct m as [|c m]; [done|]. change (trim_end ("MAP" ++ String space (String c m)))
      with ("MAP" ++ String space (trim_end (String c m)))%string. by rewrite He. }
  rewrite String.eqb_refl. done.
Qed.

Lemma Forall2_refl_in {A} (R : A -> A -> Prop) xs : (forall x, x ∈ xs -> R x x) -> Forall2 R xs xs.
Proof. induction xs as [|x xs IH]; [constructor|]. intros Hr. constructor; [apply Hr; left|]. apply IH. intros y Hy. apply Hr. by right. Qed.

Lemma rules_like hq toks e : queue_holds hq (if String.eqb e "" then toks else add_last toks LF_text) ->
  Forall (fun t => number t = true) toks -> holds_like same_number hq toks.
Proof.
  intros Hq Ht. rewrite Forall_forall in Ht. eexists. split; [exact Hq|]. case_match; [by apply Forall2_refl_in|].
  apply add_last_like; [done|]. intros x Hx. by apply number_same; [apply Ht|].
Qed.

Lemma ships_like hq ss e : queue_holds hq (if String.eqb e "" then ship_text <$> ss else add_last (ship_text <$> ss) LF_text) ->
  Forall (fun s => ship_ok s = true) ss -> holds_like same_ship hq (ship_text <$> ss).
Proof.
  intros Hq Hss. rewrite Forall_forall in Hss. eexists. split; [exact Hq|].
  assert (Hs : forall x, x ∈ ship_text <$> ss -> same_ship x x /\ same_ship (x ++ LF_text) x).
  { intros x Hx. apply list_elem_of_fmap in Hx as (s & -> & Hs). by apply ship_same, Hss. }
  case_match; [apply Forall2_refl_in|apply add_last_like]; intros x Hx; by apply Hs.
Qed.

(** The sizes of the grids are the first numbers of the rules. *)
Lemma game_set_size a b rest p c x y g d' : sscanf_d a = Ok (1, x) -> sscanf_d b = Ok (1, y) ->
  game_set (Data (a :: b :: rest) p c) = Ok (0, Some g, d') ->
  Forall (fun sd => size_x (field sd) = x /\ size_y (field sd) = y) [player g; cpu g].
Proof.
  intros Ha Hb. unfold game_set. cbn [d_game d_player_map d_cpu_map qi_dequeue list_queue mbind ub_bind deref].
  rewrite Ha. cbn [mbind ub_bind]. rewrite Hb. cbn [mbind ub_bind]. change (negb (1 + 1 =? 2)) with false. cbv iota.
  destruct rest as [|t rest]; [done|]. cbn [mbind ub_bind deref].
  destruct (sscanf_d t) as [[c3 n]|]; cbn [mbind ub_bind]; [|done]. case_if; [done|]. clear E.
  unfold game_init. destruct (grid_init x y) as [gr|] eqn:Hg; cbn [mbind ub_bind]; [|done].
  apply grid_init_ok in Hg as (_ & Hx & Hy & _).
  destruct (init_loop _ _ _ _) as [[[[e sizes] area] q]|]; cbn [mbind ub_bind]; [|done].
  assert (Hd : forall m c p q, game_draw (Side n gr sizes) m = Ok (c, p, q) -> size_x (field p) = x /\ size_y (field p) = y).
  { intros m c' p' q'. unfold game_draw. destruct m as [m|]; [|by intros [= _ <- _]].
    destruct (draw_loop _ _ _ m) as [[[r g'] qq]|] eqn:Hl; cbn [mbind ub_bind]; [|done].
    intros [= _ <- _]. apply draw_loop_size in Hl as [Hsx Hsy]. cbn [field] in *. split; congruence. }
  destruct (Z.eqb_spec e 0) as [->|He]; cbn [negb].
  2:{ cbn [mbind ub_bind]. rewrite (proj2 (Z.eqb_neq _ _) He). cbn [negb]. congruence. }
  case_if; cbn [mbind ub_bind]; [done|]. change (negb (0 =? 0)) with false. cbv iota. cbn [player cpu].
  destruct (game_draw _ p) as [[[cp sp] qp]|] eqn:H1; cbn [mbind ub_bind]; [|done].
  destruct (game_draw _ c) as [[[cc sc] qc]|] eqn:H2; cbn [mbind ub_bind]; [|done].
  apply Hd in H1, H2. repeat case_if; try done. intros [= <- _]. cbn [player cpu].
  by repeat (apply Forall_cons; split).
Qed.

Lemma sscanf_number s : number s = true -> sscanf_d s = Ok (1, num s).
Proof.
  intros Hs. unfold sscanf_d. destruct (number_start s "" Hs) as [Hw Hn]. rewrite string_app_nil_r in Hw, Hn.
  rewrite Hw, (proj2 (String.eqb_neq _ _) Hn). pose proof (scan_d_number s "" Hs eq_refl) as H0.
  rewrite string_app_nil_r in H0. by rewrite H0.
Qed.

(** *** The messages *)

Definition good_maps (ss1 ss2 : list ship) : Prop :=
  Forall (fun s => ship_ok s = true) ss1 /\ ss1 <> [] /\ (String.length (map_text ss1 ++ LF_text) <= 48)%nat /\
  Forall (fun s => ship_ok s = true) ss2 /\ ss2 <> [] /\ (String.length (map_text ss2 ++ LF_text) <= 48)%nat.

Lemma join_length d xs : (length xs <= S (String.length (join d xs)))%nat.
Proof.
  induction xs as [|x [|y xs] IH]; [simpl; lia|simpl; lia|]. rewrite join_cons2, string_length_app.
  cbn [String.length length] in *. lia.
Qed.

Lemma replace_length s a b : String.length (thing_replace s a b) = String.length s.
Proof. induction s as [|c s IH]; [done|]. cbn [thing_replace String.length]. by rewrite IH. Qed.

Lemma map_count ss : (String.length (map_text ss ++ LF_text) <= 48)%nat -> Z.of_nat (length ss) < 2 ^ 64.
Proof.
  unfold map_text. rewrite string_length_app. change (String.length ("MAP" ++ ?x)) with (3 + String.length x)%nat.
  cbn [String.length]. rewrite replace_length. pose proof (join_length COLON (ship_text <$> ss)) as H.
  rewrite length_fmap in H. lia.
Qed.

Lemma map_read ss slack junk : Forall (fun s => ship_ok s = true) ss -> ss <> [] ->
  (String.length (map_text ss ++ LF_text) <= 48)%nat -> length junk = BUFF -> slack <> [] ->
  (exists hq, read_string_map (read_into (map_text ss ++ LF_text) junk) = Ok hq /\ holds_like same_ship hq (ship_text <$> ss)) /\
  (exists hq, read_string_map (block slack (map_text ss)) = Ok hq /\ holds_like same_ship hq (ship_text <$> ss)).
Proof.
  intros Hss Hne Hl Hj Hsl. pose proof (map_count ss Hl) as Hlen. split.
  - destruct (array_rest _ junk Hj Hl) as (c & tl & E).
    destruct (read_map ss _ c tl LF_text Hss Hne Hlen ltac:(by right) E) as (hq & Hr & Hq).
    exists hq. split; [done|by apply (ships_like _ _ LF_text)].
  - destruct slack as [|c tl]; [done|].
    destruct (read_map ss (block (c :: tl) (map_text ss)) c tl "" Hss Hne Hlen ltac:(by left)) as (hq & Hr & Hq).
    { unfold block. by rewrite string_app_nil_r. }
    exists hq. split; [done|by apply (ships_like _ _ "")].
Qed.

Lemma hub_game_ok slack toks ss1 ss2 g d' : slack <> [] -> Forall (fun t => number t = true) toks -> toks <> [] ->
  Z.of_nat (length toks) < 2 ^ 64 -> good_maps ss1 ss2 ->
  game_set (Data toks (Some (ship_text <$> ss1)) (Some (ship_text <$> ss2))) = Ok (0, Some g, d') ->
  hub_game slack (rules_text toks) (Some (map_text ss1 ++ LF_text)%string) (Some (map_text ss2 ++ LF_text)%string) = Ok (inr (Some g)).
Proof.
  intros Hsl Ht Hne Hlen (Hs1 & Hn1 & Hl1 & Hs2 & Hn2 & Hl2) Hg. unfold hub_game, map_array.
  assert (Hb : length (replicate BUFF NUL) = BUFF) by apply length_replicate.
  destruct slack as [|c tl]; [done|].
  destruct (read_rules_block c tl toks Ht Hne Hlen) as (d0 & -> & Hd0). cbn [mbind ub_bind].
  destruct (map_read ss1 (c :: tl) _ Hs1 Hn1 Hl1 Hb Hsl) as [(q1 & -> & Hq1) _]. cbn [mbind ub_bind].
  destruct (map_read ss2 (c :: tl) _ Hs2 Hn2 Hl2 Hb Hsl) as [(q2 & -> & Hq2) _]. cbn [mbind ub_bind].
  pose proof (game_set_like (Data d0 (Some q1) (Some q2)) (Data toks (Some (ship_text <$> ss1)) (Some (ship_text <$> ss2)))
    (rules_like d0 toks "" Hd0 Ht) Hq1 Hq2) as Hlike. rewrite Hg in Hlike. destruct Hlike as [dd ->]. done.
Qed.

Lemma rules_bytes toks x : Forall (fun t => number t = true) toks -> x ∈ bytes (rules_text toks) -> x <> NUL /\ x <> LF.
Proof.
  intros Ht. unfold rules_text. change (bytes ("RULES" ++ ?s)) with (bytes "RULES" ++ bytes s). intros [Hx|Hx]%elem_of_app.
  { cbn in Hx. repeat (apply elem_of_cons in Hx as [->|Hx]; [done|]). by apply not_elem_of_nil in Hx. }
  apply elem_of_cons in Hx as [->|Hx]; [done|]. apply bytes_join in Hx as [->|(y & Hy & Hx)]; [done|].
  rewrite Forall_forall in Ht. specialize (Ht y Hy). unfold number in Ht. rewrite !andb_true_iff in Ht.
  destruct Ht as [[_ Ht] _]. by destruct (digit_facts x (bytes_digits y x Ht Hx)) as (_ & _ & _ & _ & _ & _ & ? & ? & _).
Qed.

Lemma text_line_no_nul s : (forall x, x ∈ bytes s -> x <> NUL /\ x <> LF) -> no_nul (s ++ LF_text) = true.
Proof.
  intros Hs. apply no_nul_bytes. intros c. rewrite bytes_app. intros [Hc|Hc]%elem_of_app; [by apply Hs|].
  apply elem_of_cons in Hc as [->|Hc]; [done|by apply not_elem_of_nil in Hc].
Qed.

(** A line with its newline is what [fgets] takes. *)
Lemma fgets_line n s r : (forall x, x ∈ bytes s -> x <> NUL /\ x <> LF) -> (String.length (s ++ LF_text) <= n)%nat ->
  fgets n (s ++ String LF r) = Some ((s ++ LF_text)%string, r).
Proof.
  revert n. induction s as [|c s IH]; intros n Hs Hn.
  - destruct n as [|n]; [simpl in Hn; lia|]. done.
  - destruct n as [|n]; [simpl in Hn; lia|]. change (String c s ++ ?x)%string with (String c (s ++ x)) in *.
    cbn [fgets String.length] in *. destruct (Hs c) as [_ Hlf]; [left|].
    rewrite (proj2 (Z.eqb_neq (code c) 10)).
    2:{ intros Hc. apply Hlf. revert Hc. destruct c as [[] [] [] [] [] [] [] []]; by vm_compute. }
    rewrite IH; [done| |lia]. intros x Hx. apply Hs. by right.
Qed.

Lemma map_bytes ss x : Forall (fun s => ship_ok s = true) ss -> x ∈ bytes (map_text ss) -> x <> NUL /\ x <> LF.
Proof.
  intros Hss. unfold map_text. change (bytes ("MAP" ++ ?s)) with (bytes "MAP" ++ bytes s). intros [Hx|Hx]%elem_of_app.
  { cbn in Hx. repeat (apply elem_of_cons in Hx as [->|Hx]; [done|]). by apply not_elem_of_nil in Hx. }
  apply elem_of_cons in Hx as [->|Hx]; [done|]. apply bytes_replace in Hx as [->|Hx]; [done|].
  apply bytes_join in Hx as [->|(y & Hy & Hx)]; [done|]. apply list_elem_of_fmap in Hy as (s & -> & Hs).
  rewrite Forall_forall in Hss. specialize (Hss s Hs). unfold ship_ok in Hss. rewrite !andb_true_iff in Hss.
  destruct Hss as [[Hl Hd] Ho]. apply digit_ship_char in Hd.
  apply ship_char_facts in Hl as (_ & _ & _ & _ & ? & ?), Hd as (_ & _ & _ & _ & ? & ?), Ho as (_ & _ & _ & _ & ? & ?).
  cbn in Hx. repeat (apply elem_of_cons in Hx as [->|Hx]; [done|]). by apply not_elem_of_nil in Hx.
Qed.

Lemma agent_main_ok slack junk k ml a b c rest ss g d' : slack <> [] -> length junk = BUFF ->
  forallb line_ok ml = true -> Z.of_nat (length ml) < 2 ^ 64 -> data_lines ml = ship_text <$> ss ->
  Forall (fun s => ship_ok s = true) ss -> ss <> [] -> (String.length (map_text ss ++ LF_text) <= 48)%nat ->
  Forall (fun t => number t = true) (a :: b :: c :: rest) -> Z.of_nat (length (a :: b :: c :: rest)) < 2 ^ 64 ->
  (String.length (rules_text (a :: b :: c :: rest) ++ LF_text) <= 48)%nat ->
  game_set (Data (a :: b :: c :: rest) (Some (ship_text <$> ss)) None) = Ok (0, Some g, d') ->
  agent_main slack junk k (Some (unlines ml)) (Some (rules_text (a :: b :: c :: rest) ++ LF_text)%string) =
    Ok (inr ([map_text ss; newline], agent_start k (num a) (num b) g)).
Proof.
  intros Hsl Hj Hml Hmlen Hdl Hss Hne Hml8 Ht Hlen Hr8 Hg. set (toks := a :: b :: c :: rest) in *.
  destruct (simple_read_ok ml Hml Hmlen) as (h & q & Hrd & Hq). rewrite Hdl in Hq.
  destruct ss as [|s ss']; [done|]. set (ss := s :: ss') in *.
  destruct (queue_to_string_ok _ h q COLON (ship_text s) (ship_text <$> ss') ltac:(done) Hq) as (h' & q' & Hts).
  { pose proof (map_count ss Hml8) as Hc. unfold ss in Hc. cbn [length] in *. by rewrite length_fmap. }
  unfold agent_main. rewrite Hrd. cbn [mbind ub_bind fst snd]. rewrite Hts. cbn [mbind ub_bind deref].
  change (thing_copy (Some "MAP")) with (@Ok thing (Some "MAP")). cbn [mbind ub_bind].
  rewrite thing_add_ok by done. cbn [mbind ub_bind deref].
  change ("MAP" ++ String space (thing_replace (join COLON (ship_text s :: (ship_text <$> ss'))) space COMMA))%string with (map_text ss).
  unfold thing_copy. rewrite (thing_clean_id _ (map_text_clean ss Hss Hne)). cbn [mbind ub_bind deref].
  destruct (read_rules_array toks junk Hj Ht ltac:(done) Hlen Hr8) as (d0 & Hd0 & Hq0).
  destruct (map_read ss slack junk Hss Hne Hml8 Hj Hsl) as [_ (d1 & Hd1 & Hq1)].
  rewrite Hd0, Hd1. destruct (array_rest _ _ Hj Hr8) as (e & tl & ->).
  rewrite mem_string_bytes by (by apply text_line_no_nul; intros x; apply rules_bytes). cbn [mbind ub_bind].
  unfold toks. rewrite scan_rules_ok by done. fold toks. cbn [mbind ub_bind].
  pose proof (game_set_like (Data d0 (Some d1) None) (Data toks (Some (ship_text <$> ss)) None)
    (rules_like d0 toks LF_text Hq0 Ht) Hq1 I) as Hlike. rewrite Hg in Hlike. destruct Hlike as [dd ->]. done.
Qed.

(** The names in the configuration. *)
Lemma hub_config_ok slack cl rest p1 m1 p2 m2 more : slack <> [] -> forallb line_ok cl = true -> Z.of_nat (length cl) < 2 ^ 64 ->
  data_lines cl = join COMMA (p1 :: m1 :: p2 :: m2 :: more) :: rest ->
  Z.of_nat (length (p1 :: m1 :: p2 :: m2 :: more)) < 2 ^ 64 ->
  Forall (fun x => is_clean x = true /\ forall e, e ∈ bytes x -> e <> COMMA) (p1 :: m1 :: p2 :: m2 :: more) ->
  hub_config slack (Some (unlines cl)) = Ok (Launch (Some p1) (Some m1) (Some p2) (Some m2)).
Proof.
  intros Hsl Hcl Hlen Hd Hn Hok. destruct (simple_read_ok cl Hcl Hlen) as (h & q & Hr & Hq). rewrite Hd in Hq.
  unfold hub_config. rewrite Hr. cbn [mbind ub_bind fst snd].
  destruct (dequeue_holds _ _ _ _ _ Hq) as (h1 & q1 & -> & Hq1).
  { rewrite <- Hd. unfold data_lines. rewrite length_fmap.
    pose proof (List.filter_length_le (fun l => negb (is_comment l)) cl). lia. }
  cbn [mbind ub_bind deref]. destruct slack as [|c tl]; [done|].
  destruct (to_queue_holds h1 COMMA c tl (p1 :: m1 :: p2 :: m2 :: more) (holds_heap_ok _ _ _ _ Hq1) ltac:(done) ltac:(done) Hok Hn)
    as [(h2 & q2 & b & Hb & Hq2) _].
  unfold block. rewrite Hb. cbn [mbind ub_bind]. do 4 (
    apply dequeue_holds in Hq2 as (?h & ?q & Hdq & Hq2); [|cbn [length] in *; lia];
    rewrite Hdq; clear Hdq; cbn [mbind ub_bind]). done.
Qed.

(** *** The files of a match *)

(** The lines of the four files and what is in them. *)
Record setup := Setup {
  su_rules : list string; su_config : list string; su_map1 : list string; su_map2 : list string;
  su_x : string; su_y : string; su_ships : string; su_sizes : list string;
  su_names : string * string * (string * string); su_ships1 : list ship; su_ships2 : list ship }.

Definition su_toks (u : setup) : list string := su_x u :: su_y u :: su_ships u :: su_sizes u.
Definition name_list (u : setup) : list string := let '(p1, m1, (p2, m2)) := su_names u in [p1; m1; p2; m2].
Definition readable (ls : list string) : Prop := forallb line_ok ls = true /\ Z.of_nat (length ls) < 2 ^ 64.

(** The files can be read, say this, and their lines fit into the buffers of 50 bytes; the
    game [g] is what [game_set] makes of it. *)
Record setup_ok (u : setup) (g : game) : Prop := {
  ok_files : Forall readable [su_rules u; su_config u; su_map1 u; su_map2 u];
  ok_rules : data_lines (su_rules u) = (su_x u ++ String space (su_y u))%string :: su_ships u :: su_sizes u;
  ok_numbers : Forall (fun t => number t = true) (su_toks u);
  ok_rules_fit : (String.length (rules_text (su_toks u) ++ LF_text) <= 48)%nat;
  ok_config : exists rest, data_lines (su_config u) = join COMMA (name_list u) :: rest;
  ok_names : Forall (fun x => is_clean x = true /\ forall e, e ∈ bytes x -> e <> COMMA) (name_list u);
  ok_map1 : data_lines (su_map1 u) = ship_text <$> su_ships1 u;
  ok_map2 : data_lines (su_map2 u) = ship_text <$> su_ships2 u;
  ok_maps : good_maps (su_ships1 u) (su_ships2 u);
  ok_game : exists d, game_set (Data (su_toks u) (Some (ship_text <$> su_ships1 u)) (Some (ship_text <$> su_ships2 u))) = Ok (0, Some g, d);
}.

Definition started (slack junk : list ascii) (sys : system) (u : setup) : ub beginning :=
  start_match slack junk sys (Some (unlines (su_rules u))) (Some (unlines (su_config u))).

(** The names of the configuration run [2310A], and the files of the maps are there. *)
Definition runs_2310A (sys : system) (u : setup) : Prop :=
  let '(p1, m1, (p2, m2)) := su_names u in
  program sys p1 = Some 1 /\ file_text sys m1 = Some (unlines (su_map1 u)) /\
  program sys p2 = Some 1 /\ file_text sys m2 = Some (unlines (su_map2 u)).

Definition names_of (u : setup) : launch :=
  let '(p1, m1, (p2, m2)) := su_names u in Launch (Some p1) (Some m1) (Some p2) (Some m2).

Lemma toks_count toks : (String.length (rules_text toks ++ LF_text) <= 48)%nat -> Z.of_nat (length toks) < 2 ^ 64.
Proof.
  unfold rules_text. rewrite string_length_app. change (String.length ("RULES" ++ ?x)) with (5 + String.length x)%nat.
  cbn [String.length]. pose proof (join_length COMMA toks). lia.
Qed.

Lemma stream_hub_sends t : stream 1 (hub_sends t) = (t ++ String LF "")%string /\
  stream 2 (hub_sends t) = (t ++ String LF (chr 0))%string.
Proof. unfold hub_sends. cbn [stream]. split; [by rewrite string_app_nil_r|by rewrite string_app_nil_r]. Qed.

Lemma map_line_ok ss st : Forall (fun s => ship_ok s = true) ss -> (String.length (map_text ss ++ LF_text) <= 48)%nat ->
  map_line (inr ([map_text ss; newline], st)) = Some (map_text ss ++ LF_text)%string.
Proof.
  intros Hss Hl. unfold map_line, line_from. change (String.concat "" [map_text ss; newline]) with (map_text ss ++ String LF "")%string.
  rewrite fgets_line; [done|intros x; by apply map_bytes|unfold BUFF; lia].
Qed.

Lemma agent_run_ok slack junk sys id p m line kind r : program sys p = Some kind ->
  agent_main slack junk kind (file_text sys m) line = Ok r ->
  agent_run slack junk sys id (Some p) (Some m) line = Ok (Some r).
Proof. intros Hp Hr. unfold agent_run. cbn [mbind option_bind]. rewrite Hp. cbn. by rewrite Hr. Qed.

Lemma match_start_ok slack junk sys u g : setup_ok u g -> runs_2310A sys u -> slack <> [] -> length junk = BUFF ->
  exists fresh, started slack junk sys u = Ok (Begun (Start (names_of u) (inr (Some g))
      (Some (agent_start 1 (num (su_x u)) (num (su_y u)) (Game (player g) fresh))) ""
      (Some (agent_start 1 (num (su_x u)) (num (su_y u)) (Game (cpu g) fresh))) (chr 0))) /\
    grid_ok (field fresh) /\ same_size (field (player g)) (field fresh) /\ same_size (field (cpu g)) (field fresh) /\
    count (field fresh) 47 = 0 /\ count (field fresh) 42 = 0 /\ 0 < total fresh.
Proof.
  intros [Hf Hru Hnum Hfit [crest Hcf] Hnm Hm1 Hm2 Hmaps [d Hg]] Hsys Hsl Hj.
  repeat (apply Forall_cons in Hf as [[? ?] Hf]). pose proof Hmaps as (Hs1 & Hn1 & Hl1 & Hs2 & Hn2 & Hl2).
  pose proof (toks_count _ Hfit) as Hcount.
  destruct (game_set_halves _ _ _ g d Hg) as (fresh & Hfo & Hsz1 & Hsz2 & H47 & H42 & Htot & [d1 Hg1] & [d2 Hg2]).
  exists fresh. split; [|done]. unfold started, start_match.
  rewrite (hub_rules_ok (su_rules u) (su_x u) (su_y u) (su_ships u :: su_sizes u)) by done. cbn [mbind ub_bind].
  change (su_x u :: su_y u :: su_ships u :: su_sizes u) with (su_toks u).
  destruct (stream_hub_sends (rules_text (su_toks u))) as [-> ->]. unfold line_from, rest_of.
  rewrite !fgets_line by (unfold BUFF; try lia; intros x; by apply rules_bytes). cbn [fst fmap option_fmap option_map].
  unfold su_toks in *.
  assert (hub_config slack (Some (unlines (su_config u))) = Ok (names_of u)) as ->.
  { unfold names_of, name_list in *. destruct (su_names u) as [[p1 m1] [p2 m2]].
    apply (hub_config_ok slack _ crest p1 m1 p2 m2 []); try done. }
  cbn [mbind ub_bind]. unfold runs_2310A, names_of in *. destruct (su_names u) as [[p1 m1] [p2 m2]].
  destruct Hsys as (Hp1 & Hf1 & Hp2 & Hf2). cbn [l_prog1 l_map1 l_prog2 l_map2].
  erewrite (agent_run_ok slack junk sys "1" p1 m1) by (try exact Hp1; rewrite Hf1;
    by apply (agent_main_ok slack junk 1 (su_map1 u) (su_x u) (su_y u) (su_ships u) (su_sizes u) (su_ships1 u) (Game (player g) fresh) d1 Hsl Hj)).
  cbn [mbind ub_bind].
  erewrite (agent_run_ok slack junk sys "2" p2 m2) by (try exact Hp2; rewrite Hf2;
    by apply (agent_main_ok slack junk 1 (su_map2 u) (su_x u) (su_y u) (su_ships u) (su_sizes u) (su_ships2 u) (Game (cpu g) fresh) d2 Hsl Hj)).
  cbn [mbind ub_bind]. rewrite !map_line_ok by done. by rewrite (hub_game_ok slack _ _ _ g d).
Qed.

Lemma hears_partly gr copy : grid_ok copy -> same_size gr copy -> count copy 47 = 0 -> count copy 42 = 0 -> hears false gr copy.
Proof.
  intros Hc [Hx Hy] H1 H2. split; [congruence|]. split; [congruence|]. intros i j.
  split; [|split; [|done]]; intros Hcell; apply cell_count in Hcell; [lia|done|lia|done].
Qed.

(** ** From the files to the end of the match *)

(** C20: When the four files say how a match on a square board of at most 8 by 8 cells with at
    most nine ships is to be played, their lines fit into the buffers, and both names of the
    configuration run [2310A], the hub starts them with their maps and makes the game that the files
    say; each agent makes its own half of that game out of its map and the rules that the hub
    sends; and then the three play the match to its end, with a winner.  The blocks of the heap are
    longer than asked for ([slack] is not empty; without it a map is read past its block), the
    buffer of the rules has its 50 bytes.  The hub sends agent 2 a terminator after its
    rules, which stays in the stream, so that agent 2 does not recognise the first
    message. *)
Theorem files_play_out slack junk rand sys u g : setup_ok u g -> runs_2310A sys u -> slack <> [] -> length junk = BUFF ->
  num (su_x u) = num (su_y u) -> 1 <= num (su_y u) <= 8 -> total (player g) <= 9 ->
  exists s A B n, started slack junk sys u = Ok (Begun s) /\ st_launch s = names_of u /\ st_hub s = inr (Some g) /\
    st_agent1 s = Some A /\ st_agent2 s = Some B /\ st_rest1 s = "" /\ st_rest2 s = chr 0 /\ game_ok n g /\
    exists w1 w2 out win g' gA gB, hub g w1 w2 = Ok (out, Over win g') /\ ended n (Over win g') /\
      plays (agent1 rand) A (st_rest1 s ++ stream 1 out)%string = Ok (w1, Exited 0 gA) /\
      plays (agent2 rand) B (st_rest2 s ++ stream 2 out)%string = Ok (w2, Exited 0 gB).
Proof.
  intros Hu Hsys Hsl Hj Hsq Hw H9. destruct (match_start_ok slack junk sys u g Hu Hsys Hsl Hj) as (fresh & Hst & Hfo & Hz1 & Hz2 & H47 & H42 & Htot).
  pose proof (ok_game u g Hu) as [d Hg].
  destruct (set_ready (Data (su_toks u) (Some (ship_text <$> su_ships1 u)) (Some (ship_text <$> su_ships2 u))) _ d _ _ eq_refl eq_refl Hg) as (g0 & n & Heq & Hn & Hsp & Hsc & _ & Htp & Htc & _ & _ & Hon).
  injection Heq as <-.
  pose proof (ok_numbers u g Hu) as Hnum. apply Forall_cons in Hnum as [Hx Hnum]. apply Forall_cons in Hnum as [Hy _].
  pose proof (game_set_size _ _ _ _ _ _ _ g d (sscanf_number _ Hx) (sscanf_number _ Hy) Hg) as Hsizes.
  rewrite Hsq in Hst, Hsizes.
  assert (forall sd, total sd = Z.of_nat n -> game_status (Game sd fresh) = GAME_ON) as Hgo.
  { intros sd Hs. unfold game_status. cbn [cpu player]. by rewrite !(proj2 (Z.eqb_neq _ 0)) by lia. }
  destruct (plays_to_end false true rand n g (num (su_y u)) (num (su_y u)) (Game (player g) fresh) (Game (cpu g) fresh))
    as (w1 & w2 & out & win & g' & gB' & Hh & Hend & HA & HB & _); try done; try lia; try by apply Hgo.
  { split; [apply (so_grid _ _ Hsc)|done]. }
  { split; [by split|]. by apply hears_partly. }
  do 4 eexists. split; [exact Hst|]. cbn [st_launch st_hub st_agent1 st_agent2 st_rest1 st_rest2].
  do 6 (split; [done|]). split; [by split|]. do 7 eexists. split; [exact Hh|]. split; [exact Hend|]. split; [exact HA|exact HB].
Qed.

(** Where nothing lies behind the exact blocks, the map is read past its end. *)
Lemma map_block_overruns ss : Forall (fun s => ship_ok s = true) ss -> ss <> [] ->
  (String.length (map_text ss ++ LF_text) <= 48)%nat -> read_string_map (block [] (map_text ss)) = UB out_of_bounds.
Proof.
  intros Hss Hne Hl. unfold read_string_map, block, map_text. set (m := thing_replace _ space COMMA).
  change (drop 4 (bytes ("MAP" ++ String space m) ++ [NUL])) with (bytes m ++ [NUL]).
  assert (no_nul m = true) as Hn.
  { apply no_nul_bytes. intros x Hx. apply (map_bytes ss x Hss). unfold map_text.
    change (bytes ("MAP" ++ ?s)) with (bytes "MAP" ++ bytes s). apply elem_of_app. right. by right. }
  rewrite (mem_string_bytes m []) by done. cbn [mbind ub_bind].
  assert (thing_replace m COMMA space = join COLON (ship_text <$> ss)) as ->.
  { pose proof (map_back ss "" Hss ltac:(by left)) as Hb. by rewrite !string_app_nil_r in Hb. }
  rewrite <- (bytes_length m), drop_app_length.
  destruct (to_queue_holds empty_heap COLON NUL [] (ship_text <$> ss) empty_heap_ok) as [_ ->]; [done|by destruct ss| | |done].
  - rewrite Forall_forall in Hss. apply Forall_fmap, Forall_forall. intros s Hs. split; [by apply ship_clean, Hss|].
    intros x Hx. apply (ship_bytes s x (Hss s Hs)). rewrite bytes_app. apply elem_of_app. by left.
  - rewrite length_fmap. by apply map_count.
Qed.

(** *** Witness *)

Definition sample_setup : setup :=
  Setup ["# board, ships, sizes"; "8 8"; "2"; "3"; "2"]
    ["# first round"; "./2310A,map1.txt,./2310A,map2.txt"]
    ["C1 S"; "E2 E"] ["# the other"; "H8 W"; "A4 N"]
    "8" "8" "2" ["3"; "2"] ("./2310A", "map1.txt", ("./2310A", "map2.txt"))
    [Ship "C" "1" "S"; Ship "E" "2" "E"] [Ship "H" "8" "W"; Ship "A" "4" "N"].

Lemma sample_setup_ok : setup_ok sample_setup sample_game.
Proof.
  split.
  - repeat (apply Forall_cons; split; [split; vm_compute; reflexivity|]). constructor.
  - vm_compute. reflexivity.
  - repeat (apply Forall_cons; split; [vm_compute; reflexivity|]). constructor.
  - apply Nat.leb_le. vm_compute. reflexivity.
  - eexists. vm_compute. reflexivity.
  - apply Forall_forall. intros x Hx. assert (forallb (fun c => negb (Ascii.eqb c COMMA)) (bytes x) = true /\ is_clean x = true) as [H1 H2].
    { cbn in Hx. repeat (apply elem_of_cons in Hx as [->|Hx]; [split; vm_compute; reflexivity|]). by apply not_elem_of_nil in Hx. }
    split; [done|]. intros e He ->. by eapply forallb_forall in H1; [|apply list_elem_of_In in He; exact He].
  - vm_compute. reflexivity.
  - vm_compute. reflexivity.
  - repeat split; try discriminate; try (apply Nat.leb_le; vm_compute; reflexivity);
      repeat (apply Forall_cons; split; [vm_compute; reflexivity|]); constructor.
  - eexists. vm_compute. reflexivity.
Qed.

(** Two agents of the same kind, under their name. *)
Definition sample_system : system :=
  System (fun f => if String.eqb f "map1.txt" then Some (unlines (su_map1 sample_setup))
                   else if String.eqb f "map2.txt" then Some (unlines (su_map2 sample_setup)) else None)
    (fun p => if String.eqb p "./2310A" then Some 1 else if String.eqb p "./2310B" then Some 2 else None).

Lemma files_play_out_witness : exists s A B n, started [NUL] (replicate BUFF NUL) sample_system sample_setup = Ok (Begun s) /\
    st_launch s = names_of sample_setup /\ st_hub s = inr (Some sample_game) /\
    st_agent1 s = Some A /\ st_agent2 s = Some B /\ st_rest1 s = "" /\ st_rest2 s = chr 0 /\ game_ok n sample_game /\
    exists w1 w2 out win g' gA gB, hub sample_game w1 w2 = Ok (out, Over win g') /\ ended n (Over win g') /\
      plays (agent1 (fun _ => 0)) A (st_rest1 s ++ stream 1 out)%string = Ok (w1, Exited 0 gA) /\
      plays (agent2 (fun _ => 0)) B (st_rest2 s ++ stream 2 out)%string = Ok (w2, Exited 0 gB).
Proof.
  refine (files_play_out [NUL] (replicate BUFF NUL) (fun _ => 0) sample_system sample_setup sample_game sample_setup_ok _ _ eq_refl eq_refl _ _).
  - repeat split.
  - done.
  - vm_compute; split; intros ?; discriminate.
  - vm_compute; intros ?; discriminate.
Defined.
