(* ===== verification/Naval.v ===== *)
(** * The game for one terminal ([src/6.BattleShip])

    The first version of the game: the player types moves, the computer takes its own from a
    file.  Its lists, queues and moves are the files that [GList] and [GGame] model, and so are
    most functions of its [grid.c] and [game.c]; what differs is here, with [naval.c]. *)

From S2P Require Import Prelude CText GThing GList GGrid GGame GSetup.

#[local] Open Scope string_scope.
#[local] Open Scope list_scope.
#[local] Open Scope Z_scope.

(** ** [display.h] *)

Definition newline : string := chr 10.
Definition DISPLAY_PLAYER_MOVE : string := "(Your move)>".
Definition DISPLAY_CPU_MOVE : string := "(CPU move)>".

Definition display_message (m addon nl : string) : string := (m ++ addon ++ nl)%string.

Definition display_result (r : Z) : string :=
  if r =? WIN_PLAYER then display_message "Game over - " "you win" newline
  else if r =? WIN_CPU then display_message "Game over - " "you lose" newline
  else if r =? DOWN then display_message "Hit" newline ("Ship sunk" ++ newline)%string
  else
    let show :=
      if r =? MISS then "Miss" else if r =? HIT then "Hit" else if r =? BAD then "Bad guess"
      else if r =? REPEAT then "Repeated guess" else if r =? EXHAUST_MOVES_CPU then "CPU gives up"
      else if r =? ILLEGAL_M then "Bad guess" else if r =? GAME_ON then "" else ("Unknown" ++ newline)%string in
    display_message show newline "".

(** ** [grid.c] *)

(** Without [discrete] a missed guess is shown as water. *)
Definition water (e : Z) : Z := if e =? 47 then DEFAULT_ELEMENT else e.
Definition grid_show (g : grid) : string :=
  grid_show_general (Grid ((fun r : list Z => water <$> r) <$> plain g) (size_x g) (size_y g)) false [].
Definition grid_show_discrete (g : grid) (show : list Z) : string := grid_show_general g true show.

(** ** [game.c] *)

(** The game with the turns that the computer has left. *)
Record naval := Naval { nv_game : game; cpu_turns : Z }.

Section Set_up.
Context {Q : Type} `{QueueI Q}.

(** The data: that of the game, and the moves of the computer. *)
Record data := Data4 { d_data : game_data Q; d_cpu_moves : Q }.

(** [sscanf(s, "%d %d %d\n", ...)]: the count and the numbers that were read, others 0. *)
Definition sscanf_ddd (s : string) : ub (Z * (Z * Z)) :=
  if String.eqb (skip_white s) "" then Ok (-1, (0, 0)) else
  r ← scan_d s;
  match r with
  | None => Ok (0, (0, 0))
  | Some (x, s) =>
      r ← scan_d s;
      match r with
      | None => Ok (1, (x, 0))
      | Some (y, s) => r ← scan_d s; Ok (match r with None => 2 | Some _ => 3 end, (x, y))
      end
  end.

Definition game_set (d : data) : ub (Z * option naval * data) :=
  let dd := d_data d in
  let with_game q := Data4 (Data q (d_player_map dd) (d_cpu_map dd)) (d_cpu_moves d) in
  '(t, q) ← qi_dequeue (d_game dd);
  s ← deref t; '(check, (max_x, max_y)) ← sscanf_ddd s;
  if negb (check =? 2) then Ok (GAME_DATA_QUEUE_ERROR, None, with_game q) else
  '(t, q) ← qi_dequeue q;
  s ← deref t; '(check, total_ships) ← sscanf_d s;
  let check := if negb (u64 total_ships =? qi_size q) || (total_ships <? 1) || (15 <? total_ships)
               then -1 else check in
  if negb (check =? 1) then Ok (GAME_DATA_QUEUE_ERROR, None, with_game q) else
  (* [game_init] and the two calls of [game_draw] are those of the other version. *)
  '(e, og, dd) ← set_tail dd max_x max_y total_ships q;
  Ok (e, option_map (fun g => Naval g (s32 (qi_size (d_cpu_moves d)))) og, Data4 dd (d_cpu_moves d)).
End Set_up.
Arguments data Q : clear implicits.
Arguments Data4 {Q} _ _.

Definition game_play_cpu (g : naval) (m : thing) : ub (Z * naval) :=
  if total (player (nv_game g)) =? 0 then Ok (WIN_CPU, g) else
  if cpu_turns g =? 0 then Ok (EXHAUST_MOVES_CPU, g) else
  '(res, g') ← GGame.game_play_cpu (nv_game g) m;
  Ok (res, Naval g' (cpu_turns g - 1)).

Definition game_play_player (g : naval) (m : thing) : ub (Z * naval) :=
  '(res, g') ← GGame.game_play_player (nv_game g) m; Ok (res, Naval g' (cpu_turns g)).

Definition status (g : naval) : Z := game_status (nv_game g).

Definition game_show (g : naval) : string :=
  (grid_show_discrete (field (cpu (nv_game g))) [42; 47] ++ "===" ++ newline ++ grid_show (field (player (nv_game g))))%string.

(** ** [naval.c] *)

(** The end of the program: [handle_exit] with an error, or the return from [main]. *)
Inductive ended := Exit (e : Z) | Return (g : naval).

(** [move_player] gets the next of the strings that [fgets] gives, or NULL at the end. *)
Definition move_player (lines : list string) : ub (thing * list string) :=
  match lines with
  | [] => Ok (None, [])
  | l :: lines => m ← thing_copy (Some l); Ok (m, lines)
  end.

Definition again (c : Z) : bool := (c =? ILLEGAL_M) || (c =? BAD) || (c =? REPEAT).

(** The turn of the player, with the loop until a move counts: what is shown, and the result
    with the game, or [None] when there is no more input. *)
Fixpoint player_turn (fuel : nat) (g : naval) (lines : list string) : ub (string * option (Z * naval * list string)) :=
  match fuel with
  | O => UB no_fuel
  | S fuel =>
      '(m, lines) ← move_player lines;
      '(c, g) ← game_play_player g m;
      let out := display_message DISPLAY_PLAYER_MOVE "" "" in
      if (c =? ILLEGAL_M) && move_check_eof m then Ok (out, None)
      else if again c then
        '(out', r) ← player_turn fuel g lines; Ok ((out ++ display_result c ++ out')%string, r)
      else Ok ((out ++ display_result c)%string, Some (c, g, lines))
  end.

Section Play.
Context {Q : Type} `{QueueI Q}.

(** The turn of the computer: [None] when it has no more turns. *)
Fixpoint cpu_turn (fuel : nat) (g : naval) (q : Q) : ub (string * option (Z * naval * Q)) :=
  match fuel with
  | O => UB no_fuel
  | S fuel =>
      '(m, q) ← qi_dequeue q;
      '(c, g) ← game_play_cpu g m;
      let out := display_message DISPLAY_CPU_MOVE "" "" in
      if c =? EXHAUST_MOVES_CPU then Ok (out, None) else
      let out := (out ++ match m with Some s => display_message s newline "" | None => "" end ++ display_result c)%string in
      if again c then '(out', r) ← cpu_turn fuel g q; Ok ((out ++ out')%string, r)
      else Ok (out, Some (c, g, q))
  end.

(** The loop of [main] and what is behind it. *)
Fixpoint game_loop (fuel : nat) (g : naval) (lines : list string) (q : Q) : ub (string * ended) :=
  let over g := Ok (display_result (status g), Return g) in
  if negb (status g =? GAME_ON) then over g else
  match fuel with
  | O => UB no_fuel
  | S fuel =>
      '(out1, r) ← player_turn (S (length lines)) g lines;
      let out1 := (game_show g ++ out1)%string in
      match r with
      | None => Ok (out1, Exit 130)
      | Some (c, g, lines) =>
          if (c <? BAD) || (status g =? WIN_PLAYER) then '(out, e) ← over g; Ok ((out1 ++ out)%string, e) else
          '(out2, r) ← cpu_turn (S (Z.to_nat (cpu_turns g))) g q;
          match r with
          | None => Ok ((out1 ++ out2)%string, Exit 140)
          | Some (c, g, q) =>
              '(out, e) ← (if c <? BAD then over g else game_loop fuel g lines q);
              Ok ((out1 ++ out2 ++ out)%string, e)
          end
      end
  end.
End Play.

(** [okay_files] with four files. *)
Definition FILES : Z := 5.

(** [main]: the arguments behind the name, the files, and the lines of the terminal. *)
Definition naval_main (fs : string -> option string) (args : list string) (lines : list string) : ub (string * ended) :=
  let access f := match fs f with Some _ => true | None => false end in
  let argv := None :: (Some <$> args) ++ [None] in
  let ok_check := okay_args (argc argv) FILES in
  if negb (ok_check =? SUCCESS) then Ok ("", Exit ok_check) else
  ok_check ← okay_files access argv FILES;
  if negb (ok_check =? SUCCESS) then Ok ("", Exit ok_check) else
  match args with
  | f1 :: f2 :: f3 :: f4 :: _ =>
      q1 ← simple_read (fs f1); q2 ← simple_read (fs f2); q3 ← simple_read (fs f3); q4 ← simple_read (fs f4);
      '(check_set, og, d) ← game_set (Data4 (Data q1 (Some q2) (Some q3)) q4);
      if negb (check_set =? 0) then Ok ("", Exit (if check_set =? GAME_DATA_QUEUE_ERROR then 50 else check_set)) else
      match og with
      | None => UB use_after_free
      | Some g => game_loop (S (length lines)) g lines (d_cpu_moves d)
      end
  | _ => UB out_of_bounds
  end.

(** ** A move *)

(** What a move can be answered by. *)
Definition answers (won : Z) : list Z := [won; ILLEGAL_M; BAD; REPEAT; MISS; HIT; DOWN].

Lemma played_answers n sd sd' x y c r won : played n sd sd' x y c r -> r ∈ answers won.
Proof.
  unfold played, answers. destruct (c =? 0); [intros [-> _]; set_solver|].
  destruct ((c =? 47) || (c =? 42)); [intros [-> _]; set_solver|].
  destruct (c =? DEFAULT_ELEMENT); [intros [-> _]; set_solver|].
  intros (k & _ & _ & Hp). destruct (k <? 9)%nat; [|destruct Hp as [-> _]; set_solver].
  destruct Hp as [-> _]. destruct (count (field sd) c =? 1); set_solver.
Qed.

(** A move whose check works is answered, and keeps the side well-formed. *)
Lemma play_answered n sd m b won : side_ok n sd -> won = WIN_CPU \/ won = WIN_PLAYER -> move_check m = Ok b ->
  exists r sd', play_on won sd m = Ok (r, sd') /\ side_ok n sd' /\ r ∈ answers won /\
    (r = won -> sd' = sd /\ total sd = 0) /\ (m = None -> total sd <> 0 -> r = ILLEGAL_M).
Proof.
  intros Hs Hw Hm. destruct (Z.eqb_spec (total sd) 0) as [Ht|Ht].
  { exists won, sd. unfold play_on. rewrite Ht. split; [done|]. split; [done|]. split; [left|done]. }
  destruct b.
  - destruct m as [m|]; [|done]. destruct (move_parts m Hm) as (x & y & Hx & Hy & _).
    destruct (play_on_ok n won sd m x y Hs Ht Hm Hx Hy) as (c & res & sd' & _ & Hp & Hs' & Hpl & _).
    exists res, sd'. split; [done|]. split; [done|]. split; [by eapply played_answers|]. split; [|done].
    pose proof (played_answers _ _ _ _ _ _ _ MISS Hpl) as Hr. intros ->. exfalso. clear -Hr Hw. unfold answers in Hr.
    destruct Hw as [-> | ->]; repeat (apply elem_of_cons in Hr as [Hr|Hr]; [done|]); by apply not_elem_of_nil in Hr.
  - exists ILLEGAL_M, sd. unfold play_on, game_play_. rewrite (proj2 (Z.eqb_neq _ _) Ht), Hm. split; [done|].
    split; [done|]. split; [set_solver|]. split; [|done]. intros Hi. by destruct Hw as [-> | ->].
Qed.

(** A move that has to be made again changes nothing. *)
Lemma play_on_again sd m won r sd' : play_on won sd m = Ok (r, sd') -> again r = true -> sd' = sd.
Proof.
  unfold play_on. case_if; [by intros [= _ <-]|]. intros ([r1 sd1] & Hp & Hr)%ub_bind_ok Ha. injection Hr as -> Hr.
  assert (r =? DOWN = false) as Hd by (apply Z.eqb_neq; intros ->; done). rewrite Hd in Hr. subst sd1.
  unfold game_play_ in Hp. apply ub_bind_ok in Hp as (ok & _ & Hp). case_if in Hp; [by injection Hp as _ <-|].
  apply ub_bind_ok in Hp as (s & _ & Hp). apply ub_bind_ok in Hp as (x & _ & Hp). apply ub_bind_ok in Hp as (y & _ & Hp).
  apply ub_bind_ok in Hp as (e & _ & Hp). case_if in Hp; [by injection Hp as _ <-|]. case_if in Hp.
  { apply ub_bind_ok in Hp as ([? ?] & _ & Hp). by injection Hp as <- _. }
  case_if in Hp; [by injection Hp as _ <-|]. case_if in Hp; [|by injection Hp as _ <-].
  cbv zeta in Hp. apply ub_bind_ok in Hp as (k & _ & Hp). apply ub_bind_ok in Hp as (sh & _ & Hp).
  apply ub_bind_ok in Hp as ([? ?] & _ & Hp). injection Hp as <- _. by destruct (k - 1 =? 0).
Qed.

(** What is left when a move counted. *)
Lemma answers_count won r : r ∈ answers won -> again r = false -> r = won \/ r = MISS \/ r = HIT \/ r = DOWN.
Proof. unfold answers. intros Hr Ha. repeat (apply elem_of_cons in Hr as [->|Hr]; [try done; tauto|]). by apply not_elem_of_nil in Hr. Qed.

(** ** The game *)

(** How the program looks at a string that the terminal gives, and at one of the file of moves. *)
Definition look (l : string) : ub bool := m ← thing_copy (Some l); move_check m.
Definition look_at (s : string) : ub bool := move_check (Some s).

(** A fault is that of looking at one of the lines or moves. *)
Definition spoilt (lines moves : list string) (f : fault) : Prop :=
  (exists l, l ∈ lines /\ look l = UB f) \/ (exists s, s ∈ moves /\ look_at s = UB f).

Lemma spoilt_sub lines lines' moves moves' f : lines' ⊆ lines -> moves' ⊆ moves -> spoilt lines' moves' f -> spoilt lines moves f.
Proof. intros Hl Hm [(l & ? & ?)|(l & ? & ?)]; [left|right]; exists l; auto. Qed.

(** A move that cannot be looked at has a space behind its first character, or a number that is no [int]. *)
Lemma look_at_faults s f : look_at s = UB f ->
  (f = overlap /\ exists c, String.get 1 s = Some c /\ is_space c = true) \/ f = signed_overflow.
Proof.
  unfold look_at, move_check. destruct s as [|c0 [|c1 s]]; [done|done|].
  change (char_at (String c0 (String c1 s)) 1) with (Ok c1). change (String.eqb (String c0 _) "") with false.
  cbn [mbind ub_bind]. case_if; [intros [= <-]; left; split; [done|]; by exists c1|].
  unfold sscanf_cd. destruct (scan_d _) as [[[? ?]|]|] eqn:Hd; cbn [mbind ub_bind]; try done.
  intros [= <-]. right. revert Hd. unfold scan_d. destruct (scan_sign _) as [sg [|d r]]; [done|]. case_if; [|done].
  destruct (scan_digits _ _) as [v r']. case_if; [done|]. by intros [= ->].
Qed.

(** A line of the terminal, moreover, may be one that is cleaned outside of its memory: the empty one, or one
    whose only superfluous space is at its start. *)
Lemma look_faults l f : no_nul l = true -> look l = UB f ->
  f = out_of_bounds \/ f = overlap \/ f = signed_overflow.
Proof.
  intros Hn. unfold look, thing_copy. rewrite thing_clean_spec by done. case_if; [intros [= <-]; by left|].
  cbn [mbind ub_bind]. intros [[-> _]| ->]%look_at_faults; tauto.
Qed.

Lemma play_spoilt won sd m f : total sd <> 0 -> move_check m = UB f -> play_on won sd m = UB f.
Proof. intros Ht Hm. unfold play_on, game_play_. by rewrite (proj2 (Z.eqb_neq _ _) Ht), Hm. Qed.

Record good (n : nat) (g : naval) : Prop := Good {
  gd_player : side_ok n (player (nv_game g));
  gd_cpu : side_ok n (cpu (nv_game g))
}.

Lemma player_turn_ok n fuel g lines : good n g -> status g = GAME_ON -> (length lines < fuel)%nat ->
  match player_turn fuel g lines with
  | Ok (_, None) => True
  | Ok (_, Some (c, g', lines')) => good n g' /\ player (nv_game g') = player (nv_game g) /\ cpu_turns g' = cpu_turns g /\
      BAD <= c /\ lines' ⊆ lines /\ (length lines' < length lines)%nat
  | UB f => spoilt lines [] f
  end.
Proof.
  revert g lines. induction fuel as [|fuel IH]; intros g lines Hg Hst Hf; [lia|]. cbn [player_turn].
  assert (Ht : total (cpu (nv_game g)) <> 0) by (intros He; unfold status, game_status in Hst; by rewrite He in Hst).
  destruct (move_player lines) as [[m rest]|f] eqn:Hmp; cbn [mbind ub_bind].
  2: { destruct lines as [|l lines]; [done|]. left. exists l. split; [left|]. unfold look. cbn [move_player] in Hmp.
    destruct (thing_copy (Some l)); [done|]. by injection Hmp as ->. }
  assert (Hm : rest ⊆ lines /\ ((lines = [] /\ m = None) \/ exists l, l ∈ lines /\ look l = move_check m /\ (length rest < length lines)%nat)).
  { destruct lines as [|l lines]; cbn [move_player] in Hmp; [injection Hmp as <- <-; split; [done|by left]|].
    destruct (thing_copy (Some l)) as [m'|] eqn:Hc; [|done]. injection Hmp as <- <-. split; [set_solver|]. right. exists l.
    split; [left|]. unfold look. rewrite Hc. split; [done|simpl; lia]. }
  destruct Hm as [Hsub Hlen]. unfold game_play_player, GGame.game_play_player.
  destruct (move_check m) as [b|f] eqn:Hc.
  2: { rewrite (play_spoilt WIN_PLAYER _ m f Ht Hc). cbn [mbind ub_bind]. left.
    destruct Hlen as [[_ ->]|(l & Hl & Hlk & _)]; [done|]. by exists l. }
  destruct (play_answered n (cpu (nv_game g)) m b WIN_PLAYER (gd_cpu _ _ Hg) (or_intror eq_refl) Hc) as (c & sd' & Hp & Hs' & Hin & Hwon & Hnone).
  rewrite Hp. cbn [mbind ub_bind]. set (g' := Naval _ _).
  assert (Hg' : good n g') by (split; [apply Hg|done]).
  destruct ((c =? ILLEGAL_M) && move_check_eof m) eqn:He; [done|].
  assert (Hlt : (length rest < length lines)%nat).
  { destruct Hlen as [[-> ->]|(? & _ & _ & ?)]; [|done]. rewrite (Hnone eq_refl Ht) in He. done. }
  destruct (again c) eqn:Ha.
  - assert (Hst' : status g' = GAME_ON).
    { assert (sd' = cpu (nv_game g)) as Hsd.
      { by apply (play_on_again _ m WIN_PLAYER c). }
      unfold g'. rewrite Hsd. unfold status. cbn [nv_game]. rewrite <- Hst. by destruct g as [[? ?] ?]. }
    pose proof (IH g' rest Hg' Hst' ltac:(lia)) as Hr.
    destruct (player_turn fuel g' rest) as [[out [[[c' g''] lines']|]]|f]; cbn [mbind ub_bind]; [|done|by eapply spoilt_sub].
    destruct Hr as (H1 & H2 & H3 & H4 & H5 & H6). split_and!; try done; [by etransitivity|lia].
  - split_and!; try done. destruct (answers_count _ _ Hin Ha) as [->|[->|[->| ->]]]; done.
Qed.

Section Ends.
Context {Q : Type} `{QueueLaws Q}.

Lemma cpu_turn_ok n fuel g q moves : good n g -> total (player (nv_game g)) <> 0 -> qi_holds q moves -> cpu_turns g = Z.of_nat (length moves) ->
  (length moves < fuel)%nat ->
  match cpu_turn fuel g q with
  | Ok (_, None) => True
  | Ok (_, Some (c, g', q')) => good n g' /\ cpu (nv_game g') = cpu (nv_game g) /\ BAD <= c /\
      exists moves', qi_holds q' moves' /\ cpu_turns g' = Z.of_nat (length moves') /\ moves' ⊆ moves
  | UB f => spoilt [] moves f
  end.
Proof.
  revert g q moves. induction fuel as [|fuel IH]; intros g q moves Hg Ht Hq Hturns Hf; [lia|]. cbn [cpu_turn].
  unfold game_play_cpu. rewrite (proj2 (Z.eqb_neq _ _) Ht), Hturns. destruct moves as [|s moves].
  - by rewrite (qi_empty _ Hq).
  - destruct (qi_take _ _ _ Hq) as (q' & -> & Hq'). cbn [mbind ub_bind length].
    rewrite (proj2 (Z.eqb_neq _ 0)) by lia. unfold GGame.game_play_cpu.
    destruct (move_check (Some s)) as [b|f] eqn:Hb.
    2: { rewrite (play_spoilt WIN_CPU _ _ f Ht Hb). cbn [mbind ub_bind]. right. exists s. split; [left|done]. }
    destruct (play_answered n (player (nv_game g)) (Some s) b WIN_CPU (gd_player _ _ Hg) (or_introl eq_refl) Hb) as (c & sd' & Hp & Hs' & Hin & _ & _).
    rewrite Hp. cbn [mbind ub_bind]. set (g' := Naval _ _).
    assert (He : (c =? EXHAUST_MOVES_CPU) = false).
    { apply Z.eqb_neq. intros ->. unfold answers in Hin. repeat (apply elem_of_cons in Hin as [Hin|Hin]; [done|]). by apply not_elem_of_nil in Hin. }
    rewrite He. assert (Hg' : good n g') by (split; [done|apply Hg]).
    assert (Ht' : cpu_turns g' = Z.of_nat (length moves)) by (cbn; lia). destruct (again c) eqn:Ha.
    + assert (Hp' : total (player (nv_game g')) <> 0) by (cbn; by rewrite (play_on_again _ _ _ _ _ Hp Ha)).
      pose proof (IH g' q' moves Hg' Hp' Hq' Ht' ltac:(simpl in Hf; lia)) as Hr.
      destruct (cpu_turn fuel g' q') as [[out [[[c' g''] q'']|]]|f]; cbn [mbind ub_bind]; [|done|eapply spoilt_sub; [|..|exact Hr]; set_solver].
      destruct Hr as (H1 & H2 & H3 & moves' & H4 & H5 & H6). split_and!; try done. exists moves'. split_and!; try done. set_solver.
    + split_and!; try done; [|exists moves; split_and!; [done|done|set_solver]].
      destruct (answers_count _ _ Hin Ha) as [->|[->|[->| ->]]]; done.
Qed.

(** What an end says: an exit because there was no line or no move left, or a result. *)
Definition end_ok (n : nat) (out : string) (e : ended) : Prop :=
  match e with
  | Exit e => e = 130 \/ e = 140
  | Return g => good n g /\ exists shown, out = (shown ++ display_result (status g))%string /\
      ((status g = WIN_PLAYER /\ forall k, (k < n)%nat -> count (field (cpu (nv_game g))) (elem k) = 0) \/
       (status g = WIN_CPU /\ forall k, (k < n)%nat -> count (field (player (nv_game g))) (elem k) = 0))
  end.

Lemma over_ok n g : good n g -> status g <> GAME_ON -> forall shown, end_ok n (shown ++ display_result (status g)) (Return g).
Proof.
  intros Hg Hs shown. split; [done|]. exists shown. split; [done|]. unfold status, game_status in *.
  destruct (Z.eqb_spec (total (cpu (nv_game g))) 0) as [Hz|Hz]; [left|right].
  - split; [done|]. by apply (lost_iff n _ (gd_cpu _ _ Hg)).
  - destruct (Z.eqb_spec (total (player (nv_game g))) 0) as [Hz2|Hz2]; [|done]. split; [done|]. by apply (lost_iff n _ (gd_player _ _ Hg)).
Qed.

Lemma end_ok_app n a out e : end_ok n out e -> end_ok n (a ++ out) e.
Proof.
  destruct e as [e|g]; [done|]. intros [Hg (shown & -> & Hw)]. split; [done|]. exists (a ++ shown)%string.
  split; [by rewrite string_app_assoc|done].
Qed.

Lemma game_loop_ok n fuel g lines q moves : good n g -> qi_holds q moves ->
  cpu_turns g = Z.of_nat (length moves) -> (length lines < fuel)%nat ->
  match game_loop fuel g lines q with Ok (out, e) => end_ok n out e | UB f => spoilt lines moves f end.
Proof.
  revert g lines q moves. induction fuel as [|fuel IH]; intros g lines q moves Hg Hq Ht Hf; [lia|]. cbn [game_loop].
  destruct (Z.eqb_spec (status g) GAME_ON) as [Hst|Hst]; cbn [negb]; [|by apply (over_ok n g Hg Hst "")].
  pose proof (player_turn_ok n (S (length lines)) g lines Hg Hst ltac:(lia)) as Hr.
  destruct (player_turn _ g lines) as [[out1 [[[c g1] lines1]|]]|f]; cbn [mbind ub_bind]; [|by left|eapply spoilt_sub; [|..|exact Hr]; set_solver].
  destruct Hr as (Hg1 & Hp1 & Ht1 & Hc & Hl1 & Hlen). rewrite (proj2 (Z.ltb_ge _ _) Hc). cbn [orb].
  assert (Hpl : total (player (nv_game g)) <> 0).
  { intros He. unfold status, game_status in Hst. rewrite He in Hst. by destruct (total (cpu (nv_game g)) =? 0). }
  destruct (Z.eqb_spec (status g1) WIN_PLAYER) as [Hw|Hw].
  { cbn [mbind ub_bind]. apply over_ok; [done|by rewrite Hw]. }
  assert (Hr : match cpu_turn (S (Z.to_nat (cpu_turns g1))) g1 q with
    | Ok (_, None) => True
    | Ok (_, Some (c, g', q')) => good n g' /\ cpu (nv_game g') = cpu (nv_game g1) /\ BAD <= c /\
        exists moves', qi_holds q' moves' /\ cpu_turns g' = Z.of_nat (length moves') /\ moves' ⊆ moves
    | UB f => spoilt [] moves f end).
  { apply cpu_turn_ok; [done|by rewrite Hp1|done|by rewrite Ht1|rewrite Ht1, Ht; lia]. }
  destruct (cpu_turn _ g1 q) as [[out2 [[[c2 g2] q2]|]]|f]; cbn [mbind ub_bind]; [|by right|eapply spoilt_sub; [|..|exact Hr]; set_solver].
  destruct Hr as (Hg2 & _ & Hc2 & moves' & Hq2 & Ht2 & Hm2). rewrite (proj2 (Z.ltb_ge _ _) Hc2).
  pose proof (IH g2 lines1 q2 moves' Hg2 Hq2 Ht2 ltac:(lia)) as He.
  destruct (game_loop fuel g2 lines1 q2) as [[out e]|f]; cbn [mbind ub_bind]; [by do 2 apply end_ok_app|by eapply spoilt_sub].
Qed.

(** A game that [game_set] reports as ready. *)
Lemma game_set_good (d d' : data Q) og qp qc moves : d_player_map (d_data d) = Some qp -> d_cpu_map (d_data d) = Some qc ->
  qi_holds (d_cpu_moves d) moves -> Z.of_nat (length moves) < 2 ^ 31 -> game_set d = Ok (0, og, d') ->
  d_cpu_moves d' = d_cpu_moves d /\ exists g n, og = Some g /\ (1 <= n <= 15)%nat /\ good n g /\ status g = GAME_ON /\
    cpu_turns g = Z.of_nat (length moves).
Proof.
  intros Hqp Hqc Hmv Hlm Hs. unfold game_set in Hs.
  apply ub_bind_ok in Hs as ([t1 q1] & _ & Hs). apply ub_bind_ok in Hs as (s1 & _ & Hs).
  apply ub_bind_ok in Hs as ([c1 [x y]] & _ & Hs). case_if in Hs; [done|].
  apply ub_bind_ok in Hs as ([t2 q2] & _ & Hs). apply ub_bind_ok in Hs as (s2 & _ & Hs).
  apply ub_bind_ok in Hs as ([c2 s] & _ & Hs). cbv zeta in Hs.
  destruct (negb (u64 s =? qi_size q2) || (s <? 1) || (15 <? s)) eqn:Hr; [done|].
  case_if in Hs; [done|]. apply ub_bind_ok in Hs as ([[e og1] dd] & Ht & Hs). injection Hs as -> <- <-. split; [done|].
  assert (Hs15 : 1 <= s <= 15) by (cbool; lia).
  destruct (set_tail_ok (d_data d) x y s q2 og1 dd qp qc Hs15 Hqp Hqc Ht) as (g & sizes & grp & grc & -> & Hl & Hpos & -> & Hcp & Hcc).
  eexists _, (length sizes). split; [done|]. split; [lia|]. assert (s = Z.of_nat (length sizes)) as -> by lia. split.
  - split; cbn; apply counted_side; (done || lia).
  - split; [|cbn; rewrite (qi_count _ _ Hmv), sN_small by lia; done]. unfold status, game_status. cbn.
    by rewrite !(proj2 (Z.eqb_neq _ 0)) by lia.
Qed.

(** Once [game_set] has accepted the files, the game always ends, whatever lines the terminal gives and whatever
    moves are in the file of the computer: the program exits with 130 when there is no line left, with 140
    when the computer has no move left, or returns and has shown who wins, and then no cell of a
    ship of the other side is left; or it is undefined what it does, because of a line or move that it
    cannot look at. *)
Lemma naval_ends (d d' : data Q) og qp qc moves lines : d_player_map (d_data d) = Some qp -> d_cpu_map (d_data d) = Some qc ->
  qi_holds (d_cpu_moves d) moves -> Z.of_nat (length moves) < 2 ^ 31 -> game_set d = Ok (0, og, d') ->
  exists g n, og = Some g /\
    match game_loop (S (length lines)) g lines (d_cpu_moves d') with Ok (out, e) => end_ok n out e | UB f => spoilt lines moves f end.
Proof.
  intros Hqp Hqc Hmv Hlm Hs. destruct (game_set_good d d' og qp qc moves Hqp Hqc Hmv Hlm Hs) as (Hd & g & n & -> & _ & Hg & _ & Ht).
  rewrite Hd. exists g, n. split; [done|]. apply game_loop_ok; (done || lia).
Qed.
End Ends.

(** The computer's ships are not shown: only the guesses of its grid are. *)
Definition seen (g : grid) : list (list Z) := (fun r : list Z => (fun e => discrete_check e [42; 47]) <$> r) <$> plain g.

Lemma show_row_seen w y r1 r2 : ((fun e => discrete_check e [42; 47]) <$> r1) = ((fun e => discrete_check e [42; 47]) <$> r2) ->
  show_row w true [42; 47] y r1 = show_row w true [42; 47] y r2.
Proof.
  intros Hr. unfold show_row. do 4 f_equal. cbn [app].
  assert (He : forall r : list Z, (fun e => chr (discrete_check e [42; 47])) <$> r = chr <$> ((fun e => discrete_check e [42; 47]) <$> r)).
  { intros r. by rewrite <- list_fmap_compose. }
  by rewrite !He, Hr.
Qed.

Lemma game_show_hides g1 g2 : player (nv_game g1) = player (nv_game g2) ->
  size_x (field (cpu (nv_game g1))) = size_x (field (cpu (nv_game g2))) -> size_y (field (cpu (nv_game g1))) = size_y (field (cpu (nv_game g2))) ->
  seen (field (cpu (nv_game g1))) = seen (field (cpu (nv_game g2))) -> game_show g1 = game_show g2.
Proof.
  intros Hp Hx Hy Hs. unfold game_show, grid_show_discrete, grid_show_general. rewrite Hp, Hx, Hy.
  assert (Hr : forall w y l1 l2, ((fun r : list Z => (fun e => discrete_check e [42; 47]) <$> r) <$> l1) = ((fun r : list Z => (fun e => discrete_check e [42; 47]) <$> r) <$> l2) ->
    show_rows w true [42; 47] y l1 = show_rows w true [42; 47] y l2).
  { clear. intros w y l1. revert y. induction l1 as [|r1 l1 IH]; intros y [|r2 l2]; try done. rewrite !fmap_cons. intros [= H1 H2].
    cbn [show_rows]. by rewrite (show_row_seen w y r1 r2 H1), (IH (y + 1) l2 H2). }
  by rewrite (Hr _ _ _ _ Hs).
Qed.

(** ** The program *)

Definition readable_as (fs : string -> option string) (f : string) (ls : list string) : Prop :=
  fs f = Some (unlines ls) /\ forallb line_ok ls = true /\ Z.of_nat (length ls) < 2 ^ 31.

Lemma data_lines_length ls : (length (data_lines ls) <= length ls)%nat.
Proof.
  unfold data_lines. rewrite length_fmap. induction ls as [|l ls IH]; [done|]. cbn [List.filter]. destruct (negb _); cbn [length]; lia.
Qed.

Lemma simple_read_holds fs f ls : readable_as fs f ls -> exists q, simple_read (fs f) = Ok q /\ qi_holds q (data_lines ls).
Proof.
  intros (-> & Hl & Hb). destruct (simple_read_ok ls Hl ltac:(lia)) as (h & q & -> & Hq). exists (h, q). split; [done|].
  split; [by exists empty_heap|]. pose proof (data_lines_length ls). lia.
Qed.

(** Each file is missed with an error of its own, the first of them in the order of the arguments. *)
Lemma naval_missing fs f1 f2 f3 f4 lines : (fs f1 = None \/ fs f2 = None \/ fs f3 = None \/ fs f4 = None) ->
  naval_main fs [f1; f2; f3; f4] lines = Ok ("", Exit
    (match fs f1, fs f2, fs f3 with None, _, _ => 20 | _, None, _ => 30 | _, _, None => 31 | _, _, _ => 40 end)).
Proof.
  intros Hm. unfold naval_main, okay_files. cbn [fmap list_fmap app argc length okay_args].
  change (okay_args (argc [None; Some f1; Some f2; Some f3; Some f4; None]) FILES) with SUCCESS. cbn [negb].
  change (Z.to_nat (FILE_COUNT FILES)) with 4%nat. cbn [drop okay_files_loop okay_file].
  destruct (fs f1), (fs f2), (fs f3), (fs f4); try done. by destruct Hm as [?|[?|[?|?]]].
Qed.


(** *** Witness *)

Definition sample_files (f : string) : option string :=
  if String.eqb f "rules" then Some (unlines ["# rules"; "8 8"; "1"; "2"])
  else if String.eqb f "player" then Some (unlines ["C1 S"])
  else if String.eqb f "cpu" then Some (unlines ["H8 W"])
  else if String.eqb f "turns" then Some (unlines ["A1"; "A1"; "B2"]) else None.

Definition typed : list string := (fun m => m ++ String LF "")%string <$> ["H8"; "Z99"; "H8"; "G8"].

