(* ===== verification/RpsText.v ===== *)
(** * The messages of the game protocol ([src/4.Game-Protocol])

    [rpsserver.c] and [rpsclient.c] cut a line at its colons with the same loop, which
    works on a copy of the line and, after each piece, moves what is left of the copy to
    its start.  The loop is here once, with what is done with a piece as its parameter. *)

From S2P Require Import Prelude CText.

#[local] Open Scope string_scope.
#[local] Open Scope list_scope.
#[local] Open Scope Z_scope.

Definition MSG : nat := 80.

Definition is_sep (c : ascii) : bool := (code c =? 58) || (code c =? 10) || Ascii.eqb c NUL.

(** [strcpy(tok, tok + k)]: a copy towards the start, byte by byte. *)
Definition strcpy_down (k : Z) (tok : list ascii) : ub (list ascii) :=
  s ← mem_string (drop (Z.to_nat k) tok); Ok (read_into s tok).

(** [strcpy] into an array of [n] bytes. *)
Definition strcpy_to (n : Z) (s : string) : ub string := if strlen s <? n then Ok s else UB out_of_bounds.

Section Tokens.
(** [on_token n t r] is what happens to [r] at piece [n]; [inl] leaves the function. *)
Context {R : Type} (on_token : nat -> string -> R -> ub (Z + R)).

(** The loop from [i], for [n] turns. *)
Fixpoint token_loop (n : nat) (msg tok : list ascii) (i j : Z) (tok_n : nat) (r : R) : ub (Z + R) :=
  match n with
  | O => Ok (inr r)
  | S n' =>
      c ← mem_get msg i;
      if is_sep c then
        tok1 ← array_set j NUL tok;
        t ← mem_string tok1;
        r1 ← on_token tok_n t r;
        match r1 with
        | inl e => Ok (inl e)
        | inr r' =>
            tok2 ← strcpy_down (j + 1) tok1;
            token_loop n' msg tok2 (i + 1) 0 (S tok_n) r'
        end
      else token_loop n' msg tok (i + 1) (j + 1) tok_n r
  end.

(** With [tok] as a copy of the message, in an array that was cleared. *)
Definition tokens (msg : list ascii) (r : R) : ub (Z + R) :=
  s ← mem_string msg;
  token_loop (String.length s + 2) msg (read_into s (replicate MSG NUL)) 0 0 0 r.

(** ** The pieces *)

(** What the loop is to do with the pieces [fs]. *)
Fixpoint each_token (n : nat) (fs : list string) (r : R) : ub (Z + R) :=
  match fs with
  | [] => Ok (inr r)
  | f :: fs' => r1 ← on_token n f r; match r1 with inl e => Ok (inl e) | inr r' => each_token (S n) fs' r' end
  end.

Lemma each_token_cons n f fs r : each_token n (f :: fs) r =
  (r1 ← on_token n f r; match r1 with inl e => Ok (inl e) | inr r' => each_token (S n) fs r' end).
Proof. done. Qed.

Definition plain_text (f : string) : bool := forallb (fun c => negb (is_sep c)) (bytes f).

(** The pieces as a line. *)
Fixpoint line_of (fs : list string) : string :=
  match fs with
  | [] => chr 10
  | [f] => (f ++ chr 10)%string
  | f :: fs' => (f ++ String (Ascii.ascii_of_nat 58) (line_of fs'))%string
  end.

Lemma plain_no_nul f : plain_text f = true -> no_nul f = true.
Proof.
  unfold plain_text. induction f as [|c f IH]; [done|]. change (bytes (String c f)) with (c :: bytes f). cbn [forallb no_nul].
  rewrite !andb_true_iff. intros [Hc Hf]. split; [|by apply IH]. unfold is_sep in Hc.
  by destruct (Ascii.eqb c NUL); [rewrite orb_true_r in Hc|].
Qed.

Lemma line_no_nul fs : forallb plain_text fs = true -> no_nul (line_of fs) = true.
Proof.
  induction fs as [|f [|g fs] IH]; [done| |]; cbn [forallb line_of]; rewrite ?andb_true_iff; intros H.
  - rewrite no_nul_app, plain_no_nul by apply H. done.
  - destruct H as [Hf H]. rewrite no_nul_app, plain_no_nul by done. cbn [no_nul]. rewrite andb_true_l. apply IH. by rewrite <- andb_true_iff in H.
Qed.

(** The bytes of a piece are passed over. *)
Lemma token_skip f n a b tok i j k r : plain_text f = true -> i = Z.of_nat (length a) ->
  token_loop (String.length f + n) (a ++ bytes f ++ b) tok i j k r =
  token_loop n ((a ++ bytes f) ++ b) tok (i + Z.of_nat (String.length f)) (j + Z.of_nat (String.length f)) k r.
Proof.
  intros Hf ->. revert a j. induction f as [|c f IH]; intros a j.
  { change (bytes "") with (@nil ascii). cbn [String.length Nat.add]. by rewrite !Z.add_0_r, app_nil_r. }
  unfold plain_text in *. change (bytes (String c f)) with (c :: bytes f) in *. cbn [forallb] in Hf. apply andb_true_iff in Hf as [Hc Hf].
  cbn [String.length Nat.add token_loop app]. rewrite mem_get_app. cbn [mbind ub_bind].
  apply negb_true_iff in Hc. rewrite Hc, cons_middle, app_assoc.
  replace (Z.of_nat (length a) + 1) with (Z.of_nat (length (a ++ [c]))) by (rewrite length_app; simpl; lia).
  rewrite (IH Hf (a ++ [c])). f_equal; [by rewrite <- !app_assoc|rewrite length_app; simpl; lia|lia].
Qed.

Lemma last_drop_lt {A} n (l : list A) : (n < length l)%nat -> last (drop n l) = last l.
Proof. intros Hn. rewrite !last_lookup, lookup_drop, length_drop. f_equal. lia. Qed.

(** The end of a piece. *)
Lemma token_end f n a d b rest tl i k r : plain_text f = true -> no_nul rest = true -> is_sep d = true ->
  i = Z.of_nat (length a) -> (0 < length tl)%nat ->
  exists tl', length tl' = S (length tl + String.length f) /\ last tl' = last tl /\
  token_loop (S n) (a ++ d :: b) (bytes f ++ d :: bytes rest ++ NUL :: tl) i (Z.of_nat (String.length f)) k r =
  (r1 ← on_token k f r; match r1 with inl e => Ok (inl e) | inr r' =>
    token_loop n ((a ++ [d]) ++ b) (bytes rest ++ NUL :: tl') (i + 1) 0 (S k) r' end).
Proof.
  intros Hf Hrest Hd -> Htl.
  exists (drop (String.length rest + 1) (bytes f ++ NUL :: bytes rest ++ NUL :: tl)).
  split; [|split].
  - rewrite length_drop, !length_app. cbn [length]. rewrite !length_app, !bytes_length. cbn [length]. lia.
  - rewrite last_drop_lt; [|rewrite !length_app; cbn [length]; rewrite !length_app, !bytes_length; cbn [length]; lia].
    rewrite cons_middle, cons_middle, !app_assoc. destruct tl as [|t tl _] using rev_ind; [simpl in Htl; lia|].
    by rewrite app_assoc, !last_snoc.
  - cbn [token_loop]. rewrite mem_get_app. cbn [mbind ub_bind]. rewrite Hd.
    rewrite <- (bytes_length f) at 1. rewrite array_set_app. cbn [mbind ub_bind].
    rewrite mem_string_bytes by (by apply plain_no_nul). cbn [mbind ub_bind].
    destruct (on_token k f r) as [[e|r']|]; [done| |done]. cbn [mbind ub_bind]. unfold strcpy_down.
    replace (Z.to_nat (Z.of_nat (String.length f) + 1)) with (length (bytes f ++ [NUL])) by (rewrite length_app, bytes_length; simpl; lia).
    rewrite (cons_middle NUL (bytes f)), app_assoc, drop_app_length, mem_string_bytes by done. cbn [mbind ub_bind].
    unfold read_into. by rewrite <- (app_assoc a [d]), <- app_assoc.
Qed.

Lemma line_of_cons f g fs : line_of (f :: g :: fs) = (f ++ String (Ascii.ascii_of_nat 58) (line_of (g :: fs)))%string.
Proof. done. Qed.

Lemma token_fields fs n a b tl i k r : fs <> [] -> forallb plain_text fs = true -> i = Z.of_nat (length a) -> (0 < length tl)%nat ->
  exists tl', (0 < length tl')%nat /\ last tl' = last tl /\
  token_loop (String.length (line_of fs) + n) (a ++ bytes (line_of fs) ++ b) (bytes (line_of fs) ++ NUL :: tl) i 0 k r =
  (r1 ← each_token k fs r; match r1 with inl e => Ok (inl e) | inr r' =>
    token_loop n ((a ++ bytes (line_of fs)) ++ b) (NUL :: tl') (i + strlen (line_of fs)) 0 (k + length fs) r' end).
Proof.
  revert a tl i k r. induction fs as [|f [|g fs] IH]; intros a tl i k r Hfs Hp -> Htl; [done| |].
  - cbn [forallb] in Hp. apply andb_true_iff in Hp as [Hf _]. change (line_of [f]) with (f ++ chr 10)%string.
    rewrite bytes_app, string_length_app. change (bytes (chr 10)) with [Ascii.ascii_of_nat 10]. cbn [String.length chr].
    destruct (token_end f n (a ++ bytes f) (Ascii.ascii_of_nat 10) b "" tl (Z.of_nat (length (a ++ bytes f))) k r Hf ltac:(done) ltac:(done)
      ltac:(done) Htl) as (tl' & Hlen & Hlast & Heq).
    exists tl'. split; [lia|]. split; [done|]. rewrite <- !app_assoc, <- Nat.add_assoc, (token_skip f) by done. cbn [Nat.add each_token].
    change (bytes "") with (@nil ascii) in Heq. cbn [app] in Heq |- *.
    replace (Z.of_nat (length a) + Z.of_nat (String.length f)) with (Z.of_nat (length (a ++ bytes f))) by (rewrite length_app, bytes_length; lia).
    rewrite Z.add_0_l, Heq. destruct (on_token k f r) as [[e|r']|]; cbn [mbind ub_bind]; [done| |done].
    rewrite <- !app_assoc. f_equal; [|simpl; lia]. unfold strlen. rewrite string_length_app, length_app, bytes_length. simpl. lia.
  - cbn [forallb] in Hp. apply andb_true_iff in Hp as [Hf Hp]. rewrite line_of_cons.
    set (l := line_of (g :: fs)) in *. set (d := Ascii.ascii_of_nat 58).
    rewrite bytes_app, string_length_app. change (bytes (String d l)) with (d :: bytes l). cbn [String.length].
    destruct (token_end f (String.length l + n) (a ++ bytes f) d (bytes l ++ b) l tl (Z.of_nat (length (a ++ bytes f))) k r Hf
      ltac:(by apply line_no_nul) ltac:(done) ltac:(done) Htl) as (tl1 & Hlen1 & Hlast1 & Heq).
    assert (Hstep : forall r', exists tl', (0 < length tl')%nat /\ last tl' = last tl /\
      token_loop (String.length l + n) (((a ++ bytes f) ++ [d]) ++ bytes l ++ b) (bytes l ++ NUL :: tl1)
        (Z.of_nat (length (a ++ bytes f)) + 1) 0 (S k) r' =
      (r1 ← each_token (S k) (g :: fs) r'; match r1 with inl e => Ok (inl e) | inr r' =>
        token_loop n ((((a ++ bytes f) ++ [d]) ++ bytes l) ++ b) (NUL :: tl') (Z.of_nat (length (a ++ bytes f)) + 1 + strlen l) 0
          (S k + length (g :: fs)) r' end)).
    { intros r'. destruct (IH ((a ++ bytes f) ++ [d]) tl1 (Z.of_nat (length (a ++ bytes f)) + 1) (S k) r') as (tl' & H1 & H2 & H3);
        [done|done|rewrite !length_app; simpl; lia|lia|]. exists tl'. by rewrite H2, Hlast1. }
    rewrite each_token_cons. replace (S (String.length l)) with (1 + String.length l)%nat by lia.
    rewrite <- Nat.add_assoc, <- Nat.add_assoc, <- !app_assoc, (token_skip f) by done.
    replace (Z.of_nat (length a) + Z.of_nat (String.length f)) with (Z.of_nat (length (a ++ bytes f))) by (rewrite length_app, bytes_length; lia).
    cbn [Nat.add app]. rewrite Z.add_0_l. cbn [app] in Heq. rewrite Heq. destruct (on_token k f r) as [[e|r']|]; cbn [mbind ub_bind].
    + exists tl. by split; [|split].
    + destruct (Hstep r') as (tl' & H1 & H2 & H3). exists tl'. split; [done|]. split; [done|]. rewrite H3.
      destruct (each_token (S k) (g :: fs) r') as [[e|r'']|]; cbn [mbind ub_bind]; [done| |done].
      rewrite <- !app_assoc. cbn [app length]. f_equal; [|lia]. unfold strlen. rewrite string_length_app, length_app, bytes_length. simpl. lia.
    + exists tl. by split; [|split].
Qed.

Lemma mem_string_last b : last b = Some NUL -> exists s, mem_string b = Ok s /\ (String.length s < length b)%nat.
Proof.
  induction b as [|c b IH]; [done|]. intros Hl. cbn [mem_string]. destruct (Ascii.eqb_spec c NUL) as [->|Hc]; [exists ""; simpl; split; [done|lia]|].
  destruct b as [|c' b]; [by injection Hl as ->|]. destruct IH as (s & -> & Hs); [done|]. exists (String c s). simpl in *. split; [done|lia].
Qed.

(** One of the two turns behind the line. *)
Lemma token_extra n msg tok i k r : last tok = Some NUL -> (1 < length tok)%nat -> 0 <= i < Z.of_nat (length msg) ->
  (forall t, on_token k t r = Ok (inr r)) ->
  exists tok' k' j', last tok' = Some NUL /\ length tok' = length tok /\ (j' = 0 /\ k' = S k \/ j' = 1 /\ k' = k /\ exists c, mem_get msg i = Ok c /\ is_sep c = false) /\
  token_loop (S n) msg tok i 0 k r = token_loop n msg tok' (i + 1) j' k' r.
Proof.
  intros Hl Hlen Hi Hon. cbn [token_loop]. unfold mem_get. rewrite (proj2 (Z.ltb_ge _ _)) by lia.
  destruct (lookup_lt_is_Some_2 msg (Z.to_nat i)) as [c Hc]; [lia|]. rewrite Hc. cbn [mbind ub_bind].
  destruct (is_sep c) eqn:Hs; [|exists tok, k, 1; split_and!; try done; right; split_and!; try done; by exists c].
  destruct tok as [|x tok]; [simpl in *; lia|]. rewrite array_set_in by (simpl; lia). change (<[Z.to_nat 0:=NUL]> (x :: tok)) with (NUL :: tok).
  cbn [mbind ub_bind mem_string]. rewrite Ascii.eqb_refl. cbn [mbind ub_bind]. rewrite Hon. cbn [mbind ub_bind]. unfold strcpy_down.
  assert (Hl' : last tok = Some NUL) by (destruct tok; [simpl in *; lia|done]).
  change (drop (Z.to_nat (0 + 1)) (NUL :: tok)) with tok. destruct (mem_string_last tok Hl') as (s & -> & Hs').
  cbn [mbind ub_bind]. exists (read_into s (NUL :: tok)), (S k), 0. unfold read_into. split_and!; [| |by left|done].
  - rewrite last_app_cons, last_cons. rewrite last_drop_lt by (simpl; lia). destruct tok; [simpl in *; lia|]. by rewrite last_cons_cons, Hl'.
  - rewrite length_app, bytes_length. cbn [length]. rewrite length_drop. simpl. lia.
Qed.

(** A line of pieces in the array of the message gives its pieces, when the empty ones
    behind it do nothing. *)
Lemma tokens_line fs junk r : fs <> [] -> forallb plain_text fs = true -> strlen (line_of fs) < 79 ->
  (String.length (line_of fs) + 1 + length junk = MSG)%nat ->
  (forall r' k t, (length fs <= k)%nat -> on_token k t r' = Ok (inr r')) ->
  tokens (bytes (line_of fs) ++ NUL :: junk) r = each_token 0 fs r.
Proof.
  intros Hfs Hp Hlen Hj Hon. set (l := line_of fs) in *.
  unfold tokens. rewrite mem_string_bytes by (by apply line_no_nul). cbn [mbind ub_bind].
  unfold read_into. rewrite drop_replicate. set (tl := replicate (MSG - (String.length l + 1)) NUL).
  unfold strlen, MSG in *.
  assert (Htl : last (NUL :: tl) = Some NUL /\ (0 < length tl)%nat).
  { subst tl. rewrite length_replicate. split; [|lia].
    by rewrite replicate_cons_app, last_snoc. }
  destruct (token_fields fs 2 [] (NUL :: junk) tl 0 0 r Hfs Hp eq_refl (proj2 Htl)) as (tl' & Hlen' & Hlast & Heq).
  fold l in Heq. cbn [app] in Heq. rewrite Heq. destruct (each_token 0 fs r) as [[e|r']|]; cbn [mbind ub_bind]; [done| |done].
  rewrite Z.add_0_l, Nat.add_0_l. unfold strlen.
  destruct (token_extra 1 (bytes l ++ NUL :: junk) (NUL :: tl') (Z.of_nat (String.length l)) (length fs) r')
    as (tok1 & k1 & j1 & Hl1 & Hlen1 & Hcase & ->).
  { rewrite last_cons, Hlast. destruct Htl as [Htl Htl0]. rewrite last_cons in Htl. destruct tl; [simpl in *; lia|]. by destruct (last _). }
  { simpl. lia. } { rewrite length_app, bytes_length. simpl. lia. } { intros t. by apply Hon. }
  destruct Hcase as [[-> ->]|(_ & _ & c & Hc & Hs)].
  2:{ rewrite <- (bytes_length l), mem_get_app in Hc. by injection Hc as <-. }
  destruct (token_extra 0 (bytes l ++ NUL :: junk) tok1 (Z.of_nat (String.length l) + 1) (S (length fs)) r')
    as (tok2 & k2 & j2 & _ & _ & _ & ->); [done|simpl in *; lia|rewrite length_app, bytes_length; simpl; lia|intros t; apply Hon; lia|].
  done.
Qed.

End Tokens.
