(* ===== verification/RpsClient.v ===== *)
(** * The client of the game protocol ([src/4.Game-Protocol/rpsclient.c])

    A client asks the server for an opponent, plays rock, paper, scissors with it over a
    connection of their own, and reports who won.  What the sockets give is an input: the
    lines that [fgets] returns, with none left when the other side has closed. *)

From stdpp Require Import pretty list_numbers.
From S2P Require Import Prelude CText RpsText.

#[local] Open Scope string_scope.
#[local] Open Scope list_scope.
#[local] Open Scope Z_scope.

(** ** The arguments *)

Definition check_name (s : string) : bool := forallb (fun c => isalpha c || isdigit c) (bytes s).
Definition check_digits (s : string) : bool := forallb isdigit (bytes s).

(** The name, the number of matches and the port, or the exit code. *)
Definition check_args (args : list string) : ub (Z + (string * Z * string)) :=
  match args with
  | name :: matches :: port :: _ =>
      if negb (check_name name) then Ok (inl 2) else
      '(check_it, num_matches) ← sscanf_d matches;
      if negb (check_it =? 1) || (num_matches <? 1) then Ok (inl 3) else
      if negb (check_digits port) then Ok (inl 4) else
      '(check_it, port_i) ← sscanf_d port;
      if negb (check_it =? 1) || (100000 <=? port_i) then Ok (inl 4) else Ok (inr (name, num_matches, port))
  | _ => Ok (inl 1)
  end.

(** ** The opponent *)

Record enemy := Enemy { match_id : option Z; name : option string; port : option string }.

(** [atoi], which gives 0 when there is no number. *)
Definition atoi (s : string) : ub Z := r ← scan_d s; Ok (match r with Some (v, _) => v | None => 0 end).

Definition match_token (n : nat) (t : string) (e : enemy) : ub (Z + enemy) :=
  match n with
  | 0%nat => Ok (if String.eqb "MATCH" t then inr e else inl 4)
  | 1%nat => v ← atoi t; Ok (inr (Enemy (Some v) (name e) (port e)))
  | 2%nat => s ← strcpy_to 10 t; Ok (inr (Enemy (match_id e) (Some s) (port e)))
  | 3%nat => s ← strcpy_to 10 t; Ok (inr (Enemy (match_id e) (name e) (Some s)))
  | _ => Ok (inr e)
  end.

(** The answer of the server: the opponent, or an exit code. *)
Definition parse_match (buffer : list ascii) : ub (Z + enemy) :=
  s ← mem_string buffer;
  if String.eqb s "" then Ok (inl 4) else
  if String.eqb s ("BADNAME" ++ chr 10)%string then Ok (inl 2) else
  tokens match_token buffer (Enemy None None None).

(** ** The game *)

Definition ROCK : Z := 0.
Definition PAPER : Z := 1.
Definition SCISSORS : Z := 2.

(** What a turn adds to [status]. *)
Definition score (move_val enemy_move : Z) : Z :=
  if (move_val =? ROCK) && (enemy_move =? PAPER) then -1
  else if (move_val =? ROCK) && (enemy_move =? SCISSORS) then 1
  else if (move_val =? PAPER) && (enemy_move =? ROCK) then 1
  else if (move_val =? PAPER) && (enemy_move =? SCISSORS) then -1
  else if (move_val =? SCISSORS) && (enemy_move =? ROCK) then -1
  else if (move_val =? SCISSORS) && (enemy_move =? PAPER) then 1
  else 0.

(** Whether a turn sets [done]: not where scissors lose. *)
Definition decides (move_val enemy_move : Z) : bool :=
  negb (score move_val enemy_move =? 0) && negb ((move_val =? SCISSORS) && (enemy_move =? ROCK)).

Definition move_line (m : Z) : string := (pretty m ++ chr 10)%string.

(** What a game keeps: [status], [enemy_move], the calls of [rand], the lines to come and
    those that were written. *)
Record round := Round { status : Z; enemy_move : Z; rnd : nat; lines : list string; written : list string }.

Section Client.
Context (rand : nat -> Z).

(** The moves of one turn, and the round after it but for [status].  At the end of the
    lines [msg] still holds the client's own move. *)
Definition exchange (r : round) : ub (Z * Z * round) :=
  let move_val := Z.rem (rand (rnd r)) 3 in
  let msg := match lines r with l :: _ => l | [] => move_line move_val end in
  '(n, v) ← sscanf_d msg;
  let en := if n =? 1 then v else enemy_move r in
  Ok (move_val, en, Round (status r) en (S (rnd r)) (tail (lines r)) (written r ++ [move_line move_val])).

Definition add_status (d : Z) (r : round) : round :=
  Round (status r + d) (enemy_move r) (rnd r) (lines r) (written r).

(** The first loop. *)
Fixpoint first_turns (n : nat) (r : round) : ub round :=
  match n with
  | O => Ok r
  | S n' => '(mv, en, r1) ← exchange r; first_turns n' (add_status (score mv en) r1)
  end.

(** The second one, until [done]. *)
Fixpoint last_turns (n : nat) (r : round) : ub round :=
  match n with
  | O => Ok r
  | S n' =>
      '(mv, en, r1) ← exchange r;
      let r2 := add_status (score mv en) r1 in
      if decides mv en then Ok r2 else last_turns n' r2
  end.

(** A match, from call [k] of [rand]. *)
Definition play_match (k : nat) (ls : list string) : ub round :=
  r ← first_turns 5 (Round 0 (-1) k ls []);
  if status r =? 0 then last_turns 15 r else Ok r.

(** [result] and [res_msg]. *)
Definition result_of (own other : string) (st : Z) : ub (string * string) :=
  if st =? 0 then Ok ("TIE", "TIE")
  else if 0 <? st then s ← strcpy_to 10 own; Ok (s, "WIN")
  else s ← strcpy_to 10 other; Ok (s, "LOST").

(** ** The program *)

Inductive effect := ToServer (s : string) | ToPeer (s : string) | Stdout (s : string).

(** What the sockets give in a match: the line of the server with what [buffer] had, and
    the lines of the opponent unless the connection fails. *)
Record inputs := Inputs { in_buffer : list ascii; in_peer : option (list string) }.

Definition strcat_to (n : Z) (a b : string) : ub string := strcpy_to n (a ++ b).

(** [snprintf(finish, 49, ...)]. *)
Definition finish_line (id : Z) (other res_msg : string) : string :=
  strlcpy 49 (pretty id ++ " " ++ other ++ " " ++ res_msg ++ chr 10)%string.

(** A turn of the loop over the matches: what is sent, and the exit code or the calls of
    [rand] and [ending_message]. *)
Definition one_match (own own_port : string) (k : nat) (ending : string) (i : inputs) :
    ub (list effect * (Z + nat * string)) :=
  let ask := ToServer ("MR:" ++ own ++ ":" ++ own_port ++ chr 10)%string in
  e ← parse_match (in_buffer i);
  match e with
  | inl code => Ok ([ask], inl code)
  | inr e =>
      match in_peer i with
      | None => Ok ([ask], inl 3)
      | Some ls =>
          r ← play_match k ls;
          other ← (match name e with Some s => Ok s | None => UB uninitialized end);
          id ← (match match_id e with Some v => Ok v | None => UB uninitialized end);
          '(result, res_msg) ← result_of own other (status r);
          ending' ← strcat_to 1024 ending (finish_line id other res_msg);
          Ok (ask :: (ToPeer <$> written r) ++ [ToServer ("RESULT:" ++ pretty id ++ ":" ++ result ++ chr 10)%string],
              inr (rnd r, ending'))
      end
  end.

(** The loop over the matches, one for each of the inputs: what is sent and the exit code,
    [None] while it waits. *)
Fixpoint matches_loop (num_matches : nat) (own own_port : string) (k : nat) (ending : string) (ins : list inputs) :
    ub (list effect * option Z) :=
  match num_matches with
  | O => Ok ([Stdout (ending ++ chr 0)%string], Some 0)
  | S n =>
      match ins with
      | [] => Ok ([ToServer ("MR:" ++ own ++ ":" ++ own_port ++ chr 10)%string], None)
      | i :: ins' =>
          '(out, r) ← one_match own own_port k ending i;
          match r with
          | inl code => Ok (out, Some code)
          | inr (k', ending') => '(out', c) ← matches_loop n own own_port k' ending' ins'; Ok (out ++ out', c)
          end
      end
  end.

End Client.

(** ** Proofs *)

Lemma score_opposite a b : score b a = - score a b.
Proof.
  unfold score, ROCK, PAPER, SCISSORS.
  destruct (Z.eqb_spec a 0), (Z.eqb_spec a 1), (Z.eqb_spec a 2), (Z.eqb_spec b 0), (Z.eqb_spec b 1), (Z.eqb_spec b 2); subst; done || lia.
Qed.

Lemma score_same a : score a a = 0.
Proof. pose proof (score_opposite a a). lia. Qed.

(** What the winner of a turn is: one more than the other, modulo 3. *)
Lemma score_mod a b : 0 <= a < 3 -> 0 <= b < 3 -> score a b = (if (a - b) mod 3 =? 0 then 0 else if (a - b) mod 3 =? 1 then 1 else -1).
Proof.
  intros Ha Hb. assert (a = 0 \/ a = 1 \/ a = 2) as [-> |[-> | ->]] by lia; assert (b = 0 \/ b = 1 \/ b = 2) as [-> |[-> | ->]] by lia; done.
Qed.

Definition is_move (m : Z) : Prop := 0 <= m < 3.

Lemma sscanf_move m : is_move m -> sscanf_d (move_line m) = Ok (1, m).
Proof. intros Hm. assert (m = 0 \/ m = 1 \/ m = 2) as [-> |[-> | ->]] by (unfold is_move in Hm; lia); by vm_compute. Qed.

Section Game.
Context (rA rB : nat -> Z) (HA : forall k, 0 <= rA k) (HB : forall k, 0 <= rB k).

Definition move (r : nat -> Z) (k : nat) : Z := Z.rem (r k) 3.

Lemma move_ok (r : nat -> Z) k : (forall k, 0 <= r k) -> is_move (move r k).
Proof. intros Hr. unfold is_move, move. apply Z.rem_bound_pos; [apply Hr|lia]. Qed.

(** The moves from call [k], as lines. *)
Definition moves_of (r : nat -> Z) (k n : nat) : list string := (fun i => move_line (move r i)) <$> seq k n.

(** A turn with the line of the other, and one without. *)
Lemma exchange_line (r : nat -> Z) st en k m ls w : (forall k, 0 <= r k) -> is_move m ->
  exchange r (Round st en k (move_line m :: ls) w) = Ok (move r k, m, Round st m (S k) ls (w ++ [move_line (move r k)])).
Proof. intros Hr Hm. unfold exchange. cbn [lines rnd]. by rewrite (sscanf_move m Hm). Qed.

Lemma exchange_end (r : nat -> Z) st en k w : (forall k, 0 <= r k) ->
  exchange r (Round st en k [] w) = Ok (move r k, move r k, Round st (move r k) (S k) [] (w ++ [move_line (move r k)])).
Proof. intros Hr. unfold exchange. cbn [lines rnd]. fold (move r k). by rewrite (sscanf_move _ (move_ok r k Hr)). Qed.

(** The sum of [n] turns, when the clients start from calls [a] and [b]. *)
Fixpoint total (rA rB : nat -> Z) (n a b : nat) : Z :=
  match n with O => 0 | S n' => score (move rA a) (move rB b) + total rA rB n' (S a) (S b) end.

(** The first of [n] turns that is no tie. *)
Fixpoint decider (rA rB : nat -> Z) (n a b : nat) : Z :=
  match n with
  | O => 0
  | S n' => let s := score (move rA a) (move rB b) in if s =? 0 then decider rA rB n' (S a) (S b) else s
  end.

(** How many moves a client makes of [n]: the loser with scissors goes on to the end. *)
Fixpoint turns_made (rA rB : nat -> Z) (n a b : nat) : nat :=
  match n with
  | O => 0
  | S n' => let s := score (move rA a) (move rB b) in
      if s =? 0 then S (turns_made rA rB n' (S a) (S b)) else if decides (move rA a) (move rB b) then 1%nat else n
  end.

Definition winner (rA rB : nat -> Z) (a b : nat) : Z :=
  let s := total rA rB 5 a b in if s =? 0 then decider rA rB 15 (5 + a) (5 + b) else s.
Definition turns (rA rB : nat -> Z) (a b : nat) : nat :=
  if total rA rB 5 a b =? 0 then (5 + turns_made rA rB 15 (5 + a) (5 + b))%nat else 5%nat.

End Game.

Lemma total_opposite rA rB n a b : total rB rA n b a = - total rA rB n a b.
Proof. revert a b. induction n as [|n IH]; intros a b; [done|]. cbn [total]. rewrite (score_opposite (move rA a)), IH. lia. Qed.

Lemma decider_opposite rA rB n a b : decider rB rA n b a = - decider rA rB n a b.
Proof.
  revert a b. induction n as [|n IH]; intros a b; [done|]. cbn [decider]. rewrite (score_opposite (move rA a)).
  destruct (Z.eqb_spec (score (move rA a) (move rB b)) 0) as [->|Hs]; [apply IH|]. by rewrite (proj2 (Z.eqb_neq _ _)) by lia.
Qed.

Lemma winner_opposite rA rB a b : winner rB rA b a = - winner rA rB a b.
Proof.
  unfold winner. rewrite (total_opposite rA rB). destruct (Z.eqb_spec (total rA rB 5 a b) 0) as [->|Hs]; [apply decider_opposite|].
  by rewrite (proj2 (Z.eqb_neq _ _)) by lia.
Qed.

Section Sides.
Context (rA rB : nat -> Z) (HA : forall k, 0 <= rA k) (HB : forall k, 0 <= rB k).

Lemma moves_of_S r k n : moves_of r k (S n) = move_line (move r k) :: moves_of r (S k) n.
Proof. done. Qed.

Lemma first_turns_spec n st en a b ls w :
  exists en', first_turns rA n (Round st en a (moves_of rB b n ++ ls) w) =
    Ok (Round (st + total rA rB n a b) en' (n + a) ls (w ++ moves_of rA a n)).
Proof.
  revert st en a b w. induction n as [|n IH]; intros st en a b w.
  { exists en. cbn. by rewrite Z.add_0_r, app_nil_r. }
  rewrite (moves_of_S rB). cbn [first_turns app]. rewrite exchange_line by (try apply move_ok; done). cbn [mbind ub_bind].
  destruct (IH (st + score (move rA a) (move rB b)) (move rB b) (S a) (S b) (w ++ [move_line (move rA a)])) as [en' Heq].
  exists en'. unfold add_status. cbn [status enemy_move rnd lines written]. rewrite Heq. do 2 f_equal; [cbn [total]; lia|lia|].
  by rewrite (moves_of_S rA), <- app_assoc.
Qed.

Lemma last_turns_end n st en a w :
  exists en', last_turns rA n (Round st en a [] w) = Ok (Round st en' (n + a) [] (w ++ moves_of rA a n)).
Proof.
  revert en a w. induction n as [|n IH]; intros en a w; [exists en; by rewrite app_nil_r|].
  cbn [last_turns]. rewrite exchange_end by done. cbn [mbind ub_bind]. unfold decides, add_status.
  rewrite score_same. cbn [status enemy_move rnd lines written negb Z.eqb andb]. rewrite Z.add_0_r.
  destruct (IH (move rA a) (S a) (w ++ [move_line (move rA a)])) as [en' ->]. exists en'.
  rewrite (moves_of_S rA), <- app_assoc. do 2 f_equal. lia.
Qed.

Lemma last_turns_spec n en a b w :
  exists en' k' ls', last_turns rA n (Round 0 en a (moves_of rB b (turns_made rB rA n b a)) w) =
    Ok (Round (decider rA rB n a b) en' k' ls' (w ++ moves_of rA a (turns_made rA rB n a b))).
Proof.
  revert en a b w. induction n as [|n IH]; intros en a b w; [exists en, a, []; by rewrite app_nil_r|].
  cbn [turns_made decider]. rewrite (score_opposite (move rA a)).
  set (s := score (move rA a) (move rB b)). destruct (Z.eqb_spec s 0) as [Hs|Hs].
  - rewrite Hs. change (- 0 =? 0) with true. cbv iota. rewrite (moves_of_S rB). cbn [last_turns]. rewrite exchange_line by (try apply move_ok; done).
    cbn [mbind ub_bind]. unfold decides, add_status. fold s. rewrite Hs, Z.add_0_r. cbn [status enemy_move rnd lines written negb Z.eqb andb].
    destruct (IH (move rB b) (S a) (S b) (w ++ [move_line (move rA a)])) as (en' & k' & ls' & ->).
    exists en', k', ls'. by rewrite (moves_of_S rA), <- app_assoc.
  - rewrite (proj2 (Z.eqb_neq (- s) 0)) by lia.
    assert (Hm : exists ms, moves_of rB b (if decides (move rB b) (move rA a) then 1%nat else S n) = move_line (move rB b) :: ms /\
        (decides (move rA a) (move rB b) = false -> ms = [])).
    { destruct (decides (move rB b) (move rA a)) eqn:Hd; rewrite moves_of_S; eexists; (split; [reflexivity|]); [done|].
      intros Hda. exfalso. unfold decides in Hd, Hda. rewrite (score_opposite (move rA a)) in Hd. fold s in Hd, Hda.
      rewrite (proj2 (Z.eqb_neq (- s) 0)) in Hd by lia. rewrite (proj2 (Z.eqb_neq s 0)) in Hda by lia. cbn [negb andb] in Hd, Hda.
      apply negb_false_iff, andb_true_iff in Hd as [H1%Z.eqb_eq H2%Z.eqb_eq]. by rewrite H1, H2 in Hda. }
    destruct Hm as (ms & -> & Hms). cbn [last_turns]. rewrite exchange_line by (try apply move_ok; done). cbn [mbind ub_bind].
    unfold add_status. fold s. cbn [status enemy_move rnd lines written]. rewrite Z.add_0_l.
    destruct (decides (move rA a) (move rB b)) eqn:Hd; [by do 3 eexists|]. rewrite Hms by done.
    destruct (last_turns_end n s (move rB b) (S a) (w ++ [move_line (move rA a)])) as [en' ->].
    exists en', (n + S a)%nat, []. by rewrite (moves_of_S rA), <- app_assoc.
Qed.

Lemma play_match_spec a b : exists en k ls,
  play_match rA a (moves_of rB b (turns rB rA b a)) = Ok (Round (winner rA rB a b) en k ls (moves_of rA a (turns rA rB a b))).
Proof.
  unfold play_match, turns, winner. rewrite (total_opposite rA rB).
  assert (Happ : forall r k n m, moves_of r k (n + m) = moves_of r k n ++ moves_of r (n + k) m)
    by (intros; unfold moves_of; by rewrite seq_app, fmap_app, Nat.add_comm).
  destruct (Z.eqb_spec (total rA rB 5 a b) 0) as [Ht|Ht].
  - rewrite Ht. change (- 0 =? 0) with true. cbv iota. rewrite !Happ. destruct (first_turns_spec 5 0 (-1) a b (moves_of rB (5 + b) (turns_made rB rA 15 (5 + b) (5 + a))) [])
      as [en ->]. cbn [mbind ub_bind status]. rewrite Ht. change (0 + 0 =? 0) with true. cbv iota. rewrite Z.add_0_l.
    destruct (last_turns_spec 15 en (5 + a) (5 + b) ([] ++ moves_of rA a 5)) as (en' & k' & ls' & ->). by do 3 eexists.
  - rewrite (proj2 (Z.eqb_neq (- _) 0)) by lia. destruct (first_turns_spec 5 0 (-1) a b [] []) as [en Heq].
    rewrite app_nil_r in Heq. rewrite Heq. cbn [mbind ub_bind status]. rewrite Z.add_0_l, (proj2 (Z.eqb_neq _ _) Ht). by do 3 eexists.
Qed.

End Sides.

(** C31: Two clients that play with each other agree: whatever their random moves, each can read
    what the other writes, the status of one is the negative of that of the other, the
    first non-tie after five turns decides, and both report the same winner to the server
    while one tells its player of a win and the other of a loss. *)
Theorem match_agreed rA rB a b nA nB : (forall k, 0 <= rA k) -> (forall k, 0 <= rB k) -> strlen nA < 10 -> strlen nB < 10 ->
  let w := winner rA rB a b in
  exists r1 r2 mA mB, play_match rA a (written r2) = Ok r1 /\ play_match rB b (written r1) = Ok r2 /\
    status r1 = w /\ status r2 = - w /\
    let name := if w =? 0 then "TIE" else if 0 <? w then nA else nB in
    result_of nA nB (status r1) = Ok (name, mA) /\ result_of nB nA (status r2) = Ok (name, mB) /\
    (mA, mB) = if w =? 0 then ("TIE", "TIE") else if 0 <? w then ("WIN", "LOST") else ("LOST", "WIN").
Proof.
  intros HA HB HnA HnB. cbv zeta. destruct (play_match_spec rA rB HA HB a b) as (e1 & k1 & l1 & H1).
  destruct (play_match_spec rB rA HB HA b a) as (e2 & k2 & l2 & H2).
  exists (Round (winner rA rB a b) e1 k1 l1 (moves_of rA a (turns rA rB a b))),
    (Round (winner rB rA b a) e2 k2 l2 (moves_of rB b (turns rB rA b a))), (if winner rA rB a b =? 0 then "TIE" else if 0 <? winner rA rB a b then "WIN" else "LOST"),
    (if winner rA rB a b =? 0 then "TIE" else if 0 <? winner rA rB a b then "LOST" else "WIN").
  split; [exact H1|]. split; [exact H2|]. split; [done|]. cbn [status]. rewrite (winner_opposite rA rB). split; [done|].
  unfold result_of, strcpy_to. rewrite (proj2 (Z.ltb_lt _ _) HnA), (proj2 (Z.ltb_lt _ _) HnB).
  set (w := winner rA rB a b). destruct (Z.eqb_spec w 0) as [->|Hw]; [done|]. rewrite (proj2 (Z.eqb_neq (- w) 0)) by lia.
  destruct (Z.ltb_spec 0 w) as [Hp|Hp]; [rewrite (proj2 (Z.ltb_ge 0 (- w))) by lia|rewrite (proj2 (Z.ltb_lt 0 (- w))) by lia]; done.
Qed.

(** Scissors against rock after a tie: the loser goes on alone for the rest of the turns. *)
Lemma match_agreed_witness :
  let rA := fun k : nat => 2 in let rB := fun k => if (k <? 5)%nat then 2 else 0 in
  turns rA rB 0 0 = 20%nat /\ turns rB rA 0 0 = 6%nat /\
  exists r1 r2 mA mB, play_match rA 0 (written r2) = Ok r1 /\ play_match rB 0 (written r1) = Ok r2 /\
    status r1 = -1 /\ status r2 = 1 /\ result_of "ann" "bob" (status r1) = Ok ("bob", mA) /\
    result_of "bob" "ann" (status r2) = Ok ("bob", mB) /\ (mA, mB) = ("LOST", "WIN").
Proof.
  cbv zeta. split; [vm_compute; reflexivity|]. split; [vm_compute; reflexivity|].
  exact (match_agreed (fun _ => 2) (fun k => if (k <? 5)%nat then 2 else 0) 0 0 "ann" "bob" ltac:(done)
    ltac:(intros k; cbv beta; destruct (k <? 5)%nat; lia) ltac:(done) ltac:(done)).
Defined.
