(* ===== verification/RpsServer.v ===== *)
(** * The server of the game protocol ([src/4.Game-Protocol/rpsserver.c])

    A thread for each connection puts its player into the shared table, looks for an
    opponent in a loop, tells its client who that is, and counts the result that the client
    reports.  A thread holds the mutex while it enters the table, in each turn of the search
    and when it marks the end of a match; what it does between is a step of its own, so the
    steps of all threads can be taken in any order. *)

From stdpp Require Import pretty list_numbers.
From S2P Require Import Prelude CText RpsText RpsClient.

#[local] Open Scope string_scope.
#[local] Open Scope list_scope.
#[local] Open Scope Z_scope.

Definition WAITING : Z := 0.
Definition PLAYING : Z := 1.
Definition DEAD : Z := 2.
Definition ACTIVE : Z := 6.
Definition FINISH : Z := 7.

(** A pointer to a player is its index in the table; [None] in a string is an array that was
    not written. *)
Record player := Player {
  p_id : Z; p_name : option string; p_port : option string; p_status : Z; p_match_id : Z; p_enemy : option nat;
  p_stats : Z * Z * Z;
}.

Record match_ := Match { m_p1 : nat; m_p2 : nat; m_status : Z; m_id : Z }.

(** [playerInformation]: [total_players] and [total_matches] are the lengths of the lists;
    match 0 is never written. *)
Record server := Server { players : list player; matches : list (option match_); active : Z; active_matches : Z }.

Definition MAX_PLAYERS : nat := 1000.
Definition MAX_MATCHES : nat := 500.

(** [main] does not set [active_matches]. *)
Definition server_init (junk : Z) : server := Server [] [None] 0 junk.

Definition init {A} (x : option A) : ub A := match x with Some a => Ok a | None => UB uninitialized end.

Definition player_at (s : server) (i : nat) : ub player := match players s !! i with Some p => Ok p | None => UB out_of_bounds end.
Definition set_player (i : nat) (f : player -> player) (s : server) : server :=
  Server (alter f i (players s)) (matches s) (active s) (active_matches s).

Definition with_status (st : Z) (p : player) : player :=
  Player (p_id p) (p_name p) (p_port p) st (p_match_id p) (p_enemy p) (p_stats p).
Definition with_port (pt : option string) (p : player) : player :=
  Player (p_id p) (p_name p) pt (p_status p) (p_match_id p) (p_enemy p) (p_stats p).
Definition with_match (m : Z) (e : option nat) (p : player) : player :=
  Player (p_id p) (p_name p) (p_port p) (p_status p) m e (p_stats p).
Definition with_stats (st : Z * Z * Z) (p : player) : player :=
  Player (p_id p) (p_name p) (p_port p) (p_status p) (p_match_id p) (p_enemy p) st.

(** ** The request *)

Definition request_token (n : nat) (t : string) (r : option string * option string) :
    ub (Z + option string * option string) :=
  match n with
  | 1%nat => s ← strcpy_to 10 t; Ok (inr (Some s, r.2))
  | 2%nat => s ← strcpy_to 10 t; Ok (inr (r.1, Some s))
  | _ => Ok (inr r)
  end.

(** The name and the port of a request; another first piece than [MR] is let pass. *)
Definition parse_request (msg : list ascii) : ub (option string * option string) :=
  r ← tokens request_token msg (None, None); Ok (match r with inr x => x | inl _ => (None, None) end).

(** The loop over the table: [None] for a name that is taken, else the player that has it
    and is dead. *)
Fixpoint name_loop (ps : list player) (i : nat) (nm : option string) (found : option nat) : ub (option (option nat)) :=
  match ps with
  | [] => Ok (Some found)
  | p :: ps' =>
      a ← init (p_name p); b ← init nm;
      if String.eqb a b then
        if p_status p =? DEAD then name_loop ps' (S i) nm (Some i) else Ok None
      else name_loop ps' (S i) nm found
  end.

Definition new_player (s : server) (nm pt : option string) : player :=
  Player (Z.of_nat (length (players s))) nm pt WAITING (-1) None (0, 0, 0).

(** The first critical section: the player of the connection, or none. *)
Definition register (s : server) (nm pt : option string) : ub (server * option nat) :=
  r ← name_loop (players s) 0 nm None;
  match r with
  | None => Ok (s, None)
  | Some None =>
      if (MAX_PLAYERS <=? length (players s))%nat then UB out_of_bounds else
      Ok (Server (players s ++ [new_player s nm pt]) (matches s) (active s + 1) (active_matches s), Some (length (players s)))
  | Some (Some i) => port ← init pt; Ok (set_player i (fun p => with_port (Some port) (with_status WAITING p)) s, Some i)
  end.

(** ** The search *)

(** Player [p] takes player [i] as its opponent. *)
Definition pair_up (p i : nat) (s : server) : ub server :=
  let m := length (matches s) in
  if (MAX_MATCHES <=? m)%nat then UB out_of_bounds else
  let s1 := Server (players s) (matches s ++ [Some (Match p i ACTIVE (Z.of_nat m))]) (active s - 2) (active_matches s + 1) in
  let engage e := fun q => with_match (Z.of_nat m) (Some e) (with_status PLAYING q) in
  Ok (set_player i (engage p) (set_player p (engage i) s1)).

(** The loop over the table from [i], for [n] turns; it goes on after a match was found. *)
Fixpoint search_loop (n i : nat) (p : nat) (s : server) (found : option (nat * nat)) : ub (server * option (nat * nat)) :=
  match n with
  | O => Ok (s, found)
  | S n' =>
      q ← player_at s i; me ← player_at s p;
      if negb (p_id q =? p_id me) && (p_status q =? WAITING) then
        s' ← pair_up p i s; search_loop n' (S i) p s' (Some (i, length (matches s)))
      else search_loop n' (S i) p s found
  end.

Definition match_at (s : server) (m : Z) : ub nat :=
  if m <? 0 then UB out_of_bounds
  else match matches s !! Z.to_nat m with Some (Some _) => Ok (Z.to_nat m) | _ => UB uninitialized end.

(** The second critical section: the opponent and the match, if there is one. *)
Definition search_once (s : server) (p : nat) : ub (server * option (nat * nat)) :=
  me ← player_at s p;
  match p_enemy me with
  | Some e => m ← match_at s (p_match_id me); Ok (s, Some (e, m))
  | None => if 0 <? active s - 1 then search_loop (length (players s)) 0 p s None else Ok (s, None)
  end.

(** ** The match *)

Definition match_of (s : server) (m : nat) : ub match_ :=
  match matches s !! m with Some (Some x) => Ok x | _ => UB uninitialized end.

(** [snprintf(msg_to, 79, "MATCH:%d:%s:%s\n", ...)]. *)
Definition match_message (s : server) (p m : nat) : ub string :=
  x ← match_of s m;
  me ← player_at s p; e ← deref (p_enemy me); q ← player_at s e;
  nm ← init (p_name q); pt ← init (p_port q);
  Ok (strlcpy 79 ("MATCH:" ++ pretty (m_id x) ++ ":" ++ nm ++ ":" ++ pt ++ chr 10)%string).

Definition result_token (n : nat) (t : string) (win : string) : ub (Z + string) :=
  match n with 2%nat => s ← strcpy_to 20 t; Ok (inr s) | _ => Ok (inr win) end.

Definition parse_result (msg : list ascii) : ub string :=
  r ← tokens result_token msg ""; Ok (match r with inr x => x | inl _ => "" end).

Definition count_result (win : string) (s : server) (p : nat) : ub server :=
  me ← player_at s p; nm ← init (p_name me);
  let '(won, lost, tie) := p_stats me in
  let st := if String.eqb nm win then (won + 1, lost, tie)
            else if String.eqb win "TIE" then (won, lost, tie + 1) else (won, lost + 1, tie) in
  Ok (set_player p (with_stats st) s).

(** The third critical section. *)
Definition finish (s : server) (p m : nat) : ub server :=
  x ← match_of s m;
  let am := if m_status x =? ACTIVE then active_matches s - 1 else active_matches s in
  let s1 := Server (players s) (<[m := Some (Match (m_p1 x) (m_p2 x) FINISH (m_id x))]> (matches s)) (active s + 1) am in
  _ ← player_at s p;
  Ok (set_player p (with_status DEAD) s1).

(** The three statements that follow it without the mutex. *)
Definition unlink_enemy (s : server) (p : nat) : server := set_player p (fun q => with_match (p_match_id q) None q) s.
Definition unlink_match (s : server) (p : nat) : server := set_player p (fun q => with_match (-1) (p_enemy q) q) s.
Definition unlink_port (s : server) (p : nat) : server := set_player p (with_port (Some "")) s.

(** ** The threads *)

(** What a thread does next; [msg] is its [msg_from].  A critical section is one step, and so is a
    statement outside of the mutex that uses the table. *)
Inductive thread :=
  | Connected
  | Requested (msg : list ascii) (nm pt : option string)
  | Searching (msg : list ascii) (p : nat)
  | Matched (msg : list ascii) (p m : nat)
  | Playing (msg : list ascii) (p m : nat)
  | Reported (p m : nat)
  | Leaving (p : nat)
  | Unpaired (p : nat)
  | Unmatched (p : nat)
  | Ended.

(** [fgets(msg_from, 79, from)]: nothing is written at the end of the input. *)
Definition fgets_msg (line : option string) (msg : list ascii) : list ascii :=
  match line with Some l => read_into l msg | None => msg end.

(** A step of [handle_connection], with the line that its client sends where it reads one,
    and the text for its client. *)
Definition thread_step (s : server) (t : thread) (line : option string) : ub (server * thread * string) :=
  match t with
  | Connected =>
      let msg := fgets_msg line (replicate MSG NUL) in
      '(nm, pt) ← parse_request msg; Ok (s, Requested msg nm pt, "")
  | Requested msg nm pt =>
      '(s', r) ← register s nm pt;
      Ok (match r with Some p => (s', Searching msg p, "") | None => (s', Ended, ("BADNAME" ++ chr 10)%string) end)
  | Searching msg p =>
      '(s', r) ← search_once s p;
      Ok (s', match r with Some (_, m) => Matched msg p m | None => t end, "")
  | Matched msg p m => out ← match_message s p m; Ok (s, Playing msg p m, out)
  | Playing msg p m =>
      let msg' := fgets_msg line msg in
      win ← parse_result msg'; s' ← count_result win s p; Ok (s', Reported p m, "")
  | Reported p m => s' ← finish s p m; Ok (s', Leaving p, "")
  | Leaving p => Ok (unlink_enemy s p, Unpaired p, "")
  | Unpaired p => Ok (unlink_match s p, Unmatched p, "")
  | Unmatched p => Ok (unlink_port s p, Ended, "")
  | Ended => Ok (s, Ended, "")
  end.

(** The server and its threads, in the order in which they were created. *)
Record system := System { srv : server; threads : list thread }.

Inductive event := Accept | Run (k : nat) (line : option string).

Definition sys_step (y : system) (e : event) : ub (system * list (nat * string)) :=
  match e with
  | Accept => Ok (System (srv y) (threads y ++ [Connected]), [])
  | Run k line =>
      match threads y !! k with
      | None => Ok (y, [])
      | Some t => '(s', t', out) ← thread_step (srv y) t line; Ok (System s' (<[k := t']> (threads y)), [(k, out)])
      end
  end.

Fixpoint run_sys (y : system) (es : list event) : ub (system * list (nat * string)) :=
  match es with
  | [] => Ok (y, [])
  | e :: es' => '(y1, o1) ← sys_step y e; '(y2, o2) ← run_sys y1 es'; Ok (y2, o1 ++ o2)
  end.

Definition start (junk : Z) : system := System (server_init junk) [].

(** ** The list of the players, on [SIGHUP] *)

(** The inner loop of the sort: the larger of two neighbours goes on. *)
Fixpoint sort_pass {A} (gt : A -> A -> bool) (x : A) (l : list A) : list A :=
  match l with
  | [] => [x]
  | y :: l' => if gt x y then y :: sort_pass gt x l' else x :: sort_pass gt y l'
  end.
Fixpoint sort_passes {A} (gt : A -> A -> bool) (n : nat) (l : list A) : list A :=
  match n with
  | O => l
  | S n' => sort_passes gt n' (match l with [] => [] | x :: l' => sort_pass gt x l' end)
  end.

Definition name_gt (a b : string * (Z * Z * Z)) : bool := 0 <? strcmp a.1 b.1.

Definition stats_line (x : string * (Z * Z * Z)) : string :=
  let '(nm, (won, lost, tie)) := x in
  (strlcpy 99 (nm ++ " " ++ pretty won ++ " " ++ pretty lost ++ " " ++ pretty tie ++ chr 10) ++ chr 0)%string.

Definition names_of (s : server) : ub (list (string * (Z * Z * Z))) :=
  foldr (fun p r => nm ← init (p_name p); l ← r; Ok ((nm, p_stats p) :: l)) (Ok []) (players s).

Definition handler (s : server) : ub (list string) :=
  arr ← names_of s;
  Ok ((stats_line <$> sort_passes name_gt (length arr - 1) arr) ++ [("---" ++ chr 10 ++ chr 0)%string]).

(** ** Proofs: the table *)

Lemma set_player_lookup i f s j :
  players (set_player i f s) !! j = (if decide (i = j) then f <$> players s !! j else players s !! j).
Proof. cbn [players set_player]. case_decide as Hij; [subst; apply list_lookup_alter_eq|by apply list_lookup_alter_ne]. Qed.

Lemma set_player_length i f s : length (players (set_player i f s)) = length (players s).
Proof. apply length_alter. Qed.

(** What no operation changes in an entry of the table. *)
Definition same_entry (p q : player) : Prop := p_id p = p_id q /\ p_name p = p_name q.
Definition same_table (s t : server) : Prop := Forall2 same_entry (players s) (players t).

#[local] Instance same_entry_refl : Reflexive same_entry.
Proof. by split. Qed.
#[local] Instance same_entry_trans : Transitive same_entry.
Proof. intros a b c [H1 H2] [H3 H4]. by split; etrans. Qed.
#[local] Instance same_table_refl : Reflexive same_table.
Proof. intros s. unfold same_table. reflexivity. Qed.
#[local] Instance same_table_trans : Transitive same_table.
Proof. intros a b c H1 H2. unfold same_table in *. by etrans. Qed.

Lemma same_players s t : players t = players s -> same_table s t.
Proof. unfold same_table. intros ->. reflexivity. Qed.

Lemma same_set_player i f s : (forall p, same_entry p (f p)) -> same_table s (set_player i f s).
Proof.
  intros Hf. unfold same_table. apply Forall2_same_length_lookup. split; [by rewrite set_player_length|].
  intros j p q Hp. rewrite set_player_lookup, Hp. case_decide; intros [= <-]; [apply Hf|done].
Qed.

(** How a step changes the table and the matches: no entry goes, but for the player [e]
    no player dies, and no match goes. *)
Definition evolves (e : option nat) (s t : server) : Prop :=
  (forall j p, players s !! j = Some p -> exists q, players t !! j = Some q /\ same_entry p q /\
    (e <> Some j -> p_status p <> DEAD -> p_status q <> DEAD)) /\
  (forall m x, matches s !! m = Some (Some x) -> exists x', matches t !! m = Some (Some x')).

#[local] Instance evolves_refl e : Reflexive (evolves e).
Proof. intros s. split; [|by eauto]. intros j p Hp. by exists p. Qed.
#[local] Instance evolves_trans e : Transitive (evolves e).
Proof.
  intros a b c [H1 H2] [H3 H4]. split.
  - intros j p Hp. destruct (H1 j p Hp) as (q & Hq & Hpq & Hd). destruct (H3 j q Hq) as (r & Hr & Hqr & Hd').
    exists r. split; [done|]. split; [by etrans|auto].
  - intros m x Hm. destruct (H2 m x Hm) as [x' Hx']. by apply (H4 m x').
Qed.

Lemma evolves_set e i f s : (forall p, same_entry p (f p)) ->
  (e = Some i \/ forall p, p_status p <> DEAD -> p_status (f p) <> DEAD) -> evolves e s (set_player i f s).
Proof.
  intros Hf Hd. split; [|by eauto]. intros j p Hp. rewrite set_player_lookup, Hp. case_decide as Hij.
  - exists (f p). subst j. split; [done|]. split; [done|]. destruct Hd as [->|Hd]; [done|auto].
  - by exists p.
Qed.

Lemma evolves_players e s t : players t = players s ->
  (forall m x, matches s !! m = Some (Some x) -> exists x', matches t !! m = Some (Some x')) -> evolves e s t.
Proof. intros Hp Hm. split; [|done]. rewrite Hp. intros j p Hj. by exists p. Qed.

Definition table_ok (s : server) : Prop :=
  NoDup (p_name <$> players s) /\ forall i p, players s !! i = Some p -> p_id p = Z.of_nat i.

(** The player that a thread works for, and its match. *)
Definition works_for (t : thread) : option nat :=
  match t with Searching _ p | Matched _ p _ | Playing _ p _ | Reported p _ => Some p | _ => None end.
Definition match_in (t : thread) : option nat :=
  match t with Matched _ _ m | Playing _ _ m | Reported _ m => Some m | _ => None end.

Definition threads_ok (s : server) (ts : list thread) : Prop :=
  (forall k t p, ts !! k = Some t -> works_for t = Some p -> exists q, players s !! p = Some q /\ p_status q <> DEAD) /\
  (forall k1 k2 t1 t2 p, ts !! k1 = Some t1 -> ts !! k2 = Some t2 -> works_for t1 = Some p -> works_for t2 = Some p -> k1 = k2) /\
  (forall k t m, ts !! k = Some t -> match_in t = Some m -> exists x, matches s !! m = Some (Some x)).

Lemma same_table_ok s t : same_table s t -> table_ok s -> table_ok t.
Proof.
  intros Ht [Hn Hi]. unfold same_table in Ht. split.
  - assert (p_name <$> players t = p_name <$> players s) as ->; [|done].
    clear Hn Hi. induction Ht as [|p q l l' [_ Hpq] _ IH]; [done|]. cbn. by rewrite Hpq, IH.
  - intros i q Hq. destruct (Forall2_lookup_r _ _ _ _ _ Ht Hq) as (p & Hp & Hpq & _). rewrite <- Hpq. by apply Hi.
Qed.

(** A thread goes on from [t] to [t'] while the table evolves. *)
Lemma threads_step e s s' ts k t t' : threads_ok s ts -> ts !! k = Some t -> evolves e s s' ->
  (forall p, e = Some p -> works_for t = Some p) ->
  (forall p, works_for t' = Some p ->
    (works_for t = Some p /\ e = None) \/
    (exists q, players s' !! p = Some q /\ p_status q <> DEAD) /\ forall k' u, ts !! k' = Some u -> works_for u <> Some p) ->
  (forall m, match_in t' = Some m -> exists x, matches s' !! m = Some (Some x)) ->
  threads_ok s' (<[k := t']> ts).
Proof.
  intros (Hown & Hone & Hm) Hk [Hp Hmm] He Hw Hm'. split_and!.
  - intros k' u p [[<- [<- _]]|[Hne Hu]]%list_lookup_insert_Some Hup.
    + destruct (Hw p Hup) as [[Hold ->]|[Hq _]]; [|done]. destruct (Hown k t p Hk Hold) as (q & Hq & Hqd).
      destruct (Hp p q Hq) as (q' & Hq' & _ & Hd). exists q'. split; [done|]. by apply Hd.
    + destruct (Hown k' u p Hu Hup) as (q & Hq & Hqd). destruct (Hp p q Hq) as (q' & Hq' & _ & Hd).
      exists q'. split; [done|]. apply Hd; [|done]. intros ->. apply Hne. by apply (Hone k k' t u p); auto.
  - intros k1 k2 t1 t2 p [[<- [<- _]]|[Hne1 Ht1]]%list_lookup_insert_Some [[<- [<- _]]|[Hne2 Ht2]]%list_lookup_insert_Some H1 H2; [done| | |by eauto].
    + destruct (Hw p H1) as [[Hold _]|[_ Hno]]; [by apply (Hone _ _ t t2 p)|by destruct (Hno k2 t2)].
    + destruct (Hw p H2) as [[Hold _]|[_ Hno]]; [by apply (Hone _ _ t1 t p)|by destruct (Hno k1 t1)].
  - intros k' u m [[<- [<- _]]|[Hne Hu]]%list_lookup_insert_Some Hum; [by apply Hm'|].
    destruct (Hm k' u m Hu Hum) as [x Hx]. by apply (Hmm m x).
Qed.

(** ** Proofs: what each operation does to the table *)

Definition kept (s s' : server) : Prop := same_table s s' /\ evolves None s s'.

#[local] Instance kept_refl : Reflexive kept.
Proof. by split. Qed.
#[local] Instance kept_trans : Transitive kept.
Proof. intros a b c [H1 H2] [H3 H4]. by split; etrans. Qed.

Lemma kept_set i f s : (forall p, same_entry p (f p)) -> (forall p, p_status p <> DEAD -> p_status (f p) <> DEAD) -> kept s (set_player i f s).
Proof. intros Hf Hd. split; [by apply same_set_player|]. apply evolves_set; auto. Qed.

Lemma pair_up_Ok p i s s' : pair_up p i s = Ok s' ->
  kept s s' /\ exists x, matches s' !! length (matches s) = Some (Some x).
Proof.
  unfold pair_up. case_match; [done|]. intros [= <-]. split.
  - etrans; [|by apply kept_set]. etrans; [|by apply kept_set].
    split; [by apply same_players|]. apply evolves_players; [done|]. intros m x Hm. exists x. cbn. by apply lookup_app_l_Some.
  - cbn. rewrite lookup_app_r, Nat.sub_diag by lia. eexists. reflexivity.
Qed.

Lemma search_loop_kept n i p s found s' r : search_loop n i p s found = Ok (s', r) ->
  (forall e m, found = Some (e, m) -> exists x, matches s !! m = Some (Some x)) ->
  kept s s' /\ forall e m, r = Some (e, m) -> exists x, matches s' !! m = Some (Some x).
Proof.
  revert i s found. induction n as [|n IH]; intros i s found; cbn [search_loop]; [by intros [= <- <-]|].
  intros (q & _ & (me & _ & H)%ub_bind_ok)%ub_bind_ok Hf. case_match; [|by apply IH in H].
  apply ub_bind_ok in H as (s1 & H1 & H). apply pair_up_Ok in H1 as [Hk [x Hx]]. apply IH in H as [Hk' Hr].
  - split; [by etrans|done].
  - intros e m [= _ <-]. by exists x.
Qed.

Lemma search_once_kept s p s' r : search_once s p = Ok (s', r) ->
  kept s s' /\ forall e m, r = Some (e, m) -> exists x, matches s' !! m = Some (Some x).
Proof.
  unfold search_once. intros (me & _ & H)%ub_bind_ok. destruct (p_enemy me) as [e0|].
  - apply ub_bind_ok in H as (m0 & Hm & [= <- <-]). split; [done|]. intros e m [= _ <-].
    unfold match_at in Hm. case_match; [done|]. case_match eqn:Hx; [|done]. case_match; simplify_eq. by eexists.
  - case_match; [by apply search_loop_kept in H|by simplify_eq].
Qed.

Lemma count_result_kept win s p s' : count_result win s p = Ok s' -> kept s s'.
Proof.
  unfold count_result. intros (me & _ & (nm & _ & H)%ub_bind_ok)%ub_bind_ok. destruct (p_stats me) as [[won lost] tie].
  injection H as <-. by apply kept_set.
Qed.

Lemma unlink_kept s p : kept s (unlink_enemy s p) /\ kept s (unlink_match s p) /\ kept s (unlink_port s p).
Proof. split_and!; by apply kept_set. Qed.

Lemma finish_evolves s p m s' : finish s p m = Ok s' -> same_table s s' /\ evolves (Some p) s s'.
Proof.
  unfold finish, match_of. intros (x & Hx & (_ & _ & [= <-])%ub_bind_ok)%ub_bind_ok. split.
  - apply (same_set_player p (with_status DEAD) (Server _ _ _ _)). by intros q.
  - etrans; [|apply evolves_set; [by intros q|by left]]. apply evolves_players; [done|]. cbn. intros m' x' Hm'.
    destruct (decide (m' = m)) as [->|Hne]; [|rewrite list_lookup_insert_ne by done; by eauto].
    rewrite list_lookup_insert_eq by (by eapply lookup_lt_Some). by eexists.
Qed.

(** The loop over the names finds the players that have the name. *)
Lemma name_loop_spec ps i nm found r : name_loop ps i nm found = Ok (Some r) ->
  (r = found /\ (forall p, p ∈ ps -> p_name p <> nm)) \/
  exists j p, r = Some (i + j)%nat /\ ps !! j = Some p /\ p_name p = nm /\ p_status p = DEAD.
Proof.
  revert i found. induction ps as [|p ps IH]; intros i found; cbn [name_loop]; [intros [= <-]; left; split; [done|]; by intros p ?%elem_of_nil|].
  intros (a & Ha & (b & Hb & H)%ub_bind_ok)%ub_bind_ok. unfold init in *. destruct (p_name p) as [a'|] eqn:Hp, nm as [b'|]; simplify_eq.
  destruct (String.eqb_spec a b) as [->|Hab].
  - destruct (Z.eqb_spec (p_status p) DEAD) as [Hd|]; [|done]. right. apply IH in H as [[-> _]|(j & q & -> & Hq)].
    + exists 0%nat, p. by rewrite Nat.add_0_r.
    + exists (S j), q. split; [f_equal; lia|done].
  - apply IH in H as [[-> Hno]|(j & q & -> & Hq)].
    + left. split; [done|]. intros q [->|Hq]%elem_of_cons; [congruence|by apply Hno].
    + right. exists (S j), q. split; [f_equal; lia|done].
Qed.

(** A connection enters the table with a name of its own. *)
Lemma register_Ok s nm pt s' r : table_ok s -> register s nm pt = Ok (s', r) ->
  table_ok s' /\ evolves None s s' /\
  forall p, r = Some p -> (forall q, players s !! p = Some q -> p_status q = DEAD) /\
    exists q, players s' !! p = Some q /\ p_name q = nm /\ p_status q = WAITING.
Proof.
  intros Hok. unfold register. intros ([[i|]|] & Hn & H)%ub_bind_ok; [| |by simplify_eq].
  - apply ub_bind_ok in H as (port & _ & [= <- <-]).
    apply name_loop_spec in Hn as [[? _]|(j & p & [= ->] & Hp & Hpn & Hpd)]; [done|]. cbn [Nat.add] in *.
    destruct (kept_set j (fun p => with_port (Some port) (with_status WAITING p)) s) as [Hst Hev]; [done|done|].
    split; [by eapply same_table_ok|]. split; [done|]. intros ? [= <-]. split; [intros q; congruence|].
    rewrite set_player_lookup, decide_True, Hp by done. by eexists.
  - case_match; [done|]. injection H as <- <-. apply name_loop_spec in Hn as [[_ Hno]|(j & p & ? & _)]; [|done].
    destruct Hok as [Hnd Hid]. split_and!.
    + split; cbn [players].
      * rewrite fmap_app. apply NoDup_app. split; [done|]. split; [|apply NoDup_singleton].
        intros n (p & -> & Hp)%list_elem_of_fmap Heq%list_elem_of_singleton. by apply (Hno p Hp).
      * intros i p [Hp|[Hi Hp]]%lookup_app_Some; [by apply Hid|].
        destruct (i - length (players s))%nat eqn:Hd; [|done]. injection Hp as <-. cbn. f_equal. lia.
    + split; [|by eauto]. cbn. intros j p Hp. exists p. split; [by apply lookup_app_l_Some|done].
    + intros ? [= <-]. split; [intros q Hq%lookup_lt_Some; lia|]. cbn. rewrite lookup_app_r, Nat.sub_diag by lia. by eexists.
Qed.

Lemma threads_new s ts t : threads_ok s ts -> works_for t = None -> match_in t = None -> threads_ok s (ts ++ [t]).
Proof.
  intros (Hown & Hone & Hm) Hw Hmt.
  assert (Hl : forall k u, (ts ++ [t]) !! k = Some u -> ts !! k = Some u \/ works_for u = None /\ match_in u = None).
  { intros k u [Hk|[_ Hk]]%lookup_app_Some; [by left|right]. destruct (k - length ts)%nat; [by injection Hk as <-|done]. }
  split_and!.
  - intros k u p [Hk|[Hu _]]%Hl Hp; [by eauto|congruence].
  - intros k1 k2 t1 t2 p [H1|[H1 _]]%Hl [H2|[H2 _]]%Hl Hp1 Hp2; try congruence. by eauto.
  - intros k u m [Hk|[_ Hu]]%Hl Hp; [by eauto|congruence].
Qed.

Definition sys_ok (y : system) : Prop := table_ok (srv y) /\ threads_ok (srv y) (threads y).

(** A step of a thread that keeps its player, or has none, and evolves the table. *)
Lemma thread_kept s s' ts k t t' : table_ok s -> threads_ok s ts -> ts !! k = Some t -> kept s s' ->
  (works_for t' = works_for t \/ works_for t' = None) ->
  (forall m, match_in t' = Some m -> match_in t = Some m \/ exists x, matches s' !! m = Some (Some x)) ->
  sys_ok (System s' (<[k := t']> ts)).
Proof.
  intros Hok Hts Hk [Hst Hev] Hw Hm. split; [by eapply same_table_ok|].
  apply (threads_step None s _ _ _ t); [done|done|done|done| |].
  - intros p Hp. left. split; [|done]. destruct Hw; congruence.
  - intros m [Hold|Hx]%Hm; [|done]. destruct Hts as (_ & _ & Hmm). destruct (Hmm k t m Hk Hold) as [x Hx].
    destruct Hev as [_ Hev]. by apply (Hev m x).
Qed.

Lemma sys_step_ok y e y' out : sys_ok y -> sys_step y e = Ok (y', out) -> sys_ok y'.
Proof.
  intros [Hok Hts]. destruct e as [|k line]; cbn [sys_step]; [intros [= <- <-]; split; [done|by apply threads_new]|].
  destruct (threads y !! k) as [t|] eqn:Hk; [|by intros [= <- <-]].
  intros ([[s' t'] o] & Ht & [= <- <-])%ub_bind_ok.
  assert (Hkeep : forall t', kept (srv y) s' -> (works_for t' = works_for t \/ works_for t' = None) ->
      (forall m, match_in t' = Some m -> match_in t = Some m \/ exists x, matches s' !! m = Some (Some x)) ->
      sys_ok (System s' (<[k := t']> (threads y)))) by (intros; by eapply thread_kept).
  destruct t; cbn [thread_step] in Ht.
  - apply ub_bind_ok in Ht as ([nm pt] & _ & [= <- <- <-]). by apply Hkeep; [|right|].
  - apply ub_bind_ok in Ht as ([s1 [p|]] & Hr & [= -> <- <-]); (apply register_Ok in Hr as (Hok' & Hev & Hp); [|done]);
      (split; [done|]); (eapply (threads_step None); [done|done|done|done| |done]); [|done].
    intros p' [= <-]. right. destruct (Hp p eq_refl) as (Hdead & q & Hq & _ & Hst). split; [exists q; split; [done|by rewrite Hst]|].
    intros k' u Hu Hup. destruct Hts as (Hown & _). destruct (Hown k' u p Hu Hup) as (q' & Hq' & Hnd). by apply Hnd, Hdead.
  - apply ub_bind_ok in Ht as ([s1 r] & Hr & [= -> <- <-]). apply search_once_kept in Hr as [Hkp Hm].
    destruct r as [[e m]|]; (apply Hkeep; [done|by left|]); [|by left]. intros m' [= <-]. right. by apply (Hm e).
  - apply ub_bind_ok in Ht as (o' & _ & [= <- <- <-]). apply Hkeep; [done|by left|]. by left.
  - apply ub_bind_ok in Ht as (win & _ & (s1 & Hc & [= -> <- <-])%ub_bind_ok). apply count_result_kept in Hc.
    apply Hkeep; [done|by left|]. by left.
  - apply ub_bind_ok in Ht as (s1 & Hf & [= -> <- <-]). apply finish_evolves in Hf as [Hst Hev].
    split; [by eapply same_table_ok|]. by eapply (threads_step (Some p)).
  - injection Ht as <- <- <-. apply Hkeep; [apply unlink_kept|by left|done].
  - injection Ht as <- <- <-. apply Hkeep; [apply unlink_kept|by left|done].
  - injection Ht as <- <- <-. apply Hkeep; [apply unlink_kept|by left|done].
  - injection Ht as <- <- <-. by apply Hkeep; [|left|].
Qed.

Lemma run_sys_ok es : forall y y' out, sys_ok y -> run_sys y es = Ok (y', out) -> sys_ok y'.
Proof.
  induction es as [|e es IH]; intros y y' out Hy; cbn [run_sys]; [by intros [= <- <-]|].
  intros ([y1 o1] & H1 & ([y2 o2] & H2 & [= <- <-])%ub_bind_ok)%ub_bind_ok. eapply IH; [|done]. by eapply sys_step_ok.
Qed.

(** C26: As long as nothing undefined has happened (a name or port of ten bytes or more, a table that is full, a
    match that is not there), in whatever order connections arrive and their threads run, statement by
    statement where they do not hold the mutex, and whatever the clients send: no two players of the table
    have the same name, the identifier of a player is its place in the table, a thread from its
    registration to its report works for a player that is not dead and that no other thread works for, and
    the match that a thread has found is there. *)
Theorem players_stay_apart junk es y out : run_sys (start junk) es = Ok (y, out) ->
  NoDup (p_name <$> players (srv y)) /\
  (forall i p, players (srv y) !! i = Some p -> p_id p = Z.of_nat i) /\
  (forall k t p, threads y !! k = Some t -> works_for t = Some p ->
    (exists q, players (srv y) !! p = Some q /\ p_status q <> DEAD) /\
    (forall k' t', threads y !! k' = Some t' -> works_for t' = Some p -> k' = k) /\
    (forall m, match_in t = Some m -> exists x, matches (srv y) !! m = Some (Some x))).
Proof.
  intros H. apply run_sys_ok in H as [[Hn Hi] (Hown & Hone & Hm)].
  - split; [done|]. split; [done|]. intros k t p Hk Hp. split; [by eauto|]. split; [|by eauto]. intros k' t' Hk' Hp'. by eapply Hone.
  - split; [split; [apply NoDup_nil_2|done]|]. by split_and!.
Qed.

(** ** Proofs: the search *)

Definition engage (m e : nat) (q : player) : player := with_match (Z.of_nat m) (Some e) (with_status PLAYING q).

(** [pair_up] where there is room for the match. *)
Definition paired (p i : nat) (s : server) : server :=
  let m := length (matches s) in
  set_player i (engage m p) (set_player p (engage m i)
    (Server (players s) (matches s ++ [Some (Match p i ACTIVE (Z.of_nat m))]) (active s - 2) (active_matches s + 1))).

Lemma pair_up_room p i s : (length (matches s) < MAX_MATCHES)%nat -> pair_up p i s = Ok (paired p i s).
Proof. intros Hm. unfold pair_up. by rewrite (proj2 (Nat.leb_gt _ _) Hm). Qed.

(** The others who wait, from player [i]. *)
Definition waits (p : nat) (iq : nat * player) : bool := negb (iq.1 =? p)%nat && (p_status iq.2 =? WAITING).
Fixpoint waiting (p i : nat) (ps : list player) : list nat :=
  match ps with
  | [] => []
  | q :: ps' => if waits p (i, q) then i :: waiting p (S i) ps' else waiting p (S i) ps'
  end.

Lemma waiting_ge p i ps j : j ∈ waiting p i ps -> (i <= j)%nat /\ j <> p /\ exists q, ps !! (j - i)%nat = Some q /\ p_status q = WAITING.
Proof.
  revert i. induction ps as [|q ps IH]; intros i; cbn [waiting]; [by intros ?%elem_of_nil|].
  assert (Hrec : j ∈ waiting p (S i) ps -> (i <= j)%nat /\ j <> p /\ exists q', (q :: ps) !! (j - i)%nat = Some q' /\ p_status q' = WAITING).
  { intros (Hle & Hne & q' & Hq' & Hs)%IH. split; [lia|]. split; [done|]. exists q'. by replace (j - i)%nat with (S (j - S i)) by lia. }
  destruct (waits p (i, q)) eqn:Hw; [|done]. unfold waits in Hw. cbn in Hw. apply andb_true_iff in Hw as [Hne%negb_true_iff%Nat.eqb_neq Hs%Z.eqb_eq].
  intros [->|Hj]%elem_of_cons; [|by apply Hrec]. split; [done|]. split; [done|]. exists q. by rewrite Nat.sub_diag.
Qed.

Lemma waiting_NoDup p i ps : NoDup (waiting p i ps).
Proof.
  revert i. induction ps as [|q ps IH]; intros i; cbn [waiting]; [by constructor|]. case_match; [|done].
  constructor; [|done]. intros (Hle & _)%waiting_ge. lia.
Qed.

(** Pairing [p] with somebody leaves the others as they are. *)
Lemma paired_lookup p i s j : players (paired p i s) !! j =
  if decide (i = j) then (if decide (p = j) then engage (length (matches s)) p ∘ engage (length (matches s)) i else engage (length (matches s)) p) <$> players s !! j
  else if decide (p = j) then engage (length (matches s)) i <$> players s !! j else players s !! j.
Proof.
  unfold paired. rewrite set_player_lookup, set_player_lookup. cbn [players].
  destruct (decide (i = j)), (decide (p = j)); [by destruct (players s !! j)|done|done|done].
Qed.

Lemma waiting_ext p i ps ps' : length ps = length ps' ->
  (forall k q q', ps !! k = Some q -> ps' !! k = Some q' -> (i + k)%nat <> p -> p_status q = p_status q') ->
  waiting p i ps = waiting p i ps'.
Proof.
  revert i ps'. induction ps as [|q ps IH]; intros i [|q' ps'] Hl Hs; try done. cbn [waiting].
  assert (waits p (i, q) = waits p (i, q')) as ->.
  { unfold waits. cbn. destruct (Nat.eqb_spec i p) as [|Hne]; [done|]. cbn. rewrite (Hs 0%nat q q'); [done|done|done|lia]. }
  rewrite (IH (S i) ps'); [done|by injection Hl|]. intros k r r' Hr Hr' Hk. apply (Hs (S k)); [done|done|lia].
Qed.

Definition pair_all (p : nat) (W : list nat) (sf : server * option (nat * nat)) : server * option (nat * nat) :=
  foldl (fun sf w => (paired p w sf.1, Some (w, length (matches sf.1)))) sf W.

Lemma paired_ok p i s : table_ok s -> table_ok (paired p i s) /\ length (players (paired p i s)) = length (players s).
Proof.
  intros Hok. split; [|unfold paired; by rewrite !set_player_length]. eapply same_table_ok, Hok.
  etrans; [|by apply same_set_player]. etrans; [|by apply same_set_player]. by apply same_players.
Qed.

Lemma search_loop_all p s found : forall n i, table_ok s -> (i + n = length (players s))%nat -> (p < length (players s))%nat ->
  (length (matches s) + length (waiting p i (drop i (players s))) <= MAX_MATCHES)%nat ->
  search_loop n i p s found = Ok (pair_all p (waiting p i (drop i (players s))) (s, found)).
Proof.
  intros n. revert s found. induction n as [|n IH]; intros s found i Hok Hn Hp Hm.
  { rewrite drop_ge by lia. done. }
  destruct (lookup_lt_is_Some_2 (players s) i) as [q Hq]; [lia|]. destruct (lookup_lt_is_Some_2 (players s) p) as [me Hme]; [lia|].
  rewrite (drop_S _ q) in Hm |- * by done. cbn [search_loop waiting] in *. unfold player_at. rewrite Hq, Hme. cbn [mbind ub_bind].
  pose proof (proj2 Hok i q Hq) as Hiq. pose proof (proj2 Hok p me Hme) as Hpm. rewrite Hiq, Hpm.
  assert (Z.of_nat i =? Z.of_nat p = (i =? p)%nat) as ->
    by (destruct (Nat.eqb_spec i p); [subst; apply Z.eqb_refl|apply Z.eqb_neq; lia]).
  unfold waits in *. cbn [fst snd] in *. destruct (negb (i =? p)%nat && (p_status q =? WAITING)) eqn:Hw; [|by rewrite IH by (done || lia)].
  cbn [length] in Hm. rewrite pair_up_room by (unfold MAX_MATCHES in *; lia). cbn [mbind ub_bind].
  destruct (paired_ok p i s Hok) as [Hok' Hlen].
  assert (waiting p (S i) (drop (S i) (players s)) = waiting p (S i) (drop (S i) (players (paired p i s)))) as Heq.
  { apply waiting_ext; [by rewrite !length_drop, Hlen|]. intros k r r' Hr Hr' Hk. rewrite lookup_drop in Hr, Hr'.
    rewrite paired_lookup, !decide_False in Hr' by lia. congruence. }
  rewrite IH, <- Heq; [done|done|lia|lia|]. rewrite <- Heq. unfold paired. cbn [matches set_player]. rewrite length_app. simpl. lia.
Qed.

Lemma pair_all_spec p W s f : NoDup W -> p ∉ W ->
  let s' := (pair_all p W (s, f)).1 in let M := length (matches s) in
  length (matches s') = (M + length W)%nat /\ active s' = active s - 2 * Z.of_nat (length W) /\
  (forall m, (m < M)%nat -> matches s' !! m = matches s !! m) /\
  (forall j, j ∉ W -> j <> p -> players s' !! j = players s !! j) /\
  (forall k j, W !! k = Some j -> players s' !! j = engage (M + k) p <$> players s !! j /\
     matches s' !! (M + k)%nat = Some (Some (Match p j ACTIVE (Z.of_nat (M + k))))) /\
  (forall e, last W = Some e -> players s' !! p = engage (M + length W - 1) e <$> players s !! p /\
     (pair_all p W (s, f)).2 = Some (e, M + length W - 1)%nat).
Proof.
  cbv zeta. revert s f. induction W as [|w W IH]; intros s f Hnd Hp.
  { cbn. split_and!; done || lia. }
  apply NoDup_cons in Hnd as [Hw Hnd]. apply not_elem_of_cons in Hp as [Hpw Hp].
  destruct (IH (paired p w s) (Some (w, length (matches s))) Hnd Hp) as (Hlen & Hact & Hold & Hj & Hk & He).
  change (pair_all p (w :: W) (s, f)) with (pair_all p W (paired p w s, Some (w, length (matches s)))).
  assert (HM : length (matches (paired p w s)) = S (length (matches s))) by (cbn; rewrite length_app; simpl; lia).
  rewrite HM in *. cbn [length]. change (active (paired p w s)) with (active s - 2) in Hact.
  assert (Hpw' : players (paired p w s) !! p = engage (length (matches s)) w <$> players s !! p) by (by rewrite paired_lookup, decide_False, decide_True by done).
  split_and!.
  - lia.
  - lia.
  - intros m Hm. rewrite Hold by lia. cbn. apply lookup_app_l. lia.
  - intros j Hjw Hjp. apply not_elem_of_cons in Hjw as [Hjw HjW]. rewrite Hj by done. by rewrite paired_lookup, !decide_False by done.
  - intros [|k] j Hjk; [injection Hjk as <-|].
    + rewrite Hj, Hold by (done || lia). rewrite paired_lookup, decide_True, decide_False by done. rewrite Nat.add_0_r. split; [done|].
      cbn. by rewrite lookup_app_r, Nat.sub_diag by lia.
    + cbn in Hjk. destruct (Hk k j Hjk) as [-> Hmk]. replace (length (matches s) + S k)%nat with (S (length (matches s)) + k)%nat by lia. split; [|done].
      apply list_elem_of_lookup_2 in Hjk. rewrite paired_lookup, !decide_False by (intros ->; done). done.
  - intros e Hl. rewrite last_cons in Hl. destruct (last W) as [e'|] eqn:HlW.
    + injection Hl as ->. destruct (He e eq_refl) as [-> ->]. rewrite Hpw'. split; [|f_equal; f_equal; lia].
      replace (length (matches s) + S (length W) - 1)%nat with (S (length (matches s)) + length W - 1)%nat by lia. by destruct (players s !! p).
    + injection Hl as ->. apply last_None in HlW as ->. cbn [pair_all foldl fst snd length]. rewrite Hpw'.
      by replace (length (matches s) + 1 - 1)%nat with (length (matches s)) by lia.
Qed.

(** The others who wait for an opponent beside player [p]. *)
Definition waiting_for (p : nat) (s : server) : list nat := waiting p 0 (players s).

Lemma search_once_all s p me : table_ok s -> players s !! p = Some me -> p_enemy me = None -> 1 < active s ->
  (length (matches s) + length (waiting_for p s) <= MAX_MATCHES)%nat ->
  search_once s p = Ok (pair_all p (waiting_for p s) (s, None)).
Proof.
  intros Hok Hp He Ha Hm. unfold search_once, player_at. rewrite Hp. cbn [mbind ub_bind]. rewrite He.
  rewrite (proj2 (Z.ltb_lt _ _)) by lia. apply search_loop_all; [done|done|by eapply lookup_lt_Some|done].
Qed.

Lemma waiting_for_apart p s : NoDup (waiting_for p s) /\ p ∉ waiting_for p s.
Proof. split; [apply waiting_NoDup|]. by intros (_ & ? & _)%waiting_ge. Qed.

Lemma waiting_for_player p s j : j ∈ waiting_for p s -> j <> p /\ exists q, players s !! j = Some q /\ p_status q = WAITING.
Proof. intros (_ & Hne & H)%waiting_ge. by rewrite Nat.sub_0_r in H. Qed.

(** The search of a player takes everybody who waits at that moment, not just one: each of
    them gets a match of its own with the player as its opponent, the player keeps the last of
    them, and for each two are taken off the number of the active, which may so fall below
    zero. *)
Theorem search_takes_all s p me e : table_ok s -> players s !! p = Some me -> p_enemy me = None -> 1 < active s ->
  let W := waiting_for p s in let M := length (matches s) in
  (M + length W <= MAX_MATCHES)%nat -> last W = Some e ->
  exists s', search_once s p = Ok (s', Some (e, M + length W - 1)%nat) /\
    active s' = active s - 2 * Z.of_nat (length W) /\ length (matches s') = (M + length W)%nat /\
    players s' !! p = Some (engage (M + length W - 1) e me) /\
    (forall k j, W !! k = Some j -> exists q, players s !! j = Some q /\ players s' !! j = Some (engage (M + k) p q) /\
      matches s' !! (M + k)%nat = Some (Some (Match p j ACTIVE (Z.of_nat (M + k))))) /\
    (forall j, j <> p -> j ∉ W -> players s' !! j = players s !! j).
Proof.
  intros Hok Hp He Ha. cbv zeta. intros Hm Hl. rewrite (search_once_all s p me) by done.
  destruct (waiting_for_apart p s) as [Hnd Hpw].
  destruct (pair_all_spec p (waiting_for p s) s None Hnd Hpw) as (Hlen & Hact & _ & Hj & Hk & Hlast).
  destruct (Hlast e Hl) as [Hpe Hr]. exists (pair_all p (waiting_for p s) (s, None)).1. rewrite <- Hr, Hpe, Hp.
  split; [by destruct (pair_all _ _ _)|]. split; [done|]. split; [done|]. split; [done|]. split; [|by auto].
  intros k j Hkj. destruct (Hk k j Hkj) as [Hpj Hmj]. destruct (waiting_for_player p s j) as (_ & q & Hq & _); [by eapply list_elem_of_lookup_2|].
  exists q. rewrite Hpj, Hq. done.
Qed.

(** ** Proofs: the messages *)

Definition numbers_read : bool :=
  forallb (fun n => let t := pretty (Z.of_nat n) in
    plain_text t && (strlen t <=? 3) && match atoi t with Ok v => v =? Z.of_nat n | UB _ => false end) (seq 0 MAX_MATCHES).

Lemma number_read n : (n < MAX_MATCHES)%nat ->
  plain_text (pretty (Z.of_nat n)) = true /\ strlen (pretty (Z.of_nat n)) <= 3 /\ atoi (pretty (Z.of_nat n)) = Ok (Z.of_nat n).
Proof.
  intros Hn. assert (H : numbers_read = true) by (vm_compute; reflexivity).
  unfold numbers_read in H. rewrite forallb_forall in H. specialize (H n (proj2 (in_seq _ _ _) (conj (Nat.le_0_l _) Hn))).
  cbv zeta in H. apply andb_true_iff in H as [[Hp Hl%Z.leb_le]%andb_true_iff Ha]. split; [done|]. split; [done|].
  destruct (atoi _); [|done]. by apply Z.eqb_eq in Ha as ->.
Qed.

Lemma mem_string_read l buf : no_nul l = true -> mem_string (read_into l buf) = Ok l.
Proof. apply mem_string_bytes. Qed.

(** A line in the array that [fgets] fills. *)
Lemma read_tokens {R} (on_token : nat -> string -> R -> ub (Z + R)) fs buf r : fs <> [] -> forallb plain_text fs = true -> strlen (line_of fs) < 79 ->
  length buf = MSG -> (forall r' k t, (length fs <= k)%nat -> on_token k t r' = Ok (inr r')) ->
  tokens on_token (read_into (line_of fs) buf) r = each_token on_token 0 fs r.
Proof.
  intros Hfs Hp Hl Hb Hon. apply tokens_line; try done. rewrite length_drop, Hb. unfold strlen, MSG in *. lia.
Qed.

Lemma strcpy_to_fits n s : strlen s < n -> strcpy_to n s = Ok s.
Proof. intros Hs. unfold strcpy_to. by rewrite (proj2 (Z.ltb_lt _ _) Hs). Qed.

Lemma line_of_length f g fs : strlen (line_of (f :: g :: fs)) = strlen f + 1 + strlen (line_of (g :: fs)).
Proof. rewrite line_of_cons. unfold strlen. rewrite string_length_app. cbn [String.length]. lia. Qed.

Lemma line_of_last f : strlen (line_of [f]) = strlen f + 1.
Proof. cbn [line_of]. unfold strlen. rewrite string_length_app. simpl. lia. Qed.

(** A name or port that is sent. *)
Definition field (s : string) : Prop := plain_text s = true /\ strlen s < 10.

Lemma request_read nm pt buf : field nm -> field pt -> length buf = MSG ->
  parse_request (read_into (line_of ["MR"; nm; pt]) buf) = Ok (Some nm, Some pt).
Proof.
  intros [Hn Hnl] [Hp Hpl] Hb. unfold parse_request. rewrite read_tokens; [|done| | |done|].
  - cbn [each_token request_token mbind ub_bind]. rewrite !strcpy_to_fits by done. done.
  - cbn. by rewrite Hn, Hp.
  - rewrite !line_of_length, line_of_last. change (strlen "MR") with 2. lia.
  - intros r [|[|[|k]]] t Hk; simpl in Hk; try lia. done.
Qed.

Lemma match_read m nm pt buf : (m < MAX_MATCHES)%nat -> field nm -> field pt -> length buf = MSG ->
  strlcpy 79 (line_of ["MATCH"; pretty (Z.of_nat m); nm; pt]) = line_of ["MATCH"; pretty (Z.of_nat m); nm; pt] /\
  parse_match (read_into (line_of ["MATCH"; pretty (Z.of_nat m); nm; pt]) buf) = Ok (inr (Enemy (Some (Z.of_nat m)) (Some nm) (Some pt))).
Proof.
  intros Hm [Hn Hnl] [Hp Hpl] Hb. destruct (number_read m Hm) as (Hmp & Hml & Hma).
  assert (Hl : strlen (line_of ["MATCH"; pretty (Z.of_nat m); nm; pt]) < 79).
  { rewrite !line_of_length, line_of_last. change (strlen "MATCH") with 5. lia. }
  assert (Hpl' : forallb plain_text ["MATCH"; pretty (Z.of_nat m); nm; pt] = true) by (cbn [forallb]; by rewrite Hn, Hp, Hmp).
  split; [apply strlcpy_fits; lia|]. unfold parse_match. rewrite mem_string_read by (by apply line_no_nul).
  cbn [mbind ub_bind]. rewrite read_tokens; [|done|done|done|done|].
  - rewrite line_of_cons. cbn [each_token match_token mbind ub_bind match_id name port]. rewrite Hma. cbn [mbind ub_bind match_id name port].
    rewrite !strcpy_to_fits by done. done.
  - intros r [|[|[|[|k]]]] t Hk; simpl in Hk; try lia. done.
Qed.

Lemma result_read m win buf : (m < MAX_MATCHES)%nat -> field win -> length buf = MSG ->
  parse_result (read_into (line_of ["RESULT"; pretty (Z.of_nat m); win]) buf) = Ok win.
Proof.
  intros Hm [Hn Hnl] Hb. destruct (number_read m Hm) as (Hmp & Hml & _). unfold parse_result. rewrite read_tokens; [|done| | |done|].
  - cbn [each_token result_token mbind ub_bind]. rewrite strcpy_to_fits by lia. done.
  - cbn [forallb]. by rewrite Hn, Hmp.
  - rewrite !line_of_length, line_of_last. change (strlen "RESULT") with 6. lia.
  - intros r [|[|[|k]]] t Hk; simpl in Hk; try lia. done.
Qed.

Lemma match_message_line s p m x me e q nm pt : matches s !! m = Some (Some x) -> players s !! p = Some me -> p_enemy me = Some e ->
  players s !! e = Some q -> p_name q = Some nm -> p_port q = Some pt ->
  match_message s p m = Ok (strlcpy 79 (line_of ["MATCH"; pretty (m_id x); nm; pt])).
Proof. intros Hm Hp He Hq Hn Hpt. unfold match_message, match_of, player_at. rewrite Hm, Hp. cbn. rewrite He. cbn. rewrite Hq. cbn. by rewrite Hn, Hpt. Qed.

(** When just one other player waits, the search of a player makes one match for the two: the
    search of the other finds the same match and changes nothing, and the message of each
    thread, read by the code of the client, gives the number of the match and the name and
    the port of the other. *)
Theorem two_meet s p i a b na nb pa pb buf : table_ok s -> players s !! p = Some a -> players s !! i = Some b ->
  p_enemy a = None -> waiting_for p s = [i] -> 1 < active s -> (length (matches s) < MAX_MATCHES)%nat ->
  p_name a = Some na -> p_port a = Some pa -> p_name b = Some nb -> p_port b = Some pb ->
  field na -> field pa -> field nb -> field pb -> length buf = MSG ->
  let m := length (matches s) in
  exists s' ma mb, search_once s p = Ok (s', Some (i, m)) /\ search_once s' i = Ok (s', Some (p, m)) /\
    active s' = active s - 2 /\ matches s' !! m = Some (Some (Match p i ACTIVE (Z.of_nat m))) /\
    match_message s' p m = Ok ma /\ parse_match (read_into ma buf) = Ok (inr (Enemy (Some (Z.of_nat m)) (Some nb) (Some pb))) /\
    match_message s' i m = Ok mb /\ parse_match (read_into mb buf) = Ok (inr (Enemy (Some (Z.of_nat m)) (Some na) (Some pa))).
Proof.
  intros Hok Hp Hi He HW Ha Hm Hna Hpa Hnb Hpb Fna Fpa Fnb Fpb Hb. cbv zeta.
  destruct (waiting_for_apart p s) as [Hnd Hpw]. destruct (pair_all_spec p [i] s None) as (_ & Hact & _ & _ & Hk & Hl); [by rewrite <- HW|by rewrite <- HW|].
  destruct (Hk 0%nat i eq_refl) as [Hi' Hm']. destruct (Hl i eq_refl) as [Hp' Hr]. clear Hk Hl.
  rewrite (search_once_all s p a), HW by (done || rewrite HW; simpl; lia). set (s' := (pair_all p [i] (s, None)).1) in *.
  cbn [length] in *. rewrite Nat.add_0_r in Hi', Hm'. replace (length (matches s) + 1 - 1)%nat with (length (matches s)) in Hp', Hr by lia.
  rewrite Hp in Hp'. rewrite Hi in Hi'. cbn [fmap option_fmap option_map] in Hp', Hi'.
  destruct (match_read (length (matches s)) nb pb buf Hm Fnb Fpb Hb) as [Hs1 Hc1].
  destruct (match_read (length (matches s)) na pa buf Hm Fna Fpa Hb) as [Hs2 Hc2].
  exists s', (line_of ["MATCH"; pretty (Z.of_nat (length (matches s))); nb; pb]), (line_of ["MATCH"; pretty (Z.of_nat (length (matches s))); na; pa]).
  split; [rewrite <- Hr; by destruct (pair_all _ _ _)|]. split.
  { unfold search_once, player_at. rewrite Hi'. cbn [mbind ub_bind engage with_match p_enemy p_match_id]. unfold match_at.
    rewrite (proj2 (Z.ltb_ge _ _)), Nat2Z.id, Hm' by lia. done. }
  split; [lia|]. split; [done|]. rewrite (match_message_line s' p _ _ _ _ _ nb pb Hm' Hp' eq_refl Hi' Hnb Hpb).
  rewrite (match_message_line s' i _ _ _ _ _ na pa Hm' Hi' eq_refl Hp' Hna Hpa). cbn [m_id]. rewrite Hs1, Hs2. done.
Qed.

(** What the result of a game adds to the counts of wins, losses and ties. *)
Definition counted (st : Z) (c : Z * Z * Z) : Z * Z * Z :=
  let '(won, lost, tie) := c in if st =? 0 then (won, lost, tie + 1) else if 0 <? st then (won + 1, lost, tie) else (won, lost + 1, tie).

(** The line by which a client reports its result is read by the thread of the player as the
    client meant it: a win, a loss or a tie is counted as such, when no player is called
    [TIE]; then the match is over, the player is dead, active again and without opponent,
    and the other players are as they were. *)
Theorem result_counted s p m x me msg own other st result res_msg : (m < MAX_MATCHES)%nat -> length msg = MSG ->
  players s !! p = Some me -> p_name me = Some own -> field own -> field other -> own <> other -> own <> "TIE" -> other <> "TIE" ->
  matches s !! m = Some (Some x) -> result_of own other st = Ok (result, res_msg) ->
  let y := System s [Playing msg p m] in
  exists s', run_sys y [Run 0 (Some (line_of ["RESULT"; pretty (Z.of_nat m); result])); Run 0 None; Run 0 None; Run 0 None; Run 0 None] =
      Ok (System s' [Ended], replicate 5 (0%nat, "")) /\
    players s' !! p = Some (Player (p_id me) (Some own) (Some "") DEAD (-1) None (counted st (p_stats me))) /\
    (forall j, j <> p -> players s' !! j = players s !! j) /\
    matches s' !! m = Some (Some (Match (m_p1 x) (m_p2 x) FINISH (m_id x))) /\ active s' = active s + 1 /\
    active_matches s' = active_matches s - (if m_status x =? ACTIVE then 1 else 0).
Proof.
  intros Hm Hmsg Hp Hown Fown Fother Hne HownT HotherT Hx Hres. cbv zeta.
  assert (Hwin : field result /\ (if String.eqb own result then (let '(won, lost, tie) := p_stats me in (won + 1, lost, tie))
      else if String.eqb result "TIE" then (let '(won, lost, tie) := p_stats me in (won, lost, tie + 1))
      else (let '(won, lost, tie) := p_stats me in (won, lost + 1, tie))) = counted st (p_stats me)).
  { unfold counted, result_of in *. destruct (p_stats me) as [[won lost] tie]. rewrite !strcpy_to_fits in Hres by (apply Fown || apply Fother).
    destruct (st =? 0); [injection Hres as <- <-; split; [done|by rewrite (proj2 (String.eqb_neq own "TIE"))]|].
    destruct (0 <? st); injection Hres as <- <-; (split; [done|]); [by rewrite String.eqb_refl|].
    by rewrite (proj2 (String.eqb_neq _ _) Hne), (proj2 (String.eqb_neq _ _) HotherT). }
  destruct Hwin as [Hf Hc]. cbn [run_sys sys_step srv threads lookup list_lookup thread_step]. unfold fgets_msg.
  rewrite result_read by done. cbn [mbind ub_bind]. unfold count_result, player_at. rewrite Hp. cbn [mbind ub_bind]. rewrite Hown. cbn [mbind ub_bind init].
  destruct (p_stats me) as [[won lost] tie] eqn:Hst. cbn [mbind ub_bind srv threads insert list_insert lookup list_lookup thread_step].
  set (s1 := set_player p _ s). unfold finish, match_of, player_at. change (matches s1) with (matches s). rewrite Hx. cbn [mbind ub_bind].
  cbn [players]. assert (Hp1 : players s1 !! p = Some (with_stats (counted st (won, lost, tie)) me)).
  { subst s1. rewrite set_player_lookup, decide_True, Hp by done. rewrite <- Hc. by repeat case_match. }
  rewrite Hp1. cbn [mbind ub_bind srv threads insert list_insert lookup list_lookup thread_step app run_sys]. eexists. split; [reflexivity|]. unfold unlink_port, unlink_match, unlink_enemy.
  split; [rewrite !set_player_lookup, !decide_True by done; cbn [players]; rewrite Hp1; rewrite <- Hown; reflexivity|].
  split; [intros j Hj; rewrite !set_player_lookup, !decide_False by done; cbn [players]; subst s1; by rewrite set_player_lookup, decide_False by done|].
  split; [cbn; rewrite list_lookup_insert_eq; [done|by eapply lookup_lt_Some]|]. split; [done|].
  transitivity (if m_status x =? ACTIVE then active_matches s - 1 else active_matches s); [done|destruct (m_status x =? ACTIVE); lia].
Qed.

(** ** Proofs: the list of the players *)

Section Sort.
Context {A : Type} (gt : A -> A -> bool).
Let le (a b : A) : Prop := gt a b = false.
Context (gt_asym : forall a b, gt a b = true -> gt b a = false) (le_trans : forall a b c, le a b -> le b c -> le a c).

(** A pass takes the largest to the end of what is not sorted yet. *)
Lemma sort_pass_max x a b : exists (a' : list A) (m : A), sort_pass gt x (a ++ b) = (a' ++ sort_pass gt m b)%list /\
  a' ++ [m] ≡ₚ x :: a /\ Forall (fun z => le z m) a'.
Proof.
  revert x. induction a as [|y a IH]; intros x; [by exists [], x|]. cbn [app sort_pass].
  destruct (gt x y) eqn:Hg; [destruct (IH x) as (a' & m & -> & Hp & Hf)|destruct (IH y) as (a' & m & -> & Hp & Hf)].
  - exists (y :: a'), m. split; [done|]. split; [cbn; rewrite Hp; constructor|]. constructor; [|done].
    assert (Hx : x ∈ a' ++ [m]) by (rewrite Hp; left). apply elem_of_app in Hx as [Hx| ->%list_elem_of_singleton]; [|by apply gt_asym].
    apply (le_trans y x m); [by apply gt_asym|]. by rewrite Forall_forall in Hf; apply Hf.
  - exists (x :: a'), m. split; [done|]. split; [cbn; by rewrite Hp|]. constructor; [|done].
    assert (Hy : y ∈ a' ++ [m]) by (rewrite Hp; left). apply elem_of_app in Hy as [Hy| ->%list_elem_of_singleton]; [|done].
    apply (le_trans x y m); [done|]. by rewrite Forall_forall in Hf; apply Hf.
Qed.

(** A pass over what is sorted changes nothing. *)
Lemma sort_pass_sorted m b : StronglySorted le (m :: b) -> sort_pass gt m b = m :: b.
Proof.
  revert m. induction b as [|y b IH]; intros m Hs; [done|]. cbn [sort_pass].
  inversion Hs as [|? ? Hs' Hf]; subst. inversion Hf as [|? ? Hmy _]; subst. unfold le in Hmy. rewrite Hmy. by rewrite IH.
Qed.

Lemma sort_passes_sorted n : forall a b, (length a <= S n)%nat -> StronglySorted le b -> Forall (fun y => Forall (fun z => le z y) a) b ->
  StronglySorted le (sort_passes gt n (a ++ b)) /\ sort_passes gt n (a ++ b) ≡ₚ a ++ b.
Proof.
  induction n as [|n IH]; intros a b Ha Hb Hab.
  - split; [|done]. destruct a as [|x [|y a]]; [done| |simpl in Ha; lia]. cbn. constructor; [done|].
    eapply Forall_impl; [exact Hab|]. cbn. intros y Hy. by inversion Hy.
  - destruct a as [|x a]; cbn [sort_passes app].
    { destruct b as [|y b]; [apply (IH [] []); [simpl; lia|done|done]|]. rewrite sort_pass_sorted by done. apply (IH [] (y :: b)); [simpl; lia|done|done]. }
    destruct (sort_pass_max x a b) as (a' & m & -> & Hp & Hf).
    assert (Hmb : StronglySorted le (m :: b)).
    { constructor; [done|]. eapply Forall_impl; [exact Hab|]. cbn. intros y Hy. rewrite <- Hp in Hy. apply Forall_app in Hy as [_ Hy]. by inversion Hy. }
    rewrite sort_pass_sorted by done. assert (Hl : length (a' ++ [m]) = length (x :: a)) by (by rewrite Hp).
    destruct (IH a' (m :: b)) as [Hs Hq].
    + rewrite length_app in Hl. simpl in *. lia.
    + done.
    + constructor; [done|]. eapply Forall_impl; [exact Hab|]. cbn. intros y Hy. rewrite <- Hp in Hy. by apply Forall_app in Hy as [Hy _].
    + split; [done|]. rewrite Hq. change (x :: a ++ b) with ((x :: a) ++ b). rewrite <- Hp. by rewrite <- app_assoc.
Qed.

End Sort.

Lemma strongly_sorted_impl {A} (R R' : A -> A -> Prop) l : (forall a b, R a b -> R' a b) -> StronglySorted R l -> StronglySorted R' l.
Proof. intros HR. induction 1; constructor; [done|]. by eapply Forall_impl; [|intros b; apply HR]. Qed.

Lemma name_gt_asym a b : name_gt a b = true -> name_gt b a = false.
Proof. unfold name_gt. rewrite (strcmp_sym a.1 b.1). intros H%Z.ltb_lt. apply Z.ltb_ge. lia. Qed.

Lemma name_le_trans a b c : name_gt a b = false -> name_gt b c = false -> name_gt a c = false.
Proof.
  unfold name_gt. rewrite !Z.ltb_ge. intros Hab Hbc.
  destruct (Z.eq_dec (strcmp a.1 b.1) 0) as [->%strcmp_zero|]; [done|].
  destruct (Z.eq_dec (strcmp b.1 c.1) 0) as [<-%strcmp_zero|]; [done|].
  assert (strcmp a.1 b.1 < 0 /\ strcmp b.1 c.1 < 0) as [H1 H2] by lia. pose proof (strcmp_trans _ _ _ H1 H2). lia.
Qed.

(** On [SIGHUP] the server writes a line for each player that has a name, with the counts of
    that player, in the order of the names, and then the dashes: the two loops sort. *)
Theorem handler_sorted s arr : names_of s = Ok arr ->
  exists l, handler s = Ok ((stats_line <$> l) ++ [("---" ++ chr 10 ++ chr 0)%string]) /\ l ≡ₚ arr /\
    StronglySorted (fun a b => strcmp a.1 b.1 <= 0) l.
Proof.
  intros Ha. unfold handler. rewrite Ha. cbn [mbind ub_bind]. exists (sort_passes name_gt (length arr - 1) arr). split; [done|].
  destruct (sort_passes_sorted name_gt name_gt_asym name_le_trans (length arr - 1) arr []) as [Hs Hp]; [lia|constructor|constructor|].
  rewrite app_nil_r in Hs, Hp. split; [done|]. eapply strongly_sorted_impl; [|exact Hs].
  intros a b Hab. by apply Z.ltb_ge.
Qed.

(** ** Proofs: errors *)

(** A request is read as the client meant it, and a name or a port of ten bytes or more, which the
    client does not refuse, is copied behind the end of its array. *)
Theorem request_text nm pt buf : plain_text nm = true -> plain_text pt = true -> strlen nm + strlen pt < 74 -> length buf = MSG ->
  parse_request (read_into ("MR:" ++ nm ++ ":" ++ pt ++ chr 10) buf) =
    if (strlen nm <? 10) && (strlen pt <? 10) then Ok (Some nm, Some pt) else UB out_of_bounds.
Proof.
  intros Hn Hp Hl Hb. change ("MR:" ++ nm ++ ":" ++ pt ++ chr 10)%string with (line_of ["MR"; nm; pt]).
  unfold parse_request. rewrite read_tokens; [|done| | |done|].
  - cbn [each_token request_token mbind ub_bind]. unfold strcpy_to. destruct (strlen nm <? 10); [|done]. cbn [mbind ub_bind andb].
    by destruct (strlen pt <? 10).
  - cbn. by rewrite Hn, Hp.
  - rewrite !line_of_length, line_of_last. change (strlen "MR") with 2. lia.
  - intros r [|[|[|k]]] t Hk; simpl in Hk; try lia. done.
Qed.

Lemma request_text_witness :
  parse_request (read_into ("MR:ann:50000" ++ chr 10) (replicate MSG NUL)) = Ok (Some "ann", Some "50000") /\
  parse_request (read_into ("MR:maximilian:50000" ++ chr 10) (replicate MSG NUL)) = UB out_of_bounds.
Proof.
  split.
  - exact (request_text "ann" "50000" (replicate MSG NUL) eq_refl eq_refl ltac:(vm_compute; reflexivity) eq_refl).
  - exact (request_text "maximilian" "50000" (replicate MSG NUL) eq_refl eq_refl ltac:(vm_compute; reflexivity) eq_refl).
Defined.

(** A step that changes nothing can be taken for ever. *)
Lemma run_stuck y e o n : sys_step y e = Ok (y, [o]) -> run_sys y (replicate n e) = Ok (y, replicate n o).
Proof. intros H. induction n as [|n IH]; [done|]. cbn [replicate run_sys]. rewrite H. cbn [mbind ub_bind]. rewrite IH. done. Qed.

Definition says (s : string) : option string := Some (s ++ chr 10)%string.

(** Two matches of [ann]: she connects again (thread 2) before thread 0 has cleared the
    entry in the table that both use. *)
Definition comes_back : list event :=
  [Accept; Run 0 (says "MR:ann:50001"); Run 0 None; Accept; Run 1 (says "MR:bob:50002"); Run 1 None;
   Run 0 None; Run 1 None; Run 0 None; Run 1 None; Run 0 (says "RESULT:1:ann"); Run 1 (says "RESULT:1:ann");
   Run 0 None; Run 1 None; Run 1 None; Run 1 None; Run 1 None;
   Accept; Run 2 (says "MR:ann:50003"); Run 2 None; Accept; Run 3 (says "MR:cid:50004"); Run 3 None; Run 3 None;
   Run 0 None; Run 0 None; Run 0 None; Run 3 None].

(** A thread clears the opponent, the match and the port of its player after it has let go of
    the mutex.  When the player has come back by then and has been found by another, this
    wipes out the new match: the other is told to play with nobody's port, and the player who
    came back is taken and without opponent, so its thread searches for ever. *)
Theorem unlink_race junk : exists y out, run_sys (start junk) comes_back = Ok (y, out) /\
  last out = Some (3%nat, ("MATCH:2:ann:" ++ chr 10)%string) /\
  (exists msg, threads y !! 2%nat = Some (Searching msg 0)) /\
  (exists q, players (srv y) !! 0%nat = Some q /\ p_status q = PLAYING /\ p_enemy q = None) /\
  (exists q, players (srv y) !! 2%nat = Some q /\ p_status q = PLAYING /\ p_enemy q = Some 0%nat) /\
  forall n, run_sys y (replicate n (Run 2 None)) = Ok (y, replicate n (2%nat, "")).
Proof.
  eexists; eexists. split; [vm_compute; reflexivity|]. split; [done|]. split; [eexists; reflexivity|].
  split; [eexists; split; [reflexivity|done]|]. split; [eexists; split; [reflexivity|done]|].
  intros n. apply run_stuck. vm_compute. reflexivity.
Qed.

(** When the new match comes between the first and the second of the three statements, the thread of the
    player who came back looks for a match of number -1. *)
Definition comes_between : list event :=
  [Accept; Run 0 (says "MR:ann:50001"); Run 0 None; Accept; Run 1 (says "MR:bob:50002"); Run 1 None;
   Run 0 None; Run 1 None; Run 0 None; Run 1 None; Run 0 (says "RESULT:1:ann"); Run 1 (says "RESULT:1:ann");
   Run 0 None; Run 1 None; Run 0 None;
   Accept; Run 2 (says "MR:ann:50003"); Run 2 None; Accept; Run 3 (says "MR:cid:50004"); Run 3 None; Run 3 None;
   Run 0 None; Run 2 None].

Example unlink_race_between : run_sys (start 0) comes_between = UB out_of_bounds.
Proof. vm_compute. reflexivity. Qed.

(** ** Witnesses *)

Lemma players_stay_apart_witness : exists y out, run_sys (start 0) comes_back = Ok (y, out) /\ length (players (srv y)) = 3%nat /\
  NoDup (p_name <$> players (srv y)) /\ works_for <$> threads y = [None; None; Some 0%nat; Some 2%nat].
Proof.
  destruct (run_sys (start 0) comes_back) as [[y out]|] eqn:H; [|vm_compute in H; discriminate]. exists y, out. split; [done|].
  pose proof (players_stay_apart 0 comes_back y out H) as (Hn & _).
  vm_compute in H. injection H as <- <-. split; [done|]. split; [exact Hn|reflexivity].
Defined.

Definition waiting_player (i : nat) (nm pt : string) : player := Player (Z.of_nat i) (Some nm) (Some pt) WAITING (-1) None (0, 0, 0).
Definition two_players : server := Server [waiting_player 0 "ann" "50001"; waiting_player 1 "bob" "50002"] [None] 2 0.
Definition three_players : server :=
  Server [waiting_player 0 "ann" "50001"; waiting_player 1 "bob" "50002"; waiting_player 2 "cid" "50003"] [None] 3 0.

(** Of three players who wait, the first takes both others, and only one of them is its
    opponent. *)
Lemma search_takes_all_witness : exists s', search_once three_players 0 = Ok (s', Some (2, 2)%nat) /\ active s' = -1 /\
  length (matches s') = 3%nat /\ p_enemy <$> players s' = [Some 2%nat; Some 0%nat; Some 0%nat].
Proof.
  assert (Hok : table_ok three_players).
  { split; [apply (bool_decide_unpack (NoDup (p_name <$> players three_players))); reflexivity|]. intros [|[|[|i]]] p [= <-]; reflexivity. }
  destruct (search_takes_all three_players 0 (waiting_player 0 "ann" "50001") 2 Hok eq_refl eq_refl eq_refl
    ltac:(vm_compute; lia) eq_refl) as (s' & Hs & Ha & Hl & _).
  exists s'. split; [exact Hs|]. split; [exact Ha|]. split; [exact Hl|].
  vm_compute in Hs. injection Hs as <-. reflexivity.
Defined.

Lemma two_meet_witness : exists s' ma, search_once two_players 0 = Ok (s', Some (1, 1)%nat) /\ search_once s' 1 = Ok (s', Some (0, 1)%nat) /\
  match_message s' 0 1 = Ok ma /\ parse_match (read_into ma (replicate MSG NUL)) = Ok (inr (Enemy (Some 1) (Some "bob") (Some "50002"))).
Proof.
  assert (Hok : table_ok two_players).
  { split; [apply (bool_decide_unpack (NoDup (p_name <$> players two_players))); reflexivity|]. intros [|[|i]] p [= <-]; reflexivity. }
  destruct (two_meet two_players 0 1 (waiting_player 0 "ann" "50001") (waiting_player 1 "bob" "50002") "ann" "bob" "50001" "50002" (replicate MSG NUL)
    Hok eq_refl eq_refl eq_refl eq_refl ltac:(done) ltac:(vm_compute; lia) eq_refl eq_refl eq_refl eq_refl
    (conj eq_refl eq_refl) (conj eq_refl eq_refl) (conj eq_refl eq_refl) (conj eq_refl eq_refl) eq_refl)
    as (s' & ma & mb & H1 & H2 & _ & _ & H3 & H4 & _).
  exists s', ma. split; [exact H1|]. split; [exact H2|]. split; [exact H3|exact H4].
Defined.

Lemma result_counted_witness : exists s', run_sys (System (paired 0 1 two_players) [Playing (replicate MSG NUL) 1 1])
    [Run 0 (Some ("RESULT:1:ann" ++ chr 10)%string); Run 0 None; Run 0 None; Run 0 None; Run 0 None] = Ok (System s' [Ended], replicate 5 (0%nat, "")) /\
  players s' !! 1%nat = Some (Player 1 (Some "bob") (Some "") DEAD (-1) None (0, 1, 0)).
Proof.
  destruct (result_counted (paired 0 1 two_players) 1 1 (Match 0 1 ACTIVE 1) (engage 1 0 (waiting_player 1 "bob" "50002")) (replicate MSG NUL)
    "bob" "ann" (-3) "ann" "LOST" ltac:(vm_compute; lia) eq_refl eq_refl eq_refl (conj eq_refl eq_refl) (conj eq_refl eq_refl)
    ltac:(done) ltac:(done) ltac:(done) eq_refl eq_refl) as (s' & H & Hp & _).
  exists s'. split; [exact H|exact Hp].
Defined.

Lemma handler_sorted_witness : exists l, handler (Server [waiting_player 0 "zoe" "1"; waiting_player 1 "ann" "2"; waiting_player 2 "bob" "3"] [None] 3 0) =
    Ok ((stats_line <$> l) ++ [("---" ++ chr 10 ++ chr 0)%string]) /\ StronglySorted (fun a b => strcmp a.1 b.1 <= 0) l.
Proof.
  destruct (handler_sorted (Server [waiting_player 0 "zoe" "1"; waiting_player 1 "ann" "2"; waiting_player 2 "bob" "3"] [None] 3 0)
    [("zoe", (0, 0, 0)); ("ann", (0, 0, 0)); ("bob", (0, 0, 0))] eq_refl) as (l & H & _ & Hs).
  exists l. split; [exact H|exact Hs].
Defined.
