(* ===== verification/AcctCtl.v ===== *)
(** * The control program of the accounting device ([1.acct-driver-obsd/testing/acctctl.c])

    The commands work on the driver of [Acct] by its [ioctl]s, and [watch] reads its
    records while the hooks queue more.  A command is what it prints, its exit status, and
    the driver after the descriptor is closed.

    [/dev/acct] is opened with [O_EXLOCK]; [last] tells whether the close is the last one, which is when the
    kernel calls [acctclose].  [getopt] is modelled for options without arguments, the
    message that it prints itself is left out, as is what [err] puts behind its message. *)

From stdpp Require Import pretty.
From S2P Require Import Prelude RBTree Acct CText GThing.

#[local] Open Scope string_scope.
#[local] Open Scope list_scope.
#[local] Open Scope Z_scope.

(** ** What is printed *)

Inductive io := Out (s : string) | Err (s : string).

Definition EXIT_OK : Z := 0.
Definition EXIT_USAGE : Z := 1.
Definition EXIT_OPEN : Z := 2.
Definition EXIT_IOCTL : Z := 3.
Definition EXIT_READ : Z := 4.
Definition EXIT_TIME : Z := 5.

Definition ACCT_ENA_ALL : Z :=
  Z.lor (Z.lor (Z.lor (Z.lor (Z.lor (Z.lor ACCT_ENA_FORK ACCT_ENA_EXEC) ACCT_ENA_EXIT) ACCT_ENA_OPEN)
    ACCT_ENA_CLOSE) ACCT_ENA_RENAME) ACCT_ENA_UNLINK.
Definition ACCT_COND_READ : Z := Z.shiftl 1 0.
Definition ACCT_COND_WRITE : Z := Z.shiftl 1 1.
Definition ACCT_COND_SUCCESS : Z := Z.shiftl 1 2.
Definition ACCT_COND_FAILURE : Z := Z.shiftl 1 3.
Definition ACCT_COND_ALL : Z :=
  Z.lor (Z.lor (Z.lor ACCT_COND_READ ACCT_COND_WRITE) ACCT_COND_SUCCESS) ACCT_COND_FAILURE.

Definition newline : string := chr 10.
Definition quote : string := chr 34.

Definition when (mask bit : Z) (s : string) : string := if nz (Z.land mask bit) then s else "".

Definition print_ena (ena : Z) : string :=
  ("events enabled:" ++ when ena ACCT_ENA_FORK " fork" ++ when ena ACCT_ENA_EXEC " exec" ++
   when ena ACCT_ENA_EXIT " exit" ++ when ena ACCT_ENA_OPEN " open" ++ when ena ACCT_ENA_CLOSE " close" ++
   when ena ACCT_ENA_RENAME " rename" ++ when ena ACCT_ENA_UNLINK " unlink" ++
   (if (ena =? 0)%Z then " (none)" else "") ++ newline)%string.

Definition print_cond (conds : Z) : string :=
  ("conditions:" ++ when conds ACCT_COND_READ " read" ++ when conds ACCT_COND_WRITE " write" ++
   when conds ACCT_COND_SUCCESS " success" ++ when conds ACCT_COND_FAILURE " failure" ++
   (if (conds =? 0)%Z then " (none)" else "") ++ newline)%string.

Definition ena_mask_from_str (str : string) : Z :=
  if String.eqb str "fork" then ACCT_ENA_FORK
  else if String.eqb str "exec" then ACCT_ENA_EXEC
  else if String.eqb str "exit" then ACCT_ENA_EXIT
  else if String.eqb str "open" then ACCT_ENA_OPEN
  else if String.eqb str "close" then ACCT_ENA_CLOSE
  else if String.eqb str "rename" then ACCT_ENA_RENAME
  else if String.eqb str "unlink" then ACCT_ENA_UNLINK
  else if String.eqb str "all" then ACCT_ENA_ALL
  else 0.

Definition cond_mask_from_str (str : string) : Z :=
  if String.eqb str "read" then ACCT_COND_READ
  else if String.eqb str "write" then ACCT_COND_WRITE
  else if String.eqb str "success" then ACCT_COND_SUCCESS
  else if String.eqb str "failure" then ACCT_COND_FAILURE
  else if String.eqb str "all" then ACCT_COND_ALL
  else 0.

(** ** The help *)

(** [strchr] and [strrchr], as indices. *)
Fixpoint strchr (s : string) (c : ascii) : option nat :=
  match s with
  | EmptyString => None
  | String d s' => if Ascii.eqb d c then Some O else S <$> strchr s' c
  end.
Fixpoint strrchr (s : string) (c : ascii) : option nat :=
  match s with
  | EmptyString => None
  | String d s' =>
      match strrchr s' c with
      | Some i => Some (S i)
      | None => if Ascii.eqb d c then Some O else None
      end
  end.
Fixpoint take_text (n : nat) (s : string) : string :=
  match n, s with S n', String c s' => String c (take_text n' s') | _, _ => "" end.
Fixpoint drop_text (n : nat) (s : string) : string :=
  match n, s with S n', String _ s' => drop_text n' s' | _, _ => s end.

Definition NL : ascii := Ascii.ascii_of_nat 10.
Definition BLANK : ascii := Ascii.ascii_of_nat 32.

Definition wrap_line (p : string) : string := ("    " ++ p ++ newline)%string.

(** The loop of [wrap_print] from [p]: the lines, [None] without enough fuel. *)
Fixpoint wrap_loop (fuel : nat) (p : string) : option (list string) :=
  match fuel with
  | O => None
  | S fuel' =>
      let t := strchr p NL in
      if negb (70 <? strlen p) && match t with None => true | Some _ => false end then Some [p] else
      let t := match t with
        | Some t => if Nat.ltb t 70 then t else default 69%nat (strrchr (take_text 70 p) BLANK)
        | None => default 69%nat (strrchr (take_text 70 p) BLANK)
        end in
      ls ← wrap_loop fuel' (drop_text (S t) p); Some (take_text t p :: ls)
  end.

Definition wrap_print (str : string) : option (list string) := wrap_loop (S (String.length str)) str.

Inductive handler := cmd_status_h | cmd_enable_h | cmd_disable_h | cmd_track_h | cmd_untrack_h | cmd_watch_h.

(** The subcommands; the parser of options is [opt_watch] where there is an option. *)
Record subcommand := Subcommand {
  sc_name : string; sc_synopsis : string; sc_help : string; sc_optstring : option string; sc_handler : handler }.

Definition two_lines : string := (newline ++ newline)%string.

Definition subcoms : list subcommand := [
  Subcommand "status" "status" "Prints the current status of the accounting driver." None cmd_status_h;
  Subcommand "status" "status /path/to/file"
    "Prints the current set of events and conditions being audited for the specified file." None cmd_status_h;
  Subcommand "enable" "enable fork|exec|exit|open|close|rename|unlink ..."
    "Enables the given auditing feature (or set of features, separated by spaces)." None cmd_enable_h;
  Subcommand "disable" "disable fork|exec|exit|open|close|rename|unlink ..."
    ("Disables the given auditing feature (or set of features, separated by spaces)." ++ two_lines ++
     "Disabling all of the open/close/rename/unlink file features will result in untracking all tracked files.")%string
    None cmd_disable_h;
  Subcommand "track" "track /path/to/file [open|unlink|rename] ... [read|write|success|failure] ..."
    ("Enables file open() tracking for a particular path, optionally limited to a particular set of events and conditions (separated by spaces). If the file given is already being tracked, the events/conditions will be added to the existing event set."
     ++ two_lines ++
     "The file must already exist on the system to be tracked. If no event/condition arguments are given, starts tracking all possible events.")%string
    None cmd_track_h;
  Subcommand "untrack" "untrack /path/to/file [open|unlink|rename] ... [read|write|suc...] ..."
    "Disables file open() tracking for a particular path. If events or conditions are given, removes those events and conditions from the events currently audited. If the resulting set of events or conditions is empty, stops tracking the file altogether. If no event/condition arguments are given, removes all possible."
    None cmd_untrack_h;
  Subcommand "watch" "watch [-j]"
    ("Reads audit records from the accounting device, printing their contents until interrupted or killed."
     ++ two_lines ++ "If -j is given, prints audit records as JSON objects.")%string
    (Some "j") cmd_watch_h ].

Definition help (sc : subcommand) : list io :=
  Err (newline ++ "  " ++ sc_synopsis sc ++ two_lines)%string ::
  ((fun l => Err (wrap_line l)) <$> default [] (wrap_print (sc_help sc))).

Definition usage (arg0 : string) : list io :=
  Err ("usage: " ++ arg0 ++ " operation [options] [args]" ++ newline)%string ::
  Err (newline ++ "operations:" ++ newline)%string :: (subcoms ≫= help).

(** ** The commands *)

(** The masks of the features, or the one that is unknown. *)
Fixpoint ena_masks (args : list string) (ena : Z) : string + Z :=
  match args with
  | [] => inr ena
  | a :: args =>
      let mask := ena_mask_from_str a in
      if mask =? 0 then inl a else ena_masks args (Z.lor ena mask)
  end.

(** The masks of events and conditions; [all] is an event. *)
Fixpoint event_masks (args : list string) (ena cond : Z) : string + Z * Z :=
  match args with
  | [] => inr (ena, cond)
  | a :: args =>
      let mask := ena_mask_from_str a in
      if mask =? 0 then
        let mask := cond_mask_from_str a in
        if mask =? 0 then inl a else event_masks args ena (Z.lor cond mask)
      else event_masks args (Z.lor ena mask) cond
  end.

Definition or_all (mask all : Z) : Z := if mask =? 0 then all else mask.
Definition zero_ctl : acct_ctl := AcctCtl 0 0 0 "".

(** What a process printed, its status, and the driver that it leaves. *)
Record ran (T : Type) := Ran { r_io : list io; r_code : Z; r_driver : driver T }.
Arguments Ran {T}.
Arguments r_io {T}.
Arguments r_code {T}.
Arguments r_driver {T}.

Section Commands.
Context {T : Type} `{RBTree vnodep trkvnode T}.
Variable namei : Z -> string -> Z * option vnodep.
(** The process; whether [open] succeeds, and whether the close of the device is the last. *)
Variables (proc : Z) (open_ok last : bool).
Implicit Types d : driver T.

Definition closed d : driver T := if last then (acctclose d).2 else d.
Definition open_failed d : ran T := Ran [Err "open(/dev/acct)"] EXIT_OPEN d.

Definition cmd_status (args : list string) d : ran T :=
  if negb open_ok then open_failed d else
  match args with
  | [] =>
      let '(rc, ctl, d) := acctioctl namei ACCT_IOC_STATUS zero_ctl proc d in
      if nz rc then Ran [Err "ioctl(ACCT_IOC_STATUS)"] EXIT_IOCTL (closed d) else
      Ran [Out (print_ena (acct_ena ctl));
           Out ("number of monitored files: " ++ pretty (acct_fcount ctl) ++ newline)%string] 0 (closed d)
  | a :: _ =>
      let '(rc, ctl, d) := acctioctl namei ACCT_IOC_FSTATUS (AcctCtl 0 0 0 (strlcpy PATH_MAX a)) proc d in
      if nz rc then Ran [Err "ioctl(ACCT_IOC_FSTATUS)"] EXIT_IOCTL (closed d) else
      Ran [Out (print_ena (acct_ena ctl)); Out (print_cond (acct_cond ctl))] 0 (closed d)
  end.

(** [cmd_enable] and [cmd_disable]: the device is open when the features are read. *)
Definition cmd_features (cmd : ioctl_cmd) (name arg0 : string) (args : list string) d : ran T :=
  if negb open_ok then open_failed d else
  match ena_masks args 0 with
  | inl a => Ran (Err ("unknown auditing feature: '" ++ a ++ "'")%string :: usage arg0) EXIT_USAGE (closed d)
  | inr ena =>
      let '(rc, ctl, d) := acctioctl namei cmd (AcctCtl (or_all ena ACCT_ENA_ALL) 0 0 "") proc d in
      if nz rc then Ran [Err name] EXIT_IOCTL (closed d) else Ran [Out (print_ena (acct_ena ctl))] 0 (closed d)
  end.

Definition cmd_enable := cmd_features ACCT_IOC_ENABLE "ioctl(ACCT_IOC_ENABLE)".
Definition cmd_disable := cmd_features ACCT_IOC_DISABLE "ioctl(ACCT_IOC_ENABLE)".

(** [cmd_track] and [cmd_untrack]: the device is opened after the arguments are read. *)
Definition cmd_events (cmd : ioctl_cmd) (name op arg0 : string) (args : list string) d : ran T :=
  match args with
  | [] => Ran (Err (op ++ ": path required")%string :: usage arg0) EXIT_USAGE d
  | path :: args =>
      match event_masks args 0 0 with
      | inl a => Ran (Err ("unknown event/cond: '" ++ a ++ "'")%string :: usage arg0) EXIT_USAGE d
      | inr (ena, cond) =>
          if negb open_ok then open_failed d else
          let ctl := AcctCtl (or_all ena ACCT_ENA_ALL) (or_all cond ACCT_COND_ALL) 0 (strlcpy PATH_MAX path) in
          let '(rc, ctl, d) := acctioctl namei cmd ctl proc d in
          if nz rc then Ran [Err name] EXIT_IOCTL (closed d) else
          Ran [Out (print_ena (acct_ena ctl)); Out (print_cond (acct_cond ctl))] 0 (closed d)
      end
  end.

Definition cmd_track := cmd_events ACCT_IOC_TRACK_FILE "ioctl(ACCT_IOC_TRACK_FILE)" "track".
Definition cmd_untrack := cmd_events ACCT_IOC_UNTRACK_FILE "ioctl(ACCT_IOC_UNTRACK_FILE)" "untrack".
End Commands.

(** ** Printing a record *)

Definition major (dev : Z) : Z := Z.land (Z.shiftr (u32 dev) 8) 255.

(** [%0nd] for a number that is not negative. *)
Definition padded (n : nat) (z : Z) : string :=
  let s := pretty z in (String.concat "" (replicate (n - String.length s) "0") ++ s)%string.

(** The bytes of a 64-bit number, as the bytes of a text. *)
Fixpoint le_text (n : nat) (z : Z) : string :=
  match n with O => "" | S n' => (chr z ++ le_text n' (Z.shiftr z 8))%string end.

(** [ac_comm] has no terminator when the name has 16 bytes or more; then the text goes on
    in [ac_etime], where the nanoseconds have a zero byte. *)
Definition comm_text (c : acct_common) : string :=
  if Nat.ltb (String.length (ac_comm c)) 16 then ac_comm c
  else c_str (ac_comm c ++ le_text 8 (tv_sec (ac_etime c)) ++ le_text 8 (tv_nsec (ac_etime c))).

(** The parts of [struct tm] that are printed, and the milliseconds. *)
Record broken_time := BrokenTime {
  tm_year : Z; tm_mon : Z; tm_mday : Z; tm_hour : Z; tm_min : Z; tm_sec : Z; tm_ms : Z }.

Definition print_tm (t : broken_time) : string :=
  (padded 4 (tm_year t + 1900) ++ "-" ++ padded 2 (tm_mon t + 1) ++ "-" ++ padded 2 (tm_mday t) ++ "T" ++
   padded 2 (tm_hour t) ++ ":" ++ padded 2 (tm_min t) ++ ":" ++ padded 2 (tm_sec t) ++ "." ++ padded 3 (tm_ms t) ++ "Z")%string.

Definition O_WRONLY : Z := 1.
Definition O_RDWR : Z := 2.
Definition O_APPEND : Z := 8.
Definition O_CREAT : Z := 512.
Definition O_TRUNC : Z := 1024.
Definition O_EXCL : Z := 2048.

Section Print.
(** What [gettimeofday] and [gmtime] give when the [k]th record is printed, and [strerror]. *)
Variables (now : nat -> option broken_time) (strerror : Z -> string) (json_mode : bool).

(** The time of the record is overwritten with that of the day. *)
Definition print_abs_time (ts : timespec) (k : nat) : option string := print_tm <$> now k.

Definition field (name value : string) : string := ("," ++ quote ++ name ++ quote ++ ":" ++ value)%string.
Definition quoted (s : string) : string := (quote ++ s ++ quote)%string.

Definition print_common (k : nat) (msg : acct_common) (evt : string) : option string :=
  time ← print_abs_time (ac_btime msg) k;
  let pid := pretty (s32 (ac_pid msg)) in
  let uid := pretty (s32 (ac_uid msg)) in
  let gid := pretty (s32 (ac_gid msg)) in
  let comm := comm_text msg in
  Some (if json_mode
    then ("{" ++ quoted "time" ++ ":" ++ quoted time ++ field "event" (quoted evt) ++ field "pid" pid ++
          field "uid" uid ++ field "gid" gid ++
          field "tty" ("[" ++ pretty (major (ac_tty msg)) ++ "," ++ pretty (minor (ac_tty msg)) ++ "]") ++
          (if (0 <? strlen comm)%Z then field "command" (quoted comm) else ""))%string
    else ("[" ++ time ++ "] " ++ evt ++ " pid=" ++ pid ++ " uid=" ++ uid ++ " gid=" ++ gid ++ " tty=" ++
          pretty (major (ac_tty msg)) ++ ":" ++ pretty (minor (ac_tty msg)) ++
          (if (0 <? strlen comm)%Z then " cmd='" ++ comm ++ "'" else ""))%string).

Definition print_errno (errno : Z) : string :=
  (if (errno =? 0)%Z then " success" ++ newline
   else " error=" ++ pretty errno ++ "(" ++ strerror errno ++ ")" ++ newline)%string.

Definition mode_text (mode : Z) : string :=
  ((if nz (Z.land mode O_RDWR) then "rw" else if nz (Z.land mode O_WRONLY) then "w" else "r") ++
   when mode O_APPEND "a" ++ when mode O_CREAT "c" ++ when mode O_TRUNC "t" ++ when mode O_EXCL "x")%string.

(** The name of the event, and what [print_msg_fork], ..., [print_msg_close] add. *)
Definition msg_name (b : acct_body) : string :=
  match b with
  | acct_fork_b _ => "fork" | acct_exec_b => "exec" | acct_exit_b _ _ _ _ => "exit" | acct_open_b _ _ _ => "open"
  | acct_rename_b _ _ _ => "rename" | acct_unlink_b _ _ => "unlink" | acct_close_b _ => "close"
  end.

Definition msg_rest (b : acct_body) : string :=
  if json_mode then
    (match b with
     | acct_fork_b cpid => field "child" (pretty (s32 cpid))
     | acct_exec_b => ""
     | acct_exit_b ut st mem io =>
         field "user_time" (pretty (u64 (tv_sec ut)) ++ "." ++ padded 12 (u64 (tv_nsec ut))) ++
         field "sys_time" (pretty (u64 (tv_sec st)) ++ "." ++ padded 12 (u64 (tv_nsec st))) ++
         field "avg_mem" (pretty mem) ++ field "io_blocks" (pretty io)
     | acct_open_b path mode errno => field "path" (quoted path) ++ field "mode" (pretty mode) ++ field "errno" (pretty errno)
     | acct_rename_b path new errno => field "path" (quoted path) ++ field "new_path" (quoted new) ++ field "errno" (pretty errno)
     | acct_unlink_b path errno => field "path" (quoted path) ++ field "errno" (pretty errno)
     | acct_close_b path => field "path" (quoted path)
     end ++ "}" ++ newline)%string
  else
    match b with
    | acct_fork_b cpid => " child=" ++ pretty (s32 cpid) ++ newline
    | acct_exec_b => newline
    | acct_exit_b ut st mem io =>
        " utime=" ++ pretty (u64 (tv_sec ut)) ++ "s stime=" ++ pretty (u64 (tv_sec st)) ++ "s mem=" ++ pretty mem ++
        " io=" ++ pretty io ++ newline
    | acct_open_b path mode errno => " path='" ++ path ++ "' mode=" ++ mode_text mode ++ print_errno errno
    | acct_rename_b path new errno => " path='" ++ path ++ "' newpath='" ++ new ++ "'" ++ print_errno errno
    | acct_unlink_b path errno => " path='" ++ path ++ "'" ++ print_errno errno
    | acct_close_b path => " path='" ++ path ++ "'" ++ newline
    end%string.

(** A whole record, the [k]th that is printed. *)
Definition print_msg (k : nat) (n : acct_node) : option string :=
  common ← print_common k (acc n) (msg_name (acc_body n)); Some (common ++ msg_rest (acc_body n))%string.
End Print.

(** ** [watch] *)

Definition sizeof_acct_any : Z := 2136.

Section Watch.
Context {T : Type} `{RBTree vnodep trkvnode T}.
Variables (namei : Z -> string -> Z * option vnodep) (hz tick : Z).
Variables (open_ok last_close : bool).
Variables (now : nat -> option broken_time) (strerror : Z -> string) (json_mode : bool).
Implicit Types d : driver T.

(** [uiomove] into the buffer of [cmd_watch] does not fail. *)
Definition fault_free (len : Z) (u : uio) : Z := 0.

Definition hooks (ops : list acct_op) d : driver T := foldl (fun d op => run_op namei fault_free hz tick op d) d ops.

(** How a call of [read] ends: with the error, the driver, how many bytes were read and the
    record that they are when all of it was copied, and the calls that come later; or it
    does not. *)
Definition read_end : Type := driver T + Z * driver T * Z * option acct_node * list (list acct_op).

(** What was copied of the record at the end of the queue [l]. *)
Definition copied (l : list acct_node) (u : uio) : option acct_node :=
  n ← last l; if bool_decide (uio_data u = [(0, ac_len (acc n))]) then Some n else None.

(** The reader sleeps; [evs] are the calls of the hooks, one list for each time that it is
    woken up. *)
Fixpoint read_sleep (evs : list (list acct_op)) d (u : uio) : ub read_end :=
  match evs with
  | [] => Ok (inl d)
  | ops :: evs =>
      let d := hooks ops d in
      match acctread_wakeup fault_free d 0 u with
      | None => UB no_fuel
      | Some (ReadSleep d') => read_sleep evs d' u
      | Some (ReadRet ret d' u') => Ok (inr (ret, d', uio_resid u - uio_resid u', copied (acct_list d) u', evs))
      end
  end.

Definition sys_read (evs : list (list acct_op)) d (off : Z) : ub read_end :=
  let u := Uio off sizeof_acct_any [] in
  match acctread fault_free d u with
  | None => UB no_fuel
  | Some (ReadSleep d') => read_sleep evs d' u
  | Some (ReadRet ret d' u') => Ok (inr (ret, d', uio_resid u - uio_resid u', copied (acct_list d) u', evs))
  end.

Inductive watch_end := Waits | Exits (code : Z).

Definition warning : string := ("warning: events dropped" ++ newline)%string.
Definition short_msg (name : string) (rd : Z) : string := ("short " ++ name ++ " msg: rd = " ++ pretty rd)%string.

(** The names in the messages about short records. *)
Definition short_name (b : acct_body) : string :=
  match b with
  | acct_rename_b _ _ _ => "ren" | acct_unlink_b _ _ => "unl" | acct_close_b _ => "cls" | b => msg_name b
  end.

(** A turn of the loop with the record [n] of [rd] bytes: what is printed, and the status if
    the process exits. *)
Definition watch_msg (k : nat) (seq rd : Z) (n : acct_node) : list io * option Z :=
  let cmn := acc n in
  if rd <? ac_len cmn
  then ([Err ("short msg: ac_len = " ++ pretty (ac_len cmn) ++ ", rd = " ++ pretty rd)%string], Some EXIT_READ) else
  let warn := if ac_seq cmn =? seq then [] else [Err warning] in
  if negb ((0 <=? ac_type cmn) && (ac_type cmn <=? 6))
  then (warn ++ [Err ("received invalid audit msg: " ++ pretty (ac_type cmn))%string], Some EXIT_READ) else
  if rd <? sizeof_body (acc_body n) then (warn ++ [Err (short_msg (short_name (acc_body n)) rd)], Some EXIT_READ) else
  match print_msg now strerror json_mode k n with
  | Some s => (warn ++ [Out s], None)
  | None => (warn ++ [Out (if json_mode then "{" ++ quoted "time" ++ ":" ++ quote else "["); Err "gettimeofday()"]%string, Some EXIT_TIME)
  end.

Fixpoint watch_loop (fuel : nat) (evs : list (list acct_op)) (k : nat) (seq off : Z) d : ub (list io * watch_end * driver T) :=
  match fuel, evs with
  | O, _ => UB no_fuel
  | S _, [] => Ok ([], Waits, d)
  | S fuel, ops :: evs =>
      r ← sys_read evs (hooks ops d) off;
      match r with
      | inl d => Ok ([], Waits, d)
      | inr (ret, d, rd, n, evs) =>
          if nz ret then Ok ([Err "read"], Exits EXIT_READ, closed last_close d) else
          if (rd =? 0) || (rd <? sizeof_acct_common) then Ok ([], Exits 0, closed last_close d) else
          n ← deref n;
          match watch_msg k seq rd n with
          | (out, Some code) => Ok (out, Exits code, closed last_close d)
          | (out, None) =>
              '(out', e, d) ← watch_loop fuel evs (S k) (u32 (seq + 1)) (off + rd) d;
              Ok (out ++ out', e, d)
          end
      end
  end.

(** [evs]: the calls of the hooks before each [read], and while it sleeps. *)
Definition cmd_watch (evs : list (list acct_op)) d : ub (list io * watch_end * driver T) :=
  if negb open_ok then Ok ([Err "open(/dev/acct)"], Exits EXIT_OPEN, d)
  else watch_loop (S (length evs)) evs 0 0 0 d.
End Watch.

(** ** [main] *)

(** [getopt] on an argument, and on all: the options, [None] for an unknown one, and the
    arguments behind them. *)
Fixpoint getopt_word (optstring w : string) : list (option ascii) :=
  match w with
  | EmptyString => []
  | String c w => (match strchr optstring c with Some _ => Some c | None => None end) :: getopt_word optstring w
  end.
Fixpoint getopt (optstring : string) (args : list string) : list (option ascii) * list string :=
  match args with
  | String c (String c2 w) :: rest =>
      if Ascii.eqb c "-" then
        if Ascii.eqb c2 "-" && String.eqb w "" then ([], rest)
        else let '(cs, r) := getopt optstring rest in (getopt_word optstring (String c2 w) ++ cs, r)
      else ([], args)
  | _ => ([], args)
  end.

(** [opt_watch]: the value of [json_mode], [None] for -1. *)
Definition opt_watch (c : ascii) : option bool := if Ascii.eqb c "j" then Some true else None.

(** The loop over the options: [json_mode], or the messages before [usage]. *)
Fixpoint options_loop (cs : list (option ascii)) (json_mode : bool) : list io + bool :=
  match cs with
  | [] => inr json_mode
  | None :: _ => inl []
  | Some c :: cs =>
      if Ascii.eqb c "h" then inl [] else
      match opt_watch c with
      | Some j => options_loop cs j
      | None => inl [Err "failed to parse cmdline args"]
      end
  end.

Section Main.
Context {T : Type} `{RBTree vnodep trkvnode T}.
Variables (namei : Z -> string -> Z * option vnodep) (hz tick proc : Z) (open_ok last_close : bool).
Variables (now : nat -> option broken_time) (strerror : Z -> string).
Implicit Types d : driver T.

Definition run_handler (h : handler) (json_mode : bool) (arg0 : string) (args : list string)
    (evs : list (list acct_op)) d : ub (list io * watch_end * driver T) :=
  let done r := Ok (r_io r, Exits (r_code r), r_driver r) in
  match h with
  | cmd_status_h => done (cmd_status namei proc open_ok last_close args d)
  | cmd_enable_h => done (cmd_enable namei proc open_ok last_close arg0 args d)
  | cmd_disable_h => done (cmd_disable namei proc open_ok last_close arg0 args d)
  | cmd_track_h => done (cmd_track namei proc open_ok last_close arg0 args d)
  | cmd_untrack_h => done (cmd_untrack namei proc open_ok last_close arg0 args d)
  | cmd_watch_h => cmd_watch namei hz tick open_ok last_close now strerror json_mode evs d
  end.

Definition acctctl_main (argv : list string) (evs : list (list acct_op)) d : ub (list io * watch_end * driver T) :=
  match argv with
  | arg0 :: op :: args =>
      match find (fun sc => String.eqb (sc_name sc) op) subcoms with
      | None => Ok (usage arg0, Exits EXIT_USAGE, d)
      | Some sc =>
          let '(cs, rest) := getopt (default "h" (sc_optstring sc)) args in
          match options_loop cs false with
          | inl msgs => Ok (msgs ++ usage arg0, Exits EXIT_USAGE, d)
          | inr json_mode => run_handler (sc_handler sc) json_mode arg0 rest evs d
          end
      end
  | [arg0] => Ok (usage arg0, Exits EXIT_USAGE, d)
  | [] => UB null_deref
  end.
End Main.

(** ** The records of the hooks *)

Definition is_hook (op : acct_op) : bool :=
  match op with
  | OpFork _ _ _ _ | OpExec _ _ _ | OpExit _ _ _ | OpOpen _ _ _ _ _ _ | OpRename _ _ _ _ _ _ | OpUnlink _ _ _ _ _
  | OpClose _ _ _ _ => true
  | _ => false
  end.

(** The hook gets memory for its record. *)
Definition allocated (op : acct_op) : bool :=
  match op with
  | OpFork m _ _ _ | OpExec m _ _ | OpExit m _ _ | OpOpen m _ _ _ _ _ | OpRename m _ _ _ _ _ | OpUnlink m _ _ _ _
  | OpClose m _ _ _ => m
  | _ => true
  end.

Definition msg_type (b : acct_body) : Z :=
  match b with
  | acct_fork_b _ => ACCT_MSG_FORK | acct_exec_b => ACCT_MSG_EXEC | acct_exit_b _ _ _ _ => ACCT_MSG_EXIT
  | acct_open_b _ _ _ => ACCT_MSG_OPEN | acct_rename_b _ _ _ => ACCT_MSG_RENAME | acct_unlink_b _ _ => ACCT_MSG_UNLINK
  | acct_close_b _ => ACCT_MSG_CLOSE
  end.

(** The type and the length of the record are those of its structure. *)
Definition good_record (n : acct_node) : Prop :=
  ac_type (acc n) = msg_type (acc_body n) /\ ac_len (acc n) = sizeof_body (acc_body n).

(** The driver without its queue. *)
Definition bare {T} (d : driver T) : driver T := Driver (driver_ctl d) (ac_seqno d) [] (f_tracker d) 0 0.

Section Records.
Context {T : Type} `{RBTree vnodep trkvnode T}.
Variables (namei : Z -> string -> Z * option vnodep) (hz tick : Z).
Implicit Types d : driver T.

(** What an operation does does not depend on the queue, to which it adds. *)
Definition adds (f : driver T -> driver T) : Prop := forall d,
  acct_list (f d) = acct_list (f (bare d)) ++ acct_list d /\ bare (f d) = bare (f (bare d)).

Lemma adds_id : adds (fun d => d).
Proof. by intros d. Qed.

Lemma adds_comp f g : adds f -> adds g -> adds (fun d => g (f d)).
Proof.
  intros Hf Hg d. destruct (Hf d) as [Hf1 Hf2]. destruct (Hg (f d)) as [Hg1 Hg2]. destruct (Hg (f (bare d))) as [Hg3 Hg4].
  rewrite Hg1, Hg2, Hg3, Hg4, Hf1, Hf2. by rewrite app_assoc.
Qed.

Lemma adds_record m clk ty pr b : adds (record_event m clk ty pr b).
Proof. intros [c s l t k w]. unfold record_event. destruct m; [|done]. by destruct l. Qed.

Lemma adds_seq : adds (fun d => (update_seq d).2).
Proof. by intros d. Qed.

Lemma adds_remove v : adds (fun d => (trktree_vnoderemove d v).2).
Proof.
  intros d. unfold trktree_vnoderemove. cbn [f_tracker bare].
  destruct (rb_find _ _); [|done]. by destruct (rb_remove _ _).
Qed.

(** A choice that does not look at the queue. *)
Lemma adds_if (c : driver T -> bool) f g : (forall d, c d = c (bare d)) -> adds f -> adds g -> adds (fun d => if c d then f d else g d).
Proof. intros Hc Hf Hg d. rewrite <- (Hc d). destruct (c d); [apply Hf|apply Hg]. Qed.

Lemma adds_match (c : driver T -> option trkvnode) f g : (forall d, c d = c (bare d)) ->
  (forall n, adds (f n)) -> adds g -> adds (fun d => match c d with Some n => f n d | None => g d end).
Proof. intros Hc Hf Hg d. rewrite <- (Hc d). destruct (c d); [apply Hf|apply Hg]. Qed.

Lemma hook_adds op : is_hook op = true -> adds (run_op namei fault_free hz tick op).
Proof.
  intros Hop. destruct op; try done; cbn [run_op].
  - apply (adds_if (fun d => negb (nz (Z.land (acct_ena (driver_ctl d)) ACCT_ENA_FORK)))); [done|apply adds_id|apply adds_record].
  - apply (adds_if (fun d => negb (nz (Z.land (acct_ena (driver_ctl d)) ACCT_ENA_EXEC)))); [done|apply adds_id|apply adds_record].
  - apply (adds_if (fun d => negb (nz (Z.land (acct_ena (driver_ctl d)) ACCT_ENA_EXIT)))); [done|apply adds_id|apply adds_record].
  - apply (adds_if (fun d => nz (trktree_parsepermissions d (trktree_vnodelookup d vn) ACCT_ENA_OPEN (u8 i0)))); [done|apply adds_id|].
    apply (adds_match (fun d => trktree_vnodelookup d vn)); [done|intros n; apply adds_record|apply adds_id].
  - apply (adds_if (fun d => nz (trktree_parsepermissions d (trktree_vnodelookup d vn) ACCT_ENA_RENAME 0))); [done| |];
      apply (adds_match (fun d => trktree_vnodelookup d vn)); try done; try apply adds_id; intros n; [apply adds_remove|].
    destruct m; cbn [negb]; [|apply adds_seq]. apply (adds_comp _ (fun d => (trktree_vnoderemove d (trk_vnode n)).2)); [apply adds_record|apply adds_remove].
  - apply (adds_if (fun d => nz (trktree_parsepermissions d (trktree_vnodelookup d vn) ACCT_ENA_UNLINK 0))); [done| |];
      apply (adds_match (fun d => trktree_vnodelookup d vn)); try done; try apply adds_id; intros n; [apply adds_remove|].
    destruct m; cbn [negb]; [|apply adds_seq]. apply (adds_comp _ (fun d => (trktree_vnoderemove d (trk_vnode n)).2)); [apply adds_record|apply adds_remove].
  - apply (adds_if (fun d => nz (trktree_parsepermissions d (trktree_vnodelookup d vn) ACCT_ENA_CLOSE 0))); [done|apply adds_id|].
    apply (adds_match (fun d => trktree_vnodelookup d vn)); [done|intros n; apply adds_record|apply adds_id].
Qed.

Lemma hooks_adds ops : forallb is_hook ops = true -> adds (hooks namei hz tick ops).
Proof.
  induction ops as [|op ops IH]; [intros _; apply adds_id|]. cbn [forallb]. rewrite andb_true_iff. intros [Hop Hops].
  apply (adds_comp _ (hooks namei hz tick ops)); [by apply hook_adds|by apply IH].
Qed.

(** What a hook does to an empty queue: nothing, it takes a number, or it adds a record. *)
Definition one_event (m : bool) d d' : Prop :=
  acct_ena (driver_ctl d') = acct_ena (driver_ctl d) /\
  ((acct_list d' = [] /\ ac_seqno d' = ac_seqno d) \/
   (m = false /\ acct_list d' = [] /\ ac_seqno d' = s32 (ac_seqno d + 1)) \/
   exists n, acct_list d' = [n] /\ good_record n /\ ac_seq (acc n) = u32 (ac_seqno d) /\ ac_seqno d' = s32 (ac_seqno d + 1)).

Lemma record_one m clk pr b d : acct_list d = [] -> one_event m d (record_event m clk (msg_type b) pr b d).
Proof.
  intros Hd. unfold record_event, add_node. destruct m; cbn [negb].
  - rewrite Hd. split; [done|]. right. right. eexists. cbn. rewrite Hd. split; [done|]. split; [|done].
    split; by destruct b.
  - split; [done|]. right. left. by rewrite <- Hd.
Qed.

Lemma remove_one m d d' v : one_event m d d' -> one_event m d (trktree_vnoderemove d' v).2.
Proof.
  intros Hd. unfold trktree_vnoderemove. destruct (rb_find _ _); [|done]. by destruct (rb_remove _ _).
Qed.

Lemma same_one m d : acct_list d = [] -> one_event m d d.
Proof. intros Hd. split; [done|by left]. Qed.

Lemma hook_one op d : is_hook op = true -> acct_list d = [] -> one_event (allocated op) d (run_op namei fault_free hz tick op d).
Proof.
  intros Hop Hd. destruct op; try done; cbn [run_op allocated].
  - unfold acct_fork. case_if; [by apply same_one|by apply (record_one _ _ _ (acct_fork_b _))].
  - unfold acct_exec. case_if; [by apply same_one|by apply (record_one _ _ _ acct_exec_b)].
  - unfold acct_exit. case_if; [by apply same_one|by apply (record_one _ _ _ (acct_exit_b _ _ _ _))].
  - unfold acct_open. case_if; [by apply same_one|]. case_match; [by apply (record_one _ _ _ (acct_open_b _ _ _))|by apply same_one].
  - unfold acct_rename. destruct (trktree_vnodelookup d vn) as [n|]; [|case_if; by apply same_one].
    case_if; [apply remove_one; by apply same_one|]. destruct m; cbn [negb].
    + apply remove_one. by apply (record_one _ _ _ (acct_rename_b _ _ _)).
    + split; [done|]. right. by left.
  - unfold acct_unlink. destruct (trktree_vnodelookup d vn) as [n|]; [|case_if; by apply same_one].
    case_if; [apply remove_one; by apply same_one|]. destruct m; cbn [negb].
    + apply remove_one. by apply (record_one _ _ _ (acct_unlink_b _ _)).
    + split; [done|]. right. by left.
  - unfold acct_close. case_if; [by apply same_one|]. case_match; [by apply (record_one _ _ _ (acct_close_b _))|by apply same_one].
Qed.
End Records.

(** Records with their numbers in order, from [s] on and below [s']. *)
Fixpoint numbered (s : Z) (l : list acct_node) (s' : Z) : Prop :=
  match l with
  | [] => s <= s'
  | n :: l => good_record n /\ s <= ac_seq (acc n) /\ numbered (ac_seq (acc n) + 1) l s'
  end.

Lemma numbered_app s l1 s1 l2 s2 : numbered s l1 s1 -> numbered s1 l2 s2 -> numbered s (l1 ++ l2) s2.
Proof.
  revert s. induction l1 as [|n l1 IH]; intros s H1 H2; cbn in *.
  - destruct l2 as [|n l2]; cbn in *; [lia|]. destruct H2 as (? & ? & ?). split_and!; [done|lia|done].
  - destruct H1 as (? & ? & ?). split_and!; [done|done|by apply IH].
Qed.

Lemma numbered_good s l s' : numbered s l s' -> Forall good_record l.
Proof. revert s. induction l as [|n l IH]; intros s; [constructor|]. intros (? & _ & ?). constructor; [done|by eapply IH]. Qed.

Section Numbered.
Context {T : Type} `{RBTree vnodep trkvnode T}.
Variables (namei : Z -> string -> Z * option vnodep) (hz tick : Z).
Implicit Types d : driver T.
Notation hooks := (hooks namei hz tick).

(** The records that the hooks would queue if nobody read them, the oldest first. *)
Definition produced (ops : list acct_op) d : list acct_node := rev (acct_list (hooks ops (bare d))).

Lemma hooks_list ops d : forallb is_hook ops = true -> rev (acct_list (hooks ops d)) = rev (acct_list d) ++ produced ops d.
Proof. intros Ho. unfold produced. destruct (hooks_adds namei hz tick ops Ho d) as [-> _]. by rewrite rev_app_distr. Qed.

Lemma hooks_bare ops d : forallb is_hook ops = true -> bare (hooks ops d) = bare (hooks ops (bare d)).
Proof. intros Ho. apply hooks_adds, Ho. Qed.

Lemma hooks_app ops1 ops2 d : hooks (ops1 ++ ops2) d = hooks ops2 (hooks ops1 d).
Proof. unfold AcctCtl.hooks. by rewrite foldl_app. Qed.

Lemma produced_app ops1 ops2 d : forallb is_hook ops1 = true -> forallb is_hook ops2 = true ->
  produced (ops1 ++ ops2) d = produced ops1 d ++ produced ops2 (hooks ops1 d).
Proof.
  intros H1 H2. unfold produced at 1. rewrite hooks_app, hooks_list by done. f_equal.
  unfold produced. by rewrite (hooks_bare ops1 d).
Qed.

Lemma hooks_numbered ops d : forallb is_hook ops = true -> 0 <= ac_seqno d -> ac_seqno d + Z.of_nat (length ops) < 2 ^ 31 ->
  let d' := hooks ops d in
  acct_ena (driver_ctl d') = acct_ena (driver_ctl d) /\ ac_seqno d <= ac_seqno d' <= ac_seqno d + Z.of_nat (length ops) /\
  numbered (ac_seqno d) (produced ops d) (ac_seqno d') /\
  (forallb allocated ops = true -> ac_seqno d' = ac_seqno d + Z.of_nat (length (produced ops d))).
Proof.
  revert d. induction ops as [|op ops IH]; intros d Ho H0 Hl; cbn [length] in Hl.
  { cbn. repeat split; lia. }
  cbn [forallb] in Ho. apply andb_true_iff in Ho as [Hop Ho].
  change (op :: ops) with ([op] ++ ops). rewrite produced_app by (cbn; by rewrite ?Hop).
  cbn zeta. rewrite hooks_app. set (d1 := hooks [op] d).
  assert (H1 : one_event (allocated op) (bare d) (run_op namei fault_free hz tick op (bare d))) by by apply hook_one.
  assert (Hb : bare d1 = bare (run_op namei fault_free hz tick op (bare d))) by by apply (hook_adds namei hz tick op Hop d).
  assert (Hena : acct_ena (driver_ctl d1) = acct_ena (driver_ctl d)).
  { change (driver_ctl d1) with (driver_ctl (bare d1)). rewrite Hb. apply H1. }
  assert (Hseq : ac_seqno d1 = ac_seqno (run_op namei fault_free hz tick op (bare d))).
  { change (ac_seqno d1) with (ac_seqno (bare d1)). by rewrite Hb. }
  assert (Hs32 : s32 (ac_seqno d + 1) = ac_seqno d + 1) by (apply sN_small; lia).
  assert (Hu32 : u32 (ac_seqno d) = ac_seqno d) by (apply uN_small; lia).
  assert (ac_seqno d <= ac_seqno d1 <= ac_seqno d + 1 /\ numbered (ac_seqno d) (produced [op] d) (ac_seqno d1) /\
    (allocated op = true -> ac_seqno d1 = ac_seqno d + Z.of_nat (length (produced [op] d)))) as (Hs1 & Hn1 & Hd1).
  { rewrite Hseq. unfold produced, AcctCtl.hooks. cbn [foldl]. destruct H1 as [_ [[-> ->]|[(-> & -> & ->)|(n & -> & Hg & Hq & ->)]]];
      cbn [ac_seqno bare rev app numbered length] in *; rewrite ?Hs32, ?Hq, ?Hu32; repeat split; try lia; try done; try apply Hg. }
  destruct (IH d1 Ho ltac:(lia) ltac:(lia)) as (He & Hs2 & Hn2 & Hd2). rewrite He, Hena.
  split; [done|]. split; [rewrite length_app; cbn [length]; lia|]. split; [by apply (numbered_app _ _ (ac_seqno d1))|].
  cbn [forallb app]. rewrite andb_true_iff. intros [Ha1 Ha2]. rewrite (Hd2 Ha2), (Hd1 Ha1), length_app. lia.
Qed.
End Numbered.

(** ** What [watch] prints *)

Section Watching.
Context {T : Type} `{RBTree vnodep trkvnode T}.
Variables (namei : Z -> string -> Z * option vnodep) (hz tick : Z) (last_close : bool).
Variables (now : nat -> option broken_time) (strerror : Z -> string) (json_mode : bool).
Implicit Types d : driver T.
Notation hooks := (hooks namei hz tick).
Notation produced := (produced namei hz tick).
Notation all_hooks evs := (forallb is_hook (concat evs) = true).

Definition msg_text (k : nat) (n : acct_node) : string := default "" (print_msg now strerror json_mode k n).

(** The records, from the [k]th on, each with the warning if its number is not its index. *)
Fixpoint report (k : nat) (l : list acct_node) : list io :=
  match l with
  | [] => []
  | n :: l => (if ac_seq (acc n) =? u32 (Z.of_nat k) then [] else [Err warning]) ++ [Out (msg_text k n)] ++ report (S k) l
  end.

Lemma produced_bare ops d d' : bare d = bare d' -> produced ops d = produced ops d'.
Proof. unfold AcctCtl.produced. by intros ->. Qed.

Lemma hooks_ena ops d : forallb is_hook ops = true -> acct_ena (driver_ctl (hooks ops d)) = acct_ena (driver_ctl d).
Proof.
  revert d. induction ops as [|op ops IH]; intros d; [done|]. cbn [forallb]. rewrite andb_true_iff. intros [Hop Ho].
  change (hooks (op :: ops) d) with (hooks ops (run_op namei fault_free hz tick op d)). rewrite IH by done.
  destruct (hook_one namei hz tick op (bare d) Hop eq_refl) as [He _]. destruct (hook_adds namei hz tick op Hop d) as [_ Hb].
  change (driver_ctl (run_op namei fault_free hz tick op d)) with (driver_ctl (bare (run_op namei fault_free hz tick op d))).
  rewrite Hb. exact He.
Qed.

Lemma read_record d l n off : acct_list d = l ++ [n] -> good_record n ->
  acctread_tail fault_free d (Uio off sizeof_acct_any []) =
    Some (ReadRet 0 (with_taillock (taillock d - 1) (with_list l d))
      (Uio (off + ac_len (acc n)) (sizeof_acct_any - ac_len (acc n)) [(0, ac_len (acc n))])) /\
  copied (acct_list d) (Uio (off + ac_len (acc n)) (sizeof_acct_any - ac_len (acc n)) [(0, ac_len (acc n))]) = Some n.
Proof.
  intros Hd [_ Hl]. unfold acctread_tail, copied. rewrite Hd, last_snoc, removelast_last, Hl. split.
  - by destruct (acc_body n).
  - cbn [mbind option_bind uio_data]. by rewrite Hl, bool_decide_eq_true_2.
Qed.

Lemma read_empty d off : acct_list d = [] ->
  acctread_tail fault_free d (Uio off sizeof_acct_any []) = Some (ReadSleep (with_taillock (taillock d - 1) d)).
Proof. unfold acctread_tail. by intros ->. Qed.

(** How a [read] ends: with the oldest record, or asleep when the hooks queue none. *)
Definition read_spec (evs : list (list acct_op)) d (r : ub read_end) : Prop :=
  (exists used evs' n rest d', evs = used ++ evs' /\ r = Ok (inr (0, d', ac_len (acc n), Some n, evs')) /\
     rev (acct_list d) ++ produced (concat used) d = n :: rest /\ rev (acct_list d') = rest /\
     bare d' = bare (hooks (concat used) d)) \/
  (exists d', r = Ok (inl d') /\ acct_list d' = [] /\ rev (acct_list d) ++ produced (concat evs) d = []).

Lemma rev_snoc {A} (l : list A) x xs : rev l = x :: xs -> l = rev xs ++ [x].
Proof. intros Hr. apply (f_equal (@rev A)) in Hr. rewrite rev_involutive in Hr. exact Hr. Qed.

Lemma read_sleep_ok evs d off : all_hooks evs -> acct_list d = [] -> Forall good_record (produced (concat evs) d) ->
  read_spec evs d (read_sleep namei hz tick evs d (Uio off sizeof_acct_any [])).
Proof.
  revert d. induction evs as [|ops evs IH]; intros d He Hd Hg.
  { right. exists d. rewrite Hd. done. }
  cbn [concat] in He, Hg. rewrite forallb_app, andb_true_iff in He. destruct He as [Ho He].
  rewrite produced_app in Hg by done. apply Forall_app in Hg as [Hg1 Hg2].
  cbn [read_sleep]. set (d1 := hooks ops d) in *. unfold acctread_wakeup. change (negb (0 =? EWOULDBLOCK) && negb (0 =? 0)) with false. cbv iota.
  set (d2 := with_taillock _ d1). assert (Hl : rev (acct_list d2) = produced ops d).
  { change (acct_list d2) with (acct_list d1). unfold d1. rewrite hooks_list, Hd by done. done. }
  destruct (produced ops d) as [|n rest] eqn:Hp.
  - assert (Hd2 : acct_list d2 = []) by (apply (f_equal (@rev _)) in Hl; by rewrite rev_involutive in Hl).
    rewrite read_empty by done. set (d3 := with_taillock _ d2).
    assert (Hb3 : bare d3 = bare d1) by done.
    destruct (IH d3 He Hd2) as [(used & evs' & n & rest & d' & -> & -> & Hn & Hr & Hb)|(d' & -> & Hd' & Hn)].
    + by rewrite (produced_bare _ _ _ Hb3).
    + left. exists (ops :: used), evs', n, rest, d'. split; [done|]. split; [done|].
      rewrite concat_app, forallb_app, andb_true_iff in He. destruct He as [He _].
      cbn [concat]. rewrite produced_app, Hp by done. rewrite Hd. split; [|split; [done|]].
      * change (acct_list d3) with (acct_list d2) in Hn. rewrite Hd2 in Hn. by rewrite (produced_bare _ _ _ Hb3) in Hn.
      * rewrite Hb, hooks_app. by rewrite hooks_bare, Hb3, <- hooks_bare by done.
    + right. exists d'. split; [done|]. split; [done|]. cbn [concat]. rewrite produced_app, Hp, Hd by done.
      change (acct_list d3) with (acct_list d2) in Hn. rewrite Hd2 in Hn. by rewrite (produced_bare _ _ _ Hb3) in Hn.
  - apply Forall_cons in Hg1 as [Hgn _]. pose proof (rev_snoc _ _ _ Hl) as Hl2.
    destruct (read_record d2 (rev rest) n off Hl2 Hgn) as [-> Hc].
    left. exists [ops], evs, n, rest, (with_taillock (taillock d2 - 1) (with_list (rev rest) d2)).
    split; [done|]. split.
    { change (acct_list d1) with (acct_list d2). rewrite Hc. cbn [uio_resid]. do 6 f_equal. lia. }
    cbn [concat]. rewrite app_nil_r, Hp, Hd. split; [done|]. split; [apply rev_involutive|done].
Qed.

Lemma sys_read_ok evs d off : all_hooks evs -> acct_ena (driver_ctl d) <> 0 -> 0 <= off ->
  Forall good_record (rev (acct_list d) ++ produced (concat evs) d) -> read_spec evs d (sys_read namei hz tick evs d off).
Proof.
  intros He Hena Hoff Hg. unfold sys_read, acctread. rewrite (proj2 (Z.eqb_neq _ _) Hena). cbn [andb uio_offset].
  rewrite (proj2 (Z.ltb_ge _ _)) by done. set (d1 := with_taillock _ d).
  destruct (rev (acct_list d)) as [|n rest] eqn:Hp.
  - assert (Hd : acct_list d = []) by (apply (f_equal (@rev _)) in Hp; by rewrite rev_involutive in Hp).
    rewrite read_empty by done. set (d3 := with_taillock _ d1).
    assert (Hb3 : bare d3 = bare d) by done.
    destruct (read_sleep_ok evs d3 off He Hd Hg) as [(used & evs' & n & rest & d' & -> & -> & Hn & Hr & Hb)|(d' & -> & Hd' & Hn)];
      change (acct_list d3) with (acct_list d) in Hn; rewrite Hp, (produced_bare _ _ _ Hb3) in Hn.
    + left. exists used, evs', n, rest, d'. rewrite Hp. do 4 (split; [done|]).
      rewrite concat_app, forallb_app, andb_true_iff in He. destruct He as [He _].
      by rewrite Hb, hooks_bare, Hb3, <- hooks_bare by done.
    + right. exists d'. by rewrite Hp.
  - apply Forall_app in Hg as [Hg _]. apply Forall_cons in Hg as [Hgn _]. pose proof (rev_snoc _ _ _ Hp) as Hl.
    destruct (read_record d1 (rev rest) n off Hl Hgn) as [-> Hc].
    left. exists [], evs, n, rest, (with_taillock (taillock d1 - 1) (with_list (rev rest) d1)).
    split; [done|]. split.
    { change (acct_list d) with (acct_list d1). rewrite Hc. cbn [uio_resid]. do 6 f_equal. lia. }
    rewrite Hp. split; [by rewrite app_nil_r|]. split; [apply rev_involutive|done].
Qed.

Hypothesis clock_runs : forall k, is_Some (now k).

Lemma watch_msg_ok k seq n : good_record n ->
  watch_msg now strerror json_mode k seq (ac_len (acc n)) n =
    ((if ac_seq (acc n) =? seq then [] else [Err warning]) ++ [Out (msg_text k n)], None) /\
  sizeof_acct_common <= ac_len (acc n).
Proof.
  intros [Ht Hl]. unfold watch_msg. rewrite Z.ltb_irrefl, Ht, Hl. split; [|by destruct (acc_body n)].
  assert (negb ((0 <=? msg_type (acc_body n)) && (msg_type (acc_body n) <=? 6)) = false) as -> by by destruct (acc_body n).
  rewrite Z.ltb_irrefl. unfold msg_text, print_msg, print_common, print_abs_time.
  destruct (clock_runs k) as [t ->]. done.
Qed.

Lemma watch_loop_ok fuel evs k off d : (length evs < fuel)%nat -> all_hooks evs -> acct_ena (driver_ctl d) <> 0 -> 0 <= off ->
  Forall good_record (rev (acct_list d) ++ produced (concat evs) d) ->
  exists shown pending d',
    watch_loop namei hz tick last_close now strerror json_mode fuel evs k (u32 (Z.of_nat k)) off d = Ok (report k shown, Waits, d') /\
    rev (acct_list d) ++ produced (concat evs) d = shown ++ pending /\ rev (acct_list d') = pending.
Proof.
  revert evs k off d. induction fuel as [|fuel IH]; intros evs k off d Hf He Hena Hoff Hg; [lia|].
  destruct evs as [|ops evs].
  { exists [], (rev (acct_list d)), d. split; [done|]. split; [|done]. cbn [concat]. by rewrite app_nil_r. }
  cbn [concat] in He, Hg. rewrite forallb_app, andb_true_iff in He. destruct He as [Ho He].
  cbn [watch_loop concat]. set (d1 := hooks ops d) in *.
  assert (Hsum : rev (acct_list d) ++ produced (ops ++ concat evs) d = rev (acct_list d1) ++ produced (concat evs) d1).
  { rewrite produced_app by done. unfold d1. by rewrite hooks_list, app_assoc by done. }
  rewrite Hsum in *. assert (Hena1 : acct_ena (driver_ctl d1) <> 0) by (unfold d1; by rewrite hooks_ena).
  destruct (sys_read_ok evs d1 off He Hena1 Hoff Hg) as [(used & evs' & n & rest & d' & -> & -> & Hn & Hr & Hb)|(d' & -> & Hd' & Hn)];
    cbn [mbind ub_bind].
  2:{ exists [], [], d'. split; [done|]. split; [done|]. by rewrite Hd'. }
  rewrite concat_app in *. rewrite forallb_app, andb_true_iff in He. destruct He as [He1 He2].
  rewrite produced_app, app_assoc, Hn in * by done.
  apply Forall_cons in Hg as [Hgn Hg]. destruct (watch_msg_ok k (u32 (Z.of_nat k)) n Hgn) as [Hw Hlen].
  unfold sizeof_acct_common in *. change (nz 0) with false. rewrite (proj2 (Z.eqb_neq _ 0)), (proj2 (Z.ltb_ge _ 80)) by lia.
  cbn [mbind ub_bind deref orb]. rewrite Hw.
  rewrite <- (produced_bare (concat evs') _ _ Hb) in *. rewrite <- Hr in Hg.
  replace (u32 (u32 (Z.of_nat k) + 1)) with (u32 (Z.of_nat (S k))) by (rewrite uN_add_l; f_equal; lia).
  destruct (IH evs' (S k) (off + ac_len (acc n)) d') as (shown & pending & d2 & -> & Heq & Hp2); try done.
  - cbn [length] in Hf. rewrite length_app in Hf. lia.
  - change (driver_ctl d') with (driver_ctl (bare d')). rewrite Hb. cbn [driver_ctl bare]. by rewrite hooks_ena.
  - lia.
  - exists (n :: shown), pending, d2. cbn [mbind ub_bind]. split.
    + cbn [report]. by rewrite <- !app_assoc.
    + split; [|done]. cbn [app]. rewrite <- Heq, Hr. done.
Qed.
End Watching.

Lemma numbered_gap s l s' i j n m : numbered s l s' -> l !! i = Some n -> l !! j = Some m -> (i <= j)%nat ->
  ac_seq (acc n) + Z.of_nat (j - i) <= ac_seq (acc m).
Proof.
  revert s i j n m. induction l as [|x l IH]; intros s i j n m Hl Hi Hj Hij; [done|]. destruct Hl as (Hg & Hs & Hl).
  destruct i as [|i], j as [|j]; cbn in Hi, Hj; [simplify_eq; lia| |lia|].
  - injection Hi as ->. destruct l as [|y l]; [done|]. destruct j as [|j].
    + injection Hj as ->. destruct Hl as (_ & ? & _). lia.
    + assert (Hy : (y :: l) !! 0%nat = Some y) by done. pose proof (IH _ 0%nat (S j) y m Hl Hy Hj ltac:(lia)).
      destruct Hl as (_ & ? & _). lia.
  - pose proof (IH _ i j n m Hl Hi Hj ltac:(lia)). by replace (S j - S i)%nat with (j - i)%nat by lia.
Qed.

(** Numbers and indices: the [i]th record, of which [length l - i] are left. *)
Lemma numbered_bounds s l s' i n : numbered s l s' -> l !! i = Some n ->
  s + Z.of_nat i <= ac_seq (acc n) /\ ac_seq (acc n) + Z.of_nat (length l - i) <= s'.
Proof.
  revert s i n. induction l as [|x l IH]; intros s i n Hl Hi; [done|]. destruct Hl as (_ & Hs & Hl).
  destruct i as [|i]; cbn [length].
  - injection Hi as ->. split; [lia|]. destruct l as [|y l].
    + cbn in *. lia.
    + destruct (IH _ 0%nat y Hl eq_refl) as [H1 H2]. cbn [length] in *. lia.
  - destruct (IH _ i n Hl Hi) as [H1 H2]. lia.
Qed.

Lemma report_imap now strerror json l k : (forall i n, l !! i = Some n -> ac_seq (acc n) = Z.of_nat (k + i) /\ Z.of_nat (k + i) < 2 ^ 32) ->
  report now strerror json k l = imap (fun i n => Out (msg_text now strerror json (k + i) n)) l.
Proof.
  revert k. induction l as [|x l IH]; intros k Hl; [done|]. cbn [report imap].
  destruct (Hl 0%nat x eq_refl) as [Hx Hk]. rewrite Nat.add_0_r in *.
  rewrite Hx, uN_small, Z.eqb_refl by lia. cbn [app]. f_equal.
  rewrite IH by (intros i n Hi; specialize (Hl (S i) n Hi); rewrite Nat.add_succ_r in Hl; exact Hl).
  apply imap_ext. intros i n _. cbn. by rewrite Nat.add_succ_r.
Qed.

(** C22: [watch], started when the device was just attached or closed for the last time, with
    an event enabled, prints the records of the hooks in the order in which they were
    queued, each once and whole, whether it slept or the records were waiting; it never
    exits, and what is not printed yet is still in the queue.  There is no warning about
    dropped events if the hooks had memory for all records; but from the first record with
    a warning on, every record has one. *)
Theorem watch_reports {T} `{RBTree vnodep trkvnode T} namei hz tick last now strerror json evs (d : driver T) :
  acct_list d = [] -> ac_seqno d = 0 -> acct_ena (driver_ctl d) <> 0 -> (forall k, is_Some (now k)) ->
  forallb is_hook (concat evs) = true -> Z.of_nat (length (concat evs)) < 2 ^ 31 ->
  exists shown pending d',
    cmd_watch namei hz tick true last now strerror json evs d = Ok (report now strerror json 0 shown, Waits, d') /\
    produced namei hz tick (concat evs) d = shown ++ pending /\ rev (acct_list d') = pending /\
    (forallb allocated (concat evs) = true ->
       report now strerror json 0 shown = imap (fun k n => Out (msg_text now strerror json k n)) shown) /\
    (forall i j n m, shown !! i = Some n -> shown !! j = Some m -> (i <= j)%nat ->
       ac_seq (acc n) <> Z.of_nat i -> ac_seq (acc m) <> Z.of_nat j).
Proof.
  intros Hd Hs Hena Hnow Ho Hl. destruct (hooks_numbered namei hz tick (concat evs) d Ho ltac:(lia) ltac:(lia)) as (_ & Hb & Hn & Hdense).
  rewrite Hs in *. pose proof (numbered_good _ _ _ Hn) as Hg.
  destruct (watch_loop_ok namei hz tick last now strerror json Hnow (S (length evs)) evs 0 0 d) as (shown & pending & d' & Hw & Heq & Hp);
    [lia|done|done|done|by rewrite Hd|].
  rewrite Hd in Heq. cbn [rev app] in Heq. rewrite Heq in *. exists shown, pending, d'.
  split; [exact Hw|]. split; [done|]. split; [done|]. split.
  - intros Ha. specialize (Hdense Ha). apply (report_imap _ _ _ _ 0).
    intros i n Hi. assert (Hi' := Hi). apply lookup_lt_Some in Hi. rewrite length_app in Hdense.
    destruct (numbered_bounds _ _ _ i n Hn) as [H1 H2]; [by apply lookup_app_l_Some|]. rewrite length_app in H2. lia.
  - intros i j n m Hi Hj Hij Hne. pose proof (lookup_app_l_Some shown pending i n Hi) as Hi'.
    pose proof (lookup_app_l_Some shown pending j m Hj) as Hj'.
    destruct (numbered_bounds _ _ _ i n Hn Hi') as [H1 _]. pose proof (numbered_gap _ _ _ i j n m Hn Hi' Hj' Hij). lia.
Qed.

(** ** What the commands change *)

Section Changes.
Context {T : Type} `{RBTree vnodep trkvnode T} (rb_map : T -> gmap vnodep trkvnode) `{!TrkTree rb_map}.
Variables (namei : Z -> string -> Z * option vnodep) (proc : Z) (last : bool).
Implicit Types d : driver T.

Lemma closed_same d : f_tracker (closed last d) = f_tracker d /\ driver_ctl (closed last d) = driver_ctl d.
Proof. by destruct last. Qed.

Lemma closed_queue d : last = true -> acct_list (closed last d) = [] /\ ac_seqno (closed last d) = 0.
Proof. intros ->. cbn. by rewrite drain_list_nil. Qed.

(** [status] of a file prints what is tracked for its vnode. *)
Lemma status_prints path v d : path_to_vnode namei proc (strlcpy PATH_MAX path) = Some v ->
  let n := default (Trkvnode "" 0 0 v) (tracked rb_map d !! v) in
  cmd_status namei proc true last [path] d =
    Ran [Out (print_ena (trk_ena n)); Out (print_cond (trk_flags n))] 0 (closed last d).
Proof.
  intros Hp. unfold cmd_status. cbn [negb acctioctl acct_path]. unfold trktree_pathlookup, trktree_vnodelookup. rewrite Hp.
  cbn [mbind option_bind]. rewrite (rb_find_map (rb_map := rb_map)). unfold tracked. by destruct (rb_map (f_tracker d) !! v).
Qed.

Lemma all_nonzero mask all : all <> 0 -> or_all mask all <> 0.
Proof. intros Ha. unfold or_all. by case_if; cbool. Qed.

(** [track] marks the file; the rest of the tree stays. *)
Lemma track_marks path v evs ena cond arg0 d :
  well_keyed (tracked rb_map d) -> path_to_vnode namei proc (strlcpy PATH_MAX path) = Some v ->
  event_masks evs 0 0 = inr (ena, cond) ->
  let old := default (Trkvnode (trk_path_copy (strlcpy PATH_MAX path)) 0 0 v) (tracked rb_map d !! v) in
  let n := trk_or_flags (or_all cond ACCT_COND_ALL) (trk_or_ena (Z.land (or_all ena ACCT_ENA_ALL) F_ENA) old) in
  exists d', cmd_track namei proc true last arg0 (path :: evs) d =
      Ran [Out (print_ena (trk_ena n)); Out (print_cond (trk_flags n))] 0 (closed last d') /\
    tracked rb_map d' !! v = Some n /\ delete v (tracked rb_map d') = delete v (tracked rb_map d) /\
    acct_ena (driver_ctl d') = acct_ena (driver_ctl d).
Proof.
  intros Hw Hp He. cbv zeta. unfold cmd_track, cmd_events. rewrite He. cbn [negb acctioctl acct_path].
  unfold trktree_add_path, trktree_add_vnode. rewrite Hp.
  set (old := default _ _). pose proof (add_vnode_tracked rb_map d v (strlcpy PATH_MAX path)) as Ha.
  assert (Hk : trk_vnode old = v) by (unfold old; destruct (tracked rb_map d !! v) eqn:E; simpl; [by apply Hw|done]).
  assert (Hc : acct_ena (driver_ctl (trktree_add_vnode_unlocked d v (strlcpy PATH_MAX path)).2) = acct_ena (driver_ctl d)).
  { unfold trktree_add_vnode_unlocked. by destruct (rb_insert _ _ _) as [[?|] ?]. }
  destruct (trktree_add_vnode_unlocked d v (strlcpy PATH_MAX path)) as [n d1]. cbv zeta in Ha. destruct Ha as [-> Ht].
  fold old. rewrite Hk. change (nz 0) with false. cbv iota.
  eexists. split; [reflexivity|]. unfold tracked in *. cbn [f_tracker with_tracker driver_ctl] in *.
  rewrite (rb_modify_map (rb_map := rb_map)), lookup_alter_eq, Ht.
  assert (Hl : (if rb_map (f_tracker d) !! v is Some _ then rb_map (f_tracker d)
    else <[v := Trkvnode (trk_path_copy (strlcpy PATH_MAX path)) 0 0 v]> (rb_map (f_tracker d))) !! v = Some old).
  { unfold old. destruct (rb_map (f_tracker d) !! v) eqn:E; [done|]. by rewrite lookup_insert_eq. }
  rewrite Hl. split; [done|]. split; [|done]. apply map_eq. intros k. destruct (decide (k = v)) as [->|Hne].
  - by rewrite !lookup_delete_eq.
  - rewrite !lookup_delete_ne, lookup_alter_ne by done. destruct (rb_map (f_tracker d) !! v); [done|]. by rewrite lookup_insert_ne.
Qed.

(** [untrack] forgets it, whatever is asked for. *)
Lemma untrack_forgets path v evs ena cond arg0 d : path_to_vnode namei proc (strlcpy PATH_MAX path) = Some v ->
  event_masks evs 0 0 = inr (ena, cond) ->
  exists d', cmd_untrack namei proc true last arg0 (path :: evs) d =
      Ran [Out (print_ena (acct_ena (driver_ctl d))); Out (print_cond 0)] 0 (closed last d') /\
    tracked rb_map d' = delete v (tracked rb_map d).
Proof.
  intros Hp He. unfold cmd_untrack, cmd_events. rewrite He. cbn [negb acctioctl acct_path].
  unfold trktree_pathremove. cbn [acct_path set_ena]. rewrite Hp.
  pose proof (vnoderemove_tracked rb_map d v) as Hr. destruct (trktree_vnoderemove d v) as [r d']. by exists d'.
Qed.

(** What the commands do to a file, with every event and condition that [untrack] may be given. *)
Lemma track_then_untrack path v evs ena cond evs2 ena2 cond2 arg0 d :
  well_keyed (tracked rb_map d) -> path_to_vnode namei proc (strlcpy PATH_MAX path) = Some v ->
  event_masks evs 0 0 = inr (ena, cond) -> event_masks evs2 0 0 = inr (ena2, cond2) ->
  let old := default (Trkvnode "" 0 0 v) (tracked rb_map d !! v) in
  let file_ena := u8 (Z.lor (trk_ena old) (Z.land (or_all ena ACCT_ENA_ALL) F_ENA)) in
  let file_cond := u8 (Z.lor (trk_flags old) (or_all cond ACCT_COND_ALL)) in
  let tracks := cmd_track namei proc true last arg0 (path :: evs) d in
  let asks := cmd_status namei proc true last [path] (r_driver tracks) in
  let untracks := cmd_untrack namei proc true last arg0 (path :: evs2) (r_driver asks) in
  let asks2 := cmd_status namei proc true last [path] (r_driver untracks) in
  r_code tracks = 0 /\ r_io tracks = [Out (print_ena file_ena); Out (print_cond file_cond)] /\
  r_code asks = 0 /\ r_io asks = r_io tracks /\
  r_code untracks = 0 /\ r_io untracks = [Out (print_ena (acct_ena (driver_ctl d))); Out (print_cond 0)] /\
  tracked rb_map (r_driver untracks) = delete v (tracked rb_map d) /\
  r_code asks2 = 0 /\ r_io asks2 = [Out (print_ena 0); Out (print_cond 0)].
Proof.
  intros Hw Hp He He2. cbv zeta.
  destruct (track_marks path v evs ena cond arg0 d Hw Hp He) as (d1 & -> & Hl & Hdel & Hena). cbn [r_driver r_code r_io].
  destruct (closed_same d1) as [Ht1 Hc1]. rewrite (status_prints path v (closed last d1)) by done. cbn [r_driver r_code r_io].
  destruct (closed_same (closed last d1)) as [Ht2 Hc2].
  destruct (untrack_forgets path v evs2 ena2 cond2 arg0 (closed last (closed last d1)) Hp He2) as (d2 & -> & Hd2).
  cbn [r_driver r_code r_io]. destruct (closed_same d2) as [Ht3 _].
  rewrite (status_prints path v (closed last d2)) by done. cbn [r_driver r_code r_io].
  unfold tracked in *. rewrite Hc2, Hc1, Hena, Ht3, Hd2, Ht2, Ht1, Hl, Hdel, lookup_delete_eq.
  cbn [default trk_ena trk_flags trk_or_flags trk_or_ena]. by destruct (rb_map (f_tracker d) !! v).
Qed.

(** C23: On a path that the kernel finds, and with every tracked file stored under its own vnode,
    [track] of a file prints the file events asked for and the conditions, all when none is named, added to
    those that the file had; [status] prints the same again; and [untrack] without events and
    conditions stops tracking this file and no other. *)
Theorem track_untrack path v evs ena cond arg0 d :
  well_keyed (tracked rb_map d) -> path_to_vnode namei proc (strlcpy PATH_MAX path) = Some v ->
  event_masks evs 0 0 = inr (ena, cond) ->
  let old := default (Trkvnode "" 0 0 v) (tracked rb_map d !! v) in
  let file_ena := u8 (Z.lor (trk_ena old) (Z.land (or_all ena ACCT_ENA_ALL) F_ENA)) in
  let file_cond := u8 (Z.lor (trk_flags old) (or_all cond ACCT_COND_ALL)) in
  let tracks := cmd_track namei proc true last arg0 (path :: evs) d in
  let asks := cmd_status namei proc true last [path] (r_driver tracks) in
  let untracks := cmd_untrack namei proc true last arg0 [path] (r_driver asks) in
  r_code tracks = 0 /\ r_io tracks = [Out (print_ena file_ena); Out (print_cond file_cond)] /\
  r_code asks = 0 /\ r_io asks = r_io tracks /\
  r_code untracks = 0 /\ tracked rb_map (r_driver untracks) = delete v (tracked rb_map d).
Proof.
  intros Hw Hp He. cbv zeta.
  destruct (track_then_untrack path v evs ena cond [] 0 0 arg0 d Hw Hp He eq_refl) as (? & ? & ? & ? & ? & _ & ? & _).
  by split_and!.
Qed.

(** Where the driver and the documents differ ([acct.h], and the help of [untrack] and [status]): [untrack] of some
    events and conditions forgets the file altogether; it prints the events of the driver; and [status]
    of a file that is not tracked is no error, but prints none. *)
Theorem untrack_forgets_all path v evs ena cond evs2 ena2 cond2 arg0 d :
  well_keyed (tracked rb_map d) -> path_to_vnode namei proc (strlcpy PATH_MAX path) = Some v ->
  event_masks evs 0 0 = inr (ena, cond) -> event_masks evs2 0 0 = inr (ena2, cond2) ->
  let tracks := cmd_track namei proc true last arg0 (path :: evs) d in
  let untracks := cmd_untrack namei proc true last arg0 (path :: evs2) (closed last (r_driver tracks)) in
  let asks := cmd_status namei proc true last [path] (r_driver untracks) in
  r_io untracks = [Out (print_ena (acct_ena (driver_ctl d))); Out (print_cond 0)] /\
  tracked rb_map (r_driver untracks) = delete v (tracked rb_map d) /\
  r_code asks = 0 /\ r_io asks = [Out (print_ena 0); Out (print_cond 0)].
Proof.
  intros Hw Hp He He2. cbv zeta.
  pose proof (track_then_untrack path v evs ena cond evs2 ena2 cond2 arg0 d Hw Hp He He2) as Ht. cbv zeta in Ht.
  destruct (track_marks path v evs ena cond arg0 d Hw Hp He) as (d1 & Hm & _). rewrite Hm in *. cbn [r_driver] in *.
  rewrite (status_prints path v (closed last d1)) in Ht by done. cbn [r_driver] in Ht.
  by destruct Ht as (_ & _ & _ & _ & _ & ? & ? & ? & ?).
Qed.
End Changes.

Section Features.
Context {T : Type} `{RBTree vnodep trkvnode T} (rb_map : T -> gmap vnodep trkvnode) `{!TrkTree rb_map}.
Variables (namei : Z -> string -> Z * option vnodep) (proc : Z) (last : bool).
Implicit Types d : driver T.

(** [enable] of features that are known switches them on, or all when none is named, and
    prints what is on then. *)
Lemma enable_ok args ena arg0 d : ena_masks args 0 = inr ena ->
  let on := Z.lor (acct_ena (driver_ctl d)) (or_all ena ACCT_ENA_ALL) in
  exists d', cmd_enable namei proc true last arg0 args d = Ran [Out (print_ena on)] 0 d' /\
    acct_ena (driver_ctl d') = on /\ tracked rb_map d' = tracked rb_map d.
Proof.
  intros He. cbv zeta. unfold cmd_enable, cmd_features. rewrite He. cbn [negb acctioctl acct_ena].
  eexists. split; [reflexivity|]. unfold tracked. by destruct last.
Qed.

(** [disable] of any features that are known switches off every event and forgets every
    file, although the help says that files are forgotten only when all of the file events
    are disabled; the number of monitored files that [status] prints stays as it was. *)
Theorem disable_forgets args ena arg0 d : ena_masks args 0 = inr ena ->
  let r := cmd_disable namei proc true last arg0 args d in
  r_io r = [Out (print_ena 0)] /\ r_code r = 0 /\
  acct_ena (driver_ctl (r_driver r)) = 0 /\ tracked rb_map (r_driver r) = ∅ /\
  r_io (cmd_status namei proc true last [] (r_driver r)) =
    [Out (print_ena 0); Out ("number of monitored files: " ++ pretty (acct_fcount (driver_ctl d)) ++ newline)%string].
Proof.
  intros He. cbv zeta. unfold cmd_disable, cmd_features. rewrite He. cbn [negb].
  pose proof (acct_disable_drops_all rb_map namei (AcctCtl (or_all ena ACCT_ENA_ALL) 0 0 "") proc d) as Hd.
  destruct (acctioctl _ _ _ _ d) as [[rc ctl] d']. destruct Hd as (-> & H1 & -> & H3 & H4); [by apply all_nonzero|].
  change (nz 0) with false. cbn [r_io r_code r_driver]. destruct (closed_same last d') as [Ht Hc].
  unfold tracked in *. rewrite Ht, Hc, H1, H3. repeat split. unfold cmd_status. cbn [negb acctioctl acct_ena set_ena set_fcount].
  change (nz 0) with false. by rewrite Hc, H1, H4.
Qed.
End Features.

(** The names that [print_ena] prints. *)
Definition ena_names (ena : Z) : list string :=
  (fun x => x.1) <$> List.filter (fun x => nz (Z.land ena x.2))
    [("fork", ACCT_ENA_FORK); ("exec", ACCT_ENA_EXEC); ("exit", ACCT_ENA_EXIT); ("open", ACCT_ENA_OPEN);
     ("close", ACCT_ENA_CLOSE); ("rename", ACCT_ENA_RENAME); ("unlink", ACCT_ENA_UNLINK)].

(** What [print_ena] prints, read again by [enable], is the mask. *)
Lemma ena_names_read ena : 0 <= ena < 128 ->
  ena_masks (ena_names ena) 0 = inr ena /\
  (ena <> 0 -> print_ena ena = ("events enabled:" ++ String.concat "" ((fun s => " " ++ s)%string <$> ena_names ena) ++ newline)%string).
Proof.
  intros He. assert (forallb (fun e => match ena_masks (ena_names e) 0 with inr m => m =? e | inl _ => false end &&
    ((e =? 0) || String.eqb (print_ena e) ("events enabled:" ++ String.concat "" ((fun s => " " ++ s)%string <$> ena_names e) ++ newline)))
    (seqZ 0 128) = true) as Ha by (vm_compute; reflexivity).
  rewrite forallb_forall in Ha. specialize (Ha ena). rewrite <- list_elem_of_In, elem_of_seqZ in Ha.
  specialize (Ha ltac:(lia)). apply andb_true_iff in Ha as [H1 H2]. split.
  - destruct (ena_masks _ _); [done|]. by apply Z.eqb_eq in H1 as ->.
  - intros Hne. apply orb_true_iff in H2 as [H2|H2]; [by apply Z.eqb_eq in H2|by apply String.eqb_eq in H2].
Qed.

(** *** The lines of the help *)

Lemma drop_text_length n s : (String.length (drop_text n s) <= String.length s - n)%nat.
Proof. revert s. induction n as [|n IH]; intros [|c s]; cbn [drop_text String.length]; try lia. specialize (IH s). lia. Qed.

Lemma take_text_length n s : (String.length (take_text n s) <= n)%nat.
Proof. revert s. induction n as [|n IH]; intros [|c s]; cbn [take_text String.length]; try lia. specialize (IH s). lia. Qed.

Lemma strrchr_lt s c i : strrchr s c = Some i -> (i < String.length s)%nat.
Proof.
  revert i. induction s as [|d s IH]; intros i; [done|]. cbn [strrchr String.length].
  destruct (strrchr s c) as [j|]; [intros [= <-]; specialize (IH j eq_refl); lia|].
  case_if; [intros [= <-]; lia|done].
Qed.

(** [wrap_print] ends, and no line is longer than 70 characters. *)
Lemma wrap_print_ok str : exists ls, wrap_print str = Some ls /\ Forall (fun l => (String.length l <= 70)%nat) ls.
Proof.
  unfold wrap_print. assert (Hf : (String.length str < S (String.length str))%nat) by lia. revert Hf. generalize (S (String.length str)) as fuel.
  intros fuel. revert str. induction fuel as [|fuel IH]; intros p Hf; [lia|]. cbn [wrap_loop].
  destruct (negb (70 <? strlen p) && _) eqn:Ed.
  - exists [p]. split; [done|]. apply andb_true_iff in Ed as [Ed _]. unfold strlen in Ed. cbool. constructor; [lia|constructor].
  - set (t := match strchr p NL with Some t => _ | None => _ end).
    assert (Ht : (t < 70)%nat).
    { assert (Hd : (default 69%nat (strrchr (take_text 70 p) BLANK) < 70)%nat).
      { destruct (strrchr (take_text 70 p) BLANK) as [i|] eqn:E; [|change (69 < 70)%nat; lia].
        change (i < 70)%nat; apply strrchr_lt in E. pose proof (take_text_length 70 p). lia. }
      unfold t. destruct (strchr p NL) as [i|]; [|done]. destruct (Nat.ltb_spec i 70); done. }
    destruct (decide (p = "")) as [->|Hne]; [by vm_compute in Ed|].
    assert (0 < String.length p)%nat by (destruct p; [done|simpl; lia]).
    pose proof (drop_text_length (S t) p).
    destruct (IH (drop_text (S t) p)) as (ls & -> & Hls); [lia|]. eexists. split; [done|]. constructor; [|done].
    pose proof (take_text_length t p). lia.
Qed.

(** *** Witnesses *)

Definition attached : driver (gmap vnodep trkvnode) := acctattach.
Definition noon (k : nat) : option broken_time := Some (BrokenTime 121 9 7 12 0 (Z.of_nat k) 5).
Definition no_error (e : Z) : string := "Undefined error: 0".

(** Everything is on, and [/bin/sh] is tracked. *)
Definition audited_driver : driver (gmap vnodep trkvnode) :=
  r_driver (cmd_track namei0 1 true true "acctctl" ["/bin/sh"] (r_driver (cmd_enable namei0 1 true true "acctctl" [] attached))).

(** A fork and an open before the first [read]; nothing; an exec while [watch] sleeps; then an exit. *)
Definition sample_events : list (list acct_op) :=
  [[OpFork true clock0 process0 process0; OpOpen true clock0 process0 bin_sh 2 0]; []; [];
   [OpExec true clock0 process0]; []; [OpExit true clock0 process0]].

Lemma watch_reports_witness : exists shown pending d',
  cmd_watch namei0 100 10000 true true noon no_error false sample_events audited_driver =
    Ok (report noon no_error false 0 shown, Waits, d') /\
  produced namei0 100 10000 (concat sample_events) audited_driver = shown ++ pending /\ rev (acct_list d') = pending /\
  (forallb allocated (concat sample_events) = true ->
     report noon no_error false 0 shown = imap (fun k n => Out (msg_text noon no_error false k n)) shown) /\
  (forall i j n m, shown !! i = Some n -> shown !! j = Some m -> (i <= j)%nat ->
     ac_seq (acc n) <> Z.of_nat i -> ac_seq (acc m) <> Z.of_nat j).
Proof.
  apply (watch_reports namei0 100 10000 true noon no_error false sample_events audited_driver);
    [reflexivity|reflexivity|discriminate|intros k; by eexists|reflexivity|reflexivity].
Defined.

(** What the run prints. *)
Example watch_prints :
  (match cmd_watch namei0 100 10000 true true noon no_error false sample_events audited_driver with Ok (out, Waits, _) => out | _ => [] end) =
  (fun s => Out (s ++ newline)%string) <$>
    ["[2021-10-07T12:00:00.005Z] fork pid=17 uid=1000 gid=1000 tty=255:16777215 cmd='sh' child=17";
     "[2021-10-07T12:00:01.005Z] open pid=17 uid=1000 gid=1000 tty=255:16777215 cmd='sh' path='/bin/sh' mode=rw success";
     "[2021-10-07T12:00:02.005Z] exec pid=17 uid=1000 gid=1000 tty=255:16777215 cmd='sh'";
     "[2021-10-07T12:00:03.005Z] exit pid=17 uid=1000 gid=1000 tty=255:16777215 cmd='sh' utime=0s stime=0s mem=0 io=3"].
Proof. vm_compute. reflexivity. Qed.

(** One record without memory, and every record after it has the warning. *)
Example watch_warns :
  (match cmd_watch namei0 100 10000 true true noon no_error true
     [[OpExec true clock0 process0; OpExec false clock0 process0; OpExec true clock0 process0; OpExec true clock0 process0]; []; []] audited_driver
   with Ok (out, _, _) => (fun x => match x with Out _ => true | Err _ => false end) <$> out | _ => [] end) =
  [true; false; true; false; true].
Proof. vm_compute. reflexivity. Qed.

Lemma track_untrack_witness :
  let tracks := cmd_track namei0 1 true true "acctctl" ["/bin/sh"; "open"; "read"] attached in
  let asks := cmd_status namei0 1 true true ["/bin/sh"] (r_driver tracks) in
  let untracks := cmd_untrack namei0 1 true true "acctctl" ["/bin/sh"] (r_driver asks) in
  r_io tracks = [Out (print_ena 8); Out (print_cond 1)] /\ r_io asks = r_io tracks /\
  tracked (fun t => t) (r_driver untracks) = ∅.
Proof.
  pose proof (track_untrack (fun t => t) namei0 1 true "/bin/sh" bin_sh ["open"; "read"] 8 1 "acctctl" attached
    (map_Forall_empty _) eq_refl eq_refl) as Hp.
  cbv zeta in *. destruct Hp as (_ & H1 & _ & H2 & _ & H3). split; [exact H1|]. split; [exact H2|].
  etransitivity; [exact H3|]. reflexivity.
Defined.

Lemma untrack_forgets_all_witness :
  let tracks := cmd_track namei0 1 true true "acctctl" ["/bin/sh"; "open"; "read"] attached in
  let untracks := cmd_untrack namei0 1 true true "acctctl" ["/bin/sh"; "read"] (closed true (r_driver tracks)) in
  let asks := cmd_status namei0 1 true true ["/bin/sh"] (r_driver untracks) in
  r_code asks = 0 /\ r_io asks = [Out (print_ena 0); Out (print_cond 0)].
Proof.
  apply (untrack_forgets_all (fun t => t) namei0 1 true "/bin/sh" bin_sh ["open"; "read"] 8 1 ["read"] 0 1 "acctctl" attached
    (map_Forall_empty _) eq_refl eq_refl eq_refl).
Defined.

Lemma disable_forgets_witness :
  let r := cmd_disable namei0 1 true true "acctctl" ["fork"] audited_driver in
  r_io r = [Out (print_ena 0)] /\ r_code r = 0 /\
  acct_ena (driver_ctl (r_driver r)) = 0 /\ tracked (fun t => t) (r_driver r) = ∅ /\
  r_io (cmd_status namei0 1 true true [] (r_driver r)) =
    [Out (print_ena 0); Out ("number of monitored files: " ++ pretty (acct_fcount (driver_ctl audited_driver)) ++ newline)%string].
Proof. exact (disable_forgets (fun t => t) namei0 1 true ["fork"] ACCT_ENA_FORK "acctctl" audited_driver eq_refl). Defined.

(** [track] of a file that is not there: the status of [ioctl], and nothing is changed. *)
Example track_missing :
  acctctl_main (T := gmap vnodep trkvnode) namei0 100 10000 1 true true noon no_error ["acctctl"; "track"; "/none"] [] attached =
  Ok ([Err "ioctl(ACCT_IOC_TRACK_FILE)"], Exits EXIT_IOCTL, attached).
Proof. vm_compute. reflexivity. Qed.

Example watch_json :
  acctctl_main (T := gmap vnodep trkvnode) namei0 100 10000 1 true true noon no_error ["acctctl"; "watch"; "-x"] [] attached =
  Ok (usage "acctctl", Exits EXIT_USAGE, attached).
Proof. vm_compute. reflexivity. Qed.
